(* ===== verification/_CoqProject ===== *)
-Q . S2P
Prelude.v
JsNum.v
JsVal.v
QosTypes.v
Profiles.v
Signals.v
StateMachine.v
Planner.v
Probe.v
Trace.v
Clock.v
Sampler.v
Executor.v
Coordinator.v
Protocol.v
SignalChannel.v
ProducerAdapter.v
StatsProvider.v
Overrides.v
Controller.v
ControllerProofs.v
ControllerWitnesses.v
Factory.v
JsConv.v
DownlinkHints.v
DownlinkProtocol.v
DownlinkSampler.v
DownlinkReporter.v
ScalabilityModes.v
OrtcValidate.v
Ortc.v
OrtcProofs.v
ClientBase.v
Producer.v
Consumer.v
DataChannels.v
Transport.v
TransportRun.v
TransportProofs.v
TransportAnswers.v
TransportClose.v
TransportSync.v
TransportWitnesses.v
Device.v
JsString.v
SdpUtils.v
SdpProofs.v
MediaSection.v
MediaSectionProofs.v
RemoteSdp.v
RemoteSdpProofs.v
SdpWitnesses.v
Browser.v
HandlerBase.v
Chrome111.v
HandlerLogic.v
Chrome74.v
ReactNativeUnifiedPlan.v
Safari12.v
Chrome70.v
Firefox120.v
Firefox60.v
PlanBBase.v
Chrome67.v
Chrome55.v
Safari11.v
ReactNative.v
Handlers.v
HandlerProofs.v
PlanBProofs.v
HandlerRuns.v
Jsep.v
JsepProofs.v
JsepHandlers.v
HandlerWitnesses.v
DemoRequests.v
DemoQos.v
DemoSession.v
DemoCapture.v
Edge11.v
