(* ===== verification/Prelude.v ===== *)
(** * mediasoup-cpp client library: verification development

    The repository holds a mediasoup server in C++ and a browser client in
    JavaScript.  This development is about the client under src/client/lib: its
    quality-of-service library (qos/, the repository's own work) and the parts it
    shares with mediasoup-client: the device, its transports with producers,
    consumers and data channels, the ORTC layer, the session descriptions and the
    browser handlers; and about the page under public/ that uses it.

    ** The program

    A publisher has one controller per producer.  Its sampler asks the statistics
    provider for a snapshot of the sender's WebRTC statistics; the controller
    derives signals from two snapshots, runs them through a state machine, plans
    actions on a quality ladder, has an executor apply them to the producer,
    watches a recovery with a probe, and publishes a snapshot through a signalling
    channel.  The channel also brings policies and overrides from the server.  A
    peer session owns several controllers and a coordinator that decides which
    tracks to sacrifice.  A subscriber has hints per consumer, a sampler that
    matches receiver statistics to them and a reporter that sends the result.

    Below this layer a device negotiates capabilities with the router through the
    ORTC layer and creates transports.  A transport serialises the application's
    requests in a queue, batches those about consumers, and passes them to a
    handler.  The handler drives one peer connection of the browser: it composes
    the remote description by itself, section by section, and reads what it needs
    from the local one.

    ** Files

    Foundations.
    - [Prelude]: exceptions ([outcome]) with their monad, JavaScript [Map], [Set]
      and array operations, stable sorting, the tactics and the hint databases.
    - [JsNum]: numbers as IEEE doubles, with rounding, NaN and infinities.
    - [JsVal]: dynamically typed values; [JsConv]: the conversion [Number(v)];
      [JsString]: strings and their methods, the conversion [String(v)].

    Publisher quality of service; each file models the source file of its name.
    - [QosTypes] (types.d.ts, constants.js), [Profiles] (profiles.js).
    - [Signals] (signals.js), [StateMachine] (stateMachine.js), [Planner]
      (planner.js), [Probe] (probe.js), [Trace] (trace.js).
    - [Clock] (clock.js): the manual clock; timer callbacks act on a world.
    - [Sampler] (sampler.js), proved against the class [QosClock], which the
      manual clock implements.
    - [Executor] (executor.js), [Coordinator] (coordinator.js).
    - [Protocol] (protocol.js): parsers over dynamic values; the class [Codec]
      pairs a decoder with its encoder.
    - [SignalChannel], [ProducerAdapter], [StatsProvider] (adapters/).
    - [Overrides] and [Controller] (controller.js): the override store, and the
      controller over the classes [ActionExecutor] and [SnapshotSink];
      [ControllerProofs] has its invariant and behaviour, [ControllerWitnesses]
      concrete runs.
    - [Factory] (factory.js): the classes are instantiated with the executor, the
      adapter and the channel; sessions of several producers.

    Subscriber quality of service.
    - [DownlinkHints], [DownlinkProtocol], [DownlinkSampler], [DownlinkReporter]
      (the four downlink files): the hint objects are shared by reference, so these
      files have a heap of objects.

    ORTC.
    - [OrtcValidate] and [Ortc] (ortc.js), [OrtcProofs]; [ScalabilityModes].

    Device and transports.
    - [ClientBase] (errors.js): errors, events, the store of media tracks, and the
      interface of the awaitqueue package.
    - [Producer], [Consumer], [DataChannels] (DataProducer.js, DataConsumer.js;
      their life cycle is stated once against the class [Closable]).
    - [Transport] (Transport.js): its state, guards, and the calls that need no
      queue; [TransportRun]: the queued commands, cut at their awaits, and the
      runs of a transport; [TransportProofs], [TransportSync], [TransportAnswers]
      and [TransportClose]: the invariants of these runs; [TransportWitnesses].
    - [Device] (Device.js).

    Session descriptions.
    - [SdpUtils] (handlers/sdp/*Utils.js, handlers/ortc/utils.js), [SdpProofs].
    - [MediaSection] (handlers/sdp/MediaSection.js), [MediaSectionProofs].
    - [RemoteSdp] (handlers/sdp/RemoteSdp.js): sections and description share the
      objects they are made of, so these live in a store; [RemoteSdpProofs];
      [SdpWitnesses].

    Browser handlers.
    - [Browser]: the classes [Browser] and [SdpText], what the browser and the
      sdp-transform package offer, and the monad of the handlers' methods.
    - [HandlerBase]: the state and the negotiations the handlers share, what sending
      with older browsers has in common, and their interface [Methods]
      (HandlerInterface.d.ts).
    - [Chrome111], [Chrome74], [Chrome70], [Safari12], [ReactNativeUnifiedPlan],
      [Firefox120], [Firefox60] (handlers/, files of these names): the handlers for
      unified plan.
    - [Chrome67], [Chrome55], [Safari11], [ReactNative]: the handlers for plan B, with
      [PlanBBase]; [Handlers]: the factories by name, as Device.js chooses them.
    - [HandlerLogic]: the states of a negotiation and a logic of actions in which a
      handler is an instance of the class [Negotiator]; [HandlerProofs] and
      [PlanBProofs]: the instances; [HandlerRuns]: what holds with any browser.
    - [Jsep]: the class [JsepBrowser], the rules of RFC 8829; [JsepProofs] and
      [JsepHandlers]: negotiations with such a browser; [HandlerWitnesses]: a
      smallest one.
    - [Edge11] (Edge11.js, handlers/ortc/edgeUtils.js): the handler without session
      descriptions, with an interface of the browser of its own, and its runs.

    Demo page (public/qos-demo.js).
    - [DemoRequests]: requests with their timeouts over sockets that come and go.
    - [DemoSession]: joining, publishing, receiving and the recovery after a restart
      of the server, as tasks cut at their awaits and answered in any order.
    - [DemoCapture]: opening the cameras, each once.
    - [DemoQos]: the policy, the profile and the codec the page chooses, the hints of
      its layout, the statistics and texts of its panel, the groups of its videos.

    ** What the theorems show

    - Numbers: rounding is monotone and exact on safe integers; on any report the
      signals are free of NaN, non-negative and, for loss, within [0, 1].
    - State machine and probe: which histories lead to which transition, that a
      healthy network recovers and a congested one is noticed in time, and that a
      probe decides on exactly the samples it asks for.
    - Planner: plans stay on the ladder, move one level at a time and respect the
      server's clamp, with one exception that is stated.
    - Protocol: the parsers produce exactly the well-formed messages, and the
      encoding of each of them parses back.
    - Overrides: the merged override is the most restrictive one of those alive.
    - Controller: an invariant of all its entry points; the rollback of a failed
      probe; the level after a sample; permissions; validity of what it publishes.
    - Asynchronous parts: at most one sample or report in flight, timers owned by
      their sampler, no failure that wedges a component, sequence numbers that
      increase; hints changed while a report waits are the ones it sends.
    - Session: the decision is independent of the order of registration, and every
      controller ends up with the coordination it prescribes.
    - ORTC: validation is a normalisation; negotiation on validated capabilities
      never throws and pairs codecs of one type; the parameters for sending and
      for the remote description agree.
    - Device and transports: a loaded device is consistent; a transport at rest has
      handled every request, answered every [consume] call and told the handler
      about each consumer what the application last asked for; closing is complete;
      a producer follows the track it holds whatever overlaps.
    - Session descriptions: the remote description refines a list of sections with
      identifiers; open sections stay; what the client writes lists the codecs it
      was given, and what it reads are capabilities the validator accepts; legacy
      simulcast and plan B sections read back.
    - Handlers: as long as methods do not overlap, and whatever the browser does, the
      calls of a handler follow the states of the negotiation, and its transport is
      connected once, before the first local description; with a browser that follows
      JSEP the answers match the offers section by section.  The transports of Edge
      start in order and once.
    - Demo page: every request is settled once and in time; joining, publishing and
      the recovery end whatever is answered, one recovery runs at a time, and only it
      keeps the user from joining; its policy and profile are valid; a camera is
      captured or stopped; texts are shown as they are, and every video once.
    Lemmas that show a defect are kept beside the component they concern.

    ** Modelling choices and bounds

    - A function that may throw returns an [outcome]; messages are kept except for
      interpolated values.  State is passed explicitly.  An asynchronous method is
      cut at its awaits where interleaving matters ([Sampler], [DownlinkReporter],
      [Producer], [TransportRun], [Device], [DemoSession]); elsewhere it is one
      sequential run.  The handlers' methods are actions that keep the state when
      they throw.
    - A method of a handler is one action, so the runs of a handler have no two methods
      at once.  The transport's queue sees to that, except for the [stopSending] that
      the [catch] of a failed [produce] starts and does not wait for
      (Transport.js:359): [TransportRun] has it, and [TransportWitnesses] a run in
      which the next method starts before it has ended; what two negotiations at once
      do to the connection is in [HandlerRuns].
    - Times that pass are inputs, and timers that are due fire: a request of the demo
      page is given up exactly ten seconds after it was sent.
    - Counters and sequence numbers are integers, times of the controller integer
      milliseconds; measurements are doubles.  The sign of zero is not modelled.
    - [Clock.run_loop] has fuel: [loop_fuel], one more than the most often any timer is due,
      is proved to be enough, so advancing a clock is total.  All other recursion is
      structural.
    - Parameters for code outside the library: browser statistics and media
      objects, signalling transport, application callbacks, [localeCompare], the
      user agent parser, the await queue, sdp-transform and the H.264 package.  The
      hypotheses about them (a comparison is a consistent order, repeating an
      applied action is harmless, the queue runs tasks in order, a browser follows
      RFC 8829) are met by the instances of the witnesses.
    - Each bundle of a session holds its own copy of the shared clock and transport,
      which its controllers use independently.

    ** Not modelled

    FakeHandler.js stands in for a browser in tests and has no behaviour of the
    program; utils.js, event emitters and loggers are glue.  What the demo page only
    renders and the timers that refresh it are left out, and so are the two requests
    for a key frame it makes for a new video consumer and does not wait for.  The
    bundle under public/ is generated from the client.  The C++ server and the native
    client are outside the scope; the messages they send are inputs here. *)

From stdpp Require Export prelude strings gmap list.
From Stdlib Require Export Lia Sorted.

(** ** Scopes, databases and tactics of the development *)

Create HintDb qos.
Create Rewrite HintDb qos.

(** Destructs the scrutinee of the first [match] or [if] of the goal, keeping
    the equation. *)
Ltac split_match :=
  match goal with
  | |- context [ match ?x with _ => _ end ] => destruct x eqn:?
  end.

(** The same in the hypotheses. *)
Ltac split_match_hyp :=
  match goal with
  | H : context [ match ?x with _ => _ end ] |- _ => destruct x eqn:?
  end.

(** Turns boolean connectives in the hypotheses into propositions. *)
Ltac bool_hyps :=
  repeat match goal with
  | H : (_ && _)%bool = true |- _ => apply andb_true_iff in H as [? ?]
  | H : (_ || _)%bool = false |- _ => apply orb_false_iff in H as [? ?]
  | H : negb _ = true |- _ => apply negb_true_iff in H
  | H : negb _ = false |- _ => apply negb_false_iff in H
  end.

(** Z comparisons as propositions, then [lia]. *)
Ltac zlia :=
  repeat match goal with
  | H : (_ <? _)%Z = true |- _ => apply Z.ltb_lt in H
  | H : (_ <? _)%Z = false |- _ => apply Z.ltb_ge in H
  | H : (_ <=? _)%Z = true |- _ => apply Z.leb_le in H
  | H : (_ <=? _)%Z = false |- _ => apply Z.leb_gt in H
  | H : (_ =? _)%Z = true |- _ => apply Z.eqb_eq in H
  | H : (_ =? _)%Z = false |- _ => apply Z.eqb_neq in H
  end; lia.

(** ** Exceptions

    A JavaScript computation that may throw returns an [outcome]; the payload of
    [Throw] is the message of the [Error] object. *)

Inductive outcome (A : Type) : Type :=
| Ok (a : A)
| Throw (msg : string).
Arguments Ok {A} _.
Arguments Throw {A} _.

#[export] Instance outcome_ret : MRet outcome := @Ok.
#[export] Instance outcome_bind : MBind outcome := λ A B f m,
  match m with Ok a => f a | Throw e => Throw e end.
#[export] Instance outcome_fmap : FMap outcome := λ A B f m,
  match m with Ok a => Ok (f a) | Throw e => Throw e end.

Definition is_ok {A} (m : outcome A) : bool :=
  match m with Ok _ => true | Throw _ => false end.

Lemma bind_ok_inv {A B} (m : outcome A) (f : A → outcome B) b :
  m ≫= f = Ok b → ∃ a, m = Ok a ∧ f a = Ok b.
Proof. destruct m; simpl; [eauto | discriminate]. Qed.

Lemma bind_throw_inv {A B} (m : outcome A) (f : A → outcome B) e :
  m ≫= f = Throw e → m = Throw e ∨ ∃ a, m = Ok a ∧ f a = Throw e.
Proof. destruct m; simpl; intros H; [eauto | left; congruence]. Qed.

(** Splits every hypothesis [m ≫= f = Ok b] into its steps. *)
Ltac bind_inv :=
  repeat match goal with
  | H : _ ≫= _ = Ok _ |- _ =>
      let a := fresh "a" in let H1 := fresh "Hm" in
      apply bind_ok_inv in H as (a & H1 & H)
  | H : Ok _ = Ok _ |- _ => injection H as H
  | H : Throw _ = Ok _ |- _ => discriminate H
  | H : Ok _ = Throw _ |- _ => discriminate H
  end.

(** [throw_if b msg]: the guard [if (b) { throw new TypeError(msg); }]. *)
Definition throw_if (b : bool) (msg : string) : outcome unit :=
  if b then Throw msg else Ok tt.

Lemma throw_if_ok b msg u : throw_if b msg = Ok u → b = false.
Proof. by destruct b. Qed.
#[export] Hint Resolve throw_if_ok : qos.

(** [for (const x of l) body(x)] where [body] returns the (possibly mutated)
    element or throws: the loop stops at the first exception. *)
Fixpoint traverse {A B} (f : A → outcome B) (l : list A) : outcome (list B) :=
  match l with
  | [] => Ok []
  | x :: l => y ← f x; ys ← traverse f l; Ok (y :: ys)
  end.

Lemma traverse_ok {A B} (f : A → outcome B) l ys :
  traverse f l = Ok ys ↔ Forall2 (λ x y, f x = Ok y) l ys.
Proof.
  revert ys. induction l as [|x l IH]; intros ys; simpl.
  - split; [intros [= <-]; constructor | by inversion 1].
  - split.
    + intros H. bind_inv. subst. constructor; [done|]. by apply IH.
    + inversion 1 as [|? y ? ys' Hx Hl]; subst. rewrite Hx; simpl.
      apply IH in Hl. by rewrite Hl.
Qed.

Lemma traverse_length {A B} (f : A → outcome B) l ys :
  traverse f l = Ok ys → length ys = length l.
Proof. intros H%traverse_ok. symmetry. by eapply Forall2_length. Qed.

(** If every element either satisfies [P] after [f] or throws, the results do. *)
Lemma traverse_Forall {A B} (f : A → outcome B) (P : B → Prop) l ys :
  (∀ x y, f x = Ok y → P y) → traverse f l = Ok ys → Forall P ys.
Proof.
  intros HP H%traverse_ok. induction H; constructor; eauto.
Qed.

(** A loop whose body leaves its elements unchanged returns the list itself. *)
Lemma traverse_id {A} (f : A → outcome A) l :
  (∀ x, x ∈ l → f x = Ok x) → traverse f l = Ok l.
Proof.
  induction l as [|x l IH]; intros Hl; [done|]; simpl.
  rewrite Hl by (left); simpl. rewrite IH; [done|].
  intros; apply Hl; by right.
Qed.

(** Whether the loop runs to its end depends on the elements only. *)
Lemma traverse_is_ok {A B} (f : A → outcome B) l :
  is_ok (traverse f l) = forallb (λ x, is_ok (f x)) l.
Proof.
  induction l as [|x l IH]; [done|]; simpl.
  destruct (f x); simpl; [|done]. by destruct (traverse f l).
Qed.

(** ** JavaScript [Map]

    A [Map] iterates its entries in insertion order; [set] on a present key
    keeps the position, [delete] followed by [set] moves it to the end.  The
    model is the list of entries. *)

Section JsMap.
Context {K V : Type} `{EqDecision K}.

Abbreviation jsmap := (list (K * V)).

Fixpoint map_get (m : jsmap) (k : K) : option V :=
  match m with
  | [] => None
  | (k', v) :: m => if decide (k' = k) then Some v else map_get m k
  end.

Fixpoint map_set (m : jsmap) (k : K) (v : V) : jsmap :=
  match m with
  | [] => [(k, v)]
  | (k', v') :: m =>
      if decide (k' = k) then (k', v) :: m else (k', v') :: map_set m k v
  end.

Definition map_delete (m : jsmap) (k : K) : jsmap :=
  filter (λ e, e.1 ≠ k) m.

Definition map_keys (m : jsmap) : list K := m.*1.

Lemma map_get_set_eq m k v : map_get (map_set m k v) k = Some v.
Proof.
  induction m as [|[k' v'] m IH]; simpl; [by rewrite decide_True|].
  destruct (decide (k' = k)) as [->|Hne]; simpl.
  - by rewrite decide_True.
  - by rewrite decide_False.
Qed.

Lemma map_get_set_ne m k k' v : k ≠ k' → map_get (map_set m k v) k' = map_get m k'.
Proof.
  intros Hne. induction m as [|[k0 v0] m IH]; simpl.
  - by rewrite decide_False.
  - destruct (decide (k0 = k)) as [->|]; simpl; [by rewrite !decide_False|].
    by destruct (decide (k0 = k')).
Qed.

Lemma map_get_delete_eq m k : map_get (map_delete m k) k = None.
Proof.
  induction m as [|[k0 v0] m IH]; [done|]. unfold map_delete.
  rewrite filter_cons; simpl. case_decide; simpl; [|done].
  by rewrite decide_False.
Qed.

Lemma map_get_delete_ne m k k' : k ≠ k' → map_get (map_delete m k) k' = map_get m k'.
Proof.
  intros Hne. induction m as [|[k0 v0] m IH]; [done|]. unfold map_delete.
  rewrite filter_cons; simpl. case_decide as Hk; simpl.
  - by destruct (decide (k0 = k')).
  - subst. by rewrite decide_False.
Qed.

Lemma map_get_elem m k v : map_get m k = Some v → (k, v) ∈ m.
Proof.
  induction m as [|[k0 v0] m IH]; simpl; [done|].
  case_decide; intros ?; simplify_eq; [left | right; auto].
Qed.

Lemma map_get_none m k : map_get m k = None ↔ k ∉ map_keys m.
Proof.
  unfold map_keys. induction m as [|[k0 v0] m IH]; csimpl; [split; [set_solver|done]|].
  rewrite not_elem_of_cons, <-IH. case_decide; naive_solver.
Qed.

Lemma map_keys_set m k v :
  map_keys (map_set m k v) = if decide (k ∈ map_keys m) then map_keys m else map_keys m ++ [k].
Proof.
  unfold map_keys. induction m as [|[k0 v0] m IH]; [done|]. csimpl.
  destruct (decide (k0 = k)) as [->|]; csimpl.
  - rewrite decide_True by set_solver. done.
  - rewrite IH. do 2 case_decide; set_solver.
Qed.

Lemma map_set_NoDup m k v : NoDup (map_keys m) → NoDup (map_keys (map_set m k v)).
Proof.
  intros H. rewrite map_keys_set. case_decide; [done|].
  apply NoDup_app; split_and!; [done| set_solver | apply NoDup_singleton].
Qed.

Lemma map_delete_NoDup m k : NoDup (map_keys m) → NoDup (map_keys (map_delete m k)).
Proof.
  induction m as [|[k0 v0] m IH]; [done|]; simpl.
  rewrite NoDup_cons. intros [Hk Hm]. unfold map_delete.
  rewrite filter_cons; case_decide; simpl; [|auto].
  apply NoDup_cons; split; [|auto].
  intros Hin. apply Hk. clear -Hin. unfold map_keys in *.
  apply list_elem_of_fmap in Hin as (e & -> & He).
  apply list_elem_of_filter in He as [_ He].
  apply list_elem_of_fmap; eauto.
Qed.

Lemma map_delete_Forall (P : K * V → Prop) m k : Forall P m → Forall P (map_delete m k).
Proof.
  rewrite !Forall_forall. intros H e [_ He]%list_elem_of_filter. auto.
Qed.

Lemma map_set_elem m k v k' v' :
  NoDup (map_keys m) →
  (k', v') ∈ map_set m k v ↔ (k' = k ∧ v' = v) ∨ (k' ≠ k ∧ (k', v') ∈ m).
Proof.
  induction m as [|[k0 v0] m IH]; simpl; intros Hnd.
  - rewrite list_elem_of_singleton. naive_solver set_solver.
  - apply NoDup_cons in Hnd as [Hk0 Hnd]. specialize (IH Hnd).
    assert (∀ x, (k0, x) ∈ m → False) as Hno.
    { intros x Hx. apply Hk0. apply list_elem_of_fmap. by exists (k0, x). }
    case_decide; subst; rewrite !elem_of_cons, ?IH; naive_solver.
Qed.
End JsMap.

#[export] Hint Rewrite @map_get_set_eq @map_get_delete_eq : qos.
#[export] Hint Resolve map_set_NoDup map_delete_NoDup map_delete_Forall : qos.

(** ** JavaScript [Set]: the elements in insertion order *)

Definition set_add {A} `{EqDecision A} (s : list A) (x : A) : list A :=
  if decide (x ∈ s) then s else s ++ [x].

Definition set_remove {A} `{EqDecision A} (s : list A) (x : A) : list A := filter (λ y, y ≠ x) s.

Lemma set_add_elem {A} `{EqDecision A} (s : list A) x y : y ∈ set_add s x ↔ y = x ∨ y ∈ s.
Proof. unfold set_add. case_decide; set_solver. Qed.

Lemma set_add_NoDup {A} `{EqDecision A} (s : list A) x : NoDup s → NoDup (set_add s x).
Proof.
  intros H. unfold set_add. case_decide; [done|].
  apply NoDup_app; split_and!; [done|set_solver|apply NoDup_singleton].
Qed.

Lemma set_remove_elem {A} `{EqDecision A} (s : list A) x y : y ∈ set_remove s x ↔ y ≠ x ∧ y ∈ s.
Proof. unfold set_remove. by rewrite list_elem_of_filter. Qed.

(** Removing an element just added restores the set. *)
Lemma set_remove_add {A} `{EqDecision A} (s : list A) x : x ∉ s → set_remove (set_add s x) x = s.
Proof.
  intros Hx. unfold set_add, set_remove. rewrite decide_False by done. rewrite filter_app.
  rewrite filter_cons_False by (intros H; by apply H). rewrite filter_nil, app_nil_r.
  induction s as [|y s IH]; [done|]. rewrite filter_cons_True by set_solver. f_equal. set_solver.
Qed.

(** ** Lists: the [Array] operations the components share *)

(** [Array.prototype.map] is the Standard Library's [map]; stdpp's lemmas are
    about [fmap]. *)
Lemma map_fmap {A B} (f : A → B) l : map f l = f <$> l.
Proof. reflexivity. Qed.

(** [Array.prototype.find]. *)
Fixpoint array_find {A} (p : A → bool) (l : list A) : option A :=
  match l with
  | [] => None
  | x :: l => if p x then Some x else array_find p l
  end.

Lemma array_find_some {A} (p : A → bool) l x :
  array_find p l = Some x → x ∈ l ∧ p x = true.
Proof.
  induction l as [|y l IH]; simpl; [done|].
  destruct (p y) eqn:E; intros ?; simplify_eq; [split; [left|done]|].
  destruct IH; [done|]. split; [by right|done].
Qed.

Lemma array_find_none {A} (p : A → bool) l :
  array_find p l = None ↔ Forall (λ x, p x = false) l.
Proof.
  induction l as [|y l IH]; simpl; [naive_solver constructor|].
  rewrite Forall_cons. destruct (p y); naive_solver.
Qed.

Lemma existsb_elem {A} (p : A → bool) l : existsb p l = true ↔ ∃ x, x ∈ l ∧ p x = true.
Proof. rewrite existsb_exists. by setoid_rewrite list_elem_of_In. Qed.

Lemma filter_all {A} (p : A → bool) l : (∀ x, x ∈ l → p x = true) → List.filter p l = l.
Proof.
  induction l as [|x l IH]; intros H; simpl; [done|]. rewrite H by left. f_equal. apply IH.
  intros; apply H; by right.
Qed.

Lemma existsb_none {A} (p : A → bool) l : existsb p l = false ↔ ∀ x, x ∈ l → p x = false.
Proof.
  split.
  - intros H x Hx. destruct (p x) eqn:E; [|done].
    assert (existsb p l = true) by (apply existsb_elem; eauto). congruence.
  - intros H. destruct (existsb p l) eqn:E; [|done].
    apply existsb_elem in E as (x & Hx & Hp). by rewrite H in Hp.
Qed.

(** ** [Array.prototype.sort]

    A stable sort by a comparison function; for a consistent comparison the
    result does not depend on the algorithm. *)

Section JsSort.
Context {A : Type} (cmp : A → A → Z).

Fixpoint sort_insert (x : A) (l : list A) : list A :=
  match l with
  | [] => [x]
  | y :: l => if (cmp x y <=? 0)%Z then x :: y :: l else y :: sort_insert x l
  end.

Definition js_sort (l : list A) : list A := foldr sort_insert [] l.

Definition cmp_le (x y : A) : Prop := (cmp x y <= 0)%Z.

(** A consistent comparison is a total preorder. *)
Record consistent_cmp : Prop := {
  cmp_total : ∀ x y, (0 < cmp x y)%Z → (cmp y x <= 0)%Z;
  cmp_trans : ∀ x y z, cmp_le x y → cmp_le y z → cmp_le x z;
}.

Lemma sort_insert_perm x l : sort_insert x l ≡ₚ x :: l.
Proof.
  induction l as [|y l IH]; simpl; [done|]. split_match; [done|].
  rewrite IH. apply Permutation_swap.
Qed.

Lemma js_sort_perm l : js_sort l ≡ₚ l.
Proof. induction l as [|x l IH]; simpl; [done|]. by rewrite sort_insert_perm, IH. Qed.

Lemma sort_insert_sorted x l : consistent_cmp →
  StronglySorted cmp_le l → StronglySorted cmp_le (sort_insert x l).
Proof.
  intros Hc. induction 1 as [|y l Hs IH Hall]; simpl; [repeat constructor|].
  destruct (cmp x y <=? 0)%Z eqn:E.
  - apply Z.leb_le in E. constructor; [by constructor|]. constructor; [done|].
    eapply Forall_impl; [exact Hall|]. intros z Hz. by eapply cmp_trans.
  - apply Z.leb_gt in E. constructor; [done|]. rewrite sort_insert_perm. constructor; [|done].
    by apply (cmp_total Hc).
Qed.

Lemma js_sort_sorted l : consistent_cmp → StronglySorted cmp_le (js_sort l).
Proof. intros Hc. induction l; simpl; [constructor|]. by apply sort_insert_sorted. Qed.

(** Sorting a sorted list changes nothing. *)
Lemma js_sort_id l : StronglySorted cmp_le l → js_sort l = l.
Proof.
  induction 1 as [|y l Hs IH Hall]; simpl; [done|]. rewrite IH.
  destruct l as [|z l]; simpl; [done|]. apply Forall_cons in Hall as [Hz _].
  unfold cmp_le in Hz. by apply Z.leb_le in Hz as ->.
Qed.

(** Two sorted arrangements of the same elements agree when only equal elements
    tie. *)
Lemma sorted_unique l l' :
  StronglySorted cmp_le l → StronglySorted cmp_le l' → l ≡ₚ l' →
  (∀ x y, x ∈ l → y ∈ l → cmp_le x y → cmp_le y x → x = y) → l = l'.
Proof.
  intros Hs. revert l'. induction Hs as [|x l Hs IH Hall]; intros l' Hs' Hp Hanti.
  { by apply Permutation_nil_l in Hp. }
  destruct Hs' as [|y l' Hs' Hall']; [by apply Permutation_nil_r in Hp|].
  assert (x = y) as ->.
  { assert (x ∈ y :: l') as Hx by (rewrite <-Hp; left).
    assert (y ∈ x :: l) as Hy by (rewrite Hp; left).
    apply elem_of_cons in Hx as [->|Hx]; [done|]. apply elem_of_cons in Hy as [->|Hy]; [done|].
    rewrite Forall_forall in Hall, Hall'. apply Hanti; [left|by right|auto|auto]. }
  f_equal. apply IH; [done|by apply Permutation_cons_inv in Hp|].
  intros; apply Hanti; [by right|by right|done|done].
Qed.
End JsSort.
