(* ===== verification/JsNum.v ===== *)
(** * JavaScript numbers

    A JavaScript [number] is an IEEE 754 double.  A finite double is modelled by
    the rational it denotes; every arithmetic operation computes the exact
    rational and rounds it to the nearest double, ties to even, with gradual
    underflow and overflow to an infinity ([rnd]).  [NaN] and the infinities are
    constructors of their own.  The sign of zero is not represented: the code
    base neither divides by zero nor inspects it.  The file proves that rounding
    is monotone, keeps signs and is exact on the safe integers. *)

From S2P Require Import Prelude.
From Stdlib Require Import QArith Qround Qpower Qreduction Qabs Lqa.

Inductive num : Type :=
| NaN
| PInf
| NInf
| Fin (q : Q).

Declare Scope num_scope.
Delimit Scope num_scope with num.
Bind Scope num_scope with num.

(** ** Rounding *)

Local Open Scope Q_scope.

Definition two_pow (e : Z) : Q := Qpower 2 e.

(** Round half to even. *)
Definition rne (q : Q) : Z :=
  let f := Qfloor q in
  let r := q - inject_Z f in
  if negb (Qle_bool (1#2) r) then f
  else if negb (Qle_bool r (1#2)) then (f + 1)%Z
  else if Z.even f then f else (f + 1)%Z.

(** The binary exponent of a positive rational: [2^k <= q < 2^(k+1)]. *)
Definition qlog2 (q : Q) : Z :=
  let e0 := (Z.log2 (Qnum q) - Z.log2 (Zpos (Qden q)))%Z in
  if Qle_bool (two_pow e0) q then e0 else (e0 - 1)%Z.

(** Exponent of the unit in the last place, 53 bits, subnormals at 2^-1074. *)
Definition ulp_exp (q : Q) : Z := Z.max (qlog2 q - 52) (-1074).

(** Rounding to a multiple of [2^e]. *)
Definition round_at (e : Z) (q : Q) : Q := inject_Z (rne (q * two_pow (- e))) * two_pow e.

(** The magnitude of the double nearest to a positive rational. *)
Definition rnd_pos (q : Q) : Q := round_at (ulp_exp q) q.

Definition rnd_mag (q : Q) : Q := if Qle_bool q 0 then 0 else rnd_pos q.

Definition rnd (q : Q) : num :=
  let m := rnd_mag (Qabs q) in
  if Qle_bool (two_pow 1024) m
  then if Qle_bool 0 q then PInf else NInf
  else Fin (Qred (if Qle_bool 0 q then m else - m)).

#[global] Arguments two_pow : simpl never.
#[global] Arguments rnd : simpl never.
#[global] Arguments rnd_mag : simpl never.

(** A number literal of the source. *)
Definition lit (q : Q) : num := rnd q.

(** A safe integer as a number. *)
Definition num_of_Z (z : Z) : num := Fin (inject_Z z).

Definition num0 : num := Fin 0.
Definition num1 : num := Fin 1.

(** ** Classification: [Number.isFinite], [Number.isInteger] *)

Definition is_finite (x : num) : bool :=
  match x with Fin _ => true | _ => false end.

Definition is_nan (x : num) : bool :=
  match x with NaN => true | _ => false end.

Definition is_integer (x : num) : bool :=
  match x with
  | Fin q => (Qnum q mod Zpos (Qden q) =? 0)%Z
  | _ => false
  end.

Definition MAX_SAFE_INTEGER : Z := 2 ^ 53 - 1.

Definition is_safe_integer (x : num) : bool :=
  match x with
  | Fin q => is_integer (Fin q) && Qle_bool (Qabs q) (inject_Z MAX_SAFE_INTEGER)
  | _ => false
  end.

(** The integer below a finite number; 0 for the others. *)
Definition floor_Z (x : num) : Z :=
  match x with Fin q => Qfloor q | _ => 0%Z end.

(** ** Comparison: [<], [<=], [===]; every comparison with NaN is false *)

Definition num_ltb (x y : num) : bool :=
  match x, y with
  | NaN, _ | _, NaN => false
  | Fin a, Fin b => negb (Qle_bool b a)
  | NInf, NInf | PInf, PInf => false
  | NInf, _ | _, PInf => true
  | _, _ => false
  end.

Definition num_leb (x y : num) : bool :=
  match x, y with
  | NaN, _ | _, NaN => false
  | Fin a, Fin b => Qle_bool a b
  | NInf, _ | _, PInf => true
  | _, _ => false
  end.

Definition num_eqb (x y : num) : bool :=
  match x, y with
  | Fin a, Fin b => Qeq_bool a b
  | NInf, NInf | PInf, PInf => true
  | _, _ => false
  end.

Notation "x <? y" := (num_ltb x y) : num_scope.
Notation "x <=? y" := (num_leb x y) : num_scope.
Notation "x >? y" := (num_ltb y x) (only parsing) : num_scope.
Notation "x >=? y" := (num_leb y x) (only parsing) : num_scope.
Notation "x =? y" := (num_eqb x y) : num_scope.

(** ** Arithmetic *)

Definition num_opp (x : num) : num :=
  match x with NaN => NaN | PInf => NInf | NInf => PInf | Fin a => Fin (- a) end.

Definition num_add (x y : num) : num :=
  match x, y with
  | NaN, _ | _, NaN => NaN
  | Fin a, Fin b => rnd (a + b)
  | PInf, NInf | NInf, PInf => NaN
  | PInf, _ | _, PInf => PInf
  | NInf, _ | _, NInf => NInf
  end.

Definition num_sub (x y : num) : num := num_add x (num_opp y).

(** The infinity with the sign of [q]; NaN for zero. *)
Definition inf_sign (pos : bool) (q : Q) : num :=
  if Qeq_bool q 0 then NaN
  else if Bool.eqb pos (Qle_bool 0 q) then PInf else NInf.

Definition num_mul (x y : num) : num :=
  match x, y with
  | NaN, _ | _, NaN => NaN
  | Fin a, Fin b => rnd (a * b)
  | PInf, PInf | NInf, NInf => PInf
  | PInf, NInf | NInf, PInf => NInf
  | PInf, Fin b | Fin b, PInf => inf_sign true b
  | NInf, Fin b | Fin b, NInf => inf_sign false b
  end.

(** A zero divisor is taken as positive zero. *)
Definition num_div (x y : num) : num :=
  match x, y with
  | NaN, _ | _, NaN => NaN
  | Fin a, Fin b => if Qeq_bool b 0 then inf_sign true a else rnd (a / b)
  | Fin _, _ => Fin 0
  | PInf, Fin b => if Qle_bool 0 b then PInf else NInf
  | NInf, Fin b => if Qle_bool 0 b then NInf else PInf
  | _, _ => NaN
  end.

Notation "x + y" := (num_add x y) : num_scope.
Notation "x - y" := (num_sub x y) : num_scope.
Notation "x * y" := (num_mul x y) : num_scope.
Notation "x / y" := (num_div x y) : num_scope.

(** ** [Math] *)

Definition math_max (x y : num) : num :=
  match x, y with
  | NaN, _ | _, NaN => NaN
  | _, _ => if num_ltb x y then y else x
  end.

Definition math_min (x y : num) : num :=
  match x, y with
  | NaN, _ | _, NaN => NaN
  | _, _ => if num_ltb y x then y else x
  end.

Definition math_floor (x : num) : num :=
  match x with Fin q => Fin (inject_Z (Qfloor q)) | x => x end.

(** [Math.round]: the closest integer, ties towards plus infinity. *)
Definition math_round (x : num) : num :=
  match x with Fin q => Fin (inject_Z (Qfloor (q + (1#2)))) | x => x end.

#[export] Instance Q_eq_dec : EqDecision Q.
Proof. solve_decision. Defined.
#[export] Instance num_eq_dec : EqDecision num.
Proof. solve_decision. Defined.

Example literal_085 : lit (85#100) = Fin (7656119366529843 # 9007199254740992).
Proof. vm_compute. reflexivity. Qed.

(** 0.1 + 0.2 is 0.30000000000000004, not 0.3. *)
Example sum_of_tenths :
  (lit (1#10) + lit (2#10))%num = Fin (1351079888211149 # 4503599627370496) ∧
  lit (3#10) = Fin (5404319552844595 # 18014398509481984).
Proof. vm_compute. done. Qed.

Example overflow_to_infinity :
  (Fin (two_pow 1023) * Fin 2)%num = PInf ∧ (Fin (two_pow (-1074)) / Fin 2)%num = Fin 0.
Proof. vm_compute. done. Qed.

(** ** Powers of two *)

Lemma two_pow_pos e : 0 < two_pow e.
Proof. unfold two_pow. apply Qpower_0_lt. reflexivity. Qed.

Lemma two_pow_nz e : ~ two_pow e == 0.
Proof. pose proof (two_pow_pos e). lra. Qed.

Lemma two_pow_plus a b : two_pow (a + b) == two_pow a * two_pow b.
Proof. unfold two_pow. apply Qpower_plus. discriminate. Qed.

Lemma two_pow_0 : two_pow 0 == 1.
Proof. reflexivity. Qed.

Lemma two_pow_opp e : two_pow (- e) * two_pow e == 1.
Proof. rewrite <- two_pow_plus, Z.add_opp_diag_l. reflexivity. Qed.

Lemma two_pow_Z e : (0 <= e)%Z → two_pow e == inject_Z (2 ^ e).
Proof. intros H. unfold two_pow. by rewrite (Zpower_Qpower 2 e H). Qed.

Lemma two_pow_le a b : (a <= b)%Z → two_pow a <= two_pow b.
Proof. intros H. unfold two_pow. apply Qpower_le_compat_l; [lia | discriminate]. Qed.

Lemma two_pow_lt_inv a b : two_pow a < two_pow b → (a < b)%Z.
Proof.
  intros H. destruct (Z.lt_ge_cases a b) as [|Hge]; [done|].
  apply two_pow_le in Hge. lra.
Qed.

(** Scaling by a power of two and back. *)
Lemma scale_back e q : q * two_pow (- e) * two_pow e == q.
Proof. rewrite <- Qmult_assoc, two_pow_opp. ring. Qed.

Lemma scale_le e a b : a <= b → a * two_pow e <= b * two_pow e.
Proof. intros. apply Qmult_le_compat_r; [done|]. apply Qlt_le_weak, two_pow_pos. Qed.

(** ** Round half to even is monotone and exact on integers *)

Lemma Qle_bool_false a b : Qle_bool a b = false ↔ b < a.
Proof.
  rewrite <- not_true_iff_false, Qle_bool_iff.
  split; [apply Qnot_le_lt | apply Qlt_not_le].
Qed.

Lemma floor_bounds q : inject_Z (Qfloor q) <= q < inject_Z (Qfloor q) + 1.
Proof.
  split; [apply Qfloor_le|]. pose proof (Qlt_floor q) as H.
  rewrite inject_Z_plus in H. exact H.
Qed.

Lemma rne_cases q :
  rne q = Qfloor q ∧ q <= inject_Z (Qfloor q) + (1#2) ∨
  rne q = (Qfloor q + 1)%Z ∧ inject_Z (Qfloor q) + (1#2) <= q.
Proof.
  unfold rne. destruct (Qle_bool (1#2) (q - inject_Z (Qfloor q))) eqn:E1; simpl.
  - apply Qle_bool_iff in E1.
    destruct (Qle_bool (q - inject_Z (Qfloor q)) (1#2)) eqn:E2; simpl.
    + apply Qle_bool_iff in E2. destruct (Z.even _); [left|right]; split; try done; lra.
    + apply Qle_bool_false in E2. right. split; [done|lra].
  - apply Qle_bool_false in E1. left. split; [done|lra].
Qed.

(** Rounding up happens at the middle only for an odd floor. *)
Lemma rne_mono a b : a <= b → (rne a <= rne b)%Z.
Proof.
  intros H. assert (Qfloor a <= Qfloor b)%Z as Hf by by apply Qfloor_resp_le.
  destruct (Z.eq_dec (Qfloor a) (Qfloor b)) as [E|].
  - unfold rne. rewrite <- E.
    assert (a - inject_Z (Qfloor a) <= b - inject_Z (Qfloor a)) as Hr by lra.
    generalize dependent (a - inject_Z (Qfloor a)). intros ra.
    generalize dependent (b - inject_Z (Qfloor a)). intros rb Hr.
    destruct (Qle_bool (1#2) ra) eqn:A1, (Qle_bool (1#2) rb) eqn:B1; simpl;
    destruct (Qle_bool ra (1#2)) eqn:A2, (Qle_bool rb (1#2)) eqn:B2; simpl;
    destruct (Z.even (Qfloor a)); try lia;
    rewrite ?Qle_bool_iff, ?Qle_bool_false in *; exfalso; lra.
  - destruct (rne_cases a) as [[-> _]|[-> _]], (rne_cases b) as [[-> _]|[-> _]]; lia.
Qed.

Lemma rne_Z z : rne (inject_Z z) = z.
Proof.
  unfold rne. rewrite Qfloor_Z.
  assert (Qle_bool (1#2) (inject_Z z - inject_Z z) = false) as ->; [|done].
  apply Qle_bool_false. lra.
Qed.

#[export] Instance rne_proper : Proper (Qeq ==> eq) rne.
Proof.
  intros a b H. apply Z.le_antisymm; apply rne_mono; lra.
Qed.

#[export] Instance round_at_proper e : Proper (Qeq ==> Qeq) (round_at e).
Proof. intros a b H. unfold round_at. by rewrite H. Qed.

Lemma round_at_mono e a b : a <= b → round_at e a <= round_at e b.
Proof.
  intros H. unfold round_at. apply scale_le. rewrite <- Zle_Qle.
  apply rne_mono. by apply scale_le.
Qed.

(** A multiple of [2^e] is kept. *)
Lemma round_at_exact e z : round_at e (inject_Z z * two_pow e) == inject_Z z * two_pow e.
Proof.
  unfold round_at. rewrite <- Qmult_assoc, (Qmult_comm (two_pow e)), two_pow_opp, Qmult_1_r.
  by rewrite rne_Z.
Qed.

Lemma round_at_pow e j : (e <= j)%Z → round_at e (two_pow j) == two_pow j.
Proof.
  intros H. replace j with ((j - e) + e)%Z by lia.
  rewrite two_pow_plus, (two_pow_Z (j - e)) by lia. apply round_at_exact.
Qed.

(** ** The binary exponent *)

Lemma qlog2_spec q : 0 < q → two_pow (qlog2 q) <= q < two_pow (qlog2 q + 1).
Proof.
  intros Hq. destruct q as [n d].
  assert (0 < n)%Z as Hn by (unfold Qlt in Hq; simpl in Hq; lia).
  pose proof (Z.log2_spec n Hn) as [Hn1 Hn2].
  pose proof (Z.log2_spec (Zpos d) eq_refl) as [Hd1 Hd2].
  pose proof (Z.log2_nonneg n). pose proof (Z.log2_nonneg (Zpos d)).
  set (ln := Z.log2 n) in *. set (ld := Z.log2 (Zpos d)) in *.
  assert ((n # d) * inject_Z (Zpos d) == inject_Z n) as Hm
    by (unfold Qeq, Qmult, inject_Z; simpl; lia).
  rewrite Zle_Qle, <- two_pow_Z in Hn1 by lia. rewrite Zlt_Qlt, <- two_pow_Z in Hn2 by lia.
  rewrite Zle_Qle, <- two_pow_Z in Hd1 by lia. rewrite Zlt_Qlt, <- two_pow_Z in Hd2 by lia.
  assert (two_pow (ln - ld - 1) <= (n # d)) as Hlow.
  { apply Qmult_le_r with (z := inject_Z (Zpos d)); [reflexivity|]. rewrite Hm.
    apply Qle_trans with (two_pow (ln - ld - 1) * two_pow (Z.succ ld)).
    - rewrite (Qmult_comm (two_pow _) (inject_Z _)), (Qmult_comm (two_pow _) (two_pow _)).
      apply scale_le. lra.
    - rewrite <- two_pow_plus. replace (ln - ld - 1 + Z.succ ld)%Z with ln by lia. done. }
  assert ((n # d) < two_pow (ln - ld + 1)) as Hup.
  { apply Qmult_lt_r with (z := inject_Z (Zpos d)); [reflexivity|]. rewrite Hm.
    apply Qlt_le_trans with (two_pow (Z.succ ln)); [done|].
    apply Qle_trans with (two_pow (ln - ld + 1) * two_pow ld).
    - rewrite <- two_pow_plus. apply two_pow_le. lia.
    - rewrite (Qmult_comm (two_pow _) (inject_Z _)), (Qmult_comm (two_pow _) (two_pow _)).
      by apply scale_le. }
  unfold qlog2; cbn [Qnum Qden]. fold ln ld.
  destruct (Qle_bool (two_pow (ln - ld)) (n # d)) eqn:E.
  - apply Qle_bool_iff in E. by split.
  - apply Qle_bool_false in E. replace (ln - ld - 1 + 1)%Z with (ln - ld)%Z by lia. by split.
Qed.

Lemma qlog2_mono a b : 0 < a → a <= b → (qlog2 a <= qlog2 b)%Z.
Proof.
  intros Ha Hab. pose proof (qlog2_spec a Ha) as [? ?].
  assert (0 < b) as Hb by lra. pose proof (qlog2_spec b Hb) as [? ?].
  assert (qlog2 a < qlog2 b + 1)%Z; [|lia]. apply two_pow_lt_inv. lra.
Qed.

Lemma qlog2_pow_le q j : 0 < q → two_pow j <= q → (j <= qlog2 q)%Z.
Proof.
  intros Hq Hj. pose proof (qlog2_spec q Hq) as [? ?].
  assert (j < qlog2 q + 1)%Z; [|lia]. apply two_pow_lt_inv. lra.
Qed.


(** ** Rounding to a double is monotone *)

Lemma rnd_pos_bounds q j : 0 < q → (-1074 <= j)%Z → two_pow j <= q → two_pow j <= rnd_pos q.
Proof.
  intros Hq Hj Hle. unfold rnd_pos, ulp_exp.
  destruct (Z.le_gt_cases (Z.max (qlog2 q - 52) (-1074)) j) as [He|He].
  - rewrite <- (round_at_pow _ _ He). by apply round_at_mono.
  - (* the ulp is above [2^j]: compare with the leading power of two instead *)
    pose proof (qlog2_spec q Hq) as [Hlow _].
    apply Qle_trans with (two_pow (qlog2 q)).
    + apply two_pow_le. apply qlog2_pow_le; done.
    + rewrite <- (round_at_pow (Z.max (qlog2 q - 52) (-1074)) (qlog2 q)) at 1; [by apply round_at_mono|].
      apply qlog2_pow_le in Hle; [|done]. lia.
Qed.

Lemma rnd_pos_nonneg q : 0 < q → 0 <= rnd_pos q.
Proof.
  intros Hq. unfold rnd_pos, round_at.
  assert (0 <= rne (q * two_pow (- ulp_exp q)))%Z as H.
  { rewrite <- (rne_Z 0). apply rne_mono. change (inject_Z 0) with 0.
    apply Qmult_le_0_compat; [lra|]. apply Qlt_le_weak, two_pow_pos. }
  rewrite Zle_Qle in H. apply Qmult_le_0_compat; [done|]. apply Qlt_le_weak, two_pow_pos.
Qed.

Lemma rnd_pos_mono a b : 0 < a → a <= b → rnd_pos a <= rnd_pos b.
Proof.
  intros Ha Hab. pose proof (qlog2_mono a b Ha Hab) as Hk.
  pose proof (qlog2_spec a Ha) as [_ Hup]. pose proof (qlog2_spec b ltac:(lra)) as [Hlow _].
  destruct (Z.eq_dec (ulp_exp a) (ulp_exp b)) as [E|E].
  { unfold rnd_pos. rewrite E. by apply round_at_mono. }
  (* different binades: the power of two between them separates the results *)
  assert (qlog2 a + 1 <= qlog2 b)%Z as Hlt by (unfold ulp_exp in E; lia).
  set (j := Z.max (qlog2 a + 1) (-1074)).
  assert (ulp_exp a <= j)%Z as He by (unfold ulp_exp in *; lia).
  assert (two_pow (qlog2 a + 1) <= two_pow j) by (apply two_pow_le; lia).
  apply Qle_trans with (two_pow j).
  - unfold rnd_pos. rewrite <- (round_at_pow _ _ He). apply round_at_mono. lra.
  - apply Qle_trans with (two_pow (qlog2 b)).
    + apply two_pow_le. unfold ulp_exp in *; lia.
    + apply rnd_pos_bounds; [lra| unfold ulp_exp in *; lia | done].
Qed.

Lemma rnd_mag_nonneg q : 0 <= rnd_mag q.
Proof.
  unfold rnd_mag. destruct (Qle_bool q 0) eqn:E; [lra|].
  apply Qle_bool_false in E. by apply rnd_pos_nonneg.
Qed.

Lemma rnd_mag_mono a b : a <= b → rnd_mag a <= rnd_mag b.
Proof.
  intros H. unfold rnd_mag at 1. destruct (Qle_bool a 0) eqn:E; [apply rnd_mag_nonneg|].
  apply Qle_bool_false in E. unfold rnd_mag.
  assert (Qle_bool b 0 = false) as -> by (apply Qle_bool_false; lra).
  by apply rnd_pos_mono.
Qed.

#[export] Instance rnd_mag_proper : Proper (Qeq ==> Qeq) rnd_mag.
Proof. intros a b H. apply Qle_antisym; apply rnd_mag_mono; lra. Qed.

Lemma rnd_mag_nonpos q : q <= 0 → rnd_mag q == 0.
Proof. intros H%Qle_bool_iff. unfold rnd_mag. by rewrite H. Qed.

Lemma Qabs_cases q : Qabs q == q ∧ 0 <= q ∨ Qabs q == - q ∧ q < 0.
Proof.
  destruct (Qlt_le_dec q 0); [right | left]; split; try done.
  - apply Qabs_neg. lra.
  - by apply Qabs_pos.
Qed.

(** Equal rationals round to the same double. *)
#[export] Instance rnd_proper : Proper (Qeq ==> eq) rnd.
Proof.
  intros a b H. unfold rnd.
  assert (rnd_mag (Qabs a) == rnd_mag (Qabs b)) as Hm by by rewrite H.
  assert (Qle_bool 0 a = Qle_bool 0 b) as -> by by rewrite H.
  assert (Qle_bool (two_pow 1024) (rnd_mag (Qabs a)) =
          Qle_bool (two_pow 1024) (rnd_mag (Qabs b))) as -> by by rewrite Hm.
  destruct (Qle_bool (two_pow 1024) _); [done|]. f_equal.
  apply Qred_complete. by destruct (Qle_bool 0 b); rewrite Hm.
Qed.

Lemma rnd_pos_eq q : 0 <= q →
  rnd q = if Qle_bool (two_pow 1024) (rnd_mag q) then PInf else Fin (Qred (rnd_mag q)).
Proof.
  intros H. unfold rnd. assert (Qle_bool 0 q = true) as -> by by apply Qle_bool_iff.
  assert (rnd_mag (Qabs q) == rnd_mag q) as Hm by by rewrite (Qabs_pos q H).
  assert (Qle_bool (two_pow 1024) (rnd_mag (Qabs q)) =
          Qle_bool (two_pow 1024) (rnd_mag q)) as -> by by rewrite Hm.
  destruct (Qle_bool _ _); [done|]. f_equal. by apply Qred_complete.
Qed.

Lemma rnd_neg_eq q : q < 0 →
  rnd q = if Qle_bool (two_pow 1024) (rnd_mag (- q)) then NInf else Fin (Qred (- rnd_mag (- q))).
Proof.
  intros H. unfold rnd. assert (Qle_bool 0 q = false) as -> by by apply Qle_bool_false.
  assert (rnd_mag (Qabs q) == rnd_mag (- q)) as Hm by (rewrite (Qabs_neg q) by lra; done).
  assert (Qle_bool (two_pow 1024) (rnd_mag (Qabs q)) =
          Qle_bool (two_pow 1024) (rnd_mag (- q))) as -> by by rewrite Hm.
  destruct (Qle_bool _ _); [done|]. f_equal. apply Qred_complete. by rewrite Hm.
Qed.

(** ** The order on numbers *)

Definition num_le (x y : num) : Prop := num_leb x y = true.

Lemma num_le_fin a b : num_le (Fin a) (Fin b) ↔ a <= b.
Proof. unfold num_le; simpl. apply Qle_bool_iff. Qed.

Lemma num_le_trans x y z : num_le x y → num_le y z → num_le x z.
Proof.
  unfold num_le. destruct x, y, z; simpl; try done.
  rewrite !Qle_bool_iff. intros; lra.
Qed.

Lemma num_le_refl x : is_nan x = false → num_le x x.
Proof. unfold num_le. destruct x; simpl; try done. intros _. apply Qle_bool_iff. lra. Qed.

(** [<=] and [<] are complementary off NaN, and both false on it. *)
Lemma num_leb_negb_ltb x y : is_nan x = false → is_nan y = false →
  num_leb x y = negb (num_ltb y x).
Proof. destruct x, y; simpl; try done. intros _ _. by rewrite negb_involutive. Qed.

Lemma num_ltb_geb_excl x y : num_ltb x y = true → num_leb y x = false.
Proof. destruct x, y; simpl; try done. by rewrite negb_true_iff. Qed.

Lemma num_ltb_le x y : num_ltb x y = true → num_le x y.
Proof.
  unfold num_le. destruct x, y; simpl; try done.
  rewrite negb_true_iff, Qle_bool_iff, Qle_bool_false. intros; lra.
Qed.

Lemma num_lt_le_trans x y z : num_ltb x y = true → num_le y z → num_ltb x z = true.
Proof.
  unfold num_le. destruct x, y, z; simpl; try done.
  rewrite !negb_true_iff, Qle_bool_iff, !Qle_bool_false. intros; lra.
Qed.

Lemma num_le_lt_trans x y z : num_le x y → num_ltb y z = true → num_ltb x z = true.
Proof.
  unfold num_le. destruct x, y, z; simpl; try done.
  rewrite !negb_true_iff, Qle_bool_iff, !Qle_bool_false. intros; lra.
Qed.

Lemma num_ltb_not_nan x y : num_ltb x y = true → is_nan x = false ∧ is_nan y = false.
Proof. by destruct x, y. Qed.

Lemma num_le_not_nan x y : num_le x y → is_nan x = false ∧ is_nan y = false.
Proof. unfold num_le. by destruct x, y. Qed.

(** Rounding is monotone for the order of numbers. *)
Theorem rnd_mono a b : a <= b → num_le (rnd a) (rnd b).
Proof.
  intros H. unfold num_le.
  destruct (Qlt_le_dec b 0) as [Hb|Hb].
  - rewrite (rnd_neg_eq a), (rnd_neg_eq b) by lra.
    assert (rnd_mag (- b) <= rnd_mag (- a)) by (apply rnd_mag_mono; lra).
    destruct (Qle_bool (two_pow 1024) (rnd_mag (- a))) eqn:Ea;
      [by destruct (Qle_bool (two_pow 1024) (rnd_mag (- b)))|].
    assert (Qle_bool (two_pow 1024) (rnd_mag (- b)) = false) as ->
      by (rewrite Qle_bool_false in *; lra).
    simpl. rewrite Qle_bool_iff, !Qred_correct. lra.
  - rewrite (rnd_pos_eq b) by lra. pose proof (rnd_mag_nonneg b).
    destruct (Qlt_le_dec a 0) as [Ha|Ha].
    + rewrite (rnd_neg_eq a) by lra. pose proof (rnd_mag_nonneg (- a)).
      do 2 destruct (Qle_bool (two_pow 1024) _); try done.
      simpl. rewrite Qle_bool_iff, !Qred_correct. lra.
    + rewrite (rnd_pos_eq a) by lra.
      assert (rnd_mag a <= rnd_mag b) by (apply rnd_mag_mono; lra).
      destruct (Qle_bool (two_pow 1024) (rnd_mag b)) eqn:Eb;
        [by destruct (Qle_bool (two_pow 1024) (rnd_mag a))|].
      assert (Qle_bool (two_pow 1024) (rnd_mag a) = false) as ->
        by (rewrite Qle_bool_false in *; lra).
      simpl. rewrite Qle_bool_iff, !Qred_correct. lra.
Qed.

Lemma rnd_0 : rnd 0 = Fin 0.
Proof. reflexivity. Qed.

(** ** Non-negative numbers *)

Definition nonneg (x : num) : Prop := num_le (Fin 0) x.

Lemma nonneg_fin q : nonneg (Fin q) ↔ 0 <= q.
Proof. apply num_le_fin. Qed.

Lemma rnd_nonneg q : 0 <= q → nonneg (rnd q).
Proof. intros H. unfold nonneg. rewrite <- rnd_0. by apply rnd_mono. Qed.

Lemma num_sub_fin a b : num_sub (Fin a) (Fin b) = rnd (a - b).
Proof. reflexivity. Qed.

(** A difference of finite numbers has the sign of the comparison. *)
Lemma num_sub_nonneg a b : b <= a → nonneg (Fin a - Fin b)%num.
Proof. intros. rewrite num_sub_fin. apply rnd_nonneg. lra. Qed.

Lemma num_add_nonneg x y : nonneg x → nonneg y → nonneg (x + y)%num.
Proof.
  destruct x, y; simpl; try done. rewrite !nonneg_fin. intros.
  apply rnd_nonneg. lra.
Qed.

Lemma num_mul_nonneg a b : 0 <= a → 0 <= b → nonneg (Fin a * Fin b)%num.
Proof. intros; simpl. apply rnd_nonneg. by apply Qmult_le_0_compat. Qed.

Lemma num_div_nonneg x b : nonneg x → 0 < b → nonneg (x / Fin b)%num.
Proof.
  intros Hx Hb. destruct x as [| | |a]; simpl; try done.
  - assert (Qle_bool 0 b = true) as -> by (apply Qle_bool_iff; lra). done.
  - apply nonneg_fin in Hx. destruct (Qeq_bool b 0) eqn:E.
    + apply Qeq_bool_iff in E. lra.
    + apply rnd_nonneg. apply Qle_shift_div_l; [done | lra].
Qed.

Lemma num_add_mono a a' b b' : a <= a' → b <= b' → num_le (Fin a + Fin b)%num (Fin a' + Fin b')%num.
Proof. intros; simpl. apply rnd_mono. lra. Qed.

Lemma num_mul_mono_l c a a' : 0 <= c → a <= a' → num_le (Fin c * Fin a)%num (Fin c * Fin a')%num.
Proof.
  intros; simpl. apply rnd_mono. rewrite !(Qmult_comm c). by apply Qmult_le_compat_r.
Qed.

Lemma math_max_0_nonneg x : is_nan x = false → nonneg (math_max (Fin 0) x).
Proof.
  intros Hx. unfold math_max, nonneg. destruct x as [| | |q]; try done.
  destruct (num_ltb (Fin 0) (Fin q)) eqn:E; [by apply num_ltb_le | by apply num_le_refl].
Qed.

Lemma math_max_fin a b : ∃ c, math_max (Fin a) (Fin b) = Fin c ∧ a <= c ∧ b <= c ∧ (c = a ∨ c = b).
Proof.
  unfold math_max; simpl. destruct (Qle_bool b a) eqn:E; simpl.
  - apply Qle_bool_iff in E. exists a. split_and!; try lra; eauto.
  - apply Qle_bool_false in E. exists b. split_and!; try lra; eauto.
Qed.

Lemma math_min_fin a b : ∃ c, math_min (Fin a) (Fin b) = Fin c ∧ c <= a ∧ c <= b ∧ (c = a ∨ c = b).
Proof.
  unfold math_min; simpl. destruct (Qle_bool a b) eqn:E; simpl.
  - apply Qle_bool_iff in E. exists a. split_and!; try lra; eauto.
  - apply Qle_bool_false in E. exists b. split_and!; try lra; eauto.
Qed.

#[export] Hint Resolve rnd_nonneg num_add_nonneg math_max_0_nonneg : qos.

(** ** Doubles among the rationals *)

(** Whether a number of the model is a double: rounding leaves it alone. *)
Definition is_double (x : num) : bool :=
  match x with
  | Fin q => match rnd q with Fin r => Qeq_bool r q | _ => false end
  | _ => true
  end.

(** Every double is an integral multiple of the least subnormal. *)
Lemma rnd_mag_grid q : ∃ z, rnd_mag q == inject_Z z * two_pow (-1074).
Proof.
  unfold rnd_mag. destruct (Qle_bool q 0); [exists 0%Z; reflexivity|].
  unfold rnd_pos, round_at. assert (-1074 <= ulp_exp q)%Z by (unfold ulp_exp; lia).
  exists (rne (q * two_pow (- ulp_exp q)) * 2 ^ (ulp_exp q + 1074))%Z.
  set (u := ulp_exp q) in *. rewrite inject_Z_mult, <- (two_pow_Z (u + 1074)) by lia.
  rewrite <- Qmult_assoc, <- two_pow_plus.
  replace (u + 1074 + -1074)%Z with u by lia. reflexivity.
Qed.

Lemma double_grid q : is_double (Fin q) = true → ∃ z, q == inject_Z z * two_pow (-1074).
Proof.
  simpl. intros H.
  assert (∃ r, rnd q = Fin r ∧ r == q) as (r & Hr & Hq).
  { destruct (rnd q) as [| | |r]; try done. exists r. split; [done|]. by apply Qeq_bool_iff. }
  clear H. destruct (Qlt_le_dec q 0) as [Hn|Hn].
  - rewrite rnd_neg_eq in Hr by done. destruct (Qle_bool _ _); [done|].
    injection Hr as Hr. destruct (rnd_mag_grid (- q)) as [z Hz]. exists (- z)%Z.
    transitivity r; [by symmetry|]. rewrite <- Hr, Qred_correct, Hz, inject_Z_opp. ring.
  - rewrite rnd_pos_eq in Hr by done. destruct (Qle_bool _ _); [done|].
    injection Hr as Hr. destruct (rnd_mag_grid q) as [z Hz]. exists z.
    transitivity r; [by symmetry|]. by rewrite <- Hr, Qred_correct, Hz.
Qed.

(** Subtraction of distinct doubles never yields zero (gradual underflow). *)
Lemma double_sub_pos a b : is_double (Fin a) = true → is_double (Fin b) = true →
  b < a → num_ltb num0 (Fin a - Fin b)%num = true.
Proof.
  intros Ha Hb Hlt. destruct (double_grid a Ha) as [za Hza], (double_grid b Hb) as [zb Hzb].
  assert (two_pow (-1074) <= a - b) as Hstep.
  { rewrite Hza, Hzb in *. pose proof (two_pow_pos (-1074)) as Hp.
    assert (zb < za)%Z as Hz.
    { rewrite Zlt_Qlt. apply Qmult_lt_r with (z := two_pow (-1074)); done. }
    assert (1 <= za - zb)%Z as H1 by lia. rewrite Zle_Qle in H1.
    apply Qle_trans with (inject_Z 1 * two_pow (-1074)); [change (inject_Z 1) with 1; lra|].
    apply Qle_trans with (inject_Z (za - zb) * two_pow (-1074)); [by apply scale_le|].
    unfold Zminus. rewrite inject_Z_plus, inject_Z_opp. lra. }
  rewrite num_sub_fin. apply num_lt_le_trans with (rnd (two_pow (-1074))); [reflexivity|].
  by apply rnd_mono.
Qed.

Lemma double_rnd_id q : is_double (Fin q) = true → ∃ r, rnd q = Fin r ∧ r == q.
Proof.
  simpl. intros H. destruct (rnd q) as [| | |r]; try done. exists r.
  split; [done|]. by apply Qeq_bool_iff.
Qed.

(** ** Integers up to [2^53] are doubles *)

Lemma rnd_pos_int z : (0 < z <= 2 ^ 53)%Z → rnd_pos (inject_Z z) == inject_Z z.
Proof.
  intros [Hz Hz']. set (q := inject_Z z).
  assert (0 < q) as Hq by (unfold q; change 0 with (inject_Z 0); by rewrite <- Zlt_Qlt).
  pose proof (qlog2_spec q Hq) as [Hlow Hup].
  assert (q <= two_pow 53) as H53.
  { rewrite two_pow_Z by lia. unfold q. by rewrite <- Zle_Qle. }
  assert (qlog2 q < 54)%Z as Hk by (apply two_pow_lt_inv; assert (two_pow 53 < two_pow 54) by reflexivity; lra).
  unfold rnd_pos, ulp_exp.
  destruct (Z.eq_dec (qlog2 q) 53) as [E|E].
  - (* only 2^53 itself reaches the binade above *)
    assert (q == two_pow 53) as Hq53 by (rewrite E in Hlow; apply Qle_antisym; done).
    rewrite E, Hq53. apply round_at_pow. lia.
  - set (e := Z.max (qlog2 q - 52) (-1074)). assert (e <= 0)%Z as He by lia.
    assert (q == inject_Z (z * 2 ^ (- e)) * two_pow e) as Hrep.
    { rewrite inject_Z_mult, <- two_pow_Z, <- Qmult_assoc, two_pow_opp by lia.
      unfold q. ring. }
    rewrite Hrep at 1. rewrite round_at_exact. by rewrite <- Hrep.
Qed.

Lemma Qred_Z z : Qred (inject_Z z) = inject_Z z.
Proof.
  unfold Qred, inject_Z. pose proof (Z.ggcd_gcd z 1) as Hg.
  pose proof (Z.ggcd_correct_divisors z 1) as Hd.
  destruct (Z.ggcd z 1) as [g [a b]]; simpl in *.
  rewrite Z.gcd_1_r in Hg. subst g. destruct Hd as [Ha Hb].
  rewrite Z.mul_1_l in Ha, Hb. by subst.
Qed.

(** Every integer of magnitude at most [2^53] is exactly representable. *)
Theorem rnd_Z z : (Z.abs z <= 2 ^ 53)%Z → rnd (inject_Z z) = num_of_Z z.
Proof.
  intros Hz. unfold num_of_Z. destruct (Z.lt_trichotomy z 0) as [H|[->|H]]; [|reflexivity|].
  - rewrite rnd_neg_eq by (change 0 with (inject_Z 0); by rewrite <- Zlt_Qlt).
    assert (rnd_mag (- inject_Z z) == inject_Z (- z)) as Hm.
    { rewrite <- inject_Z_opp. unfold rnd_mag.
      assert (Qle_bool (inject_Z (- z)) 0 = false) as ->
        by (apply Qle_bool_false; change 0 with (inject_Z 0); rewrite <- Zlt_Qlt; lia).
      apply rnd_pos_int. lia. }
    assert (Qle_bool (two_pow 1024) (rnd_mag (- inject_Z z)) = false) as ->.
    { apply Qle_bool_false. rewrite Hm. rewrite two_pow_Z by lia. rewrite <- Zlt_Qlt.
      apply Z.le_lt_trans with (2 ^ 53)%Z; [lia|reflexivity]. }
    f_equal. transitivity (Qred (inject_Z z)); [|apply Qred_Z]. apply Qred_complete. rewrite Hm, inject_Z_opp. ring.
  - rewrite rnd_pos_eq by (change 0 with (inject_Z 0); rewrite <- Zle_Qle; lia).
    assert (rnd_mag (inject_Z z) == inject_Z z) as Hm.
    { unfold rnd_mag.
      assert (Qle_bool (inject_Z z) 0 = false) as ->
        by (apply Qle_bool_false; change 0 with (inject_Z 0); rewrite <- Zlt_Qlt; lia).
      apply rnd_pos_int. lia. }
    assert (Qle_bool (two_pow 1024) (rnd_mag (inject_Z z)) = false) as ->.
    { apply Qle_bool_false. rewrite Hm. rewrite two_pow_Z by lia. rewrite <- Zlt_Qlt.
      apply Z.le_lt_trans with (2 ^ 53)%Z; [lia|reflexivity]. }
    f_equal. transitivity (Qred (inject_Z z)); [|apply Qred_Z]. by apply Qred_complete.
Qed.

(** Addition of safe integers is exact as long as the sum stays within [2^53]:
    the components keep such counters in [Z]. *)
Lemma num_add_Z a b : (Z.abs (a + b) <= 2 ^ 53)%Z →
  (num_of_Z a + num_of_Z b)%num = num_of_Z (a + b).
Proof.
  intros H. unfold num_of_Z at 1 2; simpl. rewrite <- (rnd_Z (a + b) H).
  apply rnd_proper. by rewrite inject_Z_plus.
Qed.

Lemma num_of_Z_integer z : is_integer (num_of_Z z) = true.
Proof. simpl. by rewrite Z.mod_1_r. Qed.

Lemma num_of_Z_leb a b : num_leb (num_of_Z a) (num_of_Z b) = (a <=? b)%Z.
Proof.
  apply eq_iff_eq_true. simpl. rewrite Qle_bool_iff, <- Zle_Qle. by rewrite Z.leb_le.
Qed.

Lemma num_of_Z_ltb a b : num_ltb (num_of_Z a) (num_of_Z b) = (a <? b)%Z.
Proof.
  rewrite Z.ltb_antisym, <- num_of_Z_leb. reflexivity.
Qed.

Lemma floor_num_of_Z z : floor_Z (num_of_Z z) = z.
Proof. apply Qfloor_Z. Qed.

Lemma math_floor_Z z : math_floor (num_of_Z z) = num_of_Z z.
Proof. unfold num_of_Z, math_floor. by rewrite Qfloor_Z. Qed.

Lemma math_max_Z a b : math_max (num_of_Z a) (num_of_Z b) = num_of_Z (Z.max a b).
Proof.
  transitivity (if num_ltb (num_of_Z a) (num_of_Z b) then num_of_Z b else num_of_Z a); [done|].
  rewrite num_of_Z_ltb. destruct (a <? b)%Z eqn:E; f_equal; zlia.
Qed.

Lemma math_min_Z a b : math_min (num_of_Z a) (num_of_Z b) = num_of_Z (Z.min a b).
Proof.
  transitivity (if num_ltb (num_of_Z b) (num_of_Z a) then num_of_Z b else num_of_Z a); [done|].
  rewrite num_of_Z_ltb. destruct (b <? a)%Z eqn:E; f_equal; zlia.
Qed.

#[export] Hint Rewrite num_of_Z_integer num_of_Z_leb num_of_Z_ltb floor_num_of_Z : qos.
