(* ===== verification/JsVal.v ===== *)
(** * JavaScript values

    Dynamically typed values as they reach the library from signalling messages,
    stats reports and application callbacks: the primitives, arrays and plain
    objects.  An object is the list of its own enumerable properties in
    insertion order; a property may hold [undefined], which [key in obj] tells
    apart from an absent one. *)

From S2P Require Import Prelude JsNum.

#[local] Set Warnings "-register-all".
Inductive jsval : Type :=
| JUndef
| JNull
| JBool (b : bool)
| JNum (n : num)
| JStr (s : string)
| JArr (l : list jsval)
| JObj (o : list (string * jsval)).

(** [obj[key]], [undefined] when absent. *)
Definition js_get (v : jsval) (k : string) : jsval :=
  match v with
  | JObj o => default JUndef (map_get o k)
  | _ => JUndef
  end.

(** [key in obj]. *)
Definition js_has (v : jsval) (k : string) : bool :=
  match v with
  | JObj o => match map_get o k with Some _ => true | None => false end
  | _ => false
  end.

(** [obj[key] = x]; the other values are left alone. *)
Definition js_set (v : jsval) (k : string) (x : jsval) : jsval :=
  match v with JObj o => JObj (map_set o k x) | v => v end.

(** [delete obj[key]]. *)
Definition js_delete (v : jsval) (k : string) : jsval :=
  match v with JObj o => JObj (map_delete o k) | v => v end.

(** [Boolean(v)], also [!!v] and the test of an [if]. *)
Definition truthy (v : jsval) : bool :=
  match v with
  | JUndef | JNull => false
  | JBool b => b
  | JNum n => negb (is_nan n || num_eqb n num0)
  | JStr s => negb (String.eqb s "")
  | JArr _ | JObj _ => true
  end.

(** [v || w]. *)
Definition js_or (v w : jsval) : jsval := if truthy v then v else w.

(** [v ?? w]. *)
Definition js_coalesce (v w : jsval) : jsval :=
  match v with JUndef | JNull => w | v => v end.

Definition js_typeof (v : jsval) : string :=
  match v with
  | JUndef => "undefined"
  | JBool _ => "boolean"
  | JNum _ => "number"
  | JStr _ => "string"
  | JNull | JArr _ | JObj _ => "object"
  end.

Definition is_undefined (v : jsval) : bool :=
  match v with JUndef => true | _ => false end.

(** [v === null || v === undefined]. *)
Definition is_nullish (v : jsval) : bool :=
  match v with JUndef | JNull => true | _ => false end.

Definition is_array (v : jsval) : bool :=
  match v with JArr _ => true | _ => false end.

(** [v === true], [v === false], [v === s]. *)
Definition is_true (v : jsval) : bool :=
  match v with JBool b => b | _ => false end.

Definition is_false (v : jsval) : bool :=
  match v with JBool b => negb b | _ => false end.

Definition is_str (v : jsval) (s : string) : bool :=
  match v with JStr t => String.eqb t s | _ => false end.

(** [Number.isFinite(v)]: no conversion, false off the number type. *)
Definition js_is_finite (v : jsval) : bool :=
  match v with JNum n => is_finite n | _ => false end.

(** Optional properties of a typed record as object properties. *)
Definition js_opt {A} (f : A → jsval) (o : option A) : jsval :=
  match o with Some a => f a | None => JUndef end.

Definition js_num (n : num) : jsval := JNum n.
Definition js_int (z : Z) : jsval := JNum (num_of_Z z).

(** ** Lemmas *)

Lemma js_get_set_eq o k x : js_get (js_set (JObj o) k x) k = x.
Proof. simpl. by rewrite map_get_set_eq. Qed.

Lemma js_get_set_ne v k k' x : k ≠ k' → js_get (js_set v k x) k' = js_get v k'.
Proof. intros. destruct v; try done. simpl. by rewrite map_get_set_ne. Qed.

Lemma js_get_delete_ne v k k' : k ≠ k' → js_get (js_delete v k) k' = js_get v k'.
Proof. intros. destruct v; try done. simpl. by rewrite map_get_delete_ne. Qed.

(** A property that reads as something other than [undefined] is present. *)
Lemma js_get_has v k : js_get v k ≠ JUndef → js_has v k = true.
Proof. destruct v; simpl; try done. by destruct (map_get o k). Qed.

(** Writing back the value a property holds changes nothing. *)
Lemma map_set_id {V} (o : list (string * V)) k x : map_get o k = Some x → map_set o k x = o.
Proof.
  induction o as [|[k0 v0] o IH]; simpl; [done|].
  case_decide; intros ?; simplify_eq; [done|]. by rewrite IH.
Qed.

Lemma js_set_id v k x : js_get v k = x → x ≠ JUndef → js_set v k x = v.
Proof.
  intros Hx Hne. destruct v; try done. simpl in *.
  destruct (map_get o k) eqn:E; simpl in *; [|congruence].
  subst. by rewrite map_set_id.
Qed.

Lemma map_delete_id {V} (o : list (string * V)) k : map_get o k = None → map_delete o k = o.
Proof.
  induction o as [|[k0 v0] o IH]; [done|]; simpl.
  case_decide as Hk; [done|]. intros Hd. unfold map_delete.
  rewrite filter_cons, decide_True by done. f_equal. by apply IH.
Qed.
