(* ===== verification/QosTypes.v ===== *)
(** * QoS data types (src/client/lib/qos/types.d.ts, constants.js)

    The string unions become inductive types with the strings they stand for;
    the object types become records.  Optional properties are [option]s.
    Measured quantities (rates, times reported by the browser) are JavaScript
    numbers; counters, levels, clock readings and intervals, which the code
    obtains from integer validators, [Math.floor] or integer literals, are [Z]. *)

From S2P Require Import Prelude JsNum JsVal.
Local Open Scope string_scope.

Inductive QosSource := Camera | ScreenShare | Audio.
Inductive QosReason := RNetwork | RCpu | RManual | RServerOverride | RUnknown.
Inductive QosState := Stable | EarlyWarning | Congested | Recovering.
Inductive QosQuality := Excellent | Good | Poor | Lost.
Inductive QosTrackKind := KAudio | KVideo.
Inductive QosTrackMode := AudioOnlyMode | AudioVideoMode | VideoOnlyMode.
Inductive QosActionType :=
| TSetEncodingParameters | TSetMaxSpatialLayer | TEnterAudioOnly | TExitAudioOnly
| TPauseUpstream | TResumeUpstream | TNoop.
Inductive QosQualityLimitationReason := QBandwidth | QCpu | QOther | QNone | QUnknown.
Inductive QosOverrideScope := PeerScope | TrackScope.

#[export] Instance QosSource_eq_dec : EqDecision QosSource.
Proof. solve_decision. Defined.
#[export] Instance QosReason_eq_dec : EqDecision QosReason.
Proof. solve_decision. Defined.
#[export] Instance QosState_eq_dec : EqDecision QosState.
Proof. solve_decision. Defined.
#[export] Instance QosQuality_eq_dec : EqDecision QosQuality.
Proof. solve_decision. Defined.
#[export] Instance QosTrackKind_eq_dec : EqDecision QosTrackKind.
Proof. solve_decision. Defined.
#[export] Instance QosTrackMode_eq_dec : EqDecision QosTrackMode.
Proof. solve_decision. Defined.
#[export] Instance QosActionType_eq_dec : EqDecision QosActionType.
Proof. solve_decision. Defined.
#[export] Instance QosQualityLimitationReason_eq_dec : EqDecision QosQualityLimitationReason.
Proof. solve_decision. Defined.
#[export] Instance QosOverrideScope_eq_dec : EqDecision QosOverrideScope.
Proof. solve_decision. Defined.

(** A string union: the values in the order the validators list them, each with
    its string. *)
Class StringEnum (A : Type) := {
  enum_str : A → string;
  enum_all : list A;
  enum_complete : ∀ a, a ∈ enum_all;
  enum_inj : ∀ a b, enum_str a = enum_str b → a = b;
}.

Definition source_str (s : QosSource) : string :=
  match s with Camera => "camera" | ScreenShare => "screenShare" | Audio => "audio" end.

Definition reason_str (r : QosReason) : string :=
  match r with
  | RNetwork => "network" | RCpu => "cpu" | RManual => "manual"
  | RServerOverride => "server_override" | RUnknown => "unknown"
  end.

Definition state_str (s : QosState) : string :=
  match s with
  | Stable => "stable" | EarlyWarning => "early_warning"
  | Congested => "congested" | Recovering => "recovering"
  end.

Definition quality_str (q : QosQuality) : string :=
  match q with Excellent => "excellent" | Good => "good" | Poor => "poor" | Lost => "lost" end.

Definition kind_str (k : QosTrackKind) : string :=
  match k with KAudio => "audio" | KVideo => "video" end.

Definition mode_str (m : QosTrackMode) : string :=
  match m with
  | AudioOnlyMode => "audio-only" | AudioVideoMode => "audio-video" | VideoOnlyMode => "video-only"
  end.

Definition action_type_str (t : QosActionType) : string :=
  match t with
  | TSetEncodingParameters => "setEncodingParameters"
  | TSetMaxSpatialLayer => "setMaxSpatialLayer"
  | TEnterAudioOnly => "enterAudioOnly"
  | TExitAudioOnly => "exitAudioOnly"
  | TPauseUpstream => "pauseUpstream"
  | TResumeUpstream => "resumeUpstream"
  | TNoop => "noop"
  end.

Definition limitation_str (q : QosQualityLimitationReason) : string :=
  match q with
  | QBandwidth => "bandwidth" | QCpu => "cpu" | QOther => "other"
  | QNone => "none" | QUnknown => "unknown"
  end.

Definition scope_str (s : QosOverrideScope) : string :=
  match s with PeerScope => "peer" | TrackScope => "track" end.

Ltac solve_enum :=
  match goal with
  | |- ∀ a, a ∈ _ => intros []; repeat first [left | right]
  | |- ∀ a b, _ = _ → a = b => intros [] []; simpl; congruence
  end.

#[export, refine] Instance source_enum : StringEnum QosSource :=
  {| enum_str := source_str; enum_all := [Camera; ScreenShare; Audio] |}.
Proof. all: solve_enum. Defined.
#[export, refine] Instance reason_enum : StringEnum QosReason :=
  {| enum_str := reason_str;
     enum_all := [RNetwork; RCpu; RManual; RServerOverride; RUnknown] |}.
Proof. all: solve_enum. Defined.
#[export, refine] Instance state_enum : StringEnum QosState :=
  {| enum_str := state_str; enum_all := [Stable; EarlyWarning; Congested; Recovering] |}.
Proof. all: solve_enum. Defined.
#[export, refine] Instance quality_enum : StringEnum QosQuality :=
  {| enum_str := quality_str; enum_all := [Excellent; Good; Poor; Lost] |}.
Proof. all: solve_enum. Defined.
#[export, refine] Instance kind_enum : StringEnum QosTrackKind :=
  {| enum_str := kind_str; enum_all := [KAudio; KVideo] |}.
Proof. all: solve_enum. Defined.
#[export, refine] Instance mode_enum : StringEnum QosTrackMode :=
  {| enum_str := mode_str; enum_all := [AudioOnlyMode; AudioVideoMode; VideoOnlyMode] |}.
Proof. all: solve_enum. Defined.
#[export, refine] Instance action_type_enum : StringEnum QosActionType :=
  {| enum_str := action_type_str;
     enum_all := [TSetEncodingParameters; TSetMaxSpatialLayer; TEnterAudioOnly; TExitAudioOnly;
                  TPauseUpstream; TResumeUpstream; TNoop] |}.
Proof. all: solve_enum. Defined.
#[export, refine] Instance limitation_enum : StringEnum QosQualityLimitationReason :=
  {| enum_str := limitation_str; enum_all := [QBandwidth; QCpu; QOther; QNone; QUnknown] |}.
Proof. all: solve_enum. Defined.
#[export, refine] Instance scope_enum : StringEnum QosOverrideScope :=
  {| enum_str := scope_str; enum_all := [PeerScope; TrackScope] |}.
Proof. all: solve_enum. Defined.

(** ** Constants (constants.js) *)

Definition QOS_CLIENT_SCHEMA_V1 : string := "mediasoup.qos.client.v1".
Definition QOS_POLICY_SCHEMA_V1 : string := "mediasoup.qos.policy.v1".
Definition QOS_OVERRIDE_SCHEMA_V1 : string := "mediasoup.qos.override.v1".
Definition DEFAULT_SAMPLE_INTERVAL_MS : Z := 1000.
Definition DEFAULT_SNAPSHOT_INTERVAL_MS : Z := 2000.
Definition DEFAULT_RECOVERY_COOLDOWN_MS : Z := 8000.
Definition DEFAULT_TRACE_BUFFER_SIZE : Z := 256.
Definition QOS_MAX_SEQ : Z := MAX_SAFE_INTEGER.
Definition QOS_MAX_TRACKS_PER_SNAPSHOT : nat := 32.

(** ** Records *)

(** What the stats provider reports for a sender. *)
Record RawSenderSnapshot := {
  rs_timestampMs : num;
  rs_trackId : option string;
  rs_producerId : option string;
  rs_source : QosSource;
  rs_kind : QosTrackKind;
  rs_bytesSent : option num;
  rs_packetsSent : option num;
  rs_packetsLost : option num;
  rs_retransmittedPacketsSent : option num;
  rs_targetBitrateBps : option num;
  rs_configuredBitrateBps : option num;
  rs_roundTripTimeMs : option num;
  rs_jitterMs : option num;
  rs_frameWidth : option num;
  rs_frameHeight : option num;
  rs_framesPerSecond : option num;
  rs_qualityLimitationReason : option QosQualityLimitationReason;
  rs_qualityLimitationDurationsSec : option (list (string * num));
}.

Record DerivedQosSignals := {
  sg_packetsSentDelta : num;
  sg_packetsLostDelta : num;
  sg_retransmittedPacketsSentDelta : num;
  sg_sendBitrateBps : num;
  sg_targetBitrateBps : num;
  sg_bitrateUtilization : num;
  sg_lossRate : num;
  sg_lossEwma : num;
  sg_rttMs : num;
  sg_rttEwma : num;
  sg_jitterMs : num;
  sg_jitterEwma : num;
  sg_cpuLimited : bool;
  sg_bandwidthLimited : bool;
  sg_reason : QosReason;
}.

Record QosThresholds := {
  th_warnLossRate : num;
  th_congestedLossRate : num;
  th_warnRttMs : num;
  th_congestedRttMs : num;
  th_warnJitterMs : option num;
  th_congestedJitterMs : option num;
  th_warnBitrateUtilization : num;
  th_congestedBitrateUtilization : num;
  th_stableLossRate : num;
  th_stableRttMs : num;
  th_stableJitterMs : option num;
  th_stableBitrateUtilization : num;
}.

Record QosEncodingParameters := {
  ep_maxBitrateBps : option num;
  ep_maxFramerate : option num;
  ep_scaleResolutionDownBy : option num;
  ep_adaptivePtime : option bool;
}.

Record QosLadderStep := {
  ls_level : Z;
  ls_description : string;
  ls_encodingParameters : option QosEncodingParameters;
  ls_spatialLayer : option Z;
  ls_enterAudioOnly : bool;
  ls_exitAudioOnly : bool;
  ls_pauseUpstream : bool;
  ls_resumeUpstream : bool;
}.

Record QosProfile := {
  pf_name : string;
  pf_source : QosSource;
  pf_levelCount : Z;
  pf_sampleIntervalMs : Z;
  pf_snapshotIntervalMs : Z;
  pf_recoveryCooldownMs : Z;
  pf_thresholds : QosThresholds;
  pf_ladder : list QosLadderStep;
}.

(** The planner's actions; every one carries the ladder level it leads to. *)
Inductive PlannedQosAction :=
| SetEncodingParameters (level : Z) (encodingParameters : QosEncodingParameters)
| SetMaxSpatialLayer (level : Z) (spatialLayer : Z)
| EnterAudioOnly (level : Z) (reason : option string)
| ExitAudioOnly (level : Z) (reason : option string)
| PauseUpstream (level : Z)
| ResumeUpstream (level : Z)
| Noop (level : Z) (reason : option string).

Definition action_type (a : PlannedQosAction) : QosActionType :=
  match a with
  | SetEncodingParameters _ _ => TSetEncodingParameters
  | SetMaxSpatialLayer _ _ => TSetMaxSpatialLayer
  | EnterAudioOnly _ _ => TEnterAudioOnly
  | ExitAudioOnly _ _ => TExitAudioOnly
  | PauseUpstream _ => TPauseUpstream
  | ResumeUpstream _ => TResumeUpstream
  | Noop _ _ => TNoop
  end.

Definition action_level (a : PlannedQosAction) : Z :=
  match a with
  | SetEncodingParameters l _ | SetMaxSpatialLayer l _ | EnterAudioOnly l _
  | ExitAudioOnly l _ | PauseUpstream l | ResumeUpstream l | Noop l _ => l
  end.

Definition is_type (t : QosActionType) (a : PlannedQosAction) : bool :=
  bool_decide (action_type a = t).

Record ClientQosTrackAction := {
  ta_type : QosActionType;
  ta_applied : bool;
}.

Record QosPolicy := {
  po_sampleIntervalMs : Z;
  po_snapshotIntervalMs : Z;
  po_allowAudioOnly : bool;
  po_allowVideoPause : bool;
  po_profiles_camera : string;
  po_profiles_screenShare : string;
  po_profiles_audio : string;
}.

(** [ov_trackId]: [None] for an absent property or [undefined], [Some None] for
    [null], [Some (Some id)] for an id. *)
Record QosOverride := {
  ov_scope : QosOverrideScope;
  ov_trackId : option (option string);
  ov_maxLevelClamp : option Z;
  ov_forceAudioOnly : option bool;
  ov_disableRecovery : option bool;
  ov_pauseUpstream : option bool;
  ov_resumeUpstream : option bool;
  ov_ttlMs : Z;
  ov_reason : string;
}.

Record PeerQosTrackState := {
  pt_trackId : string;
  pt_source : QosSource;
  pt_kind : QosTrackKind;
  pt_state : QosState;
  pt_quality : QosQuality;
  pt_level : Z;
  pt_inAudioOnlyMode : bool;
}.

Record PeerQosDecision := {
  pd_peerQuality : QosQuality;
  pd_prioritizedTrackIds : list string;
  pd_sacrificialTrackIds : list string;
  pd_keepAudioAlive : bool;
  pd_preferScreenShare : bool;
  pd_allowVideoRecovery : bool;
}.

(** ** Optional values *)

(** [o === true] for an optional boolean. *)
Definition opt_true (o : option bool) : bool :=
  match o with Some b => b | None => false end.

Definition finite_opt (o : option num) : option num :=
  match o with Some n => if is_finite n then Some n else None | None => None end.

(** ** Sample values *)

(** A sample with the given smoothed round-trip time and no other impairment. *)
Definition rtt_sample (rtt : Z) : DerivedQosSignals := {|
  sg_packetsSentDelta := num_of_Z 100; sg_packetsLostDelta := num0;
  sg_retransmittedPacketsSentDelta := num0; sg_sendBitrateBps := num_of_Z 900000;
  sg_targetBitrateBps := num_of_Z 900000; sg_bitrateUtilization := num1;
  sg_lossRate := num0; sg_lossEwma := num0; sg_rttMs := num_of_Z rtt; sg_rttEwma := num_of_Z rtt;
  sg_jitterMs := num_of_Z 5; sg_jitterEwma := num_of_Z 5;
  sg_cpuLimited := false; sg_bandwidthLimited := false; sg_reason := RUnknown |}.
