(* ===== verification/Profiles.v ===== *)
(** * QoS profiles (src/client/lib/qos/profiles.js)

    The built-in degradation ladders and thresholds per source, the registry of
    named profiles and [resolveProfile], which merges an application override
    into the default of a source. *)

From Stdlib Require Import QArith.
From S2P Require Import Prelude JsNum JsVal QosTypes.
Local Open Scope string_scope.
Local Open Scope list_scope.
Local Open Scope Z_scope.

(** ** Built-in data *)

Definition DEFAULT_THRESHOLDS : QosThresholds := {|
  th_warnLossRate := lit (4#100);
  th_congestedLossRate := lit (8#100);
  th_warnRttMs := num_of_Z 220;
  th_congestedRttMs := num_of_Z 320;
  th_warnJitterMs := Some (num_of_Z 30);
  th_congestedJitterMs := Some (num_of_Z 60);
  th_warnBitrateUtilization := lit (85#100);
  th_congestedBitrateUtilization := lit (65#100);
  th_stableLossRate := lit (3#100);
  th_stableRttMs := num_of_Z 180;
  th_stableJitterMs := Some (num_of_Z 20);
  th_stableBitrateUtilization := lit (92#100);
|}.

(** An object literal [{ level, description, ...rest }] of a ladder. *)
Definition ladder_step (level : Z) (description : string) : QosLadderStep := {|
  ls_level := level; ls_description := description;
  ls_encodingParameters := None; ls_spatialLayer := None;
  ls_enterAudioOnly := false; ls_exitAudioOnly := false;
  ls_pauseUpstream := false; ls_resumeUpstream := false;
|}.

Definition with_encoding (p : QosEncodingParameters) (s : QosLadderStep) : QosLadderStep := {|
  ls_level := ls_level s; ls_description := ls_description s;
  ls_encodingParameters := Some p; ls_spatialLayer := ls_spatialLayer s;
  ls_enterAudioOnly := ls_enterAudioOnly s; ls_exitAudioOnly := ls_exitAudioOnly s;
  ls_pauseUpstream := ls_pauseUpstream s; ls_resumeUpstream := ls_resumeUpstream s;
|}.

Definition video_encoding (bitrate fps : Z) (scale : Q) : QosEncodingParameters := {|
  ep_maxBitrateBps := Some (num_of_Z bitrate);
  ep_maxFramerate := Some (num_of_Z fps);
  ep_scaleResolutionDownBy := Some (lit scale);
  ep_adaptivePtime := None;
|}.

Definition audio_encoding (bitrate : Z) (ptime : option bool) : QosEncodingParameters := {|
  ep_maxBitrateBps := Some (num_of_Z bitrate);
  ep_maxFramerate := None;
  ep_scaleResolutionDownBy := None;
  ep_adaptivePtime := ptime;
|}.

Definition camera_level_2 : QosLadderStep :=
  ladder_step 2 "Further reduce bitrate/frame rate and start downscaling resolution.".

Definition camera_level_3 : QosLadderStep := {|
  ls_level := 3;
  ls_description := "Aggressive bitrate and fps reduction, force lowest spatial layer if available.";
  ls_encodingParameters := Some (video_encoding 450000 12 2);
  ls_spatialLayer := Some 0;
  ls_enterAudioOnly := false; ls_exitAudioOnly := false;
  ls_pauseUpstream := false; ls_resumeUpstream := false;
|}.

Definition camera_level_4 : QosLadderStep := {|
  ls_level := 4;
  ls_description := "Enter audio-only mode and pause video upstream.";
  ls_encodingParameters := None;
  ls_spatialLayer := None;
  ls_enterAudioOnly := true; ls_exitAudioOnly := false;
  ls_pauseUpstream := false; ls_resumeUpstream := false;
|}.

Definition DEFAULT_CAMERA_PROFILE : QosProfile := {|
  pf_name := "default-camera";
  pf_source := Camera;
  pf_levelCount := 5;
  pf_sampleIntervalMs := DEFAULT_SAMPLE_INTERVAL_MS;
  pf_snapshotIntervalMs := DEFAULT_SNAPSHOT_INTERVAL_MS;
  pf_recoveryCooldownMs := DEFAULT_RECOVERY_COOLDOWN_MS;
  pf_thresholds := DEFAULT_THRESHOLDS;
  pf_ladder := [
    with_encoding (video_encoding 900000 30 1)
      (ladder_step 0 "Use publish initial encoding settings.");
    with_encoding (video_encoding 850000 24 1)
      (ladder_step 1 "Reduce bitrate and frame rate slightly.");
    with_encoding (video_encoding 700000 20 (15#10)) camera_level_2;
    camera_level_3;
    camera_level_4 ];
|}.

Definition DEFAULT_SCREENSHARE_PROFILE : QosProfile := {|
  pf_name := "default-screenshare";
  pf_source := ScreenShare;
  pf_levelCount := 5;
  pf_sampleIntervalMs := DEFAULT_SAMPLE_INTERVAL_MS;
  pf_snapshotIntervalMs := DEFAULT_SNAPSHOT_INTERVAL_MS;
  pf_recoveryCooldownMs := 10000;
  pf_thresholds := DEFAULT_THRESHOLDS;
  pf_ladder := [
    with_encoding (video_encoding 1800000 15 1)
      (ladder_step 0 "Use publish initial encoding settings.");
    with_encoding (video_encoding 1800000 10 1)
      (ladder_step 1 "Lower capture/send framerate to 10.");
    with_encoding (video_encoding 1350000 5 1)
      (ladder_step 2 "Lower framerate to 5 while prioritizing text readability.");
    {| ls_level := 3;
       ls_description := "Further limit bitrate and framerate before resolution downgrade.";
       ls_encodingParameters := Some (video_encoding 990000 3 (125#100));
       ls_spatialLayer := None;
       ls_enterAudioOnly := false; ls_exitAudioOnly := false;
       ls_pauseUpstream := false; ls_resumeUpstream := true |};
    {| ls_level := 4;
       ls_description := "Pause screen share and rely on coordinator decision.";
       ls_encodingParameters := None;
       ls_spatialLayer := None;
       ls_enterAudioOnly := false; ls_exitAudioOnly := false;
       ls_pauseUpstream := true; ls_resumeUpstream := false |} ];
|}.

Definition DEFAULT_AUDIO_PROFILE : QosProfile := {|
  pf_name := "default-audio";
  pf_source := Audio;
  pf_levelCount := 5;
  pf_sampleIntervalMs := DEFAULT_SAMPLE_INTERVAL_MS;
  pf_snapshotIntervalMs := DEFAULT_SNAPSHOT_INTERVAL_MS;
  pf_recoveryCooldownMs := DEFAULT_RECOVERY_COOLDOWN_MS;
  pf_thresholds := DEFAULT_THRESHOLDS;
  pf_ladder := [
    with_encoding (audio_encoding 510000 None)
      (ladder_step 0 "Use publish initial encoding settings.");
    with_encoding (audio_encoding 32000 (Some true))
      (ladder_step 1 "Reduce max bitrate to around 32kbps, enable adaptive ptime if available.");
    with_encoding (audio_encoding 24000 None)
      (ladder_step 2 "Reduce max bitrate to around 24kbps.");
    with_encoding (audio_encoding 16000 None)
      (ladder_step 3 "Reduce max bitrate to around 16kbps.");
    with_encoding (audio_encoding 16000 (Some true))
      (ladder_step 4 "Keep audio alive at minimum quality, avoid auto-mute.") ];
|}.

Definition CONSERVATIVE_THRESHOLDS : QosThresholds := {|
  th_warnLossRate := lit (3#100);
  th_congestedLossRate := lit (6#100);
  th_warnRttMs := num_of_Z 180;
  th_congestedRttMs := num_of_Z 260;
  th_warnJitterMs := th_warnJitterMs DEFAULT_THRESHOLDS;
  th_congestedJitterMs := th_congestedJitterMs DEFAULT_THRESHOLDS;
  th_warnBitrateUtilization := th_warnBitrateUtilization DEFAULT_THRESHOLDS;
  th_congestedBitrateUtilization := th_congestedBitrateUtilization DEFAULT_THRESHOLDS;
  th_stableLossRate := th_stableLossRate DEFAULT_THRESHOLDS;
  th_stableRttMs := th_stableRttMs DEFAULT_THRESHOLDS;
  th_stableJitterMs := th_stableJitterMs DEFAULT_THRESHOLDS;
  th_stableBitrateUtilization := th_stableBitrateUtilization DEFAULT_THRESHOLDS;
|}.

Definition CONSERVATIVE_CAMERA_PROFILE : QosProfile := {|
  pf_name := "conservative";
  pf_source := pf_source DEFAULT_CAMERA_PROFILE;
  pf_levelCount := pf_levelCount DEFAULT_CAMERA_PROFILE;
  pf_sampleIntervalMs := pf_sampleIntervalMs DEFAULT_CAMERA_PROFILE;
  pf_snapshotIntervalMs := pf_snapshotIntervalMs DEFAULT_CAMERA_PROFILE;
  pf_recoveryCooldownMs := 12000;
  pf_thresholds := CONSERVATIVE_THRESHOLDS;
  pf_ladder := [
    with_encoding (video_encoding 900000 30 1)
      (ladder_step 0 "Use publish initial encoding settings.");
    with_encoding (video_encoding 850000 24 1)
      (ladder_step 1 "Reduce bitrate and frame rate slightly.");
    with_encoding (video_encoding 550000 15 (15#10)) camera_level_2;
    camera_level_3;
    camera_level_4 ];
|}.

(** ** Lookup by name *)

Definition PROFILE_REGISTRY (source : QosSource) : list (string * QosProfile) :=
  match source with
  | Camera =>
      [("default", DEFAULT_CAMERA_PROFILE); ("conservative", CONSERVATIVE_CAMERA_PROFILE)]
  | ScreenShare =>
      [("default", DEFAULT_SCREENSHARE_PROFILE); ("clarity-first", DEFAULT_SCREENSHARE_PROFILE)]
  | Audio =>
      [("default", DEFAULT_AUDIO_PROFILE); ("speech-first", DEFAULT_AUDIO_PROFILE)]
  end.

(** The property names every object literal inherits from [Object.prototype];
    their values are truthy and have no [ladder]. *)
Definition object_prototype_names : list string :=
  [ "constructor"; "__defineGetter__"; "__defineSetter__"; "hasOwnProperty";
    "__lookupGetter__"; "__lookupSetter__"; "isPrototypeOf"; "propertyIsEnumerable";
    "toString"; "valueOf"; "__proto__"; "toLocaleString" ].

(** Copies the profile; the records here are values, so it is the profile. *)
Definition cloneProfile (profile : QosProfile) : QosProfile := {|
  pf_name := pf_name profile;
  pf_source := pf_source profile;
  pf_levelCount := pf_levelCount profile;
  pf_sampleIntervalMs := pf_sampleIntervalMs profile;
  pf_snapshotIntervalMs := pf_snapshotIntervalMs profile;
  pf_recoveryCooldownMs := pf_recoveryCooldownMs profile;
  pf_thresholds := pf_thresholds profile;
  pf_ladder := map (λ step, step) (pf_ladder profile);
|}.

(** An inherited name reads as a truthy value without a [ladder], on which
    [cloneProfile] throws. *)
Definition resolveProfileByName (source : QosSource) (name : string) : outcome (option QosProfile) :=
  match map_get (PROFILE_REGISTRY source) name with
  | Some profile => Ok (Some (cloneProfile profile))
  | None =>
      if bool_decide (name ∈ object_prototype_names)
      then Throw "Cannot read properties of undefined (reading 'map')"
      else Ok None
  end.

Definition getDefaultCameraProfile : QosProfile := cloneProfile DEFAULT_CAMERA_PROFILE.
Definition getDefaultScreenShareProfile : QosProfile := cloneProfile DEFAULT_SCREENSHARE_PROFILE.
Definition getDefaultAudioProfile : QosProfile := cloneProfile DEFAULT_AUDIO_PROFILE.

(** ** Merging an application override *)

Record ThresholdsOverride := {
  to_warnLossRate : option num;
  to_congestedLossRate : option num;
  to_warnRttMs : option num;
  to_congestedRttMs : option num;
  to_warnJitterMs : option num;
  to_congestedJitterMs : option num;
  to_warnBitrateUtilization : option num;
  to_congestedBitrateUtilization : option num;
  to_stableLossRate : option num;
  to_stableRttMs : option num;
  to_stableJitterMs : option num;
  to_stableBitrateUtilization : option num;
}.

(** A partial profile; [None] is an absent property. *)
Record ProfileOverride := {
  po_name : option string;
  po_source : option QosSource;
  po_levelCount : option Z;
  po_sampleInterval : option Z;
  po_snapshotInterval : option Z;
  po_recoveryCooldownMs : option Z;
  po_thresholds : option ThresholdsOverride;
  po_ladder : option (list QosLadderStep);
}.

(** [{ ...base.thresholds, ...override.thresholds }]. *)
Definition merge_thresholds (b : QosThresholds) (o : ThresholdsOverride) : QosThresholds := {|
  th_warnLossRate := default (th_warnLossRate b) (to_warnLossRate o);
  th_congestedLossRate := default (th_congestedLossRate b) (to_congestedLossRate o);
  th_warnRttMs := default (th_warnRttMs b) (to_warnRttMs o);
  th_congestedRttMs := default (th_congestedRttMs b) (to_congestedRttMs o);
  th_warnJitterMs := match to_warnJitterMs o with Some j => Some j | None => th_warnJitterMs b end;
  th_congestedJitterMs :=
    match to_congestedJitterMs o with Some j => Some j | None => th_congestedJitterMs b end;
  th_warnBitrateUtilization := default (th_warnBitrateUtilization b) (to_warnBitrateUtilization o);
  th_congestedBitrateUtilization :=
    default (th_congestedBitrateUtilization b) (to_congestedBitrateUtilization o);
  th_stableLossRate := default (th_stableLossRate b) (to_stableLossRate o);
  th_stableRttMs := default (th_stableRttMs b) (to_stableRttMs o);
  th_stableJitterMs :=
    match to_stableJitterMs o with Some j => Some j | None => th_stableJitterMs b end;
  th_stableBitrateUtilization :=
    default (th_stableBitrateUtilization b) (to_stableBitrateUtilization o);
|}.

Definition resolveProfile (source : QosSource) (override : option ProfileOverride) : QosProfile :=
  let base := match source with
              | Camera => getDefaultCameraProfile
              | ScreenShare => getDefaultScreenShareProfile
              | Audio => getDefaultAudioProfile
              end in
  match override with
  | None => base
  | Some o => {|
      pf_name := default (pf_name base) (po_name o);
      pf_source := default (pf_source base) (po_source o);
      pf_levelCount := default (pf_levelCount base) (po_levelCount o);
      pf_sampleIntervalMs := default (pf_sampleIntervalMs base) (po_sampleInterval o);
      pf_snapshotIntervalMs := default (pf_snapshotIntervalMs base) (po_snapshotInterval o);
      pf_recoveryCooldownMs := default (pf_recoveryCooldownMs base) (po_recoveryCooldownMs o);
      pf_thresholds := match po_thresholds o with
                       | Some t => merge_thresholds (pf_thresholds base) t
                       | None => pf_thresholds base
                       end;
      pf_ladder := match po_ladder o with
                   | Some l => map (λ step, step) l
                   | None => pf_ladder base
                   end |}
  end.

(** ** Well-formed profiles *)

(** The ladder has exactly one step per level, [0 .. levelCount - 1], in order. *)
Definition wf_ladder (p : QosProfile) : bool :=
  (0 <? pf_levelCount p) &&
  bool_decide (map ls_level (pf_ladder p) = map Z.of_nat (seq 0 (Z.to_nat (pf_levelCount p)))).

Definition lt_opt (a b : option num) : bool :=
  match a, b with Some (Fin x), Some (Fin y) => num_ltb (Fin x) (Fin y) | _, _ => false end.

Definition le_opt (a b : option num) : bool :=
  match a, b with Some (Fin x), Some (Fin y) => num_leb (Fin x) (Fin y) | _, _ => false end.

(** stable <= warn < congested on the three network metrics, the jitter ones given
    and finite. *)
Definition wf_thresholds (t : QosThresholds) : bool :=
  num_leb (th_stableLossRate t) (th_warnLossRate t) &&
  num_ltb (th_warnLossRate t) (th_congestedLossRate t) &&
  num_leb (th_stableRttMs t) (th_warnRttMs t) &&
  num_ltb (th_warnRttMs t) (th_congestedRttMs t) &&
  le_opt (th_stableJitterMs t) (th_warnJitterMs t) &&
  lt_opt (th_warnJitterMs t) (th_congestedJitterMs t).

Definition wf_profile (p : QosProfile) : bool :=
  wf_ladder p && wf_thresholds (pf_thresholds p) && (0 <=? pf_recoveryCooldownMs p).

(** ** Properties *)

Lemma cloneProfile_id p : cloneProfile p = p.
Proof. destruct p; unfold cloneProfile; simpl. by rewrite map_id. Qed.

Lemma registry_wf s :
  Forall (λ e, wf_profile e.2 = true ∧ pf_source e.2 = s) (PROFILE_REGISTRY s).
Proof. destruct s; repeat constructor; vm_compute; done. Qed.

(** Level [l] of a well-formed ladder has a step. *)
Lemma wf_ladder_find p l :
  wf_ladder p = true → 0 <= l < pf_levelCount p →
  ∃ step, array_find (λ s, ls_level s =? l) (pf_ladder p) = Some step ∧ ls_level step = l.
Proof.
  intros Hwf Hl. unfold wf_ladder in Hwf. bool_hyps.
  apply bool_decide_eq_true in H0.
  destruct (array_find _ (pf_ladder p)) as [step|] eqn:E.
  - exists step. split; [done|]. apply array_find_some in E as [_ E]. zlia.
  - exfalso. apply array_find_none in E. rewrite Forall_forall in E.
    assert (l ∈ map ls_level (pf_ladder p)) as Hin.
    { rewrite H0. apply list_elem_of_In, in_map_iff. exists (Z.to_nat l).
      split; [lia|]. apply in_seq. lia. }
    apply list_elem_of_In, in_map_iff in Hin as (s & Hs & Hin).
    apply list_elem_of_In in Hin. specialize (E s Hin). zlia.
Qed.
