(* ===== verification/Signals.v ===== *)
(** * Signal derivation (src/client/lib/qos/signals.js)

    Turns two successive sender snapshots into rates, smoothed metrics and a
    reason.  The theorems show that whatever the browser reports (missing
    counters, NaN, infinities, counter resets, clock skew) the derived metrics
    are numbers, are non-negative, and that loss ratios stay within [0, 1] with
    the rounding of doubles taken into account. *)

From Stdlib Require Import QArith Lqa.
From S2P Require Import Prelude JsNum JsVal QosTypes.

Definition DEFAULT_EWMA_ALPHA : num := lit (35#100).
Definition DEFAULT_NETWORK_WARN_LOSS_RATE : num := lit (4#100).
Definition DEFAULT_NETWORK_WARN_RTT_MS : num := num_of_Z 220.
Definition DEFAULT_NETWORK_CONGESTED_UTILIZATION : num := lit (65#100).
Definition DEFAULT_CPU_REASON_MIN_SAMPLES : num := num_of_Z 2.

Definition asFiniteOrZero (value : option num) : num :=
  match value with Some n => if is_finite n then n else num0 | None => num0 end.

Definition asFiniteOrUndefined (value : option num) : option num :=
  match value with Some n => if is_finite n then Some n else None | None => None end.

Definition clampToUnitRange (value : num) : num :=
  if (value <? num0)%num then num0
  else if (value >? num1)%num then num1
  else value.

Definition computeCounterDelta (currentValue previousValue : option num) : num :=
  let current := asFiniteOrZero currentValue in
  let previous := asFiniteOrZero previousValue in
  if (current <=? previous)%num then num0 else (current - previous)%num.

Definition computeBitrateBps (currentBytesSent previousBytesSent : option num)
    (currentTimestampMs : num) (previousTimestampMs : option num) : num :=
  let deltaBytes := computeCounterDelta currentBytesSent previousBytesSent in
  let previousTs := asFiniteOrZero previousTimestampMs in
  if negb (is_finite currentTimestampMs)
     || (currentTimestampMs <=? previousTs)%num
     || (deltaBytes <=? num0)%num
  then num0
  else
    let deltaMs := (currentTimestampMs - previousTs)%num in
    ((deltaBytes * num_of_Z 8 * num_of_Z 1000) / deltaMs)%num.

Definition computeLossRate (packetsSentDelta packetsLostDelta : option num) : num :=
  let sent := math_max num0 (asFiniteOrZero packetsSentDelta) in
  let lost := math_max num0 (asFiniteOrZero packetsLostDelta) in
  let total := (sent + lost)%num in
  if (total <=? num0)%num then num0 else clampToUnitRange (lost / total)%num.

(** [alpha] is [None] when the caller leaves the default parameter. *)
Definition computeEwma (currentValue previousEwma alpha : option num) : num :=
  let alpha := match alpha with Some a => a | None => DEFAULT_EWMA_ALPHA end in
  let current := asFiniteOrZero currentValue in
  let prev := asFiniteOrZero previousEwma in
  let safeAlpha := clampToUnitRange (asFiniteOrZero (Some alpha)) in
  if (safeAlpha <=? num0)%num then prev
  else if (safeAlpha >=? num1)%num then current
  else match asFiniteOrUndefined previousEwma with
       | None => current
       | Some _ => (safeAlpha * current + (num1 - safeAlpha) * prev)%num
       end.

Definition computeBitrateUtilization (sendBitrateBps targetBitrateBps configuredBitrateBps : option num)
    : num :=
  let send := math_max num0 (asFiniteOrZero sendBitrateBps) in
  let target := math_max num0 (asFiniteOrZero targetBitrateBps) in
  let configured := math_max num0 (asFiniteOrZero configuredBitrateBps) in
  let denominator := if (target >? num0)%num then target else configured in
  if (denominator <=? num0)%num
  then if (send >? num0)%num then num1 else num0
  else (send / denominator)%num.

Record ReasonContext := {
  rc_activeOverride : bool;
  rc_manual : bool;
  rc_cpuSampleCount : option num;
}.

Definition empty_reason_context : ReasonContext :=
  {| rc_activeOverride := false; rc_manual := false; rc_cpuSampleCount := None |}.

Definition classifyReason (bandwidthLimited cpuLimited : bool) (lossEwma rttEwma : num)
    (context : ReasonContext) : QosReason :=
  if rc_activeOverride context then RServerOverride
  else if rc_manual context then RManual
  else
    let cpuSampleCount := math_floor (asFiniteOrZero (rc_cpuSampleCount context)) in
    if cpuLimited && (cpuSampleCount >=? DEFAULT_CPU_REASON_MIN_SAMPLES)%num then RCpu
    else
      let networkLikely := bandwidthLimited
        || (lossEwma >=? DEFAULT_NETWORK_WARN_LOSS_RATE)%num
        || (rttEwma >=? DEFAULT_NETWORK_WARN_RTT_MS)%num in
      if networkLikely then RNetwork else RUnknown.

(** The metric of this sample: the reported one, or the previous value when the
    sample has none ([current] undefined). *)
Definition metric_or_previous (current : option num) (previous : option num) : num :=
  match current with
  | Some c => math_max num0 c
  | None => math_max num0 (asFiniteOrZero previous)
  end.

Definition ewma_or_previous (current : option num) (value : num) (previous alpha : option num) : num :=
  match current with
  | Some _ => computeEwma (Some value) previous alpha
  | None => asFiniteOrZero previous
  end.

Definition deriveSignals (current : RawSenderSnapshot) (previous : option RawSenderSnapshot)
    (previousSignals : option DerivedQosSignals) (ewmaAlpha : option num)
    (reasonContext : ReasonContext) : DerivedQosSignals :=
  let packetsSentDelta := computeCounterDelta (rs_packetsSent current) (previous ≫= rs_packetsSent) in
  let packetsLostDelta := computeCounterDelta (rs_packetsLost current) (previous ≫= rs_packetsLost) in
  let retransmittedPacketsSentDelta :=
    computeCounterDelta (rs_retransmittedPacketsSent current) (previous ≫= rs_retransmittedPacketsSent) in
  let sendBitrateBps :=
    computeBitrateBps (rs_bytesSent current) (previous ≫= rs_bytesSent)
      (asFiniteOrZero (Some (rs_timestampMs current))) (rs_timestampMs <$> previous) in
  let targetBitrateBps := math_max num0 (asFiniteOrZero (rs_targetBitrateBps current)) in
  let bitrateUtilization :=
    computeBitrateUtilization (Some sendBitrateBps) (Some targetBitrateBps)
      (rs_configuredBitrateBps current) in
  let lossRate := computeLossRate (Some packetsSentDelta) (Some packetsLostDelta) in
  let lossEwma := computeEwma (Some lossRate) (sg_lossEwma <$> previousSignals) ewmaAlpha in
  let currentRttMs := asFiniteOrUndefined (rs_roundTripTimeMs current) in
  let rttMs := metric_or_previous currentRttMs (sg_rttMs <$> previousSignals) in
  let rttEwma := ewma_or_previous currentRttMs rttMs (sg_rttEwma <$> previousSignals) ewmaAlpha in
  let currentJitterMs := asFiniteOrUndefined (rs_jitterMs current) in
  let jitterMs := metric_or_previous currentJitterMs (sg_jitterMs <$> previousSignals) in
  let jitterEwma := ewma_or_previous currentJitterMs jitterMs (sg_jitterEwma <$> previousSignals) ewmaAlpha in
  let qualityReason := default QUnknown (rs_qualityLimitationReason current) in
  let cpuLimited := bool_decide (qualityReason = QCpu) in
  let bandwidthLimited := bool_decide (qualityReason = QBandwidth)
    && (bitrateUtilization <? DEFAULT_NETWORK_CONGESTED_UTILIZATION)%num in
  let reason := classifyReason bandwidthLimited cpuLimited lossEwma rttEwma reasonContext in
  {| sg_packetsSentDelta := packetsSentDelta;
     sg_packetsLostDelta := packetsLostDelta;
     sg_retransmittedPacketsSentDelta := retransmittedPacketsSentDelta;
     sg_sendBitrateBps := sendBitrateBps;
     sg_targetBitrateBps := targetBitrateBps;
     sg_bitrateUtilization := bitrateUtilization;
     sg_lossRate := lossRate;
     sg_lossEwma := lossEwma;
     sg_rttMs := rttMs;
     sg_rttEwma := rttEwma;
     sg_jitterMs := jitterMs;
     sg_jitterEwma := jitterEwma;
     sg_cpuLimited := cpuLimited;
     sg_bandwidthLimited := bandwidthLimited;
     sg_reason := reason |}.

(** ** The invariant of derived signals *)

Definition unit_range (x : num) : Prop := num_le num0 x ∧ num_le x num1.

Record wf_signals (s : DerivedQosSignals) : Prop := {
  wfs_packetsSentDelta : nonneg (sg_packetsSentDelta s);
  wfs_packetsLostDelta : nonneg (sg_packetsLostDelta s);
  wfs_retransmitted : nonneg (sg_retransmittedPacketsSentDelta s);
  wfs_sendBitrate : nonneg (sg_sendBitrateBps s);
  wfs_targetBitrate : nonneg (sg_targetBitrateBps s);
  wfs_utilization : nonneg (sg_bitrateUtilization s);
  wfs_lossRate : unit_range (sg_lossRate s);
  wfs_lossEwma : unit_range (sg_lossEwma s);
  wfs_rttMs : nonneg (sg_rttMs s);
  wfs_rttEwma : nonneg (sg_rttEwma s);
  wfs_jitterMs : nonneg (sg_jitterMs s);
  wfs_jitterEwma : nonneg (sg_jitterEwma s);
}.

(** ** Lemmas *)

Lemma asFiniteOrZero_fin v : ∃ q, asFiniteOrZero v = Fin q.
Proof. destruct v as [[| | |q]|]; simpl; eauto. Qed.

Lemma asFiniteOrZero_nonneg v : (∀ n, v = Some n → nonneg n) → nonneg (asFiniteOrZero v).
Proof. destruct v as [[| | |q]|]; simpl; intros H; try done; by apply H. Qed.

Lemma max0_finite v : ∃ q, math_max num0 (asFiniteOrZero v) = Fin q ∧ (0 <= q)%Q.
Proof.
  destruct (asFiniteOrZero_fin v) as [q ->].
  destruct (math_max_fin 0 q) as (c & Hc & H0 & _). exists c. by split.
Qed.

Lemma unit_range_0 : unit_range num0.
Proof. by split. Qed.
Lemma unit_range_1 : unit_range num1.
Proof. by split. Qed.
#[export] Hint Resolve unit_range_0 unit_range_1 : qos.

Lemma clampToUnitRange_range x : is_nan x = false → unit_range (clampToUnitRange x).
Proof.
  intros Hx. unfold clampToUnitRange.
  destruct (x <? num0)%num eqn:E0; [apply unit_range_0|].
  destruct (num1 <? x)%num eqn:E1; [apply unit_range_1|].
  split; unfold num_le; rewrite num_leb_negb_ltb by done; by rewrite ?E0, ?E1.
Qed.

Lemma unit_range_fin x : unit_range x → ∃ q, x = Fin q ∧ (0 <= q <= 1)%Q.
Proof.
  intros [H0 H1]. destruct x as [| | |q]; try done. exists q.
  unfold num0, num1 in *. rewrite num_le_fin in *. done.
Qed.

Lemma computeCounterDelta_nonneg c p : nonneg (computeCounterDelta c p).
Proof.
  unfold computeCounterDelta.
  destruct (asFiniteOrZero_fin c) as [a ->], (asFiniteOrZero_fin p) as [b ->].
  destruct (_ <=? _)%num eqn:E; [done|].
  apply num_sub_nonneg. simpl in E. apply Qle_bool_false in E. lra.
Qed.

Lemma mul_pos_nonneg x k : nonneg x → (0 < k)%Q → nonneg (x * Fin k)%num.
Proof.
  intros Hx Hk. destruct x as [| | |a]; try done; simpl.
  - unfold inf_sign. destruct (Qeq_bool k 0) eqn:E; [apply Qeq_bool_iff in E; lra|].
    assert (Qle_bool 0 k = true) as -> by (apply Qle_bool_iff; lra). done.
  - apply nonneg_fin in Hx. apply rnd_nonneg, Qmult_le_0_compat; lra.
Qed.

(** A usable timestamp: a double that is not negative. *)
Definition wf_timestamp (x : num) : bool := is_double x && negb (x <? num0)%num.

Lemma wf_timestamp_fin x :
  wf_timestamp x = true → ∃ q, asFiniteOrZero (Some x) = Fin q ∧ is_double (Fin q) = true ∧ (0 <= q)%Q.
Proof.
  unfold wf_timestamp. intros H. bool_hyps. destruct x as [| | |q]; simpl.
  1-3: exists 0%Q; done.
  exists q. split_and!; [done|done|]. simpl in *. by apply negb_false_iff, Qle_bool_iff in H0.
Qed.

Lemma computeBitrateBps_nonneg c p tc tp :
  wf_timestamp tc = true → (∀ t, tp = Some t → wf_timestamp t = true) →
  nonneg (computeBitrateBps c p (asFiniteOrZero (Some tc)) tp).
Proof.
  intros Htc Htp. unfold computeBitrateBps.
  pose proof (computeCounterDelta_nonneg c p) as Hd. set (d := computeCounterDelta c p) in *.
  destruct (wf_timestamp_fin tc Htc) as (a & -> & Hda & Ha).
  assert (∃ b, asFiniteOrZero tp = Fin b ∧ is_double (Fin b) = true ∧ (0 <= b)%Q)
    as (b & -> & Hdb & Hb).
  { destruct tp as [t|]; [apply wf_timestamp_fin; auto|]. exists 0%Q. done. }
  cbn [is_finite negb orb]. destruct (Fin a <=? Fin b)%num eqn:E1; [done|].
  destruct (d <=? num0)%num eqn:E2; [done|]. cbn [orb].
  simpl in E1. apply Qle_bool_false in E1.
  pose proof (double_sub_pos a b Hda Hdb E1) as Hpos. rewrite num_sub_fin in *.
  destruct (double_rnd_id a Hda) as (r & Hr & _).
  assert (num_le (rnd (a - b)) (Fin r)) as Hle by (rewrite <- Hr; apply rnd_mono; lra).
  destruct (rnd (a - b)) as [| | |m]; try done.
  apply num_div_nonneg.
  - repeat apply mul_pos_nonneg; try done.
  - unfold num0 in Hpos; simpl in Hpos. by apply negb_true_iff, Qle_bool_false in Hpos.
Qed.

Lemma computeLossRate_range s l : unit_range (computeLossRate s l).
Proof.
  unfold computeLossRate.
  destruct (max0_finite s) as (a & -> & Ha), (max0_finite l) as (b & -> & Hb).
  cbn [num_add]. assert (nonneg (rnd (a + b))) as Hn by (apply rnd_nonneg; lra).
  destruct (rnd (a + b)) as [| | |t]; try done.
  destruct (Fin t <=? num0)%num eqn:E; [apply unit_range_0|].
  apply clampToUnitRange_range. unfold num0 in E; simpl in E. apply Qle_bool_false in E.
  assert (nonneg (Fin b / Fin t)%num) as Hd by (apply num_div_nonneg; [by apply nonneg_fin|done]).
  by apply num_le_not_nan in Hd as [_ ?].
Qed.

Lemma computeBitrateUtilization_nonneg s t c : nonneg (computeBitrateUtilization s t c).
Proof.
  unfold computeBitrateUtilization.
  destruct (max0_finite s) as (a & -> & Ha), (max0_finite t) as (b & -> & Hb),
    (max0_finite c) as (k & -> & Hk).
  set (den := if (num0 <? Fin b)%num then Fin b else Fin k).
  assert (∃ d, den = Fin d) as (d & Hd) by (subst den; destruct (_ <? _)%num; eauto).
  rewrite Hd. destruct (Fin d <=? num0)%num eqn:E.
  - by destruct (num0 <? Fin a)%num.
  - unfold num0 in E; simpl in E. apply Qle_bool_false in E.
    apply num_div_nonneg; [by apply nonneg_fin | done].
Qed.

(** The complement of a factor strictly between 0 and 1. *)
Lemma one_minus_unit a : (0 <= a <= 1)%Q → unit_range (num1 - Fin a)%num.
Proof.
  intros Ha. unfold num1. rewrite num_sub_fin. split.
  - apply rnd_nonneg. lra.
  - change num1 with (rnd 1). apply rnd_mono. lra.
Qed.

Lemma safe_alpha_fin alpha : ∃ q, clampToUnitRange (asFiniteOrZero (Some alpha)) = Fin q ∧ (0 <= q <= 1)%Q.
Proof.
  apply unit_range_fin, clampToUnitRange_range.
  by destruct (asFiniteOrZero_fin (Some alpha)) as [q ->].
Qed.

Lemma computeEwma_nonneg c p alpha :
  (∀ n, c = Some n → nonneg n) → (∀ n, p = Some n → nonneg n) → nonneg (computeEwma c p alpha).
Proof.
  intros Hc Hp. unfold computeEwma.
  apply asFiniteOrZero_nonneg in Hc, Hp.
  destruct (safe_alpha_fin (match alpha with Some a => a | None => DEFAULT_EWMA_ALPHA end))
    as (a & -> & Ha).
  destruct (_ <=? num0)%num; [done|]. destruct (num1 <=? _)%num; [done|].
  destruct (asFiniteOrUndefined p); [|done].
  destruct (asFiniteOrZero_fin c) as [x Hx], (asFiniteOrZero_fin p) as [y Hy].
  rewrite Hx, Hy in *. apply nonneg_fin in Hc, Hp.
  destruct (unit_range_fin _ (one_minus_unit a Ha)) as (b & -> & Hb).
  apply num_add_nonneg; apply num_mul_nonneg; lra.
Qed.

(** The default factor [a] and its complement [b] are doubles whose rounded sum
    is at most 1. *)
Lemma default_alpha_facts : ∃ a b,
  DEFAULT_EWMA_ALPHA = Fin a ∧ clampToUnitRange (asFiniteOrZero (Some (Fin a))) = Fin a ∧
  (Fin a <=? num0)%num = false ∧ (num1 <=? Fin a)%num = false ∧ (num1 - Fin a)%num = Fin b ∧
  (0 <= a)%Q ∧ (0 <= b)%Q ∧ num_le (rnd (a * 1)) (Fin a) ∧ num_le (rnd (b * 1)) (Fin b) ∧
  num_le (Fin a + Fin b)%num num1.
Proof.
  eexists _, _. split; [vm_compute; reflexivity|].
  repeat (split; [vm_compute; first [reflexivity | discriminate]|]). vm_compute; reflexivity.
Qed.

(** A product with a ratio is at most the other factor. *)
Lemma scaled_ratio f v : (0 <= f)%Q → (0 <= v <= 1)%Q → num_le (rnd (f * 1)) (Fin f) →
  ∃ r, (Fin f * Fin v)%num = Fin r ∧ (r <= f)%Q.
Proof.
  intros Hf Hv Hf1.
  assert (num_le (Fin f * Fin v)%num (Fin f)) as Hle.
  { eapply num_le_trans; [apply (num_mul_mono_l f v 1); lra | exact Hf1]. }
  assert (nonneg (Fin f * Fin v)%num) as Hnn by (apply num_mul_nonneg; lra).
  destruct (Fin f * Fin v)%num as [| | |r]; [discriminate|discriminate|discriminate|].
  exists r. split; [reflexivity|]. by apply num_le_fin in Hle.
Qed.

(** With the default factor the average of two ratios is a ratio: rounding never
    pushes it above 1. *)
Lemma computeEwma_unit c p :
  unit_range c → (∀ n, p = Some n → unit_range n) → unit_range (computeEwma (Some c) p None).
Proof.
  intros Hc Hp. split.
  { apply computeEwma_nonneg; [intros n [= <-]; apply Hc | intros n Hn; by apply Hp]. }
  destruct (unit_range_fin c Hc) as (x & -> & Hx). unfold computeEwma.
  destruct default_alpha_facts as (a & b & Ea & Hcl & E0 & E1 & Eb & Ha & Hb & Ha1 & Hb1 & Hab).
  cbv zeta. rewrite Ea, Hcl, E0, E1, Eb. clear Ea Hcl E0 E1 Eb.
  destruct p as [p|]; [|cbn; apply num_le_fin; apply Hx].
  destruct (unit_range_fin p (Hp p eq_refl)) as (y & -> & Hy).
  cbn [asFiniteOrUndefined asFiniteOrZero is_finite].
  destruct (scaled_ratio a x Ha Hx Ha1) as (r1 & -> & H1), (scaled_ratio b y Hb Hy Hb1) as (r2 & -> & H2).
  eapply num_le_trans; [by apply num_add_mono | exact Hab].
Qed.

Lemma metric_or_previous_nonneg c p : nonneg (metric_or_previous (asFiniteOrUndefined c) p).
Proof.
  unfold metric_or_previous. destruct c as [[| | |q]|]; cbn [asFiniteOrUndefined is_finite];
    try (destruct (max0_finite p) as (x & -> & Hx); by apply nonneg_fin).
  by apply math_max_0_nonneg.
Qed.

Lemma ewma_or_previous_nonneg c v p alpha :
  nonneg v → (∀ n, p = Some n → nonneg n) → nonneg (ewma_or_previous c v p alpha).
Proof.
  intros Hv Hp. destruct c; simpl; [|by apply asFiniteOrZero_nonneg].
  apply computeEwma_nonneg; [by intros ? [= <-] | done].
Qed.

(** ** Claims *)

Lemma deriveSignals_invariant current previous prevSignals ctx :
  wf_timestamp (rs_timestampMs current) = true →
  (∀ p, previous = Some p → wf_timestamp (rs_timestampMs p) = true) →
  (∀ s, prevSignals = Some s → wf_signals s) →
  wf_signals (deriveSignals current previous prevSignals None ctx).
Proof.
  intros Hc Hp Hs. assert (∀ f n, (∀ s, wf_signals s → nonneg (f s)) →
    f <$> prevSignals = Some n → nonneg n) as Hprev.
  { intros f n Hf Hn. destruct prevSignals as [s|]; simplify_eq/=. auto. }
  constructor; cbn [deriveSignals sg_packetsSentDelta sg_packetsLostDelta
    sg_retransmittedPacketsSentDelta sg_sendBitrateBps sg_targetBitrateBps
    sg_bitrateUtilization sg_lossRate sg_lossEwma sg_rttMs sg_rttEwma sg_jitterMs sg_jitterEwma].
  - apply computeCounterDelta_nonneg.
  - apply computeCounterDelta_nonneg.
  - apply computeCounterDelta_nonneg.
  - apply computeBitrateBps_nonneg; [done|]. intros t Ht.
    destruct previous as [p|]; simplify_eq/=. auto.
  - destruct (max0_finite (rs_targetBitrateBps current)) as (q & -> & Hq). by apply nonneg_fin.
  - apply computeBitrateUtilization_nonneg.
  - apply computeLossRate_range.
  - apply computeEwma_unit; [apply computeLossRate_range|].
    intros n Hn. destruct prevSignals as [s|]; simplify_eq/=. apply wfs_lossEwma. auto.
  - apply metric_or_previous_nonneg.
  - apply ewma_or_previous_nonneg; [apply metric_or_previous_nonneg|].
    intros n. by apply Hprev, wfs_rttEwma.
  - apply metric_or_previous_nonneg.
  - apply ewma_or_previous_nonneg; [apply metric_or_previous_nonneg|].
    intros n. by apply Hprev, wfs_jitterEwma.
Qed.

(** C2: for every browser report with usable timestamps, whatever its counters
    hold (absent, NaN, infinite, decreasing), the derived signals are
    non-negative numbers, never NaN, and the loss rate and its moving average
    lie in [0, 1]; the previous signals only have to satisfy the same
    invariant, so it holds along every run of the controller. *)
Theorem deriveSignals_wf current previous prevSignals ctx :
  wf_timestamp (rs_timestampMs current) = true →
  (∀ p, previous = Some p → wf_timestamp (rs_timestampMs p) = true) →
  (∀ s, prevSignals = Some s → wf_signals s) →
  wf_signals (deriveSignals current previous prevSignals None ctx).
Proof. apply deriveSignals_invariant. Qed.

(** A camera report with a few hostile fields, used by the witnesses. *)
Definition sample_snapshot (ts bytes : Z) (rtt : option num) : RawSenderSnapshot := {|
  rs_timestampMs := num_of_Z ts;
  rs_trackId := Some "camera-main"; rs_producerId := Some "p1";
  rs_source := Camera; rs_kind := KVideo;
  rs_bytesSent := Some (num_of_Z bytes);
  rs_packetsSent := Some (num_of_Z 100); rs_packetsLost := Some NaN;
  rs_retransmittedPacketsSent := None;
  rs_targetBitrateBps := Some PInf; rs_configuredBitrateBps := Some (num_of_Z 900000);
  rs_roundTripTimeMs := rtt; rs_jitterMs := Some NInf;
  rs_frameWidth := None; rs_frameHeight := None; rs_framesPerSecond := None;
  rs_qualityLimitationReason := Some QNone; rs_qualityLimitationDurationsSec := None |}%string.

Lemma deriveSignals_wf_witness :
  wf_timestamp (num_of_Z 2000) = true ∧
  wf_signals (deriveSignals (sample_snapshot 2000 50000 (Some (num_of_Z 40)))
    (Some (sample_snapshot 1000 1000 None)) None None empty_reason_context).
Proof.
  split; [vm_compute; reflexivity|].
  apply (deriveSignals_wf (sample_snapshot 2000 50000 (Some (num_of_Z 40)))
           (Some (sample_snapshot 1000 1000 None)) None empty_reason_context).
  - vm_compute; reflexivity.
  - intros p [= <-]. vm_compute; reflexivity.
  - discriminate.
Defined.

(** A sample without a round-trip time (or with a non-finite one) leaves the
    smoothed round-trip time where it was, so a missing report is never read as
    a zero round-trip time; with one, the raw value is recorded exactly. *)
Theorem deriveSignals_missing_rtt current previous s alpha ctx :
  asFiniteOrUndefined (rs_roundTripTimeMs current) = None →
  is_finite (sg_rttEwma s) = true → wf_signals s → is_finite (sg_rttMs s) = true →
  let d := deriveSignals current previous (Some s) alpha ctx in
  sg_rttEwma d = sg_rttEwma s ∧ num_eqb (sg_rttMs d) (sg_rttMs s) = true.
Proof.
  intros Hn Hf Hs Hr. simpl. rewrite Hn. simpl. rewrite Hf, Hr. split; [done|].
  apply wfs_rttMs in Hs. destruct (sg_rttMs s) as [| | |q]; try done.
  apply nonneg_fin in Hs. unfold math_max, num0. simpl.
  destruct (Qle_bool q 0) eqn:E; simpl.
  - apply Qle_bool_iff in E. apply Qeq_bool_iff. lra.
  - apply Qeq_bool_iff. lra.
Qed.

Lemma deriveSignals_missing_rtt_witness :
  let s := deriveSignals (sample_snapshot 1000 1000 (Some (num_of_Z 40))) None None None empty_reason_context in
  sg_rttEwma (deriveSignals (sample_snapshot 2000 50000 (Some NaN))
    (Some (sample_snapshot 1000 1000 None)) (Some s) None empty_reason_context) = sg_rttEwma s.
Proof.
  intros s.
  refine (proj1 (deriveSignals_missing_rtt (sample_snapshot 2000 50000 (Some NaN))
            (Some (sample_snapshot 1000 1000 None)) s None empty_reason_context _ _ _ _)).
  - reflexivity.
  - vm_compute; reflexivity.
  - constructor; vm_compute; first [reflexivity | split; reflexivity].
  - vm_compute; reflexivity.
Defined.
