(* ===== verification/StateMachine.v ===== *)
(** * The QoS state machine (src/client/lib/qos/stateMachine.js)

    One evaluation classifies the signals (healthy, recovery-healthy, fast
    recovery, warning, congested), advances five consecutive-sample counters and
    moves between stable, early_warning, congested and recovering.  The theorems
    give the legal edges and the history each one needs, relate the counters to
    the sample history, and bound how fast the machine reacts and recovers. *)

From Stdlib Require Import QArith.
From S2P Require Import Prelude JsNum JsVal QosTypes Profiles.
Local Open Scope Z_scope.

Record QosStateMachineContext := {
  sm_state : QosState;
  sm_enteredAtMs : Z;
  sm_lastCongestedAtMs : option Z;
  sm_lastRecoveryAtMs : option Z;
  sm_consecutiveHealthySamples : Z;
  sm_consecutiveRecoverySamples : Z;
  sm_consecutiveFastRecoverySamples : Z;
  sm_consecutiveWarningSamples : Z;
  sm_consecutiveCongestedSamples : Z;
}.

(** ** Classification *)

(** [Number.isFinite(x) ? x : fallback]. *)
Definition finite_or (x : option num) (fallback : num) : num :=
  match finite_opt x with Some n => n | None => fallback end.

Definition isWarning (signals : DerivedQosSignals) (profile : QosProfile) : bool :=
  let thresholds := pf_thresholds profile in
  let warnJitterMs := finite_or (th_warnJitterMs thresholds) PInf in
  (sg_lossEwma signals >=? th_warnLossRate thresholds)%num
  || (sg_rttEwma signals >=? th_warnRttMs thresholds)%num
  || (sg_jitterEwma signals >=? warnJitterMs)%num
  || sg_bandwidthLimited signals
  || sg_cpuLimited signals.

Definition isCongested (signals : DerivedQosSignals) (profile : QosProfile) : bool :=
  let thresholds := pf_thresholds profile in
  let congestedJitterMs := finite_or (th_congestedJitterMs thresholds) PInf in
  sg_bandwidthLimited signals
  || (sg_lossEwma signals >=? th_congestedLossRate thresholds)%num
  || (sg_rttEwma signals >=? th_congestedRttMs thresholds)%num
  || (sg_jitterEwma signals >=? congestedJitterMs)%num.

Definition isHealthy (signals : DerivedQosSignals) (profile : QosProfile) : bool :=
  let thresholds := pf_thresholds profile in
  let stableJitterMs := finite_or (th_stableJitterMs thresholds) PInf in
  (sg_lossEwma signals <? th_stableLossRate thresholds)%num
  && (sg_rttEwma signals <? th_stableRttMs thresholds)%num
  && (sg_jitterEwma signals <? stableJitterMs)%num
  && negb (sg_bandwidthLimited signals)
  && negb (sg_cpuLimited signals).

(** The wider jitter gate of the recovery checks. *)
Definition recovery_jitter_gate (thresholds : QosThresholds) : num :=
  let stableJitterMs := finite_or (th_stableJitterMs thresholds) PInf in
  let warnJitterMs := finite_or (th_warnJitterMs thresholds) stableJitterMs in
  math_max stableJitterMs warnJitterMs.

Definition isRecoveryHealthy (signals : DerivedQosSignals) (profile : QosProfile) : bool :=
  let thresholds := pf_thresholds profile in
  let recoveryJitterMs := recovery_jitter_gate thresholds in
  (sg_lossEwma signals <? th_stableLossRate thresholds)%num
  && (sg_rttEwma signals <? th_stableRttMs thresholds)%num
  && (sg_jitterEwma signals <? recoveryJitterMs)%num
  && negb (sg_bandwidthLimited signals)
  && negb (sg_cpuLimited signals).

Definition isFastRecoveryHealthy (signals : DerivedQosSignals) (profile : QosProfile) : bool :=
  let thresholds := pf_thresholds profile in
  let recoveryJitterMs := recovery_jitter_gate thresholds in
  let rawJitterMs :=
    if is_finite (sg_jitterMs signals) then math_max num0 (sg_jitterMs signals) else PInf in
  let targetBitrateBps := math_max num0 (sg_targetBitrateBps signals) in
  let sendReady := (targetBitrateBps <=? num0)%num
    || (sg_sendBitrateBps signals >=? targetBitrateBps * lit (85#100))%num in
  (sg_lossEwma signals <? th_stableLossRate thresholds)%num
  && (sg_rttEwma signals <? th_stableRttMs thresholds)%num
  && (rawJitterMs <? recoveryJitterMs)%num
  && sendReady
  && negb (sg_bandwidthLimited signals)
  && negb (sg_cpuLimited signals).

Definition nextCounter (current : Z) (matched : bool) : Z :=
  if matched then current + 1 else 0.

Definition createInitialQosStateMachineContext (nowMs : Z) : QosStateMachineContext := {|
  sm_state := Stable;
  sm_enteredAtMs := nowMs;
  sm_lastCongestedAtMs := None;
  sm_lastRecoveryAtMs := None;
  sm_consecutiveHealthySamples := 0;
  sm_consecutiveRecoverySamples := 0;
  sm_consecutiveFastRecoverySamples := 0;
  sm_consecutiveWarningSamples := 0;
  sm_consecutiveCongestedSamples := 0;
|}.

Definition mapStateToQuality (state : QosState) (signals : DerivedQosSignals) : QosQuality :=
  match state with
  | Congested => if (sg_sendBitrateBps signals <=? num0)%num then Lost else Poor
  | Stable => Excellent
  | EarlyWarning => Good
  | Recovering => Good
  end.

(** ** Transition *)

(** The counters of the next context; the state is still the old one. *)
Definition count_samples (context : QosStateMachineContext) (signals : DerivedQosSignals)
    (profile : QosProfile) : QosStateMachineContext :=
  let healthy := isHealthy signals profile in
  let recoveryHealthy := isRecoveryHealthy signals profile in
  let fastRecoveryHealthy := negb recoveryHealthy && isFastRecoveryHealthy signals profile in
  let warning := isWarning signals profile in
  let congested := isCongested signals profile in
  {| sm_state := sm_state context;
     sm_enteredAtMs := sm_enteredAtMs context;
     sm_lastCongestedAtMs := sm_lastCongestedAtMs context;
     sm_lastRecoveryAtMs := sm_lastRecoveryAtMs context;
     sm_consecutiveHealthySamples := nextCounter (sm_consecutiveHealthySamples context) healthy;
     sm_consecutiveRecoverySamples := nextCounter (sm_consecutiveRecoverySamples context) recoveryHealthy;
     sm_consecutiveFastRecoverySamples :=
       nextCounter (sm_consecutiveFastRecoverySamples context) fastRecoveryHealthy;
     sm_consecutiveWarningSamples := nextCounter (sm_consecutiveWarningSamples context) warning;
     sm_consecutiveCongestedSamples := nextCounter (sm_consecutiveCongestedSamples context) congested |}.

(** The [switch (context.state)] on the new counters. *)
Definition next_state (context nextContext : QosStateMachineContext) (profile : QosProfile) (nowMs : Z)
    : QosState :=
  match sm_state context with
  | Stable =>
      if 2 <=? sm_consecutiveWarningSamples nextContext then EarlyWarning else Stable
  | EarlyWarning =>
      if 2 <=? sm_consecutiveCongestedSamples nextContext then Congested
      else if 3 <=? sm_consecutiveHealthySamples nextContext then Stable
      else EarlyWarning
  | Congested =>
      let congestedSinceMs := default (sm_enteredAtMs context) (sm_lastCongestedAtMs context) in
      let cooldownElapsed := pf_recoveryCooldownMs profile <=? nowMs - congestedSinceMs in
      let regularRecoveryReady := 5 <=? sm_consecutiveRecoverySamples nextContext in
      let fastRecoveryReady := 2 <=? sm_consecutiveFastRecoverySamples nextContext in
      if cooldownElapsed && (regularRecoveryReady || fastRecoveryReady) then Recovering else Congested
  | Recovering =>
      if 2 <=? sm_consecutiveCongestedSamples nextContext then Congested
      else if 5 <=? sm_consecutiveHealthySamples nextContext then Stable
      else Recovering
  end.

(** Enters [s] at [nowMs]. *)
Definition enter_state (c : QosStateMachineContext) (s : QosState) (nowMs : Z) : QosStateMachineContext := {|
  sm_state := s;
  sm_enteredAtMs := nowMs;
  sm_lastCongestedAtMs := if decide (s = Congested) then Some nowMs else sm_lastCongestedAtMs c;
  sm_lastRecoveryAtMs := if decide (s = Recovering) then Some nowMs else sm_lastRecoveryAtMs c;
  sm_consecutiveHealthySamples := sm_consecutiveHealthySamples c;
  sm_consecutiveRecoverySamples := sm_consecutiveRecoverySamples c;
  sm_consecutiveFastRecoverySamples := sm_consecutiveFastRecoverySamples c;
  sm_consecutiveWarningSamples := sm_consecutiveWarningSamples c;
  sm_consecutiveCongestedSamples := sm_consecutiveCongestedSamples c;
|}.

Record QosStateTransitionResult := {
  tr_context : QosStateMachineContext;
  tr_quality : QosQuality;
  tr_transitioned : bool;
}.

Definition evaluateStateTransition (context : QosStateMachineContext) (signals : DerivedQosSignals)
    (profile : QosProfile) (nowMs : Z) : QosStateTransitionResult :=
  let counted := count_samples context signals profile in
  let nextState := next_state context counted profile nowMs in
  let transitioned := negb (bool_decide (nextState = sm_state context)) in
  let nextContext := if transitioned then enter_state counted nextState nowMs else counted in
  {| tr_context := nextContext;
     tr_quality := mapStateToQuality (sm_state nextContext) signals;
     tr_transitioned := transitioned |}.

(** ** Histories *)

(** A history is the list of samples with their times, the oldest first. *)
Abbreviation history := (list (DerivedQosSignals * Z)).

Definition sm_step (profile : QosProfile) (c : QosStateMachineContext) (x : DerivedQosSignals * Z)
    : QosStateMachineContext :=
  tr_context (evaluateStateTransition c x.1 profile x.2).

Definition sm_run (profile : QosProfile) (c : QosStateMachineContext) (h : history)
    : QosStateMachineContext := foldl (sm_step profile) c h.

(** The number of samples at the end of the history that satisfy [p]. *)
Definition trailing (p : DerivedQosSignals → bool) (h : history) : Z :=
  foldl (λ n x, nextCounter n (p x.1)) 0 h.

Definition fast_only (profile : QosProfile) (s : DerivedQosSignals) : bool :=
  negb (isRecoveryHealthy s profile) && isFastRecoveryHealthy s profile.

(** ** Lemmas *)

Lemma evaluate_counted c s p t :
  let c' := sm_step p c (s, t) in
  sm_consecutiveHealthySamples c' = nextCounter (sm_consecutiveHealthySamples c) (isHealthy s p) ∧
  sm_consecutiveRecoverySamples c' = nextCounter (sm_consecutiveRecoverySamples c) (isRecoveryHealthy s p) ∧
  sm_consecutiveFastRecoverySamples c' = nextCounter (sm_consecutiveFastRecoverySamples c) (fast_only p s) ∧
  sm_consecutiveWarningSamples c' = nextCounter (sm_consecutiveWarningSamples c) (isWarning s p) ∧
  sm_consecutiveCongestedSamples c' = nextCounter (sm_consecutiveCongestedSamples c) (isCongested s p).
Proof. unfold sm_step, evaluateStateTransition; simpl. by destruct (negb _). Qed.

Lemma evaluate_state c s p t :
  sm_state (sm_step p c (s, t)) = next_state c (count_samples c s p) p t.
Proof.
  unfold sm_step, evaluateStateTransition; simpl.
  case_bool_decide as E; simpl; [by rewrite E | done].
Qed.

Lemma evaluate_transitioned c s p t :
  tr_transitioned (evaluateStateTransition c s p t) = true ↔
  sm_state (tr_context (evaluateStateTransition c s p t)) ≠ sm_state c.
Proof.
  unfold evaluateStateTransition; simpl. case_bool_decide as E; simpl; [done|].
  split; [intros _; exact E | done].
Qed.

Lemma nextCounter_nonneg n b : 0 <= n → 0 <= nextCounter n b.
Proof. unfold nextCounter. destruct b; lia. Qed.

Lemma trailing_snoc p h x : trailing p (h ++ [x]) = nextCounter (trailing p h) (p x.1).
Proof. unfold trailing. by rewrite foldl_app. Qed.

Lemma trailing_nonneg p h : 0 <= trailing p h.
Proof.
  induction h using rev_ind; [done|]. rewrite trailing_snoc. by apply nextCounter_nonneg.
Qed.

Lemma sm_run_snoc p c h x : sm_run p c (h ++ [x]) = sm_step p (sm_run p c h) x.
Proof. unfold sm_run. by rewrite foldl_app. Qed.

Lemma sm_run_app p c h1 h2 : sm_run p c (h1 ++ h2) = sm_run p (sm_run p c h1) h2.
Proof. unfold sm_run. by rewrite foldl_app. Qed.

(** The counters of a run are the trailing counts of its history. *)
Lemma run_counters p t0 h :
  let c := sm_run p (createInitialQosStateMachineContext t0) h in
  sm_consecutiveHealthySamples c = trailing (λ s, isHealthy s p) h ∧
  sm_consecutiveRecoverySamples c = trailing (λ s, isRecoveryHealthy s p) h ∧
  sm_consecutiveFastRecoverySamples c = trailing (fast_only p) h ∧
  sm_consecutiveWarningSamples c = trailing (λ s, isWarning s p) h ∧
  sm_consecutiveCongestedSamples c = trailing (λ s, isCongested s p) h.
Proof.
  induction h as [|[s t] h IH] using rev_ind; simpl; [done|].
  rewrite sm_run_snoc, !trailing_snoc; simpl.
  destruct IH as (H1 & H2 & H3 & H4 & H5).
  destruct (evaluate_counted (sm_run p (createInitialQosStateMachineContext t0) h) s p t)
    as (-> & -> & -> & -> & ->).
  by rewrite H1, H2, H3, H4, H5.
Qed.

(** Congestion is timestamped: in the congested state the last congestion is the
    entry of the state. *)
Definition wf_context (c : QosStateMachineContext) : Prop :=
  (sm_state c = Congested → sm_lastCongestedAtMs c = Some (sm_enteredAtMs c)) ∧
  0 <= sm_consecutiveHealthySamples c ∧ 0 <= sm_consecutiveRecoverySamples c ∧
  0 <= sm_consecutiveFastRecoverySamples c ∧ 0 <= sm_consecutiveWarningSamples c ∧
  0 <= sm_consecutiveCongestedSamples c.

Lemma wf_context_init t : wf_context (createInitialQosStateMachineContext t).
Proof. unfold wf_context; simpl. split; [discriminate | lia]. Qed.

Lemma wf_context_step c s p t : wf_context c → wf_context (sm_step p c (s, t)).
Proof.
  intros (Hc & H1 & H2 & H3 & H4 & H5).
  destruct (evaluate_counted c s p t) as (E1 & E2 & E3 & E4 & E5).
  split; [|rewrite E1, E2, E3, E4, E5; split_and!; by apply nextCounter_nonneg].
  unfold sm_step, evaluateStateTransition; simpl. case_bool_decide as E; simpl; [done|].
  intros ->. by rewrite decide_True.
Qed.

Lemma wf_context_run p c h : wf_context c → wf_context (sm_run p c h).
Proof.
  intros Hc. induction h as [|[s t] h IH] using rev_ind; [done|].
  rewrite sm_run_snoc. by apply wf_context_step.
Qed.
#[export] Hint Resolve wf_context_init wf_context_step wf_context_run : qos.

(** ** The classes of samples *)

Section classes.
Context (p : QosProfile) (Hth : wf_thresholds (pf_thresholds p) = true).

Lemma wf_thresholds_inv :
  num_le (th_stableLossRate (pf_thresholds p)) (th_warnLossRate (pf_thresholds p)) ∧
  num_ltb (th_warnLossRate (pf_thresholds p)) (th_congestedLossRate (pf_thresholds p)) = true ∧
  num_le (th_stableRttMs (pf_thresholds p)) (th_warnRttMs (pf_thresholds p)) ∧
  num_ltb (th_warnRttMs (pf_thresholds p)) (th_congestedRttMs (pf_thresholds p)) = true ∧
  ∃ sj wj cj, th_stableJitterMs (pf_thresholds p) = Some (Fin sj) ∧
    th_warnJitterMs (pf_thresholds p) = Some (Fin wj) ∧
    th_congestedJitterMs (pf_thresholds p) = Some (Fin cj) ∧
    num_le (Fin sj) (Fin wj) ∧ num_ltb (Fin wj) (Fin cj) = true.
Proof using Hth.
  unfold wf_thresholds in Hth. bool_hyps. split_and!; try done.
  unfold le_opt, lt_opt in *.
  destruct (th_stableJitterMs _) as [[]|], (th_warnJitterMs _) as [[]|],
    (th_congestedJitterMs _) as [[]|]; try done. naive_solver.
Qed.

(** A congested sample is a warning sample. *)
Lemma congested_warning s : isCongested s p = true → isWarning s p = true.
Proof using Hth.
  destruct wf_thresholds_inv as (_ & Hl & _ & Hr & sj & wj & cj & _ & Ew & Ec & _ & Hj).
  unfold isCongested, isWarning. rewrite Ew, Ec. unfold finite_or; cbn [finite_opt is_finite].
  apply num_ltb_le in Hl, Hr, Hj.
  rewrite !orb_true_iff. intros [[[?|H]|H]|H]; [tauto|..].
  - do 4 left. by eapply num_le_trans.
  - do 3 left. right. by eapply num_le_trans.
  - do 2 left. right. by eapply num_le_trans.
Qed.

(** A healthy sample is neither a warning nor a congested one, and it is
    recovery-healthy. *)
Lemma healthy_not_warning s : isHealthy s p = true → isWarning s p = false.
Proof using Hth.
  destruct wf_thresholds_inv as (Hl & _ & Hr & _ & sj & wj & cj & Es & Ew & _ & Hj & _).
  unfold isHealthy, isWarning. rewrite Es, Ew. unfold finite_or; cbn [finite_opt is_finite].
  intros H. bool_hyps. rewrite !orb_false_iff.
  split_and!; try done; apply num_ltb_geb_excl; eapply num_lt_le_trans; done.
Qed.

Lemma healthy_not_congested s : isHealthy s p = true → isCongested s p = false.
Proof using Hth.
  intros H. destruct (isCongested s p) eqn:E; [|done].
  apply congested_warning in E. by rewrite healthy_not_warning in E.
Qed.

Lemma healthy_recovery s : isHealthy s p = true → isRecoveryHealthy s p = true.
Proof using Hth.
  destruct wf_thresholds_inv as (_ & _ & _ & _ & sj & wj & cj & Es & Ew & _ & Hj & _).
  unfold isHealthy, isRecoveryHealthy, recovery_jitter_gate. rewrite Es, Ew. unfold finite_or; cbn [finite_opt is_finite].
  intros H. bool_hyps. rewrite !andb_true_iff. split_and!; try done; [|by apply negb_true_iff..].
  eapply num_lt_le_trans; [done|]. unfold math_max.
  destruct (num_ltb (Fin sj) (Fin wj)) eqn:E; [done|]. by apply num_le_refl.
Qed.
End classes.

(** ** Recovery *)

(** What [k] healthy samples in a row establish, starting from the congestion
    recorded at [since]. *)
Definition recovering_for (p : QosProfile) (since : Z) (k : Z) (c : QosStateMachineContext) : Prop :=
  k <= sm_consecutiveHealthySamples c ∧ k <= sm_consecutiveRecoverySamples c ∧
  (0 < k → sm_consecutiveWarningSamples c = 0 ∧ sm_consecutiveCongestedSamples c = 0) ∧
  (sm_state c = Congested ∧ default (sm_enteredAtMs c) (sm_lastCongestedAtMs c) = since ∨
   sm_state c = Recovering ∨ sm_state c = Stable).

Lemma recovering_for_step p since k c s t :
  wf_thresholds (pf_thresholds p) = true → 0 <= k → isHealthy s p = true →
  recovering_for p since k c → recovering_for p since (k + 1) (sm_step p c (s, t)).
Proof.
  intros Hth Hk Hs (H1 & H2 & _ & Hst).
  destruct (evaluate_counted c s p t) as (E1 & E2 & _ & E4 & E5).
  assert (sm_consecutiveWarningSamples (sm_step p c (s, t)) = 0) as Hw
    by (rewrite E4; by rewrite (healthy_not_warning p Hth s Hs)).
  assert (sm_consecutiveCongestedSamples (sm_step p c (s, t)) = 0) as Hg
    by (rewrite E5; by rewrite (healthy_not_congested p Hth s Hs)).
  unfold recovering_for. rewrite Hw, Hg, E1, E2, Hs, (healthy_recovery p Hth s Hs).
  unfold nextCounter. split_and!; try lia.
  rewrite evaluate_state. unfold next_state, count_samples; cbn.
  rewrite Hs, (healthy_not_warning p Hth s Hs), (healthy_not_congested p Hth s Hs); simpl.
  destruct Hst as [[E Hsince]|[E|E]]; rewrite E; [|destruct (_ <=? _); auto|auto].
  destruct (_ && _) eqn:Hgo; [auto|]. left. split; [done|].
  unfold sm_step, evaluateStateTransition, next_state, count_samples; cbn.
  rewrite E. rewrite Hs in *. rewrite (healthy_recovery p Hth s Hs) in *; simpl in *.
  rewrite Hgo. by rewrite bool_decide_true.
Qed.

Lemma recovering_for_run p since c h :
  wf_thresholds (pf_thresholds p) = true → Forall (λ x, isHealthy x.1 p = true) h →
  recovering_for p since 0 c → recovering_for p since (Z.of_nat (length h)) (sm_run p c h).
Proof.
  intros Hth Hh Hc. induction h as [|[s t] h IH] using rev_ind; [done|].
  apply Forall_app in Hh as [Hh Hs]. apply Forall_cons in Hs as [Hs _].
  rewrite sm_run_snoc, length_app, Nat2Z.inj_add. simpl.
  apply recovering_for_step; auto with lia.
Qed.

(** The fifth healthy sample ends congestion once the cooldown is over. *)
Lemma recovering_for_leaves p since k c s t :
  wf_thresholds (pf_thresholds p) = true → 4 <= k → isHealthy s p = true →
  since + pf_recoveryCooldownMs p <= t → recovering_for p since k c →
  sm_state (sm_step p c (s, t)) = Recovering ∨ sm_state (sm_step p c (s, t)) = Stable.
Proof.
  intros Hth Hk Hs Ht (H1 & H2 & _ & Hst).
  rewrite evaluate_state. unfold next_state, count_samples; cbn.
  rewrite Hs, (healthy_recovery p Hth s Hs), (healthy_not_warning p Hth s Hs),
    (healthy_not_congested p Hth s Hs); simpl.
  destruct Hst as [[E Hsince]|[E|E]]; rewrite E; [|destruct (_ <=? _); auto|auto].
  rewrite Hsince. left.
  assert ((pf_recoveryCooldownMs p <=? t - since) = true) as -> by (apply Z.leb_le; lia).
  assert ((5 <=? sm_consecutiveRecoverySamples c + 1) = true) as -> by (apply Z.leb_le; lia).
  done.
Qed.

(** One more healthy sample reaches stable. *)
Lemma recovering_for_stable p since k c s t :
  wf_thresholds (pf_thresholds p) = true → 4 <= k → isHealthy s p = true →
  recovering_for p since k c → sm_state c = Recovering ∨ sm_state c = Stable →
  sm_state (sm_step p c (s, t)) = Stable.
Proof.
  intros Hth Hk Hs (H1 & H2 & _ & _) Hst.
  rewrite evaluate_state. unfold next_state, count_samples; cbn.
  rewrite Hs, (healthy_not_warning p Hth s Hs), (healthy_not_congested p Hth s Hs); simpl.
  destruct Hst as [E|E]; rewrite E; [|done].
  by assert ((5 <=? sm_consecutiveHealthySamples c + 1) = true) as -> by (apply Z.leb_le; lia).
Qed.

Lemma recovering_for_settles p since k c h :
  wf_thresholds (pf_thresholds p) = true → 4 <= k → h ≠ [] →
  Forall (λ x, isHealthy x.1 p = true) h → recovering_for p since k c →
  sm_state c = Recovering ∨ sm_state c = Stable → sm_state (sm_run p c h) = Stable.
Proof.
  intros Hth. revert c k. induction h as [|[s t] h IH]; intros c k Hk Hne Hh Hrec Hleft; [done|].
  apply Forall_cons in Hh as [Hs Hh]. simpl in *.
  pose proof (recovering_for_stable p _ k c s t Hth Hk Hs Hrec Hleft) as Hstable.
  destruct h as [|x h]; [done|].
  apply (IH _ (k + 1)); [lia | done | done | | auto].
  apply recovering_for_step; [done|lia|done|done].
Qed.

(** ** Reaction to congestion *)

Section reaction.
Context (p : QosProfile) (Hth : wf_thresholds (pf_thresholds p) = true).

Lemma stable_next c s t : sm_state c = Stable →
  sm_state (sm_step p c (s, t)) = Stable ∨ sm_state (sm_step p c (s, t)) = EarlyWarning.
Proof using.
  intros E. rewrite evaluate_state. unfold next_state. rewrite E.
  destruct (2 <=? _); auto.
Qed.

(** A congested sample advances both counters. *)
Lemma congested_count c s t : wf_context c → isCongested s p = true →
  let c' := sm_step p c (s, t) in
  1 <= sm_consecutiveCongestedSamples c' ∧ 1 <= sm_consecutiveWarningSamples c' ∧
  (1 <= sm_consecutiveCongestedSamples c → 2 <= sm_consecutiveCongestedSamples c').
Proof using Hth.
  intros (_ & _ & _ & _ & Hw & Hg) G. cbv zeta.
  destruct (evaluate_counted c s p t) as (_ & _ & _ & -> & ->).
  rewrite G, (congested_warning p Hth s G). simpl. lia.
Qed.

Lemma congested_from_warning c s t : wf_context c → isCongested s p = true →
  sm_state c = EarlyWarning →
  sm_state (sm_step p c (s, t)) = Congested ∨ sm_state (sm_step p c (s, t)) = EarlyWarning.
Proof using Hth.
  intros _ G E. rewrite evaluate_state. unfold next_state. rewrite E.
  cbn [count_samples sm_consecutiveCongestedSamples sm_consecutiveHealthySamples].
  destruct (2 <=? _); [by left|]. right.
  destruct (isHealthy s p) eqn:Hh; [|done].
  by rewrite (healthy_not_congested p Hth s Hh) in G.
Qed.

Lemma early_congested c s t : isCongested s p = true → sm_state c = EarlyWarning →
  1 <= sm_consecutiveCongestedSamples c → sm_state (sm_step p c (s, t)) = Congested.
Proof using.
  intros G E Hn. rewrite evaluate_state. unfold next_state. rewrite E.
  cbn [count_samples sm_consecutiveCongestedSamples]. rewrite G. simpl.
  destruct (2 <=? _) eqn:E2; [done|]. zlia.
Qed.

Lemma stable_leaves c s t : wf_context c → isCongested s p = true →
  1 <= sm_consecutiveWarningSamples c → sm_state (sm_step p c (s, t)) ≠ Stable ∨ sm_state c ≠ Stable.
Proof using Hth.
  intros _ G Hw. destruct (decide (sm_state c = Stable)) as [E|]; [left|by right].
  rewrite evaluate_state. unfold next_state. rewrite E.
  cbn [count_samples sm_consecutiveWarningSamples].
  rewrite (congested_warning p Hth s G). simpl. destruct (2 <=? _) eqn:E2; [done|]. zlia.
Qed.
End reaction.

(** ** Claims *)

(** The samples a transition needs at the end of the history [h]. *)
Definition transition_history (p : QosProfile) (c : QosStateMachineContext) (h : history) (t : Z)
    (s' : QosState) : Prop :=
  match sm_state c, s' with
  | Stable, EarlyWarning => 2 <= trailing (λ s, isWarning s p) h
  | EarlyWarning, Congested => 2 <= trailing (λ s, isCongested s p) h
  | EarlyWarning, Stable => 3 <= trailing (λ s, isHealthy s p) h
  | Congested, Recovering =>
      sm_enteredAtMs c + pf_recoveryCooldownMs p <= t ∧
      (5 <= trailing (λ s, isRecoveryHealthy s p) h ∨ 2 <= trailing (fast_only p) h)
  | Recovering, Congested => 2 <= trailing (λ s, isCongested s p) h
  | Recovering, Stable => 5 <= trailing (λ s, isHealthy s p) h
  | _, _ => False
  end.

(** C3: along every run from the initial context, the only state changes are
    stable to early_warning, early_warning to congested or stable, congested to
    recovering, recovering to congested or stable, and each one happens only
    with the history its rule names: two warnings in a row, two congested
    samples in a row, three (five when recovering) healthy ones in a row; from
    congested only when the cooldown since the entry of the congested state has
    passed and the last five samples are recovery-healthy or the last two
    fast-recovery samples. *)
Theorem sm_transition_history p t0 h s t :
  let c := sm_run p (createInitialQosStateMachineContext t0) h in
  let c' := sm_run p (createInitialQosStateMachineContext t0) (h ++ [(s, t)]) in
  sm_state c' ≠ sm_state c → transition_history p c (h ++ [(s, t)]) t (sm_state c').
Proof.
  intros c c'. subst c'. rewrite sm_run_snoc. fold c. intros Hne.
  assert (wf_context c) as (Hwf & _) by eauto with qos.
  destruct (run_counters p t0 h) as (E1 & E2 & E3 & E4 & E5). fold c in E1, E2, E3, E4, E5.
  unfold transition_history. rewrite !trailing_snoc, <- E1, <- E2, <- E3, <- E4, <- E5.
  rewrite evaluate_state in *. unfold next_state in *. cbn [fst] in *.
  destruct (sm_state c) eqn:Es; simpl in *.
  - destruct (2 <=? _) eqn:E; [zlia | done].
  - destruct (2 <=? _) eqn:E; [zlia |]. destruct (3 <=? _) eqn:E'; [zlia | done].
  - rewrite Hwf in * by done. simpl in *.
    destruct (_ && _) eqn:E; [|done]. bool_hyps.
    apply orb_true_iff in H0. fold (fast_only p s) in *. rewrite Z.leb_le in *.
    split; [lia|]. destruct H0; [left|right]; zlia.
  - destruct (2 <=? _) eqn:E; [zlia |]. destruct (5 <=? _) eqn:E'; [zlia | done].
Qed.

Lemma sm_transition_history_witness :
  2 <= trailing (λ s, isWarning s DEFAULT_CAMERA_PROFILE) [(rtt_sample 250, 1000); (rtt_sample 260, 2000)].
Proof.
  exact (sm_transition_history DEFAULT_CAMERA_PROFILE 0 [(rtt_sample 250, 1000)] (rtt_sample 260) 2000
           ltac:(vm_compute; discriminate)).
Defined.

(** Reaction time. With consistent thresholds, consecutive congested samples
    take the machine from early_warning to congested at the first or second of
    them and from stable at the second or third, whatever the counters and the
    sample times are. *)
Theorem sm_congestion_reached p c x1 x2 x3 :
  wf_thresholds (pf_thresholds p) = true → wf_context c →
  Forall (λ x, isCongested x.1 p = true) [x1; x2; x3] →
  (sm_state c = EarlyWarning →
     Congested ∈ [sm_state (sm_run p c [x1]); sm_state (sm_run p c [x1; x2])]) ∧
  (sm_state c = Stable →
     Congested ∈ [sm_state (sm_run p c [x1; x2]); sm_state (sm_run p c [x1; x2; x3])]).
Proof.
  intros Hth Hc Hall. destruct x1 as [s1 t1], x2 as [s2 t2], x3 as [s3 t3].
  rewrite !Forall_cons in Hall; simpl in Hall. destruct Hall as (G1 & G2 & G3 & _).
  pose proof (congested_count p Hth) as Hcnt. pose proof (congested_from_warning p Hth) as Hew.
  assert (wf_context (sm_step p c (s1, t1))) as Hc1 by eauto with qos.
  destruct (Hcnt c s1 t1 Hc G1) as (Hg1 & Hw1 & _).
  destruct (Hcnt _ s2 t2 Hc1 G2) as (Hg2 & Hw2 & _). cbn [sm_run foldl].
  split; intros E.
  - destruct (Hew c s1 t1 Hc G1 E) as [->|E1]; [left|].
    rewrite (early_congested p _ s2 t2 G2 E1 Hg1). right; left.
  - destruct (stable_next p c s1 t1 E) as [E1|E1].
    + assert (sm_state (sm_step p (sm_step p c (s1, t1)) (s2, t2)) = EarlyWarning) as E2.
      { destruct (stable_next p _ s2 t2 E1) as [E2|E2]; [|done].
        destruct (stable_leaves p Hth _ s2 t2 Hc1 G2 Hw1); congruence. }
      rewrite (early_congested p _ s3 t3 G3 E2 Hg2). right; left.
    + rewrite (early_congested p _ s2 t2 G2 E1 Hg1). left.
Qed.

Lemma sm_congestion_reached_witness :
  let x t := (rtt_sample 400, t) in
  let c := createInitialQosStateMachineContext 0 in
  Congested ∈ [sm_state (sm_run DEFAULT_CAMERA_PROFILE c [x 1000; x 2000]);
               sm_state (sm_run DEFAULT_CAMERA_PROFILE c [x 1000; x 2000; x 3000])].
Proof.
  intros x c.
  refine (proj2 (sm_congestion_reached DEFAULT_CAMERA_PROFILE c (x 1000) (x 2000) (x 3000) _ _ _) _).
  - vm_compute; reflexivity.
  - apply wf_context_init.
  - repeat constructor; vm_compute; reflexivity.
  - reflexivity.
Defined.

(** C20: recovery. With consistent thresholds and from a congested context whose
    counters are consistent, six or more healthy samples in a row, of which the fifth comes no earlier than the cooldown after the
    congestion, end in the stable state: the machine cannot get stuck in
    congested or recovering on a healthy network. *)
Theorem sm_recovers p c h1 s5 t5 h2 :
  wf_thresholds (pf_thresholds p) = true → wf_context c → sm_state c = Congested →
  length h1 = 4%nat → h2 ≠ [] →
  Forall (λ x, isHealthy x.1 p = true) (h1 ++ [(s5, t5)] ++ h2) →
  sm_enteredAtMs c + pf_recoveryCooldownMs p <= t5 →
  sm_state (sm_run p c (h1 ++ [(s5, t5)] ++ h2)) = Stable.
Proof.
  intros Hth Hc Hst Hlen Hne Hall Ht5.
  apply Forall_app in Hall as [Hh1 Hall]. apply Forall_app in Hall as [Hh5 Hh2].
  apply Forall_cons in Hh5 as [Hh5 _]. simpl in Hh5.
  destruct Hc as (Hcong & Hc1 & Hc2 & _). specialize (Hcong Hst).
  assert (recovering_for p (sm_enteredAtMs c) 0 c) as H0.
  { split_and!; [lia..|]. left. by rewrite Hcong. }
  apply (recovering_for_run _ _ _ _ Hth Hh1) in H0. rewrite Hlen in H0.
  rewrite !sm_run_app. set (c4 := sm_run p c h1) in *. simpl.
  assert (recovering_for p (sm_enteredAtMs c) 5 (sm_step p c4 (s5, t5))) as H5
    by by apply (recovering_for_step p _ 4).
  assert (sm_state (sm_step p c4 (s5, t5)) = Recovering ∨ sm_state (sm_step p c4 (s5, t5)) = Stable)
    as Hleft by by apply (recovering_for_leaves p (sm_enteredAtMs c) 4).
  by apply (recovering_for_settles p (sm_enteredAtMs c) 5).
Qed.

Lemma sm_recovers_witness :
  let bad := [(rtt_sample 400, 1000); (rtt_sample 400, 2000); (rtt_sample 400, 3000)] in
  let good t := (rtt_sample 20, t) in
  sm_state (sm_run DEFAULT_CAMERA_PROFILE
    (sm_run DEFAULT_CAMERA_PROFILE (createInitialQosStateMachineContext 0) bad)
    ([good 4000; good 5000; good 6000; good 7000] ++ [good 11000] ++ [good 12000])) = Stable.
Proof.
  cbv zeta. apply sm_recovers; try (vm_compute; first [reflexivity | discriminate]).
  - apply wf_context_run, wf_context_init.
  - repeat constructor; vm_compute; reflexivity.
Defined.
