(* ===== verification/Planner.v ===== *)
(** * The action planner (src/client/lib/qos/planner.js)

    Maps the state and the current ladder level to the actions that lead to the
    next level.  The theorems bound the level a plan leads to, show that plans
    of a well-formed profile never name an unknown level, that a server clamp is
    honoured and where it is not, and what a plan does to the upstream. *)

From S2P Require Import Prelude JsNum JsVal QosTypes Profiles.
Local Open Scope string_scope.
Local Open Scope list_scope.
Local Open Scope Z_scope.

Record QosPlannerInput := {
  pi_source : QosSource;
  pi_profile : QosProfile;
  pi_state : QosState;
  pi_currentLevel : Z;
  pi_overrideClampLevel : option Z;
  pi_inAudioOnlyMode : bool;
}.

Definition clampLevel (level maxLevel : Z) : Z :=
  if level <? 0 then 0 else if maxLevel <? level then maxLevel else level.

Definition resolveMaxLevel (profile : QosProfile) : Z := Z.max 0 (pf_levelCount profile - 1).

Definition resolveTargetLevel (input : QosPlannerInput) : Z :=
  let maxLevel := resolveMaxLevel (pi_profile input) in
  let currentLevel := clampLevel (pi_currentLevel input) maxLevel in
  let targetLevel :=
    match pi_state input with
    | Stable => if 0 <? currentLevel then currentLevel - 1 else 0
    | EarlyWarning => if currentLevel <? 1 then 1 else currentLevel
    | Congested => currentLevel + 1
    | Recovering => if 0 <? currentLevel then currentLevel - 1 else 0
    end in
  let targetLevel := clampLevel targetLevel maxLevel in
  match pi_overrideClampLevel input with
  | Some clamp => Z.min targetLevel (clampLevel clamp maxLevel)
  | None => targetLevel
  end.

Definition stepToActions (step : QosLadderStep) (source : QosSource) (currentLevel : Z)
    (inAudioOnlyMode : bool) : list PlannedQosAction :=
  let actions :=
    (if bool_decide (source = Camera) && (ls_level step <? currentLevel) && inAudioOnlyMode
     then [ExitAudioOnly (ls_level step) None] else []) ++
    (if ls_resumeUpstream step then [ResumeUpstream (ls_level step)] else []) ++
    (match ls_encodingParameters step with
     | Some p => [SetEncodingParameters (ls_level step) p] | None => [] end) ++
    (match ls_spatialLayer step with
     | Some l => [SetMaxSpatialLayer (ls_level step) l] | None => [] end) ++
    (if ls_enterAudioOnly step then [EnterAudioOnly (ls_level step) None] else []) ++
    (if ls_pauseUpstream step then [PauseUpstream (ls_level step)] else []) in
  match actions with
  | [] => [Noop (ls_level step) (Some "empty-ladder-step")]
  | _ => actions
  end.

Definition actionsForLevel (input : QosPlannerInput) (targetLevel : Z) : list PlannedQosAction :=
  match array_find (λ entry, ls_level entry =? targetLevel) (pf_ladder (pi_profile input)) with
  | None => [Noop targetLevel (Some "unknown-level")]
  | Some step =>
      stepToActions step (pi_source input) (pi_currentLevel input) (pi_inAudioOnlyMode input)
  end.

Definition with_currentLevel (input : QosPlannerInput) (level : Z) : QosPlannerInput := {|
  pi_source := pi_source input; pi_profile := pi_profile input; pi_state := pi_state input;
  pi_currentLevel := level; pi_overrideClampLevel := pi_overrideClampLevel input;
  pi_inAudioOnlyMode := pi_inAudioOnlyMode input;
|}.

Definition planActionsForLevel (input : QosPlannerInput) (targetLevel : Z) : list PlannedQosAction :=
  actionsForLevel
    (with_currentLevel input
       (clampLevel (pi_currentLevel input) (resolveMaxLevel (pi_profile input))))
    (clampLevel targetLevel (resolveMaxLevel (pi_profile input))).

Definition planActions (input : QosPlannerInput) : list PlannedQosAction :=
  let maxLevel := resolveMaxLevel (pi_profile input) in
  let currentLevel := clampLevel (pi_currentLevel input) maxLevel in
  let targetLevel := clampLevel (resolveTargetLevel input) maxLevel in
  if bool_decide (pi_source input = Camera) && (currentLevel =? maxLevel)
     && bool_decide (pi_state input = Congested) && negb (pi_inAudioOnlyMode input)
  then planActionsForLevel (with_currentLevel input currentLevel) maxLevel
  else if targetLevel =? currentLevel then [Noop currentLevel None]
  else planActionsForLevel (with_currentLevel input currentLevel) targetLevel.

Definition planRecovery (input : QosPlannerInput) : list PlannedQosAction :=
  planActions {|
    pi_source := pi_source input; pi_profile := pi_profile input; pi_state := Recovering;
    pi_currentLevel := pi_currentLevel input; pi_overrideClampLevel := pi_overrideClampLevel input;
    pi_inAudioOnlyMode := pi_inAudioOnlyMode input |}.

(** ** Specification *)

(** The level a plan leads to. *)
Definition plan_target (input : QosPlannerInput) : Z :=
  let maxLevel := resolveMaxLevel (pi_profile input) in
  let currentLevel := clampLevel (pi_currentLevel input) maxLevel in
  if bool_decide (pi_source input = Camera) && (currentLevel =? maxLevel)
     && bool_decide (pi_state input = Congested) && negb (pi_inAudioOnlyMode input)
  then maxLevel else resolveTargetLevel input.

(** ** Lemmas *)

Lemma clampLevel_range l m : 0 <= m → 0 <= clampLevel l m <= m.
Proof. intros. unfold clampLevel. repeat case_match; zlia. Qed.

Lemma clampLevel_id l m : 0 <= l <= m → clampLevel l m = l.
Proof. intros. unfold clampLevel. repeat case_match; zlia. Qed.

Lemma resolveMaxLevel_nonneg p : 0 <= resolveMaxLevel p.
Proof. unfold resolveMaxLevel. lia. Qed.
#[export] Hint Resolve resolveMaxLevel_nonneg : qos.

Lemma resolveTargetLevel_range input :
  0 <= resolveTargetLevel input <= resolveMaxLevel (pi_profile input).
Proof.
  unfold resolveTargetLevel. pose proof (resolveMaxLevel_nonneg (pi_profile input)) as Hm.
  set (m := resolveMaxLevel _) in *.
  match goal with |- context [clampLevel ?t m] =>
    match t with context [pi_state] => pose proof (clampLevel_range t m Hm) end end.
  destruct (pi_overrideClampLevel input) as [k|]; [|done].
  pose proof (clampLevel_range k m Hm). lia.
Qed.

Lemma stepToActions_levels step source l a acts :
  stepToActions step source l a = acts →
  acts ≠ [] ∧ Forall (λ x, action_level x = ls_level step) acts.
Proof.
  intros <-. unfold stepToActions.
  match goal with |- context [match ?x with [] => _ | _ => _ end] => set (xs := x) end.
  assert (Forall (λ x, action_level x = ls_level step) xs) as Hxs.
  { subst xs. repeat (apply Forall_app; split); repeat case_match; repeat constructor. }
  destruct xs; [|done]. split; [done|]. by repeat constructor.
Qed.

Lemma actionsForLevel_levels input t acts :
  actionsForLevel input t = acts →
  acts ≠ [] ∧ Forall (λ x, action_level x = t) acts.
Proof.
  intros <-. unfold actionsForLevel. destruct (array_find _ _) as [step|] eqn:E.
  - apply array_find_some in E as [_ E]. apply Z.eqb_eq in E. subst t.
    by eapply stepToActions_levels.
  - split; [done|]. by repeat constructor.
Qed.

Lemma planActionsForLevel_levels input t acts :
  planActionsForLevel input t = acts →
  acts ≠ [] ∧
  Forall (λ x, action_level x = clampLevel t (resolveMaxLevel (pi_profile input))) acts.
Proof. apply actionsForLevel_levels. Qed.

(** Every plan is non-empty and all its actions lead to [plan_target]. *)
Lemma planActions_levels input :
  planActions input ≠ [] ∧ Forall (λ x, action_level x = plan_target input) (planActions input).
Proof.
  unfold planActions, plan_target. cbv zeta.
  pose proof (resolveMaxLevel_nonneg (pi_profile input)) as Hm.
  pose proof (resolveTargetLevel_range input) as Hr.
  destruct (_ && _) eqn:E.
  - destruct (planActionsForLevel_levels (with_currentLevel input
      (clampLevel (pi_currentLevel input) (resolveMaxLevel (pi_profile input))))
      (resolveMaxLevel (pi_profile input)) _ eq_refl) as [? Hf]. split; [done|].
    simpl in Hf. by rewrite (clampLevel_id (resolveMaxLevel _)) in Hf by lia.
  - rewrite (clampLevel_id (resolveTargetLevel input)) by lia.
    destruct (resolveTargetLevel input =? _) eqn:E2.
    + apply Z.eqb_eq in E2. split; [done|]. by repeat constructor.
    + destruct (planActionsForLevel_levels (with_currentLevel input
        (clampLevel (pi_currentLevel input) (resolveMaxLevel (pi_profile input))))
        (resolveTargetLevel input) _ eq_refl) as [? Hf]. split; [done|].
      simpl in Hf. by rewrite (clampLevel_id (resolveTargetLevel input)) in Hf by lia.
Qed.

Lemma plan_target_range input : 0 <= plan_target input <= resolveMaxLevel (pi_profile input).
Proof.
  unfold plan_target. pose proof (resolveMaxLevel_nonneg (pi_profile input)).
  pose proof (resolveTargetLevel_range input). case_match; lia.
Qed.

(** Without a clamp a plan moves by one level at most, and in the direction of
    the state. *)
Lemma plan_target_step input :
  0 <= pi_currentLevel input <= resolveMaxLevel (pi_profile input) →
  pi_overrideClampLevel input = None →
  match pi_state input with
  | Stable | Recovering => pi_currentLevel input - 1 <= plan_target input <= pi_currentLevel input
  | EarlyWarning | Congested => pi_currentLevel input <= plan_target input <= pi_currentLevel input + 1
  end.
Proof.
  intros Hl Hc. unfold plan_target, resolveTargetLevel. rewrite Hc.
  rewrite (clampLevel_id (pi_currentLevel input)) by lia.
  set (m := resolveMaxLevel _) in *. set (l := pi_currentLevel input) in *.
  destruct (pi_state input) eqn:Es; rewrite ?andb_false_r; simpl;
    unfold clampLevel; repeat case_match; bool_hyps; zlia.
Qed.

Definition unknown_level (a : PlannedQosAction) : bool :=
  match a with Noop _ (Some r) => String.eqb r "unknown-level" | _ => false end.

Lemma stepToActions_known step source l a :
  Forall (λ x, unknown_level x = false) (stepToActions step source l a).
Proof.
  unfold stepToActions.
  match goal with |- context [match ?x with [] => _ | _ => _ end] => set (xs := x) end.
  assert (Forall (λ x, unknown_level x = false) xs) as Hxs.
  { subst xs. repeat (apply Forall_app; split); repeat case_match; repeat constructor. }
  destruct xs; [|done]. by repeat constructor.
Qed.

Lemma wf_ladder_max p : wf_ladder p = true → resolveMaxLevel p = pf_levelCount p - 1.
Proof. unfold wf_ladder, resolveMaxLevel. intros H. bool_hyps. zlia. Qed.

Lemma planActionsForLevel_known input t :
  wf_ladder (pi_profile input) = true →
  Forall (λ x, unknown_level x = false) (planActionsForLevel input t).
Proof.
  intros Hwf. unfold planActionsForLevel, actionsForLevel. simpl.
  pose proof (clampLevel_range t _ (resolveMaxLevel_nonneg (pi_profile input))) as Hr.
  rewrite (wf_ladder_max _ Hwf) in Hr at 3.
  destruct (wf_ladder_find (pi_profile input) (clampLevel t (resolveMaxLevel (pi_profile input))) Hwf)
    as (step & -> & _); [lia|]. apply stepToActions_known.
Qed.

Lemma planActions_known input :
  wf_ladder (pi_profile input) = true →
  Forall (λ x, unknown_level x = false) (planActions input).
Proof.
  intros Hwf. unfold planActions. repeat case_match; try by apply planActionsForLevel_known.
  by repeat constructor.
Qed.

(** ** Claims *)

(** C4: a plan is never empty, all its actions lead to one ladder level between
    0 and the last level, none of them names an unknown level of a well-formed
    ladder, and without a server clamp the level moves by at most one: towards
    better quality when stable or recovering, towards worse when early_warning
    or congested. *)
Theorem planActions_bounded input :
  wf_ladder (pi_profile input) = true →
  0 <= pi_currentLevel input < pf_levelCount (pi_profile input) →
  ∃ t, planActions input ≠ [] ∧ Forall (λ x, action_level x = t) (planActions input) ∧
    Forall (λ x, unknown_level x = false) (planActions input) ∧
    0 <= t < pf_levelCount (pi_profile input) ∧
    (pi_overrideClampLevel input = None →
     match pi_state input with
     | Stable | Recovering => pi_currentLevel input - 1 <= t <= pi_currentLevel input
     | EarlyWarning | Congested => pi_currentLevel input <= t <= pi_currentLevel input + 1
     end).
Proof.
  intros Hwf Hl. pose proof (wf_ladder_max _ Hwf) as Hm.
  destruct (planActions_levels input) as [Hne Hlev].
  pose proof (plan_target_range input).
  exists (plan_target input). split_and!; [done|done|by apply planActions_known|lia|lia|].
  intros Hc. apply plan_target_step; [lia|done].
Qed.

Definition camera_input (state : QosState) (level : Z) (clamp : option Z) (audioOnly : bool)
    : QosPlannerInput := {|
  pi_source := Camera; pi_profile := DEFAULT_CAMERA_PROFILE; pi_state := state;
  pi_currentLevel := level; pi_overrideClampLevel := clamp; pi_inAudioOnlyMode := audioOnly |}.

Lemma planActions_bounded_witness :
  ∃ t, Forall (λ x, action_level x = t) (planActions (camera_input Congested 2 None false)) ∧ 2 <= t <= 3.
Proof.
  destruct (planActions_bounded (camera_input Congested 2 None false) eq_refl ltac:(simpl; lia))
    as (t & _ & Hl & _ & _ & Hs).
  exists t. split; [exact Hl | exact (Hs eq_refl)].
Defined.

(** A server clamp [k] bounds the level a plan leads to, with one exception:
    a camera that is congested on the last level without being in audio-only
    mode is sent back to the last level whatever the clamp. *)
Theorem planActions_clamp input k :
  pi_overrideClampLevel input = Some k → 0 <= k →
  Forall (λ x, action_level x <= k) (planActions input) ∨
  (pi_source input = Camera ∧ pi_state input = Congested ∧ pi_inAudioOnlyMode input = false ∧
   clampLevel (pi_currentLevel input) (resolveMaxLevel (pi_profile input)) =
     resolveMaxLevel (pi_profile input)).
Proof.
  intros Hk Hk0. destruct (planActions_levels input) as [_ Hlev].
  unfold plan_target in Hlev. destruct (_ && _) eqn:E.
  - right. bool_hyps. rewrite !bool_decide_eq_true in *. split_and!; try done. zlia.
  - left. eapply Forall_impl; [exact Hlev|]. intros x ->.
    unfold resolveTargetLevel. rewrite Hk.
    pose proof (resolveMaxLevel_nonneg (pi_profile input)).
    assert (clampLevel k (resolveMaxLevel (pi_profile input)) <= k)
      by (unfold clampLevel; repeat case_match; zlia). lia.
Qed.

Lemma planActions_clamp_witness :
  Forall (λ x, action_level x <= 1) (planActions (camera_input Congested 3 (Some 1) false)) ∨
  (Camera = Camera ∧ Congested = Congested ∧ false = false ∧ clampLevel 3 4 = 4).
Proof.
  exact (planActions_clamp (camera_input Congested 3 (Some 1) false) 1 eq_refl ltac:(lia)).
Defined.

(** The exception is reachable: with a clamp of 1, a congested camera on the
    last level whose upstream was resumed (so that it is not in audio-only mode)
    is planned into audio-only mode at level 4, above the clamp. *)
Theorem planActions_reentry_ignores_clamp :
  planActions (camera_input Congested 4 (Some 1) false) = [EnterAudioOnly 4 None] ∧
  resolveTargetLevel (camera_input Congested 4 (Some 1) false) = 1.
Proof. vm_compute. done. Qed.

Definition screenshare_input (state : QosState) (level : Z) (clamp : option Z) : QosPlannerInput := {|
  pi_source := ScreenShare; pi_profile := DEFAULT_SCREENSHARE_PROFILE; pi_state := state;
  pi_currentLevel := level; pi_overrideClampLevel := clamp; pi_inAudioOnlyMode := false |}.

(** A paused screen share (level 4) under a clamp of 0, 1 or 2 is planned
    straight to the clamp level without a resume action, because only the step
    of level 3 resumes the upstream: the plan leaves the track paused at a level
    that is meant to send. *)
Theorem screenshare_clamp_stays_paused state k :
  0 <= k <= 2 →
  let plan := planActions (screenshare_input state 4 (Some k)) in
  Forall (λ x, action_level x = k) plan ∧
  existsb (is_type TSetEncodingParameters) plan = true ∧
  existsb (is_type TResumeUpstream) plan = false.
Proof.
  intros Hk plan. assert (k = 0 ∨ k = 1 ∨ k = 2) as [->|[->| ->]] by lia; subst plan;
  destruct state; (split; [repeat constructor | split; vm_compute; reflexivity]).
Qed.

Lemma screenshare_clamp_stays_paused_witness :
  existsb (is_type TResumeUpstream) (planActions (screenshare_input Recovering 4 (Some 1))) = false ∧
  existsb (is_type TResumeUpstream) (planActions (screenshare_input Recovering 4 None)) = true.
Proof.
  split; [exact (proj2 (proj2 (screenshare_clamp_stays_paused Recovering 1 ltac:(lia)))) | reflexivity].
Defined.
