(* ===== verification/Probe.v ===== *)
(** * Recovery probes (src/client/lib/qos/probe.js)

    After an upgrade the controller watches a few samples before it trusts the
    new level.  [evaluateProbe] counts consecutive healthy and bad samples. *)

From S2P Require Import Prelude JsNum JsVal QosTypes Profiles.
Local Open Scope Z_scope.

Record QosProbeContext := {
  pr_active : bool;
  pr_startedAtMs : Z;
  pr_previousLevel : Z;
  pr_targetLevel : Z;
  pr_previousAudioOnlyMode : bool;
  pr_targetAudioOnlyMode : bool;
  pr_healthySamples : Z;
  pr_badSamples : Z;
  pr_requiredHealthySamples : option Z;
  pr_requiredBadSamples : option Z;
}.

Inductive QosProbeResult := Successful | Failed | Inconclusive.

Definition isProbeHealthy (signals : DerivedQosSignals) (profile : QosProfile) : bool :=
  let thresholds := pf_thresholds profile in
  (sg_lossEwma signals <? th_stableLossRate thresholds)%num
  && (sg_rttEwma signals <? th_stableRttMs thresholds)%num
  && negb (sg_bandwidthLimited signals)
  && negb (sg_cpuLimited signals).

Definition isProbeBad (signals : DerivedQosSignals) (profile : QosProfile) : bool :=
  let thresholds := pf_thresholds profile in
  sg_bandwidthLimited signals
  || (sg_lossEwma signals >=? th_congestedLossRate thresholds)%num
  || (sg_rttEwma signals >=? th_congestedRttMs thresholds)%num
  || sg_cpuLimited signals.

(** [options] holds the two optional requirements. *)
Definition beginProbe (previousLevel targetLevel startedAtMs : Z)
    (previousAudioOnlyMode targetAudioOnlyMode : bool)
    (requiredHealthySamples requiredBadSamples : option Z) : QosProbeContext := {|
  pr_active := true;
  pr_startedAtMs := startedAtMs;
  pr_previousLevel := previousLevel;
  pr_targetLevel := targetLevel;
  pr_previousAudioOnlyMode := previousAudioOnlyMode;
  pr_targetAudioOnlyMode := targetAudioOnlyMode;
  pr_healthySamples := 0;
  pr_badSamples := 0;
  pr_requiredHealthySamples := Some (Z.max 1 (default 3 requiredHealthySamples));
  pr_requiredBadSamples := Some (Z.max 1 (default 2 requiredBadSamples));
|}.

Definition with_samples (c : QosProbeContext) (healthy bad : Z) : QosProbeContext := {|
  pr_active := pr_active c; pr_startedAtMs := pr_startedAtMs c;
  pr_previousLevel := pr_previousLevel c; pr_targetLevel := pr_targetLevel c;
  pr_previousAudioOnlyMode := pr_previousAudioOnlyMode c;
  pr_targetAudioOnlyMode := pr_targetAudioOnlyMode c;
  pr_healthySamples := healthy; pr_badSamples := bad;
  pr_requiredHealthySamples := pr_requiredHealthySamples c;
  pr_requiredBadSamples := pr_requiredBadSamples c;
|}.

(** An absent or inactive context gives no context back. *)
Definition evaluateProbe (context : option QosProbeContext) (signals : DerivedQosSignals)
    (profile : QosProfile) : option QosProbeContext * QosProbeResult :=
  match context with
  | None => (None, Inconclusive)
  | Some c =>
      if negb (pr_active c) then (None, Inconclusive)
      else
        let nextContext :=
          if isProbeHealthy signals profile then with_samples c (pr_healthySamples c + 1) 0
          else if isProbeBad signals profile then with_samples c 0 (pr_badSamples c + 1)
          else c in
        let requiredBadSamples := Z.max 1 (default 2 (pr_requiredBadSamples nextContext)) in
        let requiredHealthySamples := Z.max 1 (default 3 (pr_requiredHealthySamples nextContext)) in
        if requiredBadSamples <=? pr_badSamples nextContext then (Some nextContext, Failed)
        else if requiredHealthySamples <=? pr_healthySamples nextContext
        then (Some nextContext, Successful)
        else (Some nextContext, Inconclusive)
  end.

(** ** Specification *)

(** A probe under observation: one of the counters is zero and both are below
    their requirement. *)
Record probe_open (c : QosProbeContext) (h b : Z) : Prop := {
  po_active : pr_active c = true;
  po_reqh : pr_requiredHealthySamples c = Some h;
  po_reqb : pr_requiredBadSamples c = Some b;
  po_h : 1 <= h;
  po_b : 1 <= b;
  po_healthy : 0 <= pr_healthySamples c < h;
  po_bad : 0 <= pr_badSamples c < b;
  po_excl : pr_healthySamples c = 0 ∨ pr_badSamples c = 0;
}.

(** Healthy, bad or neutral. *)
Definition probe_class (s : DerivedQosSignals) (p : QosProfile) : option bool :=
  if isProbeHealthy s p then Some true else if isProbeBad s p then Some false else None.

(** Observing a list of samples; stops at the first decision. *)
Fixpoint probe_run (p : QosProfile) (c : QosProbeContext) (l : list DerivedQosSignals)
    : QosProbeContext * QosProbeResult :=
  match l with
  | [] => (c, Inconclusive)
  | s :: l =>
      match evaluateProbe (Some c) s p with
      | (Some c', Inconclusive) => probe_run p c' l
      | (Some c', r) => (c', r)
      | (None, r) => (c, r)
      end
  end.

(** ** Lemmas *)

Lemma beginProbe_open pl tl t pa ta h b :
  probe_open (beginProbe pl tl t pa ta h b) (Z.max 1 (default 3 h)) (Z.max 1 (default 2 b)).
Proof. constructor; simpl; try done; lia. Qed.

Lemma evaluateProbe_open c h b s p :
  probe_open c h b →
  match evaluateProbe (Some c) s p with
  | (Some c', Inconclusive) => probe_open c' h b
  | (Some c', Successful) => pr_healthySamples c' = h ∧ pr_badSamples c' = 0 ∧
      isProbeHealthy s p = true ∧ pr_healthySamples c = h - 1
  | (Some c', Failed) => pr_badSamples c' = b ∧ pr_healthySamples c' = 0 ∧
      isProbeBad s p = true ∧ pr_badSamples c = b - 1
  | (None, _) => False
  end.
Proof.
  intros [Ha Hh Hb H1 H2 H3 H4 H5]. unfold evaluateProbe. rewrite Ha. simpl.
  destruct (isProbeHealthy s p) eqn:E1; [|destruct (isProbeBad s p) eqn:E2];
    cbn [with_samples pr_requiredBadSamples pr_requiredHealthySamples pr_badSamples pr_healthySamples];
    rewrite Hh, Hb; simpl; rewrite !Z.max_r by lia.
  - destruct (b <=? 0) eqn:Eb; [zlia|]. destruct (h <=? _) eqn:Eh.
    + simpl; split_and!; try done; zlia.
    + constructor; simpl; try done; zlia.
  - destruct (b <=? _) eqn:Eb; [simpl; split_and!; try done; zlia|].
    destruct (h <=? 0) eqn:Eh; [zlia|].
    constructor; simpl; try done; zlia.
  - destruct (b <=? _) eqn:Eb; [zlia|]. destruct (h <=? _) eqn:Eh; [zlia|].
    by constructor.
Qed.

(** The decisions of the classified samples, neutral ones left out. *)
Definition classes (p : QosProfile) (l : list DerivedQosSignals) : list bool :=
  omap (λ s, probe_class s p) l.

(** The counters are what the end of the observed samples says. *)
Definition probe_seen (p : QosProfile) (hist : list DerivedQosSignals) (c : QosProbeContext) : Prop :=
  replicate (Z.to_nat (pr_healthySamples c)) true `suffix_of` classes p hist ∧
  replicate (Z.to_nat (pr_badSamples c)) false `suffix_of` classes p hist.

Lemma classes_snoc p hist s :
  classes p (hist ++ [s]) = classes p hist ++ match probe_class s p with Some b => [b] | None => [] end.
Proof. unfold classes. rewrite omap_app. simpl. by destruct (probe_class s p). Qed.

Lemma replicate_suffix_snoc {A} n (x : A) l :
  replicate n x `suffix_of` l → replicate (S n) x `suffix_of` (l ++ [x]).
Proof. intros [k ->]. exists k. by rewrite <- app_assoc, <- replicate_cons_app. Qed.

Lemma evaluateProbe_seen p hist c h b s c' r :
  probe_open c h b → probe_seen p hist c → evaluateProbe (Some c) s p = (Some c', r) →
  probe_seen p (hist ++ [s]) c'.
Proof.
  intros Ho [Hs Hb] He. destruct Ho as [Ha _ _ _ _ H3 H4 _].
  assert (c' = if isProbeHealthy s p then with_samples c (pr_healthySamples c + 1) 0
               else if isProbeBad s p then with_samples c 0 (pr_badSamples c + 1) else c) as ->.
  { unfold evaluateProbe in He. rewrite Ha in He. simpl in He. repeat case_match; by simplify_eq. }
  unfold probe_seen. rewrite classes_snoc. unfold probe_class.
  destruct (isProbeHealthy s p); [|destruct (isProbeBad s p)]; simpl.
  - split; [|apply suffix_nil]. rewrite Z2Nat.inj_add, Nat.add_1_r by lia.
    by apply replicate_suffix_snoc.
  - split; [apply suffix_nil|]. rewrite Z2Nat.inj_add, Nat.add_1_r by lia.
    by apply replicate_suffix_snoc.
  - by rewrite app_nil_r.
Qed.

(** Soundness of a decision, for a probe that has already seen [hist]. *)
Lemma probe_run_sound p h b l : ∀ hist c c' r,
  probe_open c h b → probe_seen p hist c → probe_run p c l = (c', r) →
  match r with
  | Successful => pr_badSamples c' = 0 ∧
      ∃ seen, (hist ++ seen) `prefix_of` (hist ++ l) ∧
              replicate (Z.to_nat h) true `suffix_of` classes p (hist ++ seen)
  | Failed => pr_healthySamples c' = 0 ∧
      ∃ seen, (hist ++ seen) `prefix_of` (hist ++ l) ∧
              replicate (Z.to_nat b) false `suffix_of` classes p (hist ++ seen)
  | Inconclusive => probe_open c' h b
  end.
Proof.
  induction l as [|s l IH]; intros hist c c' r Ho Hs Hr; cbn [probe_run] in Hr; [by simplify_eq|].
  pose proof (evaluateProbe_open c h b s p Ho) as Hev.
  destruct (evaluateProbe (Some c) s p) as [[c1|] r1] eqn:E; [|done].
  pose proof (evaluateProbe_seen p hist c h b s c1 r1 Ho Hs E) as Hseen.
  destruct r1; simplify_eq/=.
  - destruct Hev as (Eh & Eb & _). split; [done|]. exists [s]. split.
    + apply prefix_app. by exists l.
    + rewrite <- Eh. apply Hseen.
  - destruct Hev as (Eb & Eh & _). split; [done|]. exists [s]. split.
    + apply prefix_app. by exists l.
    + rewrite <- Eb. apply Hseen.
  - specialize (IH (hist ++ [s]) c1 c' r Hev Hseen Hr).
    destruct r; [| |done]; destruct IH as (E0 & seen & Hp & Hc); (split; [done|]);
      exists (s :: seen); rewrite <- app_assoc in Hc; split; [|done| |done];
      rewrite <- !app_assoc in Hp; done.
Qed.

(** Completeness: enough healthy (bad) samples with none of the other kind. *)
Lemma probe_run_complete p h b (kind : bool) l : ∀ c,
  probe_open c h b →
  Forall (λ x, x = kind) (classes p l) →
  (if kind then h - pr_healthySamples c else b - pr_badSamples c) <= Z.of_nat (length (classes p l)) →
  (probe_run p c l).2 = if kind then Successful else Failed.
Proof.
  induction l as [|s l IH]; intros c Ho Hk Hn; simpl.
  { destruct Ho. simpl in Hn. destruct kind; lia. }
  pose proof (evaluateProbe_open c h b s p Ho) as Hev.
  change (classes p (s :: l)) with
    (match probe_class s p with Some b => b :: classes p l | None => classes p l end) in *.
  unfold evaluateProbe in *. destruct Ho as [Ha Eh Eb H1 H2 H3 H4 H5]. rewrite Ha in *. simpl in *.
  unfold probe_class in *.
  destruct (isProbeHealthy s p) eqn:E1; [|destruct (isProbeBad s p) eqn:E2];
    cbn [with_samples pr_requiredBadSamples pr_requiredHealthySamples pr_badSamples pr_healthySamples] in *;
    rewrite Eh, Eb in *; simpl in *; rewrite !Z.max_r in * by lia.
  - apply Forall_cons in Hk as [<- Hk]. destruct (b <=? 0) eqn:Eb0; [zlia|].
    destruct (h <=? _) eqn:Eh0; [done|]. apply IH; [done|done|]. simpl. lia.
  - apply Forall_cons in Hk as [<- Hk]. destruct (b <=? _) eqn:Eb0; [done|].
    destruct (h <=? 0) eqn:Eh0; [zlia|]. apply IH; [done|done|]. simpl. lia.
  - destruct (b <=? _) eqn:Eb0; [zlia|]. destruct (h <=? _) eqn:Eh0; [zlia|].
    apply IH; done.
Qed.

(** ** Claims *)

(** A probe that needs [h] healthy or [b] bad samples is declared successful
    only when the last [h] samples it classified are all healthy, with no bad
    sample on record, and failed only when the last [b] are all bad; conversely
    [h] healthy samples without a bad one make it succeed, and [b] bad samples
    without a healthy one make it fail.  Samples that are neither do not count. *)
Theorem probe_decision p pl tl t pa ta h b l :
  1 <= h → 1 <= b →
  let c := beginProbe pl tl t pa ta (Some h) (Some b) in
  match probe_run p c l with
  | (c', Successful) => pr_badSamples c' = 0 ∧
      ∃ seen, seen `prefix_of` l ∧ replicate (Z.to_nat h) true `suffix_of` classes p seen
  | (c', Failed) => pr_healthySamples c' = 0 ∧
      ∃ seen, seen `prefix_of` l ∧ replicate (Z.to_nat b) false `suffix_of` classes p seen
  | (c', Inconclusive) => pr_healthySamples c' < h ∧ pr_badSamples c' < b
  end ∧
  (Forall (λ x, x = true) (classes p l) → h <= Z.of_nat (length (classes p l)) →
     (probe_run p c l).2 = Successful) ∧
  (Forall (λ x, x = false) (classes p l) → b <= Z.of_nat (length (classes p l)) →
     (probe_run p c l).2 = Failed).
Proof.
  intros Hh Hb c. pose proof (beginProbe_open pl tl t pa ta (Some h) (Some b)) as Ho.
  simpl in Ho. rewrite !Z.max_r in Ho by lia. fold c in Ho.
  assert (probe_seen p [] c) as Hs by (split; apply suffix_nil).
  split; [|split].
  - destruct (probe_run p c l) as [c' r] eqn:E.
    pose proof (probe_run_sound p h b l [] c c' r Ho Hs E) as H.
    destruct r; simpl in H; [done..|]. destruct H. lia.
  - intros Hk Hn. apply (probe_run_complete p h b true); [done|done|]. simpl. lia.
  - intros Hk Hn. apply (probe_run_complete p h b false); [done|done|]. simpl. lia.
Qed.

Lemma probe_decision_witness :
  (probe_run DEFAULT_CAMERA_PROFILE (beginProbe 2 1 1000 false false (Some 3) (Some 2))
     [rtt_sample 20; rtt_sample 200; rtt_sample 30; rtt_sample 40]).2 = Successful.
Proof.
  pose proof (probe_decision DEFAULT_CAMERA_PROFILE 2 1 1000 false false 3 2
    [rtt_sample 20; rtt_sample 200; rtt_sample 30; rtt_sample 40] ltac:(lia) ltac:(lia))
    as (_ & H & _).
  apply H; vm_compute; [repeat constructor | discriminate].
Defined.
