(* ===== verification/Trace.v ===== *)
(** * Trace buffer (src/client/lib/qos/trace.js)

    A buffer of the most recent entries.  [QosTraceBuffer] refines the
    specification "the last [capacity] entries appended". *)

From Stdlib Require Import QArith Lqa.
From S2P Require Import Prelude JsNum JsVal QosTypes.
Local Open Scope Z_scope.

Section trace.
Context {E : Type}.

Record QosTraceBuffer := {
  tb_entries : list E;
  tb_capacity : num;
}.

(** The constructor; [None] takes the default capacity. *)
Definition createQosTraceBuffer (capacity : option num) : QosTraceBuffer := {|
  tb_entries := [];
  tb_capacity :=
    math_max num1 (math_floor (default (num_of_Z DEFAULT_TRACE_BUFFER_SIZE) capacity));
|}.

Definition trace_size (b : QosTraceBuffer) : Z := Z.of_nat (length (tb_entries b)).

(** [push], then [splice(0, length - capacity)] when over capacity. *)
Definition append (b : QosTraceBuffer) (entry : E) : QosTraceBuffer :=
  let entries := tb_entries b ++ [entry] in
  let len := num_of_Z (Z.of_nat (length entries)) in
  {| tb_entries :=
       if (len >? tb_capacity b)%num
       then drop (Z.to_nat (floor_Z (len - tb_capacity b)%num)) entries
       else entries;
     tb_capacity := tb_capacity b |}.

Definition getEntries (b : QosTraceBuffer) : list E := tb_entries b.

Definition clear (b : QosTraceBuffer) : QosTraceBuffer :=
  {| tb_entries := []; tb_capacity := tb_capacity b |}.

Definition appendTraceEntry := append.
Definition getTraceEntries := getEntries.
Definition clearTrace := clear.

(** ** Refinement *)

(** The last [n] elements of a list. *)
Definition last_n (n : nat) (l : list E) : list E := drop (length l - n) l.

Lemma last_n_snoc n l x : (0 < n)%nat →
  last_n n (l ++ [x]) =
    (if decide (n < S (length (last_n n l)))%nat then drop 1 (last_n n l) else last_n n l) ++ [x].
Proof.
  intros Hn. unfold last_n. rewrite length_app, length_drop. simpl.
  case_decide as Hd.
  - replace (length l + 1 - n)%nat with (S (length l - n)) by lia.
    rewrite drop_app_le by lia. rewrite drop_drop. f_equal. f_equal. lia.
  - replace (length l + 1 - n)%nat with 0%nat by lia.
    replace (length l - n)%nat with 0%nat by lia. done.
Qed.

(** The buffer with an integral capacity [n] that has received [l]. *)
Definition holds (b : QosTraceBuffer) (n : nat) (l : list E) : Prop :=
  tb_capacity b = num_of_Z (Z.of_nat n) ∧ tb_entries b = last_n n l.

Lemma append_holds b n l x :
  0 < Z.of_nat n < 2 ^ 52 → holds b n l → holds (append b x) n (l ++ [x]).
Proof.
  intros Hn [Hc He]. split; [done|]. unfold append. cbn [tb_entries]. rewrite Hc, He.
  rewrite num_of_Z_ltb, last_n_snoc by lia.
  assert (length (last_n n l) <= n)%nat as Hle by (unfold last_n; rewrite length_drop; lia).
  rewrite length_app. simpl (length [x]).
  destruct (Z.of_nat n <? _) eqn:Hlt.
  - apply Z.ltb_lt in Hlt. rewrite decide_True by lia.
    assert (length (last_n n l) = n) as Hlen by lia.
    replace (num_of_Z (Z.of_nat (length (last_n n l) + 1)) - num_of_Z (Z.of_nat n))%num
      with (num_of_Z 1).
    { rewrite floor_num_of_Z. change (Z.to_nat 1) with 1%nat.
      rewrite drop_app_le by lia. done. }
    unfold num_of_Z at 2 3. rewrite num_sub_fin. rewrite <- (rnd_Z 1) by lia.
    apply rnd_proper. rewrite Hlen. rewrite Nat2Z.inj_add. rewrite inject_Z_plus.
    change (inject_Z (Z.of_nat 1)) with (inject_Z 1). ring.
  - apply Z.ltb_ge in Hlt. rewrite decide_False by lia. done.
Qed.

Lemma appends_hold n l l0 b :
  0 < Z.of_nat n < 2 ^ 52 → holds b n l0 → holds (foldl append b l) n (l0 ++ l).
Proof.
  intros Hn. revert l0 b. induction l as [|x l IH]; intros l0 b Hb; simpl.
  - by rewrite app_nil_r.
  - rewrite cons_middle, app_assoc. apply IH. by apply append_holds.
Qed.
End trace.
Arguments QosTraceBuffer : clear implicits.

(** ** Claims *)

(** A buffer created with an integral capacity of [n >= 1] entries returns,
    after any sequence of appends, exactly the last [n] entries appended, in
    order; so it never holds more than its capacity and never drops an entry
    while there is room. *)
Theorem trace_keeps_last {E} (n : nat) (l : list E) :
  0 < Z.of_nat n < 2 ^ 52 →
  getTraceEntries (foldl appendTraceEntry (createQosTraceBuffer (Some (num_of_Z (Z.of_nat n)))) l)
    = last_n n l.
Proof.
  intros Hn. apply (appends_hold n l [] _ Hn). split; [|done].
  unfold createQosTraceBuffer; cbn [tb_capacity from_option id].
  change num1 with (num_of_Z 1). rewrite math_floor_Z, math_max_Z. f_equal. lia.
Qed.

Lemma trace_keeps_last_witness :
  getTraceEntries (foldl appendTraceEntry (createQosTraceBuffer (Some (num_of_Z (Z.of_nat 2))))
    ["a"; "b"; "c"]%string) = ["b"; "c"]%string.
Proof. exact (trace_keeps_last 2 ["a"; "b"; "c"]%string ltac:(lia)). Defined.
