(* ===== verification/Clock.v ===== *)
(** * Clocks (src/client/lib/qos/clock.js)

    [ManualQosClock], the deterministic clock of trace replays, and the
    interface through which the sampler uses a clock.  A timer callback acts on
    a world [W] that the clock does not see; the callbacks of the library only
    start an asynchronous tick, so they do not call back into the clock.
    Arguments are finite numbers.  [SystemQosClock] delegates to the host. *)

From Stdlib Require Import QArith Qround.
From S2P Require Import Prelude JsNum JsVal QosTypes.
Local Open Scope Z_scope.

Section clock.
Context {W : Type}.

Record timer := {
  tm_id : Z;
  tm_cb : W → W;
  tm_intervalMs : Z;
  tm_nextRunAtMs : Z;
}.

Record ManualQosClock := {
  mc_nowMs : Z;
  mc_nextId : Z;
  mc_timers : list (Z * timer);
}.

Definition new_clock : ManualQosClock :=
  {| mc_nowMs := 0; mc_nextId := 1; mc_timers := [] |}.

Definition nowMs (c : ManualQosClock) : Z := mc_nowMs c.

Definition setInterval (c : ManualQosClock) (cb : W → W) (intervalMs : Q) : ManualQosClock * Z :=
  let safeIntervalMs := Z.max 1 (Qfloor intervalMs) in
  let id := mc_nextId c in
  ({| mc_nowMs := mc_nowMs c;
      mc_nextId := mc_nextId c + 1;
      mc_timers := map_set (mc_timers c) id
        {| tm_id := id; tm_cb := cb; tm_intervalMs := safeIntervalMs;
           tm_nextRunAtMs := mc_nowMs c + safeIntervalMs |} |}, id).

(** [None]: the id is not a number. *)
Definition clearInterval (c : ManualQosClock) (id : option Z) : ManualQosClock :=
  match id with
  | None => c
  | Some id => {| mc_nowMs := mc_nowMs c; mc_nextId := mc_nextId c;
                  mc_timers := map_delete (mc_timers c) id |}
  end.

Definition is_due (now : Z) (t : timer) : bool := tm_nextRunAtMs t <=? now.

(** [timer.nextRunAtMs += timer.intervalMs] when due. *)
Definition advance_timer (now : Z) (t : timer) : timer :=
  if is_due now t
  then {| tm_id := tm_id t; tm_cb := tm_cb t; tm_intervalMs := tm_intervalMs t;
          tm_nextRunAtMs := tm_nextRunAtMs t + tm_intervalMs t |}
  else t.

(** One [for] loop over the timers: each due one is advanced and called. *)
Fixpoint run_pass (now : Z) (ts : list (Z * timer)) (w : W) : list (Z * timer) * W * bool :=
  match ts with
  | [] => ([], w, false)
  | (k, t) :: ts =>
      let w1 := if is_due now t then tm_cb t w else w in
      let '(ts', w', work) := run_pass now ts w1 in
      ((k, advance_timer now t) :: ts', w', is_due now t || work)
  end.

(** The [while (hasWork)] loop, with fuel. *)
Fixpoint run_loop (fuel : nat) (now : Z) (ts : list (Z * timer)) (w : W) : option (list (Z * timer) * W) :=
  match fuel with
  | O => None
  | S fuel =>
      let '(ts', w', work) := run_pass now ts w in
      if work then run_loop fuel now ts' w' else Some (ts', w')
  end.

(** How often a timer is due at [now]. *)
Definition due_count (now : Z) (t : timer) : Z :=
  if is_due now t then (now - tm_nextRunAtMs t) / tm_intervalMs t + 1 else 0.

(** Passes until no timer is due, and one more that finds nothing. *)
Definition loop_fuel (now : Z) (ts : list (Z * timer)) : nat :=
  S (foldr (λ e n, Nat.max (Z.to_nat (due_count now e.2)) n) 0%nat ts).

Definition runDueTimers (c : ManualQosClock) (w : W) : option (ManualQosClock * W) :=
  match run_loop (loop_fuel (mc_nowMs c) (mc_timers c)) (mc_nowMs c) (mc_timers c) w with
  | Some (ts, w) => Some ({| mc_nowMs := mc_nowMs c; mc_nextId := mc_nextId c; mc_timers := ts |}, w)
  | None => None
  end.

Definition at_time (c : ManualQosClock) (now : Z) : ManualQosClock :=
  {| mc_nowMs := now; mc_nextId := mc_nextId c; mc_timers := mc_timers c |}.

Definition advanceBy (c : ManualQosClock) (deltaMs : Q) (w : W) : option (ManualQosClock * W) :=
  let safeDeltaMs := Z.max 0 (Qfloor deltaMs) in
  if safeDeltaMs =? 0 then Some (c, w)
  else runDueTimers (at_time c (mc_nowMs c + safeDeltaMs)) w.

Definition advanceTo (c : ManualQosClock) (targetMs : Q) (w : W) : option (ManualQosClock * W) :=
  if Qle_bool targetMs (inject_Z (mc_nowMs c)) then Some (c, w)
  else runDueTimers (at_time c (Qfloor targetMs)) w.

Definition reset (c : ManualQosClock) (now : Q) : ManualQosClock :=
  {| mc_nowMs := Z.max 0 (Qfloor now); mc_nextId := mc_nextId c; mc_timers := [] |}.

(** ** Invariant *)

(** Keys are the timers' ids, handed out once and below the next one, and every
    interval is positive; between operations no timer is due. *)
Record wf_clock (c : ManualQosClock) : Prop := {
  wfc_keys : Forall (λ e, tm_id e.2 = e.1 ∧ e.1 < mc_nextId c ∧ 1 <= tm_intervalMs e.2) (mc_timers c);
  wfc_nodup : NoDup (map_keys (mc_timers c));
  wfc_idle : Forall (λ e, is_due (mc_nowMs c) e.2 = false) (mc_timers c);
}.

(** ** Lemmas *)

Definition positive_timers (ts : list (Z * timer)) : Prop :=
  Forall (λ e, 1 <= tm_intervalMs e.2) ts.

Lemma due_count_nonneg now t : 1 <= tm_intervalMs t → 0 <= due_count now t.
Proof.
  intros Hi. unfold due_count. destruct (is_due now t) eqn:E; [|lia].
  unfold is_due in E. apply Z.leb_le in E.
  pose proof (Z.div_pos (now - tm_nextRunAtMs t) (tm_intervalMs t)). lia.
Qed.

(** Advancing a due timer uses up one of its runs. *)
Lemma due_count_advance now t : 1 <= tm_intervalMs t →
  due_count now (advance_timer now t) = if is_due now t then due_count now t - 1 else 0.
Proof.
  intros Hi. unfold due_count at 1 2, advance_timer.
  destruct (is_due now t) eqn:E; [|by rewrite E].
  unfold is_due in *; simpl in *. apply Z.leb_le in E.
  destruct (_ <=? now) eqn:E2.
  - apply Z.leb_le in E2.
    replace (now - tm_nextRunAtMs t) with (now - (tm_nextRunAtMs t + tm_intervalMs t) + 1 * tm_intervalMs t) by lia.
    rewrite Z.div_add by lia. lia.
  - apply Z.leb_gt in E2. rewrite Z.div_small by lia. done.
Qed.

Lemma run_pass_spec now ts w :
  let '(ts', w', work) := run_pass now ts w in
  ts' = map (λ e, (e.1, advance_timer now e.2)) ts ∧
  w' = foldl (λ w e, if is_due now e.2 then tm_cb e.2 w else w) w ts ∧
  work = existsb (λ e, is_due now e.2) ts.
Proof.
  revert w. induction ts as [|[k t] ts IH]; intros w; simpl; [done|].
  specialize (IH (if is_due now t then tm_cb t w else w)).
  destruct (run_pass now ts _) as [[ts' w'] work]. destruct IH as (-> & -> & ->). done.
Qed.

(** What the loop leaves of a timer. *)
Definition settled (now : Z) (t : timer) : timer := {|
  tm_id := tm_id t; tm_cb := tm_cb t; tm_intervalMs := tm_intervalMs t;
  tm_nextRunAtMs := tm_nextRunAtMs t + due_count now t * tm_intervalMs t |}.

Lemma settled_advance now t : 1 <= tm_intervalMs t →
  settled now (advance_timer now t) = settled now t.
Proof.
  intros Hi. unfold settled. rewrite due_count_advance by done.
  unfold advance_timer. destruct (is_due now t) eqn:E; simpl.
  - f_equal. lia.
  - unfold due_count. by rewrite E.
Qed.

Lemma settled_not_due now t : 1 <= tm_intervalMs t → is_due now (settled now t) = false.
Proof.
  intros Hi. unfold is_due, settled, due_count; simpl.
  destruct (is_due now t) eqn:E; unfold is_due in E; apply Z.leb_gt.
  - apply Z.leb_le in E.
    pose proof (Z.mod_pos_bound (now - tm_nextRunAtMs t) (tm_intervalMs t)).
    pose proof (Z.div_mod (now - tm_nextRunAtMs t) (tm_intervalMs t)). nia.
  - zlia.
Qed.

Lemma settled_id now t : is_due now t = false → settled now t = t.
Proof.
  intros E. unfold settled, due_count. rewrite E. destruct t; simpl. f_equal. lia.
Qed.

Lemma map_keys_map {V V'} (f : Z * V → V') (l : list (Z * V)) :
  map_keys (map (λ e, (e.1, f e)) l) = map_keys l.
Proof. unfold map_keys. induction l as [|e l IH]; simpl; [done|]. by f_equal. Qed.

Lemma positive_advance now ts :
  positive_timers ts → positive_timers (map (λ e, (e.1, advance_timer now e.2)) ts).
Proof.
  unfold positive_timers. rewrite Forall_map. intros Hp. eapply Forall_impl; [exact Hp|].
  intros [k t] Ht; simpl in *. unfold advance_timer. by destruct (is_due now t).
Qed.

Lemma due_count_pos now t : 1 <= tm_intervalMs t → is_due now t = true → 1 <= due_count now t.
Proof.
  intros Hi E. unfold due_count. rewrite E. unfold is_due in E. apply Z.leb_le in E.
  pose proof (Z.div_pos (now - tm_nextRunAtMs t) (tm_intervalMs t)). lia.
Qed.

Lemma settled_advance_all now ts : positive_timers ts →
  map (λ e, (e.1, settled now e.2)) (map (λ e, (e.1, advance_timer now e.2)) ts) =
  map (λ e, (e.1, settled now e.2)) ts.
Proof.
  intros Hp. rewrite map_map. apply map_ext_in. intros [k t] Hin%list_elem_of_In; simpl. f_equal.
  apply settled_advance. unfold positive_timers in Hp. rewrite Forall_forall in Hp. apply (Hp _ Hin).
Qed.

(** With more passes than any timer has runs, the loop ends with every timer
    settled, and what every pass preserves holds at the end. *)
Lemma run_loop_settles (I : list (Z * timer) → W → Prop) fuel now ts w :
  (∀ ts w, positive_timers ts → I ts w →
     I (map (λ e, (e.1, advance_timer now e.2)) ts)
       (foldl (λ w e, if is_due now e.2 then tm_cb e.2 w else w) w ts)) →
  positive_timers ts →
  Forall (λ e, due_count now e.2 < Z.of_nat fuel) ts → (0 < fuel)%nat → I ts w →
  ∃ w', run_loop fuel now ts w = Some (map (λ e, (e.1, settled now e.2)) ts, w') ∧
        I (map (λ e, (e.1, settled now e.2)) ts) w'.
Proof.
  intros HI. revert ts w. induction fuel as [|fuel IH]; intros ts w Hp Hf H0 Hw; [lia|]. simpl.
  pose proof (run_pass_spec now ts w) as Hs.
  destruct (run_pass now ts w) as [[ts' w'] work]. destruct Hs as (-> & -> & ->).
  pose proof (HI ts w Hp Hw) as Hw'.
  destruct (existsb _ ts) eqn:Ework.
  - edestruct (λ H1 H2, IH _ _ (positive_advance now ts Hp) H1 H2 Hw') as (w'' & Hr & Hi).
    + rewrite Forall_map. unfold positive_timers in Hp. rewrite Forall_forall in Hp, Hf |- *.
      apply existsb_elem in Ework as ([k' t'] & Hin' & Hd).
      pose proof (due_count_pos now t' (Hp _ Hin') Hd). pose proof (Hf _ Hin'). simpl in *.
      intros [k t] Hin. specialize (Hp _ Hin). specialize (Hf _ Hin). simpl in *.
      rewrite due_count_advance by done. destruct (is_due now t); lia.
    + apply existsb_elem in Ework as ([k' t'] & Hin' & Hd).
      unfold positive_timers in Hp. rewrite Forall_forall in Hp, Hf.
      pose proof (due_count_pos now t' (Hp _ Hin') Hd). pose proof (Hf _ Hin'). simpl in *. lia.
    + exists w''. by rewrite <-(settled_advance_all now ts Hp).
  - assert (∀ f : timer → timer, (∀ t, is_due now t = false → f t = t) →
      map (λ e : Z * timer, (e.1, f e.2)) ts = ts) as Hid.
    { intros f Hf'. rewrite existsb_none in Ework.
      rewrite <-(map_id ts) at 2. apply map_ext_in. intros [k t] Hin%list_elem_of_In; simpl.
      by rewrite Hf' by apply (Ework _ Hin). }
    rewrite (Hid _ (settled_id now)).
    rewrite (Hid (advance_timer now)) in Hw' |- * by (intros t E; unfold advance_timer; by rewrite E).
    eauto.
Qed.

Lemma loop_fuel_enough now ts :
  Forall (λ e, due_count now e.2 < Z.of_nat (loop_fuel now ts)) ts.
Proof.
  unfold loop_fuel. induction ts as [|e ts IH]; constructor; simpl; [lia|].
  eapply Forall_impl; [exact IH|]. simpl. intros; lia.
Qed.

Definition settled_timers (now : Z) (ts : list (Z * timer)) : list (Z * timer) :=
  map (λ e, (e.1, settled now e.2)) ts.

Lemma runDueTimers_settles (I : list (Z * timer) → W → Prop) c w :
  (∀ ts w, positive_timers ts → I ts w →
     I (map (λ e, (e.1, advance_timer (mc_nowMs c) e.2)) ts)
       (foldl (λ w e, if is_due (mc_nowMs c) e.2 then tm_cb e.2 w else w) w ts)) →
  positive_timers (mc_timers c) → I (mc_timers c) w →
  ∃ w', runDueTimers c w = Some ({| mc_nowMs := mc_nowMs c; mc_nextId := mc_nextId c;
           mc_timers := settled_timers (mc_nowMs c) (mc_timers c) |}, w') ∧
        I (settled_timers (mc_nowMs c) (mc_timers c)) w'.
Proof.
  intros HI Hp Hw. unfold runDueTimers.
  destruct (run_loop_settles I _ _ _ w HI Hp (loop_fuel_enough (mc_nowMs c) (mc_timers c)))
    as (w' & -> & Hi); eauto. unfold loop_fuel. lia.
Qed.

Lemma wf_positive c : wf_clock c → positive_timers (mc_timers c).
Proof. intros [H _ _]. eapply Forall_impl; [exact H|]. by intros e (_ & _ & ?). Qed.

Lemma settled_wf c n : wf_clock c →
  wf_clock {| mc_nowMs := n; mc_nextId := mc_nextId c; mc_timers := settled_timers n (mc_timers c) |}.
Proof.
  intros [Hk Hn _]. split; unfold settled_timers; simpl.
  - rewrite Forall_map. eapply Forall_impl; [exact Hk|]. done.
  - by rewrite map_keys_map.
  - rewrite Forall_map. eapply Forall_impl; [exact Hk|]. intros e (_ & _ & He). by apply settled_not_due.
Qed.

(** The operations on the timer table keep the invariant. *)
Lemma new_clock_wf : wf_clock new_clock.
Proof. split; [constructor|apply NoDup_nil_2|constructor]. Qed.

Lemma setInterval_wf c cb i : wf_clock c →
  let '(c', id) := setInterval c cb i in
  wf_clock c' ∧ map_get (mc_timers c) id = None ∧
  ∃ t, map_get (mc_timers c') id = Some t ∧
    tm_intervalMs t = Z.max 1 (Qfloor i) ∧ tm_nextRunAtMs t = mc_nowMs c + tm_intervalMs t.
Proof.
  intros [Hk Hn Hi]. unfold setInterval. split; [split|split].
  - simpl. apply Forall_forall. intros [k t] Hin. apply map_set_elem in Hin; [|done].
    rewrite Forall_forall in Hk. destruct Hin as [[-> ->]|[_ Hin]]; simpl; [lia|].
    destruct (Hk _ Hin) as (? & ? & ?). simpl in *. lia.
  - by apply map_set_NoDup.
  - simpl. apply Forall_forall. intros [k t] Hin. apply map_set_elem in Hin; [|done].
    rewrite Forall_forall in Hi. destruct Hin as [[-> ->]|[_ Hin]]; [|apply (Hi _ Hin)].
    unfold is_due; simpl. apply Z.leb_gt. lia.
  - apply map_get_none. intros Hin. unfold map_keys in Hin.
    apply list_elem_of_fmap in Hin as ([k t] & E & Hin). rewrite Forall_forall in Hk.
    destruct (Hk _ Hin) as (? & ? & ?). simpl in *. lia.
  - eexists. simpl. rewrite map_get_set_eq. done.
Qed.

Lemma clearInterval_wf c id : wf_clock c → wf_clock (clearInterval c id).
Proof.
  intros [Hk Hn Hi]. destruct id as [id|]; [|done]. split; simpl.
  - by apply map_delete_Forall.
  - by apply map_delete_NoDup.
  - by apply map_delete_Forall.
Qed.

Lemma reset_wf c n : wf_clock c → wf_clock (reset c n).
Proof. intros _. split; [constructor|apply NoDup_nil_2|constructor]. Qed.

(** Time moves forward only, and a target at or before [now] does nothing. *)
Definition target_time (c : ManualQosClock) (targetMs : Q) : Z :=
  if Qle_bool targetMs (inject_Z (mc_nowMs c)) then mc_nowMs c else Qfloor targetMs.

Lemma target_time_mono c q : mc_nowMs c <= target_time c q.
Proof.
  unfold target_time. destruct (Qle_bool _ _) eqn:E; [lia|].
  assert (inject_Z (mc_nowMs c) <= q)%Q as H.
  { apply Qlt_le_weak, Qnot_le_lt. intros H%Qle_bool_iff. congruence. }
  apply Qfloor_resp_le in H. by rewrite Qfloor_Z in H.
Qed.
End clock.

Arguments timer : clear implicits.
Arguments ManualQosClock : clear implicits.

(** ** Firing

    With callbacks that log their timer's id, the loop's effect is visible. *)

Definition logs (t : timer (list Z)) : Prop := ∀ w, tm_cb t w = w ++ [tm_id t].

Definition logging (c : ManualQosClock (list Z)) : Prop := Forall (λ e, logs e.2) (mc_timers c).

Definition fired (now : Z) (ts : list (Z * timer (list Z))) : list Z :=
  flat_map (λ e, if is_due now e.2 then [e.1] else []) ts.

Lemma pass_fired now ts w :
  Forall (λ e, logs e.2 ∧ tm_id e.2 = e.1) ts →
  foldl (λ w e, if is_due now e.2 then tm_cb e.2 w else w) w ts = w ++ fired now ts.
Proof.
  intros H. revert w. induction H as [|[k t] ts [Hl Hk] _ IH]; intros w; simpl.
  - by rewrite app_nil_r.
  - simpl in *. rewrite IH. destruct (is_due now t); [|done]. by rewrite Hl, Hk, <-(assoc_L (++)).
Qed.

Lemma count_fired now ts k t :
  NoDup (map_keys ts) → (k, t) ∈ ts →
  count_occ Z.eq_dec (fired now ts) k = if is_due now t then 1%nat else 0%nat.
Proof.
  unfold map_keys. intros Hnd Hin. induction ts as [|[k' t'] ts IH]; [by apply not_elem_of_nil in Hin|].
  simpl in *. apply NoDup_cons in Hnd as [Hk Hnd]. rewrite count_occ_app.
  apply elem_of_cons in Hin as [[= <- <-]|Hin].
  - assert (count_occ Z.eq_dec (fired now ts) k = 0%nat) as ->.
    { apply count_occ_not_In. intros Hf%list_elem_of_In. apply Hk. unfold fired in Hf.
      apply list_elem_of_In, in_flat_map in Hf as ([k2 t2] & Hin2 & Hf). simpl in Hf.
      destruct (is_due now t2); [|done]. destruct Hf as [<-|[]].
      apply list_elem_of_fmap. exists (k2, t2). split; [done|by apply list_elem_of_In]. }
    destruct (is_due now t); simpl; [|done]. by destruct (Z.eq_dec k k).
  - rewrite (IH Hnd Hin).
    assert (k' ≠ k) by (intros ->; apply Hk, list_elem_of_fmap; by exists (k, t)).
    destruct (is_due now t'); simpl; [|done]. by destruct (Z.eq_dec k' k).
Qed.

(** What the passes so far fired and what is still due add up. *)
Definition fired_so_far (now : Z) (ts0 : list (Z * timer (list Z))) (w0 : list Z)
    (ts : list (Z * timer (list Z))) (w : list Z) : Prop :=
  Forall (λ e, logs e.2 ∧ tm_id e.2 = e.1) ts ∧ NoDup (map_keys ts) ∧
  ∃ f, w = w0 ++ f ∧
    Forall2 (λ e0 e, e.1 = e0.1 ∧
      Z.of_nat (count_occ Z.eq_dec f e0.1) + due_count now e.2 = due_count now e0.2) ts0 ts.

Lemma fired_so_far_pass now ts0 w0 ts w :
  positive_timers ts → fired_so_far now ts0 w0 ts w →
  fired_so_far now ts0 w0 (map (λ e, (e.1, advance_timer now e.2)) ts)
    (foldl (λ w e, if is_due now e.2 then tm_cb e.2 w else w) w ts).
Proof.
  intros Hp (Hl & Hnd & f & -> & Hf). split_and!.
  - rewrite Forall_map. eapply Forall_impl; [exact Hl|]. intros [k t] [H1 H2]; simpl in *.
    unfold advance_timer, logs in *. by destruct (is_due now t).
  - by rewrite map_keys_map.
  - exists (f ++ fired now ts). rewrite pass_fired by done. split; [by rewrite (assoc_L (++))|].
    rewrite map_fmap, Forall2_fmap_r.
    assert (∀ e, e ∈ ts → count_occ Z.eq_dec (fired now ts) e.1 = (if is_due now e.2 then 1 else 0)%nat) as Hc.
    { intros [k t] Hin. by apply count_fired with (t := t). }
    clear Hl Hnd. revert Hc. generalize (fired now ts) as g. intros g Hc. unfold positive_timers in Hp.
    induction Hf as [|e0 e ts0 ts [Hk He] Hf IH]; constructor.
    + simpl. split; [done|]. apply Forall_cons in Hp as [Hp _]. rewrite count_occ_app, due_count_advance by done.
      rewrite <-Hk in *. rewrite Hc by left. unfold due_count in He |- *.
      destruct (is_due now e.2); lia.
    + apply IH; [by apply Forall_cons in Hp as [_ ?]|]. intros; apply Hc; by right.
Qed.

Lemma runDueTimers_fires c n w : wf_clock c → logging c →
  ∃ f, runDueTimers (at_time c n) w = Some ({| mc_nowMs := n; mc_nextId := mc_nextId c;
      mc_timers := settled_timers n (mc_timers c) |}, w ++ f) ∧
    Forall (λ e, Z.of_nat (count_occ Z.eq_dec f e.1) = due_count n e.2) (mc_timers c).
Proof.
  intros Hwf Hl. pose proof (wf_positive c Hwf) as Hp.
  destruct (runDueTimers_settles (fired_so_far n (mc_timers c) w) (at_time c n) w)
    as (w' & Hr & _ & _ & f & -> & Hf).
  - intros; by apply fired_so_far_pass.
  - done.
  - split_and!; [|apply Hwf|].
    + pose proof (wfc_keys c Hwf) as Hk. unfold logging in Hl. rewrite Forall_forall in Hk, Hl |- *.
      intros e He. split; [by apply Hl|]. apply (Hk _ He).
    + exists []. rewrite app_nil_r. split; [done|].
      apply Forall_Forall2_diag, Forall_true. intros e. simpl. lia.
  - exists f. split; [exact Hr|]. simpl in Hf. unfold settled_timers in Hf.
    rewrite map_fmap, Forall2_fmap_r in Hf.
    unfold positive_timers in Hp. clear -Hf Hp. revert Hf Hp. generalize (mc_timers c) as ts. intros ts Hf Hp.
    apply Forall_forall. intros e He. rewrite Forall_forall in Hp. specialize (Hp _ He).
    apply list_elem_of_lookup in He as [i Hi].
    destruct (Forall2_lookup_lr _ _ _ _ _ _ Hf Hi Hi) as [_ He]. cbn [fst snd] in He.
    pose proof (settled_not_due n e.2 Hp) as Hs. unfold due_count at 1 in He. rewrite Hs in He. lia.
Qed.

(** C32: moving a clock to a target time terminates and fires every registered
    timer exactly as often as its interval has elapsed since its next run time;
    afterwards no timer is due, time has not gone backwards, and the timer
    table keeps its invariant. *)
Theorem advanceTo_fires_all (c : ManualQosClock (list Z)) targetMs w :
  wf_clock c → logging c →
  ∃ c' f, advanceTo c targetMs w = Some (c', w ++ f) ∧
    mc_nowMs c' = target_time c targetMs ∧ mc_nowMs c <= mc_nowMs c' ∧ wf_clock c' ∧
    Forall (λ e, Z.of_nat (count_occ Z.eq_dec f e.1) = due_count (mc_nowMs c') e.2) (mc_timers c).
Proof.
  intros Hwf Hl. pose proof (target_time_mono c targetMs) as Hmono.
  unfold advanceTo, target_time in *. destruct (Qle_bool _ _).
  - exists c, []. rewrite app_nil_r. split_and!; try done.
    eapply Forall_impl; [apply (wfc_idle c Hwf)|]. intros e He. unfold due_count. by rewrite He.
  - destruct (runDueTimers_fires c (Qfloor targetMs) w Hwf Hl) as (f & Hr & Hf).
    eexists _, f. split; [exact Hr|]. split_and!; try done. by apply settled_wf.
Qed.

Lemma advanceTo_fires_all_witness : ∃ c' f,
  advanceTo (setInterval (setInterval new_clock (λ w, w ++ [1]) 100).1 (λ w, w ++ [2]) 250).1 1000 [] = Some (c', [] ++ f) ∧
  count_occ Z.eq_dec f 1 = 10%nat ∧ count_occ Z.eq_dec f 2 = 4%nat.
Proof.
  destruct (advanceTo_fires_all (setInterval (setInterval new_clock (λ w, w ++ [1]) 100).1 (λ w, w ++ [2]) 250).1 1000 [])
    as (c' & f & Ha & Hn & _ & _ & Hf).
  - pose proof (setInterval_wf new_clock (λ w, w ++ [1]) 100 new_clock_wf) as [H1 _].
    by pose proof (setInterval_wf _ (λ w, w ++ [2]) 250 H1) as [H2 _].
  - repeat constructor.
  - exists c', f. split; [exact Ha|]. rewrite Hn in Hf.
    apply Forall_cons in Hf as [H1 Hf]. apply Forall_cons in Hf as [H2 _].
    split; apply Nat2Z.inj; [refine (eq_trans H1 _) | refine (eq_trans H2 _)]; vm_compute; reflexivity.
Defined.
