(* ===== verification/Sampler.v ===== *)
(** * The interval sampler (src/client/lib/qos/sampler.js)

    [IntervalQosSampler] against the clock interface it is given.  A timer
    callback starts an asynchronous tick whose two awaits suspend it; ticks,
    application calls and timer callbacks interleave, so the sampler and its
    suspended ticks form a transition system. *)

From Stdlib Require Import QArith Qround.
From S2P Require Import Prelude JsNum JsVal QosTypes Clock.
Local Open Scope string_scope.
Local Open Scope list_scope.
Local Open Scope Z_scope.

(** ** What the sampler needs of a clock

    [clk_timer c id] is the callback registered under [id] and its period. *)
Class QosClock (C CB : Type) := {
  clk_setInterval : C → CB → Z → C * Z;
  clk_clearInterval : C → Z → C;
  clk_timer : C → Z → option (CB * Z);
  clk_period : Z → Z;
  clk_ok : C → Prop;
  clk_set_ok : ∀ c cb i, clk_ok c → clk_ok (clk_setInterval c cb i).1;
  clk_clear_ok : ∀ c id, clk_ok c → clk_ok (clk_clearInterval c id);
  clk_set_fresh : ∀ c cb i, clk_ok c → clk_timer c (clk_setInterval c cb i).2 = None;
  clk_set_timer : ∀ c cb i id, clk_ok c →
    clk_timer (clk_setInterval c cb i).1 id =
    if decide (id = (clk_setInterval c cb i).2) then Some (cb, clk_period i) else clk_timer c id;
  clk_clear_timer : ∀ c id id', clk_ok c →
    clk_timer (clk_clearInterval c id) id' = if decide (id' = id) then None else clk_timer c id';
}.

(** The deterministic clock implements the interface. *)
Definition mc_timer {W} (c : ManualQosClock W) (id : Z) : option ((W → W) * Z) :=
  (λ t, (tm_cb t, tm_intervalMs t)) <$> map_get (mc_timers c) id.

#[export, refine] Instance manual_clock {W} : QosClock (ManualQosClock W) (W → W) := {|
  clk_setInterval c cb i := setInterval c cb (inject_Z i);
  clk_clearInterval c id := clearInterval c (Some id);
  clk_timer := mc_timer;
  clk_period i := Z.max 1 i;
  clk_ok := wf_clock |}.
Proof.
  - intros c cb i H. by destruct (setInterval_wf c cb (inject_Z i) H).
  - intros c id H. by apply clearInterval_wf.
  - intros c cb i H. destruct (setInterval_wf c cb (inject_Z i) H) as (_ & Hn & _).
    unfold mc_timer. simpl in *. by rewrite Hn.
  - intros c cb i id H. unfold mc_timer. simpl. case_decide as Hid.
    + subst. rewrite map_get_set_eq. simpl. by rewrite Z.div_1_r.
    + by rewrite map_get_set_ne.
  - intros c id id' H. unfold mc_timer. simpl. case_decide as Hid.
    + subst. by rewrite map_get_delete_eq.
    + by rewrite map_get_delete_ne.
Defined.

Section sampler.
(** The handlers ([OnSample], [OnError]), the snapshots, the clock, and the
    function [() => { void this.runTick(onSample, onError); }] it is given. *)
Context {OnSample OnError Snapshot C CB : Type} `{!QosClock C CB}.
Context (closure : OnSample * option OnError → CB).

Definition handlers : Type := OnSample * option OnError.

Record IntervalQosSampler := {
  sp_clock : C;
  sp_intervalMs : Z;
  sp_running : bool;
  sp_sampling : bool;
  sp_onSample : option OnSample;
  sp_onError : option OnError;
  sp_intervalId : option Z;
}.

Definition INTERVAL_ERROR : string := "intervalMs must be a positive finite number".

Definition bad_interval (intervalMs : num) : bool :=
  negb (is_finite intervalMs) || num_leb intervalMs num0.

Definition new_sampler (clock : C) (intervalMs : num) : outcome IntervalQosSampler :=
  if bad_interval intervalMs then Throw INTERVAL_ERROR
  else Ok {| sp_clock := clock; sp_intervalMs := floor_Z intervalMs; sp_running := false;
             sp_sampling := false; sp_onSample := None; sp_onError := None; sp_intervalId := None |}.

Definition start (s : IntervalQosSampler) (onSample : OnSample) (onError : option OnError) : IntervalQosSampler :=
  if sp_running s then s
  else
    let '(clock, id) := clk_setInterval (sp_clock s) (closure (onSample, onError)) (sp_intervalMs s) in
    {| sp_clock := clock; sp_intervalMs := sp_intervalMs s; sp_running := true;
       sp_sampling := sp_sampling s; sp_onSample := Some onSample; sp_onError := onError;
       sp_intervalId := Some id |}.

Definition stop (s : IntervalQosSampler) : IntervalQosSampler :=
  if sp_running s
  then {| sp_clock := match sp_intervalId s with
                      | Some id => clk_clearInterval (sp_clock s) id
                      | None => sp_clock s
                      end;
          sp_intervalMs := sp_intervalMs s; sp_running := false; sp_sampling := sp_sampling s;
          sp_onSample := sp_onSample s; sp_onError := sp_onError s; sp_intervalId := None |}
  else s.

Definition set_interval (s : IntervalQosSampler) (i : Z) : IntervalQosSampler :=
  {| sp_clock := sp_clock s; sp_intervalMs := i; sp_running := sp_running s;
     sp_sampling := sp_sampling s; sp_onSample := sp_onSample s; sp_onError := sp_onError s;
     sp_intervalId := sp_intervalId s |}.

Definition updateIntervalMs (s : IntervalQosSampler) (intervalMs : num) : outcome IntervalQosSampler :=
  if bad_interval intervalMs then Throw INTERVAL_ERROR
  else
    let nextIntervalMs := floor_Z intervalMs in
    if nextIntervalMs =? sp_intervalMs s then Ok s
    else
      let s := set_interval s nextIntervalMs in
      if sp_running s then
        let s := stop s in
        match sp_onSample s with
        | Some h => Ok (start s h (sp_onError s))
        | None => Ok s
        end
      else Ok s.

(** ** Ticks *)

(** Where a suspended [runTick] waits. *)
Inductive tick :=
| AwaitSnapshot (h : handlers)
| AwaitOnSample (h : handlers).

(** Calls that leave the sampler. *)
Inductive call :=
| CallGetSnapshot
| CallOnSample (f : OnSample) (snapshot : Snapshot)
| CallOnError (f : OnError) (msg : string).

Definition set_sampling (s : IntervalQosSampler) (b : bool) : IntervalQosSampler :=
  {| sp_clock := sp_clock s; sp_intervalMs := sp_intervalMs s; sp_running := sp_running s;
     sp_sampling := b; sp_onSample := sp_onSample s; sp_onError := sp_onError s;
     sp_intervalId := sp_intervalId s |}.

(** Up to the first [await]. *)
Definition runTick (s : IntervalQosSampler) (h : handlers) : IntervalQosSampler * option tick * list call :=
  if sp_sampling s then (s, None, [])
  else (set_sampling s true, Some (AwaitSnapshot h), [CallGetSnapshot]).

Definition report (h : handlers) (msg : string) : list call :=
  match h.2 with Some f => [CallOnError f msg] | None => [] end.

(** The snapshot promise settles: the handler is called, or the error reported
    and the tick ends. *)
Definition resume_snapshot (s : IntervalQosSampler) (h : handlers) (r : outcome Snapshot)
    : IntervalQosSampler * option tick * list call :=
  match r with
  | Ok snapshot => (s, Some (AwaitOnSample h), [CallOnSample h.1 snapshot])
  | Throw msg => (set_sampling s false, None, report h msg)
  end.

(** The handler's promise settles; [finally] clears the flag. *)
Definition resume_onSample (s : IntervalQosSampler) (h : handlers) (r : outcome unit)
    : IntervalQosSampler * option tick * list call :=
  (set_sampling s false, None, match r with Ok _ => [] | Throw msg => report h msg end).

(** ** The transition system *)

Record system := {
  sy_sampler : IntervalQosSampler;
  sy_ticks : list tick;
  sy_calls : list call;
}.

(** The rest of a step once the sampler's part is computed: the other ticks
    stay, the continuing one is put back, the calls are logged. *)
Definition settle (rest : list tick) (calls : list call)
    (r : IntervalQosSampler * option tick * list call) : system :=
  let '(s, t, cs) := r in
  {| sy_sampler := s; sy_ticks := option_list t ++ rest; sy_calls := calls ++ cs |}.

Inductive step : system → system → Prop :=
| step_start s ts cs f e :
    step {| sy_sampler := s; sy_ticks := ts; sy_calls := cs |}
         {| sy_sampler := start s f e; sy_ticks := ts; sy_calls := cs |}
| step_stop s ts cs :
    step {| sy_sampler := s; sy_ticks := ts; sy_calls := cs |}
         {| sy_sampler := stop s; sy_ticks := ts; sy_calls := cs |}
| step_update s s' ts cs i :
    updateIntervalMs s i = Ok s' →
    step {| sy_sampler := s; sy_ticks := ts; sy_calls := cs |}
         {| sy_sampler := s'; sy_ticks := ts; sy_calls := cs |}
| step_timer s ts cs id h p :
    clk_timer (sp_clock s) id = Some (closure h, p) → sp_intervalId s = Some id →
    step {| sy_sampler := s; sy_ticks := ts; sy_calls := cs |} (settle ts cs (runTick s h))
| step_snapshot s ts1 ts2 cs h r :
    step {| sy_sampler := s; sy_ticks := ts1 ++ AwaitSnapshot h :: ts2; sy_calls := cs |}
         (settle (ts1 ++ ts2) cs (resume_snapshot s h r))
| step_sampled s ts1 ts2 cs h r :
    step {| sy_sampler := s; sy_ticks := ts1 ++ AwaitOnSample h :: ts2; sy_calls := cs |}
         (settle (ts1 ++ ts2) cs (resume_onSample s h r)).

Definition initial (s : IntervalQosSampler) : system :=
  {| sy_sampler := s; sy_ticks := []; sy_calls := [] |}.

(** The sampler has registered exactly one timer while running and none
    otherwise, on a clock that held [base] before. *)
Record owns_timer (base : Z → option (CB * Z)) (s : IntervalQosSampler) : Prop := {
  ow_ok : clk_ok (sp_clock s);
  ow_running : sp_running s = true → is_Some (sp_intervalId s) ∧ is_Some (sp_onSample s);
  ow_stopped : sp_running s = false → sp_intervalId s = None;
  ow_fresh : ∀ id, sp_intervalId s = Some id → base id = None;
  ow_timers : ∀ id, clk_timer (sp_clock s) id =
    match sp_intervalId s, sp_onSample s with
    | Some id', Some f => if decide (id = id') then Some (closure (f, sp_onError s), clk_period (sp_intervalMs s)) else base id
    | _, _ => base id
    end;
}.

(** At most one tick is suspended, and the flag says whether one is. *)
Definition one_tick (y : system) : Prop :=
  length (sy_ticks y) = if sp_sampling (sy_sampler y) then 1%nat else 0%nat.

Lemma new_sampler_owns c i s : clk_ok c → new_sampler c i = Ok s → owns_timer (clk_timer c) s.
Proof.
  unfold new_sampler. intros Hc Hs. destruct (bad_interval i); [done|].
  injection Hs as <-. split; simpl; by intros.
Qed.

Lemma stop_owns base s : owns_timer base s → owns_timer base (stop s) ∧ sp_intervalId (stop s) = None.
Proof.
  intros [Hok Hr Hs Hf Ht]. unfold stop. destruct (sp_running s) eqn:Er; [|split; [split; [done|by rewrite Er|auto..]|by apply Hs]].
  destruct Hr as [[id Eid] [f Ef]]; [done|]. split; [|done]. rewrite Eid, Ef in *.
  split; simpl; try by intros.
  - by apply clk_clear_ok.
  - intros id'. rewrite clk_clear_timer, Ht by done. case_decide; [|done].
    subst. symmetry. by apply Hf.
Qed.

(** A stopped sampler may be given another interval. *)
Lemma set_interval_owns base s i : sp_intervalId s = None →
  owns_timer base s → owns_timer base (set_interval s i).
Proof. intros E [Hok Hr Hs Hf Ht]. split; simpl; try done. intros id. rewrite Ht, E. done. Qed.

Lemma start_owns base s f e : owns_timer base s → owns_timer base (start s f e).
Proof.
  intros [Hok Hr Hs Hf Ht]. unfold start. destruct (sp_running s) eqn:Er; [split; [done|by auto|by rewrite Er|done..]|].
  rewrite Hs in * by done.
  destruct (clk_setInterval (sp_clock s) (closure (f, e)) (sp_intervalMs s)) as [c id] eqn:Ec.
  pose proof (clk_set_ok (sp_clock s) (closure (f, e)) (sp_intervalMs s) Hok) as H1.
  pose proof (clk_set_fresh (sp_clock s) (closure (f, e)) (sp_intervalMs s) Hok) as H2.
  pose proof (λ id, clk_set_timer (sp_clock s) (closure (f, e)) (sp_intervalMs s) id Hok) as H3.
  rewrite Ec in H1, H2, H3; simpl in *. split; simpl; try done.
  - intros id' [= <-]. by rewrite <-H2, Ht.
  - intros id'. rewrite H3. case_decide; [done|]. by rewrite Ht.
Qed.

(** Stopping and changing the interval of a running sampler, in this order or
    the other. *)
Lemma stop_set_interval s i : stop (set_interval s i) = set_interval (stop s) i.
Proof. destruct s as [c i0 r sm f e id]. by destruct r. Qed.

Lemma updateIntervalMs_owns base s i s' :
  owns_timer base s → updateIntervalMs s i = Ok s' → owns_timer base s'.
Proof.
  intros Hs. unfold updateIntervalMs. destruct (bad_interval i); [done|].
  destruct (_ =? _); [by intros [= <-]|]. rewrite stop_set_interval.
  destruct (stop_owns base s Hs) as [H1 H2].
  pose proof (set_interval_owns base (stop s) (floor_Z i) H2 H1) as H3.
  simpl. destruct (sp_running s) eqn:Er.
  - destruct (sp_onSample _); intros [= <-]; [by apply start_owns|done].
  - intros [= <-]. apply set_interval_owns; [|done]. by apply (ow_stopped _ _ Hs).
Qed.

Lemma set_sampling_owns base s b : owns_timer base s → owns_timer base (set_sampling s b).
Proof. by intros []; split. Qed.

Lemma start_sampling s f e : sp_sampling (start s f e) = sp_sampling s.
Proof. unfold start. destruct (sp_running s); [done|]. by destruct (clk_setInterval _ _ _). Qed.

Lemma stop_sampling s : sp_sampling (stop s) = sp_sampling s.
Proof. unfold stop. by destruct (sp_running s). Qed.

Lemma update_sampling s i s' : updateIntervalMs s i = Ok s' → sp_sampling s' = sp_sampling s.
Proof.
  unfold updateIntervalMs. repeat split_match; intros; simplify_eq; try done.
  all: by rewrite ?start_sampling, ?stop_sampling.
Qed.

Lemma step_invariant base y y' : step y y' →
  owns_timer base (sy_sampler y) → one_tick y → owns_timer base (sy_sampler y') ∧ one_tick y'.
Proof.
  unfold one_tick.
  destruct 1 as [s ts cs f e|s ts cs|s s' ts cs i Hu|s ts cs id h p Ht Hid|s ts1 ts2 cs h r|s ts1 ts2 cs h r];
    simpl; intros Ho Hl.
  - rewrite start_sampling. split; [by apply start_owns|done].
  - rewrite stop_sampling. split; [by apply stop_owns|done].
  - rewrite (update_sampling _ _ _ Hu). split; [by eapply updateIntervalMs_owns|done].
  - unfold runTick, settle. destruct (sp_sampling s) eqn:E; simpl; [by rewrite E|].
    split; [by apply set_sampling_owns|lia].
  - rewrite length_app in Hl. simpl in Hl. destruct (sp_sampling s) eqn:E; [|lia].
    destruct r; unfold settle; simpl; rewrite ?E, length_app; (split; [|lia]);
      [done|by apply set_sampling_owns].
  - rewrite length_app in Hl. simpl in Hl. destruct (sp_sampling s) eqn:E; [|lia].
    unfold settle; simpl; rewrite length_app; split; [by apply set_sampling_owns|lia].
Qed.

Lemma reach_invariant base y y' : rtc step y y' →
  owns_timer base (sy_sampler y) → one_tick y → owns_timer base (sy_sampler y') ∧ one_tick y'.
Proof.
  induction 1 as [|y y1 y' Hs _ IH]; intros Ho Ht; [done|].
  destruct (step_invariant base y y1 Hs Ho Ht). eauto.
Qed.

(** C31: whatever order starts, stops, interval changes, timer callbacks and
    promise results come in, the sampler never has two samples in flight, and
    it holds exactly one timer of its current interval while running and none
    when stopped, leaving the clock's other timers alone. *)
Theorem sampler_invariant clock i s y :
  clk_ok clock → new_sampler clock i = Ok s → rtc step (initial s) y →
  one_tick y ∧ owns_timer (clk_timer clock) (sy_sampler y).
Proof.
  intros Hc Hn Hr. destruct (reach_invariant (clk_timer clock) _ _ Hr); [| |done].
  - by eapply new_sampler_owns.
  - unfold new_sampler in Hn. destruct (bad_interval i); [done|]. by injection Hn as <-.
Qed.
End sampler.

(** On the deterministic clock, with callbacks that log a tick: a sampler that
    was started, ticked and had its interval halved while the snapshot is
    pending. *)
Definition demo_sampler : outcome (IntervalQosSampler (OnSample := Z) (OnError := unit)
    (C := ManualQosClock (list Z))) := new_sampler new_clock (num_of_Z 1000).

Lemma sampler_invariant_witness :
  ∃ s s1 y, demo_sampler = Ok s ∧
    updateIntervalMs (λ h w, w ++ [h.1]) (start (λ h w, w ++ [h.1]) s 7 None) (num_of_Z 500) = Ok s1 ∧
    y = {| sy_sampler := set_sampling s1 true; sy_ticks := [AwaitSnapshot (7, None)];
           sy_calls := [CallGetSnapshot (Snapshot := unit)] |} ∧
    one_tick y ∧ owns_timer (λ h w, w ++ [h.1]) (clk_timer new_clock) (sy_sampler y).
Proof.
  do 3 eexists. split; [reflexivity|]. split; [reflexivity|]. split; [reflexivity|].
  eapply (sampler_invariant (λ h w, w ++ [h.1]) new_clock (num_of_Z 1000)); [apply new_clock_wf|reflexivity|].
  eapply rtc_l; [apply (step_start _ _ _ _ 7 None)|].
  eapply rtc_l; [eapply (step_update _ _ _ _ _ (num_of_Z 500)); reflexivity|].
  eapply rtc_l; [eapply (step_timer _ _ _ _ 2 (7, None)); reflexivity|]. apply rtc_refl.
Defined.
