(* ===== verification/Executor.v ===== *)
(** * The action executor (src/client/lib/qos/executor.js)

    [QosActionExecutor] sends planned actions to an injected sink and skips an
    action whose key equals that of the last one the sink applied.  The sink
    and the error callback act on a world [W].  An execution is one sequential
    run; its only await is the sink's. *)

From Stdlib Require Import QArith.
From S2P Require Import Prelude JsNum JsVal QosTypes.
Local Open Scope string_scope.
Local Open Scope list_scope.
Local Open Scope Z_scope.

(** ** Keys

    The source joins the parts with [":"]; no part contains a colon and
    [String] is injective on finite numbers, so the model keeps the parts.  A
    number is held in lowest terms, the way [String] prints equal numbers alike. *)
Inductive key_part :=
| KStr (s : string)
| KInt (z : Z)
| KNum (q : Q)
| KBool (b : bool).

#[export] Instance key_part_eq_dec : EqDecision key_part.
Proof. solve_decision. Defined.

Definition action_key : Type := list key_part.

Definition normalizeNumber (value : option num) : key_part :=
  match value with
  | Some (Fin q) => KNum (Qred q)
  | _ => KStr ""
  end.

Definition defaultQosActionKeyResolver (a : PlannedQosAction) : action_key :=
  match a with
  | SetEncodingParameters level params =>
      [KStr (action_type_str (action_type a)); KInt level;
       normalizeNumber (ep_maxBitrateBps params);
       normalizeNumber (ep_maxFramerate params);
       normalizeNumber (ep_scaleResolutionDownBy params);
       match ep_adaptivePtime params with Some b => KBool b | None => KStr "" end]
  | SetMaxSpatialLayer level spatialLayer =>
      [KStr (action_type_str (action_type a)); KInt level; KInt spatialLayer]
  | EnterAudioOnly level _ | PauseUpstream level | ResumeUpstream level
  | ExitAudioOnly level _ | Noop level _ =>
      [KStr (action_type_str (action_type a)); KInt level]
  end.

(** ** Results *)

Inductive status := Applied | SkippedNoop | SkippedIdempotent | Failed (error : string).

#[export] Instance status_eq_dec : EqDecision status.
Proof. solve_decision. Defined.

Record QosActionExecutionResult := {
  er_status : status;
  er_action : PlannedQosAction;
  er_actionKey : action_key;
}.

Definition is_failed (r : QosActionExecutionResult) : bool :=
  match er_status r with Failed _ => true | _ => false end.

Definition is_skipped (r : QosActionExecutionResult) : bool :=
  match er_status r with SkippedNoop | SkippedIdempotent => true | _ => false end.

Section executor.
Context {W : Type}.
(** [sink.execute] and the optional [onError]; either may throw. *)
Context (sink : W → PlannedQosAction → W * outcome unit).
Context (onError : option (W → string → PlannedQosAction → action_key → W * outcome unit)).

Record QosActionExecutor := {
  ex_enableIdempotence : bool;
  ex_stopOnError : bool;
  ex_keyResolver : PlannedQosAction → action_key;
  ex_lastAppliedActionKey : option action_key;
}.

Definition new_executor (enableIdempotence stopOnError : option bool)
    (keyResolver : option (PlannedQosAction → action_key)) : QosActionExecutor := {|
  ex_enableIdempotence := default true enableIdempotence;
  ex_stopOnError := default false stopOnError;
  ex_keyResolver := default defaultQosActionKeyResolver keyResolver;
  ex_lastAppliedActionKey := None |}.

Definition set_key (x : QosActionExecutor) (k : option action_key) : QosActionExecutor := {|
  ex_enableIdempotence := ex_enableIdempotence x;
  ex_stopOnError := ex_stopOnError x;
  ex_keyResolver := ex_keyResolver x;
  ex_lastAppliedActionKey := k |}.

Definition resetIdempotenceState (x : QosActionExecutor) : QosActionExecutor := set_key x None.

Definition same_key (k : action_key) (last : option action_key) : bool :=
  match last with Some l => bool_decide (k = l) | None => false end.

Definition execute (x : QosActionExecutor) (w : W) (action : PlannedQosAction)
    : QosActionExecutor * W * outcome QosActionExecutionResult :=
  let actionKey := ex_keyResolver x action in
  let result st := Ok {| er_status := st; er_action := action; er_actionKey := actionKey |} in
  if is_type TNoop action then (x, w, result SkippedNoop)
  else if ex_enableIdempotence x && same_key actionKey (ex_lastAppliedActionKey x)
  then (x, w, result SkippedIdempotent)
  else
    match sink w action with
    | (w, Ok _) => (set_key x (Some actionKey), w, result Applied)
    | (w, Throw e) =>
        match onError with
        | None => (x, w, result (Failed e))
        | Some f =>
            match f w e action actionKey with
            | (w, Ok _) => (x, w, result (Failed e))
            | (w, Throw e') => (x, w, Throw e')
            end
        end
    end.

Fixpoint executeMany (x : QosActionExecutor) (w : W) (actions : list PlannedQosAction)
    : QosActionExecutor * W * outcome (list QosActionExecutionResult) :=
  match actions with
  | [] => (x, w, Ok [])
  | action :: actions =>
      match execute x w action with
      | (x, w, Throw e) => (x, w, Throw e)
      | (x, w, Ok r) =>
          if ex_stopOnError x && is_failed r then (x, w, Ok [r])
          else
            match executeMany x w actions with
            | (x, w, Ok rs) => (x, w, Ok (r :: rs))
            | (x, w, Throw e) => (x, w, Throw e)
            end
      end
  end.

(** ** Lemmas *)

(** An error callback that returns normally and does nothing. *)
Definition quiet : Prop :=
  ∀ f, onError = Some f → ∀ w e a k, f w e a k = (w, Ok tt).

(** The configuration never changes. *)
Lemma execute_config x w a x' w' r : execute x w a = (x', w', r) →
  ex_enableIdempotence x' = ex_enableIdempotence x ∧
  ex_stopOnError x' = ex_stopOnError x ∧ ex_keyResolver x' = ex_keyResolver x.
Proof. unfold execute. intros E. repeat split_match_hyp; simplify_eq; done. Qed.

(** What the sink's world looks like when every action but [noop] is sent. *)
Fixpoint send_all (w : W) (actions : list PlannedQosAction) : W :=
  match actions with
  | [] => w
  | a :: actions => send_all (if is_type TNoop a then w else (sink w a).1) actions
  end.

(** A sink the skipping is meant for: a failed action has no effect, and an
    action with the key of the one just applied succeeds without effect. *)
Record idempotent_sink (key : PlannedQosAction → action_key) : Prop := {
  is_failure : ∀ w a w' e, sink w a = (w', Throw e) → w' = w;
  is_repeat : ∀ w a w' b, sink w a = (w', Ok tt) → key a = key b → sink w' b = (w', Ok tt);
}.

(** The remembered action would have no effect on the world. *)
Definition remembered (x : QosActionExecutor) (w : W) : Prop :=
  ∀ k b, ex_lastAppliedActionKey x = Some k → ex_keyResolver x b = k → sink w b = (w, Ok tt).

Lemma execute_sends x w a : quiet → idempotent_sink (ex_keyResolver x) → remembered x w →
  ∃ x' r, execute x w a = (x', if is_type TNoop a then w else (sink w a).1, Ok r) ∧
    er_action r = a ∧ er_actionKey r = ex_keyResolver x a ∧
    ex_lastAppliedActionKey x' =
      (if decide (er_status r = Applied) then Some (er_actionKey r) else ex_lastAppliedActionKey x) ∧
    remembered x' (if is_type TNoop a then w else (sink w a).1).
Proof.
  intros Hq Hs Hr. unfold execute. destruct (is_type TNoop a) eqn:En; [eauto 20|].
  destruct (ex_enableIdempotence x && same_key (ex_keyResolver x a) (ex_lastAppliedActionKey x)) eqn:Ei.
  { apply andb_true_iff in Ei as [_ Ei]. unfold same_key in Ei.
    destruct (ex_lastAppliedActionKey x) as [k|] eqn:Ek; [|done].
    apply bool_decide_eq_true in Ei. rewrite (Hr k a Ek Ei); simpl.
    do 2 eexists. split; [done|]. by split_and!. }
  destruct (sink w a) as [w1 [[]|e]] eqn:E; simpl.
  - do 2 eexists. split; [done|]. split_and!; try done.
    intros k b [= <-] Hb. by eapply (is_repeat _ Hs w a).
  - apply (is_failure _ Hs) in E as ->.
    destruct onError as [f|] eqn:Ef; [rewrite (Hq f Ef)|];
      (do 2 eexists; split; [done|]; by split_and!).
Qed.

(** C30: with a sink for which repeating an applied action is harmless and a
    failed one has no effect, and for an executor that has applied nothing yet and
    does not stop on errors (the default), skipping repeated actions is invisible:
    the world ends as if every action but [noop] had been sent, every action has its
    result, in order, and the remembered key is that of the last applied one. *)
Theorem executeMany_transparent x w actions :
  quiet → idempotent_sink (ex_keyResolver x) → ex_stopOnError x = false →
  ex_lastAppliedActionKey x = None →
  ∃ x' rs, executeMany x w actions = (x', send_all w actions, Ok rs) ∧
    er_action <$> rs = actions ∧
    ex_lastAppliedActionKey x' =
      foldl (λ k r, if decide (er_status r = Applied) then Some (er_actionKey r) else k) None rs.
Proof.
  intros Hq Hs Hstop Hlast.
  assert (remembered x w) as Hr by (intros k b Hk; congruence). rewrite <-Hlast. clear Hlast.
  revert x w Hs Hstop Hr.
  induction actions as [|a actions IH]; intros x w Hs Hstop Hr; simpl; [by exists x, []|].
  destruct (execute_sends x w a Hq Hs Hr) as (x1 & r & He & Ha & Hk & Hlast & Hr1).
  destruct (execute_config _ _ _ _ _ _ He) as (_ & E2 & E3).
  rewrite He, E2, Hstop; simpl.
  destruct (IH x1 (if is_type TNoop a then w else (sink w a).1)) as (x2 & rs & Em & Hrs & Hk2); try done.
  - by rewrite E3.
  - by rewrite E2.
  - exists x2, (r :: rs). rewrite Em. split_and!; [done|by rewrite fmap_cons, Ha, Hrs|]. by rewrite Hk2, Hlast.
Qed.

(** With [stopOnError] the results are those of the actions up to and
    including the first failure, and the later actions never reach the sink. *)
Theorem executeMany_stops x w actions x' w' rs :
  ex_stopOnError x = true → executeMany x w actions = (x', w', Ok rs) →
  ∃ pre rest, actions = pre ++ rest ∧ er_action <$> rs = pre ∧
    executeMany x w pre = (x', w', Ok rs) ∧
    (rest = [] ∨ ∃ rs0 r, rs = rs0 ++ [r] ∧ is_failed r = true) ∧
    Forall (λ r, is_failed r = false) (take (length rs - 1) rs).
Proof.
  intros Hstop. revert x w x' w' rs Hstop.
  induction actions as [|a actions IH]; intros x w x' w' rs Hstop; simpl.
  { intros [= <- <- <-]. exists [], []. split_and!; auto. }
  destruct (execute x w a) as [[x1 w1] [r|e]] eqn:Ee; [|done].
  destruct (execute_config _ _ _ _ _ _ Ee) as (_ & E2 & _).
  assert (er_action r = a) as Ha.
  { revert Ee. unfold execute. intros Ee. repeat split_match_hyp; simplify_eq; done. }
  rewrite E2, Hstop. simpl. destruct (is_failed r) eqn:Ef.
  - intros [= <- <- <-]. exists [a], actions. simpl. rewrite Ee, E2, Hstop, Ef, Ha. simpl. split_and!; try done.
    right. by exists [], r.
  - destruct (executeMany x1 w1 actions) as [[x2 w2] [rs1|e]] eqn:Em; [|done].
    intros [= <- <- <-]. destruct (IH x1 w1 x2 w2 rs1) as (pre & rest & -> & <- & Hd & Hl & Hf); [congruence|done|].
    exists (a :: (er_action <$> rs1)), rest. simpl. rewrite Ee, E2, Hstop, Ef, Hd, Ha. split_and!; try done.
    + destruct Hl as [->|(rs0 & r0 & -> & ?)]; [by left|]. right. by exists (r :: rs0), r0.
    + destruct rs1 as [|r1 rs1]; simpl in *; [constructor|]. constructor; [done|].
      by rewrite Nat.sub_0_r in Hf.
Qed.
End executor.

(** ** The default key *)

(** Equality of actions up to the reasons, with numbers compared by value and
    absent or non-finite parameters alike. *)
Definition same_number (a b : option num) : Prop :=
  match finite_opt a, finite_opt b with
  | Some x, Some y => num_eqb x y = true
  | None, None => True
  | _, _ => False
  end.

Definition same_effect (a b : PlannedQosAction) : Prop :=
  match a, b with
  | SetEncodingParameters l p, SetEncodingParameters l' p' =>
      l = l' ∧ same_number (ep_maxBitrateBps p) (ep_maxBitrateBps p') ∧
      same_number (ep_maxFramerate p) (ep_maxFramerate p') ∧
      same_number (ep_scaleResolutionDownBy p) (ep_scaleResolutionDownBy p') ∧
      ep_adaptivePtime p = ep_adaptivePtime p'
  | SetMaxSpatialLayer l s, SetMaxSpatialLayer l' s' => l = l' ∧ s = s'
  | _, _ => action_type a = action_type b ∧ action_level a = action_level b
  end.

Lemma normalizeNumber_eq a b : normalizeNumber a = normalizeNumber b ↔ same_number a b.
Proof.
  unfold normalizeNumber, same_number.
  destruct a as [[| | |x]|], b as [[| | |y]|]; simpl; try done.
  rewrite Qeq_bool_iff. split.
  - intros [= H]. rewrite <-(Qred_correct x), <-(Qred_correct y), H. reflexivity.
  - intros H. by rewrite (Qred_complete _ _ H).
Qed.

Lemma ptime_part_eq (a b : option bool) :
  match a with Some b => KBool b | None => KStr "" end = match b with Some b => KBool b | None => KStr "" end ↔ a = b.
Proof. destruct a, b; naive_solver. Qed.

(** Two actions have the same key exactly when they ask the sink for the
    same thing: same type and level, same encoding parameters or layer; only
    the reasons are ignored. *)
Theorem action_key_effect a b :
  defaultQosActionKeyResolver a = defaultQosActionKeyResolver b ↔ same_effect a b.
Proof.
  destruct a as [l p|l s|l r|l r|l|l|l r], b as [l' p'|l' s'|l' r'|l' r'|l'|l'|l' r'];
    try (cbn; split; [intros [= ]; subst; done | intros [H1 H2]; (discriminate H1 || by simpl in H2; subst)]).
  unfold same_effect. rewrite <-!normalizeNumber_eq, <-ptime_part_eq.
  cbn [defaultQosActionKeyResolver action_type]. split.
  - intros E. by injection E.
  - intros (-> & -> & -> & -> & ->). done.
Qed.

(** ** Witnesses *)

(** A sender that records the settings asked for, once while they stay. *)
Definition demo_sink (w : list action_key) (a : PlannedQosAction) : list action_key * outcome unit :=
  let k := defaultQosActionKeyResolver a in
  match w with
  | k' :: _ => if decide (k = k') then (w, Ok tt) else (k :: w, Ok tt)
  | [] => ([k], Ok tt)
  end.

Lemma demo_sink_idempotent : idempotent_sink demo_sink defaultQosActionKeyResolver.
Proof.
  split; unfold demo_sink; intros w a w' ?; intros; repeat split_match_hyp; simplify_eq.
  all: repeat (case_decide || simplify_eq); congruence.
Qed.

Lemma executeMany_transparent_witness : ∃ x' rs,
  executeMany demo_sink None (new_executor None None None) [] [PauseUpstream 4; PauseUpstream 4; Noop 4 None; ResumeUpstream 3]
    = (x', send_all demo_sink [] [PauseUpstream 4; PauseUpstream 4; Noop 4 None; ResumeUpstream 3], Ok rs) ∧
  er_status <$> rs = [Applied; SkippedIdempotent; SkippedNoop; Applied].
Proof.
  destruct (executeMany_transparent demo_sink None (new_executor None None None) []
    [PauseUpstream 4; PauseUpstream 4; Noop 4 None; ResumeUpstream 3]) as (x' & rs & E & _).
  - intros f; discriminate.
  - exact demo_sink_idempotent.
  - reflexivity.
  - reflexivity.
  - exists x', rs. split; [exact E|]. vm_compute in E. injection E as _ <-. reflexivity.
Defined.

(** A sink that refuses to pause. *)
Definition failing_sink (w : nat) (a : PlannedQosAction) : nat * outcome unit :=
  if is_type TPauseUpstream a then (w, Throw "pause failed") else (S w, Ok tt).

Lemma executeMany_stops_witness : ∃ x' rs, 
  executeMany failing_sink None (new_executor None (Some true) None) 0%nat
    [ExitAudioOnly 3 None; PauseUpstream 4; ResumeUpstream 3] = (x', 1%nat, Ok rs) ∧
  er_action <$> rs = [ExitAudioOnly 3 None; PauseUpstream 4].
Proof.
  do 2 eexists. split; [reflexivity|].
  edestruct (executeMany_stops failing_sink None (new_executor None (Some true) None) 0%nat
    [ExitAudioOnly 3 None; PauseUpstream 4; ResumeUpstream 3]) as (dn & rest & _ & <- & _); reflexivity.
Defined.
