(* ===== verification/Coordinator.v ===== *)
(** * The peer coordinator (src/client/lib/qos/coordinator.js)

    Ranks a peer's tracks and decides which ones to give up.  The collation
    behind [String.prototype.localeCompare] depends on the host's locale and is
    a parameter. *)

From S2P Require Import Prelude JsNum JsVal QosTypes.
Local Open Scope Z_scope.

Definition qualityRank (q : QosQuality) : Z :=
  match q with Excellent => 3 | Good => 2 | Poor => 1 | Lost => 0 end.

Definition sourcePriority (s : QosSource) : Z :=
  match s with Audio => 0 | ScreenShare => 1 | Camera => 2 end.

Definition minQuality (a b : QosQuality) : QosQuality :=
  if qualityRank a <=? qualityRank b then a else b.

Definition is_source (s : QosSource) (t : PeerQosTrackState) : bool := bool_decide (pt_source t = s).
Definition is_quality (q : QosQuality) (t : PeerQosTrackState) : bool := bool_decide (pt_quality t = q).

Section coordinator.
Context (localeCompare : string → string → Z).

Definition compareTracks (left right : PeerQosTrackState) : Z :=
  let leftPriority := sourcePriority (pt_source left) in
  let rightPriority := sourcePriority (pt_source right) in
  if negb (leftPriority =? rightPriority) then leftPriority - rightPriority
  else localeCompare (pt_trackId left) (pt_trackId right).

Definition prioritizeTracks (tracks : list PeerQosTrackState) : list PeerQosTrackState :=
  js_sort compareTracks tracks.

Definition compareSacrifice (left right : PeerQosTrackState) : Z :=
  sourcePriority (pt_source right) - sourcePriority (pt_source left).

Definition sacrificed (hasAudio hasScreenShare : bool) (track : PeerQosTrackState) : bool :=
  if is_source Audio track then false
  else if hasScreenShare then is_source Camera track
  else hasAudio || is_source Camera track.

(** The quality of the first track lowered by the others'; [tracks] is not
    empty. *)
Definition worstQuality (tracks : list PeerQosTrackState) : QosQuality :=
  match tracks with
  | [] => Lost
  | first :: rest => foldl (λ q t, minQuality q (pt_quality t)) (pt_quality first) rest
  end.

Definition buildPeerQosDecision (tracks : list PeerQosTrackState) : PeerQosDecision :=
  if (length tracks =? 0)%nat then
    {| pd_peerQuality := Lost; pd_prioritizedTrackIds := []; pd_sacrificialTrackIds := [];
       pd_keepAudioAlive := false; pd_preferScreenShare := false; pd_allowVideoRecovery := false |}
  else
    let prioritizedTracks := prioritizeTracks tracks in
    let hasAudio := existsb (is_source Audio) prioritizedTracks in
    let hasScreenShare := existsb (is_source ScreenShare) prioritizedTracks in
    let peerQuality := worstQuality prioritizedTracks in
    let sacrificialTracks := js_sort compareSacrifice
      (List.filter (sacrificed hasAudio hasScreenShare) prioritizedTracks) in
    {| pd_peerQuality := peerQuality;
       pd_prioritizedTrackIds := map pt_trackId prioritizedTracks;
       pd_sacrificialTrackIds := map pt_trackId sacrificialTracks;
       pd_keepAudioAlive := hasAudio;
       pd_preferScreenShare := hasScreenShare;
       pd_allowVideoRecovery :=
         negb (bool_decide (peerQuality = Poor)) && negb (bool_decide (peerQuality = Lost)) &&
         negb (existsb (λ t, is_source Audio t && is_quality Poor t) prioritizedTracks) |}.

(** ** [PeerQosCoordinator]: the tracks in a [Map] by id *)

Definition PeerQosCoordinator : Type := list (string * PeerQosTrackState).

Definition new_coordinator : PeerQosCoordinator := [].
Definition upsertTrack (c : PeerQosCoordinator) (track : PeerQosTrackState) : PeerQosCoordinator :=
  map_set c (pt_trackId track) track.
Definition removeTrack (c : PeerQosCoordinator) (trackId : string) : PeerQosCoordinator :=
  map_delete c trackId.
Definition clear_tracks (c : PeerQosCoordinator) : PeerQosCoordinator := [].
Definition getTracks (c : PeerQosCoordinator) : list PeerQosTrackState := map snd c.
Definition getDecision (c : PeerQosCoordinator) : PeerQosDecision := buildPeerQosDecision (getTracks c).

(** ** Lemmas *)

Lemma sourcePriority_inj a b : sourcePriority a = sourcePriority b → a = b.
Proof. by destruct a, b. Qed.

Lemma minQuality_rank a b : qualityRank (minQuality a b) = Z.min (qualityRank a) (qualityRank b).
Proof. unfold minQuality. by destruct a, b. Qed.

(** The quality of the peer is a track's, and no track's is worse. *)
Lemma fold_minQuality q ts :
  let r := foldl (λ q t, minQuality q (pt_quality t)) q ts in
  (r = q ∨ ∃ t, t ∈ ts ∧ pt_quality t = r) ∧ qualityRank r <= qualityRank q ∧
  ∀ t, t ∈ ts → qualityRank r <= qualityRank (pt_quality t).
Proof.
  revert q. induction ts as [|t ts IH]; intros q; simpl.
  { split_and!; [by left|lia|set_solver]. }
  destruct (IH (minQuality q (pt_quality t))) as (Hin & Hle & Hall).
  rewrite minQuality_rank in Hle. split_and!.
  - destruct Hin as [->|(t' & ? & ?)]; [|right; exists t'; set_solver].
    unfold minQuality. destruct (_ <=? _); [by left|]. right. exists t. set_solver.
  - lia.
  - intros t' [->|Ht]%elem_of_cons; [lia|auto].
Qed.

Lemma worstQuality_spec ts : ts ≠ [] →
  (∃ t, t ∈ ts ∧ pt_quality t = worstQuality ts) ∧
  ∀ t, t ∈ ts → qualityRank (worstQuality ts) <= qualityRank (pt_quality t).
Proof.
  destruct ts as [|t ts]; [done|]. intros _. simpl.
  destruct (fold_minQuality (pt_quality t) ts) as (Hin & Hle & Hall). split.
  - destruct Hin as [E|(t' & ? & ?)]; [exists t; split; [left|done]|exists t'; split; [by right|done]].
  - intros t' [->|Ht]%elem_of_cons; auto.
Qed.

(** Whatever mix of sources there is, the camera tracks are the ones given up. *)
Lemma sacrificed_camera ts t : t ∈ ts →
  sacrificed (existsb (is_source Audio) ts) (existsb (is_source ScreenShare) ts) t = is_source Camera t.
Proof.
  intros Hin. unfold sacrificed, is_source.
  destruct (pt_source t) eqn:Es; simpl.
  - destruct (existsb _ ts); [done|]. apply orb_true_r.
  - assert (existsb (λ t, bool_decide (pt_source t = ScreenShare)) ts = true) as ->; [|done].
    apply existsb_elem. exists t. by rewrite Es.
  - done.
Qed.

Lemma filter_sacrificed ts :
  List.filter (sacrificed (existsb (is_source Audio) ts) (existsb (is_source ScreenShare) ts)) ts =
  List.filter (is_source Camera) ts.
Proof.
  apply List.filter_ext_in. intros t Ht%list_elem_of_In. by apply sacrificed_camera.
Qed.

(** The camera tracks all have the same priority: the second sort is idle. *)
Lemma sort_cameras ts :
  js_sort compareSacrifice (List.filter (is_source Camera) ts) = List.filter (is_source Camera) ts.
Proof.
  apply js_sort_id.
  assert (Forall (λ t, pt_source t = Camera) (List.filter (is_source Camera) ts)) as H.
  { apply Forall_forall. intros t Ht%list_elem_of_In%List.filter_In. destruct Ht as [_ Ht].
    unfold is_source in Ht. by apply bool_decide_eq_true in Ht. }
  induction H as [|t l Ht Hl IH]; constructor; [done|].
  eapply Forall_impl; [exact Hl|]. intros t' Ht'. unfold cmp_le, compareSacrifice. by rewrite Ht, Ht'.
Qed.

Lemma compareTracks_consistent : consistent_cmp localeCompare → consistent_cmp compareTracks.
Proof.
  intros [Ht Htr]. split; unfold cmp_le, compareTracks in *; intros.
  - rewrite (Z.eqb_sym (sourcePriority (pt_source y))). destruct (_ =? _); simpl in *; [by apply Ht|lia].
  - destruct (sourcePriority (pt_source x) =? sourcePriority (pt_source y)) eqn:E1,
      (sourcePriority (pt_source y) =? sourcePriority (pt_source z)) eqn:E2,
      (sourcePriority (pt_source x) =? sourcePriority (pt_source z)) eqn:E3; simpl in *; try zlia.
    by eapply Htr.
Qed.

Lemma ranked_sources ts : consistent_cmp localeCompare →
  StronglySorted (λ a b, sourcePriority (pt_source a) <= sourcePriority (pt_source b)) (prioritizeTracks ts).
Proof.
  intros Hc. pose proof (js_sort_sorted compareTracks ts (compareTracks_consistent Hc)) as Hs.
  unfold prioritizeTracks. induction Hs as [|t l Hs IH Hall]; constructor; [done|].
  eapply Forall_impl; [exact Hall|]. unfold cmp_le, compareTracks. intros t' Ht'; simpl in *.
  destruct (sourcePriority (pt_source t) =? _) eqn:E; simpl in *; zlia.
Qed.

Lemma some_source s (ts ts' : list PeerQosTrackState) : (∀ t : PeerQosTrackState, t ∈ ts ↔ t ∈ ts') →
  existsb (is_source s) ts = true ↔ ∃ t, t ∈ ts' ∧ pt_source t = s.
Proof.
  intros Hin. rewrite existsb_elem. unfold is_source. setoid_rewrite bool_decide_eq_true.
  by setoid_rewrite Hin.
Qed.

(** The separate test for poor audio is implied by the peer's quality. *)
Lemma recovery_allowed ts : ts ≠ [] →
  negb (bool_decide (worstQuality ts = Poor)) && negb (bool_decide (worstQuality ts = Lost)) &&
  negb (existsb (λ t, is_source Audio t && is_quality Poor t) ts) = true ↔
  ∀ t, t ∈ ts → pt_quality t = Excellent ∨ pt_quality t = Good.
Proof.
  intros Hne. destruct (worstQuality_spec ts Hne) as [(tw & Htw & Ew) Hw].
  rewrite !andb_true_iff, !negb_true_iff, !bool_decide_eq_false. split.
  - intros [[H1 H2] _] t Ht. specialize (Hw t Ht). destruct (worstQuality ts), (pt_quality t); naive_solver.
  - intros H. rewrite <-Ew. destruct (H tw Htw) as [->| ->]; (split; [done|]);
      apply existsb_none; intros t Ht; unfold is_quality; destruct (H t Ht) as [->| ->]; apply andb_false_r.
Qed.

(** What the decision says about the tracks, ranking aside. *)
Lemma decision_facts tracks : tracks ≠ [] →
  let d := buildPeerQosDecision tracks in
  (∀ t, t ∈ tracks → pt_source t = Camera → pt_trackId t ∈ pd_sacrificialTrackIds d) ∧
  (∃ t, t ∈ tracks ∧ pt_quality t = pd_peerQuality d) ∧
  (∀ t, t ∈ tracks → qualityRank (pd_peerQuality d) <= qualityRank (pt_quality t)) ∧
  (pd_keepAudioAlive d = true ↔ ∃ t, t ∈ tracks ∧ pt_source t = Audio) ∧
  (pd_preferScreenShare d = true ↔ ∃ t, t ∈ tracks ∧ pt_source t = ScreenShare) ∧
  (pd_allowVideoRecovery d = true ↔ ∀ t, t ∈ tracks → pt_quality t = Excellent ∨ pt_quality t = Good).
Proof.
  intros Hne. destruct tracks as [|t0 ts]; [done|].
  assert (∀ t, t ∈ prioritizeTracks (t0 :: ts) ↔ t ∈ t0 :: ts) as Hin
    by (intros t; unfold prioritizeTracks; by rewrite js_sort_perm).
  assert (prioritizeTracks (t0 :: ts) ≠ []) as Hp.
  { intros E. specialize (Hin t0). rewrite E in Hin. set_solver. }
  unfold buildPeerQosDecision. cbn [length Nat.eqb]. cbv zeta. cbn [pd_peerQuality pd_prioritizedTrackIds
    pd_sacrificialTrackIds pd_keepAudioAlive pd_preferScreenShare pd_allowVideoRecovery].
  destruct (worstQuality_spec _ Hp) as [(tw & Htw & Ew) Hw].
  rewrite filter_sacrificed, sort_cameras. split_and!.
  - intros t Ht Hs. apply list_elem_of_In, in_map, List.filter_In.
    split; [by apply list_elem_of_In, Hin|]. unfold is_source. by rewrite bool_decide_true.
  - exists tw. by rewrite <-Hin.
  - intros t Ht. apply Hw. by apply Hin.
  - apply some_source, Hin.
  - apply some_source, Hin.
  - rewrite recovery_allowed by done. by setoid_rewrite Hin.
Qed.

Lemma decision_ranking tracks : consistent_cmp localeCompare → tracks ≠ [] →
  let d := buildPeerQosDecision tracks in
  ∃ ranked, ranked ≡ₚ tracks ∧
     StronglySorted (λ a b, sourcePriority (pt_source a) <= sourcePriority (pt_source b)) ranked ∧
     pd_prioritizedTrackIds d = map pt_trackId ranked ∧
     pd_sacrificialTrackIds d = map pt_trackId (List.filter (is_source Camera) ranked).
Proof.
  intros Hc Hne. destruct tracks as [|t0 ts]; [done|]. exists (prioritizeTracks (t0 :: ts)).
  split_and!; [apply js_sort_perm|by apply ranked_sources|done|].
  unfold buildPeerQosDecision. cbn [length Nat.eqb pd_sacrificialTrackIds]. by rewrite filter_sacrificed, sort_cameras.
Qed.

(** C28: the decision ranks every track once, audio before screen share before
    camera; the peer's quality is the worst of its tracks'; the tracks given up
    are the cameras, in ranking order; video may recover exactly when no track
    is poor or lost. *)
Theorem decision_spec tracks :
  consistent_cmp localeCompare → tracks ≠ [] →
  let d := buildPeerQosDecision tracks in
  (∃ ranked, ranked ≡ₚ tracks ∧
     StronglySorted (λ a b, sourcePriority (pt_source a) <= sourcePriority (pt_source b)) ranked ∧
     pd_prioritizedTrackIds d = map pt_trackId ranked ∧
     pd_sacrificialTrackIds d = map pt_trackId (List.filter (is_source Camera) ranked)) ∧
  (∃ t, t ∈ tracks ∧ pt_quality t = pd_peerQuality d) ∧
  (∀ t, t ∈ tracks → qualityRank (pd_peerQuality d) <= qualityRank (pt_quality t)) ∧
  (pd_keepAudioAlive d = true ↔ ∃ t, t ∈ tracks ∧ pt_source t = Audio) ∧
  (pd_preferScreenShare d = true ↔ ∃ t, t ∈ tracks ∧ pt_source t = ScreenShare) ∧
  (pd_allowVideoRecovery d = true ↔ ∀ t, t ∈ tracks → pt_quality t = Excellent ∨ pt_quality t = Good).
Proof.
  intros Hc Hne. split; [by apply decision_ranking|]. by apply decision_facts.
Qed.

Lemma prioritize_perm ts ts' :
  consistent_cmp localeCompare →
  (∀ t t', t ∈ ts → t' ∈ ts → localeCompare (pt_trackId t) (pt_trackId t') <= 0 →
     localeCompare (pt_trackId t') (pt_trackId t) <= 0 → t = t') →
  ts ≡ₚ ts' → prioritizeTracks ts = prioritizeTracks ts'.
Proof.
  intros Hc Hanti Hp. pose proof (compareTracks_consistent Hc) as Hcc.
  apply (sorted_unique compareTracks); try by apply js_sort_sorted.
  - unfold prioritizeTracks. by rewrite !js_sort_perm.
  - unfold prioritizeTracks. intros t t'. rewrite !js_sort_perm. unfold cmp_le, compareTracks.
    rewrite (Z.eqb_sym (sourcePriority (pt_source t'))).
    destruct (_ =? _) eqn:E; simpl; [by auto|]. zlia.
Qed.

(** When the collation tells the track ids apart, the decision does not
    depend on the order in which the tracks were registered. *)
Theorem decision_order_independent ts ts' :
  consistent_cmp localeCompare →
  (∀ t t', t ∈ ts → t' ∈ ts → localeCompare (pt_trackId t) (pt_trackId t') <= 0 →
     localeCompare (pt_trackId t') (pt_trackId t) <= 0 → t = t') →
  ts ≡ₚ ts' → buildPeerQosDecision ts = buildPeerQosDecision ts'.
Proof.
  intros Hc Hanti Hp. unfold buildPeerQosDecision.
  rewrite (prioritize_perm ts ts' Hc Hanti Hp). by rewrite Hp.
Qed.

(** The coordinator's tracks are filed under their own ids, one each. *)
Record wf_coordinator (c : PeerQosCoordinator) : Prop := {
  wfp_keys : Forall (λ e, pt_trackId e.2 = e.1) c;
  wfp_nodup : NoDup (map_keys c);
}.

Lemma new_coordinator_wf : wf_coordinator new_coordinator.
Proof. split; [constructor|apply NoDup_nil_2]. Qed.

Lemma upsertTrack_wf c t : wf_coordinator c → wf_coordinator (upsertTrack c t).
Proof.
  intros [Hk Hn]. split; [|by apply map_set_NoDup].
  rewrite Forall_forall in Hk |- *. intros [k v] [[-> ->]|[_ Hin]]%map_set_elem; [done| |done].
  by apply (Hk _ Hin).
Qed.

Lemma removeTrack_wf c id : wf_coordinator c → wf_coordinator (removeTrack c id).
Proof. intros [Hk Hn]. split; [by apply map_delete_Forall|by apply map_delete_NoDup]. Qed.

Lemma getTracks_elem c t : t ∈ getTracks c ↔ ∃ k, (k, t) ∈ c.
Proof.
  unfold getTracks. rewrite map_fmap, list_elem_of_fmap. split.
  - intros ([k v] & -> & H). eauto.
  - intros [k H]. by exists (k, t).
Qed.

Lemma upsertTrack_tracks c t t' : wf_coordinator c →
  t' ∈ getTracks (upsertTrack c t) ↔ t' = t ∨ (t' ∈ getTracks c ∧ pt_trackId t' ≠ pt_trackId t).
Proof.
  intros Hwf. pose proof (wfp_keys c Hwf) as Hk. rewrite Forall_forall in Hk.
  assert (∀ k t', (k, t') ∈ c → pt_trackId t' = k) as Hk' by (intros k t0 H; apply (Hk _ H)).
  rewrite !getTracks_elem. unfold upsertTrack. setoid_rewrite map_set_elem; [|apply Hwf]. split.
  - intros (k & [[-> ->]|[Hne Hin]]); [by left|]. right. rewrite (Hk' _ _ Hin). eauto.
  - intros [->|[[k Hin] Hne]]; [eexists; by left|]. rewrite (Hk' _ _ Hin) in Hne. eauto.
Qed.

(** After an upsert the peer has the new state of that track and every other
    track as before; after a removal the other tracks only. *)
Theorem coordinator_tracks c t id :
  wf_coordinator c →
  (∀ t', t' ∈ getTracks (upsertTrack c t) ↔ t' = t ∨ (t' ∈ getTracks c ∧ pt_trackId t' ≠ pt_trackId t)) ∧
  (∀ t', t' ∈ getTracks (removeTrack c id) ↔ t' ∈ getTracks c ∧ pt_trackId t' ≠ id) ∧
  wf_coordinator (upsertTrack c t) ∧ wf_coordinator (removeTrack c id).
Proof.
  intros Hwf. pose proof (wfp_keys c Hwf) as Hk. rewrite Forall_forall in Hk.
  assert (∀ k t', (k, t') ∈ c → pt_trackId t' = k) as Hk' by (intros k t' H; apply (Hk _ H)).
  split_and!; [| |by apply upsertTrack_wf|by apply removeTrack_wf].
  - intros t'. by apply upsertTrack_tracks.
  - intros t'. rewrite !getTracks_elem. unfold removeTrack, map_delete.
    setoid_rewrite list_elem_of_filter. simpl. split.
    + intros (k & Hne & Hin). rewrite (Hk' _ _ Hin). eauto.
    + intros [[k Hin] Hne]. rewrite (Hk' _ _ Hin) in Hne. eauto.
Qed.
End coordinator.

(** ** Witnesses *)

(** Code unit order, a collation for ids such as UUIDs. *)
Definition codeUnitCompare (a b : string) : Z :=
  match String.compare a b with Lt => -1 | Eq => 0 | Gt => 1 end.

Lemma codeUnitCompare_cons a s b t :
  codeUnitCompare (String a s) (String b t) <= 0 ↔
  (Ascii.N_of_ascii a < Ascii.N_of_ascii b)%N ∨
  (Ascii.N_of_ascii a = Ascii.N_of_ascii b ∧ codeUnitCompare s t <= 0).
Proof.
  unfold codeUnitCompare. simpl. unfold Ascii.compare.
  destruct (N.compare_spec (Ascii.N_of_ascii a) (Ascii.N_of_ascii b)); lia.
Qed.

Lemma codeUnitCompare_consistent : consistent_cmp codeUnitCompare.
Proof.
  split; unfold cmp_le.
  - intros s t. unfold codeUnitCompare. rewrite (String.compare_antisym s t).
    destruct (String.compare t s); simpl; lia.
  - induction x as [|a x IH]; intros [|b y] [|c z]; try done.
    rewrite !codeUnitCompare_cons. intros [?|[? ?]] [?|[? ?]]; try lia.
    right. split; [congruence|]. by eapply IH.
Qed.

Lemma codeUnitCompare_antisym s t :
  codeUnitCompare s t <= 0 → codeUnitCompare t s <= 0 → s = t.
Proof.
  unfold codeUnitCompare. rewrite (String.compare_antisym s t).
  destruct (String.compare t s) eqn:E; simpl; [|lia|lia]. intros _ _. symmetry. by apply String.compare_eq_iff.
Qed.

Definition demo_track (id : string) (s : QosSource) (q : QosQuality) : PeerQosTrackState := {|
  pt_trackId := id; pt_source := s; pt_kind := if decide (s = Audio) then KAudio else KVideo;
  pt_state := Stable; pt_quality := q; pt_level := 0; pt_inAudioOnlyMode := false |}.

Definition demo_tracks : list PeerQosTrackState :=
  [demo_track "cam-b" Camera Good; demo_track "mic" Audio Excellent;
   demo_track "cam-a" Camera Poor; demo_track "screen" ScreenShare Good].

Lemma decision_spec_witness :
  pd_prioritizedTrackIds (buildPeerQosDecision codeUnitCompare demo_tracks) = ["mic"; "screen"; "cam-a"; "cam-b"]%string ∧
  pd_sacrificialTrackIds (buildPeerQosDecision codeUnitCompare demo_tracks) = ["cam-a"; "cam-b"]%string ∧
  ¬ pd_allowVideoRecovery (buildPeerQosDecision codeUnitCompare demo_tracks) = true.
Proof.
  split; [reflexivity|]. split; [reflexivity|].
  destruct (decision_spec codeUnitCompare demo_tracks codeUnitCompare_consistent) as (_ & _ & _ & _ & _ & H).
  { discriminate. }
  rewrite H. intros Hall. destruct (Hall (demo_track "cam-a" Camera Poor)) as [E|E]; try discriminate.
  do 2 right. left.
Defined.

Lemma decision_order_independent_witness :
  buildPeerQosDecision codeUnitCompare demo_tracks = buildPeerQosDecision codeUnitCompare (rev demo_tracks).
Proof.
  apply (decision_order_independent codeUnitCompare demo_tracks (rev demo_tracks) codeUnitCompare_consistent).
  - intros t t' Ht Ht' H1 H2. pose proof (codeUnitCompare_antisym _ _ H1 H2) as E. clear H1 H2.
    unfold demo_tracks in Ht, Ht'. repeat (apply elem_of_cons in Ht as [->|Ht] || apply elem_of_cons in Ht' as [->|Ht']);
      first [discriminate E | reflexivity | by apply not_elem_of_nil in Ht | by apply not_elem_of_nil in Ht'].
  - apply Permutation_rev.
Defined.

Lemma coordinator_tracks_witness : ∀ t', t' ∈ getTracks (upsertTrack (upsertTrack new_coordinator
    (demo_track "mic" Audio Good)) (demo_track "mic" Audio Poor)) ↔ t' = demo_track "mic" Audio Poor ∨
    (t' ∈ getTracks (upsertTrack new_coordinator (demo_track "mic" Audio Good)) ∧ pt_trackId t' ≠ "mic"%string).
Proof.
  apply (coordinator_tracks (upsertTrack new_coordinator (demo_track "mic" Audio Good))
    (demo_track "mic" Audio Poor) "mic" (upsertTrack_wf _ _ new_coordinator_wf)).
Defined.
