(* ===== verification/Protocol.v ===== *)
(** * The QoS wire protocol (src/client/lib/qos/protocol.js)

    Validators over dynamically typed values with their error messages, the
    parsers of the three schemas, and the objects the parsers build ([*_js]:
    the typed record as the value it is in the source). *)

From Stdlib Require Import QArith Qround.
From stdpp Require Import pretty.
From S2P Require Import Prelude JsNum JsVal QosTypes.
Local Open Scope string_scope.
Local Open Scope list_scope.
Local Open Scope Z_scope.

Notation "a +:+ b" := (String.append a b) (at level 60, right associativity) : string_scope.

(** ** Records of the client schema *)

Record ClientQosTrackSignals := {
  cs_sendBitrateBps : num;
  cs_targetBitrateBps : option num;
  cs_lossRate : option num;
  cs_rttMs : option num;
  cs_jitterMs : option num;
  cs_frameWidth : option Z;
  cs_frameHeight : option Z;
  cs_framesPerSecond : option num;
  cs_qualityLimitationReason : option QosQualityLimitationReason;
}.

Record ClientQosTrackSnapshot := {
  ct_localTrackId : string;
  ct_producerId : option string;
  ct_kind : QosTrackKind;
  ct_source : QosSource;
  ct_state : QosState;
  ct_reason : QosReason;
  ct_quality : QosQuality;
  ct_ladderLevel : Z;
  ct_signals : ClientQosTrackSignals;
  ct_lastAction : option ClientQosTrackAction;
}.

Record ClientQosPeerState := {
  cp_mode : QosTrackMode;
  cp_quality : QosQuality;
  cp_stale : bool;
}.

Record ClientQosSnapshot := {
  cq_seq : Z;
  cq_tsMs : num;
  cq_peerState : ClientQosPeerState;
  cq_tracks : list ClientQosTrackSnapshot;
}.

(** ** Validators *)

Definition isObject (value : jsval) : bool :=
  String.eqb (js_typeof value) "object" && negb (match value with JNull => true | _ => false end) &&
  negb (is_array value).

Definition asObject (value : jsval) (path : string) : outcome jsval :=
  if isObject value then Ok value else Throw (path +:+ " must be an object").

Definition asString (value : jsval) (path : string) : outcome string :=
  match value with JStr s => Ok s | _ => Throw (path +:+ " must be a string") end.

Definition asNonEmptyString (value : jsval) (path : string) : outcome string :=
  s ← asString value path;
  if (String.length s =? 0)%nat then Throw (path +:+ " must be a non-empty string") else Ok s.

Definition asBoolean (value : jsval) (path : string) : outcome bool :=
  match value with JBool b => Ok b | _ => Throw (path +:+ " must be a boolean") end.

Definition asFiniteNumber (value : jsval) (path : string) : outcome num :=
  match value with
  | JNum n => if is_finite n then Ok n else Throw (path +:+ " must be a finite number")
  | _ => Throw (path +:+ " must be a finite number")
  end.

Definition asNonNegativeNumber (value : jsval) (path : string) : outcome num :=
  n ← asFiniteNumber value path;
  if num_ltb n num0 then Throw (path +:+ " must be >= 0") else Ok n.

Definition asInt (value : jsval) (path : string) : outcome Z :=
  n ← asFiniteNumber value path;
  if negb (is_integer n) then Throw (path +:+ " must be an integer") else Ok (floor_Z n).

Definition asNonNegativeInt (value : jsval) (path : string) : outcome Z :=
  n ← asInt value path;
  if n <? 0 then Throw (path +:+ " must be >= 0") else Ok n.

(** [!(key in obj) || obj[key] === undefined]. *)
Definition missing (obj : jsval) (key : string) : bool :=
  negb (js_has obj key) || is_undefined (js_get obj key).

(** The combinations of [options] the source uses. *)
Definition optional {A} (as_ : jsval → string → outcome A) (obj : jsval) (key path : string) : outcome (option A) :=
  if missing obj key then Ok None
  else a ← as_ (js_get obj key) (path +:+ "." +:+ key); Ok (Some a).

Definition optionalNumber_nonNegative := optional asNonNegativeNumber.
Definition optionalNumber_nonNegativeInt := optional asNonNegativeInt.
Definition optionalBoolean := optional asBoolean.
Definition optionalString := optional asString.

Definition asStringEnum {A} `{StringEnum A} (value : jsval) (path : string) : outcome A :=
  s ← asString value path;
  match array_find (λ a, String.eqb (enum_str a) s) enum_all with
  | Some a => Ok a
  | None => Throw (path +:+ " must be one of: " +:+ String.concat ", " (map enum_str enum_all))
  end.

Definition parseQualityLimitationReason (value : jsval) (path : string) : outcome QosQualityLimitationReason :=
  asStringEnum value path.

(** ** Parsers *)

Definition parseTrackSignals (value : jsval) (path : string) : outcome ClientQosTrackSignals :=
  obj ← asObject value path;
  sendBitrateBps ← asNonNegativeNumber (js_get obj "sendBitrateBps") (path +:+ ".sendBitrateBps");
  targetBitrateBps ← optionalNumber_nonNegative obj "targetBitrateBps" path;
  lossRate ← optionalNumber_nonNegative obj "lossRate" path;
  rttMs ← optionalNumber_nonNegative obj "rttMs" path;
  jitterMs ← optionalNumber_nonNegative obj "jitterMs" path;
  frameWidth ← optionalNumber_nonNegativeInt obj "frameWidth" path;
  frameHeight ← optionalNumber_nonNegativeInt obj "frameHeight" path;
  framesPerSecond ← optionalNumber_nonNegative obj "framesPerSecond" path;
  qualityLimitationReason ← optional parseQualityLimitationReason obj "qualityLimitationReason" path;
  Ok {| cs_sendBitrateBps := sendBitrateBps; cs_targetBitrateBps := targetBitrateBps;
        cs_lossRate := lossRate; cs_rttMs := rttMs; cs_jitterMs := jitterMs;
        cs_frameWidth := frameWidth; cs_frameHeight := frameHeight;
        cs_framesPerSecond := framesPerSecond;
        cs_qualityLimitationReason := qualityLimitationReason |}.

Definition parseTrackAction (value : jsval) (path : string) : outcome ClientQosTrackAction :=
  obj ← asObject value path;
  type ← asStringEnum (js_get obj "type") (path +:+ ".type");
  applied ← asBoolean (js_get obj "applied") (path +:+ ".applied");
  Ok {| ta_type := type; ta_applied := applied |}.

Definition parseTrackSnapshot (value : jsval) (path : string) : outcome ClientQosTrackSnapshot :=
  obj ← asObject value path;
  localTrackId ← asNonEmptyString (js_get obj "localTrackId") (path +:+ ".localTrackId");
  producerIdRaw ← optionalString obj "producerId" path;
  producerId ←
    match producerIdRaw with
    | None => Ok None
    | Some s => if (0 <? String.length s)%nat then Ok (Some s)
                else Throw (path +:+ ".producerId must be non-empty when provided")
    end;
  kind ← asStringEnum (js_get obj "kind") (path +:+ ".kind");
  source ← asStringEnum (js_get obj "source") (path +:+ ".source");
  state ← asStringEnum (js_get obj "state") (path +:+ ".state");
  reason ← asStringEnum (js_get obj "reason") (path +:+ ".reason");
  quality ← asStringEnum (js_get obj "quality") (path +:+ ".quality");
  ladderLevel ← asNonNegativeInt (js_get obj "ladderLevel") (path +:+ ".ladderLevel");
  signals ← parseTrackSignals (js_get obj "signals") (path +:+ ".signals");
  lastAction ← optional parseTrackAction obj "lastAction" path;
  Ok {| ct_localTrackId := localTrackId; ct_producerId := producerId; ct_kind := kind;
        ct_source := source; ct_state := state; ct_reason := reason; ct_quality := quality;
        ct_ladderLevel := ladderLevel; ct_signals := signals; ct_lastAction := lastAction |}.

(** [tracksRaw.map((item, index) => ...)]. *)
Fixpoint parse_tracks (index : nat) (items : list jsval) : outcome (list ClientQosTrackSnapshot) :=
  match items with
  | [] => Ok []
  | item :: items =>
      t ← parseTrackSnapshot item ("clientQosSnapshot.tracks[" +:+ pretty index +:+ "]");
      ts ← parse_tracks (S index) items;
      Ok (t :: ts)
  end.

Definition check_schema (schema expected path : string) : outcome unit :=
  throw_if (negb (String.eqb schema expected))
    (path +:+ ".schema must be '" +:+ expected +:+ "', got '" +:+ schema +:+ "'").

Definition parseClientQosSnapshot (payload : jsval) : outcome ClientQosSnapshot :=
  obj ← asObject payload "clientQosSnapshot";
  schema ← asString (js_get obj "schema") "clientQosSnapshot.schema";
  _ ← check_schema schema QOS_CLIENT_SCHEMA_V1 "clientQosSnapshot";
  seq ← asNonNegativeInt (js_get obj "seq") "clientQosSnapshot.seq";
  _ ← throw_if (QOS_MAX_SEQ <? seq) ("clientQosSnapshot.seq must be <= " +:+ pretty QOS_MAX_SEQ);
  tsMs ← asNonNegativeNumber (js_get obj "tsMs") "clientQosSnapshot.tsMs";
  peerStateObj ← asObject (js_get obj "peerState") "clientQosSnapshot.peerState";
  mode ← asStringEnum (js_get peerStateObj "mode") "clientQosSnapshot.peerState.mode";
  quality ← asStringEnum (js_get peerStateObj "quality") "clientQosSnapshot.peerState.quality";
  stale ← asBoolean (js_get peerStateObj "stale") "clientQosSnapshot.peerState.stale";
  match js_get obj "tracks" with
  | JArr tracksRaw =>
      _ ← throw_if (QOS_MAX_TRACKS_PER_SNAPSHOT <? length tracksRaw)%nat
            ("clientQosSnapshot.tracks length must be <= " +:+ pretty QOS_MAX_TRACKS_PER_SNAPSHOT);
      tracks ← parse_tracks 0 tracksRaw;
      Ok {| cq_seq := seq; cq_tsMs := tsMs;
            cq_peerState := {| cp_mode := mode; cp_quality := quality; cp_stale := stale |};
            cq_tracks := tracks |}
  | _ => Throw "clientQosSnapshot.tracks must be an array"
  end.

Definition parseQosPolicy (payload : jsval) : outcome QosPolicy :=
  obj ← asObject payload "qosPolicy";
  schema ← asString (js_get obj "schema") "qosPolicy.schema";
  _ ← check_schema schema QOS_POLICY_SCHEMA_V1 "qosPolicy";
  sampleIntervalMs ← asNonNegativeInt (js_get obj "sampleIntervalMs") "qosPolicy.sampleIntervalMs";
  snapshotIntervalMs ← asNonNegativeInt (js_get obj "snapshotIntervalMs") "qosPolicy.snapshotIntervalMs";
  allowAudioOnly ← asBoolean (js_get obj "allowAudioOnly") "qosPolicy.allowAudioOnly";
  allowVideoPause ← asBoolean (js_get obj "allowVideoPause") "qosPolicy.allowVideoPause";
  profilesObj ← asObject (js_get obj "profiles") "qosPolicy.profiles";
  camera ← asNonEmptyString (js_get profilesObj "camera") "qosPolicy.profiles.camera";
  screenShare ← asNonEmptyString (js_get profilesObj "screenShare") "qosPolicy.profiles.screenShare";
  audio ← asNonEmptyString (js_get profilesObj "audio") "qosPolicy.profiles.audio";
  Ok {| po_sampleIntervalMs := sampleIntervalMs; po_snapshotIntervalMs := snapshotIntervalMs;
        po_allowAudioOnly := allowAudioOnly; po_allowVideoPause := allowVideoPause;
        po_profiles_camera := camera; po_profiles_screenShare := screenShare;
        po_profiles_audio := audio |}.

Definition parse_trackId (obj : jsval) : outcome (option (option string)) :=
  if js_has obj "trackId" then
    match js_get obj "trackId" with
    | JNull => Ok (Some None)
    | JUndef => Ok None
    | v => s ← asNonEmptyString v "qosOverride.trackId"; Ok (Some (Some s))
    end
  else Ok None.

Definition parseQosOverride (payload : jsval) : outcome QosOverride :=
  obj ← asObject payload "qosOverride";
  schema ← asString (js_get obj "schema") "qosOverride.schema";
  _ ← check_schema schema QOS_OVERRIDE_SCHEMA_V1 "qosOverride";
  scope ← asStringEnum (js_get obj "scope") "qosOverride.scope";
  _ ← throw_if (bool_decide (scope = TrackScope) &&
         (negb (js_has obj "trackId") || is_nullish (js_get obj "trackId")))
       "qosOverride.trackId is required when scope is track";
  trackId ← parse_trackId obj;
  maxLevelClamp ← optionalNumber_nonNegativeInt obj "maxLevelClamp" "qosOverride";
  forceAudioOnly ← optionalBoolean obj "forceAudioOnly" "qosOverride";
  disableRecovery ← optionalBoolean obj "disableRecovery" "qosOverride";
  pauseUpstream ← optionalBoolean obj "pauseUpstream" "qosOverride";
  resumeUpstream ← optionalBoolean obj "resumeUpstream" "qosOverride";
  _ ← throw_if (opt_true pauseUpstream && opt_true resumeUpstream)
       "qosOverride.pauseUpstream and qosOverride.resumeUpstream are mutually exclusive";
  ttlMs ← asNonNegativeInt (js_get obj "ttlMs") "qosOverride.ttlMs";
  reason ← asNonEmptyString (js_get obj "reason") "qosOverride.reason";
  Ok {| ov_scope := scope; ov_trackId := trackId; ov_maxLevelClamp := maxLevelClamp;
        ov_forceAudioOnly := forceAudioOnly; ov_disableRecovery := disableRecovery;
        ov_pauseUpstream := pauseUpstream; ov_resumeUpstream := resumeUpstream;
        ov_ttlMs := ttlMs; ov_reason := reason |}.

Definition isClientQosSnapshot (value : jsval) : bool := is_ok (parseClientQosSnapshot value).
Definition isQosPolicy (value : jsval) : bool := is_ok (parseQosPolicy value).
Definition isQosOverride (value : jsval) : bool := is_ok (parseQosOverride value).
Definition serializeClientQosSnapshot (snapshot : jsval) : outcome ClientQosSnapshot :=
  parseClientQosSnapshot snapshot.

(** ** The objects the parsers return *)

Definition js_enum {A} `{StringEnum A} (a : A) : jsval := JStr (enum_str a).

Definition signals_js (s : ClientQosTrackSignals) : jsval := JObj [
  ("sendBitrateBps", JNum (cs_sendBitrateBps s));
  ("targetBitrateBps", js_opt JNum (cs_targetBitrateBps s));
  ("lossRate", js_opt JNum (cs_lossRate s));
  ("rttMs", js_opt JNum (cs_rttMs s));
  ("jitterMs", js_opt JNum (cs_jitterMs s));
  ("frameWidth", js_opt js_int (cs_frameWidth s));
  ("frameHeight", js_opt js_int (cs_frameHeight s));
  ("framesPerSecond", js_opt JNum (cs_framesPerSecond s));
  ("qualityLimitationReason", js_opt js_enum (cs_qualityLimitationReason s))].

Definition action_js (a : ClientQosTrackAction) : jsval := JObj [
  ("type", js_enum (ta_type a)); ("applied", JBool (ta_applied a))].

Definition track_js (t : ClientQosTrackSnapshot) : jsval := JObj [
  ("localTrackId", JStr (ct_localTrackId t));
  ("producerId", js_opt JStr (ct_producerId t));
  ("kind", js_enum (ct_kind t));
  ("source", js_enum (ct_source t));
  ("state", js_enum (ct_state t));
  ("reason", js_enum (ct_reason t));
  ("quality", js_enum (ct_quality t));
  ("ladderLevel", js_int (ct_ladderLevel t));
  ("signals", signals_js (ct_signals t));
  ("lastAction", js_opt action_js (ct_lastAction t))].

Definition snapshot_js (s : ClientQosSnapshot) : jsval := JObj [
  ("schema", JStr QOS_CLIENT_SCHEMA_V1);
  ("seq", js_int (cq_seq s));
  ("tsMs", JNum (cq_tsMs s));
  ("peerState", JObj [
     ("mode", js_enum (cp_mode (cq_peerState s)));
     ("quality", js_enum (cp_quality (cq_peerState s)));
     ("stale", JBool (cp_stale (cq_peerState s)))]);
  ("tracks", JArr (map track_js (cq_tracks s)))].

Definition policy_js (p : QosPolicy) : jsval := JObj [
  ("schema", JStr QOS_POLICY_SCHEMA_V1);
  ("sampleIntervalMs", js_int (po_sampleIntervalMs p));
  ("snapshotIntervalMs", js_int (po_snapshotIntervalMs p));
  ("allowAudioOnly", JBool (po_allowAudioOnly p));
  ("allowVideoPause", JBool (po_allowVideoPause p));
  ("profiles", JObj [
     ("camera", JStr (po_profiles_camera p));
     ("screenShare", JStr (po_profiles_screenShare p));
     ("audio", JStr (po_profiles_audio p))])].

Definition override_js (o : QosOverride) : jsval := JObj [
  ("schema", JStr QOS_OVERRIDE_SCHEMA_V1);
  ("scope", js_enum (ov_scope o));
  ("trackId", js_opt (λ t, match t with Some s => JStr s | None => JNull end) (ov_trackId o));
  ("maxLevelClamp", js_opt js_int (ov_maxLevelClamp o));
  ("forceAudioOnly", js_opt JBool (ov_forceAudioOnly o));
  ("disableRecovery", js_opt JBool (ov_disableRecovery o));
  ("pauseUpstream", js_opt JBool (ov_pauseUpstream o));
  ("resumeUpstream", js_opt JBool (ov_resumeUpstream o));
  ("ttlMs", js_int (ov_ttlMs o));
  ("reason", JStr (ov_reason o))].

(** ** Validators and encoders

    [Codec dec enc P]: [dec] accepts only values of [P], and every encoded value
    of [P] decodes to itself; an encoded value is never [undefined]. *)

Class Codec {A} (dec : jsval → string → outcome A) (enc : A → jsval) (P : A → Prop) : Prop := {
  codec_dec : ∀ v path a, dec v path = Ok a → P a;
  codec_enc : ∀ a path, P a → dec (enc a) path = Ok a;
  codec_def : ∀ a, enc a ≠ JUndef;
}.

Definition opt_all {A} (P : A → Prop) (o : option A) : Prop := ∀ a, o = Some a → P a.

Lemma opt_all_None {A} (P : A → Prop) : opt_all P None.
Proof. intros a; discriminate. Qed.
Lemma opt_all_Some {A} (P : A → Prop) a : P a → opt_all P (Some a).
Proof. intros H b. congruence. Qed.
#[export] Hint Resolve opt_all_None opt_all_Some : qos.

Definition nonneg_finite (n : num) : Prop := is_finite n = true ∧ num_ltb n num0 = false.
Definition nonempty (s : string) : Prop := s ≠ "".

#[export] Instance codec_string : Codec asString JStr (λ _, True).
Proof. by split. Qed.

#[export] Instance codec_nonempty : Codec asNonEmptyString JStr nonempty.
Proof.
  split; [|by intros [|]|done].
  unfold asNonEmptyString, nonempty. intros v path a H. bind_inv. destruct a0; by simplify_eq/=.
Qed.

#[export] Instance codec_bool : Codec asBoolean JBool (λ _, True).
Proof. by split. Qed.

#[export] Instance codec_nonneg : Codec asNonNegativeNumber JNum nonneg_finite.
Proof.
  split; [|intros a path [H1 H2]|done]; unfold asNonNegativeNumber.
  - intros v path a H. bind_inv. destruct (num_ltb a0 num0) eqn:E; bind_inv. subst. split; [|done].
    destruct v; simpl in *; try discriminate. destruct (is_finite n) eqn:En; by simplify_eq.
  - cbn [asFiniteNumber]. rewrite H1. cbn [mbind outcome_bind]. by rewrite H2.
Qed.

#[export] Instance codec_int : Codec asNonNegativeInt js_int (λ z, 0 <= z).
Proof.
  split; [|intros a path H|done]; unfold asNonNegativeInt.
  - intros v path a H. bind_inv. destruct (a0 <? 0) eqn:E; bind_inv. subst. zlia.
  - unfold asInt, js_int. cbn [asFiniteNumber num_of_Z is_finite mbind outcome_bind].
    fold (num_of_Z a). rewrite num_of_Z_integer, floor_num_of_Z. cbn [negb mbind outcome_bind].
    destruct (a <? 0) eqn:E; [zlia|done].
Qed.

#[export] Instance codec_enum {A} `{StringEnum A} : Codec asStringEnum js_enum (λ _ : A, True).
Proof.
  split; [done| |done]. intros a path _. unfold asStringEnum, js_enum. cbn [asString mbind outcome_bind].
  destruct (array_find _ enum_all) as [b|] eqn:E.
  - apply array_find_some in E as [_ E]. apply String.eqb_eq, enum_inj in E. by subst.
  - apply array_find_none in E. rewrite Forall_forall in E. specialize (E a (enum_complete a)).
    simpl in E. by rewrite String.eqb_refl in E.
Qed.

#[export] Instance codec_limitation : Codec parseQualityLimitationReason js_enum (λ _, True).
Proof. exact codec_enum. Qed.

Section codec.
Context {A} {dec : jsval → string → outcome A} {enc : A → jsval} {P : A → Prop} `{!Codec dec enc P}.

(** A required property of an object. *)
Lemma dec_get obj key path a : js_get obj key = enc a → P a → dec (js_get obj key) path = Ok a.
Proof. intros -> Ha. by apply codec_enc. Qed.

(** An optional property. *)
Lemma optional_get obj key path o :
  js_get obj key = js_opt enc o → opt_all P o → optional dec obj key path = Ok o.
Proof.
  intros Hg Ho. unfold optional, missing. destruct o as [a|]; simpl in Hg.
  - rewrite (js_get_has obj key) by (rewrite Hg; apply codec_def).
    rewrite Hg. pose proof (codec_def a). destruct (enc a) eqn:E; try done; cbn [is_undefined negb orb];
      rewrite <-E, codec_enc by auto; done.
  - rewrite Hg. by rewrite orb_true_r.
Qed.

Lemma optional_all obj key path o : optional dec obj key path = Ok o → opt_all P o.
Proof.
  unfold optional. destruct (missing obj key); intros H; bind_inv; subst; [by apply opt_all_None|].
  apply opt_all_Some. by eapply codec_dec.
Qed.
End codec.

Lemma asObject_get obj key path o : js_get obj key = JObj o → asObject (js_get obj key) path = Ok (JObj o).
Proof. by intros ->. Qed.

(** Steps through an encoded object: every validator finds the encoding of the
    record's field. *)
Ltac decode_field :=
  match goal with
  | |- optional ?d ?obj ?k ?p ≫= _ = _ =>
      erewrite (optional_get obj k p) by first [reflexivity | eassumption | intros ? ?; exact I]
  | |- asObject (js_get ?obj ?k) ?p ≫= _ = _ => erewrite (asObject_get obj k p) by reflexivity
  | |- ?d (js_get ?obj ?k) ?p ≫= _ = _ =>
      erewrite (dec_get obj k p) by first [reflexivity | eassumption | exact I]
  end; cbn [mbind outcome_bind].
Ltac decode_object := repeat (decode_field || (progress cbn [mbind outcome_bind])).

(** A field that a validator returned has the validator's shape. *)
Ltac wf_field :=
  first [ eapply optional_all; eassumption | eapply codec_dec; eassumption ].

(** ** Shapes the parsers guarantee *)

Record wf_client_signals (s : ClientQosTrackSignals) : Prop := {
  wfcs_sendBitrateBps : nonneg_finite (cs_sendBitrateBps s);
  wfcs_targetBitrateBps : opt_all nonneg_finite (cs_targetBitrateBps s);
  wfcs_lossRate : opt_all nonneg_finite (cs_lossRate s);
  wfcs_rttMs : opt_all nonneg_finite (cs_rttMs s);
  wfcs_jitterMs : opt_all nonneg_finite (cs_jitterMs s);
  wfcs_frameWidth : opt_all (λ z, 0 <= z) (cs_frameWidth s);
  wfcs_frameHeight : opt_all (λ z, 0 <= z) (cs_frameHeight s);
  wfcs_framesPerSecond : opt_all nonneg_finite (cs_framesPerSecond s);
}.

Record wf_track (t : ClientQosTrackSnapshot) : Prop := {
  wft_localTrackId : nonempty (ct_localTrackId t);
  wft_producerId : opt_all nonempty (ct_producerId t);
  wft_ladderLevel : 0 <= ct_ladderLevel t;
  wft_signals : wf_client_signals (ct_signals t);
}.

Record wf_snapshot (s : ClientQosSnapshot) : Prop := {
  wfq_seq : 0 <= cq_seq s <= QOS_MAX_SEQ;
  wfq_tsMs : nonneg_finite (cq_tsMs s);
  wfq_count : (length (cq_tracks s) <= QOS_MAX_TRACKS_PER_SNAPSHOT)%nat;
  wfq_tracks : Forall wf_track (cq_tracks s);
}.

Record wf_policy (p : QosPolicy) : Prop := {
  wfp_sampleIntervalMs : 0 <= po_sampleIntervalMs p;
  wfp_snapshotIntervalMs : 0 <= po_snapshotIntervalMs p;
  wfp_camera : nonempty (po_profiles_camera p);
  wfp_screenShare : nonempty (po_profiles_screenShare p);
  wfp_audio : nonempty (po_profiles_audio p);
}.

Record wf_override (o : QosOverride) : Prop := {
  wfo_trackId : ∀ s, ov_trackId o = Some (Some s) → nonempty s;
  wfo_scope : ov_scope o = TrackScope → ∃ s, ov_trackId o = Some (Some s);
  wfo_clamp : opt_all (λ z, 0 <= z) (ov_maxLevelClamp o);
  wfo_exclusive : opt_true (ov_pauseUpstream o) && opt_true (ov_resumeUpstream o) = false;
  wfo_ttlMs : 0 <= ov_ttlMs o;
  wfo_reason : nonempty (ov_reason o);
}.

Lemma asObject_eq v path o : asObject v path = Ok o → o = v.
Proof. unfold asObject. by destruct (isObject v); intros; simplify_eq. Qed.

#[export] Instance codec_signals : Codec parseTrackSignals signals_js wf_client_signals.
Proof.
  split; [|intros s path Hs|done].
  - intros v path s H. unfold parseTrackSignals, optionalNumber_nonNegative, optionalNumber_nonNegativeInt in H.
    bind_inv. subst. split; cbn; wf_field.
  - destruct Hs. unfold parseTrackSignals, optionalNumber_nonNegative, optionalNumber_nonNegativeInt.
    change (asObject (signals_js s) path) with (Ok (signals_js s)). cbn [mbind outcome_bind].
    decode_object. by destruct s.
Qed.

#[export] Instance codec_action : Codec parseTrackAction action_js (λ _, True).
Proof.
  split; [done|intros a path _|done]. unfold parseTrackAction.
  change (asObject (action_js a) path) with (Ok (action_js a)). decode_object. by destruct a.
Qed.

Lemma producerId_ok o path : opt_all nonempty o →
  match o with
  | None => Ok None
  | Some s => if (0 <? String.length s)%nat then Ok (Some s)
              else Throw (path +:+ ".producerId must be non-empty when provided")
  end = Ok o.
Proof. intros Hp. destruct o as [[|c s]|]; try done. by destruct (Hp ""). Qed.

#[export] Instance codec_track : Codec parseTrackSnapshot track_js wf_track.
Proof.
  split; [|intros t path Ht|done].
  - intros v path t H. unfold parseTrackSnapshot, optionalString in H. bind_inv. subst.
    split; cbn; try wf_field. destruct a1 as [s|]; [|simplify_eq; by apply opt_all_None].
    destruct s; simplify_eq/=. apply opt_all_Some. by unfold nonempty.
  - destruct Ht as [Hid Hp Hl Hs]. unfold parseTrackSnapshot, optionalString.
    change (asObject (track_js t) path) with (Ok (track_js t)). decode_object.
    rewrite (producerId_ok _ path Hp). decode_object. by destruct t.
Qed.

Lemma parse_tracks_ok n items ts : parse_tracks n items = Ok ts →
  length ts = length items ∧ Forall wf_track ts.
Proof.
  revert n ts. induction items as [|v items IH]; intros n ts H; simpl in H; bind_inv; subst; [done|].
  destruct (IH _ _ Hm0). split; [simpl; by f_equal|]. constructor; [by eapply codec_dec|done].
Qed.

Lemma parse_tracks_enc n ts : Forall wf_track ts → parse_tracks n (map track_js ts) = Ok ts.
Proof.
  intros H. revert n. induction H as [|t ts Ht _ IH]; intros n; [done|]. cbn [map parse_tracks].
  rewrite codec_enc by done. cbn [mbind outcome_bind]. by rewrite IH.
Qed.

Lemma check_schema_refl s path : check_schema s s path = Ok tt.
Proof. unfold check_schema. by rewrite String.eqb_refl. Qed.

Lemma throw_if_false b msg : b = false → throw_if b msg = Ok tt.
Proof. by intros ->. Qed.

Lemma snapshot_wf v s : parseClientQosSnapshot v = Ok s → wf_snapshot s.
Proof.
  unfold parseClientQosSnapshot. intros H. bind_inv. destruct (js_get a "tracks"); try discriminate.
  bind_inv. subst. apply throw_if_ok in Hm3, Hm9.
  pose proof (codec_dec _ _ _ Hm2) as Hseq. simpl in Hseq.
  apply parse_tracks_ok in Hm10 as [Hlen Hall]. apply Z.ltb_ge in Hm3. apply Nat.ltb_ge in Hm9.
  split; cbn; [done|wf_field|lia|done].
Qed.

Lemma snapshot_roundtrip s : wf_snapshot s → parseClientQosSnapshot (snapshot_js s) = Ok s.
Proof.
  intros [[Hs1 Hs2] Ht Hc Hall]. unfold parseClientQosSnapshot.
  change (asObject (snapshot_js s) "clientQosSnapshot") with (Ok (snapshot_js s)).
  cbn [mbind outcome_bind].
  erewrite (dec_get (snapshot_js s) "schema") by first [reflexivity|exact I]. cbn [mbind outcome_bind].
  rewrite check_schema_refl. cbn [mbind outcome_bind].
  erewrite (dec_get (snapshot_js s) "seq") by first [reflexivity|eassumption]. cbn [mbind outcome_bind].
  rewrite throw_if_false by (apply Z.ltb_ge; lia). decode_object.
  change (js_get (snapshot_js s) "tracks") with (JArr (map track_js (cq_tracks s))). cbn [length].
  rewrite throw_if_false by (rewrite length_map; apply Nat.ltb_ge; lia). cbn [mbind outcome_bind].
  rewrite parse_tracks_enc by done. destruct s as [? ? [] ?]; done.
Qed.

(** C24: the snapshots the parser produces are exactly those with a sequence
    number of the safe integer range, at most 32 tracks, non-empty ids and
    non-negative finite measurements; validating the object a parse returned
    gives the same snapshot again. *)
Theorem snapshot_parser_exact s :
  ((∃ v, parseClientQosSnapshot v = Ok s) ↔ wf_snapshot s) ∧
  ((∃ v, parseClientQosSnapshot v = Ok s) ↔ serializeClientQosSnapshot (snapshot_js s) = Ok s).
Proof.
  unfold serializeClientQosSnapshot. split; split.
  - intros [v H]. by eapply snapshot_wf.
  - intros H. exists (snapshot_js s). by apply snapshot_roundtrip.
  - intros [v H]. by eapply snapshot_roundtrip, snapshot_wf.
  - eauto.
Qed.

(** The policies the parser produces are exactly those with non-negative
    integer intervals and non-empty profile names, and the object of such a
    policy parses back to it. *)
Theorem policy_parser_exact p :
  ((∃ v, parseQosPolicy v = Ok p) ↔ wf_policy p) ∧
  (wf_policy p ↔ parseQosPolicy (policy_js p) = Ok p).
Proof.
  assert (∀ v, parseQosPolicy v = Ok p → wf_policy p) as H1.
  { intros v H. unfold parseQosPolicy in H. bind_inv. subst. split; cbn; wf_field. }
  assert (wf_policy p → parseQosPolicy (policy_js p) = Ok p) as H2.
  { intros []. unfold parseQosPolicy.
    change (asObject (policy_js p) "qosPolicy") with (Ok (policy_js p)). cbn [mbind outcome_bind]. decode_field.
    rewrite check_schema_refl. decode_object. by destruct p. }
  naive_solver.
Qed.

Lemma parse_trackId_ok obj t : parse_trackId obj = Ok t →
  (∀ s, t = Some (Some s) → nonempty s) ∧
  (negb (js_has obj "trackId") || is_nullish (js_get obj "trackId") = false → ∃ s, t = Some (Some s)).
Proof.
  unfold parse_trackId. destruct (js_has obj "trackId"); simpl; [|by intros [= <-]].
  destruct (js_get obj "trackId"); intros H; bind_inv; subst; split; try done.
  - intros s' [= <-]. by apply codec_nonempty in Hm.
  - eauto.
Qed.

Lemma override_wf v o : parseQosOverride v = Ok o → wf_override o.
Proof.
  unfold parseQosOverride, optionalNumber_nonNegativeInt, optionalBoolean. intros H. bind_inv. subst.
  apply throw_if_ok in Hm3, Hm10. apply parse_trackId_ok in Hm4 as [Ht Hn].
  split; cbn; try done; try wf_field. intros ->. apply Hn. by rewrite bool_decide_true in Hm3.
Qed.

Lemma override_roundtrip o : wf_override o → parseQosOverride (override_js o) = Ok o.
Proof.
  intros [Hid Hsc Hcl Hex Httl Hr]. unfold parseQosOverride, optionalNumber_nonNegativeInt, optionalBoolean.
  change (asObject (override_js o) "qosOverride") with (Ok (override_js o)). cbn [mbind outcome_bind]. decode_field.
  rewrite check_schema_refl. cbn [mbind outcome_bind].
  erewrite (dec_get (override_js o) "scope") by first [reflexivity|exact I]. cbn [mbind outcome_bind].
  rewrite throw_if_false.
  2:{ case_bool_decide as E; [|done]. destruct (Hsc E) as [s Es].
      change (js_get (override_js o) "trackId") with
        (js_opt (λ t, match t with Some s => JStr s | None => JNull end) (ov_trackId o)). by rewrite Es. }
  assert (parse_trackId (override_js o) = Ok (ov_trackId o)) as ->.
  { change (parse_trackId (override_js o)) with
      (match js_opt (λ t, match t with Some s => JStr s | None => JNull end) (ov_trackId o) with
       | JNull => Ok (Some None)
       | JUndef => Ok None
       | v => s ← asNonEmptyString v "qosOverride.trackId"; Ok (Some (Some s))
       end).
    destruct (ov_trackId o) as [[[|c s]|]|]; try done. by destruct (Hid ""). }
  decode_object. rewrite throw_if_false by done. decode_object. by destruct o.
Qed.

(** The overrides the parser produces are exactly those whose track scope
    names a track, whose clamp and lifetime are non-negative integers, which do
    not both pause and resume, and which give a reason; the object of such an
    override parses back to it. *)
Theorem override_parser_exact o :
  ((∃ v, parseQosOverride v = Ok o) ↔ wf_override o) ∧
  (wf_override o ↔ parseQosOverride (override_js o) = Ok o).
Proof. pose proof (override_roundtrip o). pose proof (λ v, override_wf v o). naive_solver. Qed.

Lemma null_clamp_throws v : js_get v "maxLevelClamp" = JNull → is_ok (parseQosOverride v) = false.
Proof.
  intros Hn. destruct (parseQosOverride v) as [o|] eqn:E; [|done].
  unfold parseQosOverride in E. bind_inv. apply asObject_eq in Hm. subst a.
  unfold optionalNumber_nonNegativeInt, optional, missing in Hm5. rewrite Hn in Hm5.
  rewrite js_get_has in Hm5 by (rewrite Hn; done). simpl in Hm5. discriminate.
Qed.

(** An override message whose [maxLevelClamp] is [null], the form in which
    the server clears a track's clamp, is always rejected. *)
Theorem override_null_clamp_rejected v :
  js_get v "maxLevelClamp" = JNull → isQosOverride v = false.
Proof. apply null_clamp_throws. Qed.

(** The server's message that clears a track override. *)
Definition server_clear_message : jsval := JObj [
  ("schema", JStr QOS_OVERRIDE_SCHEMA_V1); ("scope", JStr "track"); ("trackId", JStr "track-1");
  ("maxLevelClamp", JNull); ("ttlMs", js_int 0); ("reason", JStr "downlink_v2_room_demand_restored")].

Lemma override_null_clamp_rejected_witness :
  isQosOverride server_clear_message = false ∧
  parseQosOverride server_clear_message = Throw "qosOverride.maxLevelClamp must be a finite number".
Proof.
  split; [apply (override_null_clamp_rejected server_clear_message); reflexivity|reflexivity].
Defined.

(** Without the clamp property the same message is accepted. *)
Example clear_message_without_clamp : isQosOverride (js_delete server_clear_message "maxLevelClamp") = true.
Proof. vm_compute. reflexivity. Qed.
