(* ===== verification/SignalChannel.v ===== *)
(** * The signalling channel (src/client/lib/qos/adapters/signalChannel.js)

    Publishes validated snapshots and dispatches incoming messages to
    listeners.  Listeners act on a world [W], may throw, and do not subscribe or
    unsubscribe while they are being called. *)

From S2P Require Import Prelude JsNum JsVal QosTypes Protocol.
Local Open Scope string_scope.
Local Open Scope list_scope.

Section channel.
Context {L W : Type} `{EqDecision L}.
(** What calling a listener of each kind does, and the application's [send]. *)
Context (callPolicy : L → QosPolicy → W → W * outcome unit).
Context (callOverride : L → QosOverride → W → W * outcome unit).
Context (callData : L → jsval → W → W * outcome unit).
Context (send : string → ClientQosSnapshot → W → W * outcome unit).

Record QosSignalChannel := {
  ch_publishMethod : string;
  ch_policyListeners : list L;
  ch_overrideListeners : list L;
  ch_connectionQualityListeners : list L;
  ch_roomStateListeners : list L;
}.

Definition new_channel (publishMethod : option string) : QosSignalChannel := {|
  ch_publishMethod := default "clientStats" publishMethod;
  ch_policyListeners := []; ch_overrideListeners := [];
  ch_connectionQualityListeners := []; ch_roomStateListeners := [] |}.

Definition publishSnapshot (c : QosSignalChannel) (snapshot : jsval) (w : W) : W * outcome unit :=
  match serializeClientQosSnapshot snapshot with
  | Ok data => send (ch_publishMethod c) data w
  | Throw e => (w, Throw e)
  end.

Definition onPolicy (c : QosSignalChannel) (l : L) : QosSignalChannel := {|
  ch_publishMethod := ch_publishMethod c;
  ch_policyListeners := set_add (ch_policyListeners c) l;
  ch_overrideListeners := ch_overrideListeners c;
  ch_connectionQualityListeners := ch_connectionQualityListeners c;
  ch_roomStateListeners := ch_roomStateListeners c |}.

Definition onOverride (c : QosSignalChannel) (l : L) : QosSignalChannel := {|
  ch_publishMethod := ch_publishMethod c;
  ch_policyListeners := ch_policyListeners c;
  ch_overrideListeners := set_add (ch_overrideListeners c) l;
  ch_connectionQualityListeners := ch_connectionQualityListeners c;
  ch_roomStateListeners := ch_roomStateListeners c |}.

Definition onConnectionQuality (c : QosSignalChannel) (l : L) : QosSignalChannel := {|
  ch_publishMethod := ch_publishMethod c;
  ch_policyListeners := ch_policyListeners c;
  ch_overrideListeners := ch_overrideListeners c;
  ch_connectionQualityListeners := set_add (ch_connectionQualityListeners c) l;
  ch_roomStateListeners := ch_roomStateListeners c |}.

Definition onRoomState (c : QosSignalChannel) (l : L) : QosSignalChannel := {|
  ch_publishMethod := ch_publishMethod c;
  ch_policyListeners := ch_policyListeners c;
  ch_overrideListeners := ch_overrideListeners c;
  ch_connectionQualityListeners := ch_connectionQualityListeners c;
  ch_roomStateListeners := set_add (ch_roomStateListeners c) l |}.

(** The functions the subscriptions return. *)
Definition offPolicy (c : QosSignalChannel) (l : L) : QosSignalChannel := {|
  ch_publishMethod := ch_publishMethod c;
  ch_policyListeners := set_remove (ch_policyListeners c) l;
  ch_overrideListeners := ch_overrideListeners c;
  ch_connectionQualityListeners := ch_connectionQualityListeners c;
  ch_roomStateListeners := ch_roomStateListeners c |}.

Definition offOverride (c : QosSignalChannel) (l : L) : QosSignalChannel := {|
  ch_publishMethod := ch_publishMethod c;
  ch_policyListeners := ch_policyListeners c;
  ch_overrideListeners := set_remove (ch_overrideListeners c) l;
  ch_connectionQualityListeners := ch_connectionQualityListeners c;
  ch_roomStateListeners := ch_roomStateListeners c |}.

Definition offConnectionQuality (c : QosSignalChannel) (l : L) : QosSignalChannel := {|
  ch_publishMethod := ch_publishMethod c;
  ch_policyListeners := ch_policyListeners c;
  ch_overrideListeners := ch_overrideListeners c;
  ch_connectionQualityListeners := set_remove (ch_connectionQualityListeners c) l;
  ch_roomStateListeners := ch_roomStateListeners c |}.

Definition offRoomState (c : QosSignalChannel) (l : L) : QosSignalChannel := {|
  ch_publishMethod := ch_publishMethod c;
  ch_policyListeners := ch_policyListeners c;
  ch_overrideListeners := ch_overrideListeners c;
  ch_connectionQualityListeners := ch_connectionQualityListeners c;
  ch_roomStateListeners := set_remove (ch_roomStateListeners c) l |}.

(** [for (const listener of listeners) listener(x)]. *)
Fixpoint notify (call : L → W → W * outcome unit) (listeners : list L) (w : W) : W * outcome unit :=
  match listeners with
  | [] => (w, Ok tt)
  | l :: listeners =>
      match call l w with
      | (w, Ok _) => notify call listeners w
      | (w, Throw e) => (w, Throw e)
      end
  end.

(** [try { ... } catch {}] around a dispatch. *)
Definition swallow (r : W * outcome unit) : W := r.1.

Definition dispatch_data (listeners : list L) (data : jsval) (w : W) : W * outcome unit :=
  if negb (truthy data) || negb (String.eqb (js_typeof (js_get data "quality")) "string") then (w, Ok tt)
  else notify (λ l, callData l data) listeners w.

Definition handleMessage (c : QosSignalChannel) (message : jsval) (w : W) : W * outcome unit :=
  match js_get message "method" with
  | JStr method =>
      let data := js_get message "data" in
      if String.eqb method "qosPolicy" then
        (match parseQosPolicy data with
         | Ok policy => swallow (notify (λ l, callPolicy l policy) (ch_policyListeners c) w)
         | Throw _ => w
         end, Ok tt)
      else if String.eqb method "qosOverride" then
        (match parseQosOverride data with
         | Ok override => swallow (notify (λ l, callOverride l override) (ch_overrideListeners c) w)
         | Throw _ => w
         end, Ok tt)
      else if String.eqb method "qosConnectionQuality" then
        dispatch_data (ch_connectionQualityListeners c) data w
      else if String.eqb method "qosRoomState" then
        dispatch_data (ch_roomStateListeners c) data w
      else (w, Ok tt)
  | _ => (w, Ok tt)
  end.

(** ** Properties *)

(** The state after these listeners were called one after another, whatever they threw. *)
Definition after (call : L → W → W * outcome unit) (w : W) (ls : list L) : W := foldl (λ w l, (call l w).1) w ls.

(** Each of these listeners, called in the state the ones before it left, returns. *)
Definition all_return (call : L → W → W * outcome unit) (w : W) (ls : list L) : Prop :=
  ∀ i l, ls !! i = Some l → is_ok (call l (after call w (take i ls))).2 = true.

(** The state in which a round of calls ends that the first exception cuts short. *)
Definition called_until_throw (call : L → W → W * outcome unit) (ls : list L) (w w' : W) : Prop :=
  (all_return call w ls ∧ w' = after call w ls) ∨
  ∃ before l rest, ls = before ++ l :: rest ∧ all_return call w before ∧
    is_ok (call l (after call w before)).2 = false ∧ w' = after call w (before ++ [l]).

Lemma all_return_cons call w l ls : is_ok (call l w).2 = true → all_return call (call l w).1 ls → all_return call w (l :: ls).
Proof. intros Hl Hls [|i] l' Hi; cbn in Hi |- *; [by simplify_eq|]. by apply Hls. Qed.

Lemma notify_until_throw call ls w : called_until_throw call ls w (notify call ls w).1.
Proof.
  revert w. induction ls as [|l ls IH]; intros w; cbn [notify]; [left; by split|].
  destruct (call l w) as [w1 [[]|e]] eqn:E.
  - destruct (IH w1) as [(Hr & ->)|(before & l' & rest & -> & Hr & Ht & ->)].
    + left. split; [|by cbn; rewrite E]. apply all_return_cons; by rewrite E.
    + right. exists (l :: before), l', rest. cbn. rewrite E. split_and!; try done. apply all_return_cons; by rewrite E.
  - right. exists [], l, ls. cbn. rewrite E. by split_and!.
Qed.

(** When no listener throws, all are called, in subscription order. *)
Lemma notify_all call ls w : (∀ l w, l ∈ ls → is_ok (call l w).2 = true) →
  notify call ls w = (foldl (λ w l, (call l w).1) w ls, Ok tt).
Proof.
  revert w. induction ls as [|l ls IH]; intros w Hok; simpl; [done|].
  pose proof (Hok l w) as Hl. destruct (call l w) as [w1 [[]|e]] eqn:E; simpl in *.
  - rewrite IH; [done|]. intros; apply Hok; by right.
  - specialize (Hl ltac:(left)). done.
Qed.

Lemma handleMessage_override c data w :
  handleMessage c (JObj [("method", JStr "qosOverride"); ("data", data)]) w =
  (match parseQosOverride data with
   | Ok override => (notify (λ l, callOverride l override) (ch_overrideListeners c) w).1
   | Throw _ => w
   end, Ok tt).
Proof. reflexivity. Qed.

Lemma handleMessage_policy c data w :
  handleMessage c (JObj [("method", JStr "qosPolicy"); ("data", data)]) w =
  (match parseQosPolicy data with
   | Ok policy => (notify (λ l, callPolicy l policy) (ch_policyListeners c) w).1
   | Throw _ => w
   end, Ok tt).
Proof. reflexivity. Qed.

(** C25: policy and override messages never make the message handler throw.  A
    malformed one changes nothing; a valid one reaches the listeners in
    subscription order, each in the state the ones before it left: all of them if
    they all return, and otherwise exactly those up to and including the first
    that throws; the later ones are not called. *)
Theorem handleMessage_fail_soft c data w :
  (let message := JObj [("method", JStr "qosOverride"); ("data", data)] in
   match parseQosOverride data with
   | Throw _ => handleMessage c message w = (w, Ok tt)
   | Ok o => ∃ w', handleMessage c message w = (w', Ok tt) ∧
       called_until_throw (λ l, callOverride l o) (ch_overrideListeners c) w w'
   end) ∧
  (let message := JObj [("method", JStr "qosPolicy"); ("data", data)] in
   match parseQosPolicy data with
   | Throw _ => handleMessage c message w = (w, Ok tt)
   | Ok p => ∃ w', handleMessage c message w = (w', Ok tt) ∧
       called_until_throw (λ l, callPolicy l p) (ch_policyListeners c) w w'
   end).
Proof.
  cbv zeta. rewrite handleMessage_override, handleMessage_policy. split.
  - destruct (parseQosOverride data) as [o|]; [|done]. eexists. split; [done|]. apply notify_until_throw.
  - destruct (parseQosPolicy data) as [p|]; [|done]. eexists. split; [done|]. apply notify_until_throw.
Qed.

(** Only snapshots the schema allows are ever handed to the transport, with
    the channel's method; an invalid one is rejected before anything is sent. *)
Theorem publishSnapshot_validates c snapshot w :
  match parseClientQosSnapshot snapshot with
  | Ok data => wf_snapshot data ∧ publishSnapshot c snapshot w = send (ch_publishMethod c) data w
  | Throw e => publishSnapshot c snapshot w = (w, Throw e)
  end.
Proof.
  unfold publishSnapshot, serializeClientQosSnapshot.
  destruct (parseClientQosSnapshot snapshot) eqn:E; [|done]. split; [|done]. by eapply snapshot_wf.
Qed.
End channel.
