(* ===== verification/ProducerAdapter.v ===== *)
(** * The producer adapter (src/client/lib/qos/adapters/producerAdapter.js)

    [MediasoupProducerAdapter] over a producer, of which it uses a few
    properties and four operations that may throw; they are the fields of
    [ProducerOps]. *)

From Stdlib Require Import QArith.
From S2P Require Import Prelude JsNum JsVal QosTypes.
Local Open Scope string_scope.
Local Open Scope list_scope.

Class ProducerOps (P : Type) := {
  pr_id : P → string;
  pr_kind : P → QosTrackKind;
  pr_trackId : P → option string;
  pr_closed : P → bool;
  pr_encodings : P → jsval;
  pr_setRtpEncodingParameters : P → jsval → P * outcome unit;
  pr_setMaxSpatialLayer : P → Z → P * outcome unit;
  pr_pause : P → P * outcome unit;
  pr_resume : P → P * outcome unit;
}.

Definition mapEncodingParameters (p : QosEncodingParameters) : jsval :=
  let mapped := JObj [] in
  let mapped := match ep_maxBitrateBps p with Some n => js_set mapped "maxBitrate" (JNum n) | None => mapped end in
  let mapped := match ep_maxFramerate p with Some n => js_set mapped "maxFramerate" (JNum n) | None => mapped end in
  let mapped := match ep_scaleResolutionDownBy p with
                | Some n => js_set mapped "scaleResolutionDownBy" (JNum n) | None => mapped end in
  match ep_adaptivePtime p with Some b => js_set mapped "adaptivePtime" (JBool b) | None => mapped end.

Record SnapshotBase := {
  sb_source : QosSource;
  sb_kind : QosTrackKind;
  sb_producerId : string;
  sb_trackId : option string;
  sb_configuredBitrateBps : option num;
}.

Record AdapterResult := {
  ar_applied : bool;
  ar_reason : option string;
}.

Definition applied : AdapterResult := {| ar_applied := true; ar_reason := None |}.
Definition not_applied (reason : string) : AdapterResult :=
  {| ar_applied := false; ar_reason := Some reason |}.

(** The bit rate an encoding contributes to the configured sum. *)
Definition encoding_bitrate (encoding : jsval) : num :=
  match js_get encoding "maxBitrate" with
  | JNum n => if is_finite n && num_ltb num0 n then n else num0
  | _ => num0
  end.

Section adapter.
Context {P : Type} `{ProducerOps P}.

Record MediasoupProducerAdapter := {
  ad_producer : P;
  ad_source : QosSource;
}.

Definition getSnapshotBase (a : MediasoupProducerAdapter) : SnapshotBase :=
  let producer := ad_producer a in
  let configuredBitrateBps :=
    match pr_encodings producer with
    | JArr (e :: es) =>
        let sum := foldl (λ acc encoding, num_add acc (encoding_bitrate encoding)) num0 (e :: es) in
        if num_ltb num0 sum then Some sum else None
    | _ => None
    end in
  {| sb_source := ad_source a; sb_kind := pr_kind producer; sb_producerId := pr_id producer;
     sb_trackId := pr_trackId producer; sb_configuredBitrateBps := configuredBitrateBps |}.

(** [try { await op } catch (error) { ... }]. *)
Definition guarded (a : MediasoupProducerAdapter) (op : P → P * outcome unit)
    : MediasoupProducerAdapter * AdapterResult :=
  match op (ad_producer a) with
  | (p, Ok _) => ({| ad_producer := p; ad_source := ad_source a |}, applied)
  | (p, Throw e) => ({| ad_producer := p; ad_source := ad_source a |}, not_applied e)
  end.

Definition setEncodingParameters (a : MediasoupProducerAdapter) (parameters : QosEncodingParameters)
    : MediasoupProducerAdapter * AdapterResult :=
  if pr_closed (ad_producer a) then (a, not_applied "producer-closed")
  else guarded a (λ p, pr_setRtpEncodingParameters p (mapEncodingParameters parameters)).

Definition setMaxSpatialLayer (a : MediasoupProducerAdapter) (spatialLayer : Z)
    : MediasoupProducerAdapter * AdapterResult :=
  if pr_closed (ad_producer a) then (a, not_applied "producer-closed")
  else if negb (bool_decide (pr_kind (ad_producer a) = KVideo)) then (a, not_applied "not-video-producer")
  else guarded a (λ p, pr_setMaxSpatialLayer p spatialLayer).

Definition pauseUpstream (a : MediasoupProducerAdapter) : MediasoupProducerAdapter * AdapterResult :=
  if pr_closed (ad_producer a) then (a, not_applied "producer-closed")
  else guarded a pr_pause.

Definition resumeUpstream (a : MediasoupProducerAdapter) : MediasoupProducerAdapter * AdapterResult :=
  if pr_closed (ad_producer a) then (a, not_applied "producer-closed")
  else guarded a pr_resume.

(** ** Lemmas *)

(** A closed producer is left alone by every operation. *)
Lemma closed_untouched a : pr_closed (ad_producer a) = true →
  (∀ ps, setEncodingParameters a ps = (a, not_applied "producer-closed")) ∧
  (∀ l, setMaxSpatialLayer a l = (a, not_applied "producer-closed")) ∧
  pauseUpstream a = (a, not_applied "producer-closed") ∧
  resumeUpstream a = (a, not_applied "producer-closed").
Proof.
  intros E. unfold setEncodingParameters, setMaxSpatialLayer, pauseUpstream, resumeUpstream. by rewrite E.
Qed.

(** What an operation on an open producer reports is what the producer did. *)
Lemma guarded_spec a op :
  ad_producer (guarded a op).1 = (op (ad_producer a)).1 ∧
  ad_source (guarded a op).1 = ad_source a ∧
  ar_applied (guarded a op).2 = is_ok (op (ad_producer a)).2.
Proof. unfold guarded. by destruct (op (ad_producer a)) as [p [[]|e]]. Qed.
End adapter.

(** The parameters handed to the sender are exactly the given ones: a property is
    present when its value is, and absent ones leave the sender's value alone. *)
Lemma mapEncodingParameters_get p :
  js_get (mapEncodingParameters p) "maxBitrate" = js_opt JNum (ep_maxBitrateBps p) ∧
  js_get (mapEncodingParameters p) "maxFramerate" = js_opt JNum (ep_maxFramerate p) ∧
  js_get (mapEncodingParameters p) "scaleResolutionDownBy" = js_opt JNum (ep_scaleResolutionDownBy p) ∧
  js_get (mapEncodingParameters p) "adaptivePtime" = js_opt JBool (ep_adaptivePtime p).
Proof. by destruct p as [[] [] [] []]. Qed.
