(* ===== verification/StatsProvider.v ===== *)
(** * The sender stats provider (src/client/lib/qos/adapters/statsProvider.js)

    [ProducerSenderStatsProvider.getSnapshot] turns a WebRTC stats report into
    a [RawSenderSnapshot].  A report is the sequence of its entries; its
    contents are dynamically typed.  [Date.now()] is the argument [now]. *)

From Stdlib Require Import QArith Qround.
From stdpp Require Import pretty.
From S2P Require Import Prelude JsNum JsVal QosTypes Signals ProducerAdapter.
Local Open Scope string_scope.
Local Open Scope list_scope.
Local Open Scope Z_scope.

Definition isObject (value : jsval) : bool :=
  match value with JObj _ | JArr _ => true | _ => false end.

Definition readNumber (obj : jsval) (key : string) : option num :=
  match js_get obj key with JNum n => if is_finite n then Some n else None | _ => None end.

Definition readString (obj : jsval) (key : string) : option string :=
  match js_get obj key with JStr s => Some s | _ => None end.

(** [if (s)] for an optional string. *)
Definition present (s : option string) : option string :=
  match s with Some s => if String.eqb s "" then None else Some s | None => None end.

Definition normalizeTimeToMs (value : option num) : option num :=
  match value with
  | Some v =>
      if negb (is_finite v) then None
      else if num_leb num0 v && num_leb v (num_of_Z 10) then Some (num_mul v (num_of_Z 1000))
      else Some v
  | None => None
  end.

Definition readQualityLimitationReason (value : jsval) : option QosQualityLimitationReason :=
  match value with
  | JStr s =>
      if String.eqb s "bandwidth" then Some QBandwidth
      else if String.eqb s "cpu" then Some QCpu
      else if String.eqb s "other" then Some QOther
      else if String.eqb s "none" then Some QNone
      else Some QUnknown
  | _ => None
  end.

(** [Object.entries]. *)
Definition object_entries (value : jsval) : list (string * jsval) :=
  match value with
  | JObj o => o
  | JArr l => imap (λ i x, (pretty i, x)) l
  | _ => []
  end.

(** [acc[key] = (acc[key] ?? 0) + raw] for every finite number of [value]. *)
Definition appendQualityDurations (acc : list (string * num)) (value : jsval) : list (string * num) :=
  if negb (isObject value) then acc
  else foldl (λ acc e,
    match e.2 with
    | JNum raw => if is_finite raw then map_set acc e.1 (num_add (default num0 (map_get acc e.1)) raw) else acc
    | _ => acc
    end) acc (object_entries value).

Definition snapshotFromBase (base : SnapshotBase) (now : num) : RawSenderSnapshot := {|
  rs_timestampMs := now; rs_trackId := sb_trackId base; rs_producerId := Some (sb_producerId base);
  rs_source := sb_source base; rs_kind := sb_kind base; rs_bytesSent := None; rs_packetsSent := None;
  rs_packetsLost := None; rs_retransmittedPacketsSent := None; rs_targetBitrateBps := None;
  rs_configuredBitrateBps := sb_configuredBitrateBps base; rs_roundTripTimeMs := None;
  rs_jitterMs := None; rs_frameWidth := None; rs_frameHeight := None; rs_framesPerSecond := None;
  rs_qualityLimitationReason := None; rs_qualityLimitationDurationsSec := None |}.

Definition roundMetric (sum : num) (count : Z) : option num :=
  if 0 <? count
  then Some (num_div (math_round (num_mul (num_div sum (num_of_Z count)) (num_of_Z 1000))) (num_of_Z 1000))
  else None.

Definition isSelectedCandidatePair (entry : jsval) : bool :=
  let state := readString entry "state" in
  is_true (js_get entry "selected") ||
  (is_true (js_get entry "nominated") &&
   match state with None => true | Some s => String.eqb s "succeeded" end).

(** [x ?? {}] for an optional entry. *)
Definition or_empty (o : option jsval) : jsval := default (JObj []) o.

Definition resolveCandidatePair (outbound : jsval) (transportsById candidatePairsById : list (string * jsval))
    (selectedCandidatePairs : list jsval) : option jsval :=
  let by_transport :=
    transportId ← present (readString outbound "transportId");
    selectedCandidatePairId ←
      present (readString (or_empty (map_get transportsById transportId)) "selectedCandidatePairId");
    map_get candidatePairsById selectedCandidatePairId in
  match by_transport with
  | Some candidatePair => Some candidatePair
  | None => match selectedCandidatePairs with [p] => Some p | _ => None end
  end.

(** ** The report sorted by entry type *)

Record entries := {
  en_remoteById : list (string * jsval);
  en_candidatePairsById : list (string * jsval);
  en_selectedCandidatePairs : list jsval;
  en_transportsById : list (string * jsval);
  en_outbounds : list jsval;
}.

Definition no_entries : entries := {|
  en_remoteById := []; en_candidatePairsById := []; en_selectedCandidatePairs := [];
  en_transportsById := []; en_outbounds := [] |}.

(** [if (id) map.set(id, entry)]. *)
Definition set_by_id (m : list (string * jsval)) (entry : jsval) : list (string * jsval) :=
  match present (readString entry "id") with Some id => map_set m id entry | None => m end.

Definition add_entry (e : entries) (entry : jsval) : entries :=
  if negb (isObject entry) then e
  else
    let type := default "" (readString entry "type") in
    if String.eqb type "remote-inbound-rtp" then
      {| en_remoteById := set_by_id (en_remoteById e) entry;
         en_candidatePairsById := en_candidatePairsById e;
         en_selectedCandidatePairs := en_selectedCandidatePairs e;
         en_transportsById := en_transportsById e; en_outbounds := en_outbounds e |}
    else if String.eqb type "candidate-pair" then
      {| en_remoteById := en_remoteById e;
         en_candidatePairsById := set_by_id (en_candidatePairsById e) entry;
         en_selectedCandidatePairs :=
           if isSelectedCandidatePair entry then en_selectedCandidatePairs e ++ [entry]
           else en_selectedCandidatePairs e;
         en_transportsById := en_transportsById e; en_outbounds := en_outbounds e |}
    else if String.eqb type "transport" then
      {| en_remoteById := en_remoteById e; en_candidatePairsById := en_candidatePairsById e;
         en_selectedCandidatePairs := en_selectedCandidatePairs e;
         en_transportsById := set_by_id (en_transportsById e) entry; en_outbounds := en_outbounds e |}
    else if negb (String.eqb type "outbound-rtp") then e
    else if is_true (js_get entry "isRemote") then e
    else
      {| en_remoteById := en_remoteById e; en_candidatePairsById := en_candidatePairsById e;
         en_selectedCandidatePairs := en_selectedCandidatePairs e;
         en_transportsById := en_transportsById e; en_outbounds := en_outbounds e ++ [entry] |}.

(** ** The loop over the outbound streams *)

Record totals := {
  tt_timestampMs : num;
  tt_bytesSent : num;
  tt_packetsSent : num;
  tt_packetsLost : num;
  tt_retransmittedPacketsSent : num;
  tt_targetBitrateBps : num;
  tt_frameWidth : num;
  tt_frameHeight : num;
  tt_framesPerSecond : num;
  tt_qualityLimitationReason : option QosQualityLimitationReason;
  tt_durations : list (string * num);
  tt_transportRtt : num * Z;
  tt_fallbackRtt : num * Z;
  tt_jitter : num * Z;
  tt_nextRemoteTimestampsMs : list (string * num);
  tt_seenCandidatePairIds : list string;
}.

Definition no_totals (lastRemoteTimestampsMs : list (string * num)) : totals := {|
  tt_timestampMs := num0; tt_bytesSent := num0; tt_packetsSent := num0; tt_packetsLost := num0;
  tt_retransmittedPacketsSent := num0; tt_targetBitrateBps := num0; tt_frameWidth := num0;
  tt_frameHeight := num0; tt_framesPerSecond := num0; tt_qualityLimitationReason := None;
  tt_durations := []; tt_transportRtt := (num0, 0); tt_fallbackRtt := (num0, 0);
  tt_jitter := (num0, 0); tt_nextRemoteTimestampsMs := lastRemoteTimestampsMs;
  tt_seenCandidatePairIds := [] |}.

(** [sum += x; count++] when the metric is there. *)
Definition add_metric (acc : num * Z) (m : option num) : num * Z :=
  match m with Some x => (num_add acc.1 x, acc.2 + 1) | None => acc end.

Definition or_zero (o : option num) : num := default num0 o.

(** Whether the remote report is one that was not seen before. *)
Definition remoteMetricsFresh (remote : option jsval) (remoteTimestampMs previousRemoteTimestampMs : option num) : bool :=
  match remote with
  | None => false
  | Some _ =>
      match remoteTimestampMs, previousRemoteTimestampMs with
      | None, _ | _, None => true
      | Some t, Some p => num_ltb p t
      end
  end.

(** Round-trip time and jitter: the remote report's while fresh, nothing from a
    stale one, the stream's own when there is no remote report. *)
Definition remote_metric (remote : option jsval) (fresh : bool) (outbound : jsval) (key : string) : option num :=
  if fresh then normalizeTimeToMs (readNumber (or_empty remote) key)
  else match remote with
       | Some _ => None
       | None => normalizeTimeToMs (readNumber outbound key)
       end.

Definition add_outbound (lastRemoteTimestampsMs : list (string * num)) (e : entries) (t : totals) (outbound : jsval) : totals :=
  let timestampMs :=
    match readNumber outbound "timestamp" with
    | Some s => if is_finite s && num_ltb (tt_timestampMs t) s then s else tt_timestampMs t
    | None => tt_timestampMs t
    end in
  let qualityLimitationReason :=
    match tt_qualityLimitationReason t with
    | Some r => Some r
    | None => readQualityLimitationReason (js_get outbound "qualityLimitationReason")
    end in
  let candidatePair := resolveCandidatePair outbound (en_transportsById e) (en_candidatePairsById e)
                         (en_selectedCandidatePairs e) in
  let candidatePairId := present (readString (or_empty candidatePair) "id") in
  let counted := match candidatePairId with
                 | None => true
                 | Some id => negb (bool_decide (id ∈ tt_seenCandidatePairIds t))
                 end in
  let transportRttMs := normalizeTimeToMs (readNumber (or_empty candidatePair) "currentRoundTripTime") in
  let remoteId := present (readString outbound "remoteId") in
  let remote := id ← remoteId; map_get (en_remoteById e) id in
  let lossFromRemote := match remote with
                        | Some r => readNumber r "packetsLost"
                        | None => readNumber outbound "packetsLost"
                        end in
  let remoteTimestampMs := readNumber (or_empty remote) "timestamp" in
  let previousRemoteTimestampMs := id ← remoteId; map_get lastRemoteTimestampsMs id in
  let fresh := remoteMetricsFresh remote remoteTimestampMs previousRemoteTimestampMs in
  {| tt_timestampMs := timestampMs;
     tt_bytesSent := num_add (tt_bytesSent t) (or_zero (readNumber outbound "bytesSent"));
     tt_packetsSent := num_add (tt_packetsSent t) (or_zero (readNumber outbound "packetsSent"));
     tt_packetsLost := num_add (tt_packetsLost t) (or_zero lossFromRemote);
     tt_retransmittedPacketsSent :=
       num_add (tt_retransmittedPacketsSent t) (or_zero (readNumber outbound "retransmittedPacketsSent"));
     tt_targetBitrateBps := num_add (tt_targetBitrateBps t) (or_zero (readNumber outbound "targetBitrate"));
     tt_frameWidth := math_max (tt_frameWidth t) (or_zero (readNumber outbound "frameWidth"));
     tt_frameHeight := math_max (tt_frameHeight t) (or_zero (readNumber outbound "frameHeight"));
     tt_framesPerSecond := math_max (tt_framesPerSecond t) (or_zero (readNumber outbound "framesPerSecond"));
     tt_qualityLimitationReason := qualityLimitationReason;
     tt_durations := appendQualityDurations (tt_durations t) (js_get outbound "qualityLimitationDurations");
     tt_transportRtt := if counted then add_metric (tt_transportRtt t) transportRttMs else tt_transportRtt t;
     tt_fallbackRtt := add_metric (tt_fallbackRtt t) (remote_metric remote fresh outbound "roundTripTime");
     tt_jitter := add_metric (tt_jitter t) (remote_metric remote fresh outbound "jitter");
     tt_nextRemoteTimestampsMs :=
       match remoteId, remoteTimestampMs with
       | Some id, Some ts => if fresh then map_set (tt_nextRemoteTimestampsMs t) id ts else tt_nextRemoteTimestampsMs t
       | _, _ => tt_nextRemoteTimestampsMs t
       end;
     tt_seenCandidatePairIds :=
       match candidatePairId with
       | Some id => if counted then tt_seenCandidatePairIds t ++ [id] else tt_seenCandidatePairIds t
       | None => tt_seenCandidatePairIds t
       end |}.

(** [x > 0 ? x : undefined]. *)
Definition positive (x : num) : option num := if num_ltb num0 x then Some x else None.

Definition finish (base : SnapshotBase) (now : num) (t : totals) : RawSenderSnapshot :=
  let timestampMs := if num_leb (tt_timestampMs t) num0 then now else tt_timestampMs t in
  let rtt := if 0 <? (tt_transportRtt t).2 then tt_transportRtt t else tt_fallbackRtt t in
  {| rs_timestampMs := timestampMs; rs_trackId := sb_trackId base; rs_producerId := Some (sb_producerId base);
     rs_source := sb_source base; rs_kind := sb_kind base;
     rs_bytesSent := positive (tt_bytesSent t);
     rs_packetsSent := positive (tt_packetsSent t);
     rs_packetsLost := positive (tt_packetsLost t);
     rs_retransmittedPacketsSent := positive (tt_retransmittedPacketsSent t);
     rs_targetBitrateBps := positive (tt_targetBitrateBps t);
     rs_configuredBitrateBps := sb_configuredBitrateBps base;
     rs_roundTripTimeMs := roundMetric rtt.1 rtt.2;
     rs_jitterMs := roundMetric (tt_jitter t).1 (tt_jitter t).2;
     rs_frameWidth := positive (tt_frameWidth t);
     rs_frameHeight := positive (tt_frameHeight t);
     rs_framesPerSecond := positive (tt_framesPerSecond t);
     rs_qualityLimitationReason := Some (default QUnknown (tt_qualityLimitationReason t));
     rs_qualityLimitationDurationsSec := match tt_durations t with [] => None | d => Some d end |}.

(** The provider's state is the map of the remote reports' last timestamps. *)
Definition getSnapshot (lastRemoteTimestampsMs : list (string * num)) (base : SnapshotBase)
    (report : list jsval) (now : num) : list (string * num) * RawSenderSnapshot :=
  let e := foldl add_entry no_entries report in
  match en_outbounds e with
  | [] => (lastRemoteTimestampsMs, snapshotFromBase base now)
  | outbounds =>
      let t := foldl (add_outbound lastRemoteTimestampsMs e) (no_totals lastRemoteTimestampsMs) outbounds in
      (tt_nextRemoteTimestampsMs t, finish base now t)
  end.

(** ** Properties *)

(** Entries never leave the report's outbound list. *)
Lemma outbounds_from_report es report x :
  x ∈ en_outbounds (foldl add_entry es report) → x ∈ en_outbounds es ∨ x ∈ report.
Proof.
  revert es. induction report as [|y report IH]; intros es; simpl; [by left|].
  intros [H|H]%IH; [|right; by right]. revert H. unfold add_entry.
  repeat split_match; simpl; auto. rewrite elem_of_app, list_elem_of_singleton. set_solver.
Qed.

(** Timestamps of the host: doubles. *)
Definition double_timestamps (report : list jsval) : Prop :=
  ∀ entry n, entry ∈ report → js_get entry "timestamp" = JNum n → is_double n = true.

Lemma readNumber_num obj key n : readNumber obj key = Some n → js_get obj key = JNum n ∧ is_finite n = true.
Proof. unfold readNumber. destruct (js_get obj key); try done. destruct (is_finite n0) eqn:E; by intros [= <-]. Qed.

Lemma fold_timestamp last e outbounds t :
  (∀ o n, o ∈ outbounds → js_get o "timestamp" = JNum n → is_double n = true) →
  wf_timestamp (tt_timestampMs t) = true →
  wf_timestamp (tt_timestampMs (foldl (add_outbound last e) t outbounds)) = true.
Proof.
  revert t. induction outbounds as [|o os IH]; intros t Hd Ht; [done|]. cbn [foldl]. apply IH.
  { intros; eapply Hd; [by right|done]. }
  cbn [add_outbound tt_timestampMs]. destruct (readNumber o "timestamp") as [s|] eqn:E; [|done].
  destruct (is_finite s && num_ltb (tt_timestampMs t) s) eqn:Eb; [|done].
  apply andb_true_iff in Eb as [_ Eb]. apply readNumber_num in E as [E _].
  unfold wf_timestamp in *. rewrite (Hd o s) by (first [by left|done]). apply andb_true_iff in Ht as [_ Ht].
  apply negb_true_iff in Ht. apply andb_true_iff. split; [done|]. apply negb_true_iff.
  destruct (num_ltb s num0) eqn:Es; [|done].
  pose proof (num_lt_le_trans _ _ _ Eb (num_ltb_le _ _ Es)). congruence.
Qed.

Lemma getSnapshot_timestamp last base report now :
  double_timestamps report → wf_timestamp now = true →
  wf_timestamp (rs_timestampMs (getSnapshot last base report now).2) = true.
Proof.
  intros Hd Hn. unfold getSnapshot. destruct (en_outbounds _) as [|o os] eqn:E; [done|].
  cbn [snd finish rs_timestampMs].
  assert (wf_timestamp (tt_timestampMs
    (foldl (add_outbound last (foldl add_entry no_entries report)) (no_totals last) (o :: os))) = true) as Ht.
  { apply fold_timestamp; [|reflexivity]. rewrite <-E. intros x n Hx.
    apply outbounds_from_report in Hx as [Hx|Hx]; [set_solver|by apply Hd]. }
  by destruct (num_leb _ num0).
Qed.

(** Whatever a stats report contains, the signals derived from two successive
    snapshots of the provider satisfy the signals' invariant: no NaN, no
    negative value, loss rates in [0, 1]. *)
Theorem provider_signals_wf last last' base report report' now now' ctx :
  double_timestamps report → double_timestamps report' →
  wf_timestamp now = true → wf_timestamp now' = true →
  wf_signals (deriveSignals (getSnapshot last' base report' now').2
    (Some (getSnapshot last base report now).2) None None ctx).
Proof.
  intros. apply deriveSignals_invariant; [by apply getSnapshot_timestamp| |discriminate].
  intros p [= <-]. by apply getSnapshot_timestamp.
Qed.

(** ** Remote reports count once *)

(** The remote report an outbound stream names, with its timestamp. *)
Definition remote_of (e : entries) (outbound : jsval) : option (string * num) :=
  id ← present (readString outbound "remoteId");
  r ← map_get (en_remoteById e) id;
  ts ← readNumber r "timestamp";
  Some (id, ts).

(** The timestamp filed for [id] is not older than [ts]. *)
Definition not_newer (m : list (string * num)) (id : string) (ts : num) : Prop :=
  ∃ p, map_get m id = Some p ∧ num_ltb p ts = false.

Lemma num_ltb_irrefl x : num_ltb x x = false.
Proof. destruct x; simpl; try done. rewrite negb_false_iff, Qle_bool_iff. apply Qle_refl. Qed.

Lemma or_empty_timestamp o : readNumber (or_empty o) "timestamp" = r ← o; readNumber r "timestamp".
Proof. by destruct o. Qed.

(** What one stream does to the filed timestamps. *)
Lemma add_outbound_timestamps last e t o :
  tt_nextRemoteTimestampsMs (add_outbound last e t o) =
  match remote_of e o with
  | Some (id, ts) =>
      if match map_get last id with Some p => num_ltb p ts | None => true end
      then map_set (tt_nextRemoteTimestampsMs t) id ts else tt_nextRemoteTimestampsMs t
  | None => tt_nextRemoteTimestampsMs t
  end.
Proof.
  cbn [add_outbound tt_nextRemoteTimestampsMs]. unfold remote_of.
  destruct (present (readString o "remoteId")) as [id|]; [|done]. cbn [mbind option_bind].
  destruct (map_get (en_remoteById e) id) as [r|]; [|done]. change (or_empty (Some r)) with r. cbn [mbind option_bind remoteMetricsFresh].
  destruct (readNumber r "timestamp") as [ts|]; [|done]. cbn [mbind option_bind].
  by destruct (map_get last id).
Qed.

(** Streams that name the same report see the same timestamp. *)
Lemma remote_of_fun e o o' id ts ts' :
  remote_of e o = Some (id, ts) → remote_of e o' = Some (id, ts') → ts = ts'.
Proof.
  unfold remote_of. intros H H'.
  destruct (present (readString o "remoteId")) as [i|], (present (readString o' "remoteId")) as [i'|]; simpl in *; try done.
  destruct (map_get _ i) as [r|] eqn:E, (map_get _ i') as [r'|] eqn:E'; simpl in *; try done.
  destruct (readNumber r _) eqn:En, (readNumber r' _) eqn:En'; simplify_eq/=. congruence.
Qed.

Definition filed (last : list (string * num)) (e : entries) (done_ : list jsval) (m : list (string * num)) : Prop :=
  (∀ o id ts, o ∈ done_ → remote_of e o = Some (id, ts) → not_newer m id ts) ∧
  (∀ id, map_get m id = map_get last id ∨ ∃ o ts, o ∈ done_ ∧ remote_of e o = Some (id, ts) ∧ map_get m id = Some ts ∧
     (∀ p, map_get last id = Some p → num_ltb p ts = true)).

Lemma filed_step last e done_ t o :
  filed last e done_ (tt_nextRemoteTimestampsMs t) →
  filed last e (done_ ++ [o]) (tt_nextRemoteTimestampsMs (add_outbound last e t o)).
Proof.
  intros [H1 H2]. rewrite add_outbound_timestamps.
  set (m := tt_nextRemoteTimestampsMs t) in *.
  destruct (remote_of e o) as [[id ts]|] eqn:Er.
  2:{ split.
      - intros o' id ts [Ho|Ho%list_elem_of_singleton]%elem_of_app Hr; [by eapply H1|subst; congruence].
      - intros id. destruct (H2 id) as [?|(o' & ts & ? & ?)]; [by left|]. right. exists o', ts. set_solver. }
  destruct (match map_get last id with Some p => num_ltb p ts | None => true end) eqn:Ef.
  - split.
    + intros o' id' ts' Ho Hr. destruct (decide (id' = id)) as [->|Hne].
      * exists ts. rewrite map_get_set_eq. split; [done|]. rewrite (remote_of_fun e o o' id ts ts') by done.
        apply num_ltb_irrefl.
      * destruct (H1 o' id' ts') as (p & Hp & Hn).
        { apply elem_of_app in Ho as [Ho|Ho%list_elem_of_singleton]; [done|subst; congruence]. } { done. }
        exists p. by rewrite map_get_set_ne.
    + intros id'. destruct (decide (id' = id)) as [->|Hne].
      * right. exists o, ts. rewrite map_get_set_eq. split_and!; try done; [set_solver|].
        intros p Hp. by rewrite Hp in Ef.
      * rewrite map_get_set_ne by done. destruct (H2 id') as [?|(o' & ts' & ? & ?)]; [by left|].
        right. exists o', ts'. set_solver.
  - destruct (map_get last id) as [p|] eqn:El; [|done]. split.
    + intros o' id' ts' [Ho|Ho%list_elem_of_singleton]%elem_of_app Hr; [by eapply H1|]. subst o'. rewrite Er in Hr. simplify_eq.
      destruct (H2 id') as [H|(o1 & ts1 & Ho1 & Hr1 & Hm & Hlt)].
      * exists p. by rewrite H.
      * exists ts1. split; [done|]. rewrite (remote_of_fun e o o1 id' ts' ts1) by done. apply num_ltb_irrefl.
    + intros id'. destruct (H2 id') as [?|(o' & ts' & ? & ?)]; [by left|]. right. exists o', ts'. set_solver.
Qed.

Lemma filed_fold last e outbounds done_ t :
  filed last e done_ (tt_nextRemoteTimestampsMs t) →
  filed last e (done_ ++ outbounds) (tt_nextRemoteTimestampsMs (foldl (add_outbound last e) t outbounds)).
Proof.
  revert done_ t. induction outbounds as [|o os IH]; intros done_ t H; simpl; [by rewrite app_nil_r|].
  change (o :: os) with ([o] ++ os). rewrite (app_assoc done_ [o] os). apply IH. by apply filed_step.
Qed.

(** A second pass over the same streams finds nothing fresh. *)
Lemma stale_fold last e outbounds t :
  (∀ o, o ∈ outbounds → ∃ id ts, remote_of e o = Some (id, ts) ∧ not_newer last id ts) →
  let t' := foldl (add_outbound last e) t outbounds in
  tt_jitter t' = tt_jitter t ∧ tt_fallbackRtt t' = tt_fallbackRtt t ∧
  tt_nextRemoteTimestampsMs t' = tt_nextRemoteTimestampsMs t.
Proof.
  revert t. induction outbounds as [|o os IH]; intros t H; [done|]. cbn [foldl].
  destruct (IH (add_outbound last e t o)) as (-> & -> & ->); [intros; apply H; by right|].
  destruct (H o) as (id & ts & Hr & p & Hp & Hn); [by left|].
  rewrite add_outbound_timestamps, Hr, Hp, Hn. cbn [add_outbound tt_jitter tt_fallbackRtt].
  unfold remote_of in Hr. destruct (present (readString o "remoteId")) as [i|]; [|done]. simpl in Hr.
  destruct (map_get (en_remoteById e) i) as [r|] eqn:Em; [|done]. simpl in Hr.
  destruct (readNumber r "timestamp") as [ts'|] eqn:Et; [|done]. simplify_eq/=.
  rewrite Em. change (or_empty (Some r)) with r. cbn [remoteMetricsFresh mbind option_bind]. rewrite Et, Hp, Hn. done.
Qed.

(** Without candidate pairs there is no transport round-trip time. *)
Lemma no_pair e o : en_candidatePairsById e = [] → en_selectedCandidatePairs e = [] →
  resolveCandidatePair o (en_transportsById e) (en_candidatePairsById e) (en_selectedCandidatePairs e) = None.
Proof.
  intros -> ->. unfold resolveCandidatePair.
  destruct (present (readString o "transportId")); simpl; [|done]. by destruct (present _).
Qed.

Lemma no_pair_fold last e outbounds t : en_candidatePairsById e = [] → en_selectedCandidatePairs e = [] →
  tt_transportRtt (foldl (add_outbound last e) t outbounds) = tt_transportRtt t.
Proof.
  intros Hc Hs. revert t. induction outbounds as [|o os IH]; intros t; [done|]. cbn [foldl].
  rewrite IH. cbn [add_outbound tt_transportRtt]. by rewrite no_pair by done.
Qed.

(** A remote receiver report is used once.  After a snapshot of a report in
    which every stream names a timestamped remote report, a second snapshot of
    the same report has no jitter, no remote round-trip time and leaves the
    filed timestamps as they are; and timestamps only move forward. *)
Theorem remote_reports_count_once last base base' report now now' :
  let e := foldl add_entry no_entries report in
  (∀ o, o ∈ en_outbounds e → is_Some (remote_of e o)) →
  let '(last', _) := getSnapshot last base report now in
  let '(last'', r) := getSnapshot last' base' report now' in
  rs_jitterMs r = None ∧ last'' = last' ∧
  (en_candidatePairsById e = [] → en_selectedCandidatePairs e = [] → rs_roundTripTimeMs r = None) ∧
  (∀ id p, map_get last id = Some p → ∃ p', map_get last' id = Some p' ∧ (p' = p ∨ num_ltb p p' = true)).
Proof.
  intros e Hall. unfold getSnapshot. fold e. destruct (en_outbounds e) as [|o os] eqn:Eo.
  { split_and!; try done. eauto. }
  destruct (filed_fold last e (o :: os) [] (no_totals last)) as [Hf1 Hf2].
  { split; [intros ? ? ? H; by apply not_elem_of_nil in H|by left]. }
  cbn [app] in Hf1, Hf2.
  set (last' := tt_nextRemoteTimestampsMs _) in *. cbv zeta.
  destruct (stale_fold last' e (o :: os) (no_totals last')) as (Hj & Hfb & Hn).
  { intros o' Ho'. destruct (Hall o' Ho') as [[id ts] Hr]. exists id, ts. split; [done|]. by eapply Hf1. }
  split_and!.
  - cbn [finish rs_jitterMs]. by rewrite Hj.
  - by rewrite Hn.
  - intros Hc Hs. cbn [finish rs_roundTripTimeMs]. rewrite Hfb.
    rewrite no_pair_fold by done. done.
  - intros id p Hp. destruct (Hf2 id) as [->|(o' & ts & _ & _ & -> & Hlt)]; [eauto|].
    exists ts. split; [done|]. right. by apply Hlt.
Qed.

(** ** Witnesses *)

Definition demo_base : SnapshotBase := {|
  sb_source := Camera; sb_kind := KVideo; sb_producerId := "p1"; sb_trackId := Some "t1";
  sb_configuredBitrateBps := Some (num_of_Z 900000) |}.

(** One video stream with a receiver report of 20 ms jitter and 50 ms round trip. *)
Definition demo_report : list jsval := [
  JObj [("type", JStr "outbound-rtp"); ("id", JStr "o1"); ("timestamp", js_int 5000);
        ("bytesSent", js_int 100000); ("packetsSent", js_int 100); ("remoteId", JStr "r1")];
  JObj [("type", JStr "remote-inbound-rtp"); ("id", JStr "r1"); ("timestamp", js_int 4900);
        ("packetsLost", js_int 3); ("jitter", JNum (lit (2#100))); ("roundTripTime", JNum (lit (5#100)))]].

Definition integer_timestamps (report : list jsval) : bool :=
  forallb (λ e, match js_get e "timestamp" with JNum n => is_double n | _ => true end) report.

Lemma integer_timestamps_double report : integer_timestamps report = true → double_timestamps report.
Proof.
  unfold integer_timestamps, double_timestamps. rewrite forallb_forall. intros H e n He Hn.
  apply list_elem_of_In in He. specialize (H e He). by rewrite Hn in H.
Qed.

Lemma provider_signals_wf_witness :
  wf_signals (deriveSignals (getSnapshot [] demo_base demo_report (num_of_Z 7000)).2
    (Some (getSnapshot [] demo_base [] (num_of_Z 4000)).2) None None empty_reason_context) ∧
  rs_jitterMs (getSnapshot [] demo_base demo_report (num_of_Z 7000)).2 = Some (num_of_Z 20).
Proof.
  split; [|vm_compute; reflexivity].
  apply (provider_signals_wf [] [] demo_base [] demo_report (num_of_Z 4000) (num_of_Z 7000) empty_reason_context).
  - apply integer_timestamps_double. vm_compute. reflexivity.
  - apply integer_timestamps_double. vm_compute. reflexivity.
  - vm_compute. reflexivity.
  - vm_compute. reflexivity.
Defined.

Lemma remote_reports_count_once_witness :
  ∃ last1 r1 last2 r2, getSnapshot [] demo_base demo_report (num_of_Z 7000) = (last1, r1) ∧
    getSnapshot last1 demo_base demo_report (num_of_Z 8000) = (last2, r2) ∧
    rs_jitterMs r1 = Some (num_of_Z 20) ∧ rs_jitterMs r2 = None.
Proof.
  pose proof (remote_reports_count_once [] demo_base demo_base demo_report (num_of_Z 7000) (num_of_Z 8000)) as H.
  destruct (getSnapshot [] demo_base demo_report (num_of_Z 7000)) as [last1 r1] eqn:E1.
  destruct (getSnapshot last1 demo_base demo_report (num_of_Z 8000)) as [last2 r2] eqn:E2.
  exists last1, r1, last2, r2. split; [done|]. split; [exact E2|]. split.
  - replace r1 with ((last1, r1).2) by reflexivity. rewrite <-E1. vm_compute. reflexivity.
  - apply H. intros o Ho. vm_compute in Ho.
    apply list_elem_of_singleton in Ho as ->. vm_compute. eauto.
Defined.

(** The conversion from seconds is not monotone: ten seconds become ten
    thousand milliseconds, but anything above, such as eleven seconds, is taken
    for milliseconds. *)
Lemma normalizeTimeToMs_cutoff :
  normalizeTimeToMs (Some (num_of_Z 10)) = Some (num_of_Z 10000) ∧
  ∀ v, is_finite v = true → num_ltb (num_of_Z 10) v = true → normalizeTimeToMs (Some v) = Some v.
Proof.
  split; [vm_compute; reflexivity|]. intros v Hf Hv. unfold normalizeTimeToMs. rewrite Hf. simpl negb. cbv iota.
  rewrite (num_ltb_geb_excl _ _ Hv). by rewrite andb_false_r.
Qed.
