(* ===== verification/Overrides.v ===== *)
(** * Overrides (src/client/lib/qos/controller.js)

    The store of server and application overrides of [PublisherQosController]:
    receiving and clearing ([handleOverride]), merging and expiry
    ([_mergeOverrides], [getActiveOverride]), and the coordination override of
    the peer session ([setCoordinationOverride]). *)

From S2P Require Import Prelude JsNum JsVal QosTypes.
Local Open Scope string_scope.
Local Open Scope list_scope.
Local Open Scope Z_scope.

Record OverrideEntry := {
  oe_data : QosOverride;
  oe_expiresAtMs : Z;
}.

(** [activeOverrides] ([None]: not created yet) and the merged [activeOverride]. *)
Record OverrideStore := {
  os_activeOverrides : option (list (string * OverrideEntry));
  os_activeOverride : option OverrideEntry;
}.

Definition no_overrides : OverrideStore := {| os_activeOverrides := None; os_activeOverride := None |}.

(** ** Merging *)

(** [{ ...merged, <the more restrictive values> }]. *)
Definition merge_override (merged data : QosOverride) : QosOverride := {|
  ov_scope := ov_scope merged;
  ov_trackId := ov_trackId merged;
  ov_maxLevelClamp :=
    match ov_maxLevelClamp data with
    | Some k => match ov_maxLevelClamp merged with Some m => Some (Z.min m k) | None => Some k end
    | None => ov_maxLevelClamp merged
    end;
  ov_forceAudioOnly := if opt_true (ov_forceAudioOnly data) then Some true else ov_forceAudioOnly merged;
  ov_disableRecovery := if opt_true (ov_disableRecovery data) then Some true else ov_disableRecovery merged;
  ov_pauseUpstream := if opt_true (ov_pauseUpstream data) then Some true else ov_pauseUpstream merged;
  ov_resumeUpstream := if opt_true (ov_resumeUpstream data) then Some true else ov_resumeUpstream merged;
  ov_ttlMs := ov_ttlMs merged;
  ov_reason := ov_reason merged |}.

(** One entry of the loop; [None] while nothing has been merged. *)
Definition merge_entry (merged : option OverrideEntry) (entry : OverrideEntry) : OverrideEntry :=
  match merged with
  | None => entry
  | Some m => {| oe_data := merge_override (oe_data m) (oe_data entry);
                 oe_expiresAtMs := Z.min (oe_expiresAtMs m) (oe_expiresAtMs entry) |}
  end.

(** The loop deletes expired entries from the map it iterates. *)
Fixpoint merge_loop (nowMs : Z) (entries : list (string * OverrideEntry)) (merged : option OverrideEntry)
    : list (string * OverrideEntry) * option OverrideEntry :=
  match entries with
  | [] => ([], merged)
  | (key, entry) :: entries =>
      if oe_expiresAtMs entry <=? nowMs then merge_loop nowMs entries merged
      else
        let '(kept, m) := merge_loop nowMs entries (Some (merge_entry merged entry)) in
        ((key, entry) :: kept, m)
  end.

Definition _mergeOverrides (o : option (list (string * OverrideEntry))) (nowMs : Z)
    : option (list (string * OverrideEntry)) * option OverrideEntry :=
  match o with
  | None => (None, None)
  | Some [] => (Some [], None)
  | Some entries => let '(kept, merged) := merge_loop nowMs entries None in (Some kept, merged)
  end.

Definition getActiveOverride (s : OverrideStore) (nowMs : Z) : OverrideStore * option QosOverride :=
  let '(entries, merged) := _mergeOverrides (os_activeOverrides s) nowMs in
  match merged with
  | None => ({| os_activeOverrides := entries; os_activeOverride := None |}, None)
  | Some m =>
      if oe_expiresAtMs m <=? nowMs
      then ({| os_activeOverrides := entries; os_activeOverride := None |}, None)
      else ({| os_activeOverrides := entries; os_activeOverride := Some m |}, Some (oe_data m))
  end.

(** ** Receiving *)

Definition startsWith (s p : string) : bool := String.prefix p s.

(** [s.replace(/suffix$/, '')]. *)
Definition strip_suffix (suffix s : string) : string :=
  let n := (String.length s - String.length suffix)%nat in
  if (String.length suffix <=? String.length s)%nat && String.eqb (String.substring n (String.length suffix) s) suffix
  then String.substring 0 n s else s.

(** Whether a clear request with [reason] deletes the override filed under [key]. *)
Definition clears (reason key : string) : bool :=
  if String.eqb reason "server_ttl_expired" then true
  else if startsWith reason "downlink_v2_" || startsWith reason "downlink_v3_" then
    startsWith key "downlink_v2_" || startsWith key "downlink_v3_"
  else if negb (startsWith reason "server_") then negb (startsWith key "server_")
  else startsWith key (strip_suffix "_expired" (strip_suffix "_clear" reason)).

(** [for (const key of [...keys()]) if (test(key)) delete(key)]. *)
Definition delete_keys (test : string → bool) (entries : list (string * OverrideEntry)) : list (string * OverrideEntry) :=
  foldl (λ m key, if test key then map_delete m key else m) entries (map_keys entries).

(** [_reason || fallback]. *)
Definition str_or (s fallback : string) : string := if String.eqb s "" then fallback else s.

Definition handleOverride (trackId : string) (s : OverrideStore) (nowMs : Z) (override : QosOverride) : OverrideStore :=
  if bool_decide (ov_scope override = TrackScope) &&
     negb (bool_decide (ov_trackId override = Some (Some trackId)))
  then s
  else
    let ttlMs := Z.max 0 (ov_ttlMs override) in
    let entries :=
      if ttlMs =? 0 then
        match os_activeOverrides s with
        | Some entries => Some (delete_keys (clears (str_or (ov_reason override) "")) entries)
        | None => None
        end
      else
        let key := str_or (ov_reason override) "_default" in
        Some (map_set (default [] (os_activeOverrides s)) key
          {| oe_data := override; oe_expiresAtMs := nowMs + ttlMs |}) in
    let '(entries, merged) := _mergeOverrides entries nowMs in
    {| os_activeOverrides := entries; os_activeOverride := merged |}.

(** ** Coordination override *)

Record CoordinationOverride := {
  co_maxLevelClamp : option Z;
  co_disableRecovery : bool;
  co_forceAudioOnly : bool;
  co_pauseUpstream : bool;
  co_resumeUpstream : bool;
}.

Definition empty_coordination (c : CoordinationOverride) : bool :=
  match co_maxLevelClamp c with
  | Some _ => false
  | None => negb (co_disableRecovery c || co_forceAudioOnly c || co_pauseUpstream c || co_resumeUpstream c)
  end.

(** Flags other than [true] are dropped; an override without content is none. *)
Definition setCoordinationOverride (override : option CoordinationOverride) : option CoordinationOverride :=
  match override with
  | None => None
  | Some o =>
      let normalized := {|
        co_maxLevelClamp := match co_maxLevelClamp o with Some k => Some (Z.max 0 k) | None => None end;
        co_disableRecovery := co_disableRecovery o; co_forceAudioOnly := co_forceAudioOnly o;
        co_pauseUpstream := co_pauseUpstream o; co_resumeUpstream := co_resumeUpstream o |} in
      if empty_coordination normalized then None else Some normalized
  end.

(** ** Lemmas *)

Definition live (nowMs : Z) (e : string * OverrideEntry) : bool := nowMs <? oe_expiresAtMs e.2.

Definition live_entries (s : OverrideStore) (nowMs : Z) : list (string * OverrideEntry) :=
  List.filter (live nowMs) (default [] (os_activeOverrides s)).

Definition merge_all (es : list (string * OverrideEntry)) (merged : option OverrideEntry) : option OverrideEntry :=
  foldl (λ m e, Some (merge_entry m e.2)) merged es.

Lemma merge_loop_spec nowMs es m :
  merge_loop nowMs es m = (List.filter (live nowMs) es, merge_all (List.filter (live nowMs) es) m).
Proof.
  revert m. induction es as [|[k e] es IH]; intros m; simpl; [done|].
  assert (live nowMs (k, e) = negb (oe_expiresAtMs e <=? nowMs)) as -> by apply Z.ltb_antisym.
  rewrite !IH. by destruct (oe_expiresAtMs e <=? nowMs).
Qed.

Lemma mergeOverrides_spec o nowMs :
  let es := List.filter (live nowMs) (default [] o) in
  default [] (_mergeOverrides o nowMs).1 = es ∧ (_mergeOverrides o nowMs).2 = merge_all es None.
Proof.
  destruct o as [[|e es]|]; [done| |done]. unfold _mergeOverrides. rewrite merge_loop_spec. done.
Qed.

(** The merged expiry is the earliest of the merged entries'. *)
Lemma merge_all_expiry nowMs es m : Forall (λ e, live nowMs e = true) es →
  (∀ x, m = Some x → nowMs < oe_expiresAtMs x) →
  ∀ x, merge_all es m = Some x → nowMs < oe_expiresAtMs x.
Proof.
  intros H. revert m. induction H as [|[k e] es He _ IH]; intros m Hm; simpl; [done|].
  apply IH. intros x [= <-]. unfold live in He; simpl in He. apply Z.ltb_lt in He.
  unfold merge_entry. destruct m as [y|]; simpl; [|done]. specialize (Hm y eq_refl). lia.
Qed.

Lemma filter_live_Forall nowMs es : Forall (λ e, live nowMs e = true) (List.filter (live nowMs) es).
Proof. apply Forall_forall. intros e He%list_elem_of_In%List.filter_In. apply He. Qed.

Lemma merge_all_none es : merge_all es None = None ↔ es = [].
Proof.
  split; [|by intros ->]. destruct es as [|e es]; [done|]. simpl.
  assert (∀ es m, merge_all es (Some m) ≠ None) as H.
  { clear. induction es as [|e es IH]; simpl; [done|]. intros m. apply IH. }
  intros E. by apply H in E.
Qed.

(** What a flag of the merged override says. *)
Lemma merge_all_flag (f : QosOverride → option bool) es m x :
  (∀ a b, f (merge_override a b) = if opt_true (f b) then Some true else f a) →
  merge_all es m = Some x →
  opt_true (f (oe_data x)) = match m with Some y => opt_true (f (oe_data y)) | None => false end
    || existsb (λ e, opt_true (f (oe_data e.2))) es.
Proof.
  intros Hf. revert m. induction es as [|e es IH]; intros m; simpl.
  { intros ->. by rewrite orb_false_r. }
  intros H. rewrite (IH _ H). unfold merge_entry. destruct m as [y|]; simpl; [|done].
  rewrite Hf. destruct (opt_true (f (oe_data e.2))) eqn:E; simpl; [by rewrite !orb_true_r|done].
Qed.

(** The least of the clamps. *)
Definition min_clamp (a b : option Z) : option Z :=
  match b with
  | Some k => match a with Some m => Some (Z.min m k) | None => Some k end
  | None => a
  end.

Lemma merge_all_clamp es m x :
  merge_all es m = Some x →
  ov_maxLevelClamp (oe_data x) =
    foldl (λ a e, min_clamp a (ov_maxLevelClamp (oe_data e.2)))
      (match m with Some y => ov_maxLevelClamp (oe_data y) | None => None end) es.
Proof.
  revert m. induction es as [|e es IH]; intros m; simpl; [by intros ->|].
  intros H. rewrite (IH _ H). unfold merge_entry. f_equal. destruct m; simpl; [done|].
  by destruct (ov_maxLevelClamp (oe_data e.2)).
Qed.

Lemma fold_min_clamp es a :
  let r := foldl (λ a e, min_clamp a (ov_maxLevelClamp (oe_data e.2))) a es in
  (∀ k, r = Some k → a = Some k ∨ ∃ e, e ∈ es ∧ ov_maxLevelClamp (oe_data e.2) = Some k) ∧
  (∀ j, a = Some j ∨ (∃ e : string * OverrideEntry, e ∈ es ∧ ov_maxLevelClamp (oe_data e.2) = Some j) →
     ∃ k, r = Some k ∧ k <= j).
Proof.
  revert a. induction es as [|e es IH]; intros a; simpl.
  { split; [by left|]. intros j [->|(e & He & _)]; [eauto using Z.le_refl|by apply not_elem_of_nil in He]. }
  destruct (IH (min_clamp a (ov_maxLevelClamp (oe_data e.2)))) as [H1 H2]. split.
  - intros k Hk. destruct (H1 k Hk) as [E|(e' & ? & ?)]; [|right; exists e'; set_solver].
    unfold min_clamp in E. destruct (ov_maxLevelClamp (oe_data e.2)) as [b|] eqn:Eb; [|by left].
    destruct a as [m|]; simplify_eq; [|right; exists e; set_solver].
    destruct (Z.min_spec m b) as [[_ ->]|[_ ->]]; [by left|right; exists e; set_solver].
  - intros j Hj. assert (∃ j', j' <= j ∧ (min_clamp a (ov_maxLevelClamp (oe_data e.2)) = Some j' ∨
      ∃ e', e' ∈ es ∧ ov_maxLevelClamp (oe_data e'.2) = Some j')) as (j' & Hle & Hj').
    { destruct Hj as [->|(e' & He & E)].
      - unfold min_clamp. destruct (ov_maxLevelClamp (oe_data e.2)) as [b|]; [|eauto using Z.le_refl].
        exists (Z.min j b). split; [lia|by left].
      - apply elem_of_cons in He as [->|He]; [|exists j; split; [lia|right; eauto]].
        rewrite E. unfold min_clamp. destruct a as [m|]; [exists (Z.min m j)|exists j]; (split; [lia|by left]). }
    destruct (H2 j' Hj') as (k & -> & ?). exists k. split; [done|lia].
Qed.

Definition flag_in (f : QosOverride → option bool) (es : list (string * OverrideEntry)) : bool :=
  existsb (λ e, opt_true (f (oe_data e.2))) es.

Definition clamps (es : list (string * OverrideEntry)) (k : Z) : Prop :=
  ∃ e, e ∈ es ∧ ov_maxLevelClamp (oe_data e.2) = Some k.

Lemma getActiveOverride_eq s nowMs :
  getActiveOverride s nowMs =
    ({| os_activeOverrides := (_mergeOverrides (os_activeOverrides s) nowMs).1;
        os_activeOverride := merge_all (live_entries s nowMs) None |},
     oe_data <$> merge_all (live_entries s nowMs) None).
Proof.
  unfold getActiveOverride. pose proof (mergeOverrides_spec (os_activeOverrides s) nowMs) as [_ H].
  destruct (_mergeOverrides _ _) as [es m]; simpl in *. subst m. fold (live_entries s nowMs).
  destruct (merge_all (live_entries s nowMs) None) as [x|] eqn:E; [|done].
  pose proof (merge_all_expiry nowMs (live_entries s nowMs) None (filter_live_Forall _ _) ltac:(done) x E).
  destruct (_ <=? _) eqn:Ex; [zlia|done].
Qed.

(** C22: the override in force merges exactly the entries that have not expired:
    none if there are none, otherwise the smallest clamp among them and the
    disjunction of each of their flags; expired entries are dropped from the
    store. *)
Theorem active_override_most_restrictive s nowMs :
  let '(s', r) := getActiveOverride s nowMs in
  default [] (os_activeOverrides s') = live_entries s nowMs ∧
  match r with
  | None => live_entries s nowMs = []
  | Some o =>
      live_entries s nowMs ≠ [] ∧
      (∀ k, ov_maxLevelClamp o = Some k → clamps (live_entries s nowMs) k) ∧
      (∀ j, clamps (live_entries s nowMs) j → ∃ k, ov_maxLevelClamp o = Some k ∧ k <= j) ∧
      opt_true (ov_forceAudioOnly o) = flag_in ov_forceAudioOnly (live_entries s nowMs) ∧
      opt_true (ov_disableRecovery o) = flag_in ov_disableRecovery (live_entries s nowMs) ∧
      opt_true (ov_pauseUpstream o) = flag_in ov_pauseUpstream (live_entries s nowMs) ∧
      opt_true (ov_resumeUpstream o) = flag_in ov_resumeUpstream (live_entries s nowMs)
  end.
Proof.
  rewrite getActiveOverride_eq. split; [apply mergeOverrides_spec|].
  destruct (merge_all (live_entries s nowMs) None) as [x|] eqn:E; simpl; [|by apply merge_all_none].
  pose proof (merge_all_clamp _ _ _ E) as Hc. destruct (fold_min_clamp (live_entries s nowMs) None) as [H1 H2].
  rewrite <-Hc in H1, H2. split_and!.
  - intros E'. rewrite E' in E. done.
  - intros k Hk. destruct (H1 k Hk) as [|He]; [done|]. exact He.
  - intros j Hj. apply H2. by right.
  - by apply (merge_all_flag ov_forceAudioOnly _ None).
  - by apply (merge_all_flag ov_disableRecovery _ None).
  - by apply (merge_all_flag ov_pauseUpstream _ None).
  - by apply (merge_all_flag ov_resumeUpstream _ None).
Qed.

(** ** Receiving and clearing *)

Lemma delete_keys_fold (test : string → bool) ks (m : list (string * OverrideEntry)) :
  foldl (λ m key, if test key then map_delete m key else m) m ks =
  List.filter (λ e, negb (bool_decide (e.1 ∈ ks) && test e.1)) m.
Proof.
  revert m. induction ks as [|k ks IH]; intros m; simpl.
  - induction m as [|e m IHm]; simpl; [done|]. by f_equal.
  - rewrite IH. destruct (test k) eqn:Et.
    + unfold map_delete. induction m as [|e m IHm]; [done|]. rewrite filter_cons.
      destruct (decide (e.1 = k)) as [Hk|Hk].
      * rewrite decide_False by tauto. simpl.
        rewrite (bool_decide_true (e.1 ∈ k :: ks)) by set_solver. rewrite Hk, Et. simpl. exact IHm.
      * rewrite decide_True by done. simpl.
        rewrite (bool_decide_ext (e.1 ∈ k :: ks) (e.1 ∈ ks)) by set_solver. by rewrite IHm.
    + apply List.filter_ext. intros e. f_equal. destruct (decide (e.1 = k)) as [Hk|Hk].
      * by rewrite Hk, Et, !andb_false_r.
      * by rewrite (bool_decide_ext (e.1 ∈ k :: ks) (e.1 ∈ ks)) by set_solver.
Qed.

Lemma delete_keys_spec test m :
  delete_keys test m = List.filter (λ e, negb (test e.1)) m.
Proof.
  unfold delete_keys. rewrite delete_keys_fold. apply List.filter_ext_in. intros e He%list_elem_of_In.
  rewrite bool_decide_true; [done|]. unfold map_keys. apply list_elem_of_fmap. eauto.
Qed.

(** The override is meant for the controller of [trackId]. *)
Definition addressed (trackId : string) (o : QosOverride) : Prop :=
  ov_scope o = TrackScope → ov_trackId o = Some (Some trackId).

Lemma addressed_guard trackId o : addressed trackId o →
  bool_decide (ov_scope o = TrackScope) && negb (bool_decide (ov_trackId o = Some (Some trackId))) = false.
Proof.
  intros H. case_bool_decide as E; [|done]. by rewrite (bool_decide_true _ (H E)).
Qed.

#[export] Instance addressed_dec trackId o : Decision (addressed trackId o).
Proof. unfold addressed. solve_decision. Defined.

Lemma map_set_keeps (m : list (string * OverrideEntry)) k x k' y : (k, x) ∈ m → k' ≠ k → (k, x) ∈ map_set m k' y.
Proof.
  intros Hin Hne. induction m as [|[k0 x0] m IH]; [by apply not_elem_of_nil in Hin|]. cbn.
  apply elem_of_cons in Hin as [[= -> ->]|Hin]; case_decide; set_solver.
Qed.

(** An override for another track changes nothing.  One with a lifetime is
    filed under its reason with its expiry, replacing one of the same reason; a
    clear request deletes exactly the overrides its reason covers.  Either way
    the entries that have expired are dropped and no other one is touched. *)
Theorem handleOverride_store trackId s nowMs o :
  let entries := default [] (os_activeOverrides s) in
  let entries' := default [] (os_activeOverrides (handleOverride trackId s nowMs o)) in
  (¬ addressed trackId o → handleOverride trackId s nowMs o = s) ∧
  (addressed trackId o → 0 < ov_ttlMs o →
     entries' = List.filter (live nowMs) (map_set entries (str_or (ov_reason o) "_default")
       {| oe_data := o; oe_expiresAtMs := nowMs + ov_ttlMs o |})) ∧
  (addressed trackId o → ov_ttlMs o <= 0 →
     entries' = List.filter (live nowMs) (List.filter (λ e, negb (clears (ov_reason o) e.1)) entries)).
Proof.
  cbv zeta. unfold handleOverride. split_and!.
  - intros H. case_bool_decide as E1; case_bool_decide as E2; try done; exfalso; apply H; by intros ?.
  - intros Ha Ht. rewrite (addressed_guard _ _ Ha). rewrite Z.max_r by lia.
    destruct (ov_ttlMs o =? 0) eqn:E; [zlia|]. cbv iota zeta.
    match goal with |- context [_mergeOverrides ?es ?t] => destruct (mergeOverrides_spec es t) as [H _];
      destruct (_mergeOverrides es t) as [es' m] end. exact H.
  - intros Ha Ht. rewrite (addressed_guard _ _ Ha). rewrite Z.max_l by lia. cbv iota zeta.
    change (0 =? 0) with true. cbv iota.
    match goal with |- context [_mergeOverrides ?es ?t] => destruct (mergeOverrides_spec es t) as [H _];
      destruct (_mergeOverrides es t) as [es' m] end.
    simpl in H |- *. rewrite H. f_equal. destruct (os_activeOverrides s) as [es|]; simpl; [|done].
    rewrite delete_keys_spec. by destruct (ov_reason o).
Qed.

Lemma filter_live_elem nowMs e es : e ∈ es → live nowMs e = true → e ∈ List.filter (live nowMs) es.
Proof. intros H1 H2. apply list_elem_of_In, List.filter_In. split; [by apply list_elem_of_In|done]. Qed.

Lemma flag_in_elem f e es : e ∈ es → opt_true (f (oe_data e.2)) = true → flag_in f es = true.
Proof. intros H1 H2. apply existsb_elem. eauto. Qed.

(** The entry an override is filed as. *)
Definition entry_of (nowMs : Z) (o : QosOverride) : string * OverrideEntry :=
  (str_or (ov_reason o) "_default", {| oe_data := o; oe_expiresAtMs := nowMs + ov_ttlMs o |}).

Lemma handled_filed trackId s nowMs o : addressed trackId o → 0 < ov_ttlMs o →
  entry_of nowMs o ∈ default [] (os_activeOverrides (handleOverride trackId s nowMs o)).
Proof.
  intros Ha Ht. destruct (handleOverride_store trackId s nowMs o) as (_ & H & _). rewrite H by done.
  apply filter_live_elem; [apply map_get_elem, map_get_set_eq|]. unfold live; simpl. apply Z.ltb_lt. lia.
Qed.

(** What happens to the store afterwards: at a time, another message arrives, or
    ([None]) a sample asks for the override in force, which drops expired ones. *)
Definition store_step (trackId : string) (s : OverrideStore) (e : Z * option QosOverride) : OverrideStore :=
  match e.2 with
  | Some o => handleOverride trackId s e.1 o
  | None => (getActiveOverride s e.1).1
  end.

(** The message [o] does not replace or clear the override filed under [key]: it
    is for another track, or has a lifetime and another reason, or is a request
    to clear other reasons. *)
Definition spares (trackId key : string) (o : QosOverride) : Prop :=
  addressed trackId o →
  if 0 <? ov_ttlMs o then str_or (ov_reason o) "_default" ≠ key else clears (ov_reason o) key = false.

Lemma store_step_keeps trackId s e x :
  x ∈ default [] (os_activeOverrides s) → e.1 < oe_expiresAtMs x.2 →
  (∀ o, e.2 = Some o → spares trackId x.1 o) →
  x ∈ default [] (os_activeOverrides (store_step trackId s e)).
Proof.
  intros Hin Hlive Hs. unfold store_step. destruct e as [now [o|]]; cbn [fst snd] in *.
  2:{ rewrite getActiveOverride_eq. cbn. destruct (mergeOverrides_spec (os_activeOverrides s) now) as [-> _].
      apply filter_live_elem; [done|]. by apply Z.ltb_lt. }
  specialize (Hs o eq_refl). unfold spares in Hs.
  destruct (handleOverride_store trackId s now o) as (H0 & H1 & H2).
  destruct (decide (addressed trackId o)) as [Ha|Ha]; [|by rewrite H0]. specialize (Hs Ha).
  destruct (0 <? ov_ttlMs o) eqn:E; [apply Z.ltb_lt in E; rewrite H1 by done|apply Z.ltb_ge in E; rewrite H2 by done];
    (apply filter_live_elem; [|by apply Z.ltb_lt]).
  - destruct x as [k x]. apply map_set_keeps; [done|]. cbn in Hs. congruence.
  - apply list_elem_of_In, List.filter_In. split; [by apply list_elem_of_In|]. by rewrite Hs.
Qed.

Lemma store_steps_keep trackId es s x :
  x ∈ default [] (os_activeOverrides s) → Forall (λ e, e.1 < oe_expiresAtMs x.2) es →
  (∀ t o, (t, Some o) ∈ es → spares trackId x.1 o) →
  x ∈ default [] (os_activeOverrides (foldl (store_step trackId) s es)).
Proof.
  revert s. induction es as [|e es IH]; intros s Hx He Hs; [done|]. inversion_clear He. cbn. apply IH; [|done|].
  - apply store_step_keeps; [done|done|]. intros o Ho. apply (Hs e.1). rewrite <-Ho. destruct e. set_solver.
  - intros t o Ho. apply (Hs t). set_solver.
Qed.

(** C23: an addressed override with a lifetime is in force from its arrival until
    it expires, unless a later message replaces it (same reason) or clears it:
    whatever other messages and samples come until then, in any number, the merged
    override is at least as restrictive: its clamp is no larger and every flag
    the override sets is set. *)
Theorem override_in_force trackId s nowMs o later laterMs :
  addressed trackId o → 0 < ov_ttlMs o → nowMs <= laterMs < nowMs + ov_ttlMs o →
  Forall (λ e, e.1 <= laterMs) later →
  (∀ t o', (t, Some o') ∈ later → spares trackId (str_or (ov_reason o) "_default") o') →
  ∃ s' d, getActiveOverride (foldl (store_step trackId) (handleOverride trackId s nowMs o) later) laterMs = (s', Some d) ∧
    (∀ k, ov_maxLevelClamp o = Some k → ∃ k', ov_maxLevelClamp d = Some k' ∧ k' <= k) ∧
    (opt_true (ov_forceAudioOnly o) = true → opt_true (ov_forceAudioOnly d) = true) ∧
    (opt_true (ov_disableRecovery o) = true → opt_true (ov_disableRecovery d) = true) ∧
    (opt_true (ov_pauseUpstream o) = true → opt_true (ov_pauseUpstream d) = true) ∧
    (opt_true (ov_resumeUpstream o) = true → opt_true (ov_resumeUpstream d) = true).
Proof.
  intros Ha Ht Hl Hlater Hspare. rewrite getActiveOverride_eq.
  set (s1 := foldl _ _ later). set (es := live_entries s1 laterMs).
  assert (entry_of nowMs o ∈ es) as Hin.
  { apply filter_live_elem; [|apply Z.ltb_lt; cbn; lia].
    apply store_steps_keep; [by apply handled_filed| |exact Hspare].
    eapply Forall_impl; [exact Hlater|]. intros e He. cbn in *. lia. }
  destruct (merge_all es None) as [x|] eqn:E.
  2:{ apply merge_all_none in E. rewrite E in Hin. by apply not_elem_of_nil in Hin. }
  eexists _, (oe_data x). split; [done|].
  pose proof (merge_all_clamp _ _ _ E) as Hc. destruct (fold_min_clamp es None) as [_ H2].
  split_and!.
  - intros j Hj. rewrite Hc. apply H2. right. eexists. split; [exact Hin|done].
  - intros H. rewrite (merge_all_flag ov_forceAudioOnly _ None x) by done. by eapply flag_in_elem.
  - intros H. rewrite (merge_all_flag ov_disableRecovery _ None x) by done. by eapply flag_in_elem.
  - intros H. rewrite (merge_all_flag ov_pauseUpstream _ None x) by done. by eapply flag_in_elem.
  - intros H. rewrite (merge_all_flag ov_resumeUpstream _ None x) by done. by eapply flag_in_elem.
Qed.

(** ** Witnesses and examples *)

Definition server_override (reason : string) (clamp : option Z) (ttl : Z) : QosOverride := {|
  ov_scope := PeerScope; ov_trackId := None; ov_maxLevelClamp := clamp; ov_forceAudioOnly := None;
  ov_disableRecovery := Some true; ov_pauseUpstream := None; ov_resumeUpstream := None;
  ov_ttlMs := ttl; ov_reason := reason |}.

Definition demo_store : OverrideStore :=
  handleOverride "t1" (handleOverride "t1" no_overrides 0 (server_override "server_auto_poor" (Some 2) 8000))
    1000 (server_override "app_limit" (Some 3) 500).

Lemma handleOverride_store_witness :
  default [] (os_activeOverrides (handleOverride "t1" demo_store 1200 (server_override "server_auto_clear" None 0))) =
    [("app_limit", {| oe_data := server_override "app_limit" (Some 3) 500; oe_expiresAtMs := 1500 |})].
Proof.
  destruct (handleOverride_store "t1" demo_store 1200 (server_override "server_auto_clear" None 0)) as (_ & _ & H).
  rewrite H; [vm_compute; reflexivity | discriminate | simpl; lia].
Defined.

(** In between come a sample, an override of another reason, and a request that
    clears others. *)
Lemma override_in_force_witness :
  ∃ s' d k', getActiveOverride (foldl (store_step "t1")
      (handleOverride "t1" demo_store 1200 (server_override "server_room_pressure" (Some 1) 5000))
      [(1500, None); (1600, Some (server_override "app_limit" (Some 4) 9000));
       (2000, Some (server_override "server_auto_clear" None 0))]) 3000
      = (s', Some d) ∧ ov_maxLevelClamp d = Some k' ∧ k' <= 1.
Proof.
  destruct (override_in_force "t1" demo_store 1200 (server_override "server_room_pressure" (Some 1) 5000)
    [(1500, None); (1600, Some (server_override "app_limit" (Some 4) 9000));
     (2000, Some (server_override "server_auto_clear" None 0))] 3000)
    as (s' & d & E & Hk & _).
  - discriminate.
  - simpl; lia.
  - simpl; lia.
  - repeat constructor; simpl; lia.
  - intros t o' H. repeat (apply elem_of_cons in H as [H|H]; [first [discriminate H|
      injection H as _ ->; intros _; vm_compute; first [reflexivity|discriminate]]|]). by apply not_elem_of_nil in H.
  - destruct (Hk 1 eq_refl) as (k' & H1 & H2). exists s', d, k'. auto.
Defined.

(** What the side condition excludes: a weaker override of the same reason takes
    the place of the one in force. *)
Example same_reason_replaces :
  ov_maxLevelClamp <$> (getActiveOverride (foldl (store_step "t1") no_overrides
    [(0, Some (server_override "app_limit" (Some 1) 5000)); (100, Some (server_override "app_limit" (Some 3) 5000))]) 200).2
  = Some (Some 3).
Proof. vm_compute. reflexivity. Qed.

(** The clears the source's comment lists. *)
Example clears_documented :
  clears "server_auto_clear" "server_auto_poor" = true ∧ clears "server_auto_clear" "server_auto_lost" = true ∧
  clears "server_room_pressure_clear" "server_room_pressure" = true ∧
  clears "server_auto_clear" "server_room_pressure" = false ∧
  clears "server_ttl_expired" "app_limit" = true ∧
  clears "downlink_v2_room_demand_restored" "app_limit" = false ∧
  clears "manual_clear" "server_auto_poor" = false ∧ clears "manual_clear" "app_limit" = true.
Proof. vm_compute. done. Qed.
