(* ===== verification/Controller.v ===== *)
(** * The publisher controller (src/client/lib/qos/controller.js)

    [PublisherQosController] ties the components together: a sample is turned
    into signals, drives the state machine and a recovery probe, and leads to
    planned actions, their execution, and a published snapshot.

    The fields of the class are grouped into records.  The action executor and
    the signalling channel are interfaces; the clock's reading is an argument of
    each operation.  [processSample] is one sequential run: a message that arrives
    while it awaits the executor or the channel takes effect after it, and a
    second sample (only [sampleNow] beside a running sampler could start one) is
    not interleaved with it. *)

From Stdlib Require Import QArith Qround.
From S2P Require Import Prelude JsNum JsVal QosTypes Profiles Signals StateMachine Planner Probe Trace.
From S2P Require Import Sampler Protocol Overrides.
Local Open Scope string_scope.
Local Open Scope list_scope.
Local Open Scope Z_scope.

(** ** Interfaces *)

(** What [actionExecutor.execute] may resolve to. *)
Inductive action_result :=
| ResUndefined
| ResBool (b : bool)
| ResStatus (status : string)
| ResApplied (applied : option bool)
| ResOther.

Class ActionExecutor (X : Type) := ax_execute : X → PlannedQosAction → X * outcome action_result.

Class SnapshotSink (S : Type) := sk_publish : S → jsval → S * outcome unit.

(** ** Helpers *)

Definition resolvePeerMode (inAudioOnlyMode : bool) (kind : QosTrackKind) : QosTrackMode :=
  if inAudioOnlyMode || bool_decide (kind = KAudio) then AudioOnlyMode else AudioVideoMode.

Definition wasActionApplied (result : action_result) : bool :=
  match result with
  | ResUndefined => true
  | ResBool b => b
  | ResStatus s => negb (String.eqb s "failed")
  | ResApplied a => match a with Some false => false | _ => true end
  | ResOther => false
  end.

Definition isStrongRecoverySignal (signals : DerivedQosSignals) (profile : QosProfile) : bool :=
  let thresholds := pf_thresholds profile in
  let stableJitterMs := finite_or (th_stableJitterMs thresholds) PInf in
  let warnJitterMs := finite_or (th_warnJitterMs thresholds) stableJitterMs in
  let recoveryJitterMs := math_max stableJitterMs warnJitterMs in
  let rawJitterMs :=
    if is_finite (sg_jitterMs signals) then math_max num0 (sg_jitterMs signals) else PInf in
  let targetBitrateBps := math_max num0 (sg_targetBitrateBps signals) in
  let sendReady := (targetBitrateBps <=? num0)%num
    || (sg_sendBitrateBps signals >=? targetBitrateBps * lit (85#100))%num in
  (sg_lossEwma signals <? th_stableLossRate thresholds)%num
  && (sg_rttEwma signals <? th_stableRttMs thresholds)%num
  && (rawJitterMs <? recoveryJitterMs)%num
  && sendReady
  && negb (sg_bandwidthLimited signals)
  && negb (sg_cpuLimited signals).

(** ** State *)

Record TraceSignals := {
  ts_sendBitrateBps : num;
  ts_targetBitrateBps : num;
  ts_lossRate : num;
  ts_rttMs : num;
  ts_jitterMs : num;
}.

Definition trace_signals (s : DerivedQosSignals) : TraceSignals := {|
  ts_sendBitrateBps := sg_sendBitrateBps s; ts_targetBitrateBps := sg_targetBitrateBps s;
  ts_lossRate := sg_lossRate s; ts_rttMs := sg_rttMs s; ts_jitterMs := sg_jitterMs s |}.

Record TraceProbe := {
  tp_active : bool;
  tp_result : option QosProbeResult;
  tp_previousLevel : Z;
  tp_targetLevel : Z;
}.

Record QosTraceEntry := {
  te_seq : Z;
  te_tsMs : Z;
  te_trackId : string;
  te_source : QosSource;
  te_stateBefore : QosState;
  te_stateAfter : QosState;
  te_reason : QosReason;
  te_signals : TraceSignals;
  te_plannedType : QosActionType;
  te_plannedLevel : Z;
  te_applied : bool;
  te_probe : option TraceProbe;
}.

Record identity := {
  id_trackId : string;
  id_kind : QosTrackKind;
  id_producerId : option string;
}.

Record settings := {
  st_profile : QosProfile;
  st_sampleIntervalMs : Z;
  st_snapshotIntervalMs : Z;
  st_allowAudioOnly : bool;
  st_allowVideoPause : bool;
}.

Record recovery := {
  rv_cpuSampleCount : Z;
  rv_recoveryProbeSuccessStreak : Z;
  rv_recoveryProbeGraceUntilMs : option Z;
  rv_recoverySuppressedUntilMs : option Z;
  rv_probeContext : option QosProbeContext;
}.

Record previous := {
  pv_previousSnapshot : option RawSenderSnapshot;
  pv_previousSignals : option DerivedQosSignals;
}.

Section controller.
Context {X S C CB : Type} `{!ActionExecutor X} `{!SnapshotSink S} `{!QosClock C CB}.
(** The timer callback of the sampler. *)
Context (closure : unit * option unit → CB).

(** What executing actions changes. *)
Record actuator := {
  ac_executor : X;
  ac_currentLevel : Z;
  ac_inAudioOnlyMode : bool;
  ac_lastAction : option ClientQosTrackAction;
  ac_lastSampleError : option string;
  ac_trace : QosTraceBuffer QosTraceEntry;
}.

Record publishing := {
  pb_signalChannel : option S;
  pb_seq : Z;
  pb_lastPublishedAtMs : option Z;
}.

Record PublisherQosController := {
  c_id : identity;
  c_settings : settings;
  c_sampler : IntervalQosSampler (OnSample := unit) (OnError := unit) (C := C);
  c_running : bool;
  c_stateContext : QosStateMachineContext;
  c_actuator : actuator;
  c_recovery : recovery;
  c_overrides : OverrideStore;
  c_coordinationOverride : option CoordinationOverride;
  c_publishing : publishing;
  c_previous : previous;
}.

Record ControllerOptions := {
  op_clock : C;
  op_profile : QosProfile;
  op_actionExecutor : X;
  op_signalChannel : option S;
  op_trackId : string;
  op_kind : QosTrackKind;
  op_producerId : option string;
  op_traceCapacity : option num;
  op_sampleIntervalMs : option Z;
  op_snapshotIntervalMs : option Z;
  op_allowAudioOnly : option bool;
  op_allowVideoPause : option bool;
  op_initialLevel : option Q;
  op_initialAudioOnlyMode : bool;
}.

(** The constructor; the sampler rejects an interval that is not positive. *)
Definition new_controller (options : ControllerOptions) (nowMs : Z) : outcome PublisherQosController :=
  let sampleIntervalMs := default (pf_sampleIntervalMs (op_profile options)) (op_sampleIntervalMs options) in
  sampler ← new_sampler (op_clock options) (num_of_Z sampleIntervalMs);
  Ok {| c_id := {| id_trackId := op_trackId options; id_kind := op_kind options;
                   id_producerId := op_producerId options |};
        c_settings := {|
          st_profile := op_profile options;
          st_sampleIntervalMs := sampleIntervalMs;
          st_snapshotIntervalMs := default (pf_snapshotIntervalMs (op_profile options)) (op_snapshotIntervalMs options);
          st_allowAudioOnly := default true (op_allowAudioOnly options);
          st_allowVideoPause := default true (op_allowVideoPause options) |};
        c_sampler := sampler;
        c_running := false;
        c_stateContext := createInitialQosStateMachineContext nowMs;
        c_actuator := {|
          ac_executor := op_actionExecutor options;
          ac_currentLevel := Z.max 0 (Qfloor (default 0%Q (op_initialLevel options)));
          ac_inAudioOnlyMode := op_initialAudioOnlyMode options;
          ac_lastAction := None; ac_lastSampleError := None;
          ac_trace := createQosTraceBuffer (op_traceCapacity options) |};
        c_recovery := {|
          rv_cpuSampleCount := 0; rv_recoveryProbeSuccessStreak := 0;
          rv_recoveryProbeGraceUntilMs := None; rv_recoverySuppressedUntilMs := None;
          rv_probeContext := None |};
        c_overrides := no_overrides;
        c_coordinationOverride := None;
        c_publishing := {| pb_signalChannel := op_signalChannel options; pb_seq := 0; pb_lastPublishedAtMs := None |};
        c_previous := {| pv_previousSnapshot := None; pv_previousSignals := None |} |}.

(** ** Setters *)

Definition set_sampler (c : PublisherQosController) s (running : bool) : PublisherQosController := {|
  c_id := c_id c; c_settings := c_settings c; c_sampler := s; c_running := running;
  c_stateContext := c_stateContext c; c_actuator := c_actuator c; c_recovery := c_recovery c;
  c_overrides := c_overrides c; c_coordinationOverride := c_coordinationOverride c;
  c_publishing := c_publishing c; c_previous := c_previous c |}.

Definition set_settings (c : PublisherQosController) (s : settings) : PublisherQosController := {|
  c_id := c_id c; c_settings := s; c_sampler := c_sampler c; c_running := c_running c;
  c_stateContext := c_stateContext c; c_actuator := c_actuator c; c_recovery := c_recovery c;
  c_overrides := c_overrides c; c_coordinationOverride := c_coordinationOverride c;
  c_publishing := c_publishing c; c_previous := c_previous c |}.

Definition set_overrides (c : PublisherQosController) (o : OverrideStore) : PublisherQosController := {|
  c_id := c_id c; c_settings := c_settings c; c_sampler := c_sampler c; c_running := c_running c;
  c_stateContext := c_stateContext c; c_actuator := c_actuator c; c_recovery := c_recovery c;
  c_overrides := o; c_coordinationOverride := c_coordinationOverride c;
  c_publishing := c_publishing c; c_previous := c_previous c |}.

Definition set_coordination (c : PublisherQosController) (o : option CoordinationOverride) : PublisherQosController := {|
  c_id := c_id c; c_settings := c_settings c; c_sampler := c_sampler c; c_running := c_running c;
  c_stateContext := c_stateContext c; c_actuator := c_actuator c; c_recovery := c_recovery c;
  c_overrides := c_overrides c; c_coordinationOverride := o;
  c_publishing := c_publishing c; c_previous := c_previous c |}.

Definition set_context (c : PublisherQosController) (s : QosStateMachineContext) : PublisherQosController := {|
  c_id := c_id c; c_settings := c_settings c; c_sampler := c_sampler c; c_running := c_running c;
  c_stateContext := s; c_actuator := c_actuator c; c_recovery := c_recovery c;
  c_overrides := c_overrides c; c_coordinationOverride := c_coordinationOverride c;
  c_publishing := c_publishing c; c_previous := c_previous c |}.

Definition set_actuator (c : PublisherQosController) (a : actuator) : PublisherQosController := {|
  c_id := c_id c; c_settings := c_settings c; c_sampler := c_sampler c; c_running := c_running c;
  c_stateContext := c_stateContext c; c_actuator := a; c_recovery := c_recovery c;
  c_overrides := c_overrides c; c_coordinationOverride := c_coordinationOverride c;
  c_publishing := c_publishing c; c_previous := c_previous c |}.

Definition set_recovery (c : PublisherQosController) (r : recovery) : PublisherQosController := {|
  c_id := c_id c; c_settings := c_settings c; c_sampler := c_sampler c; c_running := c_running c;
  c_stateContext := c_stateContext c; c_actuator := c_actuator c; c_recovery := r;
  c_overrides := c_overrides c; c_coordinationOverride := c_coordinationOverride c;
  c_publishing := c_publishing c; c_previous := c_previous c |}.

Definition set_publishing (c : PublisherQosController) (p : publishing) : PublisherQosController := {|
  c_id := c_id c; c_settings := c_settings c; c_sampler := c_sampler c; c_running := c_running c;
  c_stateContext := c_stateContext c; c_actuator := c_actuator c; c_recovery := c_recovery c;
  c_overrides := c_overrides c; c_coordinationOverride := c_coordinationOverride c;
  c_publishing := p; c_previous := c_previous c |}.

Definition set_previous (c : PublisherQosController) (p : previous) : PublisherQosController := {|
  c_id := c_id c; c_settings := c_settings c; c_sampler := c_sampler c; c_running := c_running c;
  c_stateContext := c_stateContext c; c_actuator := c_actuator c; c_recovery := c_recovery c;
  c_overrides := c_overrides c; c_coordinationOverride := c_coordinationOverride c;
  c_publishing := c_publishing c; c_previous := p |}.

Definition set_error (a : actuator) (e : string) : actuator := {|
  ac_executor := ac_executor a; ac_currentLevel := ac_currentLevel a;
  ac_inAudioOnlyMode := ac_inAudioOnlyMode a; ac_lastAction := ac_lastAction a;
  ac_lastSampleError := Some e; ac_trace := ac_trace a |}.

(** ** Queries and control *)

Definition profile (c : PublisherQosController) : QosProfile := st_profile (c_settings c).
Definition currentLevel (c : PublisherQosController) : Z := ac_currentLevel (c_actuator c).
Definition inAudioOnlyMode (c : PublisherQosController) : bool := ac_inAudioOnlyMode (c_actuator c).
Definition state (c : PublisherQosController) : QosState := sm_state (c_stateContext c).

(** [this.probeContext?.active === true]. *)
Definition probe_active (p : option QosProbeContext) : bool :=
  match p with Some p => pr_active p | None => false end.

Record RuntimeSettings := {
  rs_sampleIntervalMs : Z;
  rs_snapshotIntervalMs : Z;
  rs_allowAudioOnly : bool;
  rs_allowVideoPause : bool;
  rs_probeActive : bool;
}.

Definition getRuntimeSettings (c : PublisherQosController) : RuntimeSettings := {|
  rs_sampleIntervalMs := st_sampleIntervalMs (c_settings c);
  rs_snapshotIntervalMs := st_snapshotIntervalMs (c_settings c);
  rs_allowAudioOnly := st_allowAudioOnly (c_settings c);
  rs_allowVideoPause := st_allowVideoPause (c_settings c);
  rs_probeActive := probe_active (rv_probeContext (c_recovery c)) |}.

Definition getTrackState (c : PublisherQosController) : PeerQosTrackState := {|
  pt_trackId := id_trackId (c_id c);
  pt_source := pf_source (profile c);
  pt_kind := id_kind (c_id c);
  pt_state := state c;
  pt_quality := match pv_previousSignals (c_previous c) with
                | Some s => mapStateToQuality (state c) s
                | None => Excellent
                end;
  pt_level := currentLevel c;
  pt_inAudioOnlyMode := inAudioOnlyMode c |}.

Definition controller_setCoordinationOverride (c : PublisherQosController) (o : option CoordinationOverride) : PublisherQosController :=
  set_coordination c (setCoordinationOverride o).

Definition start_controller (c : PublisherQosController) : PublisherQosController :=
  if c_running c then c else set_sampler c (start closure (c_sampler c) tt (Some tt)) true.

Definition stop_controller (c : PublisherQosController) : PublisherQosController :=
  if c_running c then set_sampler c (stop (c_sampler c)) false else c.

(** [policy.profiles[source]]. *)
Definition policy_profile (policy : QosPolicy) (source : QosSource) : string :=
  match source with
  | Camera => po_profiles_camera policy
  | ScreenShare => po_profiles_screenShare policy
  | Audio => po_profiles_audio policy
  end.

Definition with_profile (s : settings) (p : QosProfile) : settings := {|
  st_profile := p; st_sampleIntervalMs := st_sampleIntervalMs s;
  st_snapshotIntervalMs := st_snapshotIntervalMs s; st_allowAudioOnly := st_allowAudioOnly s;
  st_allowVideoPause := st_allowVideoPause s |}.

(** The assignments before a throwing call stay. *)
Definition handlePolicy (c : PublisherQosController) (policy : QosPolicy) : PublisherQosController * outcome unit :=
  let c := set_settings c {|
    st_profile := profile c;
    st_sampleIntervalMs := po_sampleIntervalMs policy;
    st_snapshotIntervalMs := po_snapshotIntervalMs policy;
    st_allowAudioOnly := po_allowAudioOnly policy;
    st_allowVideoPause := po_allowVideoPause policy |} in
  match updateIntervalMs closure (c_sampler c) (num_of_Z (po_sampleIntervalMs policy)) with
  | Throw e => (c, Throw e)
  | Ok sampler =>
      let c := set_sampler c sampler (c_running c) in
      let profileName := policy_profile policy (pf_source (profile c)) in
      if negb (String.eqb profileName "") && negb (String.eqb profileName (pf_name (profile c))) then
        match resolveProfileByName (pf_source (profile c)) profileName with
        | Throw e => (c, Throw e)
        | Ok (Some resolved) => (set_settings c (with_profile (c_settings c) resolved), Ok tt)
        | Ok None => (c, Ok tt)
        end
      else (c, Ok tt)
  end.

Definition controller_handleOverride (c : PublisherQosController) (nowMs : Z) (o : QosOverride) : PublisherQosController :=
  set_overrides c (handleOverride (id_trackId (c_id c)) (c_overrides c) nowMs o).

(** ** Signals for the state machine *)

Definition with_jitterEwma (s : DerivedQosSignals) (j : num) : DerivedQosSignals := {|
  sg_packetsSentDelta := sg_packetsSentDelta s; sg_packetsLostDelta := sg_packetsLostDelta s;
  sg_retransmittedPacketsSentDelta := sg_retransmittedPacketsSentDelta s;
  sg_sendBitrateBps := sg_sendBitrateBps s; sg_targetBitrateBps := sg_targetBitrateBps s;
  sg_bitrateUtilization := sg_bitrateUtilization s; sg_lossRate := sg_lossRate s;
  sg_lossEwma := sg_lossEwma s; sg_rttMs := sg_rttMs s; sg_rttEwma := sg_rttEwma s;
  sg_jitterMs := sg_jitterMs s; sg_jitterEwma := j; sg_cpuLimited := sg_cpuLimited s;
  sg_bandwidthLimited := sg_bandwidthLimited s; sg_reason := sg_reason s |}.

Definition with_bitrateUtilization (s : DerivedQosSignals) (u : num) : DerivedQosSignals := {|
  sg_packetsSentDelta := sg_packetsSentDelta s; sg_packetsLostDelta := sg_packetsLostDelta s;
  sg_retransmittedPacketsSentDelta := sg_retransmittedPacketsSentDelta s;
  sg_sendBitrateBps := sg_sendBitrateBps s; sg_targetBitrateBps := sg_targetBitrateBps s;
  sg_bitrateUtilization := u; sg_lossRate := sg_lossRate s;
  sg_lossEwma := sg_lossEwma s; sg_rttMs := sg_rttMs s; sg_rttEwma := sg_rttEwma s;
  sg_jitterMs := sg_jitterMs s; sg_jitterEwma := sg_jitterEwma s; sg_cpuLimited := sg_cpuLimited s;
  sg_bandwidthLimited := sg_bandwidthLimited s; sg_reason := sg_reason s |}.

(** [Math.min(jitterEwma, Math.max(0, stableJitterMs - 0.001))] when there is a
    stable jitter threshold. *)
Definition mask_jitter (stableJitterMs : option num) (s : DerivedQosSignals) : DerivedQosSignals :=
  with_jitterEwma s
    match stableJitterMs with
    | Some j => math_min (sg_jitterEwma s) (math_max num0 (j - lit (1#1000))%num)
    | None => sg_jitterEwma s
    end.

(** [o?.flag === true]. *)
Definition coordination_flag (f : CoordinationOverride → bool) (o : option CoordinationOverride) : bool :=
  match o with Some o => f o | None => false end.
Definition override_flag (f : QosOverride → option bool) (o : option QosOverride) : bool :=
  match o with Some o => opt_true (f o) | None => false end.

(** [typeof t === 'number' && nowMs < t]. *)
Definition before (nowMs : Z) (t : option Z) : bool :=
  match t with Some t => nowMs <? t | None => false end.

Definition getTransitionSignals (c : PublisherQosController) (signals : DerivedQosSignals)
    (override : option QosOverride) (nowMs : Z) : DerivedQosSignals :=
  let thresholds := pf_thresholds (profile c) in
  let stableJitterMs := finite_opt (th_stableJitterMs thresholds) in
  let networkRecovered :=
    (sg_lossEwma signals <? th_stableLossRate thresholds)%num &&
    (sg_rttEwma signals <? th_stableRttMs thresholds)%num &&
    negb (sg_bandwidthLimited signals) && negb (sg_cpuLimited signals) in
  let recoveryProbeGraceActive := before nowMs (rv_recoveryProbeGraceUntilMs (c_recovery c)) in
  let transitionSignals :=
    if (probe_active (rv_probeContext (c_recovery c)) || recoveryProbeGraceActive) && networkRecovered
    then mask_jitter stableJitterMs signals else signals in
  if negb (inAudioOnlyMode c) || negb (bool_decide (state c = Congested)) then transitionSignals
  else if override_flag ov_forceAudioOnly override ||
          coordination_flag co_forceAudioOnly (c_coordinationOverride c) then transitionSignals
  else if negb networkRecovered then transitionSignals
  else mask_jitter stableJitterMs
         (with_bitrateUtilization transitionSignals
            (math_max (sg_bitrateUtilization transitionSignals) (th_stableBitrateUtilization thresholds))).

(** ** Filtering planned actions *)

Definition prepend (b : bool) (a : PlannedQosAction) (l : list PlannedQosAction) : list PlannedQosAction :=
  if b then a :: l else l.

Definition filterActions (c : PublisherQosController) (actions : list PlannedQosAction)
    (override : option QosOverride) : list PlannedQosAction :=
  let audioOnlyAllowed := st_allowAudioOnly (c_settings c) && st_allowVideoPause (c_settings c) in
  let maxLevel := Z.max 0 (pf_levelCount (profile c) - 1) in
  let level := currentLevel c in
  let coordination := c_coordinationOverride c in
  let camera := bool_decide (pf_source (profile c) = Camera) in
  let filtered := List.filter (λ a,
    negb ((is_type TEnterAudioOnly a || is_type TExitAudioOnly a) && negb audioOnlyAllowed)) actions in
  let pauseUpstreamActive :=
    override_flag ov_pauseUpstream override || coordination_flag co_pauseUpstream coordination in
  let resumeUpstreamActive :=
    override_flag ov_resumeUpstream override || coordination_flag co_resumeUpstream coordination in
  let filtered := prepend (pauseUpstreamActive && negb (inAudioOnlyMode c) && camera && audioOnlyAllowed)
    (EnterAudioOnly level (Some "downlink_v3_zero_demand_pause")) filtered in
  let filtered := prepend (resumeUpstreamActive && inAudioOnlyMode c && camera && audioOnlyAllowed && negb pauseUpstreamActive)
    (ExitAudioOnly level (Some "downlink_v3_demand_resumed")) filtered in
  let filtered := prepend (audioOnlyAllowed && override_flag ov_forceAudioOnly override && negb (inAudioOnlyMode c) && camera)
    (EnterAudioOnly level None) filtered in
  let filtered := prepend (audioOnlyAllowed && coordination_flag co_forceAudioOnly coordination &&
                           negb (inAudioOnlyMode c) && camera)
    (EnterAudioOnly level None) filtered in
  let forceAudioOnlyActive :=
    override_flag ov_forceAudioOnly override || coordination_flag co_forceAudioOnly coordination in
  let overrideDrivenAudioOnly := camera && inAudioOnlyMode c && (level <? maxLevel) in
  let filtered := prepend (audioOnlyAllowed && overrideDrivenAudioOnly && negb forceAudioOnlyActive &&
                           negb pauseUpstreamActive && negb (existsb (is_type TExitAudioOnly) filtered))
    (ExitAudioOnly level None) filtered in
  match filtered with
  | [] => [Noop level (Some "filtered-by-policy")]
  | _ => filtered
  end.

(** ** Executing *)

(** The level and mode after an applied action. *)
Definition after_action (level : Z) (audioOnly : bool) (a : PlannedQosAction) : Z * bool :=
  (action_level a,
   if is_type TEnterAudioOnly a then true
   else if is_type TExitAudioOnly a then false else audioOnly).

(** The entry both loops append for an action. *)
Definition trace_entry (c : PublisherQosController) (signals : DerivedQosSignals) (nowMs : Z)
    (stateBefore stateAfter : QosState) (probe : option TraceProbe) (a : PlannedQosAction) (applied : bool) : QosTraceEntry := {|
  te_seq := pb_seq (c_publishing c) + 1; te_tsMs := nowMs; te_trackId := id_trackId (c_id c);
  te_source := pf_source (profile c); te_stateBefore := stateBefore; te_stateAfter := stateAfter;
  te_reason := sg_reason signals; te_signals := trace_signals signals;
  te_plannedType := action_type a; te_plannedLevel := action_level a; te_applied := applied;
  te_probe := probe |}.

(** The body of the loop of [executeActions]. *)
Definition executeAction (entry : PlannedQosAction → bool → QosTraceEntry) (a : actuator) (action : PlannedQosAction) : actuator :=
  let '(executor, applied, error) :=
    if is_type TNoop action then (ac_executor a, true, ac_lastSampleError a)
    else
      match ax_execute (ac_executor a) action with
      | (x, Ok result) => (x, wasActionApplied result, ac_lastSampleError a)
      | (x, Throw e) => (x, false, Some e)
      end in
  let '(level, audioOnly) :=
    if applied then after_action (ac_currentLevel a) (ac_inAudioOnlyMode a) action
    else (ac_currentLevel a, ac_inAudioOnlyMode a) in
  {| ac_executor := executor; ac_currentLevel := level; ac_inAudioOnlyMode := audioOnly;
     ac_lastAction := Some {| ta_type := action_type action; ta_applied := applied |};
     ac_lastSampleError := error;
     ac_trace := appendTraceEntry (ac_trace a) (entry action applied) |}.

Definition set_probe (r : recovery) (p : option QosProbeContext) : recovery := {|
  rv_cpuSampleCount := rv_cpuSampleCount r;
  rv_recoveryProbeSuccessStreak := rv_recoveryProbeSuccessStreak r;
  rv_recoveryProbeGraceUntilMs := rv_recoveryProbeGraceUntilMs r;
  rv_recoverySuppressedUntilMs := rv_recoverySuppressedUntilMs r;
  rv_probeContext := p |}.

Definition executeActions (c : PublisherQosController) (actions : list PlannedQosAction)
    (signals : DerivedQosSignals) (nowMs : Z) (stateBefore stateAfter : QosState) : PublisherQosController :=
  let levelBeforeActions := currentLevel c in
  let audioOnlyBeforeActions := inAudioOnlyMode c in
  let probe := (λ p, {| tp_active := true; tp_result := None; tp_previousLevel := pr_previousLevel p;
                        tp_targetLevel := pr_targetLevel p |}) <$> rv_probeContext (c_recovery c) in
  let c := set_actuator c
    (foldl (executeAction (trace_entry c signals nowMs stateBefore stateAfter probe)) (c_actuator c) actions) in
  if existsb (λ a, negb (is_type TNoop a)) actions &&
     ((currentLevel c <? levelBeforeActions) || (audioOnlyBeforeActions && negb (inAudioOnlyMode c)))
  then
    let requiredHealthySamples :=
      if (0 <? rv_recoveryProbeSuccessStreak (c_recovery c)) && isStrongRecoverySignal signals (profile c)
      then 2 else 3 in
    set_recovery c (set_probe (c_recovery c)
      (Some (beginProbe levelBeforeActions (currentLevel c) nowMs audioOnlyBeforeActions (inAudioOnlyMode c)
               (Some requiredHealthySamples) None)))
  else c.

(** The loop of [rollbackProbe]: an exception of the executor ends it. *)
Fixpoint revert (entry : PlannedQosAction → bool → QosTraceEntry) (a : actuator)
    (actions : list PlannedQosAction) : actuator * outcome unit :=
  match actions with
  | [] => (a, Ok tt)
  | action :: actions =>
      match ax_execute (ac_executor a) action with
      | (x, Throw e) =>
          ({| ac_executor := x; ac_currentLevel := ac_currentLevel a;
              ac_inAudioOnlyMode := ac_inAudioOnlyMode a; ac_lastAction := ac_lastAction a;
              ac_lastSampleError := ac_lastSampleError a; ac_trace := ac_trace a |}, Throw e)
      | (x, Ok result) =>
          let applied := wasActionApplied result in
          let '(level, audioOnly) :=
            if applied then after_action (ac_currentLevel a) (ac_inAudioOnlyMode a) action
            else (ac_currentLevel a, ac_inAudioOnlyMode a) in
          revert entry
            {| ac_executor := x; ac_currentLevel := level; ac_inAudioOnlyMode := audioOnly;
               ac_lastAction := ac_lastAction a; ac_lastSampleError := ac_lastSampleError a;
               ac_trace := appendTraceEntry (ac_trace a) (entry action applied) |} actions
      end
  end.

Definition force_congested (s : QosStateMachineContext) (nowMs : Z) : QosStateMachineContext := {|
  sm_state := Congested; sm_enteredAtMs := nowMs; sm_lastCongestedAtMs := Some nowMs;
  sm_lastRecoveryAtMs := sm_lastRecoveryAtMs s;
  sm_consecutiveHealthySamples := sm_consecutiveHealthySamples s;
  sm_consecutiveRecoverySamples := sm_consecutiveRecoverySamples s;
  sm_consecutiveFastRecoverySamples := sm_consecutiveFastRecoverySamples s;
  sm_consecutiveWarningSamples := sm_consecutiveWarningSamples s;
  sm_consecutiveCongestedSamples := sm_consecutiveCongestedSamples s |}.

Definition planner_input (c : PublisherQosController) (s : QosState) (clamp : option Z) : QosPlannerInput := {|
  pi_source := pf_source (profile c); pi_profile := profile c; pi_state := s;
  pi_currentLevel := currentLevel c; pi_overrideClampLevel := clamp;
  pi_inAudioOnlyMode := inAudioOnlyMode c |}.

Definition rollbackProbe (c : PublisherQosController) (signals : DerivedQosSignals) (nowMs : Z)
    (stateBefore : QosState) : PublisherQosController * outcome unit :=
  match rv_probeContext (c_recovery c) with
  | None => (c, Ok tt)
  | Some p =>
      let revertActions := planActionsForLevel (planner_input c Congested None) (pr_previousLevel p) in
      let probe := Some {| tp_active := false; tp_result := Some Failed;
                           tp_previousLevel := pr_previousLevel p; tp_targetLevel := pr_targetLevel p |} in
      match revert (trace_entry c signals nowMs stateBefore Congested probe) (c_actuator c) revertActions with
      | (a, Throw e) => (set_actuator c a, Throw e)
      | (a, Ok _) =>
          let c := set_actuator c a in
          (set_context c (force_congested (c_stateContext c) nowMs), Ok tt)
      end
  end.

(** ** Publishing *)

Definition snapshot_payload (c : PublisherQosController) (seq : Z) (raw : RawSenderSnapshot)
    (signals : DerivedQosSignals) (quality : QosQuality) (nowMs : Z) : jsval :=
  JObj [
    ("schema", JStr QOS_CLIENT_SCHEMA_V1);
    ("seq", js_int seq);
    ("tsMs", js_int nowMs);
    ("peerState", JObj [
       ("mode", js_enum (resolvePeerMode (inAudioOnlyMode c) (id_kind (c_id c))));
       ("quality", js_enum quality);
       ("stale", JBool false)]);
    ("tracks", JArr [JObj [
       ("localTrackId", JStr (id_trackId (c_id c)));
       ("producerId", js_opt JStr (id_producerId (c_id c)));
       ("kind", js_enum (id_kind (c_id c)));
       ("source", js_enum (pf_source (profile c)));
       ("state", js_enum (state c));
       ("reason", js_enum (sg_reason signals));
       ("quality", js_enum quality);
       ("ladderLevel", js_int (currentLevel c));
       ("signals", JObj [
          ("sendBitrateBps", JNum (sg_sendBitrateBps signals));
          ("targetBitrateBps", JNum (sg_targetBitrateBps signals));
          ("lossRate", JNum (sg_lossRate signals));
          ("rttMs", JNum (sg_rttMs signals));
          ("jitterMs", JNum (sg_jitterMs signals));
          ("frameWidth", js_opt JNum (rs_frameWidth raw));
          ("frameHeight", js_opt JNum (rs_frameHeight raw));
          ("framesPerSecond", js_opt JNum (rs_framesPerSecond raw));
          ("qualityLimitationReason", js_opt js_enum (rs_qualityLimitationReason raw))]);
       ("lastAction", js_opt action_js (ac_lastAction (c_actuator c)))]])].

Definition next_seq (seq : Z) : Z := if QOS_MAX_SEQ <=? seq then 0 else seq + 1.

Definition publishSnapshot (c : PublisherQosController) (raw : RawSenderSnapshot)
    (signals : DerivedQosSignals) (quality : QosQuality) (nowMs : Z) : PublisherQosController :=
  match pb_signalChannel (c_publishing c) with
  | None => c
  | Some channel =>
      let nextSeq := next_seq (pb_seq (c_publishing c)) in
      let '(channel, r) := sk_publish channel (snapshot_payload c nextSeq raw signals quality nowMs) in
      let c := set_publishing c {| pb_signalChannel := Some channel; pb_seq := nextSeq;
                                   pb_lastPublishedAtMs := pb_lastPublishedAtMs (c_publishing c) |} in
      match r with
      | Ok _ => c
      | Throw e => set_actuator c (set_error (c_actuator c) e)
      end
  end.

(** ** Processing a sample *)

(** [Math.min(...levels)] of the clamps that are numbers. *)
Definition combinedClampLevel (override : option QosOverride) (coordination : option CoordinationOverride) : option Z :=
  match override ≫= ov_maxLevelClamp, coordination ≫= co_maxLevelClamp with
  | Some a, Some b => Some (Z.min a b)
  | Some a, None => Some a
  | None, b => b
  end.

Definition recovery_disabled (c : PublisherQosController) (override : option QosOverride) (nowMs : Z) : bool :=
  coordination_flag co_disableRecovery (c_coordinationOverride c) ||
  override_flag ov_disableRecovery override ||
  before nowMs (rv_recoverySuppressedUntilMs (c_recovery c)).

Definition count_cpu (r : recovery) (snapshot : RawSenderSnapshot) : recovery := {|
  rv_cpuSampleCount :=
    if bool_decide (rs_qualityLimitationReason snapshot = Some QCpu) then rv_cpuSampleCount r + 1 else 0;
  rv_recoveryProbeSuccessStreak := rv_recoveryProbeSuccessStreak r;
  rv_recoveryProbeGraceUntilMs := rv_recoveryProbeGraceUntilMs r;
  rv_recoverySuppressedUntilMs := rv_recoverySuppressedUntilMs r;
  rv_probeContext := rv_probeContext r |}.

(** After a failed probe has been rolled back. *)
Definition probe_failed (c : PublisherQosController) (nowMs : Z) : recovery := {|
  rv_cpuSampleCount := rv_cpuSampleCount (c_recovery c);
  rv_recoveryProbeSuccessStreak := 0;
  rv_recoveryProbeGraceUntilMs := None;
  rv_recoverySuppressedUntilMs := Some (nowMs + pf_recoveryCooldownMs (profile c));
  rv_probeContext := None |}.

(** After a successful probe. *)
Definition probe_succeeded (c : PublisherQosController) (signals : DerivedQosSignals) (nowMs : Z)
    (stateBefore : QosState) (context : option QosProbeContext) : recovery :=
  let r := c_recovery c in
  let strongRecoveryProbe :=
    isStrongRecoverySignal signals (profile c) &&
    (match context with Some p => pr_badSamples p | None => 0 end =? 0) &&
    (bool_decide (stateBefore = Recovering) || bool_decide (state c = Recovering) ||
     (0 <? rv_recoveryProbeSuccessStreak r)) &&
    (0 <? currentLevel c) in
  {| rv_cpuSampleCount := rv_cpuSampleCount r;
     rv_recoveryProbeSuccessStreak :=
       if strongRecoveryProbe then rv_recoveryProbeSuccessStreak r + 1 else 0;
     rv_recoveryProbeGraceUntilMs :=
       if strongRecoveryProbe then Some (nowMs + st_sampleIntervalMs (c_settings c) * 3) else None;
     rv_recoverySuppressedUntilMs := rv_recoverySuppressedUntilMs r;
     rv_probeContext := None |}.

Definition reset_streak (c : PublisherQosController) : PublisherQosController :=
  let r := c_recovery c in
  if negb (probe_active (rv_probeContext r)) && (bool_decide (state c = Congested) || (currentLevel c =? 0))
  then set_recovery c {|
    rv_cpuSampleCount := rv_cpuSampleCount r; rv_recoveryProbeSuccessStreak := 0;
    rv_recoveryProbeGraceUntilMs := rv_recoveryProbeGraceUntilMs r;
    rv_recoverySuppressedUntilMs := rv_recoverySuppressedUntilMs r;
    rv_probeContext := rv_probeContext r |}
  else c.

Definition plannedActions (c : PublisherQosController) (disableRecovery : bool) (clamp : option Z) : list PlannedQosAction :=
  if probe_active (rv_probeContext (c_recovery c)) then [Noop (currentLevel c) (Some "probe-in-progress")]
  else if bool_decide (state c = Recovering) && negb disableRecovery then
    planRecovery (planner_input c (state c) clamp)
  else
    planActions (planner_input c (if bool_decide (state c = Recovering) then EarlyWarning else state c) clamp).

Definition set_lastPublished (c : PublisherQosController) (nowMs : Z) : PublisherQosController :=
  set_publishing c {| pb_signalChannel := pb_signalChannel (c_publishing c);
                      pb_seq := pb_seq (c_publishing c); pb_lastPublishedAtMs := Some nowMs |}.

Definition shouldPublish (c : PublisherQosController) (transitioned : bool) (nowMs : Z) : bool :=
  transitioned ||
  match pb_lastPublishedAtMs (c_publishing c) with
  | None => true
  | Some t => st_snapshotIntervalMs (c_settings c) <=? nowMs - t
  end.

(** From planning to the end of [processSample]. *)
Definition act_and_publish (c : PublisherQosController) (snapshot : RawSenderSnapshot)
    (signals : DerivedQosSignals) (transition : QosStateTransitionResult) (override : option QosOverride)
    (disableRecovery : bool) (clamp : option Z) (nowMs : Z) (stateBefore : QosState) : PublisherQosController :=
  let c := reset_streak c in
  let filteredActions := filterActions c (plannedActions c disableRecovery clamp) override in
  let c := executeActions c filteredActions signals nowMs stateBefore (state c) in
  let c := if shouldPublish c (tr_transitioned transition) nowMs
           then set_lastPublished (publishSnapshot c snapshot signals (tr_quality transition) nowMs) nowMs
           else c in
  set_previous c {| pv_previousSnapshot := Some snapshot; pv_previousSignals := Some signals |}.

(** Up to the state transition. *)
Definition observe (c : PublisherQosController) (snapshot : RawSenderSnapshot) (override : option QosOverride) (nowMs : Z)
    : PublisherQosController * DerivedQosSignals * QosStateTransitionResult :=
  let c := set_recovery c (count_cpu (c_recovery c) snapshot) in
  let signals := deriveSignals snapshot (pv_previousSnapshot (c_previous c)) (pv_previousSignals (c_previous c)) None
    {| rc_activeOverride := bool_decide (is_Some override); rc_manual := false;
       rc_cpuSampleCount := Some (num_of_Z (rv_cpuSampleCount (c_recovery c))) |} in
  let transition := evaluateStateTransition (c_stateContext c) (getTransitionSignals c signals override nowMs)
                      (profile c) nowMs in
  (set_context c (tr_context transition), signals, transition).

Definition processSample (c : PublisherQosController) (snapshot : RawSenderSnapshot) (nowMs : Z)
    : PublisherQosController * outcome unit :=
  let stateBefore := state c in
  let '(overrides, override) := getActiveOverride (c_overrides c) nowMs in
  let c := set_overrides c overrides in
  let clamp := combinedClampLevel override (c_coordinationOverride c) in
  let disableRecovery := recovery_disabled c override nowMs in
  let '(c, signals, transition) := observe c snapshot override nowMs in
  match rv_probeContext (c_recovery c) with
  | None => (act_and_publish c snapshot signals transition override disableRecovery clamp nowMs stateBefore, Ok tt)
  | Some p =>
      match evaluateProbe (Some p) signals (profile c) with
      | (_, Failed) =>
          match rollbackProbe c signals nowMs stateBefore with
          | (c, Throw e) => (c, Throw e)
          | (c, Ok _) => (set_recovery c (probe_failed c nowMs), Ok tt)
          end
      | (context, Successful) =>
          let c := set_recovery c (probe_succeeded c signals nowMs stateBefore context) in
          (act_and_publish c snapshot signals transition override disableRecovery clamp nowMs stateBefore, Ok tt)
      | (context, Inconclusive) =>
          let c := set_recovery c (set_probe (c_recovery c) context) in
          (act_and_publish c snapshot signals transition override disableRecovery clamp nowMs stateBefore, Ok tt)
      end
  end.

(** [sampleNow] with the result of the stats provider; an error rejects the
    call before anything changes. *)
Definition sampleNow (c : PublisherQosController) (snapshot : outcome RawSenderSnapshot) (nowMs : Z)
    : PublisherQosController * outcome unit :=
  match snapshot with
  | Ok s => processSample c s nowMs
  | Throw e => (c, Throw e)
  end.

(** The sampler's handlers: a sample that fails is recorded. *)
Definition on_tick (c : PublisherQosController) (snapshot : outcome RawSenderSnapshot) (nowMs : Z) : PublisherQosController :=
  match sampleNow c snapshot nowMs with
  | (c, Ok _) => c
  | (c, Throw e) => set_actuator c (set_error (c_actuator c) e)
  end.
End controller.
