(* ===== verification/ControllerProofs.v ===== *)
(** * Properties of the publisher controller

    The controller's invariant under every operation, the probe's rollback, what
    reaches the executor and the wire, and the behaviour of policies and
    overrides. *)

From Stdlib Require Import QArith Qround.
From S2P Require Import Prelude JsNum JsVal QosTypes Profiles Signals StateMachine Planner Probe Trace.
From S2P Require Import Clock Sampler Protocol Overrides Controller.
Local Open Scope string_scope.
Local Open Scope list_scope.
Local Open Scope Z_scope.

Section proofs.
Context {X S C CB : Type} `{!ActionExecutor X} `{!SnapshotSink S} `{!QosClock C CB}.
Context (closure : unit * option unit → CB).
Abbreviation controller := (PublisherQosController (X := X) (S := S) (C := C)).

(** ** The invariant *)

(** The number of ladder levels of every built-in profile. *)
Definition LEVELS : Z := 5.

Definition level_ok (l : Z) : Prop := 0 <= l < LEVELS.

Record wf_controller (base : Z → option (CB * Z)) (c : controller) : Prop := {
  wc_ladder : wf_ladder (profile c) = true;
  wc_levels : pf_levelCount (profile c) = LEVELS;
  wc_level : level_ok (currentLevel c);
  wc_seq : 0 <= pb_seq (c_publishing c) <= QOS_MAX_SEQ;
  wc_context : wf_context (c_stateContext c);
  wc_probe : ∀ p, rv_probeContext (c_recovery c) = Some p → pr_active p = true ∧ level_ok (pr_previousLevel p);
  wc_streak : 0 <= rv_recoveryProbeSuccessStreak (c_recovery c);
  wc_signals : ∀ s, pv_previousSignals (c_previous c) = Some s → wf_signals s;
  wc_timestamp : ∀ r, pv_previousSnapshot (c_previous c) = Some r → wf_timestamp (rs_timestampMs r) = true;
  wc_sampler : owns_timer closure base (c_sampler c);
  wc_running : c_running c = sp_running (c_sampler c);
}.

(** ** Levels of actions *)

Definition levels_ok (actions : list PlannedQosAction) : Prop := Forall (λ a, level_ok (action_level a)) actions.

Lemma prepend_levels b a l : level_ok (action_level a) → levels_ok l → levels_ok (prepend b a l).
Proof. intros. unfold prepend. destruct b; [by constructor|done]. Qed.

Lemma filterActions_levels (c : controller) actions o :
  level_ok (currentLevel c) → levels_ok actions → levels_ok (filterActions c actions o).
Proof.
  intros Hl Ha. unfold filterActions. cbv zeta.
  match goal with |- levels_ok (match ?l with [] => _ | _ :: _ => _ end) => set (filtered := l) end.
  assert (levels_ok filtered) as H.
  { subst filtered. repeat (apply prepend_levels; [done|]).
    unfold levels_ok in *. rewrite Forall_forall in Ha |- *. intros a Hin%list_elem_of_In%List.filter_In.
    apply Ha, list_elem_of_In, Hin. }
  clearbody filtered. destruct filtered as [|a l]; [|done]. by constructor.
Qed.

Lemma max_level (c : controller) : pf_levelCount (profile c) = LEVELS → resolveMaxLevel (profile c) = LEVELS - 1.
Proof. unfold resolveMaxLevel. intros ->. done. Qed.

Lemma planActions_ok (c : controller) s clamp : pf_levelCount (profile c) = LEVELS →
  levels_ok (planActions (planner_input c s clamp)).
Proof.
  intros Hl. destruct (planActions_levels (planner_input c s clamp)) as [_ H].
  pose proof (plan_target_range (planner_input c s clamp)) as Hr. cbn [pi_profile planner_input] in Hr.
  rewrite (max_level c Hl) in Hr. eapply Forall_impl; [exact H|]. intros a ->. unfold level_ok. lia.
Qed.

Lemma plannedActions_ok (c : controller) d clamp :
  level_ok (currentLevel c) → pf_levelCount (profile c) = LEVELS → levels_ok (plannedActions c d clamp).
Proof.
  intros Hc Hl. unfold plannedActions.
  destruct (probe_active _); [by constructor|].
  destruct (_ && _); by apply planActions_ok.
Qed.

Lemma executeAction_level entry (a : actuator (X := X)) action :
  level_ok (ac_currentLevel a) → level_ok (action_level action) → level_ok (ac_currentLevel (executeAction entry a action)).
Proof.
  intros Ha Hl. unfold executeAction.
  destruct (if is_type TNoop action then _ else _) as [[x applied] e].
  unfold after_action. by destruct applied.
Qed.

Lemma executeActions_level entry (a : actuator (X := X)) actions :
  level_ok (ac_currentLevel a) → levels_ok actions → level_ok (ac_currentLevel (foldl (executeAction entry) a actions)).
Proof.
  intros Ha Hl. revert a Ha. induction Hl as [|x l Hx _ IH]; intros a Ha; [done|].
  apply IH. by apply executeAction_level.
Qed.

Lemma revert_level entry (a : actuator (X := X)) actions :
  level_ok (ac_currentLevel a) → levels_ok actions → level_ok (ac_currentLevel (revert entry a actions).1).
Proof.
  intros Ha Hl. revert a Ha. induction Hl as [|x l Hx _ IH]; intros a Ha; [done|]. cbn [revert].
  destruct (ax_execute (ac_executor a) x) as [x1 [r|e]]; [|done].
  unfold after_action. destruct (wasActionApplied r); by apply IH.
Qed.

(** ** Every operation keeps the invariant *)

Section preservation.
Context (base : Z → option (CB * Z)).
Abbreviation wf := (wf_controller base).

Lemma set_overrides_wf c o : wf c → wf (set_overrides c o).
Proof. by intros []; split. Qed.

Lemma set_coordination_wf c o : wf c → wf (set_coordination c o).
Proof. by intros []; split. Qed.

Lemma set_context_wf c s : wf c → wf_context s → wf (set_context c s).
Proof. by intros [] ?; split. Qed.

Lemma set_actuator_wf c a : wf c → level_ok (ac_currentLevel a) → wf (set_actuator c a).
Proof. by intros [] ?; split. Qed.

Lemma set_recovery_wf c r : wf c → 0 <= rv_recoveryProbeSuccessStreak r →
  (∀ p, rv_probeContext r = Some p → pr_active p = true ∧ level_ok (pr_previousLevel p)) → wf (set_recovery c r).
Proof. by intros [] ? ?; split. Qed.

Lemma set_publishing_wf c p : wf c → 0 <= pb_seq p <= QOS_MAX_SEQ → wf (set_publishing c p).
Proof. by intros [] ?; split. Qed.

Lemma set_previous_wf c snapshot signals : wf c → wf_timestamp (rs_timestampMs snapshot) = true → wf_signals signals →
  wf (set_previous c {| pv_previousSnapshot := Some snapshot; pv_previousSignals := Some signals |}).
Proof. intros [] ? ?; split; simpl; try done; intros ? [= <-]; done. Qed.

Lemma next_seq_range s : 0 <= s <= QOS_MAX_SEQ → 0 <= next_seq s <= QOS_MAX_SEQ.
Proof. unfold next_seq. destruct (_ <=? s) eqn:E; zlia. Qed.

Lemma publishSnapshot_wf c raw signals q now : wf c → wf (publishSnapshot c raw signals q now).
Proof.
  intros Hc. unfold publishSnapshot. destruct (pb_signalChannel _) as [ch|]; [|done].
  destruct (sk_publish _ _) as [ch' [u|e]].
  - apply set_publishing_wf; [done|]. apply next_seq_range, (wc_seq _ _ Hc).
  - apply set_actuator_wf; [|apply (wc_level _ _ Hc)]. apply set_publishing_wf; [done|].
    apply next_seq_range, (wc_seq _ _ Hc).
Qed.

Lemma executeActions_wf c actions signals now sb sa : wf c → levels_ok actions →
  wf (executeActions c actions signals now sb sa).
Proof.
  intros Hc Ha. unfold executeActions. cbv zeta.
  match goal with |- context [set_actuator c ?a] => assert (wf (set_actuator c a)) as H1 end.
  { apply set_actuator_wf; [done|]. by apply executeActions_level; [apply (wc_level _ _ Hc)|]. }
  destruct (_ && _); [|done]. apply set_recovery_wf; [done|apply (wc_streak _ _ H1)|].
  intros p [= <-]. split; [done|]. apply (wc_level _ _ Hc).
Qed.

Lemma reset_streak_wf c : wf c → wf (reset_streak c).
Proof.
  intros Hc. unfold reset_streak. destruct (_ && _); [|done].
  apply set_recovery_wf; [done|simpl; lia|apply (wc_probe _ _ Hc)].
Qed.

Lemma act_and_publish_wf c snapshot signals tr o d k now sb : wf c →
  wf_timestamp (rs_timestampMs snapshot) = true → wf_signals signals →
  wf (act_and_publish c snapshot signals tr o d k now sb).
Proof.
  intros Hc Ht Hs. unfold act_and_publish. cbv zeta. apply set_previous_wf; [|done|done].
  pose proof (reset_streak_wf c Hc) as H1.
  assert (wf (executeActions (reset_streak c) (filterActions (reset_streak c) (plannedActions (reset_streak c) d k) o)
    signals now sb (state (reset_streak c)))) as H2.
  { apply executeActions_wf; [done|]. apply filterActions_levels; [apply (wc_level _ _ H1)|].
    apply plannedActions_ok; [apply (wc_level _ _ H1)|apply (wc_levels _ _ H1)]. }
  destruct (shouldPublish _ _ _); [|done]. apply set_publishing_wf.
  - by apply publishSnapshot_wf.
  - apply (wc_seq _ _ (publishSnapshot_wf _ _ _ _ _ H2)).
Qed.

Lemma force_congested_wf s now : wf_context s → wf_context (force_congested s now).
Proof. unfold wf_context. simpl. tauto. Qed.

Lemma planActionsForLevel_ok (c : controller) s t : pf_levelCount (profile c) = LEVELS →
  levels_ok (planActionsForLevel (planner_input c s None) t).
Proof.
  intros Hl. destruct (planActionsForLevel_levels (planner_input c s None) t _ eq_refl) as [_ H].
  cbn [pi_profile planner_input] in H. rewrite (max_level c Hl) in H.
  pose proof (clampLevel_range t (LEVELS - 1) ltac:(done)).
  eapply Forall_impl; [exact H|]. intros a ->. unfold level_ok. lia.
Qed.

Lemma rollbackProbe_wf c signals now sb : wf c → wf (rollbackProbe c signals now sb).1.
Proof.
  intros Hc. unfold rollbackProbe. destruct (rv_probeContext _) as [p|]; [|done].
  pose proof (revert_level (trace_entry c signals now sb Congested
    (Some {| tp_active := false; tp_result := Some Failed; tp_previousLevel := pr_previousLevel p;
             tp_targetLevel := pr_targetLevel p |})) (c_actuator c)
    (planActionsForLevel (planner_input c Congested None) (pr_previousLevel p))
    (wc_level _ _ Hc) (planActionsForLevel_ok c Congested _ (wc_levels _ _ Hc))) as Hr.
  destruct (revert _ _ _) as [a [u|e]]; simpl in *.
  - apply set_context_wf; [by apply set_actuator_wf|]. by apply force_congested_wf, (wc_context _ _ Hc).
  - by apply set_actuator_wf.
Qed.

Lemma observe_wf c snapshot o now : wf c → wf_timestamp (rs_timestampMs snapshot) = true →
  wf (observe c snapshot o now).1.1 ∧ wf_signals (observe c snapshot o now).1.2 ∧
  rv_probeContext (c_recovery (observe c snapshot o now).1.1) = rv_probeContext (c_recovery c).
Proof.
  intros Hc Ht. unfold observe. cbn [fst snd]. split_and!; [| |done].
  - apply set_context_wf.
    + apply set_recovery_wf; [done|apply (wc_streak _ _ Hc)|apply (wc_probe _ _ Hc)].
    + apply (wf_context_step (c_stateContext c)), (wc_context _ _ Hc).
  - apply deriveSignals_invariant; [done|apply (wc_timestamp _ _ Hc)|apply (wc_signals _ _ Hc)].
Qed.

(** The contexts a probe evaluation returns keep the probe's identity. *)
Lemma evaluateProbe_keeps p s prof p' r : evaluateProbe (Some p) s prof = (Some p', r) →
  pr_active p' = true ∧ pr_previousLevel p' = pr_previousLevel p ∧
  pr_previousAudioOnlyMode p' = pr_previousAudioOnlyMode p.
Proof.
  unfold evaluateProbe. destruct (pr_active p) eqn:Ea; [|done]. cbn [negb].
  assert (∀ q, q = (if isProbeHealthy s prof then with_samples p (pr_healthySamples p + 1) 0
      else if isProbeBad s prof then with_samples p 0 (pr_badSamples p + 1) else p) →
    pr_active q = true ∧ pr_previousLevel q = pr_previousLevel p ∧
    pr_previousAudioOnlyMode q = pr_previousAudioOnlyMode p) as Hq.
  { intros q ->. by destruct (isProbeHealthy s prof), (isProbeBad s prof). }
  destruct (_ <=? _); [|destruct (_ <=? _)]; intros [= <- <-]; by apply Hq.
Qed.

Lemma processSample_wf c snapshot now : wf c → wf_timestamp (rs_timestampMs snapshot) = true →
  wf (processSample c snapshot now).1.
Proof.
  intros Hc Ht. unfold processSample. destruct (getActiveOverride _ now) as [os o].
  pose proof (set_overrides_wf c os Hc) as H0.
  destruct (observe_wf (set_overrides c os) snapshot o now H0 Ht) as (H1 & Hs & Hp).
  destruct (observe _ snapshot o now) as [[c1 signals] tr]. cbn [fst snd] in *.
  destruct (rv_probeContext (c_recovery c1)) as [p|] eqn:Ep; [|by apply act_and_publish_wf].
  destruct (wc_probe _ _ H1 p Ep) as [Hpa Hpl].
  destruct (evaluateProbe (Some p) signals (profile c1)) as [p' [| |]] eqn:Ee.
  - apply act_and_publish_wf; [|done|done]. apply set_recovery_wf; [done| |done].
    pose proof (wc_streak _ _ H1). simpl. destruct (_ && _); lia.
  - pose proof (rollbackProbe_wf c1 signals now (state c) H1) as Hr.
    destruct (rollbackProbe _ _ _ _) as [c2 [u|e]]; [|done]. by apply set_recovery_wf; simpl; [| lia |].
  - apply act_and_publish_wf; [|done|done].
    apply set_recovery_wf; [done|apply (wc_streak _ _ H1)|]. intros q Hq. simpl in Hq. subst p'.
    destruct (evaluateProbe_keeps _ _ _ _ _ Ee) as (? & -> & _). done.
Qed.

Lemma registry_levels s name q : resolveProfileByName s name = Ok (Some q) →
  wf_ladder q = true ∧ pf_levelCount q = LEVELS.
Proof.
  unfold resolveProfileByName. destruct (map_get (PROFILE_REGISTRY s) name) as [p|] eqn:E.
  - intros [= <-]. rewrite cloneProfile_id. apply map_get_elem in E.
    assert (Forall (λ e, wf_ladder e.2 = true ∧ pf_levelCount e.2 = LEVELS) (PROFILE_REGISTRY s)) as H
      by (destruct s; repeat constructor; vm_compute; reflexivity).
    rewrite Forall_forall in H. apply (H _ E).
  - by destruct (bool_decide _).
Qed.

Lemma set_sampler_wf c s r : wf c → owns_timer closure base s → r = sp_running s → wf (set_sampler c s r).
Proof. by intros [] ? ->; split. Qed.

Lemma set_settings_wf c s : wf c → wf_ladder (st_profile s) = true → pf_levelCount (st_profile s) = LEVELS →
  wf (set_settings c s).
Proof. by intros [] ? ?; split. Qed.

Lemma start_running (s : IntervalQosSampler (OnSample := unit) (OnError := unit) (C := C)) f e :
  sp_running (start closure s f e) = true.
Proof. unfold start. destruct (sp_running s) eqn:E; [done|]. by destruct (clk_setInterval _ _ _). Qed.

Lemma stop_running (s : IntervalQosSampler (OnSample := unit) (OnError := unit) (C := C)) :
  sp_running (stop s) = false.
Proof. unfold stop. by destruct (sp_running s) eqn:E. Qed.

Lemma updateIntervalMs_running s i s' : owns_timer closure base s →
  updateIntervalMs closure s i = Ok s' → sp_running s' = sp_running s.
Proof.
  intros Ho. unfold updateIntervalMs. destruct (bad_interval i); [done|].
  destruct (_ =? _); [by intros [= <-]|]. rewrite stop_set_interval. simpl.
  destruct (sp_running s) eqn:Er; [|by intros [= <-]].
  destruct (ow_running _ _ _ Ho Er) as [_ [f Hf]].
  assert (sp_onSample (stop s) = Some f) as -> by (unfold stop; by rewrite Er).
  intros [= <-]. apply start_running.
Qed.

Lemma handlePolicy_wf c p : wf c → wf (handlePolicy closure c p).1.
Proof.
  intros Hc. unfold handlePolicy.
  match goal with |- context [set_settings c ?s] => pose proof (set_settings_wf c s Hc (wc_ladder _ _ Hc) (wc_levels _ _ Hc)) as H1;
    set (c1 := set_settings c s) in * end.
  destruct (updateIntervalMs closure (c_sampler c1) _) as [s|e] eqn:Eu; [|done].
  assert (wf (set_sampler c1 s (c_running c1))) as H2.
  { apply set_sampler_wf; [done|by eapply updateIntervalMs_owns, Eu; apply (wc_sampler _ _ H1)|].
    rewrite (updateIntervalMs_running _ _ _ (wc_sampler _ _ H1) Eu). apply (wc_running _ _ H1). }
  destruct (_ && _); [|done]. destruct (resolveProfileByName _ _) as [[q|]|e] eqn:Er; [|done|done].
  apply registry_levels in Er as [? ?]. by apply set_settings_wf.
Qed.

Lemma start_controller_wf c : wf c → wf (start_controller closure c).
Proof.
  intros Hc. unfold start_controller. destruct (c_running c); [done|].
  apply set_sampler_wf; [done|by apply start_owns, (wc_sampler _ _ Hc)|]. symmetry. apply start_running.
Qed.

Lemma stop_controller_wf c : wf c → wf (stop_controller c).
Proof.
  intros Hc. unfold stop_controller. destruct (c_running c); [|done].
  apply set_sampler_wf; [done|by apply stop_owns, (wc_sampler _ _ Hc)|]. symmetry. apply stop_running.
Qed.
End preservation.

(** ** Runs *)

(** What reaches the controller, in the order it is handled. *)
Inductive operation :=
| OpTick (snapshot : outcome RawSenderSnapshot) (nowMs : Z)
| OpPolicy (policy : QosPolicy)
| OpOverride (override : QosOverride) (nowMs : Z)
| OpCoordination (override : option CoordinationOverride)
| OpStart
| OpStop.

Definition apply_operation (c : controller) (op : operation) : controller :=
  match op with
  | OpTick snapshot nowMs => on_tick c snapshot nowMs
  | OpPolicy policy => (handlePolicy closure c policy).1
  | OpOverride override nowMs => controller_handleOverride c nowMs override
  | OpCoordination override => controller_setCoordinationOverride c override
  | OpStart => start_controller closure c
  | OpStop => stop_controller c
  end.

(** Timestamps of samples are usable doubles; nothing else is assumed. *)
Definition usable (op : operation) : Prop :=
  match op with
  | OpTick (Ok snapshot) _ => wf_timestamp (rs_timestampMs snapshot) = true
  | _ => True
  end.

Lemma apply_operation_wf base c op : usable op → wf_controller base c → wf_controller base (apply_operation c op).
Proof.
  intros Hu Hc. destruct op as [[s|e] now|p|o now|o| |]; simpl in *.
  - unfold on_tick, sampleNow. pose proof (processSample_wf base c s now Hc Hu) as H.
    destruct (processSample c s now) as [c1 [u|e]]; [done|]. apply set_actuator_wf; [done|apply (wc_level _ _ H)].
  - apply set_actuator_wf; [done|apply (wc_level _ _ Hc)].
  - by apply handlePolicy_wf.
  - by apply set_overrides_wf.
  - by apply set_coordination_wf.
  - by apply start_controller_wf.
  - by apply stop_controller_wf.
Qed.

Lemma new_controller_wf options nowMs c :
  clk_ok (op_clock options) →
  wf_ladder (op_profile options) = true → pf_levelCount (op_profile options) = LEVELS →
  level_ok (Qfloor (default 0%Q (op_initialLevel options))) →
  new_controller options nowMs = Ok c → wf_controller (clk_timer (op_clock options)) c.
Proof.
  intros Hclk Hlad Hlev Hl Hn. unfold new_controller in Hn. bind_inv. subst c. unfold level_ok in Hl.
  split; cbn; try done; try lia.
  - unfold level_ok, currentLevel; simpl. lia.
  - by eapply new_sampler_owns.
  - unfold new_sampler in Hm. destruct (bad_interval _); [done|]. by injection Hm as <-.
Qed.

(** C1: for a well-formed profile with five levels and an initial level among them,
    whatever samples with usable timestamps, policies, overrides, starts and stops
    arrive, and whatever the executor and the channel do, the controller stays within
    its invariant: the level is one of the ladder's, sequence numbers are safe
    integers, signals are well formed, a probe can always be rolled back to a
    valid level, and its timer matches its running state. *)
Theorem controller_invariant options nowMs c ops :
  clk_ok (op_clock options) →
  wf_ladder (op_profile options) = true → pf_levelCount (op_profile options) = LEVELS →
  level_ok (Qfloor (default 0%Q (op_initialLevel options))) →
  new_controller options nowMs = Ok c → Forall usable ops →
  wf_controller (clk_timer (op_clock options)) (foldl apply_operation c ops).
Proof.
  intros Hclk Hlad Hlev Hl Hn Hops.
  pose proof (new_controller_wf options nowMs c Hclk Hlad Hlev Hl Hn) as Hc.
  clear Hn. revert c Hc. induction Hops as [|op ops Hu _ IH]; intros c Hc; [done|].
  apply IH. by apply apply_operation_wf.
Qed.

(** ** Executors that apply what they are given *)

Definition cooperative : Prop :=
  ∀ (x : X) a, ∃ x' r, ax_execute x a = (x', Ok r) ∧ wasActionApplied r = true.

Lemma executeAction_cooperative entry (a : actuator (X := X)) action : cooperative →
  ac_currentLevel (executeAction entry a action) = action_level action ∧
  ac_inAudioOnlyMode (executeAction entry a action) =
    (after_action (ac_currentLevel a) (ac_inAudioOnlyMode a) action).2.
Proof.
  intros Hx. unfold executeAction. destruct (is_type TNoop action); [done|].
  destruct (Hx (ac_executor a) action) as (x' & r & -> & ->). done.
Qed.

(** All actions of a plan lead to one level, so its execution does. *)
Lemma execute_plan_level entry (a : actuator (X := X)) actions t : cooperative →
  actions ≠ [] → Forall (λ x, action_level x = t) actions →
  ac_currentLevel (foldl (executeAction entry) a actions) = t.
Proof.
  intros Hx Hne Hl. destruct actions as [|x l _] using rev_ind; [done|].
  rewrite foldl_app. simpl. apply Forall_app in Hl as [_ Hl]. apply Forall_cons in Hl as [Hl _].
  destruct (executeAction_cooperative entry (foldl (executeAction entry) a l) x Hx) as [-> _]. done.
Qed.

Lemma revert_plan_level entry (a : actuator (X := X)) actions t : cooperative →
  actions ≠ [] → Forall (λ x, action_level x = t) actions →
  ∃ a', revert entry a actions = (a', Ok tt) ∧ ac_currentLevel a' = t.
Proof.
  intros Hx Hne Hl. revert a. induction Hl as [|x l Hlx Hl IH]; intros a; [done|]. cbn [revert].
  destruct (Hx (ac_executor a) x) as (x' & r & -> & ->). unfold after_action. cbv iota zeta.
  destruct l as [|y l].
  - cbn [revert]. eexists. split; [done|]. done.
  - apply IH. done.
Qed.

(** ** Probes *)

(** C5: a probe that fails is undone: with an executor that applies its actions
    the controller is back on the level it had before the probe, the state is
    congested with a fresh cooldown, no probe is open, and recovery is
    suppressed for the profile's cooldown; nothing is published. *)
Theorem probe_failure_rolls_back base (c : controller) snapshot nowMs p os o :
  cooperative → wf_controller base c →
  rv_probeContext (c_recovery c) = Some p →
  getActiveOverride (c_overrides c) nowMs = (os, o) →
  (evaluateProbe (Some p) (observe (set_overrides c os) snapshot o nowMs).1.2 (profile c)).2 = Failed →
  ∃ c', processSample c snapshot nowMs = (c', Ok tt) ∧
    currentLevel c' = pr_previousLevel p ∧ state c' = Congested ∧
    sm_lastCongestedAtMs (c_stateContext c') = Some nowMs ∧
    rv_probeContext (c_recovery c') = None ∧
    rv_recoverySuppressedUntilMs (c_recovery c') = Some (nowMs + pf_recoveryCooldownMs (profile c)) ∧
    c_publishing c' = c_publishing c.
Proof.
  intros Hx Hwf Hp Ho Hf. unfold processSample. rewrite Ho.
  assert (c_recovery (observe (set_overrides c os) snapshot o nowMs).1.1 = count_cpu (c_recovery c) snapshot ∧
    profile (observe (set_overrides c os) snapshot o nowMs).1.1 = profile c ∧
    c_publishing (observe (set_overrides c os) snapshot o nowMs).1.1 = c_publishing c) as (Er & Epf & Epb)
    by done.
  destruct (observe (set_overrides c os) snapshot o nowMs) as [[c1 signals] tr]. cbn [fst snd] in *.
  rewrite Er. cbn [count_cpu rv_probeContext]. rewrite Hp, Epf.
  destruct (evaluateProbe (Some p) signals (profile c)) as [p' []]; try discriminate. clear Hf.
  unfold rollbackProbe. rewrite Er. cbn [count_cpu rv_probeContext]. rewrite Hp.
  destruct (wc_probe _ _ Hwf p Hp) as [_ Hlev].
  destruct (planActionsForLevel_levels (planner_input c1 Congested None) (pr_previousLevel p) _ eq_refl) as [Hne Hl].
  cbn [pi_profile planner_input] in Hl. rewrite Epf in Hl.
  rewrite (max_level c (wc_levels _ _ Hwf)), clampLevel_id in Hl by (unfold level_ok, LEVELS in *; lia).
  match goal with |- context [revert ?e ?a ?l] => destruct (revert_plan_level e a l _ Hx Hne Hl) as (a' & -> & Ha') end.
  eexists. split; [done|]. split_and!; try done. by rewrite <-Epf.
Qed.

(** The controller is left alone by overrides: nothing forces, pauses or resumes
    the upstream, and no override-driven audio-only mode has to be left. *)
Definition unforced (c : controller) (o : option QosOverride) : Prop :=
  o = None ∧ c_coordinationOverride c = None ∧
  (inAudioOnlyMode c = true → pf_source (profile c) = Camera → LEVELS - 1 <= currentLevel c).

Lemma filterActions_unforced (c : controller) actions o :
  unforced c o → pf_levelCount (profile c) = LEVELS → actions ≠ [] →
  (st_allowAudioOnly (c_settings c) && st_allowVideoPause (c_settings c) = true ∨
   Forall (λ a, is_type TEnterAudioOnly a || is_type TExitAudioOnly a = false) actions) →
  filterActions c actions o = actions.
Proof.
  intros (-> & Hc & Ha) Hl Hne Hallow. unfold filterActions. rewrite Hc, Hl.
  cbn [override_flag coordination_flag orb andb negb]. rewrite !andb_false_r. cbn [prepend andb].
  assert (List.filter (λ a, negb ((is_type TEnterAudioOnly a || is_type TExitAudioOnly a) &&
      negb (st_allowAudioOnly (c_settings c) && st_allowVideoPause (c_settings c)))) actions = actions) as ->.
  { destruct Hallow as [->|Hall].
    - apply filter_all. intros a _. by rewrite andb_false_r.
    - apply filter_all. rewrite Forall_forall in Hall. intros a Ha'. by rewrite (Hall a Ha'). }
  assert (bool_decide (pf_source (profile c) = Camera) && inAudioOnlyMode c &&
    (currentLevel c <? Z.max 0 (LEVELS - 1)) = false) as ->.
  { case_bool_decide as Es; [|done]. destruct (inAudioOnlyMode c) eqn:Em; [|done]. simpl.
    apply Z.ltb_ge. specialize (Ha eq_refl Es). unfold LEVELS in *. lia. }
  rewrite !andb_false_r. cbn [andb prepend]. by destruct actions.
Qed.

(** ** One sample *)

Lemma publishSnapshot_level (c : controller) raw signals q now :
  currentLevel (publishSnapshot c raw signals q now) = currentLevel c ∧
  inAudioOnlyMode (publishSnapshot c raw signals q now) = inAudioOnlyMode c ∧
  state (publishSnapshot c raw signals q now) = state c ∧
  ac_executor (c_actuator (publishSnapshot c raw signals q now)) = ac_executor (c_actuator c).
Proof.
  unfold publishSnapshot. destruct (pb_signalChannel _); [|done]. by destruct (sk_publish _ _) as [? []].
Qed.

Lemma executeActions_state (c : controller) actions signals now sb sa :
  c_actuator (executeActions c actions signals now sb sa) =
    foldl (executeAction (trace_entry c signals now sb sa
      ((λ p, {| tp_active := true; tp_result := None; tp_previousLevel := pr_previousLevel p;
                tp_targetLevel := pr_targetLevel p |}) <$> rv_probeContext (c_recovery c)))) (c_actuator c) actions ∧
  state (executeActions c actions signals now sb sa) = state c.
Proof. unfold executeActions. cbv zeta. by destruct (_ && _). Qed.

(** Publishing and remembering the sample change neither level nor state. *)
Lemma act_and_publish_actuator (c : controller) snapshot signals tr o d k now sb :
  let c' := act_and_publish c snapshot signals tr o d k now sb in
  let c1 := reset_streak c in
  let c2 := executeActions c1 (filterActions c1 (plannedActions c1 d k) o) signals now sb (state c1) in
  currentLevel c' = currentLevel c2 ∧ inAudioOnlyMode c' = inAudioOnlyMode c2 ∧ state c' = state c ∧
  ac_executor (c_actuator c') = ac_executor (c_actuator c2).
Proof.
  cbv zeta. unfold act_and_publish. cbv zeta.
  set (c2 := executeActions (reset_streak c) _ _ _ _ _).
  assert (state c2 = state c) as Hs.
  { unfold c2. rewrite (proj2 (executeActions_state _ _ _ _ _ _)). unfold reset_streak. by destruct (_ && _). }
  destruct (shouldPublish _ _ _); [|done].
  destruct (publishSnapshot_level c2 snapshot signals (tr_quality tr) now) as (E1 & E2 & E3 & E4).
  split_and!; [exact E1|exact E2|by rewrite <-Hs, <-E3|exact E4].
Qed.

Lemma reset_streak_same (c : controller) :
  currentLevel (reset_streak c) = currentLevel c ∧ inAudioOnlyMode (reset_streak c) = inAudioOnlyMode c ∧
  state (reset_streak c) = state c ∧ c_settings (reset_streak c) = c_settings c ∧
  c_coordinationOverride (reset_streak c) = c_coordinationOverride c ∧
  rv_probeContext (c_recovery (reset_streak c)) = rv_probeContext (c_recovery c).
Proof. unfold reset_streak. by destruct (_ && _). Qed.

(** The planner's target without a clamp. *)
Lemma plan_target_unclamped (c : controller) s :
  level_ok (currentLevel c) → pf_levelCount (profile c) = LEVELS →
  plan_target (planner_input c s None) =
    match s with
    | Congested => Z.min (currentLevel c + 1) (LEVELS - 1)
    | EarlyWarning => Z.max (currentLevel c) 1
    | Stable | Recovering => Z.max 0 (currentLevel c - 1)
    end.
Proof.
  intros Hl Hn. unfold plan_target, resolveTargetLevel. cbn [pi_profile pi_currentLevel pi_overrideClampLevel
    pi_state pi_source pi_inAudioOnlyMode planner_input]. rewrite (max_level c Hn).
  unfold level_ok, LEVELS in *. rewrite (clampLevel_id (currentLevel c)) by lia. set (l := currentLevel c) in *.
  destruct s; rewrite ?andb_false_r; simpl; unfold clampLevel; repeat case_match; bool_hyps; zlia.
Qed.

(** What the controller plans when no probe is open, nothing is clamped and
    audio-only mode is allowed, an executor that applies actions makes true. *)
Lemma act_reaches_plan base (c : controller) snapshot signals tr d now sb :
  cooperative → wf_controller base c → rv_probeContext (c_recovery c) = None → unforced c None →
  st_allowAudioOnly (c_settings c) && st_allowVideoPause (c_settings c) = true →
  currentLevel (act_and_publish c snapshot signals tr None d None now sb) =
    match state c with
    | Congested => Z.min (currentLevel c + 1) (LEVELS - 1)
    | EarlyWarning => Z.max (currentLevel c) 1
    | Stable => Z.max 0 (currentLevel c - 1)
    | Recovering => if d then Z.max (currentLevel c) 1 else Z.max 0 (currentLevel c - 1)
    end.
Proof.
  intros Hx Hwf Hp Hu Ha. rewrite (proj1 (act_and_publish_actuator _ _ _ _ _ _ _ _ _)).
  destruct (reset_streak_same c) as (E1 & E2 & E3 & E4 & E5 & E6).
  pose proof (reset_streak_wf base c Hwf) as Hwf1. set (c1 := reset_streak c) in *.
  assert (unforced c1 None) as Hu1.
  { destruct Hu as (_ & Hc & Hm). split_and!; [done|congruence|]. unfold profile in *. rewrite E1, E2, E4. done. }
  unfold currentLevel at 1. rewrite (proj1 (executeActions_state _ _ _ _ _ _)).
  unfold plannedActions. rewrite E6, Hp. cbn [probe_active]. rewrite E3.
  set (s' := if bool_decide (state c = Recovering) then if d then EarlyWarning else Recovering else state c).
  assert ((if bool_decide (state c = Recovering) && negb d then planRecovery (planner_input c1 (state c) None)
     else planActions (planner_input c1 (if bool_decide (state c = Recovering) then EarlyWarning else state c) None))
    = planActions (planner_input c1 s' None)) as ->.
  { unfold s', planRecovery. case_bool_decide; simpl; [by destruct d|done]. }
  destruct (planActions_levels (planner_input c1 s' None)) as [Hne Hlev].
  rewrite filterActions_unforced; [|done|apply (wc_levels _ _ Hwf1)|done|left; by rewrite E4].
  rewrite (execute_plan_level _ _ _ _ Hx Hne Hlev).
  rewrite plan_target_unclamped by apply Hwf1. rewrite E1. unfold s'.
  case_bool_decide as Es; [rewrite Es; by destruct d|]. by destruct (state c).
Qed.

(** The whole pipeline, sample by sample: with no probe open, no override in
    force and an executor that applies its actions, the level moves one step up
    the ladder when the sample leaves the controller congested, one step down
    when it leaves it stable or recovering, is at least 1 in early warning, and
    holds while recovery is suppressed. *)
Theorem sample_moves_one_level base (c : controller) snapshot nowMs os :
  cooperative → wf_controller base c → wf_timestamp (rs_timestampMs snapshot) = true →
  rv_probeContext (c_recovery c) = None → unforced c None →
  getActiveOverride (c_overrides c) nowMs = (os, None) →
  st_allowAudioOnly (c_settings c) && st_allowVideoPause (c_settings c) = true →
  let c' := (processSample c snapshot nowMs).1 in
  currentLevel c' =
    match state c' with
    | Congested => Z.min (currentLevel c + 1) (LEVELS - 1)
    | EarlyWarning => Z.max (currentLevel c) 1
    | Stable => Z.max 0 (currentLevel c - 1)
    | Recovering =>
        if before nowMs (rv_recoverySuppressedUntilMs (c_recovery c))
        then Z.max (currentLevel c) 1 else Z.max 0 (currentLevel c - 1)
    end.
Proof.
  intros Hx Hwf Ht Hp Hu Ho Ha. destruct (Hu) as (_ & Hco & _). cbv zeta. unfold processSample. rewrite Ho.
  destruct (observe_wf base (set_overrides c os) snapshot None nowMs (set_overrides_wf _ _ _ Hwf) Ht) as (H1 & _ & Hp1).
  assert (combinedClampLevel None (c_coordinationOverride (set_overrides c os)) = None) as ->
    by (cbn [set_overrides c_coordinationOverride]; by rewrite Hco).
  assert (recovery_disabled (set_overrides c os) None nowMs = before nowMs (rv_recoverySuppressedUntilMs (c_recovery c))) as ->
    by (unfold recovery_disabled; cbn [set_overrides c_coordinationOverride c_recovery]; by rewrite Hco).
  assert (currentLevel (observe (set_overrides c os) snapshot None nowMs).1.1 = currentLevel c ∧
    unforced (observe (set_overrides c os) snapshot None nowMs).1.1 None ∧
    c_settings (observe (set_overrides c os) snapshot None nowMs).1.1 = c_settings c) as (E1 & Hu1 & E2) by done.
  destruct (observe (set_overrides c os) snapshot None nowMs) as [[c1 signals] tr]. cbn [fst snd] in *.
  cbn [set_overrides c_recovery] in Hp1. rewrite Hp in Hp1. rewrite Hp1. cbn [fst].
  rewrite (act_reaches_plan base) by (first [done | by rewrite E2]).
  destruct (act_and_publish_actuator c1 snapshot signals tr None
    (before nowMs (rv_recoverySuppressedUntilMs (c_recovery c))) None nowMs (state c)) as (_ & _ & -> & _).
  by rewrite E1.
Qed.

(** While a probe is being observed, without overrides, a sample neither
    reaches the executor nor changes the level or the audio-only mode. *)
Theorem probe_in_progress_holds (c : controller) snapshot nowMs p p' os :
  rv_probeContext (c_recovery c) = Some p → unforced c None → pf_levelCount (profile c) = LEVELS →
  getActiveOverride (c_overrides c) nowMs = (os, None) →
  evaluateProbe (Some p) (observe (set_overrides c os) snapshot None nowMs).1.2 (profile c) = (Some p', Inconclusive) →
  let c' := (processSample c snapshot nowMs).1 in
  currentLevel c' = currentLevel c ∧ inAudioOnlyMode c' = inAudioOnlyMode c ∧
  ac_executor (c_actuator c') = ac_executor (c_actuator c).
Proof.
  intros Hp Hu Hn Ho He. cbv zeta. unfold processSample. rewrite Ho.
  assert (c_recovery (observe (set_overrides c os) snapshot None nowMs).1.1 = count_cpu (c_recovery c) snapshot ∧
    profile (observe (set_overrides c os) snapshot None nowMs).1.1 = profile c ∧
    unforced (observe (set_overrides c os) snapshot None nowMs).1.1 None ∧
    c_actuator (observe (set_overrides c os) snapshot None nowMs).1.1 = c_actuator c) as (Er & Epf & Hu1 & Ea) by done.
  destruct (observe (set_overrides c os) snapshot None nowMs) as [[c1 signals] tr]. cbn [fst snd] in *.
  rewrite Er. cbn [count_cpu rv_probeContext]. rewrite Hp, Epf, He. cbn [fst].
  destruct (evaluateProbe_keeps _ _ _ _ _ He) as (Hact & _ & _).
  set (c2 := set_recovery c1 _).
  assert (unforced c2 None ∧ pf_levelCount (profile c2) = LEVELS ∧ c_actuator c2 = c_actuator c ∧
    rv_probeContext (c_recovery c2) = Some p') as (Hu2 & Hn2 & Ea2 & Hp2).
  { split_and!; [done|by rewrite <-Epf in Hn|done|done]. }
  clearbody c2. destruct (reset_streak_same c2) as (_ & _ & _ & E4 & E5 & E6).
  assert (c_actuator (reset_streak c2) = c_actuator c2) as E1 by (unfold reset_streak; by destruct (_ && _)).
  destruct (act_and_publish_actuator c2 snapshot signals tr None
    (recovery_disabled (set_overrides c os) None nowMs)
    (combinedClampLevel None (c_coordinationOverride (set_overrides c os))) nowMs (state c)) as (R1 & R2 & _ & R3).
  rewrite R1, R2, R3. unfold currentLevel, inAudioOnlyMode. rewrite (proj1 (executeActions_state _ _ _ _ _ _)).
  unfold plannedActions. rewrite E6, Hp2. cbn [probe_active]. rewrite Hact.
  rewrite filterActions_unforced; [| |by unfold profile; rewrite E4|done|right; by repeat constructor].
  - cbn. unfold currentLevel. by rewrite E1, Ea2.
  - destruct Hu2 as (_ & Hc & Hm). split_and!; [done|by rewrite E5|].
    unfold inAudioOnlyMode, currentLevel, profile in *. by rewrite E1, E4.
Qed.

(** ** Suppressed recovery *)

(** While recovery is suppressed or disabled, no plan of a controller that is
    not stable leads to a better level; a stable controller, however, is still
    planned one level better. *)
Theorem suppressed_recovery_plans (c : controller) :
  level_ok (currentLevel c) → pf_levelCount (profile c) = LEVELS → rv_probeContext (c_recovery c) = None →
  Forall (λ a, match state c with
               | Stable => action_level a = Z.max 0 (currentLevel c - 1)
               | _ => currentLevel c <= action_level a
               end) (plannedActions c true None).
Proof.
  intros Hl Hn Hp. unfold plannedActions. rewrite Hp. cbn [probe_active]. rewrite andb_false_r.
  destruct (planActions_levels (planner_input c (if bool_decide (state c = Recovering) then EarlyWarning else state c) None))
    as [_ Hlev]. rewrite plan_target_unclamped in Hlev by done.
  eapply Forall_impl; [exact Hlev|]. intros a ->. unfold level_ok in Hl.
  case_bool_decide as Es; [rewrite Es; lia|]. unfold LEVELS in *. destruct (state c); try done; lia.
Qed.

(** ** What may reach the executor *)

(** Actions that switch audio-only mode. *)
Definition switches_mode (a : PlannedQosAction) : bool := is_type TEnterAudioOnly a || is_type TExitAudioOnly a.

(** Without permission no such action survives the filter, and something always does. *)
Lemma filter_no_switch (c : controller) actions o :
  st_allowAudioOnly (c_settings c) && st_allowVideoPause (c_settings c) = false →
  filterActions c actions o ≠ [] ∧ Forall (λ a, switches_mode a = false) (filterActions c actions o).
Proof.
  intros Ha. unfold filterActions. rewrite Ha. cbv zeta. rewrite !andb_false_r. cbn [andb prepend]. 
  match goal with |- context [match ?l with [] => _ | _ :: _ => _ end] => set (filtered := l) end.
  assert (Forall (λ a, switches_mode a = false) filtered) as H.
  { apply Forall_forall. intros a [_ Hf]%list_elem_of_In%List.filter_In.
    by rewrite andb_true_r, negb_true_iff in Hf. }
  clearbody filtered. destruct filtered as [|a l]; [|done]. split; [done|]. by constructor.
Qed.

(** Other actions leave the mode alone, whatever the executor answers. *)
Lemma no_switch_keeps_mode entry (a : actuator) actions : Forall (λ x, switches_mode x = false) actions →
  ac_inAudioOnlyMode (foldl (executeAction entry) a actions) = ac_inAudioOnlyMode a.
Proof.
  intros H. revert a. induction H as [|x l Hx Hl IH]; intros a; [done|]. cbn [foldl]. rewrite IH.
  unfold switches_mode in Hx. apply orb_false_iff in Hx as [H1 H2]. unfold executeAction, after_action. rewrite H1, H2.
  destruct (is_type TNoop x); [done|]. destruct (ax_execute _ _) as [? [r|]]; [by destruct (wasActionApplied r)|done].
Qed.

Lemma act_keeps_mode (c : controller) snapshot signals tr o d k now sb :
  st_allowAudioOnly (c_settings c) && st_allowVideoPause (c_settings c) = false →
  inAudioOnlyMode (act_and_publish c snapshot signals tr o d k now sb) = inAudioOnlyMode c.
Proof.
  intros Hp. destruct (act_and_publish_actuator c snapshot signals tr o d k now sb) as (_ & -> & _).
  destruct (reset_streak_same c) as (_ & <- & _ & Hs & _). unfold inAudioOnlyMode at 1.
  rewrite (proj1 (executeActions_state _ _ _ _ _ _)). apply no_switch_keeps_mode, filter_no_switch. by rewrite Hs.
Qed.

(** Whether a sample makes the open probe fail, which rolls it back. *)
Definition rolls_back (c : controller) (snapshot : RawSenderSnapshot) (nowMs : Z) : bool :=
  let '(os, o) := getActiveOverride (c_overrides c) nowMs in
  match rv_probeContext (c_recovery c) with
  | None => false
  | Some p =>
      match (evaluateProbe (Some p) (observe (set_overrides c os) snapshot o nowMs).1.2 (profile c)).2 with
      | Failed => true
      | _ => false
      end
  end.

(** C21: when the policy forbids audio-only mode or pausing video, a sample that
    does not roll a probe back neither enters nor leaves audio-only mode, whatever
    state, overrides and coordination ask for and whatever the executor does; no
    action that would do so passes the filter, and one always does pass. *)
Theorem audio_only_needs_permission (c : controller) snapshot nowMs :
  st_allowAudioOnly (c_settings c) && st_allowVideoPause (c_settings c) = false →
  (rolls_back c snapshot nowMs = false →
   inAudioOnlyMode (processSample c snapshot nowMs).1 = inAudioOnlyMode c) ∧
  ∀ actions o, filterActions c actions o ≠ [] ∧ Forall (λ a, switches_mode a = false) (filterActions c actions o).
Proof.
  intros Hp. split; [|intros; by apply filter_no_switch]. unfold rolls_back, processSample.
  destruct (getActiveOverride _ _) as [os o]. unfold observe. cbv zeta. cbn [fst snd].
  cbn [c_recovery set_context set_recovery rv_probeContext count_cpu set_overrides].
  destruct (rv_probeContext (c_recovery c)) as [p|]; [|intros _; by etrans; [apply act_keeps_mode|]].
  destruct (evaluateProbe _ _ _) as [ctx []] eqn:E; cbn [snd]; intros Hr; try done; by etrans; [apply act_keeps_mode|].
Qed.

(** ** Publishing *)

(** The snapshot that is sent, as the protocol's data. *)
Definition snapshot_record (c : controller) (seq : Z) raw signals (q : QosQuality) (nowMs : Z) (w h : option Z) : ClientQosSnapshot := {|
  cq_seq := seq; cq_tsMs := num_of_Z nowMs;
  cq_peerState := {| cp_mode := resolvePeerMode (inAudioOnlyMode c) (id_kind (c_id c)); cp_quality := q; cp_stale := false |};
  cq_tracks := [{| ct_localTrackId := id_trackId (c_id c); ct_producerId := id_producerId (c_id c);
    ct_kind := id_kind (c_id c); ct_source := pf_source (profile c); ct_state := state c;
    ct_reason := sg_reason signals; ct_quality := q; ct_ladderLevel := currentLevel c;
    ct_signals := {| cs_sendBitrateBps := sg_sendBitrateBps signals;
      cs_targetBitrateBps := Some (sg_targetBitrateBps signals); cs_lossRate := Some (sg_lossRate signals);
      cs_rttMs := Some (sg_rttMs signals); cs_jitterMs := Some (sg_jitterMs signals);
      cs_frameWidth := w; cs_frameHeight := h; cs_framesPerSecond := rs_framesPerSecond raw;
      cs_qualityLimitationReason := rs_qualityLimitationReason raw |};
    ct_lastAction := ac_lastAction (c_actuator c) |}] |}.

Lemma nonneg_finite_intro n : is_finite n = true → nonneg n → nonneg_finite n.
Proof.
  intros Hf Hn. split; [done|]. destruct n as [| | |x]; try done. unfold nonneg, num_le in Hn. simpl in *.
  by rewrite Hn.
Qed.

Lemma nonneg_finite_Z z : 0 <= z → nonneg_finite (num_of_Z z).
Proof.
  intros H. apply nonneg_finite_intro; [done|]. unfold nonneg, num_le. change (Fin 0) with (num_of_Z 0).
  rewrite num_of_Z_leb. by apply Z.leb_le.
Qed.

Lemma unit_range_finite n : unit_range n → is_finite n = true ∧ nonneg n.
Proof. intros (x & -> & ? & ?)%unit_range_fin. split; [done|]. by apply nonneg_fin. Qed.

Lemma snapshot_payload_js (c : controller) seq raw signals q nowMs w h :
  rs_frameWidth raw = num_of_Z <$> w → rs_frameHeight raw = num_of_Z <$> h →
  snapshot_payload c seq raw signals q nowMs = snapshot_js (snapshot_record c seq raw signals q nowMs w h).
Proof. intros Hw Hh. unfold snapshot_payload, snapshot_record, snapshot_js. cbn. rewrite Hw, Hh. by destruct w, h. Qed.

(** C6: publishing hands the signal channel one message, and records an error
    exactly when the channel throws it.  In a controller that satisfies its invariant,
    with well-formed signals, at a time that is not negative, when the identifiers
    are not empty, the bitrates, times and the frame rate are finite, the frame rate
    is not negative, and the frame size is a natural number, that message is accepted by the
    protocol's validator as the snapshot with the next sequence number (0 after
    the last one), which the controller keeps, and the current mode, state, level,
    quality, measurements and last action. *)
Theorem published_snapshot_valid base (c : controller) channel raw signals q nowMs w h :
  wf_controller base c → wf_signals signals → 0 <= nowMs →
  pb_signalChannel (c_publishing c) = Some channel →
  nonempty (id_trackId (c_id c)) → opt_all nonempty (id_producerId (c_id c)) →
  is_finite (sg_sendBitrateBps signals) = true → is_finite (sg_targetBitrateBps signals) = true →
  is_finite (sg_rttMs signals) = true → is_finite (sg_jitterMs signals) = true →
  rs_frameWidth raw = num_of_Z <$> w → opt_all (λ z, 0 <= z) w →
  rs_frameHeight raw = num_of_Z <$> h → opt_all (λ z, 0 <= z) h →
  opt_all nonneg_finite (rs_framesPerSecond raw) →
  let c' := publishSnapshot c raw signals q nowMs in
  let seq := pb_seq (c_publishing c) in
  ∃ payload s,
    pb_signalChannel (c_publishing c') = Some (sk_publish channel payload).1 ∧
    ac_lastSampleError (c_actuator c') =
      match (sk_publish channel payload).2 with Ok _ => ac_lastSampleError (c_actuator c) | Throw e => Some e end ∧
    payload = snapshot_js s ∧ parseClientQosSnapshot payload = Ok s ∧
    cq_seq s = (if decide (seq = QOS_MAX_SEQ) then 0 else seq + 1) ∧ pb_seq (c_publishing c') = cq_seq s ∧
    cq_tsMs s = num_of_Z nowMs ∧
    cq_peerState s = {| cp_mode := resolvePeerMode (inAudioOnlyMode c) (id_kind (c_id c));
                        cp_quality := q; cp_stale := false |} ∧
    cq_tracks s = [{| ct_localTrackId := id_trackId (c_id c); ct_producerId := id_producerId (c_id c);
      ct_kind := id_kind (c_id c); ct_source := pf_source (profile c); ct_state := state c;
      ct_reason := sg_reason signals; ct_quality := q; ct_ladderLevel := currentLevel c;
      ct_signals := {| cs_sendBitrateBps := sg_sendBitrateBps signals;
        cs_targetBitrateBps := Some (sg_targetBitrateBps signals); cs_lossRate := Some (sg_lossRate signals);
        cs_rttMs := Some (sg_rttMs signals); cs_jitterMs := Some (sg_jitterMs signals);
        cs_frameWidth := w; cs_frameHeight := h; cs_framesPerSecond := rs_framesPerSecond raw;
        cs_qualityLimitationReason := rs_qualityLimitationReason raw |};
      ct_lastAction := ac_lastAction (c_actuator c) |}].
Proof.
  intros Hwf Hsg Hnow Hch Hid Hpid Hf1 Hf2 Hf3 Hf4 Hw Hw0 Hh Hh0 Hfps c' seq.
  pose proof (wc_seq _ _ Hwf) as Hseq.
  set (s := snapshot_record c (next_seq seq) raw signals q nowMs w h).
  exists (snapshot_js s), s. subst c'. unfold publishSnapshot. rewrite Hch, (snapshot_payload_js _ _ _ _ _ _ w h) by done.
  fold seq. fold s. destruct (sk_publish channel (snapshot_js s)) as [channel' r].
  assert (parseClientQosSnapshot (snapshot_js s) = Ok s) as Hs.
  { apply snapshot_roundtrip. split; cbn.
    - by apply next_seq_range.
    - by apply nonneg_finite_Z.
    - unfold QOS_MAX_TRACKS_PER_SNAPSHOT. lia.
    - constructor; [|done]. split; cbn; [done|done|apply (wc_level _ _ Hwf)|]. destruct Hsg.
      split; cbn; try apply opt_all_Some; try done; apply nonneg_finite_intro; try done.
      + by apply unit_range_finite.
      + by apply unit_range_finite. }
  split_and!; try done; try (by destruct r). cbn. unfold next_seq.
  destruct (decide _) as [->|]; [done|]. destruct (_ <=? _) eqn:E; [|done]. zlia.
Qed.

(** ** Policies *)

(** A policy with a sample interval of zero passes the parser, but makes the
    sampler throw in the middle of [handlePolicy]: the flags and intervals are
    taken over, the timer and the profile are not. *)
Lemma zero_interval_policy_half_applied (c : controller) p :
  po_sampleIntervalMs p = 0 →
  ∃ c', handlePolicy closure c p = (c', Throw INTERVAL_ERROR) ∧
    getRuntimeSettings c' = {| rs_sampleIntervalMs := 0; rs_snapshotIntervalMs := po_snapshotIntervalMs p;
      rs_allowAudioOnly := po_allowAudioOnly p; rs_allowVideoPause := po_allowVideoPause p;
      rs_probeActive := probe_active (rv_probeContext (c_recovery c)) |} ∧
    c_sampler c' = c_sampler c ∧ profile c' = profile c.
Proof.
  intros Hz. unfold handlePolicy, updateIntervalMs. rewrite Hz.
  change (bad_interval (num_of_Z 0)) with true. eexists. split; [done|]. by split_and!.
Qed.

Lemma updateIntervalMs_positive (s : IntervalQosSampler (OnSample := unit) (OnError := unit) (C := C)) z : 0 < z →
  ∃ s', updateIntervalMs closure s (num_of_Z z) = Ok s' ∧ sp_intervalMs s' = z.
Proof.
  intros Hz. unfold updateIntervalMs.
  assert (bad_interval (num_of_Z z) = false) as ->.
  { unfold bad_interval. change num0 with (num_of_Z 0). rewrite num_of_Z_leb. simpl. apply Z.leb_gt. lia. }
  rewrite floor_num_of_Z. destruct (z =? sp_intervalMs s) eqn:E; [exists s; split; [done|zlia]|].
  rewrite stop_set_interval. cbn [set_interval sp_running].
  assert (∀ f e, sp_intervalMs (start closure (set_interval (stop s) z) f e) = z) as Hst.
  { intros. unfold start. destruct (sp_running _); [done|]. by destruct (clk_setInterval _ _ _). }
  destruct (sp_running s); [|by eexists]. destruct (sp_onSample _); eexists; (split; [done|]); [apply Hst|done].
Qed.

(** A policy with a positive interval always succeeds unless it names an
    inherited object property as profile; afterwards the settings are the
    policy's, the profile is the registered one of that name if there is one and
    the old one otherwise, and a running timer has the new interval. *)
Theorem handlePolicy_applies base (c : controller) p :
  wf_controller base c → 0 < po_sampleIntervalMs p →
  policy_profile p (pf_source (profile c)) ∉ object_prototype_names →
  ∃ c', handlePolicy closure c p = (c', Ok tt) ∧
    st_sampleIntervalMs (c_settings c') = po_sampleIntervalMs p ∧
    sp_intervalMs (c_sampler c') = po_sampleIntervalMs p ∧
    st_snapshotIntervalMs (c_settings c') = po_snapshotIntervalMs p ∧
    st_allowAudioOnly (c_settings c') = po_allowAudioOnly p ∧
    st_allowVideoPause (c_settings c') = po_allowVideoPause p ∧
    c_running c' = c_running c ∧
    (profile c' = profile c ∨ 
     map_get (PROFILE_REGISTRY (pf_source (profile c))) (policy_profile p (pf_source (profile c))) = Some (profile c')).
Proof.
  intros Hwf Hi Hn. unfold handlePolicy.
  set (c1 := set_settings c _).
  assert (∃ s, updateIntervalMs closure (c_sampler c1) (num_of_Z (po_sampleIntervalMs p)) = Ok s ∧
    sp_intervalMs s = po_sampleIntervalMs p) as (s & -> & Hs).
  { apply updateIntervalMs_positive, Hi. }
  change (profile (set_sampler c1 s (c_running c1))) with (profile c).
  set (c2 := set_sampler c1 s (c_running c1)).
  unfold resolveProfileByName. rewrite (bool_decide_false _ Hn).
  destruct (_ && _).
  - destruct (map_get _ _) as [q|] eqn:E.
    + eexists. split; [done|]. split_and!; try done. right. simpl. by rewrite cloneProfile_id.
    + eexists. split; [done|]. split_and!; try done. by left.
  - eexists. split; [done|]. split_and!; try done. by left.
Qed.
End proofs.
