(* ===== verification/ControllerWitnesses.v ===== *)
(** * Concrete controllers

    The controller's theorems applied to runs of concrete controllers, and runs
    that show where the code falls short of what it means to do. *)

From Stdlib Require Import QArith Qround.
From S2P Require Import Prelude JsNum JsVal QosTypes Profiles Signals StateMachine Planner Probe Trace.
From S2P Require Import Clock Sampler Protocol Overrides Controller ControllerProofs.
Local Open Scope string_scope.
Local Open Scope list_scope.
Local Open Scope Z_scope.

(** ** Concrete controllers

    An executor that applies everything and records it, a channel that records
    payloads, and the deterministic clock. *)

#[export] Instance recorder : ActionExecutor (list PlannedQosAction) :=
  λ x a, (x ++ [a], Ok ResUndefined).
#[export] Instance outbox : SnapshotSink (list jsval) := λ s v, (s ++ [v], Ok tt).

Definition tick_closure (h : unit * option unit) (w : list Z) : list Z := w ++ [0].

Abbreviation demo_type := (PublisherQosController (X := list PlannedQosAction) (S := list jsval)
  (C := ManualQosClock (list Z))).

Definition demo_options (p : QosProfile) (level : Q) (audioOnly : bool)
    : ControllerOptions (X := list PlannedQosAction) (S := list jsval) (C := ManualQosClock (list Z)) := {|
  op_clock := new_clock; op_profile := p; op_actionExecutor := []; op_signalChannel := Some [];
  op_trackId := "t1"; op_kind := KVideo; op_producerId := Some "p1"; op_traceCapacity := None;
  op_sampleIntervalMs := None; op_snapshotIntervalMs := None; op_allowAudioOnly := None;
  op_allowVideoPause := None; op_initialLevel := Some level; op_initialAudioOnlyMode := audioOnly |}.

Definition demo_sampler : IntervalQosSampler (OnSample := unit) (OnError := unit) (C := ManualQosClock (list Z)) := {|
  sp_clock := new_clock; sp_intervalMs := 1000; sp_running := false; sp_sampling := false;
  sp_onSample := None; sp_onError := None; sp_intervalId := None |}.

(** A controller on level [level], in state [s], with the given probe. *)
Definition demo_controller (p : QosProfile) (level : Z) (audioOnly : bool) (s : QosState)
    (probe : option QosProbeContext) : demo_type := {|
  c_id := {| id_trackId := "t1"; id_kind := KVideo; id_producerId := Some "p1" |};
  c_settings := {| st_profile := p; st_sampleIntervalMs := 1000; st_snapshotIntervalMs := 2000;
                   st_allowAudioOnly := true; st_allowVideoPause := true |};
  c_sampler := demo_sampler; c_running := false;
  c_stateContext := {| sm_state := s; sm_enteredAtMs := 0; sm_lastCongestedAtMs := Some 0;
    sm_lastRecoveryAtMs := None; sm_consecutiveHealthySamples := 0; sm_consecutiveRecoverySamples := 0;
    sm_consecutiveFastRecoverySamples := 0; sm_consecutiveWarningSamples := 0;
    sm_consecutiveCongestedSamples := 0 |};
  c_actuator := {| ac_executor := []; ac_currentLevel := level; ac_inAudioOnlyMode := audioOnly;
    ac_lastAction := None; ac_lastSampleError := None; ac_trace := createQosTraceBuffer None |};
  c_recovery := {| rv_cpuSampleCount := 0; rv_recoveryProbeSuccessStreak := 0;
    rv_recoveryProbeGraceUntilMs := None; rv_recoverySuppressedUntilMs := None; rv_probeContext := probe |};
  c_overrides := no_overrides; c_coordinationOverride := None;
  c_publishing := {| pb_signalChannel := Some []; pb_seq := 0; pb_lastPublishedAtMs := None |};
  c_previous := {| pv_previousSnapshot := None; pv_previousSignals := None |} |}.

Lemma demo_controller_wf p level audioOnly s probe :
  wf_ladder p = true → pf_levelCount p = LEVELS → level_ok level →
  (∀ q, probe = Some q → pr_active q = true ∧ level_ok (pr_previousLevel q)) →
  wf_controller tick_closure (clk_timer new_clock) (demo_controller p level audioOnly s probe).
Proof.
  intros. split; try done. split; try done. simpl. apply new_clock_wf.
Qed.

Lemma recorder_cooperative : cooperative (X := list PlannedQosAction).
Proof. intros x a. by exists (x ++ [a]), ResUndefined. Qed.

(** A sample whose encoder is limited by bandwidth. *)
Definition limited_snapshot (t : Z) : RawSenderSnapshot := {|
  rs_timestampMs := num_of_Z t; rs_trackId := Some "t1"; rs_producerId := Some "p1";
  rs_source := Camera; rs_kind := KVideo; rs_bytesSent := Some (num_of_Z 50000);
  rs_packetsSent := Some (num_of_Z 100); rs_packetsLost := None; rs_retransmittedPacketsSent := None;
  rs_targetBitrateBps := Some (num_of_Z 900000); rs_configuredBitrateBps := None;
  rs_roundTripTimeMs := Some (num_of_Z 40); rs_jitterMs := Some (num_of_Z 5);
  rs_frameWidth := Some (num_of_Z 640); rs_frameHeight := Some (num_of_Z 360);
  rs_framesPerSecond := Some (num_of_Z 15); rs_qualityLimitationReason := Some QBandwidth;
  rs_qualityLimitationDurationsSec := None |}.

Definition clean_snapshot (t : Z) : RawSenderSnapshot := {|
  rs_timestampMs := num_of_Z t; rs_trackId := Some "t1"; rs_producerId := Some "p1";
  rs_source := Camera; rs_kind := KVideo; rs_bytesSent := Some (num_of_Z 50000);
  rs_packetsSent := Some (num_of_Z 100); rs_packetsLost := None; rs_retransmittedPacketsSent := None;
  rs_targetBitrateBps := Some (num_of_Z 900000); rs_configuredBitrateBps := None;
  rs_roundTripTimeMs := Some (num_of_Z 40); rs_jitterMs := Some (num_of_Z 5);
  rs_frameWidth := Some (num_of_Z 640); rs_frameHeight := Some (num_of_Z 360);
  rs_framesPerSecond := Some (num_of_Z 15); rs_qualityLimitationReason := Some QNone;
  rs_qualityLimitationDurationsSec := None |}.

(** A probe from level [previous] that has seen one bad sample of two. *)
Definition open_probe (previous target : Z) (pa ta : bool) : QosProbeContext :=
  with_samples (beginProbe previous target 0 pa ta (Some 3) None) 0 1.

(** ** Witnesses *)

Lemma controller_invariant_witness :
  ∃ c, new_controller (demo_options DEFAULT_CAMERA_PROFILE 2 false) 0 = Ok c ∧
    level_ok (currentLevel (foldl (apply_operation tick_closure) c
      [OpStart; OpTick (Ok (limited_snapshot 1000)) 1000; OpTick (Throw "stats failed") 2000;
       OpOverride (server_override "server_auto_poor" (Some 1) 5000) 2500;
       OpTick (Ok (limited_snapshot 3000)) 3000; OpStop])).
Proof.
  eexists. split; [reflexivity|].
  apply (controller_invariant tick_closure (demo_options DEFAULT_CAMERA_PROFILE 2 false) 0 _
    [OpStart; OpTick (Ok (limited_snapshot 1000)) 1000; OpTick (Throw "stats failed") 2000;
     OpOverride (server_override "server_auto_poor" (Some 1) 5000) 2500;
     OpTick (Ok (limited_snapshot 3000)) 3000; OpStop]).
  - apply new_clock_wf.
  - reflexivity.
  - reflexivity.
  - split; vm_compute; congruence.
  - reflexivity.
  - repeat constructor; vm_compute; reflexivity.
Defined.

Lemma probe_failure_rolls_back_witness :
  ∃ c', processSample (demo_controller DEFAULT_CAMERA_PROFILE 1 false Recovering (Some (open_probe 2 1 false false)))
      (limited_snapshot 9000) 9000 = (c', Ok tt) ∧ currentLevel c' = 2 ∧ state c' = Congested.
Proof.
  destruct (probe_failure_rolls_back tick_closure (clk_timer new_clock)
    (demo_controller DEFAULT_CAMERA_PROFILE 1 false Recovering (Some (open_probe 2 1 false false)))
    (limited_snapshot 9000) 9000 (open_probe 2 1 false false) no_overrides None) as (c' & H1 & H2 & H3 & _).
  - apply recorder_cooperative.
  - apply demo_controller_wf; [reflexivity|reflexivity|split; vm_compute; congruence|].
    intros q [= <-]. split; [reflexivity|]. split; vm_compute; congruence.
  - reflexivity.
  - reflexivity.
  - vm_compute. reflexivity.
  - exists c'. auto.
Defined.

Lemma sample_moves_one_level_witness :
  let c' := (processSample (demo_controller DEFAULT_CAMERA_PROFILE 2 false Congested None) (limited_snapshot 1000) 1000).1 in
  state c' = Congested ∧ currentLevel c' = 3.
Proof.
  pose proof (sample_moves_one_level tick_closure (clk_timer new_clock)
    (demo_controller DEFAULT_CAMERA_PROFILE 2 false Congested None) (limited_snapshot 1000) 1000 no_overrides) as H.
  cbv zeta in *.
  assert (state (processSample (demo_controller DEFAULT_CAMERA_PROFILE 2 false Congested None) (limited_snapshot 1000) 1000).1
    = Congested) as Hs by (vm_compute; reflexivity).
  rewrite Hs in H. split; [exact Hs|]. apply H.
  - apply recorder_cooperative.
  - apply demo_controller_wf; [reflexivity|reflexivity|split; vm_compute; congruence|discriminate].
  - vm_compute. reflexivity.
  - reflexivity.
  - split; [reflexivity|]. split; [reflexivity|]. discriminate.
  - reflexivity.
  - reflexivity.
Defined.

Lemma probe_in_progress_holds_witness :
  currentLevel (processSample (demo_controller DEFAULT_CAMERA_PROFILE 1 false Recovering
    (Some (beginProbe 2 1 0 false false (Some 3) None))) (clean_snapshot 1000) 1000).1 = 1.
Proof.
  apply (probe_in_progress_holds (demo_controller DEFAULT_CAMERA_PROFILE 1 false Recovering
    (Some (beginProbe 2 1 0 false false (Some 3) None))) (clean_snapshot 1000) 1000
    (beginProbe 2 1 0 false false (Some 3) None)
    (with_samples (beginProbe 2 1 0 false false (Some 3) None) 1 0) no_overrides).
  - reflexivity.
  - split; [reflexivity|]. split; [reflexivity|]. discriminate.
  - reflexivity.
  - reflexivity.
  - vm_compute. reflexivity.
Defined.

Lemma suppressed_recovery_plans_witness :
  Forall (λ a, 3 <= action_level a)
    (plannedActions (demo_controller DEFAULT_CAMERA_PROFILE 3 false Recovering None) true None) ∧
  Forall (λ a, action_level a = 2)
    (plannedActions (demo_controller DEFAULT_CAMERA_PROFILE 3 false Stable None) true None).
Proof.
  split.
  - apply (suppressed_recovery_plans (demo_controller DEFAULT_CAMERA_PROFILE 3 false Recovering None));
      [split; vm_compute; congruence|reflexivity|reflexivity].
  - apply (suppressed_recovery_plans (demo_controller DEFAULT_CAMERA_PROFILE 3 false Stable None));
      [split; vm_compute; congruence|reflexivity|reflexivity].
Defined.

(** A policy that allows neither audio-only mode nor pausing video. *)
Definition strict_policy : QosPolicy := {|
  po_sampleIntervalMs := 1000; po_snapshotIntervalMs := 2000; po_allowAudioOnly := false;
  po_allowVideoPause := false; po_profiles_camera := "default"; po_profiles_screenShare := "default";
  po_profiles_audio := "default" |}.

Definition with_policy (c : demo_type) (p : QosPolicy) : demo_type := (handlePolicy tick_closure c p).1.

(** A congested camera on the last but one level, which would otherwise enter
    audio-only mode. *)
Lemma audio_only_needs_permission_witness :
  let c := with_policy (demo_controller DEFAULT_CAMERA_PROFILE 3 false Congested None) strict_policy in
  filterActions c [EnterAudioOnly 4 None] None = [Noop 3 (Some "filtered-by-policy")] ∧
  inAudioOnlyMode (processSample c (limited_snapshot 1000) 1000).1 = false.
Proof.
  split; [vm_compute; reflexivity|].
  apply (proj1 (audio_only_needs_permission
    (with_policy (demo_controller DEFAULT_CAMERA_PROFILE 3 false Congested None) strict_policy) (limited_snapshot 1000) 1000
    ltac:(vm_compute; reflexivity))).
  vm_compute. reflexivity.
Defined.

Lemma handlePolicy_applies_witness :
  ∃ c', handlePolicy tick_closure (start_controller tick_closure (demo_controller DEFAULT_CAMERA_PROFILE 0 false Stable None))
      {| po_sampleIntervalMs := 500; po_snapshotIntervalMs := 1000; po_allowAudioOnly := true;
         po_allowVideoPause := false; po_profiles_camera := "conservative";
         po_profiles_screenShare := "default"; po_profiles_audio := "default" |} = (c', Ok tt) ∧
    sp_intervalMs (c_sampler c') = 500.
Proof.
  destruct (handlePolicy_applies tick_closure (clk_timer new_clock)
    (start_controller tick_closure (demo_controller DEFAULT_CAMERA_PROFILE 0 false Stable None))
    {| po_sampleIntervalMs := 500; po_snapshotIntervalMs := 1000; po_allowAudioOnly := true;
       po_allowVideoPause := false; po_profiles_camera := "conservative";
       po_profiles_screenShare := "default"; po_profiles_audio := "default" |}) as (c' & H1 & _ & H2 & _).
  - apply start_controller_wf, demo_controller_wf; [reflexivity|reflexivity|split; vm_compute; congruence|discriminate].
  - simpl. lia.
  - vm_compute. intros H. repeat (apply elem_of_cons in H as [H|H]; [discriminate H|]). by apply not_elem_of_nil in H.
  - exists c'. auto.
Defined.

Definition demo_signals : DerivedQosSignals :=
  deriveSignals (clean_snapshot 1000) None None None empty_reason_context.

Lemma published_snapshot_valid_witness :
  let c' := publishSnapshot (demo_controller DEFAULT_CAMERA_PROFILE 2 false Congested None)
              (clean_snapshot 1000) demo_signals Poor 1000 in
  ∃ payload s, pb_signalChannel (c_publishing c') = Some [payload] ∧
    parseClientQosSnapshot payload = Ok s ∧ cq_seq s = 1 ∧ map ct_ladderLevel (cq_tracks s) = [2].
Proof.
  destruct (published_snapshot_valid tick_closure (clk_timer new_clock)
    (demo_controller DEFAULT_CAMERA_PROFILE 2 false Congested None) [] (clean_snapshot 1000) demo_signals Poor 1000
    (Some 640) (Some 360)) as (payload & s & H1 & _ & _ & H2 & H3 & _ & _ & _ & H4).
  - apply demo_controller_wf; [reflexivity|reflexivity|split; vm_compute; congruence|discriminate].
  - apply deriveSignals_invariant; [vm_compute; reflexivity|discriminate|discriminate].
  - lia.
  - reflexivity.
  - discriminate.
  - apply opt_all_Some. discriminate.
  - vm_compute. reflexivity.
  - vm_compute. reflexivity.
  - vm_compute. reflexivity.
  - vm_compute. reflexivity.
  - reflexivity.
  - apply opt_all_Some. lia.
  - reflexivity.
  - apply opt_all_Some. lia.
  - apply opt_all_Some. by apply nonneg_finite_Z.
  - exists payload, s. split; [exact H1|]. split; [exact H2|]. split; [exact H3|]. rewrite H4. reflexivity.
Defined.

(** ** Runs that show a shortcoming *)

(** The policy the parser accepts and the controller applies in part. *)
Definition zero_policy : QosPolicy := {|
  po_sampleIntervalMs := 0; po_snapshotIntervalMs := 2000; po_allowAudioOnly := true;
  po_allowVideoPause := true; po_profiles_camera := "conservative"; po_profiles_screenShare := "default";
  po_profiles_audio := "default" |}.

Example zero_policy_accepted : parseQosPolicy (policy_js zero_policy) = Ok zero_policy.
Proof. vm_compute. reflexivity. Qed.

(** A probe that was opened by leaving an override's audio-only mode, on any
    level below the last, fails: the camera stays on, and the executor is never
    told to return to audio-only mode. *)
Lemma rollback_forgets_audio_only level :
  0 <= level <= 3 →
  let c := demo_controller DEFAULT_CAMERA_PROFILE level false Stable (Some (open_probe level level true false)) in
  let c' := (processSample c (limited_snapshot 9000) 9000).1 in
  rv_probeContext (c_recovery c') = None ∧ inAudioOnlyMode c' = false ∧
  existsb (is_type TEnterAudioOnly) (ac_executor (c_actuator c')) = false.
Proof.
  intros H. assert (level = 0 ∨ level = 1 ∨ level = 2 ∨ level = 3) as [->|[->|[->| ->]]] by lia;
    vm_compute; done.
Qed.

(** Rolling a probe back from level 3 to level 4 enters audio-only mode although
    the policy forbids it. *)
Example rollback_ignores_policy :
  let c := with_policy (demo_controller DEFAULT_CAMERA_PROFILE 3 false Recovering (Some (open_probe 4 3 true false)))
             strict_policy in
  ac_executor (c_actuator (processSample c (limited_snapshot 9000) 9000).1) = [EnterAudioOnly 4 None].
Proof. vm_compute. reflexivity. Qed.

(** A congested screen share on level 3 is paused although the policy forbids
    pausing video. *)
Example screenshare_pause_ignores_policy :
  let c := with_policy (demo_controller DEFAULT_SCREENSHARE_PROFILE 3 false Congested None) strict_policy in
  st_allowVideoPause (c_settings c) = false ∧
  ac_executor (c_actuator (processSample c (limited_snapshot 1000) 1000).1) = [PauseUpstream 4].
Proof. vm_compute. done. Qed.
