(* ===== verification/Factory.v ===== *)
(** * Producer controllers and peer sessions (src/client/lib/qos/factory.js)

    Wires the components over a real producer: the action sink over the
    producer adapter, the executor as the controller's action executor, the
    signalling channel as its snapshot sink, and the peer session that
    coordinates the controllers of one peer. *)

From Stdlib Require Import QArith Qround.
From S2P Require Import Prelude JsNum JsVal QosTypes Profiles Signals StateMachine Planner Probe Trace.
From S2P Require Import Clock Sampler Protocol Coordinator SignalChannel ProducerAdapter StatsProvider.
From S2P Require Import Overrides Controller ControllerProofs.
From S2P Require Executor.
Local Open Scope string_scope.
Local Open Scope list_scope.
Local Open Scope Z_scope.

(** ** Coordination *)

(** The override the loop of [applyPeerCoordination] builds for a track. *)
Definition coordination_for (track : PeerQosTrackState) (decision : PeerQosDecision) : CoordinationOverride :=
  let isSacrificial := bool_decide (pt_trackId track ∈ pd_sacrificialTrackIds decision) in
  let camera := bool_decide (pt_source track = Camera) in
  {| co_maxLevelClamp := None;
     co_disableRecovery :=
       (negb (bool_decide (pt_source track = Audio)) && negb (pd_allowVideoRecovery decision)) ||
       (camera && isSacrificial && pd_preferScreenShare decision);
     co_forceAudioOnly :=
       camera && isSacrificial &&
       (bool_decide (pd_peerQuality decision = Poor) || bool_decide (pd_peerQuality decision = Lost));
     co_pauseUpstream := false;
     co_resumeUpstream := false |}.

Section factory.
Context {P T C CB : Type} `{!ProducerOps P} `{!QosClock C CB}.
Context (closure : unit * option unit → CB).
(** The application's transport and its [sendRequest]. *)
Context (send : string → ClientQosSnapshot → T → T * outcome unit).
Context (localeCompare : string → string → Z).

Abbreviation adapter := (MediasoupProducerAdapter (P := P)).

(** ** The action sink *)

Definition sink_result (r : adapter * AdapterResult) : adapter * outcome unit :=
  let '(a, res) := r in
  (a, if ar_applied res then Ok tt
      else Throw (default "producer adapter action not applied" (ar_reason res))).

(** [createProducerActionSink(producerAdapter).execute]. *)
Definition producer_sink (a : adapter) (action : PlannedQosAction) : adapter * outcome unit :=
  sink_result
    match action with
    | SetEncodingParameters _ parameters => setEncodingParameters a parameters
    | SetMaxSpatialLayer _ spatialLayer => setMaxSpatialLayer a spatialLayer
    | EnterAudioOnly _ _ => pauseUpstream a
    | PauseUpstream _ => pauseUpstream a
    | ExitAudioOnly _ _ => resumeUpstream a
    | ResumeUpstream _ => resumeUpstream a
    | Noop _ _ => (a, applied)
    end.

(** ** The executor as the controller sees it *)

Record action_executor := {
  ae_executor : Executor.QosActionExecutor;
  ae_adapter : adapter;
}.

Definition status_str (s : Executor.status) : string :=
  match s with
  | Executor.Applied => "applied"
  | Executor.SkippedNoop => "skipped_noop"
  | Executor.SkippedIdempotent => "skipped_idempotent"
  | Executor.Failed _ => "failed"
  end.

#[local] Instance producer_executor : ActionExecutor action_executor := λ x action,
  match Executor.execute producer_sink None (ae_executor x) (ae_adapter x) action with
  | (e, a, Ok r) => ({| ae_executor := e; ae_adapter := a |}, Ok (ResStatus (status_str (Executor.er_status r))))
  | (e, a, Throw msg) => ({| ae_executor := e; ae_adapter := a |}, Throw msg)
  end.

(** The channel's [publishSnapshot]; the method name is the default one. *)
#[local] Instance channel_sink : SnapshotSink T := λ t payload,
  SignalChannel.publishSnapshot send (new_channel (L := unit) None) payload t.

Abbreviation controller := (PublisherQosController (X := action_executor) (S := T) (C := C)).

(** ** A producer's bundle *)

Record bundle := {
  bd_controller : controller;
  bd_channel : QosSignalChannel (L := unit);
  bd_lastRemoteTimestampsMs : list (string * num);
}.

Record ProducerOptions := {
  bo_producer : P;
  bo_source : QosSource;
  bo_profile : option ProfileOverride;
  bo_transport : T;
  bo_clock : C;
  bo_traceCapacity : option num;
  bo_sampleIntervalMs : option Z;
  bo_snapshotIntervalMs : option Z;
  bo_allowAudioOnly : option bool;
  bo_allowVideoPause : option bool;
}.

(** The executor options of the application are the defaults here. *)
Definition controller_options (o : ProducerOptions) : ControllerOptions (X := action_executor) (S := T) (C := C) := {|
  op_clock := bo_clock o;
  op_profile := resolveProfile (bo_source o) (bo_profile o);
  op_actionExecutor := {| ae_executor := Executor.new_executor None None None;
                          ae_adapter := {| ad_producer := bo_producer o; ad_source := bo_source o |} |};
  op_signalChannel := Some (bo_transport o);
  op_trackId := default (pr_id (bo_producer o)) (pr_trackId (bo_producer o));
  op_kind := pr_kind (bo_producer o);
  op_producerId := Some (pr_id (bo_producer o));
  op_traceCapacity := bo_traceCapacity o;
  op_sampleIntervalMs := bo_sampleIntervalMs o;
  op_snapshotIntervalMs := bo_snapshotIntervalMs o;
  op_allowAudioOnly := bo_allowAudioOnly o;
  op_allowVideoPause := bo_allowVideoPause o;
  op_initialLevel := None;
  op_initialAudioOnlyMode := false |}.

(** The controller's constructor subscribes it to policies and overrides. *)
Definition createMediasoupProducerQosController (o : ProducerOptions) (nowMs : Z) : outcome bundle :=
  c ← new_controller (controller_options o) nowMs;
  Ok {| bd_controller := c;
        bd_channel := onOverride (onPolicy (new_channel None) tt) tt;
        bd_lastRemoteTimestampsMs := [] |}.

Definition set_controller (b : bundle) (c : controller) : bundle := {|
  bd_controller := c; bd_channel := bd_channel b; bd_lastRemoteTimestampsMs := bd_lastRemoteTimestampsMs b |}.

(** Incoming notifications reach the controller through the channel. *)
Definition handleNotification (b : bundle) (message : jsval) (nowMs : Z) : bundle * outcome unit :=
  let '(c, r) := handleMessage
    (λ _ policy c, handlePolicy closure c policy)
    (λ _ override c, (controller_handleOverride c nowMs override, Ok tt))
    (λ _ _ c, (c, Ok tt))
    (bd_channel b) message (bd_controller b) in
  (set_controller b c, r).

(** [controller.sampleNow()]: the provider reads the producer's stats report,
    which may reject, and the sample is processed. *)
Definition bundle_sampleNow (b : bundle) (report : outcome (list jsval)) (dateNow : num) (nowMs : Z)
    : bundle * outcome unit :=
  match report with
  | Throw e => (b, Throw e)
  | Ok entries =>
      let c := bd_controller b in
      let base := getSnapshotBase (ae_adapter (ac_executor (c_actuator c))) in
      let '(last, snapshot) := getSnapshot (bd_lastRemoteTimestampsMs b) base entries dateNow in
      let '(c, r) := processSample c snapshot nowMs in
      ({| bd_controller := c; bd_channel := bd_channel b; bd_lastRemoteTimestampsMs := last |}, r)
  end.

(** ** The peer session *)

Record session := {
  ss_bundles : list bundle;
  ss_coordinator : PeerQosCoordinator;
}.

Definition createMediasoupPeerQosSession (producers : list ProducerOptions) (nowMs : Z) : outcome session :=
  bundles ← traverse (λ o, createMediasoupProducerQosController o nowMs) producers;
  Ok {| ss_bundles := bundles; ss_coordinator := new_coordinator |}.

Definition applyPeerCoordination (bundles : list bundle) (decision : PeerQosDecision) : list bundle :=
  map (λ b, set_controller b
    (controller_setCoordinationOverride (bd_controller b)
       (let override := coordination_for (getTrackState (bd_controller b)) decision in
        if empty_coordination override then None else Some override))) bundles.

Definition startAll (s : session) : session := {|
  ss_bundles := map (λ b, set_controller b (start_controller closure (bd_controller b))) (ss_bundles s);
  ss_coordinator := ss_coordinator s |}.

Definition stopAll (s : session) : session := {|
  ss_bundles := map (λ b, set_controller b (stop_controller (bd_controller b))) (ss_bundles s);
  ss_coordinator := ss_coordinator s |}.

(** The loop of [sampleAllNow]: the first rejected sample ends it. *)
Fixpoint sample_bundles (bundles : list bundle) (reports : list (outcome (list jsval))) (dateNow : num) (nowMs : Z)
    (coordinator : PeerQosCoordinator) : list bundle * PeerQosCoordinator * outcome unit :=
  match bundles with
  | [] => ([], coordinator, Ok tt)
  | b :: bundles =>
      match bundle_sampleNow b (default (Ok []) (head reports)) dateNow nowMs with
      | (b, Throw e) => (b :: bundles, coordinator, Throw e)
      | (b, Ok _) =>
          let coordinator := upsertTrack coordinator (getTrackState (bd_controller b)) in
          let '(bs, coordinator, r) := sample_bundles bundles (tail reports) dateNow nowMs coordinator in
          (b :: bs, coordinator, r)
      end
  end.

Definition sampleAllNow (s : session) (reports : list (outcome (list jsval))) (dateNow : num) (nowMs : Z)
    : session * outcome unit :=
  let '(bundles, coordinator, r) := sample_bundles (ss_bundles s) reports dateNow nowMs (ss_coordinator s) in
  match r with
  | Throw e => ({| ss_bundles := bundles; ss_coordinator := coordinator |}, Throw e)
  | Ok _ => ({| ss_bundles := applyPeerCoordination bundles (getDecision localeCompare coordinator);
                ss_coordinator := coordinator |}, Ok tt)
  end.

(** [for (const bundle of bundles) bundle.handleNotification(message)]. *)
Fixpoint notify_bundles (bundles : list bundle) (message : jsval) (nowMs : Z) : list bundle * outcome unit :=
  match bundles with
  | [] => ([], Ok tt)
  | b :: bundles =>
      match handleNotification b message nowMs with
      | (b, Throw e) => (b :: bundles, Throw e)
      | (b, Ok _) => let '(bs, r) := notify_bundles bundles message nowMs in (b :: bs, r)
      end
  end.

Definition session_handleNotification (s : session) (message : jsval) (nowMs : Z) : session * outcome unit :=
  let '(bs, r) := notify_bundles (ss_bundles s) message nowMs in
  ({| ss_bundles := bs; ss_coordinator := ss_coordinator s |}, r).

Definition session_getDecision (s : session) : session * PeerQosDecision :=
  let coordinator := foldl (λ co b, upsertTrack co (getTrackState (bd_controller b))) (ss_coordinator s) (ss_bundles s) in
  let decision := getDecision localeCompare coordinator in
  ({| ss_bundles := applyPeerCoordination (ss_bundles s) decision; ss_coordinator := coordinator |}, decision).

(** ** The executor over a producer *)

(** With the default options the executor never throws: whatever the producer
    does becomes a status. *)
Lemma producer_executor_total (x : action_executor) a : ∃ x' s, ax_execute x a = (x', Ok (ResStatus s)).
Proof.
  unfold ax_execute, producer_executor, Executor.execute.
  destruct (is_type TNoop a); [eauto|]. destruct (_ && _); [eauto|].
  destruct (producer_sink (ae_adapter x) a) as [ad [[]|e]]; eauto.
Qed.

Lemma revert_total entry (a : actuator (X := action_executor)) actions :
  (revert entry a actions).2 = Ok tt.
Proof.
  revert a. induction actions as [|x l IH]; intros a; [done|]. cbn [revert].
  destruct (producer_executor_total (ac_executor a) x) as (x' & s & ->).
  by destruct (if wasActionApplied (ResStatus s) then _ else _).
Qed.

(** A sample of a producer's controller never fails once the stats report
    is there: neither a failing producer nor a failing transport makes
    [sampleNow] reject, they are reported in the controller's state. *)
Theorem bundle_sample_never_rejects (b : bundle) entries dateNow nowMs :
  ∃ b', bundle_sampleNow b (Ok entries) dateNow nowMs = (b', Ok tt).
Proof.
  unfold bundle_sampleNow. destruct (getSnapshot _ _ _ _) as [last snapshot].
  unfold processSample. destruct (getActiveOverride _ _) as [os o].
  destruct (observe _ _ _ _) as [[c1 signals] tr].
  destruct (rv_probeContext (c_recovery c1)) as [p|] eqn:Ep; [|eauto].
  destruct (evaluateProbe _ _ _) as [p' []]; [eauto| |eauto].
  unfold rollbackProbe. rewrite Ep.
  match goal with |- context [revert ?e ?a ?l] => pose proof (revert_total e a l) as Hr;
    destruct (revert e a l) as [a' r] end.
  simpl in Hr. subst r. eauto.
Qed.

(** ** Notifications *)

Lemma handleNotification_cases (b : bundle) message nowMs :
  ch_policyListeners (bd_channel b) = [tt] → ch_overrideListeners (bd_channel b) = [tt] →
  ∃ r, handleNotification b message nowMs =
    (set_controller b match js_get message "method" with
     | JStr m =>
         if String.eqb m "qosPolicy" then
           match parseQosPolicy (js_get message "data") with
           | Ok p => (handlePolicy closure (bd_controller b) p).1 | Throw _ => bd_controller b end
         else if String.eqb m "qosOverride" then
           match parseQosOverride (js_get message "data") with
           | Ok o => controller_handleOverride (bd_controller b) nowMs o | Throw _ => bd_controller b end
         else bd_controller b
     | _ => bd_controller b
     end, r) ∧
    (ch_connectionQualityListeners (bd_channel b) = [] → ch_roomStateListeners (bd_channel b) = [] → r = Ok tt).
Proof.
  intros Hp Ho. unfold handleNotification, handleMessage. rewrite Hp, Ho.
  destruct (js_get message "method") as [| | | |m| |]; try (eexists; split; reflexivity).
  destruct (String.eqb m "qosPolicy").
  { destruct (parseQosPolicy _) as [p|e]; [|eauto]. cbn [notify swallow].
    destruct (handlePolicy closure (bd_controller b) p) as [c1 [[]|e]]; eauto. }
  destruct (String.eqb m "qosOverride").
  { destruct (parseQosOverride _) as [o|e]; eauto. }
  assert (∀ (ls : list unit) data, ∃ r, dispatch_data (λ _ _ c, (c, Ok tt)) ls data (bd_controller b) = (bd_controller b, r) ∧
    (ls = [] → r = Ok tt)) as Hd.
  { intros ls data. unfold dispatch_data. destruct (_ || _); [eauto|].
    induction ls as [|l ls IH]; [by eexists|]. cbn [notify]. destruct IH as (r & -> & _). eexists. by split. }
  destruct (String.eqb m "qosConnectionQuality").
  { destruct (Hd (ch_connectionQualityListeners (bd_channel b)) (js_get message "data")) as (r & -> & Hr). eauto. }
  destruct (String.eqb m "qosRoomState"); [|eauto].
  destruct (Hd (ch_roomStateListeners (bd_channel b)) (js_get message "data")) as (r & -> & Hr). eauto.
Qed.

(** No message from the network, however malformed, can break the
    controller: after any notification the controller's invariant still holds. *)
Theorem notification_keeps_invariant base (b : bundle) message nowMs :
  ch_policyListeners (bd_channel b) = [tt] → ch_overrideListeners (bd_channel b) = [tt] →
  wf_controller closure base (bd_controller b) →
  wf_controller closure base (bd_controller (handleNotification b message nowMs).1).
Proof.
  intros Hp Ho Hwf. destruct (handleNotification_cases b message nowMs Hp Ho) as (r & -> & _).
  cbn [fst set_controller bd_controller].
  destruct (js_get message "method") as [| | | |m| |]; try done.
  destruct (String.eqb m "qosPolicy").
  { destruct (parseQosPolicy _); [|done]. by apply handlePolicy_wf. }
  destruct (String.eqb m "qosOverride"); [|done].
  destruct (parseQosOverride _); [|done]. by apply set_overrides_wf.
Qed.

(** The server's clear message, which carries a null clamp, leaves every
    controller as it is. *)
Lemma null_clamp_clear_ignored (b : bundle) data nowMs :
  ch_policyListeners (bd_channel b) = [tt] → ch_overrideListeners (bd_channel b) = [tt] →
  js_get data "maxLevelClamp" = JNull →
  bd_controller (handleNotification b (JObj [("method", JStr "qosOverride"); ("data", data)]) nowMs).1 = bd_controller b.
Proof.
  intros Hp Ho Hn.
  destruct (handleNotification_cases b (JObj [("method", JStr "qosOverride"); ("data", data)]) nowMs Hp Ho) as (r & -> & _).
  change (js_get (JObj [("method", JStr "qosOverride"); ("data", data)]) "method") with (JStr "qosOverride").
  change (js_get (JObj [("method", JStr "qosOverride"); ("data", data)]) "data") with data.
  cbn [fst set_controller bd_controller]. cbn [String.eqb Ascii.eqb Bool.eqb].
  destruct (parseQosOverride data) as [o|e] eqn:E; [|done].
  pose proof (null_clamp_throws data Hn) as H. by rewrite E in H.
Qed.

(** ** Coordination of a session *)

Abbreviation track b := (getTrackState (bd_controller b)).

Definition distinct_tracks (bundles : list bundle) : Prop := NoDup (map (λ b, pt_trackId (track b)) bundles).

(** The coordinator holds a subset of the bundles' tracks. *)
Definition coordinator_of (bundles : list bundle) (co : PeerQosCoordinator) : Prop :=
  wf_coordinator co ∧ ∀ id, id ∈ map_keys co → ∃ b, b ∈ bundles ∧ pt_trackId (track b) = id.

(** Registering every track of the session leaves exactly these tracks. *)
Lemma upsert_all bundles co : wf_coordinator co → distinct_tracks bundles →
  let co' := foldl (λ co b, upsertTrack co (track b)) co bundles in
  wf_coordinator co' ∧
  ∀ t, t ∈ getTracks co' ↔ (∃ b, b ∈ bundles ∧ t = track b) ∨
    (t ∈ getTracks co ∧ ∀ b, b ∈ bundles → pt_trackId t ≠ pt_trackId (track b)).
Proof.
  intros Hwf Hd. revert co Hwf. unfold distinct_tracks in Hd.
  induction bundles as [|b bs IH]; intros co Hwf; cbn [foldl].
  { split; [done|]. intros t. split; [right; split; [done|]; by intros b ?%not_elem_of_nil|].
    intros [(b & ?%not_elem_of_nil & _)|[? _]]; done. }
  cbn [map] in Hd. apply NoDup_cons in Hd as [Hb Hd].
  destruct (IH Hd (upsertTrack co (track b)) (upsertTrack_wf _ _ Hwf)) as [Hwf' Hin]. split; [done|].
  intros t. rewrite Hin. rewrite (upsertTrack_tracks co (track b) t Hwf).
  assert (∀ b', b' ∈ bs → pt_trackId (track b') ≠ pt_trackId (track b)) as Hne.
  { intros b' Hb' E. apply Hb. rewrite <-E. apply list_elem_of_In, in_map_iff. exists b'.
    split; [done|by apply list_elem_of_In]. }
  split.
  - intros [(b' & ? & ->)|[[->|[? ?]] Hall]].
    + left. exists b'. split; [by right|done].
    + left. exists b. split; [by left|done].
    + right. split; [done|]. intros b' [->|Hb']%elem_of_cons; [done|by apply Hall].
  - intros [(b' & [->|Hb']%elem_of_cons & ->)|[Ht Hall]].
    + right. split; [by left|]. intros b' Hb' E. by apply (Hne b').
    + left. eauto.
    + right. split; [|intros; apply Hall; by right]. right. split; [done|]. apply Hall. by left.
Qed.

(** The tracks a decision is made about are the session's. *)
Lemma session_tracks bundles co : coordinator_of bundles co → distinct_tracks bundles →
  ∀ t, t ∈ getTracks (foldl (λ co b, upsertTrack co (track b)) co bundles) ↔ ∃ b, b ∈ bundles ∧ t = track b.
Proof.
  intros [Hwf Hids] Hd t. destruct (upsert_all bundles co Hwf Hd) as [_ Hin]. rewrite Hin.
  split; [|by left]. intros [?|[Ht Hall]]; [done|]. exfalso.
  apply getTracks_elem in Ht as [k Hk]. pose proof (wfp_keys co Hwf) as Hkeys. rewrite Forall_forall in Hkeys.
  destruct (Hids k) as (b & Hb & Eb).
  - unfold map_keys. apply list_elem_of_fmap. by exists (k, t).
  - apply (Hall b Hb). rewrite Eb. apply (Hkeys _ Hk).
Qed.

(** A track of the peer is in trouble. *)
Definition peer_degraded (bundles : list bundle) : Prop :=
  ∃ b, b ∈ bundles ∧ (pt_quality (track b) = Poor ∨ pt_quality (track b) = Lost).

Definition peer_shares_screen (bundles : list bundle) : Prop :=
  ∃ b, b ∈ bundles ∧ pt_source (track b) = ScreenShare.

(** The peer's quality is bad exactly when a track's is. *)
Lemma degraded_quality bundles (ts : list PeerQosTrackState) q :
  (∀ t, t ∈ ts ↔ ∃ b, b ∈ bundles ∧ t = track b) →
  (∃ t, t ∈ ts ∧ pt_quality t = q) → (∀ t, t ∈ ts → qualityRank q <= qualityRank (pt_quality t)) →
  peer_degraded bundles ↔ q = Poor ∨ q = Lost.
Proof.
  intros Ht (t & Hin & <-) Hmin. split.
  - intros (b & Hb & Hq). assert (track b ∈ ts) as Hbt by (apply Ht; eauto). specialize (Hmin _ Hbt).
    destruct Hq as [E|E]; rewrite E in Hmin; simpl in Hmin; destruct (pt_quality t); simpl in Hmin; auto; lia.
  - apply Ht in Hin as (b & Hb & ->). intros Hq. by exists b.
Qed.

Lemma recovery_quality (ts : list PeerQosTrackState) q (r : bool) :
  (∃ t, t ∈ ts ∧ pt_quality t = q) → (∀ t, t ∈ ts → qualityRank q <= qualityRank (pt_quality t)) →
  (r = true ↔ ∀ t, t ∈ ts → pt_quality t = Excellent ∨ pt_quality t = Good) →
  r = false ↔ q = Poor ∨ q = Lost.
Proof.
  intros (t & Hin & <-) Hmin Hr. rewrite <-not_true_iff_false, Hr. split.
  - intros Hn. destruct (pt_quality t) eqn:E; auto; exfalso; apply Hn; intros t' Ht'; specialize (Hmin t' Ht');
      destruct (pt_quality t'); simpl in Hmin; auto; lia.
  - intros Hq Hall. destruct (Hall t Hin) as [E|E], Hq; congruence.
Qed.

(** Dropping an empty override and normalising it keep the flags. *)
Lemma coordination_normalized (o : CoordinationOverride) : co_maxLevelClamp o = None →
  setCoordinationOverride (if empty_coordination o then None else Some o) =
  if empty_coordination o then None else Some o.
Proof. intros E. destruct (empty_coordination o) eqn:Eo; [done|]. destruct o as [k ? ? ? ?]; simpl in *. subst k. simpl. by rewrite Eo. Qed.

Lemma kept_flags (o : CoordinationOverride) :
  let r := if empty_coordination o then None else Some o in
  coordination_flag co_forceAudioOnly r = co_forceAudioOnly o ∧
  coordination_flag co_disableRecovery r = co_disableRecovery o.
Proof.
  cbv zeta. destruct (empty_coordination o) eqn:E; [|done]. unfold empty_coordination in E.
  destruct (co_maxLevelClamp o); [done|]. apply negb_true_iff in E. rewrite !orb_false_iff in E.
  destruct E as [[[-> ->] _] _]. done.
Qed.

Lemma coordination_for_spec (t : PeerQosTrackState) (d : PeerQosDecision) (degraded screen : Prop) :
  (degraded ↔ pd_peerQuality d = Poor ∨ pd_peerQuality d = Lost) →
  (pd_allowVideoRecovery d = false ↔ degraded) → (pd_preferScreenShare d = true ↔ screen) →
  (pt_source t = Camera → pt_trackId t ∈ pd_sacrificialTrackIds d) →
  let o := if empty_coordination (coordination_for t d) then None else Some (coordination_for t d) in
  (coordination_flag co_forceAudioOnly o = true ↔ pt_source t = Camera ∧ degraded) ∧
  (coordination_flag co_disableRecovery o = true ↔ pt_source t ≠ Audio ∧ degraded ∨ pt_source t = Camera ∧ screen) ∧
  (pt_source t = Audio → o = None).
Proof.
  intros Hdeg Hrec Hscr Hsac. cbv zeta. destruct (kept_flags (coordination_for t d)) as [-> ->].
  unfold coordination_for. cbn [co_forceAudioOnly co_disableRecovery].
  rewrite !orb_true_iff, !andb_true_iff, !negb_true_iff, orb_true_iff, bool_decide_eq_false, !bool_decide_eq_true.
  rewrite Hrec, Hscr, <-Hdeg. split_and!; [naive_solver|naive_solver|]. intros E.
  unfold empty_coordination. cbn [co_maxLevelClamp co_forceAudioOnly co_disableRecovery co_pauseUpstream co_resumeUpstream].
  rewrite E. done.
Qed.

(** C29: after a decision every controller of the session is coordinated by what
    the peer as a whole does: a camera is forced into audio-only mode exactly
    when some track is poor or lost, recovery is disabled exactly for video
    while some track is poor or lost and for a camera beside a screen share,
    and audio is never touched. *)
Theorem session_coordination s :
  coordinator_of (ss_bundles s) (ss_coordinator s) → distinct_tracks (ss_bundles s) →
  let s' := (session_getDecision s).1 in
  Forall2 (λ b b',
    let co := c_coordinationOverride (bd_controller b') in
    (coordination_flag co_forceAudioOnly co = true ↔
       pt_source (track b) = Camera ∧ peer_degraded (ss_bundles s)) ∧
    (coordination_flag co_disableRecovery co = true ↔
       pt_source (track b) ≠ Audio ∧ peer_degraded (ss_bundles s) ∨
       pt_source (track b) = Camera ∧ peer_shares_screen (ss_bundles s)) ∧
    (pt_source (track b) = Audio → co = None)) (ss_bundles s) (ss_bundles s').
Proof.
  intros Hco Hd. cbv zeta. unfold session_getDecision. cbn [fst ss_bundles].
  set (co := foldl _ _ _). pose proof (session_tracks _ _ Hco Hd) as Ht. fold co in Ht.
  unfold applyPeerCoordination. rewrite map_fmap. apply Forall2_fmap_r, Forall_Forall2_diag, Forall_forall.
  intros b Hb. assert (getTracks co ≠ []) as Hne.
  { intros E. assert (track b ∈ getTracks co) as H by (apply Ht; eauto). rewrite E in H. by apply not_elem_of_nil in H. }
  destruct (decision_facts localeCompare (getTracks co) Hne) as (Hsac & Hq1 & Hq2 & _ & Hscr & Hrec).
  fold (getDecision localeCompare co) in *. set (d := getDecision localeCompare co) in *.
  assert (peer_degraded (ss_bundles s) ↔ pd_peerQuality d = Poor ∨ pd_peerQuality d = Lost) as Hdeg
    by (apply degraded_quality with (ts := getTracks co); done).
  assert (pd_allowVideoRecovery d = false ↔ peer_degraded (ss_bundles s)) as Hrec'
    by (rewrite Hdeg; by apply (recovery_quality (getTracks co))).
  assert (pd_preferScreenShare d = true ↔ peer_shares_screen (ss_bundles s)) as Hscr'.
  { rewrite Hscr. unfold peer_shares_screen. setoid_rewrite Ht. naive_solver. }
  assert (track b ∈ getTracks co) as Htb by (apply Ht; eauto).
  specialize (Hsac _ Htb). clear Hscr Hrec Hq1 Hq2 Ht Hne.
  unfold compose. cbv beta zeta.
  cbn [set_controller bd_controller controller_setCoordinationOverride set_coordination c_coordinationOverride].
  rewrite coordination_normalized by done. apply coordination_for_spec; done.
Qed.
End factory.

(** ** Witnesses *)

(** A camera producer that records whether it is paused. *)
Record demo_producer := {
  dp_paused : bool;
  dp_closed : bool;
}.

#[export] Instance demo_producer_ops : ProducerOps demo_producer := {|
  pr_id := λ _, "p1"; pr_kind := λ _, KVideo; pr_trackId := λ _, Some "t1"; pr_closed := dp_closed;
  pr_encodings := λ _, JArr [JObj [("maxBitrate", js_int 900000)]];
  pr_setRtpEncodingParameters := λ p _, (p, Ok tt);
  pr_setMaxSpatialLayer := λ p _, (p, Throw "not simulcast");
  pr_pause := λ p, ({| dp_paused := true; dp_closed := dp_closed p |}, Ok tt);
  pr_resume := λ p, ({| dp_paused := false; dp_closed := dp_closed p |}, Ok tt) |}.

Definition demo_producer_options (s : QosSource) : ProducerOptions (P := demo_producer) (T := list string)
    (C := ManualQosClock (list Z)) := {|
  bo_producer := {| dp_paused := false; dp_closed := false |}; bo_source := s; bo_profile := None;
  bo_transport := []; bo_clock := new_clock; bo_traceCapacity := None; bo_sampleIntervalMs := None;
  bo_snapshotIntervalMs := None; bo_allowAudioOnly := None; bo_allowVideoPause := None |}.

Definition demo_closure (h : unit * option unit) (w : list Z) : list Z := w ++ [0].

Lemma demo_bundle_wf s b : createMediasoupProducerQosController (demo_producer_options s) 0 = Ok b →
  wf_controller demo_closure (clk_timer (new_clock (W := list Z))) (bd_controller b).
Proof.
  intros Hb. unfold createMediasoupProducerQosController in Hb. bind_inv. subst b. cbn [bd_controller].
  apply (new_controller_wf demo_closure (controller_options (demo_producer_options s)) 0); [| | | |done].
  - apply new_clock_wf.
  - by destruct s.
  - by destruct s.
  - split; vm_compute; congruence.
Qed.

Lemma notification_keeps_invariant_witness :
  ∃ b, createMediasoupProducerQosController (demo_producer_options Camera) 0 = Ok b ∧
    wf_controller demo_closure (clk_timer new_clock)
      (bd_controller (handleNotification demo_closure b
         (JObj [("method", JStr "qosOverride"); ("data", override_js (server_override "server_auto_poor" (Some 2) 8000))]) 10).1).
Proof.
  eexists. split; [reflexivity|].
  apply (notification_keeps_invariant demo_closure (clk_timer new_clock)); [reflexivity|reflexivity|].
  eapply (demo_bundle_wf Camera). reflexivity.
Defined.

(** The server's clear message reaches a controller with a clamp in force and
    leaves it in force. *)
Example clear_message_has_no_effect :
  let message o := JObj [("method", JStr "qosOverride"); ("data", o)] in
  let clamp := override_js {| ov_scope := TrackScope; ov_trackId := Some (Some "t1"); ov_maxLevelClamp := Some 2;
    ov_forceAudioOnly := None; ov_disableRecovery := None; ov_pauseUpstream := None; ov_resumeUpstream := None;
    ov_ttlMs := 8000; ov_reason := "downlink_v2_room_demand" |} in
  match createMediasoupProducerQosController (demo_producer_options Camera) 0 with
  | Ok b =>
      let b1 := (handleNotification demo_closure b (message clamp) 10).1 in
      let b2 := (handleNotification demo_closure b1 (message (js_set server_clear_message "trackId" (JStr "t1"))) 20).1 in
      let b3 := (handleNotification demo_closure b1
                  (message (js_delete (js_set server_clear_message "trackId" (JStr "t1")) "maxLevelClamp")) 20).1 in
      length (default [] (os_activeOverrides (c_overrides (bd_controller b1)))) = 1%nat ∧
      bd_controller b2 = bd_controller b1 ∧
      length (default [] (os_activeOverrides (c_overrides (bd_controller b3)))) = 0%nat
  | Throw _ => False
  end.
Proof. vm_compute. done. Qed.

(** A session of one camera whose last sample left it congested. *)
Lemma session_coordination_witness :
  ∃ b, createMediasoupProducerQosController (demo_producer_options Camera) 0 = Ok b ∧
    let b1 := set_controller b (set_previous (set_context (bd_controller b)
      (force_congested (c_stateContext (bd_controller b)) 100))
      {| pv_previousSnapshot := None; pv_previousSignals := Some (rtt_sample 500) |}) in
    match ss_bundles (session_getDecision codeUnitCompare {| ss_bundles := [b1]; ss_coordinator := new_coordinator |}).1 with
    | [b'] => coordination_flag co_forceAudioOnly (c_coordinationOverride (bd_controller b')) = true
    | _ => False
    end.
Proof.
  destruct (createMediasoupProducerQosController (demo_producer_options Camera) 0) as [b|e] eqn:Eb; [|discriminate Eb].
  exists b. split; [reflexivity|]. cbv zeta.
  set (b1 := set_controller b _).
  assert (pt_source (getTrackState (bd_controller b1)) = Camera ∧
    pt_quality (getTrackState (bd_controller b1)) = Poor) as [Hs Hq].
  { unfold createMediasoupProducerQosController in Eb. bind_inv. subst b. vm_compute in Hm.
    injection Hm as <-. vm_compute. done. }
  clearbody b1.
  pose proof (session_coordination codeUnitCompare {| ss_bundles := [b1]; ss_coordinator := new_coordinator |}) as H.
  cbv zeta in H. cbn [ss_bundles ss_coordinator] in H.
  assert (coordinator_of [b1] new_coordinator) as H1.
  { split; [apply new_coordinator_wf|]. intros id Hid. by apply not_elem_of_nil in Hid. }
  specialize (H H1 (NoDup_singleton _)).
  destruct (ss_bundles _) as [|b' l]; [by apply Forall2_cons_nil_inv in H|].
  apply Forall2_cons_1 in H as [(Hf & _) Hl]. apply Forall2_nil_inv_l in Hl as ->.
  apply Hf. split; [done|]. exists b1. split; [left|by left].
Defined.
