(* ===== verification/JsConv.v ===== *)
(** * [Number(v)]

    The conversion of a JavaScript value to a number: the decimal, hexadecimal,
    octal and binary literals of strings, with surrounding white space, and the
    conversions of the other types.  Only the ASCII white space is recognised, and
    ["-0"] reads as zero (the model has one zero). *)

From Stdlib Require Import QArith.
From S2P Require Import Prelude JsNum JsVal.
From Stdlib Require Import Ascii.
Local Open Scope char_scope.
Local Open Scope list_scope.
Local Open Scope Z_scope.

Definition code (c : ascii) : Z := Z.of_nat (nat_of_ascii c).

Definition is_space (c : ascii) : bool := ((9 <=? code c) && (code c <=? 13)) || (code c =? 32).

Fixpoint drop_spaces (l : list ascii) : list ascii :=
  match l with
  | c :: l' => if is_space c then drop_spaces l' else l
  | [] => []
  end.

Definition trim (l : list ascii) : list ascii := rev (drop_spaces (rev (drop_spaces l))).

(** The value of a digit in a radix. *)
Definition digit (radix : Z) (c : ascii) : option Z :=
  let n := code c in
  let d := if (48 <=? n) && (n <=? 57) then n - 48
           else if (97 <=? n) && (n <=? 122) then n - 87
           else if (65 <=? n) && (n <=? 90) then n - 55 else radix in
  if d <? radix then Some d else None.

(** The longest run of digits: value, count, rest. *)
Fixpoint digits (radix acc : Z) (n : nat) (l : list ascii) : Z * nat * list ascii :=
  match l with
  | c :: l' =>
      match digit radix c with
      | Some d => digits radix (acc * radix + d) (S n) l'
      | None => (acc, n, l)
      end
  | [] => (acc, n, [])
  end.

Definition sign (l : list ascii) : bool * list ascii :=
  match l with
  | "-" :: l' => (true, l')
  | "+" :: l' => (false, l')
  | l => (false, l)
  end.

(** The exponent part: nothing, or [e] with a signed integer. *)
Definition exponent (l : list ascii) : option Z :=
  match l with
  | [] => Some 0
  | c :: l' =>
      if Ascii.eqb c "e" || Ascii.eqb c "E" then
        let '(neg, l') := sign l' in
        match digits 10 0 0 l' with
        | (_, O, _) => None
        | (e, _, []) => Some (if neg then - e else e)
        | _ => None
        end
      else None
  end.

(** An unsigned decimal literal. *)
Definition decimal (l : list ascii) : option Q :=
  let '(m, n, l) := digits 10 0 0 l in
  let '(m, n, frac, l) :=
    match l with
    | "." :: l' => let '(m', n', l'') := digits 10 m 0 l' in (m', (n + n')%nat, Z.of_nat n', l'')
    | _ => (m, n, 0, l)
    end in
  match n, exponent l with
  | O, _ | _, None => None
  | _, Some e => Some (inject_Z m * Qpower 10 (e - frac))%Q
  end.

Definition radix_literal (radix : Z) (l : list ascii) : num :=
  match digits radix 0 0 l with
  | (_, O, _) => NaN
  | (v, _, []) => rnd (inject_Z v)
  | _ => NaN
  end.

Definition string_to_number (s : string) : num :=
  match trim (String.list_ascii_of_string s) with
  | [] => num0
  | "0" :: "x" :: l | "0" :: "X" :: l => radix_literal 16 l
  | "0" :: "o" :: l | "0" :: "O" :: l => radix_literal 8 l
  | "0" :: "b" :: l | "0" :: "B" :: l => radix_literal 2 l
  | l =>
      let '(neg, l) := sign l in
      if decide (l = String.list_ascii_of_string "Infinity") then if neg then NInf else PInf
      else match decimal l with
           | Some q => rnd (if neg then Qopp q else q)
           | None => NaN
           end
  end.

(** An array converts through its string: an element alone, and [NaN] for two or
    more because of the comma. *)
Fixpoint element_to_number (v : jsval) : num :=
  match v with
  | JUndef | JNull => num0
  | JBool _ => NaN
  | JNum n => n
  | JStr s => string_to_number s
  | JArr [] => num0
  | JArr [x] => element_to_number x
  | JArr _ | JObj _ => NaN
  end.

Definition js_number (v : jsval) : num :=
  match v with
  | JUndef => NaN
  | JNull => num0
  | JBool b => if b then num1 else num0
  | JNum n => n
  | JStr s => string_to_number s
  | JArr _ | JObj _ => element_to_number v
  end.

Example number_of_strings :
  map string_to_number ["12"; " 1.5e2 "; "-.5"; "0x1F"; ""; "1,2"; "-Infinity"; "."; "1e"]%string =
  [num_of_Z 12; num_of_Z 150; Fin (-1#2); num_of_Z 31; num0; NaN; NInf; NaN; NaN].
Proof. vm_compute. reflexivity. Qed.
