(* ===== verification/DownlinkHints.v ===== *)
(** * Downlink hints (src/client/lib/qos/downlinkHints.js)

    Per-consumer UI hints.  The hint objects are shared: the sampler keeps
    references to the objects of this store, and the setters mutate them in
    place, so the model has a heap of objects and the stores hold addresses. *)

From S2P Require Import Prelude JsNum JsVal.
Local Open Scope string_scope.
Local Open Scope list_scope.

(** ** The heap of hint objects *)

Abbreviation loc := nat.
Abbreviation heap := (list jsval).

Definition deref (h : heap) (l : loc) : jsval := default JUndef (h !! l).

(** A new object at the next address. *)
Definition alloc (h : heap) (v : jsval) : heap * loc := (h ++ [v], length h).

(** [obj[key] = x]. *)
Definition heap_set (h : heap) (l : loc) (key : string) (x : jsval) : heap :=
  alter (λ v, js_set v key x) l h.

(** ** The store *)

Record DownlinkHints := {
  dh_hints : list (string * loc);
}.

Definition new_hints : DownlinkHints := {| dh_hints := [] |}.

(** The object [set] stores; the argument is an object. *)
Definition normalize_hint (hint : jsval) : jsval := JObj [
  ("producerId", js_or (js_get hint "producerId") (JStr ""));
  ("kind", JStr (if is_str (js_get hint "kind") "audio" then "audio" else "video"));
  ("ssrc", if js_is_finite (js_get hint "ssrc") then js_get hint "ssrc" else JUndef);
  ("mid", if String.eqb (js_typeof (js_get hint "mid")) "string" then js_get hint "mid" else JUndef);
  ("trackIdentifier",
    if String.eqb (js_typeof (js_get hint "trackIdentifier")) "string" then js_get hint "trackIdentifier" else JUndef);
  ("visible", JBool (negb (is_false (js_get hint "visible"))));
  ("pinned", JBool (truthy (js_get hint "pinned")));
  ("activeSpeaker", JBool (truthy (js_get hint "activeSpeaker")));
  ("isScreenShare", JBool (truthy (js_get hint "isScreenShare")));
  ("targetWidth", js_or (js_get hint "targetWidth") (JNum num0));
  ("targetHeight", js_or (js_get hint "targetHeight") (JNum num0))].

Definition set (h : heap) (s : DownlinkHints) (consumerId : string) (hint : jsval) : heap * DownlinkHints :=
  let '(h, l) := alloc h (normalize_hint hint) in
  (h, {| dh_hints := map_set (dh_hints s) consumerId l |}).

Definition remove (s : DownlinkHints) (consumerId : string) : DownlinkHints :=
  {| dh_hints := map_delete (dh_hints s) consumerId |}.

(** The in-place setters; an unknown consumer only gets a console warning. *)
Definition update (h : heap) (s : DownlinkHints) (consumerId key : string) (x : jsval) : heap :=
  match map_get (dh_hints s) consumerId with
  | Some l => heap_set h l key x
  | None => h
  end.

Definition setVisible (h : heap) (s : DownlinkHints) (consumerId : string) (visible : jsval) : heap :=
  update h s consumerId "visible" (JBool (truthy visible)).

Definition setPinned (h : heap) (s : DownlinkHints) (consumerId : string) (pinned : jsval) : heap :=
  update h s consumerId "pinned" (JBool (truthy pinned)).

Definition setActiveSpeaker (h : heap) (s : DownlinkHints) (consumerId : string) (active : jsval) : heap :=
  update h s consumerId "activeSpeaker" (JBool (truthy active)).

Definition setTargetSize (h : heap) (s : DownlinkHints) (consumerId : string) (width height : jsval) : heap :=
  update (update h s consumerId "targetWidth" (js_or width (JNum num0))) s consumerId
    "targetHeight" (js_or height (JNum num0)).

(** [None]: [null]. *)
Definition get (s : DownlinkHints) (consumerId : string) : option loc := map_get (dh_hints s) consumerId.
Definition getAll (s : DownlinkHints) : list (string * loc) := dh_hints s.
Definition clear_hints (s : DownlinkHints) : DownlinkHints := {| dh_hints := [] |}.

(** ** Invariant: every consumer has its own object *)

Record wf_hints (h : heap) (s : DownlinkHints) : Prop := {
  wfh_keys : NoDup (map_keys (dh_hints s));
  wfh_locs : NoDup (dh_hints s).*2;
  wfh_alloc : Forall (λ e, (e.2 < length h)%nat) (dh_hints s);
}.

Lemma new_hints_wf h : wf_hints h new_hints.
Proof. split; [apply NoDup_nil_2|apply NoDup_nil_2|constructor]. Qed.

Lemma map_set_snd (m : list (string * loc)) k l :
  NoDup m.*2 → l ∉ m.*2 → NoDup (map_set m k l).*2 ∧ ∀ x, x ∈ (map_set m k l).*2 → x = l ∨ x ∈ m.*2.
Proof.
  induction m as [|[k' l'] m IH]; intros Hn Hl; csimpl.
  { split; [apply NoDup_singleton|set_solver]. }
  csimpl in Hn. apply NoDup_cons in Hn as [Hn1 Hn2]. csimpl in Hl.
  destruct (decide (k' = k)); csimpl.
  - split; [apply NoDup_cons; split; set_solver|set_solver].
  - destruct IH as [IH1 IH2]; [done|set_solver|]. split; [|set_solver].
    apply NoDup_cons. split; [|done]. intros Hin. apply IH2 in Hin. set_solver.
Qed.

Lemma set_wf h s cid hint : wf_hints h s →
  let '(h', s') := set h s cid hint in wf_hints h' s'.
Proof.
  intros [Hk Hl Ha]. unfold set, alloc.
  assert (length h ∉ (dh_hints s).*2) as Hnew.
  { intros Hin. apply list_elem_of_fmap in Hin as (e & E & He). rewrite Forall_forall in Ha.
    specialize (Ha _ He). lia. }
  destruct (map_set_snd (dh_hints s) cid (length h) Hl Hnew) as [H1 H2]. split; cbn [dh_hints].
  - by apply map_set_NoDup.
  - done.
  - rewrite length_app. simpl. rewrite Forall_forall in Ha |- *. intros [k l] Hin.
    apply map_set_elem in Hin; [|done]. destruct Hin as [[_ ->]|[_ Hin]]; simpl; [lia|].
    specialize (Ha _ Hin). simpl in Ha. lia.
Qed.

Lemma heap_set_length h l k x : length (heap_set h l k x) = length h.
Proof. apply length_alter. Qed.

Lemma update_wf h s cid k x : wf_hints h s → wf_hints (update h s cid k x) s.
Proof.
  intros [Hk Hl Ha]. split; [done|done|]. unfold update. destruct (map_get _ _); [|done]. by rewrite heap_set_length.
Qed.

Lemma NoDup_fmap_filter {A B} (f : A → B) (P : A → Prop) `{∀ x, Decision (P x)} l :
  NoDup (f <$> l) → NoDup (f <$> filter P l).
Proof.
  induction l as [|x l IH]; [done|]. csimpl. intros [Hx Hl]%NoDup_cons. rewrite filter_cons.
  case_decide; csimpl; [|auto]. apply NoDup_cons. split; [|auto].
  intros Hin. apply Hx. apply list_elem_of_fmap in Hin as (y & -> & Hy).
  apply list_elem_of_filter in Hy as [_ Hy]. apply list_elem_of_fmap. eauto.
Qed.

Lemma remove_wf h s cid : wf_hints h s → wf_hints h (remove s cid).
Proof.
  intros [Hk Hl Ha]. split; [by apply map_delete_NoDup|by apply NoDup_fmap_filter|by apply map_delete_Forall].
Qed.

(** Two consumers of the store never share an object. *)
Lemma wf_hints_inj h s c1 c2 l : wf_hints h s →
  map_get (dh_hints s) c1 = Some l → map_get (dh_hints s) c2 = Some l → c1 = c2.
Proof.
  intros [_ Hl _] H1%map_get_elem H2%map_get_elem.
  apply list_elem_of_lookup in H1 as [i Hi], H2 as [j Hj].
  assert (i = j) as ->; [|congruence].
  apply (NoDup_lookup _ i j l Hl); rewrite list_lookup_fmap; [by rewrite Hi|by rewrite Hj].
Qed.

Lemma deref_heap_set h l l' k x : (l < length h)%nat →
  deref (heap_set h l k x) l' = if decide (l' = l) then js_set (deref h l) k x else deref h l'.
Proof.
  intros Hl. unfold deref, heap_set. destruct (decide (l' = l)) as [->|].
  - rewrite list_lookup_alter_eq. destruct (lookup_lt_is_Some_2 h l Hl) as [v ->]. done.
  - by rewrite list_lookup_alter_ne.
Qed.

(** The setters change one property of one consumer's hint and nothing of any
    other consumer's. *)
Lemma update_deref h s cid key x :
  wf_hints h s →
  ∀ cid' l', get s cid' = Some l' →
    deref (update h s cid key x) l' =
      if decide (cid' = cid) then js_set (deref h l') key x else deref h l'.
Proof.
  intros Hwf cid' l' Hl'. unfold update, get in *.
  destruct (map_get (dh_hints s) cid) as [l|] eqn:El.
  - assert ((l < length h)%nat) as Hlt.
    { pose proof (wfh_alloc _ _ Hwf) as Ha. rewrite Forall_forall in Ha. apply map_get_elem in El. apply (Ha _ El). }
    rewrite deref_heap_set by done. destruct (decide (cid' = cid)) as [->|Hne].
    + assert (l' = l) as -> by congruence. by rewrite decide_True.
    + rewrite decide_False; [done|]. intros ->. apply Hne. by eapply wf_hints_inj.
  - destruct (decide (cid' = cid)) as [->|]; [congruence|done].
Qed.

Definition demo_hints : heap * DownlinkHints :=
  let '(h, s) := set [] new_hints "c1" (JObj [("producerId", JStr "p1"); ("kind", JStr "video")]) in
  set h s "c2" (JObj [("producerId", JStr "p2"); ("kind", JStr "audio"); ("visible", JBool false)]).

Lemma update_deref_example :
  js_get (deref (setVisible demo_hints.1 demo_hints.2 "c1" (JBool false)) 0) "visible" = JBool false ∧
  deref (setVisible demo_hints.1 demo_hints.2 "c1" (JBool false)) 1 = deref demo_hints.1 1.
Proof.
  assert (wf_hints demo_hints.1 demo_hints.2) as Hwf.
  { exact (set_wf _ _ _ _ (set_wf _ _ _ _ (new_hints_wf []))). }
  split.
  - pose proof (update_deref _ _ "c1" "visible" (JBool false) Hwf "c1" 0%nat eq_refl) as H.
    unfold setVisible. simpl truthy. rewrite H. reflexivity.
  - exact (update_deref _ _ "c1" "visible" (JBool false) Hwf "c2" 1%nat eq_refl).
Defined.
