(* ===== verification/DownlinkProtocol.v ===== *)
(** * The downlink wire protocol (src/client/lib/qos/downlinkProtocol.js)

    Building and validating downlink snapshots.  [Date.now()] is an argument;
    console warnings are left out. *)

From Stdlib Require Import QArith.
From stdpp Require Import pretty.
From S2P Require Import Prelude JsNum JsVal QosTypes.
Local Open Scope string_scope.
Local Open Scope list_scope.
Local Open Scope Z_scope.

Definition DOWNLINK_SCHEMA_V1 : string := "mediasoup.qos.downlink.client.v1".
Definition DOWNLINK_SCHEMA_V1_LEGACY : string := "mediasoup.downlink.v1".
Definition DOWNLINK_MAX_SEQ : Z := MAX_SAFE_INTEGER.
Definition DOWNLINK_MAX_SUBSCRIPTIONS : nat := 64.

(** [value || 0]. *)
Definition or0 (v : jsval) : jsval := js_or v (JNum num0).

(** [kind === 'audio' ? 'audio' : 'video']. *)
Definition audio_or_video (v : jsval) : jsval := JStr (if is_str v "audio" then "audio" else "video").

Definition copyOptionalNumber (source : jsval) (target : list (string * jsval)) (key : string) : list (string * jsval) :=
  if js_is_finite (js_get source key) then map_set target key (js_get source key) else target.

Definition optional_keys : list string :=
  ["concealedSamples"; "totalSamplesReceived"; "freezeCount"; "totalFreezesDuration"; "framesDropped";
   "jitterBufferDelayMs"].

(** [s] is an object, as the sampler builds it; [null] would throw. *)
Definition entry_base (s : jsval) : list (string * jsval) := [
    ("consumerId", js_get s "consumerId");
    ("producerId", js_get s "producerId");
    ("kind", audio_or_video (js_get s "kind"));
    ("visible", JBool (truthy (js_get s "visible")));
    ("pinned", JBool (truthy (js_get s "pinned")));
    ("activeSpeaker", JBool (truthy (js_get s "activeSpeaker")));
    ("isScreenShare", JBool (truthy (js_get s "isScreenShare")));
    ("targetWidth", or0 (js_get s "targetWidth"));
    ("targetHeight", or0 (js_get s "targetHeight"));
    ("packetsLost", or0 (js_get s "packetsLost"));
    ("jitter", or0 (js_get s "jitter"));
    ("framesPerSecond", or0 (js_get s "framesPerSecond"));
    ("frameWidth", or0 (js_get s "frameWidth"));
    ("frameHeight", or0 (js_get s "frameHeight"));
    ("freezeRate", or0 (js_get s "freezeRate"))].

Definition subscription_entry (s : jsval) : jsval := JObj (foldl (copyOptionalNumber s) (entry_base s) optional_keys).

Definition serializeDownlinkSnapshot (seq : Z) (subscriberPeerId : string) (transport : jsval)
    (subscriptions : list jsval) (dateNow : num) : jsval :=
  let capped :=
    if (DOWNLINK_MAX_SUBSCRIPTIONS <? length subscriptions)%nat
    then take DOWNLINK_MAX_SUBSCRIPTIONS subscriptions else subscriptions in
  JObj [
    ("schema", JStr DOWNLINK_SCHEMA_V1);
    ("seq", js_int seq);
    ("tsMs", JNum dateNow);
    ("subscriberPeerId", JStr subscriberPeerId);
    ("transport", JObj [
       ("availableIncomingBitrate", or0 (js_get transport "availableIncomingBitrate"));
       ("currentRoundTripTime", or0 (js_get transport "currentRoundTripTime"))]);
    ("subscriptions", JArr (map subscription_entry capped))].

(** [{ ...v }]. *)
Definition js_spread (v : jsval) : list (string * jsval) :=
  match v with
  | JObj o => o
  | JArr l => imap (λ i x, (pretty i, x)) l
  | JStr s => imap (λ i c, (pretty i, JStr (String c EmptyString))) (String.list_ascii_of_string s)
  | _ => []
  end.

Definition is_safe_int (v : jsval) : bool :=
  match v with JNum n => is_safe_integer n | _ => false end.

(** [payload.seq < 0] for a number. *)
Definition is_negative (v : jsval) : bool :=
  match v with JNum n => num_ltb n num0 | _ => false end.

(** The value interpolated into the schema message is left out. *)
Definition parseDownlinkSnapshot (payload : jsval) : outcome jsval :=
  if negb (truthy payload) || negb (String.eqb (js_typeof payload) "object") then
    Throw "downlink snapshot must be an object"
  else if negb (is_str (js_get payload "schema") DOWNLINK_SCHEMA_V1) &&
          negb (is_str (js_get payload "schema") DOWNLINK_SCHEMA_V1_LEGACY) then
    Throw "unsupported schema"
  else if negb (is_safe_int (js_get payload "seq")) || is_negative (js_get payload "seq") then
    Throw "seq must be a non-negative safe integer <= 9007199254740991"
  else
    let o := js_spread payload in
    let o := map_set o "schema"
      (if is_str (js_get payload "schema") DOWNLINK_SCHEMA_V1_LEGACY
       then JStr DOWNLINK_SCHEMA_V1 else js_get payload "schema") in
    Ok (JObj (map_set o "subscriptions"
      match js_get payload "subscriptions" with
      | JArr l => JArr (map (λ s, JObj (map_set (js_spread s) "kind" (audio_or_video (js_get s "kind")))) l)
      | v => v
      end)).

(** ** Properties *)

Lemma copyOptionalNumber_get s t key k : k ≠ key → map_get (copyOptionalNumber s t key) k = map_get t k.
Proof. intros. unfold copyOptionalNumber. destruct (js_is_finite _); [|done]. by rewrite map_get_set_ne. Qed.

Lemma copy_keys s keys t k : k ∉ keys → map_get (foldl (copyOptionalNumber s) t keys) k = map_get t k.
Proof.
  revert t. induction keys as [|key keys IH]; intros t Hk; [done|]. simpl.
  rewrite IH by set_solver. apply copyOptionalNumber_get. set_solver.
Qed.

(** An entry's kind is already one of the two. *)
Lemma kind_not_optional : "kind" ∉ optional_keys.
Proof. apply (bool_decide_unpack _). vm_compute. exact I. Qed.

(** The fixed keys of an entry. *)
Lemma entry_fixed s :
  js_get (subscription_entry s) "consumerId" = js_get s "consumerId" ∧
  js_get (subscription_entry s) "visible" = JBool (truthy (js_get s "visible")).
Proof.
  assert (∀ k, k ∉ optional_keys → js_get (subscription_entry s) k = js_get (JObj (entry_base s)) k) as H.
  { intros k Hk. unfold subscription_entry, js_get. by rewrite copy_keys. }
  rewrite !H by (apply (bool_decide_unpack _); vm_compute; exact I). done.
Qed.

Lemma audio_or_video_idemp v : audio_or_video (audio_or_video v) = audio_or_video v.
Proof. unfold audio_or_video. by destruct (is_str v "audio"). Qed.

Lemma entry_kind s : ∃ o, subscription_entry s = JObj o ∧ map_get o "kind" = Some (audio_or_video (js_get s "kind")).
Proof. eexists. split; [reflexivity|]. rewrite copy_keys by apply kind_not_optional. reflexivity. Qed.

Lemma map_kind_entries l :
  map (λ s, JObj (map_set (js_spread s) "kind" (audio_or_video (js_get s "kind")))) (map subscription_entry l) =
  map subscription_entry l.
Proof.
  rewrite map_map. apply map_ext. intros s. destruct (entry_kind s) as (o & E & Hk).
  rewrite E. change (js_get (JObj o) "kind") with (default JUndef (map_get o "kind")). rewrite Hk. cbn [from_option id js_spread]. rewrite audio_or_video_idemp. f_equal. by apply map_set_id.
Qed.

Lemma safe_int_range seq : 0 <= seq <= DOWNLINK_MAX_SEQ →
  is_safe_int (js_int seq) = true ∧ is_negative (js_int seq) = false.
Proof.
  intros [H0 H1]. unfold js_int, is_safe_int, is_negative, is_safe_integer. split.
  - cbn [num_of_Z]. apply andb_true_iff. split; [apply num_of_Z_integer|]. apply Qle_bool_iff.
    unfold Qabs.Qabs, inject_Z, Qle. simpl. unfold DOWNLINK_MAX_SEQ in H1. lia.
  - change num0 with (num_of_Z 0). rewrite num_of_Z_ltb. apply Z.ltb_ge. lia.
Qed.

Lemma capped_subscriptions (subscriptions : list jsval) :
  (if (DOWNLINK_MAX_SUBSCRIPTIONS <? length subscriptions)%nat
   then take DOWNLINK_MAX_SUBSCRIPTIONS subscriptions else subscriptions) = take DOWNLINK_MAX_SUBSCRIPTIONS subscriptions.
Proof. destruct (_ <? _)%nat eqn:E; [done|]. apply Nat.ltb_ge in E. by rewrite take_ge. Qed.

(** The entries of a snapshot: the first 64 subscriptions. *)
Lemma serialize_subscriptions seq peer transport subscriptions dateNow :
  js_get (serializeDownlinkSnapshot seq peer transport subscriptions dateNow) "subscriptions" =
  JArr (map subscription_entry (take DOWNLINK_MAX_SUBSCRIPTIONS subscriptions)).
Proof. unfold serializeDownlinkSnapshot. rewrite capped_subscriptions. reflexivity. Qed.

Lemma serialize_parses seq peer transport subscriptions dateNow :
  0 <= seq <= DOWNLINK_MAX_SEQ →
  let snapshot := serializeDownlinkSnapshot seq peer transport subscriptions dateNow in
  parseDownlinkSnapshot snapshot = Ok snapshot.
Proof.
  intros Hs. cbv zeta. unfold serializeDownlinkSnapshot. rewrite capped_subscriptions.
  set (entries := map subscription_entry (take DOWNLINK_MAX_SUBSCRIPTIONS subscriptions)).
  destruct (safe_int_range seq Hs) as [H1 H2]. unfold parseDownlinkSnapshot.
  match goal with |- context [js_get ?p "seq"] =>
    change (js_get p "seq") with (js_int seq); change (js_get p "schema") with (JStr DOWNLINK_SCHEMA_V1);
    change (js_get p "subscriptions") with (JArr entries) end.
  rewrite H1, H2. cbn [truthy js_typeof negb orb].
  change (is_str (JStr DOWNLINK_SCHEMA_V1) DOWNLINK_SCHEMA_V1) with true.
  change (is_str (JStr DOWNLINK_SCHEMA_V1) DOWNLINK_SCHEMA_V1_LEGACY) with false.
  cbn [negb andb String.eqb]. cbv beta iota zeta. subst entries. rewrite map_kind_entries. reflexivity.
Qed.

(** C35: a serialised downlink snapshot carries at most 64 subscriptions, the
    first ones, and parses back to itself: serialising normalises everything the
    parser would. *)
Theorem downlink_roundtrip seq peer transport subscriptions dateNow :
  0 <= seq <= DOWNLINK_MAX_SEQ →
  let snapshot := serializeDownlinkSnapshot seq peer transport subscriptions dateNow in
  parseDownlinkSnapshot snapshot = Ok snapshot ∧
  ∃ entries, js_get snapshot "subscriptions" = JArr entries ∧
    (length entries <= DOWNLINK_MAX_SUBSCRIPTIONS)%nat ∧
    entries = map subscription_entry (take DOWNLINK_MAX_SUBSCRIPTIONS subscriptions).
Proof.
  intros Hs. cbv zeta. split; [by apply serialize_parses|].
  eexists. split; [apply serialize_subscriptions|]. split; [|done]. rewrite length_map, length_take. lia.
Qed.

Lemma downlink_roundtrip_witness :
  parseDownlinkSnapshot (serializeDownlinkSnapshot 7 "peer" (JObj [])
    [JObj [("consumerId", JStr "c1"); ("producerId", JStr "p1"); ("kind", JStr "audio"); ("freezeCount", js_int 2)]] (num_of_Z 1000))
  = Ok (serializeDownlinkSnapshot 7 "peer" (JObj [])
    [JObj [("consumerId", JStr "c1"); ("producerId", JStr "p1"); ("kind", JStr "audio"); ("freezeCount", js_int 2)]] (num_of_Z 1000)).
Proof.
  apply (downlink_roundtrip 7 "peer" (JObj [])
    [JObj [("consumerId", JStr "c1"); ("producerId", JStr "p1"); ("kind", JStr "audio"); ("freezeCount", js_int 2)]] (num_of_Z 1000)).
  split; vm_compute; congruence.
Defined.
