(* ===== verification/DownlinkSampler.v ===== *)
(** * The downlink sampler (src/client/lib/qos/downlinkSampler.js)

    Receiver-side statistics of the consumers of a receive transport.  The hints
    are references to the objects of the hint store, read when the statistics
    arrive.  The statistics provider is outside the library: [sample] takes what
    it resolved to, [None] for a value without a [values] method, else the
    reports in iteration order.  Reports are objects, distinct ones, so a report
    of the set of matched ones is its position. *)

From Stdlib Require Import QArith Qround Lqa.
From S2P Require Import Prelude JsNum JsVal JsConv DownlinkHints.
Local Open Scope string_scope.
Local Open Scope list_scope.
Local Open Scope Z_scope.

(** ** Report matching *)

Definition kind_given (hint : jsval) : bool :=
  is_str (js_get hint "kind") "audio" || is_str (js_get hint "kind") "video".

(** [report.kind === hint.kind] for a hint whose kind is a string. *)
Definition same_string (a b : jsval) : bool :=
  match b with JStr s => is_str a s | _ => false end.

Definition matchesHintKind (report hint : jsval) : bool :=
  if negb (truthy report) || negb (truthy hint) then false
  else if kind_given hint then same_string (js_get report "kind") (js_get hint "kind")
  else true.

(** [typeof hint[key] === 'string' && hint[key] && report[key] === hint[key]]. *)
Definition same_label (report hint : jsval) (key : string) : bool :=
  truthy (js_get hint key) && same_string (js_get report key) (js_get hint key).

Definition matchesHint (report hint : jsval) : bool :=
  if negb (truthy report) || negb (truthy hint) then false
  else if negb (matchesHintKind report hint) then false
  else if js_is_finite (js_get hint "ssrc") &&
          num_eqb (js_number (js_get report "ssrc")) (js_number (js_get hint "ssrc")) then true
  else if same_label report hint "mid" then true
  else same_label report hint "trackIdentifier".

(** The first report, by position, that satisfies [p] and is not taken. *)
Fixpoint first_free (p : jsval → bool) (matched : list nat) (i : nat) (reports : list jsval) : option nat :=
  match reports with
  | [] => None
  | r :: reports =>
      if p r && bool_decide (i ∉ matched) then Some i else first_free p matched (S i) reports
  end.

(** The chosen report, if any, and the set of matched ones. *)
Definition selectInboundReport (reports : list jsval) (hint : jsval) (matched : list nat) : option nat * list nat :=
  match first_free (λ r, matchesHint r hint) matched 0 reports with
  | Some i => (Some i, i :: matched)
  | None =>
      match first_free (λ r, matchesHintKind r hint) matched 0 reports with
      | Some i => (Some i, i :: matched)
      | None =>
          if kind_given hint then (None, matched)
          else match first_free (λ _, true) matched 0 reports with
               | Some i => (Some i, i :: matched)
               | None => (None, matched)
               end
      end
  end.

(** ** Derived metrics; [None] stands for no report *)

Definition readOptionalNumber (stats : option jsval) (key : string) : jsval :=
  let value := match stats with Some s => js_number (js_get s key) | None => NaN end in
  if is_finite value then JNum value else JUndef.

Definition computeFreezeRate (stats : option jsval) : num :=
  match stats with
  | None => num0
  | Some s =>
      let totalFrames := js_or (js_get s "framesDecoded") (JNum num0) in
      let freezeCount := js_or (js_get s "freezeCount") (JNum num0) in
      if match totalFrames with JNum n => num_eqb n num0 | _ => false end then num0
      else
        match js_get s "totalFreezesDuration", js_get s "totalPlaybackDuration" with
        | JNum freezes, JNum playback =>
            if num_ltb num0 playback then (freezes / playback)%num
            else if num_ltb num0 (js_number freezeCount)
                 then (js_number freezeCount / js_number totalFrames)%num else num0
        | _, _ =>
            if num_ltb num0 (js_number freezeCount)
            then (js_number freezeCount / js_number totalFrames)%num else num0
        end
  end.

Definition computeJitterBufferDelayMs (stats : option jsval) : jsval :=
  match stats with
  | None => JUndef
  | Some _ =>
      match readOptionalNumber stats "jitterBufferDelay" with
      | JNum totalDelay =>
          match readOptionalNumber stats "jitterBufferEmittedCount" with
          | JNum emittedCount =>
              if num_ltb num0 emittedCount then JNum (totalDelay / emittedCount * num_of_Z 1000)%num
              else JNum (totalDelay * num_of_Z 1000)%num
          | _ => JNum (totalDelay * num_of_Z 1000)%num
          end
      | _ => JUndef
      end
  end.

Definition computeLossPercent (stats : option jsval) (previousLost previousReceived : option num) : num :=
  match stats with
  | None => num0
  | Some s =>
      let currentLost := js_number (js_get s "packetsLost") in
      let currentReceived := js_number (js_get s "packetsReceived") in
      if negb (is_finite currentLost) || negb (is_finite currentReceived) then num0
      else
        match previousLost, previousReceived with
        | Some previousLost, Some previousReceived =>
            if negb (is_finite previousLost) || negb (is_finite previousReceived) then num0
            else
              let deltaLost := (currentLost - previousLost)%num in
              let deltaReceived := (currentReceived - previousReceived)%num in
              if num_ltb deltaLost num0 || num_ltb deltaReceived num0 then num0
              else
                let total := (deltaLost + deltaReceived)%num in
                if num_leb total num0 then num0
                else math_max num0 (math_min (num_of_Z 100) (math_round (deltaLost / total * num_of_Z 100)%num))
        | _, _ => num0
        end
  end.

(** ** The sampler *)

Record DownlinkSampler := {
  ds_hints : list (string * loc);
  ds_prevPacketsLost : list (string * num);
  ds_prevPacketsReceived : list (string * num);
}.

Definition new_sampler : DownlinkSampler :=
  {| ds_hints := []; ds_prevPacketsLost := []; ds_prevPacketsReceived := [] |}.

Definition setHints (s : DownlinkSampler) (consumerId : string) (hint : loc) : DownlinkSampler :=
  {| ds_hints := map_set (ds_hints s) consumerId hint;
     ds_prevPacketsLost := ds_prevPacketsLost s; ds_prevPacketsReceived := ds_prevPacketsReceived s |}.

Definition removeHints (s : DownlinkSampler) (consumerId : string) : DownlinkSampler :=
  {| ds_hints := map_delete (ds_hints s) consumerId;
     ds_prevPacketsLost := map_delete (ds_prevPacketsLost s) consumerId;
     ds_prevPacketsReceived := map_delete (ds_prevPacketsReceived s) consumerId |}.

(** [Number(v) || 0]. *)
Definition number_or0 (v : jsval) : num := if truthy (JNum (js_number v)) then js_number v else num0.

(** [stats?.key || 0]. *)
Definition stat_or0 (stats : option jsval) (key : string) : jsval :=
  js_or (match stats with Some s => js_get s key | None => JUndef end) (JNum num0).

Definition subscription (consumerId : string) (hint : jsval) (stats : option jsval) (lossPercent : num) : jsval :=
  JObj [
    ("consumerId", JStr consumerId);
    ("producerId", js_or (js_get hint "producerId") (JStr ""));
    ("kind", JStr (if is_str (js_get hint "kind") "audio" then "audio" else "video"));
    ("visible", JBool (truthy (js_get hint "visible")));
    ("pinned", JBool (truthy (js_get hint "pinned")));
    ("activeSpeaker", JBool (truthy (js_get hint "activeSpeaker")));
    ("isScreenShare", JBool (truthy (js_get hint "isScreenShare")));
    ("targetWidth", js_or (js_get hint "targetWidth") (JNum num0));
    ("targetHeight", js_or (js_get hint "targetHeight") (JNum num0));
    ("packetsLost", JNum lossPercent);
    ("jitter", stat_or0 stats "jitter");
    ("framesPerSecond", stat_or0 stats "framesPerSecond");
    ("frameWidth", stat_or0 stats "frameWidth");
    ("frameHeight", stat_or0 stats "frameHeight");
    ("freezeRate", JNum (computeFreezeRate stats));
    ("concealedSamples", readOptionalNumber stats "concealedSamples");
    ("totalSamplesReceived", readOptionalNumber stats "totalSamplesReceived");
    ("freezeCount", readOptionalNumber stats "freezeCount");
    ("totalFreezesDuration", readOptionalNumber stats "totalFreezesDuration");
    ("framesDropped", readOptionalNumber stats "framesDropped");
    ("jitterBufferDelayMs", computeJitterBufferDelayMs stats)].

(** The counters of the next sample. *)
Definition remember (s : DownlinkSampler) (consumerId : string) (stats : option jsval) : DownlinkSampler :=
  match stats with
  | None => s
  | Some r =>
      {| ds_hints := ds_hints s;
         ds_prevPacketsLost := map_set (ds_prevPacketsLost s) consumerId (number_or0 (js_get r "packetsLost"));
         ds_prevPacketsReceived :=
           map_set (ds_prevPacketsReceived s) consumerId (number_or0 (js_get r "packetsReceived")) |}
  end.

(** The loop over the hints. *)
Fixpoint sample_hints (h : heap) (reports : list jsval) (hints : list (string * loc)) (matched : list nat)
    (s : DownlinkSampler) : DownlinkSampler * list jsval :=
  match hints with
  | [] => (s, [])
  | (consumerId, l) :: hints =>
      let hint := deref h l in
      let '(choice, matched) := selectInboundReport reports hint matched in
      let stats := choice ≫= λ i, reports !! i in
      let lossPercent := computeLossPercent stats (map_get (ds_prevPacketsLost s) consumerId)
                           (map_get (ds_prevPacketsReceived s) consumerId) in
      let s := remember s consumerId stats in
      let '(s, rest) := sample_hints h reports hints matched s in
      (s, subscription consumerId hint stats lossPercent :: rest)
  end.

Definition is_inbound (report : jsval) : bool :=
  is_str (js_get report "type") "inbound-rtp" &&
  (is_str (js_get report "kind") "video" || is_str (js_get report "kind") "audio").

Definition is_nominated_pair (report : jsval) : bool :=
  is_str (js_get report "type") "candidate-pair" && truthy (js_get report "nominated").

Definition transport_metrics (bitrate rtt : jsval) : jsval :=
  JObj [("availableIncomingBitrate", bitrate); ("currentRoundTripTime", rtt)].

(** The last nominated pair counts. *)
Definition read_transport (rawStats : list jsval) : jsval :=
  let '(bitrate, rtt) := foldl (λ acc report,
    if is_nominated_pair report then
      (js_or (js_get report "availableIncomingBitrate") (JNum num0),
       js_or (js_get report "currentRoundTripTime") (JNum num0))
    else acc) (JNum num0, JNum num0) rawStats in
  transport_metrics bitrate rtt.

(** What follows the [await] of the statistics. *)
Definition sample (h : heap) (s : DownlinkSampler) (rawStats : option (list jsval)) :
    DownlinkSampler * (jsval * list jsval) :=
  match rawStats with
  | None => (s, (transport_metrics (JNum num0) (JNum num0), []))
  | Some rawStats =>
      let '(s, subscriptions) := sample_hints h (List.filter is_inbound rawStats) (ds_hints s) [] s in
      (s, (read_transport rawStats, subscriptions))
  end.

(** ** The assignment of reports to hints *)

Lemma first_free_some p matched k reports i :
  first_free p matched k reports = Some i →
  ∃ j r, i = (k + j)%nat ∧ reports !! j = Some r ∧ p r = true ∧ i ∉ matched.
Proof.
  revert k. induction reports as [|r reports IH]; intros k; simpl; [done|].
  destruct (p r && bool_decide (k ∉ matched)) eqn:E.
  - intros [= <-]. apply andb_true_iff in E as [Hp Hm%bool_decide_eq_true]. exists 0%nat, r. split_and!; auto with lia.
  - intros (j & r' & -> & Hr & Hp & Hm)%IH. exists (S j), r'. split_and!; auto with lia.
Qed.

Lemma first_free_none p matched k reports :
  first_free p matched k reports = None →
  ∀ j r, reports !! j = Some r → p r = true → (k + j)%nat ∈ matched.
Proof.
  revert k. induction reports as [|r reports IH]; intros k; simpl; [done|].
  destruct (p r && bool_decide (k ∉ matched)) eqn:E; [done|]. intros H [|j] r' Hr Hp; simplify_eq/=.
  - rewrite Hp in E. simpl in E. apply bool_decide_eq_false in E. rewrite Nat.add_0_r.
    by destruct (decide (k ∈ matched)).
  - rewrite <- Nat.add_succ_comm. by eapply IH.
Qed.

(** What a choice means: a free report of the hint's kind, or no free report of
    its kind is left. *)
Definition choice_ok (reports : list jsval) (hint : jsval) (matched : list nat) (c : option nat) : Prop :=
  match c with
  | Some i => i ∉ matched ∧ ∃ r, reports !! i = Some r ∧
      (kind_given hint = true → same_string (js_get r "kind") (js_get hint "kind") = true)
  | None => ∀ i r, reports !! i = Some r → matchesHintKind r hint = true → i ∈ matched
  end.

Definition take_choice (c : option nat) (matched : list nat) : list nat :=
  match c with Some i => i :: matched | None => matched end.

Lemma matchesHintKind_same r hint : matchesHintKind r hint = true →
  kind_given hint = true → same_string (js_get r "kind") (js_get hint "kind") = true.
Proof. unfold matchesHintKind. intros H Hk. rewrite Hk in H. by destruct (_ || _). Qed.

Lemma matchesHint_kind r hint : matchesHint r hint = true → matchesHintKind r hint = true.
Proof. unfold matchesHint. destruct (_ || _); [done|]. by destruct (matchesHintKind r hint). Qed.

Lemma select_spec reports hint matched :
  ∃ c, selectInboundReport reports hint matched = (c, take_choice c matched) ∧ choice_ok reports hint matched c.
Proof.
  unfold selectInboundReport.
  destruct (first_free (λ r, matchesHint r hint) _ _ _) as [i|] eqn:E1.
  { apply first_free_some in E1 as (j & r & -> & Hr & Hp & Hm). exists (Some (0 + j)%nat). split; [done|].
    split; [done|]. exists r. split; [done|]. by apply matchesHintKind_same, matchesHint_kind. }
  destruct (first_free (λ r, matchesHintKind r hint) _ _ _) as [i|] eqn:E2.
  { apply first_free_some in E2 as (j & r & -> & Hr & Hp & Hm). exists (Some (0 + j)%nat). split; [done|].
    split; [done|]. exists r. split; [done|]. by apply matchesHintKind_same. }
  destruct (kind_given hint) eqn:Ek.
  { exists None. split; [done|]. intros i r Hr Hp. exact (first_free_none _ _ _ _ E2 _ _ Hr Hp). }
  destruct (first_free (λ _, true) _ _ _) as [i|] eqn:E3.
  { apply first_free_some in E3 as (j & r & -> & Hr & Hp & Hm). exists (Some (0 + j)%nat). split; [done|].
    split; [done|]. exists r. split; [done|]. by rewrite Ek. }
  exists None. split; [done|]. intros i r Hr Hp. exact (first_free_none _ _ _ _ E2 _ _ Hr Hp).
Qed.

(** The subscription of a hint, from its report and the counters of sampler [s]. *)
Definition entry_of (h : heap) (reports : list jsval) (s : DownlinkSampler) (cid : string) (l : loc)
    (c : option nat) : jsval :=
  let stats := c ≫= λ i, reports !! i in
  subscription cid (deref h l) stats
    (computeLossPercent stats (map_get (ds_prevPacketsLost s) cid) (map_get (ds_prevPacketsReceived s) cid)).

(** The choices of a pass over the hints, one per hint, from the reports taken so far. *)
Inductive assigned (h : heap) (reports : list jsval) : list (string * loc) → list nat → list (option nat) → Prop :=
| assigned_nil matched : assigned h reports [] matched []
| assigned_cons cid l hints matched c cs :
    choice_ok reports (deref h l) matched c → assigned h reports hints (take_choice c matched) cs →
    assigned h reports ((cid, l) :: hints) matched (c :: cs).

Definition prev_agree (s s' : DownlinkSampler) (cid : string) : Prop :=
  map_get (ds_prevPacketsLost s) cid = map_get (ds_prevPacketsLost s') cid ∧
  map_get (ds_prevPacketsReceived s) cid = map_get (ds_prevPacketsReceived s') cid.

Lemma remember_other s cid stats cid' : cid ≠ cid' → prev_agree (remember s cid stats) s cid'.
Proof. intros. destruct stats; [|done]. split; simpl; by rewrite map_get_set_ne. Qed.

Lemma sample_hints_spec h reports hints matched s :
  NoDup (map_keys hints) →
  ∃ cs, assigned h reports hints matched cs ∧
    (sample_hints h reports hints matched s).2 = zip_with (λ e c, entry_of h reports s e.1 e.2 c) hints cs ∧
    (sample_hints h reports hints matched s).1 =
      foldl (λ s ec, remember s ec.1.1 (ec.2 ≫= λ i, reports !! i)) s (zip hints cs).
Proof.
  revert matched s. induction hints as [|[cid l] hints IH]; intros matched s Hn; simpl.
  { exists []. split_and!; [constructor|done|done]. }
  apply (NoDup_cons cid (map_keys hints)) in Hn as [Hcid Hn]. destruct (select_spec reports (deref h l) matched) as (c & -> & Hc).
  set (stats := c ≫= λ i, reports !! i).
  destruct (IH (take_choice c matched) (remember s cid stats) Hn) as (cs & Ha & Hsub & Hs).
  exists (c :: cs). destruct (sample_hints _ _ _ _ _) as [s' rest]. cbn [fst snd] in *. subst rest s'.
  split_and!; [by constructor| |done]. f_equal.
  assert (∀ e, e ∈ hints → prev_agree (remember s cid stats) s e.1) as Hag.
  { intros e He. apply remember_other. intros ->. apply Hcid. apply (list_elem_of_fmap fst). by exists e. }
  clear -Hag. revert cs. induction hints as [|e hints IH]; intros [|c' cs]; try done. simpl. apply (f_equal2 cons).
  - unfold entry_of. destruct (Hag e) as [-> ->]; [set_solver|done].
  - apply IH. intros. apply Hag. set_solver.
Qed.

Lemma assigned_length h reports hints matched cs : assigned h reports hints matched cs → length cs = length hints.
Proof. induction 1; simpl; congruence. Qed.

Lemma assigned_fresh h reports hints matched cs : assigned h reports hints matched cs →
  NoDup (omap id cs) ∧ ∀ i, i ∈ matched → i ∉ omap id cs.
Proof.
  induction 1 as [|cid l hints matched [i|] cs Hc _ [IH1 IH2]]; simpl.
  - split; [constructor|]. set_solver.
  - destruct Hc as [Hi _]. split.
    + apply NoDup_cons. split; [apply IH2; set_solver|done].
    + intros j Hj. apply not_elem_of_cons. split; [set_solver|]. apply IH2. set_solver.
  - done.
Qed.

(** C34: in a sample every consumer of the sampler gets one subscription, in the
    order of the hints; no two consumers share an inbound report, a report goes to
    a consumer of its own media kind, a consumer is left without a report only
    when the hints before it hold every report of its kind, and each loss figure
    is computed from that consumer's own previous counters. *)
Theorem sample_assigns h s rawStats :
  NoDup (map_keys (ds_hints s)) →
  ∃ cs, let reports := List.filter is_inbound rawStats in
    length cs = length (ds_hints s) ∧ NoDup (omap id cs) ∧
    assigned h reports (ds_hints s) [] cs ∧
    (sample h s (Some rawStats)).2.2 = zip_with (λ e c, entry_of h reports s e.1 e.2 c) (ds_hints s) cs ∧
    length (sample h s (Some rawStats)).2.2 = length (ds_hints s).
Proof.
  intros Hn. unfold sample.
  destruct (sample_hints_spec h (List.filter is_inbound rawStats) (ds_hints s) [] s Hn) as (cs & Ha & Hsub & _).
  destruct (sample_hints _ _ _ _ _) as [s' subs]. simpl in *. subst subs. exists cs.
  pose proof (assigned_length _ _ _ _ _ Ha) as Hl. split_and!; [done| |done|done|].
  - by apply assigned_fresh in Ha as [? _].
  - rewrite length_zip_with. lia.
Qed.

Definition demo_report (kind : string) (ssrc lost received : Z) : jsval :=
  JObj [("type", JStr "inbound-rtp"); ("kind", JStr kind); ("ssrc", js_int ssrc);
        ("packetsLost", js_int lost); ("packetsReceived", js_int received)].

Definition demo_sampler : DownlinkSampler := foldl (λ s e, setHints s e.1 e.2) new_sampler (getAll demo_hints.2).

(** Two reports for the two hints of [demo_hints]: the audio hint skips the video
    report in front of its own. *)
Lemma sample_assigns_witness :
  ∃ cs, length cs = 2%nat ∧ NoDup (omap id cs) ∧
    (sample demo_hints.1 demo_sampler (Some [demo_report "video" 1 0 10; demo_report "audio" 2 5 20])).2.2 =
      zip_with (λ e c, entry_of demo_hints.1 [demo_report "video" 1 0 10; demo_report "audio" 2 5 20] demo_sampler e.1 e.2 c)
        (ds_hints demo_sampler) cs.
Proof.
  destruct (sample_assigns demo_hints.1 demo_sampler [demo_report "video" 1 0 10; demo_report "audio" 2 5 20])
    as (cs & Hl & Hn & _ & Hs & _); [apply (bool_decide_unpack _); vm_compute; exact I|].
  exists cs. split_and!; [exact Hl|exact Hn|exact Hs].
Defined.

(** ** The loss percentage *)

Definition is_percent (x : num) : Prop := ∃ z, x = num_of_Z z ∧ 0 <= z <= 100.

Lemma clamp_percent x : is_nan x = false →
  is_percent (math_max num0 (math_min (num_of_Z 100) (math_round x))).
Proof.
  intros Hx. change num0 with (num_of_Z 0). destruct x as [| | |q]; [done|..].
  - by exists 100.
  - by exists 0.
  - unfold math_round. change (Fin (inject_Z ?z)) with (num_of_Z z). rewrite math_min_Z, math_max_Z.
    eexists. split; [reflexivity|]. lia.
Qed.

Lemma rnd_not_nan q : is_nan (rnd q) = false.
Proof. unfold rnd. by destruct (Qle_bool (two_pow 1024) _), (Qle_bool 0 q). Qed.

(** Packet counters of a browser are far below 2^53. *)
Definition counter_ok (x : num) : Prop :=
  match x with Fin q => (- inject_Z (2 ^ 53) <= q <= inject_Z (2 ^ 53))%Q | _ => True end.

Lemma counter_sub_finite a b : counter_ok (Fin a) → counter_ok (Fin b) → is_finite (Fin a - Fin b)%num = true.
Proof.
  intros [Ha Ha'] [Hb Hb']. change (num_sub (Fin a) (Fin b)) with (rnd (a - b)).
  assert (num_le (rnd (a - b)) (rnd (inject_Z (2 ^ 54)))) as H1.
  { apply rnd_mono. change (inject_Z (2 ^ 54)) with (inject_Z (2 ^ 53) * 2)%Q. lra. }
  assert (num_le (rnd (- inject_Z (2 ^ 54))%Q) (rnd (a - b))) as H2.
  { apply rnd_mono. change (inject_Z (2 ^ 54)) with (inject_Z (2 ^ 53) * 2)%Q. lra. }
  assert (rnd (inject_Z (2 ^ 54)) = num_of_Z (2 ^ 54)) as E1 by (vm_compute; reflexivity).
  assert (rnd (- inject_Z (2 ^ 54))%Q = num_of_Z (- 2 ^ 54)) as E2 by (vm_compute; reflexivity).
  rewrite E1 in H1. rewrite E2 in H2. clear E1 E2.
  unfold num_le, num_of_Z in *. destruct (rnd (a - b)); cbn [num_leb is_finite] in *; congruence.
Qed.

Lemma div_not_nan a y : num_leb y num0 = false → is_nan y = false → is_nan (Fin a / y)%num = false.
Proof.
  destruct y as [| | |b]; simpl; try done. intros Hb _. destruct (Qeq_bool b 0) eqn:E; [|apply rnd_not_nan].
  apply Qeq_bool_iff in E. assert (Qle_bool b 0 = true) by (apply Qle_bool_iff; lra). congruence.
Qed.

Lemma mul_100_not_nan x : is_nan x = false → is_nan (x * num_of_Z 100)%num = false.
Proof. destruct x; simpl; try done. intros _. apply rnd_not_nan. Qed.

Lemma not_ltb_nonneg x : is_nan x = false → num_ltb x num0 = false → nonneg x.
Proof.
  unfold nonneg, num_le. destruct x as [| | |q]; simpl; try done.
  intros _ H. by apply negb_false_iff in H.
Qed.

(** The reported loss is a whole percentage between 0 and 100 whatever the
    report holds: missing or non-numeric counters, counters that went backwards,
    no traffic, no earlier sample. *)
Theorem loss_percent_range stats previousLost previousReceived :
  (∀ r, stats = Some r → counter_ok (js_number (js_get r "packetsLost"))) →
  (∀ p, previousLost = Some p → counter_ok p) →
  is_percent (computeLossPercent stats previousLost previousReceived).
Proof.
  intros Hc Hp. assert (is_percent num0) as H0 by by exists 0.
  unfold computeLossPercent. destruct stats as [r|]; [|done]. specialize (Hc _ eq_refl).
  destruct (js_number (js_get r "packetsLost")) as [| | |cl]; try done.
  destruct (js_number (js_get r "packetsReceived")) as [| | |cr]; try done.
  destruct previousLost as [pl|], previousReceived as [pr|]; try done. specialize (Hp _ eq_refl).
  destruct pl as [| | |pl]; try done. destruct pr as [| | |pr]; try done.
  cbn [is_finite negb orb]. cbv zeta.
  pose proof (counter_sub_finite cl pl Hc Hp) as Hfin.
  assert (is_nan (Fin cr - Fin pr)%num = false) as Hr by apply rnd_not_nan.
  destruct (Fin cl - Fin pl)%num as [| | |dl] eqn:El; try done.
  destruct (num_ltb (Fin dl) num0) eqn:E1; [done|]. destruct (num_ltb (Fin cr - Fin pr) num0) eqn:E2; [done|].
  cbn [orb]. destruct (num_leb _ num0) eqn:E3; [done|].
  apply clamp_percent, mul_100_not_nan, div_not_nan; [done|].
  eapply (num_le_not_nan num0), num_add_nonneg; by apply not_ltb_nonneg.
Qed.

(** 5 of 15 packets lost since the last sample: 33 percent. *)
Lemma loss_percent_range_witness :
  is_percent (computeLossPercent (Some (demo_report "audio" 2 10 30)) (Some (num_of_Z 5)) (Some (num_of_Z 20))) ∧
  computeLossPercent (Some (demo_report "audio" 2 10 30)) (Some (num_of_Z 5)) (Some (num_of_Z 20)) = num_of_Z 33.
Proof.
  split; [|vm_compute; reflexivity]. apply loss_percent_range.
  - intros r [= <-]. split; vm_compute; congruence.
  - intros p [= <-]. split; vm_compute; congruence.
Defined.
