(* ===== verification/DownlinkReporter.v ===== *)
(** * The downlink reporter (src/client/lib/qos/downlinkReporter.js)

    The periodic report of a receive transport.  [_tick] awaits twice, so it is
    cut into what runs before the statistics, between the statistics and the
    send, and after the send; while a report waits, the application goes on
    changing the hint objects that the hint store and the sampler share, and
    further ticks arrive.  A run is a sequence of events on the system of heap,
    hint store, sampler and reporter. *)

From Stdlib Require Import QArith.
From S2P Require Import Prelude JsNum JsVal DownlinkHints DownlinkProtocol DownlinkSampler.
Local Open Scope string_scope.
Local Open Scope list_scope.
Local Open Scope Z_scope.

(** ** State *)

(** Where a report in flight waits. *)
Inductive pending :=
| AwaitStats (nextSeq : Z)
| AwaitSend.

Record DownlinkReporter := {
  dr_sampler : DownlinkSampler;
  dr_peerId : string;
  dr_intervalMs : num;
  dr_seq : Z;
  (** [_timerId !== null]: the interval timer is armed. *)
  dr_timer : bool;
  dr_reporting : bool;
  dr_consecutiveErrors : Z;
}.

Definition new_reporter (sampler : DownlinkSampler) (peerId : string) (intervalMs : num) : DownlinkReporter :=
  {| dr_sampler := sampler; dr_peerId := peerId; dr_intervalMs := intervalMs; dr_seq := 0; dr_timer := false;
     dr_reporting := false; dr_consecutiveErrors := 0 |}.

Definition running (r : DownlinkReporter) : bool := dr_timer r.

Definition set_timer (r : DownlinkReporter) (b : bool) : DownlinkReporter :=
  {| dr_sampler := dr_sampler r; dr_peerId := dr_peerId r; dr_intervalMs := dr_intervalMs r; dr_seq := dr_seq r;
     dr_timer := b; dr_reporting := dr_reporting r; dr_consecutiveErrors := dr_consecutiveErrors r |}.

Definition set_sampler (r : DownlinkReporter) (s : DownlinkSampler) : DownlinkReporter :=
  {| dr_sampler := s; dr_peerId := dr_peerId r; dr_intervalMs := dr_intervalMs r; dr_seq := dr_seq r;
     dr_timer := dr_timer r; dr_reporting := dr_reporting r; dr_consecutiveErrors := dr_consecutiveErrors r |}.

Definition start (r : DownlinkReporter) : DownlinkReporter := if dr_timer r then r else set_timer r true.
Definition stop (r : DownlinkReporter) : DownlinkReporter := if dr_timer r then set_timer r false else r.

(** ** [_tick] *)

Definition next_seq (seq : Z) : Z := if DOWNLINK_MAX_SEQ <=? seq then 0 else seq + 1.

(** Hints into the sampler: the addresses are copied, not the objects. *)
Definition sync_hints (hints : DownlinkHints) (s : DownlinkSampler) : DownlinkSampler :=
  foldl (λ s e, setHints s e.1 e.2) s (getAll hints).

(** Up to the first [await]; [None]: a report is already in flight. *)
Definition tick_start (hints : DownlinkHints) (r : DownlinkReporter) : option (DownlinkReporter * pending) :=
  if dr_reporting r then None
  else
    let nextSeq := next_seq (dr_seq r) in
    Some ({| dr_sampler := sync_hints hints (dr_sampler r); dr_peerId := dr_peerId r; dr_intervalMs := dr_intervalMs r;
             dr_seq := nextSeq; dr_timer := dr_timer r; dr_reporting := true;
             dr_consecutiveErrors := dr_consecutiveErrors r |}, AwaitStats nextSeq).

(** From the statistics to the send. *)
Definition tick_sampled (h : heap) (r : DownlinkReporter) (nextSeq : Z) (rawStats : option (list jsval))
    (dateNow : num) : DownlinkReporter * jsval :=
  let '(s, (transport, subscriptions)) := sample h (dr_sampler r) rawStats in
  (set_sampler r s, serializeDownlinkSnapshot nextSeq (dr_peerId r) transport subscriptions dateNow).

(** The end of a successful report. *)
Definition tick_sent (r : DownlinkReporter) : DownlinkReporter :=
  {| dr_sampler := dr_sampler r; dr_peerId := dr_peerId r; dr_intervalMs := dr_intervalMs r; dr_seq := dr_seq r;
     dr_timer := dr_timer r; dr_reporting := false; dr_consecutiveErrors := 0 |}.

(** The [catch] and [finally] blocks; the boolean says whether a warning is logged. *)
Definition tick_failed (r : DownlinkReporter) : DownlinkReporter * bool :=
  let errors := dr_consecutiveErrors r + 1 in
  ({| dr_sampler := dr_sampler r; dr_peerId := dr_peerId r; dr_intervalMs := dr_intervalMs r; dr_seq := dr_seq r;
      dr_timer := dr_timer r; dr_reporting := false; dr_consecutiveErrors := errors |},
   (errors <=? 3) || (errors mod 10 =? 0)).

(** ** Runs *)

Record system := {
  sys_heap : heap;
  sys_hints : DownlinkHints;
  sys_reporter : DownlinkReporter;
  (** Reports in flight. *)
  sys_pending : list pending;
  (** What [send] was given, oldest first. *)
  sys_sent : list jsval;
  (** The error counts that were logged. *)
  sys_warned : list Z;
}.

Inductive event :=
| EvStart | EvStop | EvReportNow
| EvTimer                                                     (** the interval timer fires, if armed *)
| EvStats (rawStats : option (list jsval)) (dateNow : num)    (** the statistics of the report in flight arrive *)
| EvSent                                                      (** its send is acknowledged *)
| EvFailed                                                    (** the statistics or the send are rejected *)
| EvHintSet (cid : string) (hint : jsval) | EvHintRemove (cid : string) | EvHintClear
| EvHintUpdate (cid key : string) (x : jsval).

Definition with_reporter (s : system) (r : DownlinkReporter) (p : list pending) : system :=
  {| sys_heap := sys_heap s; sys_hints := sys_hints s; sys_reporter := r; sys_pending := p;
     sys_sent := sys_sent s; sys_warned := sys_warned s |}.

Definition with_hints (s : system) (h : heap) (hs : DownlinkHints) : system :=
  {| sys_heap := h; sys_hints := hs; sys_reporter := sys_reporter s; sys_pending := sys_pending s;
     sys_sent := sys_sent s; sys_warned := sys_warned s |}.

Definition _tick (s : system) : system :=
  match tick_start (sys_hints s) (sys_reporter s) with
  | None => s
  | Some (r, p) => with_reporter s r (p :: sys_pending s)
  end.

Definition reportNow (s : system) : system := _tick s.

(** An event that nothing waits for has no effect. *)
Definition step (s : system) (e : event) : system :=
  match e with
  | EvStart => with_reporter s (start (sys_reporter s)) (sys_pending s)
  | EvStop => with_reporter s (stop (sys_reporter s)) (sys_pending s)
  | EvReportNow => reportNow s
  | EvTimer => if running (sys_reporter s) then _tick s else s
  | EvStats rawStats dateNow =>
      match sys_pending s with
      | AwaitStats nextSeq :: ps =>
          let '(r, snapshot) := tick_sampled (sys_heap s) (sys_reporter s) nextSeq rawStats dateNow in
          {| sys_heap := sys_heap s; sys_hints := sys_hints s; sys_reporter := r; sys_pending := AwaitSend :: ps;
             sys_sent := sys_sent s ++ [snapshot]; sys_warned := sys_warned s |}
      | _ => s
      end
  | EvSent =>
      match sys_pending s with
      | AwaitSend :: ps => with_reporter s (tick_sent (sys_reporter s)) ps
      | _ => s
      end
  | EvFailed =>
      match sys_pending s with
      | _ :: ps =>
          let '(r, warn) := tick_failed (sys_reporter s) in
          {| sys_heap := sys_heap s; sys_hints := sys_hints s; sys_reporter := r; sys_pending := ps; sys_sent := sys_sent s;
             sys_warned := if warn then sys_warned s ++ [dr_consecutiveErrors r] else sys_warned s |}
      | [] => s
      end
  | EvHintSet cid hint => let '(h, hs) := set (sys_heap s) (sys_hints s) cid hint in with_hints s h hs
  | EvHintRemove cid => with_hints s (sys_heap s) (remove (sys_hints s) cid)
  | EvHintClear => with_hints s (sys_heap s) (clear_hints (sys_hints s))
  | EvHintUpdate cid key x => with_hints s (update (sys_heap s) (sys_hints s) cid key x) (sys_hints s)
  end.

Definition initial (peerId : string) (intervalMs : num) : system :=
  {| sys_heap := []; sys_hints := new_hints; sys_reporter := new_reporter new_sampler peerId intervalMs;
     sys_pending := []; sys_sent := []; sys_warned := [] |}.

Definition run (peerId : string) (intervalMs : num) (es : list event) : system := foldl step (initial peerId intervalMs) es.

(** ** Invariant *)

Definition message_ok (m : jsval) : Prop :=
  parseDownlinkSnapshot m = Ok m ∧
  ∃ entries, js_get m "subscriptions" = JArr entries ∧ (length entries <= DOWNLINK_MAX_SUBSCRIPTIONS)%nat.

(** The report in flight, if any, is the only one, and the flag says so. *)
Definition in_flight_ok (s : system) : Prop :=
  match sys_pending s with
  | [] => dr_reporting (sys_reporter s) = false
  | [p] => dr_reporting (sys_reporter s) = true ∧ ∀ n, p = AwaitStats n → n = dr_seq (sys_reporter s)
  | _ => False
  end.

Definition is_object (v : jsval) : Prop := ∃ o, v = JObj o.

Record inv (s : system) : Prop := {
  inv_flight : in_flight_ok s;
  inv_seq : 0 <= dr_seq (sys_reporter s) <= DOWNLINK_MAX_SEQ;
  inv_keys : NoDup (map_keys (ds_hints (dr_sampler (sys_reporter s))));
  inv_hints : wf_hints (sys_heap s) (sys_hints s);
  inv_objects : Forall is_object (sys_heap s);
  inv_sent : Forall message_ok (sys_sent s);
}.

Lemma report_seq_range seq : 0 <= seq <= DOWNLINK_MAX_SEQ → 0 <= next_seq seq <= DOWNLINK_MAX_SEQ.
Proof. unfold next_seq. intros. destruct (Z.leb_spec DOWNLINK_MAX_SEQ seq); lia. Qed.

Lemma sync_hints_keys hs s : NoDup (map_keys (ds_hints s)) → NoDup (map_keys (ds_hints (sync_hints hs s))).
Proof.
  unfold sync_hints. generalize (getAll hs). intros l. revert s.
  induction l as [|e l IH]; intros s H; simpl; [done|]. apply IH. by apply map_set_NoDup.
Qed.

Lemma serialize_ok seq peer t subs now : 0 <= seq <= DOWNLINK_MAX_SEQ →
  message_ok (serializeDownlinkSnapshot seq peer t subs now).
Proof.
  intros. split; [by apply serialize_parses|]. eexists. split; [apply serialize_subscriptions|].
  rewrite length_map, length_take. lia.
Qed.

Lemma remember_hints s cid st : ds_hints (remember s cid st) = ds_hints s.
Proof. by destruct st. Qed.

Lemma sample_hints_keep h reports hints matched s : ds_hints (sample_hints h reports hints matched s).1 = ds_hints s.
Proof.
  revert matched s. induction hints as [|[cid l] hints IH]; intros matched s; [done|]. cbn [sample_hints].
  destruct (selectInboundReport _ _ _) as [c m].
  pose proof (IH m (remember s cid (c ≫= λ i, reports !! i))) as H. destruct (sample_hints _ _ _ _ _).
  cbn [fst] in *. by rewrite H, remember_hints.
Qed.

Lemma sample_keep h s raw : ds_hints (sample h s raw).1 = ds_hints s.
Proof.
  destruct raw; [|done]. cbn [sample]. pose proof (sample_hints_keep h (List.filter is_inbound l) (ds_hints s) [] s).
  by destruct (sample_hints _ _ _ _ _).
Qed.

Lemma update_objects h hs cid key x : Forall is_object h → Forall is_object (update h hs cid key x).
Proof.
  intros Ho. unfold update. destruct (map_get _ _) as [l|]; [|done]. unfold heap_set. revert l.
  induction Ho as [|v h [o ->] Hh IH]; intros [|l]; simpl; constructor; try done; [by eexists|by eexists|apply IH].
Qed.

Lemma tick_inv s : inv s → inv (_tick s).
Proof.
  intros [Hf Hs Hk Hh Ho Hm]. unfold _tick, tick_start. destruct (dr_reporting (sys_reporter s)) eqn:E; [done|].
  unfold in_flight_ok in Hf. destruct (sys_pending s) as [|p [|]] eqn:Ep; [|destruct Hf; congruence|done].
  split; cbn [with_reporter sys_reporter sys_heap sys_hints sys_sent dr_seq dr_sampler]; auto using report_seq_range, sync_hints_keys.
  unfold in_flight_ok. simpl. split; [done|]. by intros ? [= ->].
Qed.

Lemma step_inv s e : inv s → inv (step s e).
Proof.
  intros Hi. pose proof Hi as [Hf Hs Hk Hh Ho Hm].
  destruct e as [| | | |raw now| | |cid hint|cid| |cid key x]; cbn [step].
  - unfold start. destruct (dr_timer _); split; auto.
  - unfold stop. destruct (dr_timer _); split; auto.
  - by apply tick_inv.
  - destruct (running _); [by apply tick_inv|done].
  - unfold in_flight_ok in Hf. destruct (sys_pending s) as [|[n|] [|]] eqn:Ep; try done. destruct Hf as [Hr Hn].
    rewrite (Hn n eq_refl). unfold tick_sampled. pose proof (sample_keep (sys_heap s) (dr_sampler (sys_reporter s)) raw) as Hkeep.
    destruct (sample _ _ _) as [sm [t subs]]. cbn [fst] in Hkeep.
    split; cbn [sys_reporter set_sampler dr_seq dr_sampler sys_heap sys_hints sys_sent]; auto.
    + unfold in_flight_ok. simpl. split; [done|]. by intros ? [=].
    + by rewrite Hkeep.
    + apply Forall_app. split; [done|]. constructor; [by apply serialize_ok|constructor].
  - unfold in_flight_ok in Hf. destruct (sys_pending s) as [|[n|] [|]] eqn:Ep; try done; split; auto; done.
  - unfold in_flight_ok in Hf. destruct (sys_pending s) as [|p [|]] eqn:Ep; try done; split; auto; done.
  - pose proof (set_wf _ _ cid hint Hh). unfold set, alloc in *. split; auto.
    apply Forall_app. split; [done|]. constructor; [by eexists|constructor].
  - split; auto. by apply remove_wf.
  - split; auto. apply new_hints_wf.
  - split; auto; [by apply update_wf|by apply update_objects].
Qed.

Lemma run_app peer ms es es' : run peer ms (es ++ es') = foldl step (run peer ms es) es'.
Proof. apply foldl_app. Qed.

Lemma run_inv peer ms es : inv (run peer ms es).
Proof.
  induction es as [|e es IH] using rev_ind; [|rewrite run_app; by apply step_inv].
  split; try done; [apply NoDup_nil_2|apply new_hints_wf].
Qed.

(** C13: whatever the application, the timer and the network do, at most one
    report is in flight and the reporter is busy exactly while one is, so a failed
    report never wedges it; every message sent is a valid downlink snapshot with
    at most 64 subscriptions that parses back to itself. *)
Theorem reporter_safe peer ms es :
  let s := run peer ms es in
  (length (sys_pending s) <= 1)%nat ∧
  (dr_reporting (sys_reporter s) = true ↔ sys_pending s ≠ []) ∧
  Forall message_ok (sys_sent s).
Proof.
  cbv zeta. destruct (run_inv peer ms es) as [Hf _ _ _ _ Hm]. unfold in_flight_ok in Hf.
  destruct (sys_pending _) as [|p [|]]; simpl; [|destruct Hf as [-> _]|done]; split_and!; try done; try lia.
  by rewrite Hf.
Qed.

(** ** Sequence numbers *)

Record seq_inv (k : Z) (s : system) (zs : list Z) : Prop := {
  si_sent : map (λ m, js_get m "seq") (sys_sent s) = map js_int zs;
  si_sorted : StronglySorted Z.lt zs;
  si_bound : Forall (λ z, z <= dr_seq (sys_reporter s)) zs;
  si_fresh : ∀ n ps, sys_pending s = AwaitStats n :: ps → Forall (λ z, z < n) zs;
  si_count : dr_seq (sys_reporter s) <= k;
}.

Lemma sorted_snoc zs z : StronglySorted Z.lt zs → Forall (λ x, x < z) zs → StronglySorted Z.lt (zs ++ [z]).
Proof.
  induction 1 as [|x zs H IH Hx]; intros Hz; simpl; [repeat constructor|]. inv Hz. constructor; [auto|].
  apply Forall_app. split; [done|]. by constructor.
Qed.

Lemma tick_seq k s zs : k < DOWNLINK_MAX_SEQ → inv s → seq_inv k s zs → seq_inv (k + 1) (_tick s) zs.
Proof.
  intros Hk Hi [H1 H2 H3 H4 H5]. unfold _tick, tick_start.
  destruct (dr_reporting _) eqn:E; [split; auto with lia|]. unfold next_seq.
  destruct (Z.leb_spec DOWNLINK_MAX_SEQ (dr_seq (sys_reporter s))); [lia|].
  split; cbn [with_reporter sys_reporter sys_sent sys_pending dr_seq]; auto; try lia.
  - eapply Forall_impl; [exact H3|]. simpl. lia.
  - intros n ps [= <- _]. eapply Forall_impl; [exact H3|]. simpl. lia.
Qed.

Lemma step_seq k s e zs : k < DOWNLINK_MAX_SEQ → inv s → seq_inv k s zs →
  ∃ zs', seq_inv (k + 1) (step s e) zs'.
Proof.
  intros Hk Hi Hz. pose proof (inv_flight _ Hi) as Hf. pose proof Hz as [H1 H2 H3 H4 H5].
  destruct e as [| | | |raw now| | |cid hint|cid| |cid key x]; cbn [step].
  - exists zs. unfold start. destruct (dr_timer _); split; auto; simpl; lia.
  - exists zs. unfold stop. destruct (dr_timer _); split; auto; simpl; lia.
  - exists zs. by apply tick_seq.
  - exists zs. destruct (running _); [by apply tick_seq|]. split; auto with lia.
  - unfold in_flight_ok in Hf. destruct (sys_pending s) as [|[n|] [|]] eqn:Ep; try done;
      try (exists zs; split; [done..|by rewrite Ep|lia]).
    destruct Hf as [_ Hn]. specialize (H4 n [] eq_refl). unfold tick_sampled.
    destruct (sample _ _ _) as [sm [t subs]]. exists (zs ++ [n]).
    split; cbn [sys_reporter set_sampler dr_seq sys_sent sys_pending]; try done; try lia.
    + rewrite !map_app, H1. reflexivity.
    + by apply sorted_snoc.
    + apply Forall_app. split; [done|]. constructor; [|constructor]. rewrite (Hn n eq_refl). lia.
  - exists zs. unfold in_flight_ok in Hf. destruct (sys_pending s) as [|[n|] [|]] eqn:Ep; try done;
      split; cbn; auto; try lia; try (by rewrite Ep); by intros ?? [=].
  - exists zs. unfold in_flight_ok in Hf. destruct (sys_pending s) as [|p [|]] eqn:Ep; try done;
      split; cbn; auto; try lia; try (by rewrite Ep); by intros ?? [=].
  - exists zs. destruct (set _ _ _ _). split; auto; simpl; lia.
  - exists zs. split; auto; simpl; lia.
  - exists zs. split; auto; simpl; lia.
  - exists zs. split; auto; simpl; lia.
Qed.

(** The messages sent carry strictly increasing sequence numbers, failed
    reports leaving gaps, until the counter wraps after 2^53 - 1 ticks. *)
Theorem report_seq_increasing peer ms es :
  Z.of_nat (length es) <= DOWNLINK_MAX_SEQ →
  ∃ zs, map (λ m, js_get m "seq") (sys_sent (run peer ms es)) = map js_int zs ∧ StronglySorted Z.lt zs.
Proof.
  intros Hl. enough (∃ zs, seq_inv (Z.of_nat (length es)) (run peer ms es) zs) as (zs & H) by (exists zs; by destruct H).
  revert Hl. induction es as [|e es IH] using rev_ind; intros Hl.
  { exists []. split; try done; constructor. }
  rewrite length_app in *. simpl in *. destruct IH as [zs IH]; [lia|]. rewrite run_app. simpl.
  replace (Z.of_nat (length es + 1)) with (Z.of_nat (length es) + 1) by lia.
  eapply step_seq; [lia|apply run_inv|exact IH].
Qed.

Definition demo_run : list event :=
  [EvHintSet "c1" (JObj [("producerId", JStr "p1")]); EvStart; EvTimer; EvReportNow;
   EvStats (Some []) (num_of_Z 1000); EvSent; EvTimer; EvFailed; EvTimer; EvStats None (num_of_Z 5000)].

Lemma report_seq_increasing_witness :
  (∃ zs, map (λ m, js_get m "seq") (sys_sent (run "peer" (num_of_Z 2000) demo_run)) = map js_int zs ∧ StronglySorted Z.lt zs) ∧
  map (λ m, js_get m "seq") (sys_sent (run "peer" (num_of_Z 2000) demo_run)) = [js_int 1; js_int 3].
Proof. split; [apply report_seq_increasing; vm_compute; congruence|vm_compute; reflexivity]. Defined.

(** ** Hints that change while a report waits *)

(** The sampler holds the application's own hint objects, so a hint changed
    while a report waits for its statistics is the one that report sends. *)
Theorem pending_report_sends_new_hint peer ms es n k cid l visible raw now :
  let s := run peer ms es in
  sys_pending s = [AwaitStats n] →
  ds_hints (dr_sampler (sys_reporter s)) !! k = Some (cid, l) →
  get (sys_hints s) cid = Some l → (k < DOWNLINK_MAX_SUBSCRIPTIONS)%nat →
  let s' := foldl step s [EvHintUpdate cid "visible" (JBool (truthy visible)); EvStats (Some raw) now] in
  ∃ m entries e, last (sys_sent s') = Some m ∧ js_get m "subscriptions" = JArr entries ∧ entries !! k = Some e ∧
    js_get e "consumerId" = JStr cid ∧ js_get e "visible" = JBool (truthy visible).
Proof.
  cbv zeta. set (s := run peer ms es). intros Hp Hk Hg Hlt. pose proof (run_inv peer ms es) as [_ _ Hn Hwf Ho _].
  fold s in Hn, Hwf, Ho. cbn [foldl step with_hints sys_pending sys_heap sys_reporter]. rewrite Hp.
  set (h := update _ _ _ _ _). unfold tick_sampled, sample.
  destruct (sample_hints_spec h (List.filter is_inbound raw) _ [] (dr_sampler (sys_reporter s)) Hn) as (cs & Ha & Hsub & _).
  destruct (sample_hints _ _ _ _ _) as [sm subs]. cbn [fst snd] in Hsub. subst subs. cbn [sys_sent].
  pose proof (assigned_length _ _ _ _ _ Ha) as Hlen.
  destruct (lookup_lt_is_Some_2 cs k) as [c Hc]; [rewrite Hlen; by apply lookup_lt_Some in Hk|].
  eexists _, _, (subscription_entry (entry_of h (List.filter is_inbound raw) (dr_sampler (sys_reporter s)) cid l c)).
  split; [apply last_snoc|]. split; [apply serialize_subscriptions|].
  split; [rewrite map_fmap, list_lookup_fmap, lookup_take_lt by done; rewrite lookup_zip_with, Hk; cbn [mbind option_bind]; rewrite Hc; reflexivity|].
  destruct (entry_fixed (entry_of h (List.filter is_inbound raw) (dr_sampler (sys_reporter s)) cid l c)) as [-> ->].
  split; [reflexivity|].
  assert (js_get (deref h l) "visible" = JBool (truthy visible)) as Hv.
  { subst h. rewrite (update_deref _ _ _ _ _ Hwf cid l Hg), decide_True by done.
    assert ((l < length (sys_heap s))%nat) as Hl.
    { pose proof (wfh_alloc _ _ Hwf) as H. rewrite Forall_forall in H. apply map_get_elem in Hg. apply (H _ Hg). }
    destruct (lookup_lt_is_Some_2 _ _ Hl) as [v Hv]. unfold deref. rewrite Hv. rewrite Forall_forall in Ho.
    destruct (Ho v) as [o ->]; [by eapply list_elem_of_lookup_2|]. apply js_get_set_eq. }
  change (js_get (entry_of h (List.filter is_inbound raw) (dr_sampler (sys_reporter s)) cid l c) "visible")
    with (JBool (truthy (js_get (deref h l) "visible"))).
  by rewrite Hv.
Qed.

Definition waiting_run : list event :=
  [EvHintSet "c1" (JObj [("producerId", JStr "p1")]); EvHintSet "c2" (JObj [("producerId", JStr "p2"); ("kind", JStr "audio")]);
   EvReportNow].

Lemma pending_report_sends_new_hint_witness :
  ∃ m entries e,
    last (sys_sent (foldl step (run "peer" (num_of_Z 2000) waiting_run)
      [EvHintUpdate "c2" "visible" (JBool false); EvStats (Some []) (num_of_Z 1000)])) = Some m ∧
    js_get m "subscriptions" = JArr entries ∧ entries !! 1%nat = Some e ∧
    js_get e "consumerId" = JStr "c2" ∧ js_get e "visible" = JBool false.
Proof.
  apply (pending_report_sends_new_hint "peer" (num_of_Z 2000) waiting_run 1 1 "c2" 1 (JBool false) [] (num_of_Z 1000));
    [reflexivity..|]. apply Nat.ltb_lt. reflexivity.
Defined.

(** ** Hints the application removed

    The reporter only adds hints to the sampler: a consumer removed from the hint
    store goes on being reported, with the hint it last had. *)
Lemma removed_hint_still_reported :
  let s := run "peer" (num_of_Z 2000)
    (waiting_run ++ [EvStats (Some []) (num_of_Z 1000); EvSent; EvHintRemove "c1"; EvHintClear;
                     EvReportNow; EvStats (Some []) (num_of_Z 3000)]) in
  getAll (sys_hints s) = [] ∧
  ∃ m entries, last (sys_sent s) = Some m ∧ js_get m "subscriptions" = JArr entries ∧
    map (λ e, js_get e "consumerId") entries = [JStr "c1"; JStr "c2"].
Proof. split; [reflexivity|]. eexists _, _. split; [vm_compute; reflexivity|]. split; reflexivity. Qed.
