(* ===== verification/ScalabilityModes.v ===== *)
(** * Scalability modes (src/client/lib/scalabilityModes.js)

    [^[LS]([1-9]\d{0,1})T([1-9]\d{0,1})] over the characters of the mode; the
    argument is a string or missing. *)

From stdpp Require Import pretty.
From S2P Require Import Prelude.
From Stdlib Require Import Ascii.
Local Open Scope char_scope.
Local Open Scope list_scope.
Local Open Scope Z_scope.

Record layers := {
  spatialLayers : Z;
  temporalLayers : Z;
}.

Definition digit_value (c : ascii) : option Z :=
  let n := Z.of_nat (nat_of_ascii c) in
  if (48 <=? n) && (n <=? 57) then Some (n - 48) else None.

(** [[1-9]\d{0,1}]: the number and the rest. *)
Definition layer_count (l : list ascii) : option (Z * list ascii) :=
  match l with
  | c :: rest =>
      match digit_value c with
      | Some d =>
          if d =? 0 then None
          else match rest with
               | c' :: rest' =>
                   match digit_value c' with
                   | Some d' => Some (10 * d + d', rest')
                   | None => Some (d, rest)
                   end
               | [] => Some (d, [])
               end
      | None => None
      end
  | [] => None
  end.

Definition one_layer : layers := {| spatialLayers := 1; temporalLayers := 1 |}.

Definition parse (scalabilityMode : option string) : layers :=
  match String.list_ascii_of_string (default EmptyString scalabilityMode) with
  | c :: l =>
      if Ascii.eqb c "L" || Ascii.eqb c "S" then
        match layer_count l with
        | Some (s, "T" :: l) =>
            match layer_count l with
            | Some (t, _) => {| spatialLayers := s; temporalLayers := t |}
            | None => one_layer
            end
        | _ => one_layer
        end
      else one_layer
  | [] => one_layer
  end.

Lemma layer_count_range l n rest : layer_count l = Some (n, rest) → 1 <= n <= 99.
Proof.
  unfold layer_count, digit_value. destruct l as [|c l]; [done|].
  destruct (_ && _) eqn:E; [|done]. destruct (_ =? 0) eqn:E0; [done|]. apply andb_true_iff in E as [E1 E2].
  destruct l as [|c' l]; [intros [= <- _]; zlia|].
  destruct (_ && _) eqn:E'; [apply andb_true_iff in E' as [? ?]|]; intros [= <- _]; zlia.
Qed.

(** The mode [prefix<s>T<t>suffix]. *)
Definition mode (prefix : ascii) (s t : nat) (suffix : string) : string :=
  String prefix (pretty s ++ String "T" (pretty t ++ suffix)).

#[export] Instance layers_eq_dec : EqDecision layers.
Proof. solve_decision. Defined.

(** All modes with up to 99 layers each, the [_KEY] variants included. *)
Definition modes_parse : bool :=
  forallb (λ s, forallb (λ t, forallb (λ p, forallb (λ suffix,
    bool_decide (parse (Some (mode p s t suffix)) = {| spatialLayers := Z.of_nat s; temporalLayers := Z.of_nat t |}))
    ["" ; "_KEY"]%string) ["L"; "S"]) (seq 1 99)) (seq 1 99).

Lemma modes_parse_true : modes_parse = true.
Proof. vm_compute. reflexivity. Qed.

(** Parsing a scalability mode always yields between 1 and 99 layers of each
    kind, and recovers the layer counts of every mode it can express. *)
Theorem scalability_modes_parse :
  (∀ m, 1 <= spatialLayers (parse m) <= 99 ∧ 1 <= temporalLayers (parse m) <= 99) ∧
  ∀ p s t suffix, p ∈ ["L"; "S"] → (1 <= s <= 99)%nat → (1 <= t <= 99)%nat → suffix ∈ [""; "_KEY"]%string →
    parse (Some (mode p s t suffix)) = {| spatialLayers := Z.of_nat s; temporalLayers := Z.of_nat t |}.
Proof.
  split.
  - intros m. unfold parse. destruct (String.list_ascii_of_string _) as [|c l]; [done|]. destruct (_ || _); [|done].
    destruct (layer_count l) as [[s l']|] eqn:E1; [|done]. apply layer_count_range in E1.
    destruct l' as [|c' l']; [done|]. destruct (decide (c' = "T")) as [->|Hne].
    + destruct (layer_count l') as [[t l'']|] eqn:E2; [|done]. apply layer_count_range in E2. done.
    + by destruct c' as [[] [] [] [] [] [] [] []].
  - intros p s t suffix Hp Hs Ht Hx. pose proof modes_parse_true as H. unfold modes_parse in H.
    rewrite forallb_forall in H. specialize (H s). rewrite in_seq, forallb_forall in H.
    specialize (H ltac:(lia) t). rewrite in_seq, forallb_forall in H. specialize (H ltac:(lia) p).
    rewrite forallb_forall in H. specialize (H (proj1 (list_elem_of_In _ _) Hp) suffix (proj1 (list_elem_of_In _ _) Hx)).
    by apply bool_decide_eq_true in H.
Qed.

Lemma scalability_modes_parse_witness :
  parse (Some "L3T3_KEY"%string) = {| spatialLayers := 3; temporalLayers := 3 |} ∧ 1 <= spatialLayers (parse None) <= 99.
Proof.
  destruct scalability_modes_parse as [H1 H2]. split; [|apply H1].
  apply (H2 "L" 3%nat 3%nat "_KEY"%string); [left|lia|lia|right; left].
Defined.
