(* ===== verification/OrtcValidate.v ===== *)
(** * ORTC validators (src/client/lib/ortc.js)

    The validators check RTP and SCTP dictionaries and fill in missing fields in
    place.  A validator is a function from the value to the mutated value, or the
    exception; what a throwing validator has already changed is abandoned, as the
    library validates clones.  An array in place of a dictionary has no named
    properties in the model, so defaults set on one are lost.  Regular
    expressions and [toLowerCase] are modelled on ASCII letters.  Of a message
    that interpolates the offending value only the fixed part is kept. *)

From Stdlib Require Import QArith.
From S2P Require Import Prelude JsNum JsVal.
From Stdlib Require Import Ascii.
Local Open Scope string_scope.
Local Open Scope list_scope.
Local Open Scope Z_scope.

(** ** Guards and defaults *)

(** [typeof v !== t]. *)
Definition not_type (v : jsval) (t : string) : bool := negb (String.eqb (js_typeof v) t).

(** [typeof v !== 'object'] throws; so does reading a property of [null]. *)
Definition need_object (v : jsval) (msg : string) : outcome unit :=
  if not_type v "object" then Throw msg
  else match v with JNull => Throw "Cannot read properties of null" | _ => Ok tt end.

(** [if (v.key && typeof v.key !== t) throw]. *)
Definition optional_type (v : jsval) (key t msg : string) : outcome unit :=
  throw_if (truthy (js_get v key) && not_type (js_get v key) t) msg.

(** [if (!v.key || typeof v.key !== t) throw]. *)
Definition mandatory_type (v : jsval) (key t msg : string) : outcome unit :=
  throw_if (negb (truthy (js_get v key)) || not_type (js_get v key) t) msg.

(** [if (typeof v.key !== t) throw]. *)
Definition need_type (v : jsval) (key t msg : string) : outcome unit :=
  throw_if (not_type (js_get v key) t) msg.

(** [if (c) v.key = d]. *)
Definition set_if (c : bool) (v : jsval) (key : string) (d : jsval) : jsval :=
  if c then js_set v key d else v.

(** A property that must be an array, if set; else an empty one. *)
Definition optional_array (v : jsval) (key msg : string) : outcome jsval :=
  _ ← throw_if (truthy (js_get v key) && negb (is_array (js_get v key))) msg;
  Ok (set_if (negb (truthy (js_get v key))) v key (JArr [])).

(** [for (const x of v.key) body(x)]. *)
Definition for_each (body : jsval → outcome jsval) (v : jsval) (key : string) : outcome jsval :=
  match js_get v key with
  | JArr l => l' ← traverse body l; Ok (js_set v key (JArr l'))
  | _ => Ok v
  end.

(** ** MIME types *)

Definition lower_ascii (c : ascii) : ascii :=
  let n := nat_of_ascii c in
  if ((65 <=? n) && (n <=? 90))%nat then ascii_of_nat (n + 32) else c.

(** [toLowerCase]. *)
Fixpoint toLowerCase (s : string) : string :=
  match s with
  | EmptyString => EmptyString
  | String c s => String (lower_ascii c) (toLowerCase s)
  end.

(** A character [.] matches. *)
Definition not_newline (c : ascii) : bool :=
  let n := nat_of_ascii c in negb ((n =? 10) || (n =? 13))%nat.

(** [^(audio|video)/(.+)] with the [i] flag: the lower-case first group. *)
Definition mime_kind (s : string) : option string :=
  match toLowerCase (String.substring 0 6 s), String.substring 6 1 s with
  | "audio/", String c _ => if not_newline c then Some "audio" else None
  | "video/", String c _ => if not_newline c then Some "video" else None
  | _, _ => None
  end.

(** [/.+\/rtx$/i]. *)
Definition is_rtx_mime (s : string) : bool :=
  let n := String.length s in
  String.eqb (toLowerCase (String.substring (n - 4) 4 s)) "/rtx" &&
  (5 <=? n)%nat &&
  match String.substring (n - 5) 1 s with String c _ => not_newline c | _ => false end.

(** ** Validators *)

Definition validateRtcpFeedback (fb : jsval) : outcome jsval :=
  _ ← need_object fb "fb is not an object";
  _ ← mandatory_type fb "type" "string" "missing fb.type";
  Ok (set_if (negb (truthy (js_get fb "parameter")) || not_type (js_get fb "parameter") "string") fb "parameter" (JStr "")).

(** A codec or header extension parameter: [undefined] becomes the empty string. *)
Definition validate_parameter (apt : bool) (msg : string) (key : string) (value : jsval) : outcome jsval :=
  let value := if is_undefined value then JStr "" else value in
  _ ← throw_if (not_type value "string" && not_type value "number") msg;
  _ ← throw_if (apt && String.eqb key "apt" && not_type value "number") "invalid codec apt parameter";
  Ok value.

(** The loop over [Object.keys(parameters)]. *)
Definition validate_parameters (apt : bool) (msg : string) (parameters : jsval) : outcome jsval :=
  match parameters with
  | JObj o => o' ← traverse (λ e, x ← validate_parameter apt msg e.1 e.2; Ok (e.1, x)) o; Ok (JObj o')
  | JArr l => l' ← traverse (validate_parameter false msg "") l; Ok (JArr l')
  | v => Ok v
  end.

(** [parameters]: an empty object unless it is one, then the loop. *)
Definition fill_parameters (apt : bool) (msg : string) (v : jsval) : outcome jsval :=
  let v := set_if (negb (truthy (js_get v "parameters")) || not_type (js_get v "parameters") "object") v
             "parameters" (JObj []) in
  p ← validate_parameters apt msg (js_get v "parameters");
  Ok (js_set v "parameters" p).

(** Channels, parameters and feedback of a codec, the same for capabilities and
    parameters. *)
Definition fill_codec (kind : string) (codec : jsval) : outcome jsval :=
  let codec :=
    if String.eqb kind "audio"
    then set_if (not_type (js_get codec "channels") "number") codec "channels" (js_int 1)
    else js_delete codec "channels" in
  codec ← fill_parameters true "invalid codec parameter" codec;
  let codec := set_if (negb (truthy (js_get codec "rtcpFeedback")) || negb (is_array (js_get codec "rtcpFeedback")))
                 codec "rtcpFeedback" (JArr []) in
  for_each validateRtcpFeedback codec "rtcpFeedback".

(** The kind of a codec's MIME type. *)
Definition codec_kind (codec : jsval) : outcome string :=
  _ ← mandatory_type codec "mimeType" "string" "missing codec.mimeType";
  match js_get codec "mimeType" with
  | JStr s => match mime_kind s with Some k => Ok k | None => Throw "invalid codec.mimeType" end
  | _ => Throw "missing codec.mimeType"
  end.

Definition validateRtpCodecCapability (codec : jsval) : outcome jsval :=
  _ ← need_object codec "codec is not an object";
  kind ← codec_kind codec;
  let codec := js_set codec "kind" (JStr kind) in
  _ ← optional_type codec "preferredPayloadType" "number" "invalid codec.preferredPayloadType";
  _ ← need_type codec "clockRate" "number" "missing codec.clockRate";
  fill_codec kind codec.

Definition validateRtpCodecParameters (codec : jsval) : outcome jsval :=
  _ ← need_object codec "codec is not an object";
  kind ← codec_kind codec;
  _ ← need_type codec "payloadType" "number" "missing codec.payloadType";
  _ ← need_type codec "clockRate" "number" "missing codec.clockRate";
  fill_codec kind codec.

Definition validateRtpHeaderExtension (ext : jsval) : outcome jsval :=
  _ ← need_object ext "ext is not an object";
  _ ← throw_if (negb (is_str (js_get ext "kind") "audio") && negb (is_str (js_get ext "kind") "video")) "invalid ext.kind";
  _ ← mandatory_type ext "uri" "string" "missing ext.uri";
  _ ← need_type ext "preferredId" "number" "missing ext.preferredId";
  _ ← optional_type ext "preferredEncrypt" "boolean" "invalid ext.preferredEncrypt";
  let ext := set_if (negb (truthy (js_get ext "preferredEncrypt"))) ext "preferredEncrypt" (JBool false) in
  _ ← optional_type ext "direction" "string" "invalid ext.direction";
  Ok (set_if (negb (truthy (js_get ext "direction"))) ext "direction" (JStr "sendrecv")).

Definition validateRtpHeaderExtensionParameters (ext : jsval) : outcome jsval :=
  _ ← need_object ext "ext is not an object";
  _ ← mandatory_type ext "uri" "string" "missing ext.uri";
  _ ← need_type ext "id" "number" "missing ext.id";
  _ ← optional_type ext "encrypt" "boolean" "invalid ext.encrypt";
  let ext := set_if (negb (truthy (js_get ext "encrypt"))) ext "encrypt" (JBool false) in
  fill_parameters false "invalid header extension parameter" ext.

Definition validateRtpEncodingParameters (encoding : jsval) : outcome jsval :=
  _ ← need_object encoding "encoding is not an object";
  _ ← optional_type encoding "ssrc" "number" "invalid encoding.ssrc";
  _ ← optional_type encoding "rid" "string" "invalid encoding.rid";
  _ ← optional_type encoding "rtx" "object" "invalid encoding.rtx";
  _ ← throw_if (truthy (js_get encoding "rtx") && not_type (js_get (js_get encoding "rtx") "ssrc") "number")
        "missing encoding.rtx.ssrc";
  let encoding := set_if (negb (truthy (js_get encoding "dtx")) || not_type (js_get encoding "dtx") "boolean")
                    encoding "dtx" (JBool false) in
  _ ← optional_type encoding "scalabilityMode" "string" "invalid encoding.scalabilityMode";
  Ok encoding.

Definition validateRtcpParameters (rtcp : jsval) : outcome jsval :=
  _ ← need_object rtcp "rtcp is not an object";
  _ ← optional_type rtcp "cname" "string" "invalid rtcp.cname";
  Ok (set_if (negb (truthy (js_get rtcp "reducedSize")) || not_type (js_get rtcp "reducedSize") "boolean")
        rtcp "reducedSize" (JBool true)).

Definition validateNumSctpStreams (numStreams : jsval) : outcome unit :=
  _ ← need_object numStreams "numStreams is not an object";
  _ ← need_type numStreams "OS" "number" "missing numStreams.OS";
  need_type numStreams "MIS" "number" "missing numStreams.MIS".

Definition validateSctpCapabilities (caps : jsval) : outcome jsval :=
  _ ← need_object caps "caps is not an object";
  _ ← mandatory_type caps "numStreams" "object" "missing caps.numStreams";
  _ ← validateNumSctpStreams (js_get caps "numStreams");
  Ok caps.

Definition validateRtpCapabilities (caps : jsval) : outcome jsval :=
  _ ← need_object caps "caps is not an object";
  caps ← optional_array caps "codecs" "caps.codecs is not an array";
  caps ← for_each validateRtpCodecCapability caps "codecs";
  caps ← optional_array caps "headerExtensions" "caps.headerExtensions is not an array";
  for_each validateRtpHeaderExtension caps "headerExtensions".

Definition validateRtpParameters (params : jsval) : outcome jsval :=
  _ ← need_object params "params is not an object";
  _ ← optional_type params "mid" "string" "params.mid is not a string";
  _ ← throw_if (negb (is_array (js_get params "codecs"))) "missing params.codecs";
  params ← for_each validateRtpCodecParameters params "codecs";
  params ← optional_array params "headerExtensions" "params.headerExtensions is not an array";
  params ← for_each validateRtpHeaderExtensionParameters params "headerExtensions";
  params ← optional_array params "encodings" "params.encodings is not an array";
  params ← for_each validateRtpEncodingParameters params "encodings";
  _ ← optional_type params "rtcp" "object" "params.rtcp is not an object";
  let params := set_if (negb (truthy (js_get params "rtcp"))) params "rtcp" (JObj []) in
  rtcp ← validateRtcpParameters (js_get params "rtcp");
  Ok (js_set params "rtcp" rtcp).

Definition validateSctpStreamParameters (params : jsval) : outcome jsval :=
  _ ← need_object params "params is not an object";
  _ ← need_type params "streamId" "number" "missing params.streamId";
  let orderedGiven := String.eqb (js_typeof (js_get params "ordered")) "boolean" in
  let params := set_if (negb orderedGiven) params "ordered" (JBool true) in
  _ ← optional_type params "maxPacketLifeTime" "number" "invalid params.maxPacketLifeTime";
  _ ← optional_type params "maxRetransmits" "number" "invalid params.maxRetransmits";
  _ ← throw_if (truthy (js_get params "maxPacketLifeTime") && truthy (js_get params "maxRetransmits"))
        "cannot provide both maxPacketLifeTime and maxRetransmits";
  let partial := truthy (js_get params "maxPacketLifeTime") || truthy (js_get params "maxRetransmits") in
  _ ← throw_if (orderedGiven && truthy (js_get params "ordered") && partial)
        "cannot be ordered with maxPacketLifeTime or maxRetransmits";
  let params := set_if (negb orderedGiven && partial) params "ordered" (JBool false) in
  _ ← optional_type params "label" "string" "invalid params.label";
  _ ← optional_type params "protocol" "string" "invalid params.protocol";
  Ok params.

Example mime_kinds :
  map mime_kind ["audio/opus"; "Video/VP8"; "video/"; "text/plain"; "xvideo/VP8"] =
  [Some "audio"; Some "video"; None; None; None] ∧
  map is_rtx_mime ["video/rtx"; "VIDEO/RTX"; "/rtx"; "video/rtx2"; "rtx"] = [true; true; false; false; false].
Proof. split; reflexivity. Qed.

(** ** Reading after writing *)

Definition is_obj (v : jsval) : bool := match v with JObj _ => true | _ => false end.

Lemma is_obj_set v k x : is_obj (js_set v k x) = is_obj v.
Proof. by destruct v. Qed.
Lemma is_obj_delete v k : is_obj (js_delete v k) = is_obj v.
Proof. by destruct v. Qed.
Lemma is_obj_set_if c v k x : is_obj (set_if c v k x) = is_obj v.
Proof. destruct c; [apply is_obj_set|done]. Qed.

Lemma get_set_same v k x : is_obj v = true → js_get (js_set v k x) k = x.
Proof. destruct v; try done. intros _. apply js_get_set_eq. Qed.

Lemma get_set_if_ne c v k k' x : k ≠ k' → js_get (set_if c v k x) k' = js_get v k'.
Proof. intros. destruct c; [by apply js_get_set_ne|done]. Qed.

Lemma get_set_if_same c v k x : is_obj v = true → js_get (set_if c v k x) k = if c then x else js_get v k.
Proof. intros. destruct c; [by apply get_set_same|done]. Qed.

Lemma has_delete v k : js_has (js_delete v k) k = false.
Proof. destruct v; try done. simpl. by rewrite map_get_delete_eq. Qed.

Lemma has_set_ne v k k' x : k ≠ k' → js_has (js_set v k x) k' = js_has v k'.
Proof. intros. destruct v; try done. simpl. by rewrite map_get_set_ne. Qed.

Lemma has_set_if_ne c v k k' x : k ≠ k' → js_has (set_if c v k x) k' = js_has v k'.
Proof. intros. destruct c; [by apply has_set_ne|done]. Qed.

Lemma delete_absent v k : js_has v k = false → js_delete v k = v.
Proof. destruct v; try done. simpl. destruct (map_get o k) eqn:E; [done|]. intros _. by rewrite map_delete_id. Qed.

Hint Rewrite is_obj_set is_obj_delete is_obj_set_if has_delete : js.
Hint Rewrite js_get_set_ne js_get_delete_ne get_set_if_ne has_set_ne has_set_if_ne using discriminate : js.

(** Reads through a chain of writes to other keys, or to this one of an object. *)
Ltac js_read :=
  repeat first
    [ progress autorewrite with js in *
    | rewrite get_set_same in * by (autorewrite with js; assumption)
    | rewrite get_set_if_same in * by (autorewrite with js; assumption) ].

(** ** Normal forms *)

Definition is_type (v : jsval) (t : string) : bool := String.eqb (js_typeof v) t.

(** [v] is falsy or has type [t]. *)
Definition opt_type (v : jsval) (t : string) : bool := negb (truthy v) || is_type v t.

Definition nonempty_string (v : jsval) : bool := truthy v && is_type v "string".

Definition array_all (p : jsval → bool) (v : jsval) : bool :=
  match v with JArr l => forallb p l | _ => false end.

Definition wf_feedback (fb : jsval) : bool :=
  is_obj fb && nonempty_string (js_get fb "type") && is_type (js_get fb "parameter") "string".

Definition wf_parameter (apt : bool) (key : string) (x : jsval) : bool :=
  (is_type x "string" || is_type x "number") && (negb (apt && String.eqb key "apt") || is_type x "number").

Definition wf_parameters (apt : bool) (v : jsval) : bool :=
  match v with
  | JObj o => forallb (λ e, wf_parameter apt e.1 e.2) o
  | JArr l => forallb (wf_parameter false "") l
  | _ => false
  end.

(** The part of a codec dictionary that capabilities and parameters share: the
    MIME type has kind [k], audio codecs have a channel count and video codecs
    none. *)
Definition wf_codec (k : string) (c : jsval) : bool :=
  is_obj c && is_type (js_get c "clockRate") "number" &&
  (if String.eqb k "audio" then is_type (js_get c "channels") "number" else negb (js_has c "channels")) &&
  wf_parameters true (js_get c "parameters") && array_all wf_feedback (js_get c "rtcpFeedback").

Definition mime_of (c : jsval) : option string :=
  match js_get c "mimeType" with JStr s => mime_kind s | _ => None end.

Definition wf_codec_capability (c : jsval) : bool :=
  match mime_of c with
  | Some k => wf_codec k c && is_str (js_get c "kind") k && opt_type (js_get c "preferredPayloadType") "number"
  | None => false
  end.

Definition wf_codec_parameters (c : jsval) : bool :=
  match mime_of c with
  | Some k => wf_codec k c && is_type (js_get c "payloadType") "number"
  | None => false
  end.

Definition wf_extension (e : jsval) : bool :=
  is_obj e && (is_str (js_get e "kind") "audio" || is_str (js_get e "kind") "video") &&
  nonempty_string (js_get e "uri") && is_type (js_get e "preferredId") "number" &&
  is_type (js_get e "preferredEncrypt") "boolean" && nonempty_string (js_get e "direction").

Definition wf_extension_parameters (e : jsval) : bool :=
  is_obj e && nonempty_string (js_get e "uri") && is_type (js_get e "id") "number" &&
  is_type (js_get e "encrypt") "boolean" && wf_parameters false (js_get e "parameters").

Definition wf_encoding (e : jsval) : bool :=
  is_obj e && opt_type (js_get e "ssrc") "number" && opt_type (js_get e "rid") "string" &&
  (negb (truthy (js_get e "rtx")) ||
   is_type (js_get e "rtx") "object" && is_type (js_get (js_get e "rtx") "ssrc") "number") &&
  is_type (js_get e "dtx") "boolean" && opt_type (js_get e "scalabilityMode") "string".

Definition wf_rtcp (r : jsval) : bool :=
  is_obj r && opt_type (js_get r "cname") "string" && is_true (js_get r "reducedSize").

Definition wf_capabilities (caps : jsval) : bool :=
  is_obj caps && array_all wf_codec_capability (js_get caps "codecs") &&
  array_all wf_extension (js_get caps "headerExtensions").

Definition wf_rtp_parameters (p : jsval) : bool :=
  is_obj p && opt_type (js_get p "mid") "string" && array_all wf_codec_parameters (js_get p "codecs") &&
  array_all wf_extension_parameters (js_get p "headerExtensions") &&
  array_all wf_encoding (js_get p "encodings") && wf_rtcp (js_get p "rtcp").

(** ** Validators are normalisers *)

(** What a validator promises the code after it: it leaves a dictionary in normal
    form alone and returns only such dictionaries. *)
Class Normaliser (f : jsval → outcome jsval) (wf : jsval → bool) : Prop := {
  norm_wf v v' : is_array v = false → f v = Ok v' → wf v' = true;
  norm_id v : wf v = true → f v = Ok v;
}.

(** Moreover it rejects arrays. *)
Class StrictNormaliser (f : jsval → outcome jsval) (wf : jsval → bool) : Prop := {
  strict_norm :: Normaliser f wf;
  norm_array l : is_ok (f (JArr l)) = false;
}.

Lemma ok_if b msg : (throw_if (negb b) msg = Ok tt) ↔ b = true.
Proof. by destruct b. Qed.

Lemma optional_type_ok v k t msg u : optional_type v k t msg = Ok u ↔ opt_type (js_get v k) t = true.
Proof.
  unfold optional_type, throw_if, opt_type, not_type, is_type. destruct u.
  by destruct (truthy _), (String.eqb _ _).
Qed.

Lemma mandatory_type_ok v k t msg u :
  mandatory_type v k t msg = Ok u ↔ truthy (js_get v k) && is_type (js_get v k) t = true.
Proof.
  unfold mandatory_type, throw_if, not_type, is_type. destruct u.
  by destruct (truthy _), (String.eqb _ _).
Qed.

Lemma need_type_ok v k t msg u : need_type v k t msg = Ok u ↔ is_type (js_get v k) t = true.
Proof. unfold need_type, throw_if, not_type, is_type. destruct u. by destruct (String.eqb _ _). Qed.

Lemma need_object_ok v msg u : is_array v = false → need_object v msg = Ok u ↔ is_obj v = true.
Proof. destruct u. by destruct v. Qed.

Lemma throw_if_iff b msg u : throw_if b msg = Ok u ↔ b = false.
Proof. destruct u. by destruct b. Qed.

(** Splits a successful validator into the conditions that held. *)
Ltac checks :=
  bind_inv;
  repeat match goal with
  | H : optional_type _ _ _ _ = Ok _ |- _ => apply optional_type_ok in H
  | H : mandatory_type _ _ _ _ = Ok _ |- _ => apply mandatory_type_ok in H
  | H : need_type _ _ _ _ = Ok _ |- _ => apply need_type_ok in H
  | H : need_object _ _ = Ok _ |- _ => apply need_object_ok in H; [|assumption]
  | H : throw_if _ _ = Ok _ |- _ => apply throw_if_iff in H
  end.

(** Runs one guard of a validator whose condition holds. *)
Lemma bind_guard {B} (m : outcome unit) (f : unit → outcome B) : m = Ok tt → m ≫= f = f tt.
Proof. by intros ->. Qed.

Ltac pass :=
  repeat (rewrite bind_guard;
    [|first [ apply optional_type_ok; assumption | apply mandatory_type_ok; assumption
            | apply need_type_ok; assumption | apply throw_if_iff; assumption ]]).

Lemma obj_not_array v : is_obj v = true → is_array v = false.
Proof. by destruct v. Qed.

(** Default values are no change in normal form. *)
Lemma set_if_false v k x : set_if false v k x = v.
Proof. done. Qed.

Lemma set_if_id c v k x : (c = true → js_get v k = x ∧ x ≠ JUndef) → set_if c v k x = v.
Proof. destruct c; [|done]. intros H. destruct H; [done|]. by apply js_set_id. Qed.

Lemma typed_defined v t : is_type v t = true → t ≠ "undefined" → v ≠ JUndef.
Proof. intros H Ht ->. by apply String.eqb_eq in H. Qed.

Lemma falsy_boolean v : is_type v "boolean" = true → negb (truthy v) = true → v = JBool false.
Proof. destruct v as [| |[]| | | |]; try done. Qed.

Lemma falsy_string v : is_type v "string" = true → negb (truthy v) = true → v = JStr "".
Proof. destruct v as [| | | |s| |]; try done. simpl. rewrite negb_involutive. by intros _ ->%String.eqb_eq. Qed.

Lemma not_type_is v t : not_type v t = negb (is_type v t).
Proof. done. Qed.

#[export] Instance feedback_norm : StrictNormaliser validateRtcpFeedback wf_feedback.
Proof.
  split; [split|done].
  - intros v v' Ha H. unfold validateRtcpFeedback in H. checks. subst v'.
    unfold wf_feedback, nonempty_string. js_read. rewrite Hm, Hm0. simpl.
    rewrite not_type_is. destruct (negb _ || _) eqn:E; [done|]. by bool_hyps.
  - intros v H. unfold wf_feedback, nonempty_string in H. apply andb_true_iff in H as [H Hp].
    apply andb_true_iff in H as [Ho Ht]. unfold validateRtcpFeedback.
    rewrite bind_guard by (apply need_object_ok; [by apply obj_not_array|done]). pass. f_equal.
    apply set_if_id. rewrite not_type_is, Hp, orb_false_r. intros Hf. split; [by apply falsy_string|done].
Qed.

(** Loops over an array property. *)
Lemma for_each_norm f wf `{!Normaliser f wf} v key v' l :
  is_obj v = true → js_get v key = JArr l → forallb (λ x, negb (is_array x)) l = true →
  for_each f v key = Ok v' → ∃ l', v' = js_set v key (JArr l') ∧ forallb wf l' = true.
Proof.
  intros Hv Hk Hl H. unfold for_each in H. rewrite Hk in H. checks. subst v'. eexists. split; [done|].
  apply traverse_ok in Hm. apply forallb_forall. intros y Hy%list_elem_of_In.
  apply list_elem_of_lookup in Hy as [i Hi].
  destruct (Forall2_lookup_r _ _ _ _ _ Hm Hi) as (x & Hx & Hf).
  apply (norm_wf x); [|done]. rewrite forallb_forall in Hl. apply negb_true_iff, Hl, list_elem_of_In.
  by eapply list_elem_of_lookup_2.
Qed.

Lemma for_each_strict f wf `{!StrictNormaliser f wf} v key v' l :
  is_obj v = true → js_get v key = JArr l →
  for_each f v key = Ok v' → ∃ l', v' = js_set v key (JArr l') ∧ forallb wf l' = true.
Proof.
  intros Hv Hk H. eapply (for_each_norm f wf); [done|done| |done].
  unfold for_each in H. rewrite Hk in H. checks. apply traverse_ok in Hm.
  apply forallb_forall. intros x Hx%list_elem_of_In. destruct x as [| | | | |xs|]; try done.
  apply list_elem_of_lookup in Hx as [i Hi].
  destruct (Forall2_lookup_l _ _ _ _ _ Hm Hi) as (y & _ & Hf). pose proof (norm_array (f := f) xs) as Hn.
  by rewrite Hf in Hn.
Qed.

Lemma for_each_id f wf `{!Normaliser f wf} v key :
  array_all wf (js_get v key) = true → for_each f v key = Ok v.
Proof.
  intros H. unfold for_each. destruct (js_get v key) as [| | | | |l|] eqn:E; try done. simpl in H.
  rewrite traverse_id; [|]; [simpl; f_equal; by apply js_set_id|].
  intros x Hx. apply norm_id. rewrite forallb_forall in H. by apply H, list_elem_of_In.
Qed.

Lemma optional_array_ok v key msg v' : is_obj v = true → optional_array v key msg = Ok v' →
  ∃ l, js_get v' key = JArr l ∧ v' = set_if (negb (truthy (js_get v key))) v key (JArr []).
Proof.
  intros Hv H. unfold optional_array in H. checks. subst v'. rewrite get_set_if_same by done.
  destruct (truthy (js_get v key)); simpl in *; [|by eexists].
  apply negb_false_iff in Hm. destruct (js_get v key); try done. by eexists.
Qed.

Lemma optional_array_id p v key msg : array_all p (js_get v key) = true → optional_array v key msg = Ok v.
Proof. intros H. unfold optional_array. by destruct (js_get v key). Qed.

Lemma validate_parameter_ok apt msg key x y : validate_parameter apt msg key x = Ok y → wf_parameter apt key y = true.
Proof.
  unfold validate_parameter, wf_parameter. intros H. checks. subst y.
  rewrite !not_type_is in *. by destruct (is_type _ "string"), (is_type _ "number"), apt, (String.eqb key "apt").
Qed.

Lemma validate_parameter_id apt msg key x : wf_parameter apt key x = true → validate_parameter apt msg key x = Ok x.
Proof.
  unfold wf_parameter, validate_parameter. intros H. assert (is_undefined x = false) as -> by by destruct x.
  rewrite !not_type_is. apply andb_true_iff in H as [H1 H2].
  by destruct (is_type x "string"), (is_type x "number"), apt, (String.eqb key "apt").
Qed.

Lemma validate_parameters_ok apt msg p p' : p' ≠ p ∨ is_obj p || is_array p = true →
  validate_parameters apt msg p = Ok p' → wf_parameters apt p' = true.
Proof.
  intros Hp H. destruct p as [| | | | |l|o]; simpl in *; checks; subst; try (by destruct Hp).
  - simpl. apply forallb_forall. intros x Hx%list_elem_of_In. revert x Hx. apply Forall_forall.
    eapply traverse_Forall, Hm. intros. by eapply validate_parameter_ok.
  - simpl. apply forallb_forall. intros x Hx%list_elem_of_In. revert x Hx. apply Forall_forall.
    eapply traverse_Forall, Hm. intros e e' He. cbv beta in He. checks. subst e'. by eapply validate_parameter_ok.
Qed.

Lemma validate_parameters_id apt msg p : wf_parameters apt p = true → validate_parameters apt msg p = Ok p.
Proof.
  intros H. destruct p as [| | | | |l|o]; simpl in *; try done; rewrite forallb_forall in H.
  - rewrite traverse_id; [done|]. intros x Hx%list_elem_of_In. by apply validate_parameter_id, H.
  - rewrite traverse_id; [done|]. intros [k x] Hx%list_elem_of_In. apply H in Hx. simpl in *.
    by rewrite validate_parameter_id.
Qed.

Lemma fill_parameters_ok apt msg v v' : is_obj v = true → fill_parameters apt msg v = Ok v' →
  ∃ p, v' = js_set (set_if (negb (truthy (js_get v "parameters")) || not_type (js_get v "parameters") "object") v
             "parameters" (JObj [])) "parameters" p ∧ wf_parameters apt p = true.
Proof.
  intros Hv H. unfold fill_parameters in H. checks. subst v'. eexists. split; [done|].
  eapply validate_parameters_ok, Hm. right. rewrite get_set_if_same by done. rewrite not_type_is.
  destruct (negb _ || _) eqn:E; [done|]. bool_hyps. by destruct (js_get v "parameters").
Qed.

Lemma wf_parameters_object apt p : wf_parameters apt p = true →
  negb (truthy p) || not_type p "object" = false ∧ p ≠ JUndef.
Proof. by destruct p. Qed.

Lemma fill_parameters_id apt msg v : wf_parameters apt (js_get v "parameters") = true →
  fill_parameters apt msg v = Ok v.
Proof.
  intros H. unfold fill_parameters. destruct (wf_parameters_object _ _ H) as [-> Hd].
  rewrite set_if_false, validate_parameters_id by done. simpl. f_equal. by apply js_set_id.
Qed.

(** The default of a property that must be an array. *)
Lemma default_array v key : is_obj v = true →
  ∃ l, js_get (set_if (negb (truthy (js_get v key)) || negb (is_array (js_get v key))) v key (JArr [])) key = JArr l.
Proof.
  intros Hv. rewrite get_set_if_same by done. destruct (negb _ || _) eqn:E; [by eexists|]. bool_hyps.
  destruct (js_get v key); try done. by eexists.
Qed.

(** [fill_codec] writes three keys only and leaves them in normal form. *)
Lemma fill_codec_ok k v v' : is_obj v = true → is_type (js_get v "clockRate") "number" = true →
  fill_codec k v = Ok v' →
  wf_codec k v' = true ∧
  ∀ key, key ∉ ["channels"; "parameters"; "rtcpFeedback"] → js_get v' key = js_get v key.
Proof.
  intros Hv Hc H. unfold fill_codec in H. apply bind_ok_inv in H as (v1 & H1 & H).
  set (v0 := if String.eqb k "audio" then _ else _) in H1.
  assert (is_obj v0 = true) as H0 by (subst v0; destruct (String.eqb k "audio"); by autorewrite with js).
  apply fill_parameters_ok in H1 as (p & -> & Hp); [|done].
  set (v1 := js_set _ _ p) in H. assert (is_obj v1 = true) as Hv1 by (subst v1; by autorewrite with js).
  destruct (default_array v1 "rtcpFeedback" Hv1) as [l Hl].
  apply (for_each_strict validateRtcpFeedback wf_feedback _ _ _ l) in H as (fb & -> & Hfb);
    [|by autorewrite with js|done]. subst v1.
  assert (∀ key, key ≠ "channels" → js_get v0 key = js_get v key) as Hv0.
  { intros key Hk. subst v0. destruct (String.eqb k "audio"); [by apply get_set_if_ne|by apply js_get_delete_ne]. }
  split.
  - unfold wf_codec. js_read. rewrite H0, Hp, Hv0, Hc by done. cbn [andb array_all]. rewrite Hfb, !andb_true_r.
    subst v0. destruct (String.eqb k "audio").
    + rewrite get_set_if_same by done. rewrite not_type_is. by destruct (is_type (js_get v "channels") "number") eqn:E.
    + by autorewrite with js.
  - intros key Hkey. rewrite !not_elem_of_cons in Hkey. destruct Hkey as (Hk1 & Hk2 & Hk3 & _).
    rewrite js_get_set_ne, get_set_if_ne, js_get_set_ne, get_set_if_ne by congruence. by apply Hv0.
Qed.

Lemma fill_codec_id k v : wf_codec k v = true → fill_codec k v = Ok v.
Proof.
  intros H. unfold wf_codec in H. bool_hyps. unfold fill_codec.
  assert ((if String.eqb k "audio" then set_if (not_type (js_get v "channels") "number") v "channels" (js_int 1)
           else js_delete v "channels") = v) as ->.
  { destruct (String.eqb k "audio"); [rewrite not_type_is; by destruct (is_type (js_get v "channels") "number")|].
    bool_hyps. by apply delete_absent. }
  rewrite fill_parameters_id by done. cbn [mbind outcome_bind].
  assert (negb (truthy (js_get v "rtcpFeedback")) || negb (is_array (js_get v "rtcpFeedback")) = false) as ->
    by by destruct (js_get v "rtcpFeedback").
  rewrite set_if_false. by apply (for_each_id validateRtcpFeedback wf_feedback).
Qed.

Lemma codec_kind_ok v k : codec_kind v = Ok k ↔ mime_of v = Some k.
Proof.
  unfold codec_kind, mime_of. split.
  - intros H. checks. destruct (js_get v "mimeType"); try done. by destruct (mime_kind s); simplify_eq.
  - destruct (js_get v "mimeType") as [| | | |s| |] eqn:E; try done. intros Hk.
    rewrite bind_guard; [by rewrite Hk|]. apply mandatory_type_ok. rewrite E. by destruct s.
Qed.

Lemma mime_of_get v v' : js_get v' "mimeType" = js_get v "mimeType" → mime_of v' = mime_of v.
Proof. unfold mime_of. by intros ->. Qed.

(** Keys a codec validator leaves alone. *)
Ltac other_key := apply (bool_decide_unpack _); vm_compute; exact I.

#[export] Instance codec_capability_norm : StrictNormaliser validateRtpCodecCapability wf_codec_capability.
Proof.
  split; [split|done].
  - intros v v' Ha H. unfold validateRtpCodecCapability in H. checks. apply codec_kind_ok in Hm0. js_read.
    apply fill_codec_ok in H as [Hwf Hget]; [|by autorewrite with js|by autorewrite with js].
    unfold wf_codec_capability.
    rewrite (mime_of_get v v'), Hm0, Hwf by (rewrite Hget by other_key; by js_read).
    rewrite !Hget by other_key. js_read. cbn [is_str]. by rewrite Hm1, String.eqb_refl.
  - intros v H. unfold wf_codec_capability in H. destruct (mime_of v) as [k|] eqn:Ek; [|done]. bool_hyps.
    assert (is_obj v = true) as Ho by (unfold wf_codec in *; by bool_hyps).
    assert (is_type (js_get v "clockRate") "number" = true) as Hc by (unfold wf_codec in *; by bool_hyps).
    unfold validateRtpCodecCapability.
    rewrite bind_guard by (apply need_object_ok; [by apply obj_not_array|done]).
    rewrite (proj2 (codec_kind_ok v k) Ek). cbn [mbind outcome_bind].
    rewrite (js_set_id v "kind" (JStr k)); [pass; by apply fill_codec_id| |done].
    destruct (js_get v "kind"); try done. f_equal. by apply String.eqb_eq.
Qed.

#[export] Instance codec_parameters_norm : StrictNormaliser validateRtpCodecParameters wf_codec_parameters.
Proof.
  split; [split|done].
  - intros v v' Ha H. unfold validateRtpCodecParameters in H. checks. apply codec_kind_ok in Hm0.
    apply fill_codec_ok in H as [Hwf Hget]; [|done|done]. unfold wf_codec_parameters.
    rewrite (mime_of_get v v'), Hm0, Hwf by (by rewrite Hget by other_key). by rewrite Hget by other_key.
  - intros v H. unfold wf_codec_parameters in H. destruct (mime_of v) as [k|] eqn:Ek; [|done]. bool_hyps.
    assert (is_obj v = true) as Ho by (unfold wf_codec in *; by bool_hyps).
    assert (is_type (js_get v "clockRate") "number" = true) as Hc by (unfold wf_codec in *; by bool_hyps).
    unfold validateRtpCodecParameters.
    rewrite bind_guard by (apply need_object_ok; [by apply obj_not_array|done]).
    rewrite (proj2 (codec_kind_ok v k) Ek). cbn [mbind outcome_bind]. pass. by apply fill_codec_id.
Qed.

Lemma opt_boolean_default v : opt_type v "boolean" = true →
  is_type (if negb (truthy v) then JBool false else v) "boolean" = true.
Proof. unfold opt_type. by destruct (truthy v) eqn:E. Qed.

#[export] Instance extension_norm : StrictNormaliser validateRtpHeaderExtension wf_extension.
Proof.
  split; [split|done].
  - intros v v' Ha H. unfold validateRtpHeaderExtension in H. checks. subst v'. js_read.
    unfold wf_extension, nonempty_string. js_read. rewrite Hm, Hm1, Hm2, opt_boolean_default by done.
    rewrite !andb_true_r. cbn [andb]. apply andb_false_iff in Hm0. rewrite !negb_false_iff in Hm0.
    apply andb_true_iff. split; [by apply orb_true_iff|]. unfold opt_type in Hm4.
    by destruct (truthy (js_get v "direction")) eqn:E; simpl in *; [rewrite E|].
  - intros v H. unfold wf_extension, nonempty_string in H. bool_hyps. unfold validateRtpHeaderExtension.
    rewrite bind_guard by (apply need_object_ok; [by apply obj_not_array|done]).
    rewrite bind_guard by (apply throw_if_iff; rewrite <- negb_orb; by apply negb_false_iff).
    rewrite bind_guard by (apply mandatory_type_ok, andb_true_iff; done).
    rewrite bind_guard by (by apply need_type_ok).
    rewrite bind_guard by (apply optional_type_ok; unfold opt_type; apply orb_true_iff; by right).
    rewrite (set_if_id _ v "preferredEncrypt"); [|intros Hf; split; [by apply falsy_boolean|done]].
    rewrite bind_guard by (apply optional_type_ok; unfold opt_type; apply orb_true_iff; by right).
    f_equal. apply set_if_id. intros Hf. bool_hyps. congruence.
Qed.

#[export] Instance extension_parameters_norm :
  StrictNormaliser validateRtpHeaderExtensionParameters wf_extension_parameters.
Proof.
  split; [split|done].
  - intros v v' Ha H. unfold validateRtpHeaderExtensionParameters in H. checks.
    apply fill_parameters_ok in H as (p & -> & Hp); [|by autorewrite with js].
    unfold wf_extension_parameters, nonempty_string. js_read. by rewrite Hm, Hm0, Hm1, Hp, opt_boolean_default.
  - intros v H. unfold wf_extension_parameters, nonempty_string in H. bool_hyps.
    unfold validateRtpHeaderExtensionParameters.
    rewrite bind_guard by (apply need_object_ok; [by apply obj_not_array|done]).
    rewrite bind_guard by (apply mandatory_type_ok, andb_true_iff; done).
    rewrite bind_guard by (by apply need_type_ok).
    rewrite bind_guard by (apply optional_type_ok; unfold opt_type; apply orb_true_iff; by right).
    rewrite set_if_id; [by apply fill_parameters_id|intros Hf; split; [by apply falsy_boolean|done]].
Qed.

Lemma boolean_or_default v d : is_type (if negb (truthy v) || not_type v "boolean" then JBool d else v) "boolean" = true.
Proof. rewrite not_type_is. destruct (negb _ || _) eqn:E; [done|]. by bool_hyps. Qed.

#[export] Instance encoding_norm : Normaliser validateRtpEncodingParameters wf_encoding.
Proof.
  split.
  - intros v v' Ha H. unfold validateRtpEncodingParameters in H. checks. subst v'. js_read.
    unfold wf_encoding. js_read. rewrite Hm, Hm0, Hm1, Hm4, boolean_or_default, !andb_true_r. cbn [andb].
    rewrite not_type_is in Hm3. unfold opt_type in Hm2.
    by destruct (truthy (js_get v "rtx")), (is_type (js_get v "rtx") "object"), (is_type (js_get (js_get v "rtx") "ssrc") "number").
  - intros v H. unfold wf_encoding in H. bool_hyps. unfold validateRtpEncodingParameters.
    rewrite bind_guard by (apply need_object_ok; [by apply obj_not_array|done]). pass.
    rewrite bind_guard by (apply optional_type_ok; unfold opt_type; apply orb_true_iff in H2 as [->|?]; bool_hyps;
      [done|apply orb_true_iff; by right]).
    rewrite bind_guard by (apply throw_if_iff, andb_false_iff; rewrite not_type_is;
      apply orb_true_iff in H2 as [?|?]; bool_hyps; [by left|right; by apply negb_false_iff]).
    rewrite set_if_id; [by pass|]. rewrite not_type_is, H1, orb_false_r. intros Hf. split; [by apply falsy_boolean|done].
Qed.

#[export] Instance rtcp_norm : Normaliser validateRtcpParameters wf_rtcp.
Proof.
  split.
  - intros v v' Ha H. unfold validateRtcpParameters in H. checks. subst v'. unfold wf_rtcp. js_read. rewrite Hm, Hm0.
    rewrite not_type_is. destruct (negb _ || _) eqn:E; [done|]. bool_hyps. by destruct (js_get v "reducedSize").
  - intros v H. unfold wf_rtcp in H. bool_hyps. unfold validateRtcpParameters.
    rewrite bind_guard by (apply need_object_ok; [by apply obj_not_array|done]). pass. f_equal. apply set_if_id.
    by destruct (js_get v "reducedSize") as [| |[]| | | |].
Qed.

Lemma capabilities_norm : Normaliser validateRtpCapabilities wf_capabilities.
Proof.
  split.
  - intros v v' Ha H. unfold validateRtpCapabilities in H. checks.
    apply optional_array_ok in Hm0 as (l & Hl & E); [|done].
    assert (is_obj a0 = true) as Ho0 by (subst a0; by autorewrite with js).
    eapply (for_each_strict _ wf_codec_capability) in Hm1 as (cs & -> & Hcs); [|done|done].
    apply optional_array_ok in Hm2 as (l2 & Hl2 & E2); [|by autorewrite with js].
    assert (is_obj a2 = true) as Ho2 by (subst a2; by autorewrite with js).
    eapply (for_each_strict _ wf_extension) in H as (es & -> & Hes); [|done|done].
    unfold wf_capabilities. js_read. rewrite Ho2. cbn [andb array_all]. rewrite Hes, andb_true_r.
    subst a2. js_read. done.
  - intros v H. unfold wf_capabilities in H. bool_hyps. unfold validateRtpCapabilities.
    rewrite bind_guard by (apply need_object_ok; [by apply obj_not_array|done]).
    erewrite optional_array_id by eassumption. cbn [mbind outcome_bind].
    erewrite (for_each_id _ wf_codec_capability) by done. cbn [mbind outcome_bind].
    erewrite optional_array_id by eassumption. cbn [mbind outcome_bind].
    by apply (for_each_id _ wf_extension).
Qed.

(** No array in place of an encoding or of the RTCP dictionary; the other
    dictionaries have mandatory properties, so an array is rejected there. *)
Definition plain_parameters (p : jsval) : bool :=
  negb (is_array p) && negb (is_array (js_get p "rtcp")) &&
  match js_get p "encodings" with JArr l => forallb (λ e, negb (is_array e)) l | _ => true end.

Lemma optional_array_cases v key msg v' (p : jsval → bool) : is_obj v = true → optional_array v key msg = Ok v' →
  match js_get v key with JArr l => forallb p l | _ => true end = true →
  ∃ l, js_get v' key = JArr l ∧ forallb p l = true.
Proof.
  intros Hv H Hp. unfold optional_array in H. checks. subst v'. rewrite get_set_if_same by done.
  destruct (truthy (js_get v key)) eqn:E; simpl in *; [|by eexists].
  apply negb_false_iff in Hm. destruct (js_get v key); try done. by eexists.
Qed.

(** What the part of [validateRtpParameters] before the RTCP dictionary yields. *)
Lemma parameters_norm v v' : plain_parameters v = true → validateRtpParameters v = Ok v' → wf_rtp_parameters v' = true.
Proof.
  intros Hpl H. unfold plain_parameters in Hpl. bool_hyps. unfold validateRtpParameters in H. checks. bool_hyps.
  destruct (js_get v "codecs") as [| | | | |cs|] eqn:Ecs; try done.
  eapply (for_each_strict _ wf_codec_parameters) in Hm2 as (cs' & -> & Hcs); [|done|done].
  apply optional_array_ok in Hm3 as (l3 & Hl3 & E3); [|by autorewrite with js].
  assert (is_obj a3 = true) as Ho3 by (subst a3; by autorewrite with js).
  eapply (for_each_strict _ wf_extension_parameters) in Hm4 as (es & -> & Hes); [|done|done].
  pose proof Hm5 as Henc. apply (optional_array_cases _ _ _ _ (λ e, negb (is_array e))) in Henc as (l5 & Hl5 & Hna);
    [|by autorewrite with js|subst a3; by js_read].
  apply optional_array_ok in Hm5 as (_ & _ & E5); [|by autorewrite with js].
  assert (is_obj a5 = true) as Ho5 by (subst a5; by autorewrite with js).
  eapply (for_each_norm _ wf_encoding) in Hm6 as (encs & -> & Hencs); [|done|done|done].
  assert (is_array (js_get (set_if (negb (truthy (js_get (js_set a5 "encodings" (JArr encs)) "rtcp")))
    (js_set a5 "encodings" (JArr encs)) "rtcp" (JObj [])) "rtcp") = false) as Hra.
  { rewrite get_set_if_same by (by autorewrite with js).
    destruct (negb (truthy (js_get (js_set a5 _ _) _))); [done|]. subst a5 a3. by js_read. }
  apply (norm_wf _ _ Hra) in Hm8. subst v'. unfold wf_rtp_parameters. js_read. rewrite Ho5. cbn [andb array_all].
  rewrite Hencs, Hm8, !andb_true_r. subst a5. js_read. cbn [array_all]. rewrite Hes, andb_true_r. subst a3. js_read. cbn [array_all].
  by rewrite Hm0, Hcs.
Qed.

Lemma parameters_id v : wf_rtp_parameters v = true → validateRtpParameters v = Ok v.
Proof.
  intros H. unfold wf_rtp_parameters in H. bool_hyps. unfold validateRtpParameters.
  rewrite bind_guard by (apply need_object_ok; [by apply obj_not_array|done]). pass.
  rewrite bind_guard by (apply throw_if_iff; by destruct (js_get v "codecs")).
  rewrite (for_each_id _ wf_codec_parameters) by done. cbn [mbind outcome_bind].
  erewrite optional_array_id by eassumption. cbn [mbind outcome_bind].
  rewrite (for_each_id _ wf_extension_parameters) by done. cbn [mbind outcome_bind].
  erewrite (optional_array_id wf_encoding) by eassumption. cbn [mbind outcome_bind].
  rewrite (for_each_id _ wf_encoding) by done. cbn [mbind outcome_bind].
  assert (is_obj (js_get v "rtcp") = true) as Hr by (unfold wf_rtcp in *; by bool_hyps).
  rewrite bind_guard by (apply optional_type_ok; by destruct (js_get v "rtcp")).
  assert (negb (truthy (js_get v "rtcp")) = false) as -> by by destruct (js_get v "rtcp").
  rewrite set_if_false, (norm_id (f := validateRtcpParameters) (wf := wf_rtcp)) by done. simpl. f_equal. apply js_set_id; [done|].
  by destruct (js_get v "rtcp").
Qed.

(** ** Claims *)

(** C33: validation of RTP capabilities is a normalisation: a dictionary that
    passes comes back in normal form (every codec with the media kind of its MIME
    type, a channel count exactly for audio, string or number parameters, array
    feedback; every extension with encryption flag and direction), and the
    dictionaries that pass unchanged are exactly those in normal form. *)
Theorem capabilities_normalised v : is_array v = false →
  (∀ v', validateRtpCapabilities v = Ok v' → wf_capabilities v' = true ∧ validateRtpCapabilities v' = Ok v') ∧
  (wf_capabilities v = true ↔ validateRtpCapabilities v = Ok v).
Proof.
  intros Ha. pose proof capabilities_norm as N. split.
  - intros v' H. apply norm_wf in H; [|done]. split; [done|]. by apply norm_id.
  - split; [apply norm_id|]. by apply norm_wf.
Qed.

Definition demo_capabilities : jsval := JObj [
  ("codecs", JArr [
    JObj [("mimeType", JStr "audio/opus"); ("clockRate", js_int 48000)];
    JObj [("mimeType", JStr "Video/VP8"); ("clockRate", js_int 90000); ("channels", js_int 2);
          ("parameters", JObj [("x-start", JUndef)]); ("rtcpFeedback", JArr [JObj [("type", JStr "nack")]])]])].

Lemma capabilities_normalised_witness :
  (∃ v', validateRtpCapabilities demo_capabilities = Ok v' ∧ wf_capabilities v' = true ∧ validateRtpCapabilities v' = Ok v') ∧
  ∃ v, wf_capabilities v = true ∧ validateRtpCapabilities v = Ok v.
Proof.
  assert (∃ v', validateRtpCapabilities demo_capabilities = Ok v' ∧ wf_capabilities v' = true ∧ validateRtpCapabilities v' = Ok v')
    as (v' & H1 & H2 & H3).
  { eexists. split; [vm_compute; reflexivity|]. apply (capabilities_normalised demo_capabilities); vm_compute; reflexivity. }
  split; exists v'; auto.
Defined.

(** Likewise for RTP parameters: codecs, header extensions and encodings are
    checked one by one, missing ones become empty arrays, and a second validation
    changes nothing. *)
Theorem parameters_normalised v v' :
  plain_parameters v = true → validateRtpParameters v = Ok v' →
  wf_rtp_parameters v' = true ∧ validateRtpParameters v' = Ok v'.
Proof. intros Hp H. apply parameters_norm in H; [|done]. split; [done|]. by apply parameters_id. Qed.

Definition demo_parameters : jsval := JObj [
  ("codecs", JArr [JObj [("mimeType", JStr "video/VP8"); ("payloadType", js_int 96); ("clockRate", js_int 90000)]]);
  ("encodings", JArr [JObj [("ssrc", js_int 1111)]]);
  ("rtcp", JObj [("cname", JStr "c"); ("reducedSize", JBool false)])].

(** The explicit [reducedSize: false] comes back as [true]. *)
Lemma parameters_normalised_witness : ∃ v',
  validateRtpParameters demo_parameters = Ok v' ∧ js_get (js_get v' "rtcp") "reducedSize" = JBool true ∧
  wf_rtp_parameters v' = true ∧ validateRtpParameters v' = Ok v'.
Proof.
  eexists. split; [vm_compute; reflexivity|]. split; [reflexivity|].
  apply (parameters_normalised demo_parameters); vm_compute; reflexivity.
Defined.

(** The comment reads "If unset set it to true", but an explicit [false] is
    overwritten too. *)
Lemma reduced_size_always_true v v' :
  is_array v = false → validateRtcpParameters v = Ok v' → js_get v' "reducedSize" = JBool true.
Proof.
  intros Ha H. apply (norm_wf _ _ Ha) in H. unfold wf_rtcp in H. bool_hyps.
  by destruct (js_get v' "reducedSize") as [| |[]| | | |].
Qed.

(** A validated SCTP stream has a boolean [ordered], never both limits of
    partial reliability, and is ordered only without one; validating it again
    changes nothing. *)
Theorem sctp_stream_normalised v v' :
  is_array v = false → validateSctpStreamParameters v = Ok v' →
  ∃ b, js_get v' "ordered" = JBool b ∧
    truthy (js_get v' "maxPacketLifeTime") && truthy (js_get v' "maxRetransmits") = false ∧
    (b = true → truthy (js_get v' "maxPacketLifeTime") || truthy (js_get v' "maxRetransmits") = false) ∧
    validateSctpStreamParameters v' = Ok v'.
Proof.
  intros Ha H. unfold validateSctpStreamParameters in H.
  destruct (String.eqb (js_typeof (js_get v "ordered")) "boolean") eqn:Eo; cbn [negb andb] in H; rewrite ?set_if_false in H; checks.
  - subst v'. destruct (js_get v "ordered") as [| |b| | | |] eqn:Eb; try done. exists b. cbn [truthy] in Hm5.
    split_and!; [done|done|by intros ->|]. unfold validateSctpStreamParameters.
    rewrite bind_guard by (by apply need_object_ok). rewrite Eb. cbn [js_typeof String.eqb negb andb truthy].
    change (String.eqb "boolean" "boolean") with true. cbn [negb andb]. rewrite !set_if_false. pass.
    rewrite Eb. cbn [truthy]. by pass.
  - js_read.
    set (part := truthy (js_get v "maxPacketLifeTime") || truthy (js_get v "maxRetransmits")) in *.
    assert (js_get v' "ordered" = JBool (negb part)) as Ho.
    { subst v'. destruct part; cbn [set_if negb]; by js_read. }
    assert (∀ key, key ≠ "ordered" → js_get v' key = js_get v key) as Hk.
    { intros key Hne. subst v'. rewrite get_set_if_ne by done. change (js_set v "ordered" (JBool true)) with (set_if true v "ordered" (JBool true)).
      by rewrite get_set_if_ne. }
    assert (is_obj v' = true) as Hobj by (subst v'; by autorewrite with js). clear H.
    exists (negb part). rewrite (Hk "maxPacketLifeTime"), (Hk "maxRetransmits") by done. split_and!; [done|done|intros Hb%negb_true_iff; exact Hb|].
    unfold validateSctpStreamParameters.
    rewrite bind_guard by (apply need_object_ok; [by apply obj_not_array|done]).
    rewrite Ho. change (String.eqb (js_typeof (JBool (negb part))) "boolean") with true. cbn [negb andb]. rewrite !set_if_false.
    rewrite <- (Hk "streamId") in Hm0 by done. rewrite <- (Hk "maxPacketLifeTime") in Hm1 by done.
    rewrite <- (Hk "maxRetransmits") in Hm2 by done. rewrite <- (Hk "label") in Hm5 by done. rewrite <- (Hk "protocol") in Hm6 by done.
    rewrite <- (Hk "maxPacketLifeTime"), <- (Hk "maxRetransmits") in Hm3 by done.
    pass. rewrite bind_guard; [by pass|]. apply throw_if_iff. rewrite ?Ho, (Hk "maxPacketLifeTime"), (Hk "maxRetransmits") by done. cbn [truthy]. fold part. by destruct part.
Qed.

(** An unordered stream given only a retransmission limit. *)
Lemma sctp_stream_normalised_witness :
  ∃ v', validateSctpStreamParameters (JObj [("streamId", js_int 1); ("maxRetransmits", js_int 3)]) = Ok v' ∧
  js_get v' "ordered" = JBool false ∧ validateSctpStreamParameters v' = Ok v'.
Proof.
  destruct (sctp_stream_normalised (JObj [("streamId", js_int 1); ("maxRetransmits", js_int 3)])
    (JObj [("streamId", js_int 1); ("maxRetransmits", js_int 3); ("ordered", JBool false)])) as (b & Hb & _ & _ & Hv);
    [reflexivity|reflexivity|].
  eexists. split; [reflexivity|]. split; [reflexivity|exact Hv].
Defined.
