(* ===== verification/Ortc.v ===== *)
(** * ORTC capability negotiation (src/client/lib/ortc.js)

    Matching of local and remote RTP capabilities and the parameters derived from
    the result.  The package [h264-profile-level-id] is outside the repository: its
    two functions are parameters of the section.  [matchCodecs] may rewrite the
    [parameters] objects of the two codecs it compares, and the extended codecs
    keep references to these objects: while the codecs are matched, a codec is its
    position in the list of its side and the objects are read when the matching is
    over.  The two sides are separate clones (Device.load), so no object is shared
    between codecs.  [structuredClone] is the identity on values. *)

From Stdlib Require Import QArith.
From S2P Require Import Prelude JsNum JsVal OrtcValidate.
Local Open Scope string_scope.
Local Open Scope list_scope.
Local Open Scope Z_scope.

Definition RTP_PROBATOR_MID : string := "probator".
Definition RTP_PROBATOR_SSRC : Z := 1234.
Definition RTP_PROBATOR_CODEC_PAYLOAD_TYPE : Z := 127.

(** ** Language helpers *)

(** [a === b]; two objects are the same only by identity, which does not occur. *)
Definition strict_eq (a b : jsval) : bool :=
  match a, b with
  | JUndef, JUndef | JNull, JNull => true
  | JBool x, JBool y => Bool.eqb x y
  | JNum x, JNum y => num_eqb x y
  | JStr x, JStr y => String.eqb x y
  | _, _ => false
  end.

(** [v.key] when [v] may be [undefined] or [null]. *)
Definition get_prop (v : jsval) (key : string) : outcome jsval :=
  if is_nullish v then Throw "Cannot read properties of undefined" else Ok (js_get v key).

(** [for (const x of v)] and [v.find], for arrays. *)
Definition iterate (v : jsval) : outcome (list jsval) :=
  match v with JArr l => Ok l | _ => Throw "is not iterable" end.

(** [v ?? []] as an array. *)
Definition iterate_or_empty (v : jsval) : outcome (list jsval) :=
  if is_nullish v then Ok [] else iterate v.

(** [l.find(p)] with a predicate that may throw. *)
Fixpoint find_ok {A} (p : A → outcome bool) (l : list A) : outcome (option A) :=
  match l with
  | [] => Ok None
  | x :: l => b ← p x; if (b : bool) then Ok (Some x) else find_ok p l
  end.

(** [`${kind}/rtx`]; the kind of a validated codec is a string. *)
Definition rtx_mime (kind : jsval) : jsval :=
  JStr (match kind with JStr s => s | JNull => "null" | _ => "undefined" end ++ "/rtx").

(** ** Codec matching *)

(** [/.+\/rtx$/i.test(codec.mimeType)]. *)
Definition isRtxCodec (codec : jsval) : bool :=
  match js_get codec "mimeType" with JStr s => is_rtx_mime s | _ => false end.

Definition lower_mime (codec : jsval) : outcome string :=
  m ← get_prop codec "mimeType";
  match m with JStr s => Ok (toLowerCase s) | _ => Throw "toLowerCase is not a function" end.

(** [codec.parameters[key] || 0]. *)
Definition parameter_or0 (codec : jsval) (key : string) : outcome jsval :=
  x ← get_prop (js_get codec "parameters") key; Ok (js_or x (JNum num0)).

(** [codec.parameters['profile-level-id'] = id], or its deletion. *)
Definition set_profile_level_id (codec id : jsval) : jsval :=
  js_set codec "parameters"
    (if truthy id then js_set (js_get codec "parameters") "profile-level-id" id
     else js_delete (js_get codec "parameters") "profile-level-id").

Section Ortc.
Context (isSameProfile : jsval → jsval → bool).
Context (generateProfileLevelIdStringForAnswer : jsval → jsval → outcome jsval).

(** The answer and the two codecs, which [modify] may have changed. *)
Definition matchCodecs (aCodec bCodec : jsval) (strict modify : bool) : outcome (bool * (jsval * jsval)) :=
  let no := Ok (false, (aCodec, bCodec)) in
  aMimeType ← lower_mime aCodec;
  bMimeType ← lower_mime bCodec;
  if negb (String.eqb aMimeType bMimeType) then no
  else if negb (strict_eq (js_get aCodec "clockRate") (js_get bCodec "clockRate")) then no
  else if negb (strict_eq (js_get aCodec "channels") (js_get bCodec "channels")) then no
  else if String.eqb aMimeType "video/h264" && strict then
    aPacketizationMode ← parameter_or0 aCodec "packetization-mode";
    bPacketizationMode ← parameter_or0 bCodec "packetization-mode";
    if negb (strict_eq aPacketizationMode bPacketizationMode) then no
    else if negb (isSameProfile (js_get aCodec "parameters") (js_get bCodec "parameters")) then no
    else
      match generateProfileLevelIdStringForAnswer (js_get aCodec "parameters") (js_get bCodec "parameters") with
      | Throw _ => no
      | Ok id =>
          if modify then Ok (true, (set_profile_level_id aCodec id, set_profile_level_id bCodec id))
          else Ok (true, (aCodec, bCodec))
      end
  else if String.eqb aMimeType "video/vp9" && strict then
    aProfileId ← parameter_or0 aCodec "profile-id";
    bProfileId ← parameter_or0 bCodec "profile-id";
    if negb (strict_eq aProfileId bProfileId) then no else Ok (true, (aCodec, bCodec))
  else Ok (true, (aCodec, bCodec)).

Definition matchHeaderExtensions (aExt bExt : jsval) : bool :=
  if truthy (js_get aExt "kind") && truthy (js_get bExt "kind") &&
     negb (strict_eq (js_get aExt "kind") (js_get bExt "kind")) then false
  else strict_eq (js_get aExt "uri") (js_get bExt "uri").

Definition same_feedback (aFb bFb : jsval) : bool :=
  strict_eq (js_get bFb "type") (js_get aFb "type") &&
  (strict_eq (js_get bFb "parameter") (js_get aFb "parameter") ||
   negb (truthy (js_get bFb "parameter")) && negb (truthy (js_get aFb "parameter"))).

Definition reduceRtcpFeedback (codecA codecB : jsval) : outcome (list jsval) :=
  fbsA ← iterate_or_empty (js_get codecA "rtcpFeedback");
  match fbsA with
  | [] => Ok []
  | _ =>
      fbsB ← iterate_or_empty (js_get codecB "rtcpFeedback");
      Ok (omap (λ aFb, array_find (same_feedback aFb) fbsB) fbsA)
  end.

(** ** Extended capabilities *)

Record ExtendedRtpCapabilities := {
  ex_codecs : list jsval;
  ex_headerExtensions : list jsval;
}.

(** The first local codec that matches: its position and the two codecs after. *)
Fixpoint find_local (locals : list jsval) (i : nat) (remoteCodec : jsval) :
    outcome (option (nat * jsval * jsval)) :=
  match locals with
  | [] => Ok None
  | localCodec :: locals =>
      m ← matchCodecs localCodec remoteCodec true true;
      match m with
      | (true, (l, r)) => Ok (Some (i, l, r))
      | (false, _) => find_local locals (S i) remoteCodec
      end
  end.

(** An extended codec under construction: the references to the two codecs whose
    [parameters] it will show, and the fields already copied. *)
Record ext_codec := {
  xc_local : nat;
  xc_remote : nat;
  xc_mimeType : jsval;
  xc_kind : jsval;
  xc_clockRate : jsval;
  xc_channels : jsval;
  xc_localPayloadType : jsval;
  xc_remotePayloadType : jsval;
  xc_rtcpFeedback : list jsval;
}.

(** One remote codec: local and remote codecs after it, and its extended codec. *)
Definition match_remote (locals remotes : list jsval) (j : nat) (remoteCodec : jsval) :
    outcome (list jsval * list jsval * option ext_codec) :=
  if isRtxCodec remoteCodec then Ok (locals, remotes, None)
  else
    m ← find_local locals 0 remoteCodec;
    match m with
    | None => Ok (locals, remotes, None)
    | Some (i, l, r) =>
        fb ← reduceRtcpFeedback l r;
        Ok (<[i := l]> locals, <[j := r]> remotes,
            Some {| xc_local := i; xc_remote := j; xc_mimeType := js_get l "mimeType"; xc_kind := js_get l "kind";
                    xc_clockRate := js_get l "clockRate"; xc_channels := js_get l "channels";
                    xc_localPayloadType := js_get l "preferredPayloadType";
                    xc_remotePayloadType := js_get r "preferredPayloadType"; xc_rtcpFeedback := fb |})
    end.

(** The loop over the remote codecs; [todo] are those from position [j] on. *)
Fixpoint match_remotes (locals remotes : list jsval) (j : nat) (todo : list jsval) :
    outcome (list jsval * list jsval * list ext_codec) :=
  match todo with
  | [] => Ok (locals, remotes, [])
  | remoteCodec :: todo =>
      m ← match_remote locals remotes j remoteCodec;
      let '(locals, remotes, x) := m in
      rest ← match_remotes locals remotes (S j) todo;
      let '(locals, remotes, xs) := rest in
      Ok (locals, remotes, match x with Some x => x :: xs | None => xs end)
  end.

(** [isRtxCodec(codec) && codec.parameters.apt === payloadType]. *)
Definition is_rtx_of (payloadType codec : jsval) : outcome bool :=
  if isRtxCodec codec then
    apt ← get_prop (js_get codec "parameters") "apt"; Ok (strict_eq apt payloadType)
  else Ok false.

(** The finished extended codec, with its retransmission payload types. *)
Definition finish_codec (locals remotes : list jsval) (x : ext_codec) : outcome jsval :=
  localRtx ← find_ok (is_rtx_of (xc_localPayloadType x)) locals;
  remoteRtx ← find_ok (is_rtx_of (xc_remotePayloadType x)) remotes;
  let '(localRtxPayloadType, remoteRtxPayloadType) :=
    match localRtx, remoteRtx with
    | Some l, Some r => (js_get l "preferredPayloadType", js_get r "preferredPayloadType")
    | _, _ => (JUndef, JUndef)
    end in
  Ok (JObj [
    ("mimeType", xc_mimeType x);
    ("kind", xc_kind x);
    ("clockRate", xc_clockRate x);
    ("channels", xc_channels x);
    ("localPayloadType", xc_localPayloadType x);
    ("localRtxPayloadType", localRtxPayloadType);
    ("remotePayloadType", xc_remotePayloadType x);
    ("remoteRtxPayloadType", remoteRtxPayloadType);
    ("localParameters", js_get (default JUndef (locals !! xc_local x)) "parameters");
    ("remoteParameters", js_get (default JUndef (remotes !! xc_remote x)) "parameters");
    ("rtcpFeedback", JArr (xc_rtcpFeedback x))]).

(** The direction from this side. *)
Definition mirror_direction (direction : jsval) : string :=
  if is_str direction "recvonly" then "sendonly"
  else if is_str direction "sendonly" then "recvonly"
  else if is_str direction "inactive" then "inactive"
  else "sendrecv".

Definition extended_extension (localExts : outcome (list jsval)) (remoteExt : jsval) : outcome (option jsval) :=
  exts ← localExts;
  match array_find (λ localExt, matchHeaderExtensions localExt remoteExt) exts with
  | None => Ok None
  | Some localExt =>
      Ok (Some (JObj [
        ("kind", js_get remoteExt "kind");
        ("uri", js_get remoteExt "uri");
        ("sendId", js_get localExt "preferredId");
        ("recvId", js_get remoteExt "preferredId");
        ("encrypt", js_get localExt "preferredEncrypt");
        ("direction", JStr (mirror_direction (js_get remoteExt "direction")))]))
  end.

(** On capabilities whose [codecs] are arrays or missing. *)
Definition getExtendedRtpCapabilities (localCaps remoteCaps : jsval) : outcome ExtendedRtpCapabilities :=
  remotes ← iterate_or_empty (js_get remoteCaps "codecs");
  locals ← iterate_or_empty (js_get localCaps "codecs");
  m ← match_remotes locals remotes 0 remotes;
  let '(locals, remotes, xs) := m in
  codecs ← traverse (finish_codec locals remotes) xs;
  remoteExts ← iterate (js_get remoteCaps "headerExtensions");
  exts ← traverse (extended_extension (iterate (js_get localCaps "headerExtensions"))) remoteExts;
  Ok {| ex_codecs := codecs; ex_headerExtensions := omap id exts |}.

(** ** Parameters derived from the extended capabilities *)

Definition recv_codecs (c : jsval) : list jsval :=
  JObj [
    ("mimeType", js_get c "mimeType");
    ("kind", js_get c "kind");
    ("preferredPayloadType", js_get c "remotePayloadType");
    ("clockRate", js_get c "clockRate");
    ("channels", js_get c "channels");
    ("parameters", js_get c "localParameters");
    ("rtcpFeedback", js_get c "rtcpFeedback")] ::
  (if truthy (js_get c "remoteRtxPayloadType") then
     [JObj [
       ("mimeType", rtx_mime (js_get c "kind"));
       ("kind", js_get c "kind");
       ("preferredPayloadType", js_get c "remoteRtxPayloadType");
       ("clockRate", js_get c "clockRate");
       ("parameters", JObj [("apt", js_get c "remotePayloadType")]);
       ("rtcpFeedback", JArr [])]]
   else []).

Definition getRecvRtpCapabilities (ext : ExtendedRtpCapabilities) : jsval :=
  JObj [
    ("codecs", JArr (concat (map recv_codecs (ex_codecs ext))));
    ("headerExtensions", JArr (map (λ e, JObj [
        ("kind", js_get e "kind");
        ("uri", js_get e "uri");
        ("preferredId", js_get e "recvId");
        ("preferredEncrypt", js_get e "encrypt");
        ("direction", js_get e "direction")])
      (List.filter (λ e, is_str (js_get e "direction") "sendrecv" || is_str (js_get e "direction") "recvonly")
         (ex_headerExtensions ext))))].

(** The codec of an extended codec and its RTX codec; [params] names the side
    whose parameters are taken. *)
Definition send_codecs (params : string) (c : jsval) : list jsval :=
  JObj [
    ("mimeType", js_get c "mimeType");
    ("payloadType", js_get c "localPayloadType");
    ("clockRate", js_get c "clockRate");
    ("channels", js_get c "channels");
    ("parameters", js_get c params);
    ("rtcpFeedback", js_get c "rtcpFeedback")] ::
  (if truthy (js_get c "localRtxPayloadType") then
     [JObj [
       ("mimeType", rtx_mime (js_get c "kind"));
       ("payloadType", js_get c "localRtxPayloadType");
       ("clockRate", js_get c "clockRate");
       ("parameters", JObj [("apt", js_get c "localPayloadType")]);
       ("rtcpFeedback", JArr [])]]
   else []).

Definition codecs_of_kind (kind : string) (ext : ExtendedRtpCapabilities) : list jsval :=
  List.filter (λ c, is_str (js_get c "kind") kind) (ex_codecs ext).

(** Extensions of this kind, or of any, that are valid for sending. *)
Definition sendable (kind : string) (e : jsval) : bool :=
  negb (truthy (js_get e "kind") && negb (is_str (js_get e "kind") kind)) &&
  (is_str (js_get e "direction") "sendrecv" || is_str (js_get e "direction") "sendonly").

Definition send_extensions (kind : string) (ext : ExtendedRtpCapabilities) : list jsval :=
  map (λ e, JObj [
    ("uri", js_get e "uri");
    ("id", js_get e "sendId");
    ("encrypt", js_get e "encrypt");
    ("parameters", JObj [])]) (List.filter (sendable kind) (ex_headerExtensions ext)).

Definition rtp_parameters (codecs exts : list jsval) : jsval :=
  JObj [("mid", JUndef); ("codecs", JArr codecs); ("headerExtensions", JArr exts); ("encodings", JArr []);
        ("rtcp", JObj [])].

Definition getSendingRtpParameters (kind : string) (ext : ExtendedRtpCapabilities) : jsval :=
  rtp_parameters (concat (map (send_codecs "localParameters") (codecs_of_kind kind ext))) (send_extensions kind ext).

Definition TRANSPORT_CC_URI : string := "http://www.ietf.org/id/draft-holmer-rmcat-transport-wide-cc-extensions-01".
Definition ABS_SEND_TIME_URI : string := "http://www.webrtc.org/experiments/rtp-hdrext/abs-send-time".

(** [codec.rtcpFeedback = (codec.rtcpFeedback ?? []).filter(keep)]. *)
Definition filter_feedback (keep : jsval → bool) (codec : jsval) : outcome jsval :=
  fbs ← iterate_or_empty (js_get codec "rtcpFeedback");
  Ok (js_set codec "rtcpFeedback" (JArr (List.filter keep fbs))).

(** Which feedback the extensions allow. *)
Definition keep_feedback (exts : list jsval) (fb : jsval) : bool :=
  if existsb (λ e, is_str (js_get e "uri") TRANSPORT_CC_URI) exts then negb (is_str (js_get fb "type") "goog-remb")
  else if existsb (λ e, is_str (js_get e "uri") ABS_SEND_TIME_URI) exts
       then negb (is_str (js_get fb "type") "transport-cc")
  else negb (is_str (js_get fb "type") "transport-cc") && negb (is_str (js_get fb "type") "goog-remb").

Definition getSendingRemoteRtpParameters (kind : string) (ext : ExtendedRtpCapabilities) : outcome jsval :=
  let exts := send_extensions kind ext in
  codecs ← traverse (filter_feedback (keep_feedback exts))
             (concat (map (send_codecs "remoteParameters") (codecs_of_kind kind ext)));
  Ok (rtp_parameters codecs exts).

(** [codecs[i]], [undefined] past the end. *)
Definition at_index (codecs : list jsval) (i : nat) : jsval := default JUndef (codecs !! i).

(** A codec and, if it follows, its RTX codec. *)
Definition with_rtx (codecs : list jsval) (i : nat) : list jsval :=
  at_index codecs i :: (if isRtxCodec (at_index codecs (S i)) then [at_index codecs (S i)] else []).

Fixpoint reduce_from (codecs : list jsval) (capCodec : jsval) (i : nat) (todo : list jsval) : outcome (list jsval) :=
  match todo with
  | [] => Throw "no matching codec found"
  | codec :: todo =>
      m ← matchCodecs codec capCodec true false;
      if (m : bool * (jsval * jsval)).1 then Ok (with_rtx codecs i) else reduce_from codecs capCodec (S i) todo
  end.

Definition reduceCodecs (codecs : list jsval) (capCodec : jsval) : outcome (list jsval) :=
  if negb (truthy capCodec) then Ok (with_rtx codecs 0) else reduce_from codecs capCodec 0 codecs.

Definition generateProbatorRtpParameters (videoRtpParameters : jsval) : outcome jsval :=
  video ← validateRtpParameters videoRtpParameters;
  codecs ← iterate (js_get video "codecs");
  match codecs with
  | [] => Throw "Cannot set properties of undefined (setting 'payloadType')"
  | codec :: _ =>
      Ok (JObj [
        ("mid", JStr RTP_PROBATOR_MID);
        ("codecs", JArr [js_set codec "payloadType" (js_int RTP_PROBATOR_CODEC_PAYLOAD_TYPE)]);
        ("headerExtensions", js_get video "headerExtensions");
        ("encodings", JArr [JObj [("ssrc", js_int RTP_PROBATOR_SSRC)]]);
        ("rtcp", JObj [("cname", JStr "probator")])])
  end.

Definition canSend (kind : string) (ext : ExtendedRtpCapabilities) : bool :=
  existsb (λ c, is_str (js_get c "kind") kind) (ex_codecs ext).

(** The boolean and the parameters as validated in place. *)
Definition canReceive (rtpParameters : jsval) (ext : ExtendedRtpCapabilities) : outcome (bool * jsval) :=
  params ← validateRtpParameters rtpParameters;
  codecs ← iterate (js_get params "codecs");
  match codecs with
  | [] => Ok (false, params)
  | firstMediaCodec :: _ =>
      Ok (existsb (λ c, strict_eq (js_get c "remotePayloadType") (js_get firstMediaCodec "payloadType")) (ex_codecs ext),
          params)
  end.

End Ortc.
