(* ===== verification/OrtcProofs.v ===== *)
(** * Correctness of the capability negotiation (src/client/lib/ortc.js)

    On validated capabilities the negotiation never throws, keeps the remote
    order of preference and only pairs codecs of the same type; the parameters
    derived for sending, for the remote description and for probing fit
    together.  The two functions of the H.264 package are arbitrary throughout. *)

From Stdlib Require Import QArith.
From S2P Require Import Prelude JsNum JsVal OrtcValidate Ortc.
From Stdlib Require Import Ascii.
Local Open Scope string_scope.
Local Open Scope list_scope.
Local Open Scope Z_scope.

(** ** RTX recognition ignores case *)






(** ** Matching codecs *)

(** What matching needs of a codec; it keeps it. *)
Definition matchable (c : jsval) : bool :=
  is_obj c && is_type (js_get c "mimeType") "string" && negb (is_nullish (js_get c "parameters")) &&
  is_array (js_get c "rtcpFeedback").

(** Two states of one codec object: matching changes its parameters at most. *)
Definition same_object (c c' : jsval) : Prop :=
  matchable c' = true ∧ ∀ key, key ≠ "parameters" → js_get c' key = js_get c key.

(** Two codecs of the same type. *)
Definition same_codec (a b : jsval) : Prop :=
  lower_mime a = lower_mime b ∧ strict_eq (js_get a "clockRate") (js_get b "clockRate") = true ∧
  strict_eq (js_get a "channels") (js_get b "channels") = true.

Lemma wf_matchable c : wf_codec_capability c = true → matchable c = true.
Proof.
  unfold wf_codec_capability, mime_of, matchable. destruct (js_get c "mimeType") as [| | | |s| |] eqn:E; try done.
  destruct (mime_kind s) as [k|]; [|done]. unfold wf_codec. intros H. bool_hyps. rewrite H.
  destruct (js_get c "parameters"); try done; by destruct (js_get c "rtcpFeedback").
Qed.

Lemma same_object_refl c : matchable c = true → same_object c c.
Proof. done. Qed.

#[export] Instance same_object_trans : Transitive same_object.
Proof. intros a b c [_ H1] [H2 H3]. split; [done|]. intros. by rewrite H3, H1. Qed.

Lemma set_profile_same c id : matchable c = true → same_object c (set_profile_level_id c id).
Proof.
  unfold matchable. intros H. bool_hyps. unfold set_profile_level_id. split.
  - unfold matchable. js_read. rewrite H, H2, H0, andb_true_r. cbn [andb]. apply negb_true_iff.
    by destruct (truthy id), (js_get c "parameters").
  - intros key Hk. by rewrite js_get_set_ne.
Qed.

Lemma lower_mime_ok c : matchable c = true → ∃ s, js_get c "mimeType" = JStr s ∧ lower_mime c = Ok (toLowerCase s).
Proof.
  unfold matchable, lower_mime, get_prop. intros H. bool_hyps. destruct (js_get c "mimeType") as [| | | |s| |]; try done.
  exists s. split; [done|]. by destruct c.
Qed.

Lemma parameter_or0_ok c key : matchable c = true → ∃ x, parameter_or0 c key = Ok x.
Proof.
  unfold matchable, parameter_or0, get_prop. intros H. bool_hyps.
  destruct (is_nullish (js_get c "parameters")); [done|]. simpl. by eexists.
Qed.

Section Negotiation.
Context (isSameProfile : jsval → jsval → bool).
Context (generateProfileLevelIdStringForAnswer : jsval → jsval → outcome jsval).
Abbreviation matchCodecs := (matchCodecs isSameProfile generateProfileLevelIdStringForAnswer).
Abbreviation find_local := (find_local isSameProfile generateProfileLevelIdStringForAnswer).
Abbreviation match_remote := (match_remote isSameProfile generateProfileLevelIdStringForAnswer).
Abbreviation match_remotes := (match_remotes isSameProfile generateProfileLevelIdStringForAnswer).
Abbreviation getExtendedRtpCapabilities :=
  (getExtendedRtpCapabilities isSameProfile generateProfileLevelIdStringForAnswer).
Abbreviation reduceCodecs := (reduceCodecs isSameProfile generateProfileLevelIdStringForAnswer).

Lemma matchCodecs_spec a b strict modify : matchable a = true → matchable b = true →
  ∃ m a' b', matchCodecs a b strict modify = Ok (m, (a', b')) ∧ same_object a a' ∧ same_object b b' ∧
    (m = true → same_codec a b).
Proof.
  intros Ha Hb. destruct (lower_mime_ok a Ha) as (sa & _ & Ea), (lower_mime_ok b Hb) as (sb & _ & Eb).
  assert (same_object a a ∧ same_object b b) as [Ra Rb] by done.
  assert (∃ m a' b', Ok (false, (a, b)) = Ok (m, (a', b')) ∧ same_object a a' ∧ same_object b b' ∧
    (m = true → same_codec a b)) as Hno by (exists false, a, b; done).
  unfold Ortc.matchCodecs. rewrite Ea, Eb. cbn [mbind outcome_bind]. cbv zeta.
  destruct (String.eqb (toLowerCase sa) (toLowerCase sb)) eqn:E1; [|done]. apply String.eqb_eq in E1.
  destruct (strict_eq (js_get a "clockRate") _) eqn:E2; [|done].
  destruct (strict_eq (js_get a "channels") _) eqn:E3; [|done]. cbn [negb].
  assert (same_codec a b) as Hs by (split_and!; [congruence|done|done]).
  assert (∃ m a' b', Ok (true, (a, b)) = Ok (m, (a', b')) ∧ same_object a a' ∧ same_object b b' ∧
    (m = true → same_codec a b)) as Hyes by (exists true, a, b; done).
  destruct (_ && strict); [|destruct (_ && strict); [|done]].
  - destruct (parameter_or0_ok a "packetization-mode" Ha) as [pa ->], (parameter_or0_ok b "packetization-mode" Hb) as [pb ->].
    cbn [mbind outcome_bind]. destruct (negb _); [done|]. destruct (negb _); [done|].
    destruct (generateProfileLevelIdStringForAnswer _ _) as [id|]; [|done]. destruct modify; [|done].
    eexists true, _, _. split; [done|]. split; [by apply set_profile_same|]. split; [by apply set_profile_same|done].
  - destruct (parameter_or0_ok a "profile-id" Ha) as [pa ->], (parameter_or0_ok b "profile-id" Hb) as [pb ->].
    cbn [mbind outcome_bind]. by destruct (negb _).
Qed.

(** The search among the local codecs: none, or the first that matches. *)
Lemma find_local_spec locals i r : Forall (λ c, matchable c = true) locals → matchable r = true →
  ∃ o, find_local locals i r = Ok o ∧
    match o with
    | None => True
    | Some (k, l', r') => ∃ n l, k = (i + n)%nat ∧ locals !! n = Some l ∧ same_object l l' ∧ same_object r r' ∧ same_codec l r
    end.
Proof.
  intros Hl Hr. revert i. induction Hl as [|c locals Hc Hl IH]; intros i; cbn [Ortc.find_local]; [by eexists|].
  destruct (matchCodecs_spec c r true true Hc Hr) as ([] & c' & r' & -> & H1 & H2 & H3); cbn [mbind outcome_bind].
  - eexists. split; [done|]. exists 0%nat, c. rewrite Nat.add_0_r. split_and!; auto.
  - destruct (IH (S i)) as (o & -> & Ho). exists o. split; [done|]. destruct o as [[[k l'] r'']|]; [|done].
    destruct Ho as (n & l & -> & Hn & Hrest). exists (S n), l. split; [lia|]. done.
Qed.

Lemma reduceRtcpFeedback_ok a b : matchable a = true → matchable b = true → is_ok (reduceRtcpFeedback a b) = true.
Proof.
  unfold matchable, reduceRtcpFeedback, iterate_or_empty, iterate. intros Ha Hb. bool_hyps.
  destruct (js_get a "rtcpFeedback") as [| | | | |la|]; try done. destruct (js_get b "rtcpFeedback"); try done. by destruct la.
Qed.

Definition matchables (l : list jsval) : Prop := Forall (λ c, matchable c = true) l.

Lemma same_objects_matchable l l' : Forall2 same_object l l' → matchables l'.
Proof. induction 1 as [|? ? ? ? [H _]]; by constructor. Qed.

Lemma same_objects_refl l : matchables l → Forall2 same_object l l.
Proof. induction 1; by constructor. Qed.

Lemma same_objects_insert l i c c' : matchables l → l !! i = Some c → same_object c c' → Forall2 same_object l (<[i := c']> l).
Proof.
  intros Hl. revert i. induction Hl as [|x l Hx Hl IH]; intros [|i] Hi Hc; simplify_eq/=; constructor;
    auto using same_objects_refl, same_object_refl.
Qed.

(** Where an extended codec comes from: codecs as the two sides announced them. *)
Definition pairs (locals remotes : list jsval) (x : ext_codec) : Prop :=
  ∃ l r, l ∈ locals ∧ r ∈ remotes ∧ isRtxCodec r = false ∧ same_codec l r ∧
    xc_mimeType x = js_get l "mimeType" ∧ xc_kind x = js_get l "kind" ∧
    xc_localPayloadType x = js_get l "preferredPayloadType" ∧ xc_remotePayloadType x = js_get r "preferredPayloadType".

Lemma match_remote_spec locals remotes j r : matchables locals → matchables remotes → remotes !! j = Some r →
  ∃ locals' remotes' o, match_remote locals remotes j r = Ok (locals', remotes', o) ∧
    Forall2 same_object locals locals' ∧ Forall2 same_object remotes remotes' ∧
    (∀ n, n ≠ j → remotes' !! n = remotes !! n) ∧ (isRtxCodec r = true → o = None) ∧
    ∀ x, o = Some x → xc_remotePayloadType x = js_get r "preferredPayloadType" ∧ pairs locals [r] x.
Proof.
  intros Hl Hr Hj. unfold Ortc.match_remote. destruct (isRtxCodec r) eqn:Ex.
  { eexists _, _, None. split_and!; [done|by apply same_objects_refl|by apply same_objects_refl|done|done|done]. }
  assert (matchable r = true) as Hmr by (unfold matchables in Hr; rewrite Forall_forall in Hr; by eapply Hr, list_elem_of_lookup_2).
  destruct (find_local_spec locals 0 r Hl Hmr) as (o & -> & Ho). cbn [mbind outcome_bind].
  destruct o as [[[k l'] r']|].
  2: { eexists _, _, None. split_and!; [done|by apply same_objects_refl|by apply same_objects_refl|done|done|done]. }
  destruct Ho as (n & l & -> & Hn & H1 & H2 & Hs). pose proof H1 as [Hm1 Hg1]. pose proof H2 as [Hm2 Hg2].
  pose proof (reduceRtcpFeedback_ok l' r' Hm1 Hm2) as Hfb. destruct (reduceRtcpFeedback l' r') as [fb|]; [|done].
  cbn [mbind outcome_bind]. eexists _, _, _. split; [done|].
  split; [by apply (same_objects_insert _ _ l)|]. split; [by apply (same_objects_insert _ _ r)|].
  split; [intros; by rewrite list_lookup_insert_ne|]. split; [done|].
  intros x [= <-]. cbn. split; [by rewrite Hg2|]. exists l, r. cbn. rewrite !Hg1, Hg2 by done.
  split_and!; try done; [by eapply list_elem_of_lookup_2|set_solver].
Qed.

(** The same pair seen from earlier states of the codec objects. *)
Lemma same_codec_back a a' b : same_object a a' → same_codec a' b → matchable a = true → same_codec a b.
Proof.
  intros [Hm Hg] (H1 & H2 & H3) Ha. split_and!; [|by rewrite <- Hg|by rewrite <- Hg]. rewrite <- H1.
  destruct (lower_mime_ok a Ha) as (s & Es & ->), (lower_mime_ok a' Hm) as (s' & Es' & ->).
  rewrite (Hg "mimeType") in Es' by done. congruence.
Qed.

Lemma pairs_back locals0 locals rs x : matchables locals0 → Forall2 same_object locals0 locals →
  pairs locals rs x → pairs locals0 rs x.
Proof.
  intros Hm0 HF (l & r & Hl & Hr & Hx & Hs & H1 & H2 & H3 & H4). apply list_elem_of_lookup in Hl as [i Hi].
  destruct (Forall2_lookup_r _ _ _ _ _ HF Hi) as (l0 & Hl0 & Hsame). pose proof Hsame as [_ Hg].
  exists l0, r. split; [by eapply list_elem_of_lookup_2|]. split_and!; try done.
  - eapply same_codec_back; [done|done|]. unfold matchables in Hm0. rewrite Forall_forall in Hm0.
    by eapply Hm0, list_elem_of_lookup_2.
  - by rewrite H1, Hg.
  - by rewrite H2, Hg.
  - by rewrite H3, Hg.
Qed.

Lemma pairs_weaken locals rs rs' x : pairs locals rs x → (∀ r, r ∈ rs → r ∈ rs') → pairs locals rs' x.
Proof. intros (l & r & Hl & Hr & Hrest) Hsub. exists l, r. split; [done|]. split; [by apply Hsub|done]. Qed.

Definition media (codecs : list jsval) : list jsval := List.filter (λ c, negb (isRtxCodec c)) codecs.

Definition payload (c : jsval) : jsval := js_get c "preferredPayloadType".

Lemma match_remotes_spec locals remotes j todo : matchables locals → matchables remotes →
  (∀ n, todo !! n = remotes !! (j + n)%nat) →
  ∃ locals' remotes' xs, match_remotes locals remotes j todo = Ok (locals', remotes', xs) ∧
    Forall2 same_object locals locals' ∧ Forall2 same_object remotes remotes' ∧
    sublist (map xc_remotePayloadType xs) (map payload (media todo)) ∧ Forall (pairs locals todo) xs.
Proof.
  revert locals remotes j. induction todo as [|r todo IH]; intros locals remotes j Hl Hr Hj; cbn [Ortc.match_remotes].
  { eexists _, _, []. split_and!; [done|by apply same_objects_refl|by apply same_objects_refl|constructor|constructor]. }
  assert (remotes !! j = Some r) as Hjr by (rewrite <- (Nat.add_0_r j); by rewrite <- Hj).
  destruct (match_remote_spec locals remotes j r Hl Hr Hjr) as (l1 & r1 & o & -> & HF1 & HF2 & Hne & Hrtx & Ho).
  cbn [mbind outcome_bind].
  destruct (IH l1 r1 (S j)) as (l2 & r2 & xs & E & HF3 & HF4 & Hsub & Hp).
  { by eapply same_objects_matchable. }
  { by eapply same_objects_matchable. }
  { intros n. rewrite Hne by lia. specialize (Hj (S n)). simpl in Hj. rewrite Hj. f_equal. lia. }
  rewrite E. cbn [mbind outcome_bind].
  assert (Forall (pairs locals (r :: todo)) xs) as Hps.
  { eapply Forall_impl; [exact Hp|]. intros x Hx. eapply pairs_weaken; [by eapply pairs_back|set_solver]. }
  eexists _, _, _. split; [done|].
  split; [by etrans|].
  split; [by etrans|].
  unfold media. cbn [List.filter]. destruct o as [x|].
  - destruct (Ho x eq_refl) as [Hpay Hpx]. destruct (isRtxCodec r) eqn:Ex; [by specialize (Hrtx eq_refl)|]. cbn [negb map].
    split; [rewrite Hpay; by apply sublist_skip|]. constructor; [|done]. eapply pairs_weaken; [done|set_solver].
  - split; [|done]. destruct (negb (isRtxCodec r)); [by apply sublist_cons|done].
Qed.

(** ** Finishing the extended codecs *)

Lemma find_ok_total {A} (p : A → outcome bool) l : Forall (λ x, is_ok (p x) = true) l →
  ∃ o, find_ok p l = Ok o ∧ ∀ x, o = Some x → x ∈ l ∧ p x = Ok true.
Proof.
  induction 1 as [|x l Hx _ (o & IH & Ho)]; simpl; [by exists None|]. destruct (p x) as [[]|] eqn:E; [..|done]; simpl.
  - exists (Some x). split; [done|]. intros ? [= <-]. split; [left|done].
  - exists o. split; [done|]. intros y Hy. destruct (Ho y Hy). split; [by right|done].
Qed.

Lemma is_rtx_of_total pt l : matchables l → Forall (λ c, is_ok (is_rtx_of pt c) = true) l.
Proof.
  intros H. eapply Forall_impl; [exact H|]. intros c Hc. unfold matchable in Hc. bool_hyps. unfold is_rtx_of, get_prop.
  destruct (isRtxCodec c); [|done]. by destruct (is_nullish (js_get c "parameters")).
Qed.

(** The fields an extended codec copies. *)
Definition shows (c : jsval) (x : ext_codec) : Prop :=
  js_get c "mimeType" = xc_mimeType x ∧ js_get c "kind" = xc_kind x ∧
  js_get c "localPayloadType" = xc_localPayloadType x ∧ js_get c "remotePayloadType" = xc_remotePayloadType x ∧
  is_array (js_get c "rtcpFeedback") = true.

Lemma finish_codec_total locals remotes x : matchables locals → matchables remotes →
  ∃ c, finish_codec locals remotes x = Ok c ∧ shows c x.
Proof.
  intros Hl Hr. unfold finish_codec.
  destruct (find_ok_total (is_rtx_of (xc_localPayloadType x)) locals) as (ol & -> & _); [by apply is_rtx_of_total|].
  destruct (find_ok_total (is_rtx_of (xc_remotePayloadType x)) remotes) as (or & -> & _); [by apply is_rtx_of_total|].
  cbn [mbind outcome_bind]. destruct ol as [l|], or as [r|]; eexists; (split; [reflexivity|]); done.
Qed.

Lemma finish_codecs_total locals remotes xs : matchables locals → matchables remotes →
  ∃ cs, traverse (finish_codec locals remotes) xs = Ok cs ∧ Forall2 shows cs xs.
Proof.
  intros Hl Hr. induction xs as [|x xs (cs & IH & HF)]; [by exists []|].
  destruct (finish_codec_total locals remotes x Hl Hr) as (c & E & Hc). exists (c :: cs). simpl. rewrite E. simpl. rewrite IH. simpl.
  split; [done|by constructor].
Qed.

Lemma wf_arrays caps : wf_capabilities caps = true →
  ∃ cs es, js_get caps "codecs" = JArr cs ∧ js_get caps "headerExtensions" = JArr es ∧ matchables cs.
Proof.
  unfold wf_capabilities. intros H. bool_hyps.
  destruct (js_get caps "codecs") as [| | | | |cs|]; try done. destruct (js_get caps "headerExtensions") as [| | | | |es|]; try done.
  exists cs, es. split_and!; try done. apply Forall_forall. intros c Hc. apply wf_matchable. simpl in *.
  match goal with H : forallb wf_codec_capability _ = true |- _ => rewrite forallb_forall in H; by apply H, list_elem_of_In end.
Qed.

(** The codecs of a capabilities dictionary. *)
Definition caps_codecs (caps : jsval) : list jsval := match js_get caps "codecs" with JArr l => l | _ => [] end.

(** An extended codec pairs a local codec with a remote media codec of the same
    type and carries the payload types of both. *)
Definition negotiated (localCaps remoteCaps c : jsval) : Prop :=
  ∃ l r, l ∈ caps_codecs localCaps ∧ r ∈ caps_codecs remoteCaps ∧ isRtxCodec r = false ∧ same_codec l r ∧
    js_get c "mimeType" = js_get l "mimeType" ∧ js_get c "kind" = js_get l "kind" ∧
    js_get c "localPayloadType" = payload l ∧ js_get c "remotePayloadType" = payload r.

Lemma extended_spec localCaps remoteCaps : wf_capabilities localCaps = true → wf_capabilities remoteCaps = true →
  ∃ ext, getExtendedRtpCapabilities localCaps remoteCaps = Ok ext ∧
    sublist (map (λ c, js_get c "remotePayloadType") (ex_codecs ext)) (map payload (media (caps_codecs remoteCaps))) ∧
    Forall (negotiated localCaps remoteCaps) (ex_codecs ext) ∧
    Forall (λ c, is_array (js_get c "rtcpFeedback") = true) (ex_codecs ext).
Proof.
  intros Hl Hr. destruct (wf_arrays _ Hl) as (ls & les & El & Eel & Hls), (wf_arrays _ Hr) as (rs & res & Er & Eer & Hrs).
  unfold Ortc.getExtendedRtpCapabilities, iterate_or_empty, caps_codecs, negotiated, caps_codecs. rewrite El, Er, Eel, Eer.
  cbn [is_nullish iterate mbind outcome_bind].
  destruct (match_remotes_spec ls rs 0 rs Hls Hrs (λ _, eq_refl)) as (ls' & rs' & xs & -> & HF1 & HF2 & Hsub & Hp).
  cbn [mbind outcome_bind].
  destruct (finish_codecs_total ls' rs' xs) as (cs & -> & Hcs); [by eapply same_objects_matchable..|].
  cbn [mbind outcome_bind].
  assert (∃ exts, traverse (extended_extension (Ok les)) res = Ok exts) as [exts ->].
  { assert (is_ok (traverse (extended_extension (Ok les)) res) = true) as H.
    { rewrite traverse_is_ok. apply forallb_forall. intros e _. unfold extended_extension. simpl. by destruct (array_find _ _). }
    destruct (traverse _ _) as [exts|]; [by eexists|done]. }
  cbn [mbind outcome_bind]. eexists. split; [done|]. cbn [ex_codecs].
  split; [|split].
  - assert (map (λ c, js_get c "remotePayloadType") cs = map xc_remotePayloadType xs) as ->; [|done].
    clear -Hcs. induction Hcs as [|c x cs xs (_ & _ & _ & H & _)]; simpl; congruence.
  - apply Forall_forall. intros c Hc. apply list_elem_of_lookup in Hc as [i Hi].
    destruct (Forall2_lookup_l _ _ _ _ _ Hcs Hi) as (x & Hx & Hm & Hk & Hlp & Hrp & _).
    rewrite Forall_forall in Hp. destruct (Hp x) as (l & r & ? & ? & ? & ? & E1 & E2 & E3 & E4); [by eapply list_elem_of_lookup_2|].
    exists l, r. unfold payload. split_and!; try done; congruence.
  - clear -Hcs. induction Hcs as [|c x cs xs (_ & _ & _ & _ & H)]; by constructor.
Qed.

(** C7: on validated capabilities the negotiation always succeeds, whatever the
    H.264 package answers; the extended codecs follow the remote order of
    preference, and each pairs a local codec with a remote media codec of the same
    MIME type (ignoring case), clock rate and channels and carries the payload
    types the two sides announced. *)
Theorem extended_capabilities_negotiated localCaps remoteCaps :
  wf_capabilities localCaps = true → wf_capabilities remoteCaps = true →
  ∃ ext, getExtendedRtpCapabilities localCaps remoteCaps = Ok ext ∧
    sublist (map (λ c, js_get c "remotePayloadType") (ex_codecs ext)) (map payload (media (caps_codecs remoteCaps))) ∧
    Forall (negotiated localCaps remoteCaps) (ex_codecs ext).
Proof. intros Hl Hr. destruct (extended_spec _ _ Hl Hr) as (ext & ? & ? & ? & _). by exists ext. Qed.

(** ** Parameters for sending *)


(** The codecs of an object with a [codecs] array. *)
Definition params_codecs (p : jsval) : list jsval := match js_get p "codecs" with JArr l => l | _ => [] end.




(** ** Parameters for the remote description *)

Lemma send_codecs_feedback params c x : is_array (js_get c "rtcpFeedback") = true →
  x ∈ send_codecs params c → is_array (js_get x "rtcpFeedback") = true ∧ is_obj x = true.
Proof.
  intros Hc. unfold send_codecs. intros [->|Hx]%elem_of_cons; [done|]. destruct (truthy _); [|set_solver].
  apply list_elem_of_singleton in Hx as ->. done.
Qed.

Lemma filter_feedback_spec keep x : is_array (js_get x "rtcpFeedback") = true → is_obj x = true →
  ∃ y, filter_feedback keep x = Ok y ∧ js_get y "payloadType" = js_get x "payloadType" ∧
    js_get y "mimeType" = js_get x "mimeType" ∧
    ∃ fbs, js_get x "rtcpFeedback" = JArr fbs ∧ js_get y "rtcpFeedback" = JArr (List.filter keep fbs).
Proof.
  intros Ha Ho. unfold filter_feedback, iterate_or_empty. destruct (js_get x "rtcpFeedback") as [| | | | |fbs|] eqn:E; try done.
  cbn [is_nullish iterate mbind outcome_bind]. eexists. split; [done|]. rewrite !js_get_set_ne by done.
  split_and!; try done. exists fbs. split; [done|]. by apply get_set_same.
Qed.

(** How a codec of the remote description derives from a codec for sending. *)
Definition described (keep : jsval → bool) (x y : jsval) : Prop :=
  js_get y "payloadType" = js_get x "payloadType" ∧ js_get y "mimeType" = js_get x "mimeType" ∧
  ∃ fbs, js_get x "rtcpFeedback" = JArr fbs ∧ js_get y "rtcpFeedback" = JArr (List.filter keep fbs).

Lemma send_codecs_params p q c : Forall2 (λ x y, js_get x "payloadType" = js_get y "payloadType" ∧
    js_get x "mimeType" = js_get y "mimeType" ∧ js_get x "rtcpFeedback" = js_get y "rtcpFeedback")
  (send_codecs p c) (send_codecs q c).
Proof. unfold send_codecs. constructor; [done|]. destruct (truthy _); [by repeat constructor|constructor]. Qed.

Lemma concat_send_params p q cs : Forall2 (λ x y, js_get x "payloadType" = js_get y "payloadType" ∧
    js_get x "mimeType" = js_get y "mimeType" ∧ js_get x "rtcpFeedback" = js_get y "rtcpFeedback")
  (concat (map (send_codecs p) cs)) (concat (map (send_codecs q) cs)).
Proof. induction cs; cbn [map concat]; [constructor|]. apply Forall2_app; [apply send_codecs_params|done]. Qed.

Lemma describe_all keep xs : Forall (λ x, is_array (js_get x "rtcpFeedback") = true ∧ is_obj x = true) xs →
  ∃ ys, traverse (filter_feedback keep) xs = Ok ys ∧ Forall2 (described keep) xs ys.
Proof.
  induction 1 as [|x xs [Ha Ho] _ (ys & IH & HF)]; [by exists []|].
  destruct (filter_feedback_spec keep x Ha Ho) as (y & E & Hy). exists (y :: ys). simpl. rewrite E. simpl. rewrite IH.
  split; [done|by constructor].
Qed.

(** The parameters for the remote description list the codecs for sending one
    by one, with the same payload and MIME types and the same header extensions,
    and keep the RTCP feedback the extensions allow: with transport-wide congestion
    control no [goog-remb], else with absolute send time no [transport-cc], else
    neither, and every other feedback. *)
Theorem remote_description_matches localCaps remoteCaps ext kind :
  wf_capabilities localCaps = true → wf_capabilities remoteCaps = true →
  getExtendedRtpCapabilities localCaps remoteCaps = Ok ext →
  let sending := getSendingRtpParameters kind ext in
  ∃ remote, getSendingRemoteRtpParameters kind ext = Ok remote ∧
    js_get remote "headerExtensions" = js_get sending "headerExtensions" ∧
    Forall2 (described (keep_feedback (send_extensions kind ext))) (params_codecs sending) (params_codecs remote).
Proof.
  intros Hl Hr E. destruct (extended_spec _ _ Hl Hr) as (ext' & E' & _ & _ & Hfb).
  assert (ext' = ext) as -> by congruence. cbv zeta. unfold getSendingRemoteRtpParameters.
  destruct (describe_all (keep_feedback (send_extensions kind ext))
    (concat (map (send_codecs "remoteParameters") (codecs_of_kind kind ext)))) as (ys & -> & HF).
  { apply Forall_forall. intros x Hx. apply list_elem_of_In, in_concat in Hx as (l & Hl' & Hx).
    apply in_map_iff in Hl' as (c & <- & Hc). apply filter_In in Hc as [Hc _]. rewrite Forall_forall in Hfb.
    eapply send_codecs_feedback; [by apply Hfb, list_elem_of_In|by apply list_elem_of_In]. }
  cbn [mbind outcome_bind]. eexists. split; [done|]. split; [done|].
  change (params_codecs (getSendingRtpParameters kind ext))
    with (concat (map (send_codecs "localParameters") (codecs_of_kind kind ext))).
  change (params_codecs (rtp_parameters ys (send_extensions kind ext))) with ys.
  pose proof (concat_send_params "localParameters" "remoteParameters" (codecs_of_kind kind ext)) as HP.
  revert ys HF. induction HP as [|x y xs ys' (H1 & H2 & H3) HP IH]; intros ys HF; inv HF; constructor; auto.
  destruct H4 as (G1 & G2 & fbs & G3 & G4). split_and!; [congruence|congruence|]. exists fbs. split; congruence.
Qed.
End Negotiation.

(** ** The RTP probator *)

Lemma probator_object_valid c exts : wf_codec_parameters c = true → forallb wf_extension_parameters exts = true →
  is_ok (validateRtpParameters (JObj [("mid", JStr "probator"); ("codecs", JArr [c]); ("headerExtensions", JArr exts);
    ("encodings", JArr [JObj [("ssrc", js_int 1234)]]); ("rtcp", JObj [("cname", JStr "probator")])])) = true.
Proof.
  intros Hc He. unfold validateRtpParameters.
  rewrite (for_each_id _ wf_codec_parameters) by exact (andb_true_intro (conj Hc eq_refl)). cbn [mbind outcome_bind].
  erewrite (optional_array_id wf_extension_parameters) by exact He. cbn [mbind outcome_bind].
  rewrite (for_each_id _ wf_extension_parameters) by exact He. reflexivity.
Qed.

(** The probator's parameters are made from valid video parameters with a
    codec, and only from these; they are themselves valid, with the probator's
    identifiers and the first video codec under payload type 127. *)
Theorem probator_valid v :
  plain_parameters v = true →
  (is_ok (generateProbatorRtpParameters v) = true ↔
     ∃ v' c cs, validateRtpParameters v = Ok v' ∧ js_get v' "codecs" = JArr (c :: cs)) ∧
  ∀ p, generateProbatorRtpParameters v = Ok p →
    is_ok (validateRtpParameters p) = true ∧ js_get p "mid" = JStr "probator" ∧
    ∃ c, js_get p "codecs" = JArr [c] ∧ js_get c "payloadType" = js_int 127.
Proof.
  intros Hp. unfold generateProbatorRtpParameters. destruct (validateRtpParameters v) as [v'|] eqn:E.
  2: { split; [|done]. split; [done|]. by intros (? & ? & ? & ? & _). }
  pose proof (parameters_norm _ _ Hp E) as Hwf. unfold wf_rtp_parameters in Hwf. bool_hyps. cbn [mbind outcome_bind].
  destruct (js_get v' "codecs") as [| | | | |[|c cs]|] eqn:Ec; try done; cbn [iterate mbind outcome_bind is_ok].
  { split; [|done]. split; [done|]. intros (v'' & c & cs & [= <-] & Hc). congruence. }
  split; [split; [by eauto 10|done]|]. intros p [= <-].
  match goal with H : array_all wf_codec_parameters _ = true |- _ => cbn [array_all forallb] in H end. bool_hyps.
  assert (wf_codec_parameters (js_set c "payloadType" (js_int 127)) = true) as Hc.
  { unfold wf_codec_parameters in *. rewrite (mime_of_get c) by by js_read. destruct (mime_of c) as [k|]; [|done]. bool_hyps.
    unfold wf_codec in *. bool_hyps. js_read.
    repeat match goal with H : _ = true |- _ => rewrite H end. done. }
  split; [|split; [done|]].
  - destruct (js_get v' "headerExtensions"); try done. by apply probator_object_valid.
  - eexists. split; [done|]. destruct c; try done. apply get_set_same. done.
Qed.

(** ** Concrete negotiations

    A stand-in for the H.264 package: every profile is the same and the answer is
    the remote level. *)

Definition demo_same_profile (a b : jsval) : bool := true.
Definition demo_answer (a b : jsval) : outcome jsval := Ok (js_get b "profile-level-id").

Definition demo_codec (mime kind : string) (pt rate : Z) (rest parameters : list (string * jsval)) : jsval :=
  JObj ([("mimeType", JStr mime); ("kind", JStr kind); ("preferredPayloadType", js_int pt); ("clockRate", js_int rate);
         ("parameters", JObj parameters);
         ("rtcpFeedback", JArr [JObj [("type", JStr "transport-cc"); ("parameter", JStr "")];
                                JObj [("type", JStr "goog-remb"); ("parameter", JStr "")]])] ++ rest).

Definition demo_extension (uri : string) (id : Z) : jsval :=
  JObj [("kind", JStr "video"); ("uri", JStr uri); ("preferredId", js_int id); ("preferredEncrypt", JBool false);
        ("direction", JStr "sendrecv")].

Definition demo_caps (codecs : list jsval) : jsval :=
  JObj [("codecs", JArr codecs); ("headerExtensions", JArr [demo_extension TRANSPORT_CC_URI 5])].

Definition demo_local : jsval := demo_caps [
  demo_codec "video/H264" "video" 102 90000 [] [("profile-level-id", JStr "42e01f")];
  demo_codec "video/rtx" "video" 103 90000 [] [("apt", js_int 102)];
  demo_codec "audio/opus" "audio" 111 48000 [("channels", js_int 2)] []].

Definition demo_remote : jsval := demo_caps [
  demo_codec "audio/OPUS" "audio" 100 48000 [("channels", js_int 2)] [];
  demo_codec "video/VP8" "video" 101 90000 [] [];
  demo_codec "video/h264" "video" 105 90000 [] [("profile-level-id", JStr "42e01f")];
  demo_codec "video/rtx" "video" 106 90000 [] [("apt", js_int 105)]].

Definition demo_ext : ExtendedRtpCapabilities :=
  match getExtendedRtpCapabilities demo_same_profile demo_answer demo_local demo_remote with
  | Ok ext => ext
  | Throw _ => {| ex_codecs := []; ex_headerExtensions := [] |}
  end.

Lemma extended_capabilities_negotiated_witness :
  ∃ ext, getExtendedRtpCapabilities demo_same_profile demo_answer demo_local demo_remote = Ok ext ∧
    Forall (negotiated demo_local demo_remote) (ex_codecs ext) ∧
    map (λ c, js_get c "remotePayloadType") (ex_codecs ext) = [js_int 100; js_int 105].
Proof.
  destruct (extended_capabilities_negotiated demo_same_profile demo_answer demo_local demo_remote)
    as (ext & E & _ & Hn); [vm_compute; reflexivity..|].
  exists ext. split; [exact E|]. split; [exact Hn|]. vm_compute in E. injection E as <-. vm_compute. reflexivity.
Defined.


(** Transport-wide congestion control is negotiated: [goog-remb] goes. *)
Lemma remote_description_matches_witness :
  ∃ remote, getSendingRemoteRtpParameters "video" demo_ext = Ok remote ∧
    map (λ c, js_get c "payloadType") (params_codecs remote) = [js_int 102; js_int 103] ∧
    Forall2 (described (keep_feedback (send_extensions "video" demo_ext)))
      (params_codecs (getSendingRtpParameters "video" demo_ext)) (params_codecs remote).
Proof.
  destruct (remote_description_matches demo_same_profile demo_answer demo_local demo_remote demo_ext "video")
    as (remote & E & _ & HF); [vm_compute; reflexivity..|].
  exists remote. split; [exact E|]. split; [|exact HF]. vm_compute in E. injection E as <-. vm_compute. reflexivity.
Defined.

Lemma probator_valid_witness :
  is_ok (generateProbatorRtpParameters demo_parameters) = true ∧
  ∀ p, generateProbatorRtpParameters demo_parameters = Ok p → is_ok (validateRtpParameters p) = true.
Proof.
  destruct (probator_valid demo_parameters ltac:(vm_compute; reflexivity)) as [H1 H2]. split.
  - apply H1. eexists _, _, _. split; vm_compute; reflexivity.
  - intros p Hp. apply (H2 p Hp).
Defined.

(** Two remote H.264 codecs that match one local codec share its parameters
    object: the level selected for the second shows up in the first. *)
Lemma shared_parameters_overwritten :
  let remote := demo_caps [
    demo_codec "video/h264" "video" 105 90000 [] [("profile-level-id", JStr "42e01f")];
    demo_codec "video/h264" "video" 107 90000 [] [("profile-level-id", JStr "42e00b")]] in
  ∃ ext c, getExtendedRtpCapabilities demo_same_profile demo_answer demo_local remote = Ok ext ∧
    ex_codecs ext !! 0%nat = Some c ∧
    js_get (js_get c "remoteParameters") "profile-level-id" = JStr "42e01f" ∧
    js_get (js_get c "localParameters") "profile-level-id" = JStr "42e00b".
Proof. eexists _, _. split; [vm_compute; reflexivity|]. split_and!; reflexivity. Qed.
