(* ===== verification/ClientBase.v ===== *)
(** * Tracks, errors and events of the client objects

    What producers, consumers and transports share: the errors of
    src/client/lib/errors.js, the events they emit, and the media stream tracks
    of the browser they hold references to.  Tracks are mutable objects of the
    application, so they live in a store and are named by their address; two
    objects may hold the same track. *)

From stdpp Require Import gmap.
From S2P Require Import Prelude JsNum JsVal.
Local Open Scope string_scope.
Local Open Scope list_scope.

(** ** Errors *)

(** The two error classes of errors.js, [TypeError], and whatever else a callee
    throws or rejects with. *)
Inductive error :=
| InvalidStateError (message : string)
| UnsupportedError (message : string)
| TypeError (message : string)
| OtherError (message : string).

#[export] Instance error_eq : EqDecision error.
Proof. solve_decision. Defined.

(** ** Media stream tracks

    The attributes the library reads or writes, and the listeners of the
    [ended] event, each the address of the object that registered. *)

Record MediaStreamTrack := {
  t_kind : string;
  t_enabled : bool;
  (** [readyState === 'ended']. *)
  t_ended : bool;
  t_listeners : list nat;
}.

Definition with_enabled (b : bool) (t : MediaStreamTrack) : MediaStreamTrack :=
  {| t_kind := t_kind t; t_enabled := b; t_ended := t_ended t; t_listeners := t_listeners t |}.
Definition end_track (t : MediaStreamTrack) : MediaStreamTrack :=
  {| t_kind := t_kind t; t_enabled := t_enabled t; t_ended := true; t_listeners := t_listeners t |}.
Definition with_listeners (ls : list nat) (t : MediaStreamTrack) : MediaStreamTrack :=
  {| t_kind := t_kind t; t_enabled := t_enabled t; t_ended := t_ended t; t_listeners := ls |}.

(** [addEventListener('ended', l)] registers a function once;
    [removeEventListener] forgets it. *)
Definition add_listener (l : nat) (t : MediaStreamTrack) : MediaStreamTrack :=
  with_listeners (set_add (t_listeners t) l) t.
Definition remove_listener (l : nat) (t : MediaStreamTrack) : MediaStreamTrack :=
  with_listeners (set_remove (t_listeners t) l) t.

(** [track.stop()] belongs to the platform.  When it returns, the track has
    ended and nothing else of it has changed; it may throw, and the library
    guards every call with [try]. *)
Class TrackPlatform := {
  track_stop : MediaStreamTrack → outcome MediaStreamTrack;
  track_stop_ends t t' : track_stop t = Ok t' → t' = end_track t;
}.

(** The browsers' [stop] always ends the track. *)
#[export] Program Instance browser : TrackPlatform := {| track_stop t := Ok (end_track t) |}.
Next Obligation. by intros t t' [= <-]. Qed.

Abbreviation tracks := (gmap nat MediaStreamTrack).

(** [try { track.stop(); } catch (error) {}]. *)
Definition try_stop `{TrackPlatform} (t : nat) (h : tracks) : tracks :=
  alter (λ x, match track_stop x with Ok y => y | Throw _ => x end) t h.

Definition is_ended (h : tracks) (t : nat) : bool :=
  match h !! t with Some x => t_ended x | None => false end.

(** ** Events

    What an object emits, in order: on itself with [emit] or [safeEmit], on its
    observer, or on itself with a pair of promise callbacks, which asks the
    transport for something. *)

Inductive request :=
| RPause | RResume
| RReplaceTrack (t : option nat)
| RSetMaxSpatialLayer (spatialLayer : num)
| RSetRtpEncodingParameters (params : jsval)
| RGetStats.

Inductive emitted :=
| Event (name : string)
| Observed (name : string)
| Ask (r : request).

(** What a call of an [async] method gives at once. *)
Inductive called :=
| Rejected (e : error)
| Resolved
| Awaiting (r : request).

(** ** Lemmas *)

(** [holds h l t]: the object [l] listens on the track [t]. *)
Definition listens (h : tracks) (l t : nat) : Prop :=
  match h !! t with Some x => l ∈ t_listeners x | None => False end.

Section Lemmas.
Context `{TrackPlatform}.

Lemma try_stop_listens h l t u : listens (try_stop t h) l u ↔ listens h l u.
Proof.
  unfold listens, try_stop. rewrite lookup_alter. case_decide; subst; [|done].
  destruct (h !! u) as [x|]; simpl; [|done]. destruct (track_stop x) eqn:E; [|done].
  apply track_stop_ends in E as ->. done.
Qed.

Lemma enabled_listens h b l t u : listens (alter (with_enabled b) t h) l u ↔ listens h l u.
Proof.
  unfold listens. rewrite lookup_alter. case_decide; subst; [|done]. by destruct (h !! u).
Qed.

Lemma add_listens h l l' t u :
  listens (alter (add_listener l) t h) l' u ↔ listens h l' u ∨ (l' = l ∧ t = u ∧ is_Some (h !! t)).
Proof.
  unfold listens. rewrite lookup_alter. case_decide; subst; [|naive_solver].
  destruct (h !! u) as [x|]; simpl; [|split; [done|]; intros [[]|(_ & _ & [? [=]])]].
  rewrite set_add_elem. naive_solver.
Qed.

Lemma remove_listens h l l' t u :
  listens (alter (remove_listener l) t h) l' u ↔ listens h l' u ∧ ¬ (l' = l ∧ t = u).
Proof.
  unfold listens. rewrite lookup_alter. case_decide; subst; [|naive_solver].
  destruct (h !! u) as [x|]; simpl; [|naive_solver]. rewrite set_remove_elem. naive_solver.
Qed.

(** [enabled_is h t b]: the track exists and its [enabled] attribute is [b]. *)
Definition enabled_is (h : tracks) (t : nat) (b : bool) : Prop := t_enabled <$> h !! t = Some b.

Lemma alter_enabled (f : MediaStreamTrack → MediaStreamTrack) h t u b :
  (∀ x, t_enabled (f x) = t_enabled x) → enabled_is (alter f t h) u b ↔ enabled_is h u b.
Proof.
  intros Hf. unfold enabled_is. rewrite lookup_alter. case_decide; subst; [|done].
  destruct (h !! u); simpl; [|done]. by rewrite Hf.
Qed.

Lemma try_stop_enabled h t u b : enabled_is (try_stop t h) u b ↔ enabled_is h u b.
Proof.
  apply alter_enabled. intros x. destruct (track_stop x) eqn:E; [|done].
  by apply track_stop_ends in E as ->.
Qed.

Lemma set_enabled_is h t b : is_Some (h !! t) → enabled_is (alter (with_enabled b) t h) t b.
Proof. intros [x Hx]. unfold enabled_is. by rewrite lookup_alter_eq, Hx. Qed.
End Lemmas.

(** ** The await queue

    The transport runs its asynchronous commands through the [awaitqueue]
    package, which is not part of the repository.  It enters as the interface its
    documentation describes: tasks run one at a time in the order they were
    pushed, a task leaves the queue when it completes, and [stop] empties the
    queue by rejecting every pending task, the running one included (whose body
    cannot be cancelled and runs on, its result ignored). *)
Class AwaitQueue (J Q : Type) := {
  aq_new : Q;
  (** The pending tasks, the running one first. *)
  aq_tasks : Q → list J;
  aq_push : Q → J → Q;
  (** The first task completes. *)
  aq_complete : Q → Q;
  aq_stop : Q → Q;
  aq_tasks_new : aq_tasks aq_new = [];
  aq_tasks_push q j : aq_tasks (aq_push q j) = aq_tasks q ++ [j];
  aq_tasks_complete q : aq_tasks (aq_complete q) = tail (aq_tasks q);
  aq_tasks_stop q : aq_tasks (aq_stop q) = [];
}.
#[export] Hint Rewrite @aq_tasks_new @aq_tasks_push @aq_tasks_complete @aq_tasks_stop : qos.

(** A list of tasks is such a queue. *)
#[export] Program Instance list_queue J : AwaitQueue J (list J) :=
  {| aq_new := []; aq_tasks q := q; aq_push q j := q ++ [j]; aq_complete := @tail J; aq_stop _ := [] |}.
Solve All Obligations with done.
