(* ===== verification/Producer.v ===== *)
(** * Producer (src/client/lib/Producer.js)

    A producer holds a reference to a track of the application.  Its [async]
    methods emit an event with promise callbacks and await the answer, so
    [replaceTrack] and [setMaxSpatialLayer] are cut in two at the await; what
    happens between the two halves is up to the application, the transport and
    the browser.  A run of the producer is a sequence of such events on the
    producer and the store of tracks. *)

From stdpp Require Import gmap.
From S2P Require Import Prelude JsNum JsVal ClientBase.
Local Open Scope string_scope.
Local Open Scope list_scope.

(** ** State *)

Record Producer := {
  p_closed : bool;
  p_id : string;
  p_localId : string;
  p_rtpSender : jsval;
  p_track : option nat;
  p_kind : string;
  p_rtpParameters : jsval;
  p_paused : bool;
  p_maxSpatialLayer : option num;
  p_stopTracks : bool;
  p_disableTrackOnPause : bool;
  p_zeroRtpOnPause : bool;
  p_appData : jsval;
  (** The bound [onTrackEnded] of this object, as a listener. *)
  p_self : nat;
}.

Definition p_with (closed : bool) (track : option nat) (paused : bool) (layer : option num) (p : Producer) : Producer :=
  {| p_closed := closed; p_id := p_id p; p_localId := p_localId p; p_rtpSender := p_rtpSender p; p_track := track;
     p_kind := p_kind p; p_rtpParameters := p_rtpParameters p; p_paused := paused; p_maxSpatialLayer := layer;
     p_stopTracks := p_stopTracks p; p_disableTrackOnPause := p_disableTrackOnPause p;
     p_zeroRtpOnPause := p_zeroRtpOnPause p; p_appData := p_appData p; p_self := p_self p |}.

Definition p_set_closed (p : Producer) : Producer := p_with true (p_track p) (p_paused p) (p_maxSpatialLayer p) p.
Definition p_set_track (t : option nat) (p : Producer) : Producer :=
  p_with (p_closed p) t (p_paused p) (p_maxSpatialLayer p) p.
Definition p_set_paused (b : bool) (p : Producer) : Producer :=
  p_with (p_closed p) (p_track p) b (p_maxSpatialLayer p) p.
Definition p_set_layer (v : num) (p : Producer) : Producer :=
  p_with (p_closed p) (p_track p) (p_paused p) (Some v) p.

Section Producer.
Context `{TrackPlatform}.

(** ** The track *)

Definition handleTrack (h : tracks) (p : Producer) : tracks :=
  match p_track p with
  | None => h
  | Some t => alter (add_listener (p_self p)) t h
  end.

Definition destroyTrack (h : tracks) (p : Producer) : tracks :=
  match p_track p with
  | None => h
  | Some t =>
      let h := alter (remove_listener (p_self p)) t h in
      if p_stopTracks p then try_stop t h else h
  end.

Definition onTrackEnded : list emitted := [Event "trackended"; Observed "trackended"].

(** ** Operations *)

Record ProducerOptions := {
  po_id : string;
  po_localId : string;
  po_rtpSender : jsval;
  po_track : nat;
  po_rtpParameters : jsval;
  po_stopTracks : bool;
  po_disableTrackOnPause : bool;
  po_zeroRtpOnPause : bool;
  po_appData : jsval;
}.

(** The constructor, for the track [x] found at [po_track o]. *)
Definition new_Producer (self : nat) (o : ProducerOptions) (h : tracks) (x : MediaStreamTrack) : tracks * Producer :=
  let p := {| p_closed := false; p_id := po_id o; p_localId := po_localId o; p_rtpSender := po_rtpSender o;
              p_track := Some (po_track o); p_kind := t_kind x; p_rtpParameters := po_rtpParameters o;
              p_paused := if po_disableTrackOnPause o then negb (t_enabled x) else false;
              p_maxSpatialLayer := None; p_stopTracks := po_stopTracks o;
              p_disableTrackOnPause := po_disableTrackOnPause o; p_zeroRtpOnPause := po_zeroRtpOnPause o;
              p_appData := js_coalesce (po_appData o) (JObj []); p_self := self |} in
  (handleTrack h p, p).

Definition p_close (h : tracks) (p : Producer) : tracks * Producer * list emitted :=
  if p_closed p then (h, p, [])
  else (destroyTrack h (p_set_closed p), p_set_closed p, [Event "@close"; Observed "close"]).

Definition p_transportClosed (h : tracks) (p : Producer) : tracks * Producer * list emitted :=
  if p_closed p then (h, p, [])
  else (destroyTrack h (p_set_closed p), p_set_closed p, [Event "transportclose"; Observed "close"]).

Definition p_getStats (p : Producer) : called * list emitted :=
  if p_closed p then (Rejected (InvalidStateError "closed"), [])
  else (Awaiting RGetStats, [Ask RGetStats]).

(** [this._track && this._disableTrackOnPause] guards the assignment. *)
Definition switch_track (h : tracks) (p : Producer) (enabled : bool) : tracks :=
  match p_track p with
  | Some t => if p_disableTrackOnPause p then alter (with_enabled enabled) t h else h
  | None => h
  end.

Definition p_pause (h : tracks) (p : Producer) : tracks * Producer * list emitted :=
  if p_closed p then (h, p, [])
  else
    let p := p_set_paused true p in
    (switch_track h p false, p, (if p_zeroRtpOnPause p then [Ask RPause] else []) ++ [Observed "pause"]).

Definition p_resume (h : tracks) (p : Producer) : tracks * Producer * list emitted :=
  if p_closed p then (h, p, [])
  else
    let p := p_set_paused false p in
    (switch_track h p true, p, (if p_zeroRtpOnPause p then [Ask RResume] else []) ++ [Observed "resume"]).

(** Up to the await; [None] is [null]. *)
Definition p_replaceTrack (h : tracks) (p : Producer) (track : option nat) : tracks * called * list emitted :=
  if p_closed p then
    (match track with Some t => if p_stopTracks p then try_stop t h else h | None => h end,
     Rejected (InvalidStateError "closed"), [])
  else if match track with Some t => is_ended h t | None => false end then
    (h, Rejected (InvalidStateError "track ended"), [])
  else if decide (track = p_track p) then (h, Resolved, [])
  else (h, Awaiting (RReplaceTrack track), [Ask (RReplaceTrack track)]).

(** From the answer to the end. *)
Definition replaceTrack_answered (h : tracks) (p : Producer) (track : option nat) : tracks * Producer :=
  let h := destroyTrack h p in
  let p := p_set_track track p in
  let h := switch_track h p (negb (p_paused p)) in
  (handleTrack h p, p).

Definition p_setMaxSpatialLayer (p : Producer) (spatialLayer : jsval) : called * list emitted :=
  if p_closed p then (Rejected (InvalidStateError "closed"), [])
  else if negb (String.eqb (p_kind p) "video") then (Rejected (UnsupportedError "not a video Producer"), [])
  else match spatialLayer with
  | JNum v =>
      if match p_maxSpatialLayer p with Some w => num_eqb v w | None => false end then (Resolved, [])
      else (Awaiting (RSetMaxSpatialLayer v), [Ask (RSetMaxSpatialLayer v)])
  | _ => (Rejected (TypeError "invalid spatialLayer"), [])
  end.

Definition p_setRtpEncodingParameters (p : Producer) (params : jsval) : called * list emitted :=
  if p_closed p then (Rejected (InvalidStateError "closed"), [])
  else if negb (String.eqb (js_typeof params) "object") then (Rejected (TypeError "invalid params"), [])
  else (Awaiting (RSetRtpEncodingParameters params), [Ask (RSetRtpEncodingParameters params)]).

(** What the method that made a request does with the answer: a rejection ends
    [replaceTrack], and [setMaxSpatialLayer] swallows it. *)
Definition p_answered (h : tracks) (p : Producer) (r : request) (ok : bool) : tracks * Producer :=
  match r with
  | RReplaceTrack t => if ok then replaceTrack_answered h p t else (h, p)
  | RSetMaxSpatialLayer v => (h, p_set_layer v p)
  | RPause | RResume | RSetRtpEncodingParameters _ | RGetStats => (h, p)
  end.

(** ** Runs *)

Record pstate := {
  ps_tracks : tracks;
  ps_producer : Producer;
  (** Requests that wait for an answer, oldest first. *)
  ps_waiting : list request;
  ps_out : list emitted;
}.

Inductive pevent :=
| PvPause | PvResume | PvClose | PvTransportClosed
| PvReplaceTrack (track : option nat)
| PvSetMaxSpatialLayer (v : jsval)
| PvSetRtpEncodingParameters (v : jsval)
| PvGetStats
| PvAnswer (i : nat) (ok : bool)     (** the transport answers the [i]-th waiting request *)
| PvTrackEnds (t : nat)              (** the source of a track goes away: it ends and says so *)
| PvStopTrack (t : nat)              (** the application stops a track *)
| PvEnableTrack (t : nat) (b : bool) (** the application enables or disables a track *).

Definition asked (out : list emitted) : list request :=
  omap (λ e, match e with Ask r => Some r | _ => None end) out.

Definition ps_next (s : pstate) (h : tracks) (p : Producer) (out : list emitted) : pstate :=
  {| ps_tracks := h; ps_producer := p; ps_waiting := ps_waiting s ++ asked out; ps_out := ps_out s ++ out |}.

Definition pstep (s : pstate) (e : pevent) : pstate :=
  let h := ps_tracks s in
  let p := ps_producer s in
  match e with
  | PvPause => let '(h, p, out) := p_pause h p in ps_next s h p out
  | PvResume => let '(h, p, out) := p_resume h p in ps_next s h p out
  | PvClose => let '(h, p, out) := p_close h p in ps_next s h p out
  | PvTransportClosed => let '(h, p, out) := p_transportClosed h p in ps_next s h p out
  | PvReplaceTrack track => let '(h, _, out) := p_replaceTrack h p track in ps_next s h p out
  | PvSetMaxSpatialLayer v => ps_next s h p (p_setMaxSpatialLayer p v).2
  | PvSetRtpEncodingParameters v => ps_next s h p (p_setRtpEncodingParameters p v).2
  | PvGetStats => ps_next s h p (p_getStats p).2
  | PvAnswer i ok =>
      match ps_waiting s !! i with
      | None => s
      | Some r =>
          let '(h, p) := p_answered h p r ok in
          {| ps_tracks := h; ps_producer := p; ps_waiting := delete i (ps_waiting s); ps_out := ps_out s |}
      end
  | PvTrackEnds t =>
      match h !! t with
      | None => s
      | Some x => ps_next s (alter end_track t h) p
                    (if bool_decide (p_self p ∈ t_listeners x) && negb (t_ended x) then onTrackEnded else [])
      end
  | PvStopTrack t => ps_next s (try_stop t h) p []
  | PvEnableTrack t b => ps_next s (alter (with_enabled b) t h) p []
  end.

Definition pstart (self : nat) (o : ProducerOptions) (h : tracks) (x : MediaStreamTrack) : pstate :=
  let '(h, p) := new_Producer self o h x in
  {| ps_tracks := h; ps_producer := p; ps_waiting := []; ps_out := [] |}.

Definition prun (s : pstate) (es : list pevent) : pstate := foldl pstep s es.

(** ** Invariant *)

(** The producer listens to its track and to no other; the second half of
    [replaceTrack] may run on a closed producer, so a closed one may listen too. *)
Record pinv (s : pstate) : Prop := {
  pi_only t : listens (ps_tracks s) (p_self (ps_producer s)) t → p_track (ps_producer s) = Some t;
  pi_listens t : p_closed (ps_producer s) = false → p_track (ps_producer s) = Some t →
    is_Some (ps_tracks s !! t) → listens (ps_tracks s) (p_self (ps_producer s)) t;
}.

(** A producer that disables its track shows its state in the track. *)
Definition enabled_ok (s : pstate) : Prop :=
  ∀ t, p_disableTrackOnPause (ps_producer s) = true → p_track (ps_producer s) = Some t →
    is_Some (ps_tracks s !! t) → enabled_is (ps_tracks s) t (negb (p_paused (ps_producer s))).

Lemma alter_is_some (f : MediaStreamTrack → MediaStreamTrack) t u (h : tracks) :
  is_Some (alter f t h !! u) ↔ is_Some (h !! u).
Proof. rewrite lookup_alter_is_Some. done. Qed.

Lemma try_stop_some t u h : is_Some (try_stop t h !! u) ↔ is_Some (h !! u).
Proof. apply alter_is_some. Qed.

Lemma switch_track_listens h p b l t : listens (switch_track h p b) l t ↔ listens h l t.
Proof. unfold switch_track. repeat split_match; rewrite ?enabled_listens; done. Qed.

Lemma destroyTrack_listens h p l t :
  listens (destroyTrack h p) l t ↔ listens h l t ∧ ¬ (l = p_self p ∧ p_track p = Some t).
Proof.
  unfold destroyTrack. destruct (p_track p) as [u|] eqn:Ht; [|naive_solver].
  destruct (p_stopTracks p); rewrite ?try_stop_listens, remove_listens; naive_solver.
Qed.

Lemma handleTrack_listens h p l t :
  listens (handleTrack h p) l t ↔ listens h l t ∨ (l = p_self p ∧ p_track p = Some t ∧ is_Some (h !! t)).
Proof. unfold handleTrack. destruct (p_track p) as [u|]; [rewrite add_listens|]; naive_solver. Qed.

Lemma switch_track_some h p b t : is_Some (switch_track h p b !! t) ↔ is_Some (h !! t).
Proof. unfold switch_track. repeat split_match; rewrite ?alter_is_some; done. Qed.

Lemma destroyTrack_some h p t : is_Some (destroyTrack h p !! t) ↔ is_Some (h !! t).
Proof. unfold destroyTrack, try_stop. repeat split_match; rewrite ?alter_is_some; done. Qed.

Lemma handleTrack_some h p t : is_Some (handleTrack h p !! t) ↔ is_Some (h !! t).
Proof. unfold handleTrack. split_match; rewrite ?alter_is_some; done. Qed.

Lemma end_track_listens h l t u : listens (alter end_track t h) l u ↔ listens h l u.
Proof. unfold listens. rewrite lookup_alter. case_decide; subst; [|done]. by destruct (h !! u). Qed.

Lemma handleTrack_enabled h p t b : enabled_is (handleTrack h p) t b ↔ enabled_is h t b.
Proof. unfold handleTrack. split_match; [by apply alter_enabled|done]. Qed.

Lemma destroyTrack_enabled h p t b : enabled_is (destroyTrack h p) t b ↔ enabled_is h t b.
Proof.
  unfold destroyTrack. repeat split_match; [rewrite try_stop_enabled| |]; try done; by apply alter_enabled.
Qed.

Lemma switch_track_is h p b t : p_disableTrackOnPause p = true → p_track p = Some t → is_Some (h !! t) →
  enabled_is (switch_track h p b) t b.
Proof. intros Hd Ht Hs. unfold switch_track. rewrite Ht, Hd. by apply set_enabled_is. Qed.

Ltac track_simpl :=
  cbn [ps_next ps_tracks ps_producer p_with p_set_closed p_set_track p_set_paused p_set_layer
       p_closed p_track p_self p_paused p_disableTrackOnPause p_stopTracks fst snd];
  rewrite ?handleTrack_listens, ?switch_track_listens, ?destroyTrack_listens, ?try_stop_listens, ?end_track_listens,
    ?enabled_listens, ?handleTrack_some, ?switch_track_some, ?destroyTrack_some, ?try_stop_some, ?alter_is_some;
  cbn [p_track p_self p_closed p_with p_set_closed p_set_track p_set_paused].

Lemma answered_pinv s r ok ws : pinv s →
  pinv {| ps_tracks := (p_answered (ps_tracks s) (ps_producer s) r ok).1;
          ps_producer := (p_answered (ps_tracks s) (ps_producer s) r ok).2; ps_waiting := ws; ps_out := ps_out s |}.
Proof.
  intros [Ho Hl]. destruct r as [| |t| | |]; try (by split). cbn [p_answered]. destruct ok; [|by split].
  split; unfold replaceTrack_answered; intros u; track_simpl; [|naive_solver].
  intros [[Hu Hn]|?]; [|naive_solver]. exfalso. apply Hn. split; [done|]. by apply Ho.
Qed.

Lemma pstep_pinv s e : pinv s → pinv (pstep s e).
Proof.
  intros Hi. pose proof Hi as [Ho Hl]. destruct e as [| | | |t|v|v| |i ok|t|t|t b]; cbn [pstep].
  - unfold p_pause. destruct (p_closed _) eqn:E; split; intros u; track_simpl; naive_solver.
  - unfold p_resume. destruct (p_closed _) eqn:E; split; intros u; track_simpl; naive_solver.
  - unfold p_close. destruct (p_closed _) eqn:E; split; intros u; track_simpl; naive_solver.
  - unfold p_transportClosed. destruct (p_closed _) eqn:E; split; intros u; track_simpl; naive_solver.
  - unfold p_replaceTrack. destruct (p_closed _) eqn:E, t as [t|]; repeat case_match; simplify_eq; split; intros u; track_simpl;
      rewrite ?try_stop_listens, ?try_stop_some; auto; try congruence; naive_solver.
  - by split.
  - by split.
  - by split.
  - destruct (ps_waiting s !! i) as [r|]; [|done]. pose proof (answered_pinv s r ok (delete i (ps_waiting s)) Hi).
    by destruct (p_answered _ _ _ _).
  - split_match; [|done]. split; intros u; track_simpl; naive_solver.
  - split; intros u; track_simpl; naive_solver.
  - split; intros u; track_simpl; naive_solver.
Qed.

Lemma pstep_enabled s e : (∀ t b, e ≠ PvEnableTrack t b) → enabled_ok s → enabled_ok (pstep s e).
Proof.
  intros He Hs u. specialize (Hs u). destruct e as [| | | |t|v|v| |i ok|t|t|t b]; cbn [pstep].
  - unfold p_pause. destruct (p_closed _); [done|]. cbn. intros Hd Ht. rewrite switch_track_some.
    intros. by apply switch_track_is.
  - unfold p_resume. destruct (p_closed _); [done|]. cbn. intros Hd Ht. rewrite switch_track_some.
    intros. by apply switch_track_is.
  - unfold p_close. destruct (p_closed _); [done|]. track_simpl. by rewrite destroyTrack_enabled.
  - unfold p_transportClosed. destruct (p_closed _); [done|]. track_simpl. by rewrite destroyTrack_enabled.
  - unfold p_replaceTrack. destruct (p_closed _), t as [t|]; repeat case_match; simplify_eq; track_simpl;
      rewrite ?try_stop_enabled; auto; naive_solver.
  - done.
  - done.
  - done.
  - destruct (ps_waiting s !! i) as [r|]; [|done]. destruct r as [| |t| | |]; try done. cbn [p_answered].
    destruct ok; [|done]. unfold replaceTrack_answered. cbn. intros Hd Ht. rewrite handleTrack_some, switch_track_some.
    intros. apply handleTrack_enabled. by apply switch_track_is.
  - split_match; [|done]. track_simpl. by rewrite alter_enabled.
  - track_simpl. by rewrite try_stop_enabled.
  - by destruct (He t b).
Qed.

Lemma pstart_pinv self o h x : h !! po_track o = Some x → self ∉ t_listeners x →
  (∀ t, ¬ listens h self t) → pinv (pstart self o h x).
Proof.
  intros Hx _ Hn. split; unfold pstart, new_Producer; intros u; track_simpl; intros; [|by right].
  destruct H0 as [Hu|(_ & [= <-] & _)]; [by apply Hn in Hu|done].
Qed.

Lemma pstart_enabled self o h x : h !! po_track o = Some x → enabled_ok (pstart self o h x).
Proof.
  intros Hx u. unfold pstart, new_Producer. cbn. intros -> [= <-] _. rewrite negb_involutive.
  unfold enabled_is. by rewrite lookup_alter_eq, Hx.
Qed.

Lemma prun_pinv s es : pinv s → pinv (prun s es).
Proof. revert s. induction es; intros s Hs; [done|]. apply IHes. by apply pstep_pinv. Qed.

Lemma prun_enabled s es : Forall (λ e, ∀ t b, e ≠ PvEnableTrack t b) es → enabled_ok s → enabled_ok (prun s es).
Proof. intros He. revert s. induction He; intros s Hs; [done|]. apply IHHe. by apply pstep_enabled. Qed.

(** C37: whatever the application, the transport and the browser do, in any order
    and with any number of [replaceTrack] calls in flight, the producer listens to
    its current track and to no other track (while open it does listen), and with
    [disableTrackOnPause] the track is enabled exactly when the producer is not
    paused, as long as the application leaves [enabled] alone. *)
Theorem producer_follows_track self o h x es :
  h !! po_track o = Some x → (∀ t, ¬ listens h self t) →
  Forall (λ e, ∀ t b, e ≠ PvEnableTrack t b) es →
  let s := prun (pstart self o h x) es in
  let p := ps_producer s in
  (∀ t, listens (ps_tracks s) (p_self p) t → p_track p = Some t) ∧
  (∀ t, p_track p = Some t → is_Some (ps_tracks s !! t) →
     (p_closed p = false → listens (ps_tracks s) (p_self p) t) ∧
     (p_disableTrackOnPause p = true → enabled_is (ps_tracks s) t (negb (p_paused p)))).
Proof.
  intros Hx Hn He. cbv zeta. assert (self ∉ t_listeners x) by (specialize (Hn (po_track o)); unfold listens in Hn; by rewrite Hx in Hn).
  destruct (prun_pinv _ es (pstart_pinv self o h x Hx H0 Hn)) as [Ho Hl].
  pose proof (prun_enabled _ es He (pstart_enabled self o h x Hx)) as Hs. naive_solver.
Qed.

(** ** Closing *)

Definition is_replace (r : request) : bool := match r with RReplaceTrack _ => true | _ => false end.

(** A closed producer with no replacement in flight. *)
Record retired (p0 : Producer) (out : list emitted) (s : pstate) : Prop := {
  rt_closed : p_closed (ps_producer s) = true;
  rt_self : p_self (ps_producer s) = p_self p0;
  rt_track : p_track (ps_producer s) = p_track p0;
  rt_paused : p_paused (ps_producer s) = p_paused p0;
  rt_waiting : Forall (λ r, is_replace r = false) (ps_waiting s);
  rt_deaf t : ¬ listens (ps_tracks s) (p_self p0) t;
  rt_out : ps_out s = out;
}.

Lemma retired_next p0 out s h : retired p0 out s → (∀ t, listens h (p_self p0) t → listens (ps_tracks s) (p_self p0) t) →
  retired p0 out (ps_next s h (ps_producer s) []).
Proof.
  intros [] Hh. split; cbn; auto; [by rewrite app_nil_r| |by rewrite app_nil_r].
  intros t Ht. apply Hh in Ht. naive_solver.
Qed.

Lemma retired_step p0 out s e : retired p0 out s → retired p0 out (pstep s e).
Proof.
  intros Hr. pose proof Hr as [Hc Hself Ht Hp Hw Hd Ho].
  destruct e as [| | | |t|v|v| |i ok|t|t|t b]; cbn [pstep].
  1-4: unfold p_pause, p_resume, p_close, p_transportClosed; rewrite Hc; by apply retired_next.
  - unfold p_replaceTrack. rewrite Hc. apply retired_next; [done|].
    intros u. destruct t; [|done]. destruct (p_stopTracks _); [|done]. by rewrite try_stop_listens.
  - unfold p_setMaxSpatialLayer. rewrite Hc. by apply retired_next.
  - unfold p_setRtpEncodingParameters. rewrite Hc. by apply retired_next.
  - unfold p_getStats. rewrite Hc. by apply retired_next.
  - destruct (ps_waiting s !! i) as [r|] eqn:Er; [|done].
    pose proof (Forall_lookup_1 _ _ _ _ Hw Er) as Hnr.
    assert (Forall (λ r, is_replace r = false) (delete i (ps_waiting s))) by by apply Forall_delete.
    by destruct r; try discriminate; split.
  - destruct (ps_tracks s !! t) as [x|] eqn:Ex; [|done].
    assert (bool_decide (p_self (ps_producer s) ∈ t_listeners x) = false) as ->.
    { apply bool_decide_eq_false. specialize (Hd t). unfold listens in Hd. by rewrite Ex, <-Hself in Hd. }
    apply retired_next; [done|]. intros u. by rewrite end_track_listens.
  - apply retired_next; [done|]. intros u. by rewrite try_stop_listens.
  - apply retired_next; [done|]. intros u. by rewrite enabled_listens.
Qed.

Lemma retired_run p0 out s es : retired p0 out s → retired p0 out (prun s es).
Proof. revert s. induction es; intros s Hr; [done|]. apply IHes. by apply retired_step. Qed.

Lemma close_retires s : pinv s → p_closed (ps_producer s) = false → Forall (λ r, is_replace r = false) (ps_waiting s) →
  retired (ps_producer s) (ps_out s ++ [Event "@close"; Observed "close"]) (pstep s PvClose).
Proof.
  intros [Ho Hl] Hc Hw. cbn [pstep]. unfold p_close. rewrite Hc. split; try done.
  - cbn. by rewrite app_nil_r.
  - intros t. track_simpl. intros [Hu Hn]. apply Hn. split; [done|]. by apply Ho.
Qed.

(** Closing a producer that has no [replaceTrack] in flight is final: the
    producer tells its transport and its observer once, and from then on it stays
    closed on the same track, listens to nothing and emits nothing, whatever is
    called or answered later. *)
Theorem producer_close_final self o h x es es' :
  h !! po_track o = Some x → (∀ t, ¬ listens h self t) →
  let s := prun (pstart self o h x) es in
  p_closed (ps_producer s) = false → Forall (λ r, is_replace r = false) (ps_waiting s) →
  let s' := prun (pstep s PvClose) es' in
  p_closed (ps_producer s') = true ∧ p_track (ps_producer s') = p_track (ps_producer s) ∧
  (∀ t, ¬ listens (ps_tracks s') (p_self (ps_producer s')) t) ∧
  ps_out s' = ps_out s ++ [Event "@close"; Observed "close"].
Proof.
  intros Hx Hn s Hc Hw s'. assert (self ∉ t_listeners x) by (specialize (Hn (po_track o)); unfold listens in Hn; by rewrite Hx in Hn).
  pose proof (prun_pinv _ es (pstart_pinv self o h x Hx H0 Hn)) as Hi.
  destruct (retired_run _ _ _ es' (close_retires s Hi Hc Hw)) as [R1 R2 R3 R4 R5 R6 R7].
  split_and!; [exact R1|exact R3| |exact R7]. unfold s'. by rewrite R2.
Qed.

Lemma alter_ended (f : MediaStreamTrack → MediaStreamTrack) h t u :
  (∀ x, t_ended (f x) = t_ended x) → is_ended (alter f t h) u = is_ended h u.
Proof.
  intros Hf. unfold is_ended. rewrite lookup_alter. case_decide; subst; [|done]. destruct (h !! u); simpl; auto.
Qed.

Lemma handleTrack_ended h p t : is_ended (handleTrack h p) t = is_ended h t.
Proof. unfold handleTrack. split_match; [by apply alter_ended|done]. Qed.

Lemma switch_track_ended h p b t : is_ended (switch_track h p b) t = is_ended h t.
Proof. unfold switch_track. repeat split_match; try done. by apply alter_ended. Qed.

Lemma destroyTrack_other h p t : p_track p ≠ Some t → destroyTrack h p !! t = h !! t.
Proof.
  intros Hne. unfold destroyTrack, try_stop. destruct (p_track p); [|done]. destruct (p_stopTracks p);
    rewrite !lookup_alter_ne; congruence.
Qed.

(** A [replaceTrack] that is answered after [close] still runs to its end:
    the closed producer takes the new track, listens to it and leaves it running,
    although a track handed to a closed producer is otherwise stopped. *)
Theorem replace_outlives_close s i t :
  p_closed (ps_producer s) = false →
  ps_waiting s !! i = Some (RReplaceTrack (Some t)) →
  p_track (ps_producer s) ≠ Some t → is_Some (ps_tracks s !! t) → is_ended (ps_tracks s) t = false →
  let s' := pstep (pstep s PvClose) (PvAnswer i true) in
  p_closed (ps_producer s') = true ∧ p_track (ps_producer s') = Some t ∧
  listens (ps_tracks s') (p_self (ps_producer s')) t ∧ is_ended (ps_tracks s') t = false.
Proof.
  intros Hc Hw Hne Ht He. cbv zeta. cbn [pstep]. unfold p_close. rewrite Hc. cbn [ps_next ps_waiting asked omap list_omap].
  rewrite app_nil_r, Hw. cbn [p_answered]. unfold replaceTrack_answered. split_and!; [done|done| |].
  - track_simpl. by right.
  - cbn [ps_tracks]. rewrite handleTrack_ended, switch_track_ended. unfold is_ended in *.
    rewrite destroyTrack_other by done. cbn [ps_next ps_tracks]. by rewrite destroyTrack_other.
Qed.

(** A layer that the handler rejects is recorded all the same, so asking for
    it again resolves at once without reaching the handler. *)
Theorem rejected_layer_sticks h p v :
  p_closed p = false → p_kind p = "video" → is_nan v = false →
  let p' := (p_answered h p (RSetMaxSpatialLayer v) false).2 in
  p_maxSpatialLayer p' = Some v ∧ p_setMaxSpatialLayer p' (JNum v) = (Resolved, []).
Proof.
  intros Hc Hk Hv. cbv zeta. split; [done|]. unfold p_setMaxSpatialLayer. cbn. rewrite Hc, Hk. cbn.
  assert (num_eqb v v = true) as ->; [|done]. destruct v; try done. apply QArith_base.Qeq_bool_iff. reflexivity.
Qed.

Lemma answer_replace s t ws : ps_waiting s = RReplaceTrack t :: ws →
  pstep s (PvAnswer 0 true) =
  {| ps_tracks := (replaceTrack_answered (ps_tracks s) (ps_producer s) t).1;
     ps_producer := (replaceTrack_answered (ps_tracks s) (ps_producer s) t).2; ps_waiting := ws; ps_out := ps_out s |}.
Proof. intros Hw. cbn [pstep]. by rewrite Hw. Qed.

Lemma replaceTrack_some h p t u : is_Some ((replaceTrack_answered h p t).1 !! u) ↔ is_Some (h !! u).
Proof. unfold replaceTrack_answered. cbn [fst]. by rewrite handleTrack_some, switch_track_some, destroyTrack_some. Qed.
End Producer.

(** Replacing the track by itself ends it. *)
Lemma replace_itself_ends h p t : p_track p = Some t → p_stopTracks p = true → is_Some (h !! t) →
  is_ended (replaceTrack_answered h p (Some t)).1 t = true.
Proof.
  intros Ht Hs [x Hx]. unfold replaceTrack_answered. cbn [fst]. rewrite handleTrack_ended, switch_track_ended.
  unfold destroyTrack. rewrite Ht, Hs. unfold is_ended, try_stop. by rewrite !lookup_alter_eq, Hx.
Qed.

(** Two overlapping calls that give the same new track end it: the second
    answer destroys the track the first one has just installed. *)
Theorem double_replace_ends_track s a t :
  ps_waiting s = [] → p_closed (ps_producer s) = false → p_stopTracks (ps_producer s) = true →
  p_track (ps_producer s) = Some a → a ≠ t → is_Some (ps_tracks s !! t) → is_ended (ps_tracks s) t = false →
  let s' := prun s [PvReplaceTrack (Some t); PvReplaceTrack (Some t); PvAnswer 0 true; PvAnswer 0 true] in
  p_closed (ps_producer s') = false ∧ p_track (ps_producer s') = Some t ∧ is_ended (ps_tracks s') t = true.
Proof.
  intros Hw Hc Hst Ha Hne Hx He. cbv zeta.
  assert (pstep s (PvReplaceTrack (Some t)) = ps_next s (ps_tracks s) (ps_producer s) [Ask (RReplaceTrack (Some t))]) as E1.
  { cbn [pstep]. unfold p_replaceTrack. by rewrite Hc, He, decide_False by congruence. }
  assert (∀ out, pstep (ps_next s (ps_tracks s) (ps_producer s) out) (PvReplaceTrack (Some t)) =
    ps_next (ps_next s (ps_tracks s) (ps_producer s) out) (ps_tracks s) (ps_producer s) [Ask (RReplaceTrack (Some t))]) as E2.
  { intros out. cbn [pstep ps_next ps_tracks ps_producer]. unfold p_replaceTrack. by rewrite Hc, He, decide_False by congruence. }
  unfold prun. cbn [foldl]. rewrite E1, E2. set (s2 := ps_next (ps_next _ _ _ _) _ _ _).
  rewrite (answer_replace s2 (Some t) [RReplaceTrack (Some t)]) by (cbn; by rewrite Hw).
  rewrite (answer_replace _ (Some t) []) by done. split_and!; [exact Hc|done|].
  apply replace_itself_ends; [done|exact Hst|]. by apply replaceTrack_some.
Qed.

(** ** Witnesses *)

Definition example_track (enabled : bool) : MediaStreamTrack :=
  {| t_kind := "video"; t_enabled := enabled; t_ended := false; t_listeners := [] |}.
Definition example_tracks : tracks := {[ 0%nat := example_track true; 1%nat := example_track false ]}.
Definition example_options : ProducerOptions :=
  {| po_id := "p1"; po_localId := "0"; po_rtpSender := JUndef; po_track := 0; po_rtpParameters := JObj [];
     po_stopTracks := true; po_disableTrackOnPause := true; po_zeroRtpOnPause := false; po_appData := JUndef |}.
Definition example_start : pstate := pstart 7 example_options example_tracks (example_track true).

Lemma example_unheard t : ¬ listens example_tracks 7 t.
Proof.
  unfold listens, example_tracks. destruct (decide (t = 0%nat)) as [->|]; [vm_compute; by inversion 1|].
  destruct (decide (t = 1%nat)) as [->|]; [vm_compute; by inversion 1|].
  rewrite lookup_insert_ne, lookup_singleton_ne by congruence. tauto.
Qed.

Lemma producer_follows_track_witness :
  let s := prun example_start [PvPause; PvReplaceTrack (Some 1%nat); PvResume; PvAnswer 0 true] in
  listens (ps_tracks s) 7 1 ∧ enabled_is (ps_tracks s) 1 true.
Proof.
  destruct (producer_follows_track 7 example_options example_tracks (example_track true)
    [PvPause; PvReplaceTrack (Some 1%nat); PvResume; PvAnswer 0 true]) as [_ Hl];
    [reflexivity|apply example_unheard|repeat constructor; congruence|].
  destruct (Hl 1%nat) as [H1 H2]; [reflexivity|by eexists; vm_compute|]. split; [by apply H1|by apply H2].
Defined.

Lemma producer_close_final_witness :
  ps_out (prun (pstep example_start PvClose) [PvResume; PvReplaceTrack (Some 1%nat); PvGetStats; PvTrackEnds 0]) =
  [Event "@close"; Observed "close"].
Proof.
  apply (producer_close_final 7 example_options example_tracks (example_track true) []
    [PvResume; PvReplaceTrack (Some 1%nat); PvGetStats; PvTrackEnds 0]);
    [reflexivity|apply example_unheard|reflexivity|constructor].
Defined.

Lemma replace_outlives_close_witness :
  let s := prun example_start [PvReplaceTrack (Some 1%nat); PvClose; PvAnswer 0 true] in
  p_closed (ps_producer s) = true ∧ is_ended (ps_tracks s) 1 = false.
Proof.
  destruct (replace_outlives_close (pstep example_start (PvReplaceTrack (Some 1%nat))) 0 1) as (H1 & _ & _ & H2);
    [reflexivity|reflexivity|discriminate|by eexists; vm_compute|reflexivity|by split].
Defined.

Lemma rejected_layer_sticks_witness :
  p_setMaxSpatialLayer (p_answered example_tracks (ps_producer example_start) (RSetMaxSpatialLayer (num_of_Z 2)) false).2
    (JNum (num_of_Z 2)) = (Resolved, []).
Proof. by apply (rejected_layer_sticks example_tracks (ps_producer example_start) (num_of_Z 2)). Defined.

Lemma double_replace_ends_track_witness :
  is_ended (ps_tracks (prun example_start
    [PvReplaceTrack (Some 1%nat); PvReplaceTrack (Some 1%nat); PvAnswer 0 true; PvAnswer 0 true])) 1 = true.
Proof.
  apply (double_replace_ends_track example_start 0 1); try reflexivity; [discriminate|by eexists; vm_compute].
Defined.
