(* ===== verification/Consumer.v ===== *)
(** * Consumer (src/client/lib/Consumer.js)

    A consumer owns the remote track the handler gave it: pausing disables the
    track, closing ends it. *)

From stdpp Require Import gmap.
From S2P Require Import Prelude JsNum JsVal ClientBase.
Local Open Scope string_scope.
Local Open Scope list_scope.

Record Consumer := {
  c_closed : bool;
  c_id : string;
  c_localId : string;
  c_producerId : string;
  c_rtpReceiver : jsval;
  c_track : nat;
  c_rtpParameters : jsval;
  c_paused : bool;
  c_appData : jsval;
  (** The bound [onTrackEnded] of this object, as a listener. *)
  c_self : nat;
}.

Definition c_with (closed paused : bool) (c : Consumer) : Consumer :=
  {| c_closed := closed; c_id := c_id c; c_localId := c_localId c; c_producerId := c_producerId c;
     c_rtpReceiver := c_rtpReceiver c; c_track := c_track c; c_rtpParameters := c_rtpParameters c; c_paused := paused;
     c_appData := c_appData c; c_self := c_self c |}.

Definition c_set_closed (c : Consumer) : Consumer := c_with true (c_paused c) c.
Definition c_set_paused (b : bool) (c : Consumer) : Consumer := c_with (c_closed c) b c.

(** The media kind is the track's. *)
Definition c_kind (h : tracks) (c : Consumer) : option string := t_kind <$> h !! c_track c.

Section Consumer.
Context `{TrackPlatform}.

Definition c_handleTrack (h : tracks) (c : Consumer) : tracks := alter (add_listener (c_self c)) (c_track c) h.

Definition c_destroyTrack (h : tracks) (c : Consumer) : tracks :=
  try_stop (c_track c) (alter (remove_listener (c_self c)) (c_track c) h).

Definition c_onTrackEnded : list emitted := [Event "trackended"; Observed "trackended"].

Record ConsumerOptions := {
  co_id : string;
  co_localId : string;
  co_producerId : string;
  co_rtpReceiver : jsval;
  co_track : nat;
  co_rtpParameters : jsval;
  co_appData : jsval;
}.

(** The constructor, for the track [x] found at [co_track o]. *)
Definition new_Consumer (self : nat) (o : ConsumerOptions) (h : tracks) (x : MediaStreamTrack) : tracks * Consumer :=
  let c := {| c_closed := false; c_id := co_id o; c_localId := co_localId o; c_producerId := co_producerId o;
              c_rtpReceiver := co_rtpReceiver o; c_track := co_track o; c_rtpParameters := co_rtpParameters o;
              c_paused := negb (t_enabled x); c_appData := js_coalesce (co_appData o) (JObj []); c_self := self |} in
  (c_handleTrack h c, c).

Definition c_close (h : tracks) (c : Consumer) : tracks * Consumer * list emitted :=
  if c_closed c then (h, c, [])
  else (c_destroyTrack h (c_set_closed c), c_set_closed c, [Event "@close"; Observed "close"]).

Definition c_transportClosed (h : tracks) (c : Consumer) : tracks * Consumer * list emitted :=
  if c_closed c then (h, c, [])
  else (c_destroyTrack h (c_set_closed c), c_set_closed c, [Event "transportclose"; Observed "close"]).

Definition c_getStats (c : Consumer) : called * list emitted :=
  if c_closed c then (Rejected (InvalidStateError "closed"), [])
  else (Awaiting RGetStats, [Ask RGetStats]).

Definition c_pause (h : tracks) (c : Consumer) : tracks * Consumer * list emitted :=
  if c_closed c then (h, c, [])
  else if c_paused c then (h, c, [])
  else (alter (with_enabled false) (c_track c) h, c_set_paused true c, [Event "@pause"; Observed "pause"]).

Definition c_resume (h : tracks) (c : Consumer) : tracks * Consumer * list emitted :=
  if c_closed c then (h, c, [])
  else if negb (c_paused c) then (h, c, [])
  else (alter (with_enabled true) (c_track c) h, c_set_paused false c, [Event "@resume"; Observed "resume"]).

(** ** Runs *)

Inductive cop := CoPause | CoResume | CoClose | CoTransportClosed | CoTrackEnds.

Definition cstep (s : tracks * Consumer) (op : cop) : tracks * Consumer * list emitted :=
  let '(h, c) := s in
  match op with
  | CoPause => c_pause h c
  | CoResume => c_resume h c
  | CoClose => c_close h c
  | CoTransportClosed => c_transportClosed h c
  | CoTrackEnds =>
      match h !! c_track c with
      | Some x => (alter end_track (c_track c) h, c,
                   if bool_decide (c_self c ∈ t_listeners x) && negb (t_ended x) then c_onTrackEnded else [])
      | None => (h, c, [])
      end
  end.

Fixpoint crun (s : tracks * Consumer) (ops : list cop) : tracks * Consumer * list emitted :=
  match ops with
  | [] => (s, [])
  | op :: ops => let '(s, out) := cstep s op in let '(s, out') := crun s ops in (s, out ++ out')
  end.

(** ** Invariant *)

(** While open, the consumer listens to its track and the track is enabled exactly
    when the consumer is not paused; once closed it does not listen. *)
Record cinv (h : tracks) (c : Consumer) : Prop := {
  ci_track : is_Some (h !! c_track c);
  ci_enabled : enabled_is h (c_track c) (negb (c_paused c));
  ci_listens : listens h (c_self c) (c_track c) ↔ c_closed c = false;
}.

Lemma c_destroyTrack_inv h c : cinv h c → cinv (c_destroyTrack h (c_set_closed c)) (c_set_closed c).
Proof.
  intros [Ht He Hl]. unfold c_destroyTrack.
  split; cbn [c_set_closed c_with c_track c_paused c_self c_closed].
  - unfold try_stop. by rewrite !lookup_alter_is_Some.
  - rewrite try_stop_enabled. by apply alter_enabled.
  - rewrite try_stop_listens, remove_listens. naive_solver.
Qed.

Lemma cstep_inv h c op : cinv h c → let '(h', c', _) := cstep (h, c) op in cinv h' c'.
Proof.
  intros Hi. pose proof Hi as [Ht He Hl]. destruct op; cbn [cstep].
  - unfold c_pause. destruct (c_closed c) eqn:Ec; [done|]. destruct (c_paused c); [done|]. split; cbn.
    + by rewrite lookup_alter_is_Some.
    + by apply set_enabled_is.
    + by rewrite enabled_listens, Ec.
  - unfold c_resume. destruct (c_closed c) eqn:Ec; [done|]. destruct (c_paused c); [|done]. split; cbn.
    + by rewrite lookup_alter_is_Some.
    + by apply set_enabled_is.
    + by rewrite enabled_listens, Ec.
  - unfold c_close. destruct (c_closed c); [done|]. by apply c_destroyTrack_inv.
  - unfold c_transportClosed. destruct (c_closed c); [done|]. by apply c_destroyTrack_inv.
  - destruct (h !! c_track c) as [x|] eqn:Hx; [|done]. split; cbn.
    + by rewrite lookup_alter_is_Some, Hx.
    + by rewrite alter_enabled.
    + rewrite <-Hl. unfold listens. by rewrite lookup_alter_eq, Hx.
Qed.

Lemma crun_inv ops h c : cinv h c → let '(h', c', _) := crun (h, c) ops in cinv h' c'.
Proof.
  revert h c. induction ops as [|op ops IH]; intros h c Hi; cbn [crun]; [done|].
  pose proof (cstep_inv h c op Hi). destruct (cstep (h, c) op) as [[h1 c1] out].
  specialize (IH h1 c1 H0). by destruct (crun _ ops) as [[h2 c2] out'].
Qed.

Lemma new_Consumer_inv self o h x : h !! co_track o = Some x →
  let '(h', c) := new_Consumer self o h x in cinv h' c.
Proof.
  intros Hx. unfold new_Consumer, c_handleTrack. split; cbn.
  - by rewrite lookup_alter_is_Some, Hx.
  - rewrite negb_involutive. unfold enabled_is. by rewrite lookup_alter_eq, Hx.
  - rewrite add_listens. split; [done|]. intros _. right. by rewrite Hx.
Qed.

(** From its construction on, whatever is called in whatever order, a
    consumer's track is enabled exactly when the consumer is not paused, and the
    consumer listens to the track exactly while it is open. *)
Theorem consumer_follows_track self o h x ops : h !! co_track o = Some x →
  let '(h0, c0) := new_Consumer self o h x in
  let '(h', c, _) := crun (h0, c0) ops in
  enabled_is h' (c_track c) (negb (c_paused c)) ∧ (listens h' (c_self c) (c_track c) ↔ c_closed c = false).
Proof.
  intros Hx. pose proof (new_Consumer_inv self o h x Hx) as Hi. destruct (new_Consumer _ _ _ _) as [h0 c0].
  pose proof (crun_inv ops h0 c0 Hi) as Hr. destruct (crun _ _) as [[h' c] out]. by destruct Hr.
Qed.

(** ** Closing happens once *)

Definition count_close (out : list emitted) : nat :=
  length (List.filter (λ e, match e with Observed s => String.eqb s "close" | _ => false end) out).

(** What an operation on an open or a closed consumer emits about closing. *)
Lemma cstep_closes h c op : let '(_, c', out) := cstep (h, c) op in
  (c_closed c = true → c_closed c' = true ∧ count_close out = 0%nat) ∧
  (c_closed c = false → count_close out = if c_closed c' then 1%nat else 0%nat).
Proof.
  destruct op; cbn [cstep]; unfold c_pause, c_resume, c_close, c_transportClosed;
    destruct (c_closed c) eqn:E, (c_paused c); repeat case_match; simplify_eq; cbn in *; rewrite ?E in *; naive_solver congruence.
Qed.

(** However a consumer is closed and however often, it reports its closing
    exactly once: in a run from an open consumer the observer sees one [close]
    event if the consumer ends up closed and none otherwise. *)
Theorem consumer_closes_once ops h c :
  let '(_, c', out) := crun (h, c) ops in
  count_close out = if c_closed c then 0%nat else if c_closed c' then 1%nat else 0%nat.
Proof.
  assert (let '(_, c', out) := crun (h, c) ops in (c_closed c = true → c_closed c' = true) ∧
    count_close out = if c_closed c then 0%nat else if c_closed c' then 1%nat else 0%nat) as Hall.
  { revert h c. induction ops as [|op ops IH]; intros h c; cbn [crun]; [by destruct (c_closed c)|].
    pose proof (cstep_closes h c op) as Hs. destruct (cstep (h, c) op) as [[h1 c1] out]. specialize (IH h1 c1).
    destruct (crun _ ops) as [[h2 c2] out']. destruct Hs as [H1 H2], IH as [IH1 IH2].
    unfold count_close in *. rewrite List.filter_app, length_app.
    destruct (c_closed c), (c_closed c1), (c_closed c2); naive_solver lia. }
  destruct (crun (h, c) ops) as [[h' c'] out]. by destruct Hall.
Qed.
End Consumer.

(** ** Witness *)

Definition example_remote : MediaStreamTrack :=
  {| t_kind := "audio"; t_enabled := true; t_ended := false; t_listeners := [] |}.
Definition example_consumer_options : ConsumerOptions :=
  {| co_id := "c1"; co_localId := "0"; co_producerId := "p1"; co_rtpReceiver := JUndef; co_track := 0;
     co_rtpParameters := JObj []; co_appData := JUndef |}.

Lemma consumer_follows_track_witness :
  let h := {[ 0%nat := example_remote ]} in
  let '(h', c, _) := crun (new_Consumer 3 example_consumer_options h example_remote) [CoPause; CoPause; CoResume; CoPause] in
  enabled_is h' (c_track c) (negb (c_paused c)).
Proof.
  pose proof (consumer_follows_track 3 example_consumer_options {[ 0%nat := example_remote ]} example_remote
    [CoPause; CoPause; CoResume; CoPause] eq_refl) as H. cbv zeta. exact (proj1 H).
Defined.
