(* ===== verification/DataChannels.v ===== *)
(** * DataProducer and DataConsumer
    (src/client/lib/DataProducer.js, src/client/lib/DataConsumer.js)

    Both wrap a data channel of the browser, which stays outside: what they ask
    of it and what they emit are outputs, its events are inputs.  Their life
    cycle is the same, a closed flag that every entry point tests, and is stated
    once against the interface [Closable]. *)

From S2P Require Import Prelude JsNum JsVal ClientBase.
Local Open Scope string_scope.
Local Open Scope list_scope.

(** Emissions with their argument, and calls on the data channel. *)
Inductive dout :=
| DEvent (name : string) (arg : jsval)
| DObserved (name : string)
| DChannelClose
| DChannelSend (data : jsval).

(** Calls of the application or the transport, and events of the channel. *)
Inductive devent :=
| DvClose | DvTransportClosed
| DvSend (data : jsval)
| DvOpen | DvError (event : jsval) | DvChannelClosed | DvMessage (event : jsval) | DvBufferedAmountLow.

(** ** The life cycle both classes share *)

Definition closings (out : list dout) : nat :=
  length (List.filter (λ o, match o with DObserved s => String.eqb s "close" | _ => false end) out).

Class Closable (S : Type) := {
  cl_closed : S → bool;
  cl_step : S → devent → outcome (S * list dout);
  (** Closed: nothing changes and nothing is emitted; a call may throw. *)
  cl_silent s e r : cl_closed s = true → cl_step s e = Ok r → r = (s, []);
  (** Open: closing is reported once, and only if the object closes. *)
  cl_reports s e s' out : cl_closed s = false → cl_step s e = Ok (s', out) →
    closings out = if cl_closed s' then 1%nat else 0%nat;
}.

(** A run: a call that throws changes nothing. *)
Fixpoint drun {S} `{Closable S} (s : S) (es : list devent) : S * list dout :=
  match es with
  | [] => (s, [])
  | e :: es =>
      let '(s1, out) := match cl_step s e with Ok r => r | Throw _ => (s, []) end in
      let '(s2, out') := drun s1 es in
      (s2, out ++ out')
  end.

Section Closable.
Context {S} `{Closable S}.

Lemma drun_closed s es : cl_closed s = true → drun s es = (s, []).
Proof.
  intros Hc. induction es as [|e es IH]; [done|]. cbn [drun]. destruct (cl_step s e) as [r|] eqn:E.
  - apply cl_silent in E as ->; [|done]. by rewrite IH.
  - by rewrite IH.
Qed.

Lemma drun_closings s es : cl_closed s = false →
  closings (drun s es).2 = if cl_closed (drun s es).1 then 1%nat else 0%nat.
Proof.
  revert s. induction es as [|e es IH]; intros s Hc; [cbn; by rewrite Hc|]. cbn [drun].
  destruct (cl_step s e) as [[s1 out]|] eqn:E.
  - pose proof (cl_reports s e s1 out Hc E) as Hr. destruct (cl_closed s1) eqn:E1.
    + rewrite drun_closed by done. cbn. by rewrite app_nil_r, E1.
    + specialize (IH s1 E1). destruct (drun s1 es) as [s2 out']. cbn in *. unfold closings in *.
      by rewrite List.filter_app, length_app, Hr, IH.
  - specialize (IH s Hc). by destruct (drun s es).
Qed.
End Closable.

(** ** The channel's [error] event *)

(** [let { error } = event; if (!error) error = new Error(...)]. *)
Definition channel_error (event : jsval) : jsval :=
  let error := js_get event "error" in
  if truthy error then error else JObj [("message", JStr "unknown DataChannel error")].

(** ** DataProducer *)

Module DataProducer.
Record t := {
  closed : bool;
  id : string;
  sctpStreamParameters : jsval;
  appData : jsval;
}.

Definition new (id : string) (sctpStreamParameters appData : jsval) : t :=
  {| closed := false; id := id; sctpStreamParameters := sctpStreamParameters; appData := js_coalesce appData (JObj []) |}.

Definition set_closed (d : t) : t :=
  {| closed := true; id := id d; sctpStreamParameters := sctpStreamParameters d; appData := appData d |}.

Definition close (d : t) : t * list dout :=
  if closed d then (d, []) else (set_closed d, [DChannelClose; DEvent "@close" JUndef; DObserved "close"]).

Definition transportClosed (d : t) : t * list dout :=
  if closed d then (d, []) else (set_closed d, [DChannelClose; DEvent "transportclose" JUndef; DObserved "close"]).

Definition send (d : t) (data : jsval) : outcome (list dout) :=
  if closed d then Throw "closed" else Ok [DChannelSend data].

(** The listeners of [handleDataChannel]. *)
Definition on_open (d : t) : list dout := if closed d then [] else [DEvent "open" JUndef].
Definition on_error (d : t) (event : jsval) : list dout :=
  if closed d then [] else [DEvent "error" (channel_error event)].
Definition on_close (d : t) : t * list dout :=
  if closed d then (d, [])
  else (set_closed d, [DEvent "@close" JUndef; DEvent "close" JUndef; DObserved "close"]).
(** A message to a producer is discarded. *)
Definition on_message (d : t) : list dout := [].
Definition on_bufferedamountlow (d : t) : list dout := if closed d then [] else [DEvent "bufferedamountlow" JUndef].

Definition handleDataChannel (d : t) (e : devent) : outcome (t * list dout) :=
  match e with
  | DvClose => Ok (close d)
  | DvTransportClosed => Ok (transportClosed d)
  | DvSend data => out ← send d data; Ok (d, out)
  | DvOpen => Ok (d, on_open d)
  | DvError event => Ok (d, on_error d event)
  | DvChannelClosed => Ok (on_close d)
  | DvMessage _ => Ok (d, on_message d)
  | DvBufferedAmountLow => Ok (d, on_bufferedamountlow d)
  end.

#[global] Program Instance closable : Closable t := {| cl_closed := closed; cl_step := handleDataChannel |}.
Next Obligation.
  intros d e r Hc. destruct e; cbn; unfold close, transportClosed, send, on_open, on_error, on_close, on_message,
    on_bufferedamountlow; rewrite ?Hc; by intros [= <-].
Qed.
Next Obligation.
  intros d e d' out Hc. destruct e; cbn; unfold close, transportClosed, send, on_open, on_error, on_close, on_message,
    on_bufferedamountlow; rewrite ?Hc; intros [= <- <-]; cbn; by rewrite ?Hc.
Qed.
End DataProducer.

(** ** DataConsumer *)

Module DataConsumer.
Record t := {
  closed : bool;
  id : string;
  dataProducerId : string;
  sctpStreamParameters : jsval;
  appData : jsval;
}.

Definition new (id dataProducerId : string) (sctpStreamParameters appData : jsval) : t :=
  {| closed := false; id := id; dataProducerId := dataProducerId; sctpStreamParameters := sctpStreamParameters;
     appData := js_coalesce appData (JObj []) |}.

Definition set_closed (d : t) : t :=
  {| closed := true; id := id d; dataProducerId := dataProducerId d; sctpStreamParameters := sctpStreamParameters d;
     appData := appData d |}.

Definition close (d : t) : t * list dout :=
  if closed d then (d, []) else (set_closed d, [DChannelClose; DEvent "@close" JUndef; DObserved "close"]).

Definition transportClosed (d : t) : t * list dout :=
  if closed d then (d, []) else (set_closed d, [DChannelClose; DEvent "transportclose" JUndef; DObserved "close"]).

(** The listeners of [handleDataChannel]. *)
Definition on_open (d : t) : list dout := if closed d then [] else [DEvent "open" JUndef].
Definition on_error (d : t) (event : jsval) : list dout :=
  if closed d then [] else [DEvent "error" (channel_error event)].
Definition on_close (d : t) : t * list dout :=
  if closed d then (d, [])
  else (set_closed d, [DEvent "@close" JUndef; DEvent "close" JUndef; DObserved "close"]).
Definition on_message (d : t) (event : jsval) : list dout :=
  if closed d then [] else [DEvent "message" (js_get event "data")].

(** A data consumer cannot send and has no low-buffer event. *)
Definition handleDataChannel (d : t) (e : devent) : outcome (t * list dout) :=
  match e with
  | DvClose => Ok (close d)
  | DvTransportClosed => Ok (transportClosed d)
  | DvSend _ => Throw "send is not a function"
  | DvOpen => Ok (d, on_open d)
  | DvError event => Ok (d, on_error d event)
  | DvChannelClosed => Ok (on_close d)
  | DvMessage event => Ok (d, on_message d event)
  | DvBufferedAmountLow => Ok (d, [])
  end.

#[global] Program Instance closable : Closable t := {| cl_closed := closed; cl_step := handleDataChannel |}.
Next Obligation.
  intros d e r Hc. destruct e; cbn; unfold close, transportClosed, on_open, on_error, on_close, on_message;
    rewrite ?Hc; try done; by intros [= <-].
Qed.
Next Obligation.
  intros d e d' out Hc. destruct e; cbn; unfold close, transportClosed, on_open, on_error, on_close, on_message;
    rewrite ?Hc; try done; intros [= <- <-]; cbn; by rewrite ?Hc.
Qed.
End DataConsumer.

(** ** Properties *)

(** A data producer and a data consumer report their closing exactly once,
    whether the application, the transport or the remote end closes the channel
    and in whatever order the calls and the channel's events arrive; once closed
    they emit nothing, touch the channel no more, and [send] throws. *)
Theorem data_channel_closes_once :
  (∀ id ps app es es', let '(d, out) := drun (DataProducer.new id ps app) es in
     closings out = (if DataProducer.closed d then 1%nat else 0%nat) ∧
     (DataProducer.closed d = true → drun d es' = (d, []) ∧ ∀ x, DataProducer.send d x = Throw "closed")) ∧
  (∀ id pid ps app es es', let '(d, out) := drun (DataConsumer.new id pid ps app) es in
     closings out = (if DataConsumer.closed d then 1%nat else 0%nat) ∧
     (DataConsumer.closed d = true → drun d es' = (d, []))).
Proof.
  split; intros.
  - pose proof (drun_closings (DataProducer.new id ps app) es eq_refl) as Hr. destruct (drun _ _) as [d out].
    split; [done|]. intros Hc. split; [by apply drun_closed|]. intros x. unfold DataProducer.send. by rewrite Hc.
  - pose proof (drun_closings (DataConsumer.new id pid ps app) es eq_refl) as Hr. destruct (drun _ _) as [d out].
    split; [done|]. intros Hc. by apply drun_closed.
Qed.
