(* ===== verification/Transport.v ===== *)
(** * Transport: state, guards and the calls that need no queue
    (src/client/lib/Transport.js)

    The state of a transport, the argument checks of its methods, the
    normalisation of encodings, and the events of its handler.  The commands that
    go through the await queue are in [TransportRun]. *)

From stdpp Require Import gmap.
From S2P Require Import Prelude JsNum JsVal OrtcValidate Ortc ClientBase.
From Stdlib Require Import Ascii.
Local Open Scope string_scope.
Local Open Scope list_scope.

(** ** State *)

(** [ConsumerCreationTask]: the validated options of a [consume] call and the
    promise it returned, by number. *)
Record ConsumerCreationTask := {
  ct_promise : nat;
  ct_id : string;
  ct_producerId : string;
  ct_kind : string;
  ct_rtpParameters : jsval;
  ct_streamId : jsval;
  ct_appData : jsval;
}.

(** A batch of consumers to be handled together: the map of the pending ones, by
    id, and the flag of the batch in progress. *)
Record Pending := {
  pd_consumers : list (string * nat);
  pd_inProgress : bool;
}.

(** The transport keeps three of them. *)
Inductive batch := BPause | BResume | BClose.
#[export] Instance batch_eq : EqDecision batch.
Proof. solve_decision. Defined.

Record Transport := {
  tr_closed : bool;
  tr_id : string;
  tr_direction : string;
  tr_extendedRtpCapabilities : ExtendedRtpCapabilities;
  tr_canProduceByKind : jsval;
  tr_maxSctpMessageSize : jsval;
  tr_appData : jsval;
  tr_iceGatheringState : string;
  tr_connectionState : string;
  (** The maps hold the addresses of the objects, by id. *)
  tr_producers : list (string * nat);
  tr_consumers : list (string * nat);
  tr_dataProducers : list (string * nat);
  tr_dataConsumers : list (string * nat);
  tr_probatorConsumerCreated : bool;
  tr_pendingConsumerTasks : list ConsumerCreationTask;
  tr_consumerCreationInProgress : bool;
  tr_pendingPause : Pending;
  tr_pendingResume : Pending;
  tr_pendingClose : Pending;
}.

Definition set_tr_closed (v : bool) (r : Transport) : Transport :=
  {| tr_closed := v; tr_id := tr_id r; tr_direction := tr_direction r;
     tr_extendedRtpCapabilities := tr_extendedRtpCapabilities r; tr_canProduceByKind := tr_canProduceByKind r;
     tr_maxSctpMessageSize := tr_maxSctpMessageSize r; tr_appData := tr_appData r;
     tr_iceGatheringState := tr_iceGatheringState r; tr_connectionState := tr_connectionState r;
     tr_producers := tr_producers r; tr_consumers := tr_consumers r; tr_dataProducers := tr_dataProducers r;
     tr_dataConsumers := tr_dataConsumers r; tr_probatorConsumerCreated := tr_probatorConsumerCreated r;
     tr_pendingConsumerTasks := tr_pendingConsumerTasks r;
     tr_consumerCreationInProgress := tr_consumerCreationInProgress r; tr_pendingPause := tr_pendingPause r;
     tr_pendingResume := tr_pendingResume r; tr_pendingClose := tr_pendingClose r |}.
Definition set_tr_appData (v : jsval) (r : Transport) : Transport :=
  {| tr_closed := tr_closed r; tr_id := tr_id r; tr_direction := tr_direction r;
     tr_extendedRtpCapabilities := tr_extendedRtpCapabilities r; tr_canProduceByKind := tr_canProduceByKind r;
     tr_maxSctpMessageSize := tr_maxSctpMessageSize r; tr_appData := v;
     tr_iceGatheringState := tr_iceGatheringState r; tr_connectionState := tr_connectionState r;
     tr_producers := tr_producers r; tr_consumers := tr_consumers r; tr_dataProducers := tr_dataProducers r;
     tr_dataConsumers := tr_dataConsumers r; tr_probatorConsumerCreated := tr_probatorConsumerCreated r;
     tr_pendingConsumerTasks := tr_pendingConsumerTasks r;
     tr_consumerCreationInProgress := tr_consumerCreationInProgress r; tr_pendingPause := tr_pendingPause r;
     tr_pendingResume := tr_pendingResume r; tr_pendingClose := tr_pendingClose r |}.
Definition set_tr_iceGatheringState (v : string) (r : Transport) : Transport :=
  {| tr_closed := tr_closed r; tr_id := tr_id r; tr_direction := tr_direction r;
     tr_extendedRtpCapabilities := tr_extendedRtpCapabilities r; tr_canProduceByKind := tr_canProduceByKind r;
     tr_maxSctpMessageSize := tr_maxSctpMessageSize r; tr_appData := tr_appData r; tr_iceGatheringState := v;
     tr_connectionState := tr_connectionState r; tr_producers := tr_producers r; tr_consumers := tr_consumers r;
     tr_dataProducers := tr_dataProducers r; tr_dataConsumers := tr_dataConsumers r;
     tr_probatorConsumerCreated := tr_probatorConsumerCreated r;
     tr_pendingConsumerTasks := tr_pendingConsumerTasks r;
     tr_consumerCreationInProgress := tr_consumerCreationInProgress r; tr_pendingPause := tr_pendingPause r;
     tr_pendingResume := tr_pendingResume r; tr_pendingClose := tr_pendingClose r |}.
Definition set_tr_connectionState (v : string) (r : Transport) : Transport :=
  {| tr_closed := tr_closed r; tr_id := tr_id r; tr_direction := tr_direction r;
     tr_extendedRtpCapabilities := tr_extendedRtpCapabilities r; tr_canProduceByKind := tr_canProduceByKind r;
     tr_maxSctpMessageSize := tr_maxSctpMessageSize r; tr_appData := tr_appData r;
     tr_iceGatheringState := tr_iceGatheringState r; tr_connectionState := v; tr_producers := tr_producers r;
     tr_consumers := tr_consumers r; tr_dataProducers := tr_dataProducers r;
     tr_dataConsumers := tr_dataConsumers r; tr_probatorConsumerCreated := tr_probatorConsumerCreated r;
     tr_pendingConsumerTasks := tr_pendingConsumerTasks r;
     tr_consumerCreationInProgress := tr_consumerCreationInProgress r; tr_pendingPause := tr_pendingPause r;
     tr_pendingResume := tr_pendingResume r; tr_pendingClose := tr_pendingClose r |}.
Definition set_tr_producers (v : list (string * nat)) (r : Transport) : Transport :=
  {| tr_closed := tr_closed r; tr_id := tr_id r; tr_direction := tr_direction r;
     tr_extendedRtpCapabilities := tr_extendedRtpCapabilities r; tr_canProduceByKind := tr_canProduceByKind r;
     tr_maxSctpMessageSize := tr_maxSctpMessageSize r; tr_appData := tr_appData r;
     tr_iceGatheringState := tr_iceGatheringState r; tr_connectionState := tr_connectionState r;
     tr_producers := v; tr_consumers := tr_consumers r; tr_dataProducers := tr_dataProducers r;
     tr_dataConsumers := tr_dataConsumers r; tr_probatorConsumerCreated := tr_probatorConsumerCreated r;
     tr_pendingConsumerTasks := tr_pendingConsumerTasks r;
     tr_consumerCreationInProgress := tr_consumerCreationInProgress r; tr_pendingPause := tr_pendingPause r;
     tr_pendingResume := tr_pendingResume r; tr_pendingClose := tr_pendingClose r |}.
Definition set_tr_consumers (v : list (string * nat)) (r : Transport) : Transport :=
  {| tr_closed := tr_closed r; tr_id := tr_id r; tr_direction := tr_direction r;
     tr_extendedRtpCapabilities := tr_extendedRtpCapabilities r; tr_canProduceByKind := tr_canProduceByKind r;
     tr_maxSctpMessageSize := tr_maxSctpMessageSize r; tr_appData := tr_appData r;
     tr_iceGatheringState := tr_iceGatheringState r; tr_connectionState := tr_connectionState r;
     tr_producers := tr_producers r; tr_consumers := v; tr_dataProducers := tr_dataProducers r;
     tr_dataConsumers := tr_dataConsumers r; tr_probatorConsumerCreated := tr_probatorConsumerCreated r;
     tr_pendingConsumerTasks := tr_pendingConsumerTasks r;
     tr_consumerCreationInProgress := tr_consumerCreationInProgress r; tr_pendingPause := tr_pendingPause r;
     tr_pendingResume := tr_pendingResume r; tr_pendingClose := tr_pendingClose r |}.
Definition set_tr_dataProducers (v : list (string * nat)) (r : Transport) : Transport :=
  {| tr_closed := tr_closed r; tr_id := tr_id r; tr_direction := tr_direction r;
     tr_extendedRtpCapabilities := tr_extendedRtpCapabilities r; tr_canProduceByKind := tr_canProduceByKind r;
     tr_maxSctpMessageSize := tr_maxSctpMessageSize r; tr_appData := tr_appData r;
     tr_iceGatheringState := tr_iceGatheringState r; tr_connectionState := tr_connectionState r;
     tr_producers := tr_producers r; tr_consumers := tr_consumers r; tr_dataProducers := v;
     tr_dataConsumers := tr_dataConsumers r; tr_probatorConsumerCreated := tr_probatorConsumerCreated r;
     tr_pendingConsumerTasks := tr_pendingConsumerTasks r;
     tr_consumerCreationInProgress := tr_consumerCreationInProgress r; tr_pendingPause := tr_pendingPause r;
     tr_pendingResume := tr_pendingResume r; tr_pendingClose := tr_pendingClose r |}.
Definition set_tr_dataConsumers (v : list (string * nat)) (r : Transport) : Transport :=
  {| tr_closed := tr_closed r; tr_id := tr_id r; tr_direction := tr_direction r;
     tr_extendedRtpCapabilities := tr_extendedRtpCapabilities r; tr_canProduceByKind := tr_canProduceByKind r;
     tr_maxSctpMessageSize := tr_maxSctpMessageSize r; tr_appData := tr_appData r;
     tr_iceGatheringState := tr_iceGatheringState r; tr_connectionState := tr_connectionState r;
     tr_producers := tr_producers r; tr_consumers := tr_consumers r; tr_dataProducers := tr_dataProducers r;
     tr_dataConsumers := v; tr_probatorConsumerCreated := tr_probatorConsumerCreated r;
     tr_pendingConsumerTasks := tr_pendingConsumerTasks r;
     tr_consumerCreationInProgress := tr_consumerCreationInProgress r; tr_pendingPause := tr_pendingPause r;
     tr_pendingResume := tr_pendingResume r; tr_pendingClose := tr_pendingClose r |}.
Definition set_tr_probatorConsumerCreated (v : bool) (r : Transport) : Transport :=
  {| tr_closed := tr_closed r; tr_id := tr_id r; tr_direction := tr_direction r;
     tr_extendedRtpCapabilities := tr_extendedRtpCapabilities r; tr_canProduceByKind := tr_canProduceByKind r;
     tr_maxSctpMessageSize := tr_maxSctpMessageSize r; tr_appData := tr_appData r;
     tr_iceGatheringState := tr_iceGatheringState r; tr_connectionState := tr_connectionState r;
     tr_producers := tr_producers r; tr_consumers := tr_consumers r; tr_dataProducers := tr_dataProducers r;
     tr_dataConsumers := tr_dataConsumers r; tr_probatorConsumerCreated := v;
     tr_pendingConsumerTasks := tr_pendingConsumerTasks r;
     tr_consumerCreationInProgress := tr_consumerCreationInProgress r; tr_pendingPause := tr_pendingPause r;
     tr_pendingResume := tr_pendingResume r; tr_pendingClose := tr_pendingClose r |}.
Definition set_tr_pendingConsumerTasks (v : list ConsumerCreationTask) (r : Transport) : Transport :=
  {| tr_closed := tr_closed r; tr_id := tr_id r; tr_direction := tr_direction r;
     tr_extendedRtpCapabilities := tr_extendedRtpCapabilities r; tr_canProduceByKind := tr_canProduceByKind r;
     tr_maxSctpMessageSize := tr_maxSctpMessageSize r; tr_appData := tr_appData r;
     tr_iceGatheringState := tr_iceGatheringState r; tr_connectionState := tr_connectionState r;
     tr_producers := tr_producers r; tr_consumers := tr_consumers r; tr_dataProducers := tr_dataProducers r;
     tr_dataConsumers := tr_dataConsumers r; tr_probatorConsumerCreated := tr_probatorConsumerCreated r;
     tr_pendingConsumerTasks := v; tr_consumerCreationInProgress := tr_consumerCreationInProgress r;
     tr_pendingPause := tr_pendingPause r; tr_pendingResume := tr_pendingResume r;
     tr_pendingClose := tr_pendingClose r |}.
Definition set_tr_consumerCreationInProgress (v : bool) (r : Transport) : Transport :=
  {| tr_closed := tr_closed r; tr_id := tr_id r; tr_direction := tr_direction r;
     tr_extendedRtpCapabilities := tr_extendedRtpCapabilities r; tr_canProduceByKind := tr_canProduceByKind r;
     tr_maxSctpMessageSize := tr_maxSctpMessageSize r; tr_appData := tr_appData r;
     tr_iceGatheringState := tr_iceGatheringState r; tr_connectionState := tr_connectionState r;
     tr_producers := tr_producers r; tr_consumers := tr_consumers r; tr_dataProducers := tr_dataProducers r;
     tr_dataConsumers := tr_dataConsumers r; tr_probatorConsumerCreated := tr_probatorConsumerCreated r;
     tr_pendingConsumerTasks := tr_pendingConsumerTasks r; tr_consumerCreationInProgress := v;
     tr_pendingPause := tr_pendingPause r; tr_pendingResume := tr_pendingResume r;
     tr_pendingClose := tr_pendingClose r |}.
Definition set_tr_pendingPause (v : Pending) (r : Transport) : Transport :=
  {| tr_closed := tr_closed r; tr_id := tr_id r; tr_direction := tr_direction r;
     tr_extendedRtpCapabilities := tr_extendedRtpCapabilities r; tr_canProduceByKind := tr_canProduceByKind r;
     tr_maxSctpMessageSize := tr_maxSctpMessageSize r; tr_appData := tr_appData r;
     tr_iceGatheringState := tr_iceGatheringState r; tr_connectionState := tr_connectionState r;
     tr_producers := tr_producers r; tr_consumers := tr_consumers r; tr_dataProducers := tr_dataProducers r;
     tr_dataConsumers := tr_dataConsumers r; tr_probatorConsumerCreated := tr_probatorConsumerCreated r;
     tr_pendingConsumerTasks := tr_pendingConsumerTasks r;
     tr_consumerCreationInProgress := tr_consumerCreationInProgress r; tr_pendingPause := v;
     tr_pendingResume := tr_pendingResume r; tr_pendingClose := tr_pendingClose r |}.
Definition set_tr_pendingResume (v : Pending) (r : Transport) : Transport :=
  {| tr_closed := tr_closed r; tr_id := tr_id r; tr_direction := tr_direction r;
     tr_extendedRtpCapabilities := tr_extendedRtpCapabilities r; tr_canProduceByKind := tr_canProduceByKind r;
     tr_maxSctpMessageSize := tr_maxSctpMessageSize r; tr_appData := tr_appData r;
     tr_iceGatheringState := tr_iceGatheringState r; tr_connectionState := tr_connectionState r;
     tr_producers := tr_producers r; tr_consumers := tr_consumers r; tr_dataProducers := tr_dataProducers r;
     tr_dataConsumers := tr_dataConsumers r; tr_probatorConsumerCreated := tr_probatorConsumerCreated r;
     tr_pendingConsumerTasks := tr_pendingConsumerTasks r;
     tr_consumerCreationInProgress := tr_consumerCreationInProgress r; tr_pendingPause := tr_pendingPause r;
     tr_pendingResume := v; tr_pendingClose := tr_pendingClose r |}.
Definition set_tr_pendingClose (v : Pending) (r : Transport) : Transport :=
  {| tr_closed := tr_closed r; tr_id := tr_id r; tr_direction := tr_direction r;
     tr_extendedRtpCapabilities := tr_extendedRtpCapabilities r; tr_canProduceByKind := tr_canProduceByKind r;
     tr_maxSctpMessageSize := tr_maxSctpMessageSize r; tr_appData := tr_appData r;
     tr_iceGatheringState := tr_iceGatheringState r; tr_connectionState := tr_connectionState r;
     tr_producers := tr_producers r; tr_consumers := tr_consumers r; tr_dataProducers := tr_dataProducers r;
     tr_dataConsumers := tr_dataConsumers r; tr_probatorConsumerCreated := tr_probatorConsumerCreated r;
     tr_pendingConsumerTasks := tr_pendingConsumerTasks r;
     tr_consumerCreationInProgress := tr_consumerCreationInProgress r; tr_pendingPause := tr_pendingPause r;
     tr_pendingResume := tr_pendingResume r; tr_pendingClose := v |}.

Definition get_pending (k : batch) (t : Transport) : Pending :=
  match k with BPause => tr_pendingPause t | BResume => tr_pendingResume t | BClose => tr_pendingClose t end.

Definition set_pending (k : batch) (p : Pending) (t : Transport) : Transport :=
  match k with
  | BPause => set_tr_pendingPause p t
  | BResume => set_tr_pendingResume p t
  | BClose => set_tr_pendingClose p t
  end.

Definition set_pending_consumers (k : batch) (m : list (string * nat)) (t : Transport) : Transport :=
  set_pending k {| pd_consumers := m; pd_inProgress := pd_inProgress (get_pending k t) |} t.

Definition set_inProgress (k : batch) (b : bool) (t : Transport) : Transport :=
  set_pending k {| pd_consumers := pd_consumers (get_pending k t); pd_inProgress := b |} t.

(** ** Construction *)

Record TransportOptions := {
  to_direction : string;
  to_id : string;
  to_sctpParameters : jsval;
  to_additionalSettings : jsval;
  to_appData : jsval;
  to_extendedRtpCapabilities : ExtendedRtpCapabilities;
  to_canProduceByKind : jsval;
}.

(** The settings the library decides about are removed from a clone before the
    handler sees them; [undefined] and [null] become an empty object. *)
Definition sanitize_settings (additionalSettings : jsval) : jsval :=
  foldl js_delete (js_coalesce additionalSettings (JObj []))
    ["iceServers"; "iceTransportPolicy"; "bundlePolicy"; "rtcpMuxPolicy"; "sdpSemantics"].

Definition no_pending : Pending := {| pd_consumers := []; pd_inProgress := false |}.

Definition new_Transport (o : TransportOptions) : Transport :=
  {| tr_closed := false; tr_id := to_id o; tr_direction := to_direction o;
     tr_extendedRtpCapabilities := to_extendedRtpCapabilities o; tr_canProduceByKind := to_canProduceByKind o;
     tr_maxSctpMessageSize :=
       if truthy (to_sctpParameters o) then js_get (to_sctpParameters o) "maxMessageSize" else JNull;
     tr_appData := js_coalesce (to_appData o) (JObj []); tr_iceGatheringState := "new"; tr_connectionState := "new";
     tr_producers := []; tr_consumers := []; tr_dataProducers := []; tr_dataConsumers := [];
     tr_probatorConsumerCreated := false; tr_pendingConsumerTasks := []; tr_consumerCreationInProgress := false;
     tr_pendingPause := no_pending; tr_pendingResume := no_pending; tr_pendingClose := no_pending |}.

(** ** Argument checks

    Each method runs through its checks in order and throws at the first that
    fails; [None] lets it go on.  How many listeners the application has set on
    the transport is an input. *)

Record Listeners := { ln_connect : nat; ln_produce : nat; ln_producedata : nat }.

Fixpoint first_error (checks : list (bool * error)) : option error :=
  match checks with
  | [] => None
  | (b, e) :: checks => if b then Some e else first_error checks
  end.

(** The message names the event between double quotes. *)
Definition no_listener (event : string) : string :=
  "no " ++ String "034"%char event ++ String "034"%char " listener set into this transport".

(** Conditions several methods test. *)
Definition unconnectable (t : Transport) (ln : Listeners) : bool :=
  (ln_connect ln =? 0)%nat && String.eqb (tr_connectionState t) "new".

Definition bad_appData (appData : jsval) : bool := truthy appData && not_type appData "object".

Record ProduceOptions := {
  pr_track : option nat;
  pr_encodings : jsval;
  pr_codecOptions : jsval;
  pr_codec : jsval;
  pr_stopTracks : bool;
  pr_disableTrackOnPause : bool;
  pr_zeroRtpOnPause : bool;
  pr_appData : jsval;
}.

(** The checks of [produce]; the track is read in the store. *)
Definition produce_check (t : Transport) (ln : Listeners) (h : tracks) (o : ProduceOptions) : option error :=
  match pr_track o ≫= λ a, h !! a with
  | None => first_error [(tr_closed t, InvalidStateError "closed"); (true, TypeError "missing track")]
  | Some track => first_error [
      (tr_closed t, InvalidStateError "closed");
      (negb (String.eqb (tr_direction t) "send"), UnsupportedError "not a sending Transport");
      (negb (truthy (js_get (tr_canProduceByKind t) (t_kind track))), UnsupportedError ("cannot produce " ++ t_kind track));
      (t_ended track, InvalidStateError "track ended");
      (unconnectable t ln, TypeError (no_listener "connect"));
      ((ln_produce ln =? 0)%nat, TypeError (no_listener "produce"));
      (bad_appData (pr_appData o), TypeError "if given, appData must be an object")]
  end.

(** ** Encodings *)

(** Copies [key] if the value has the type. *)
Definition copy_typed (encoding : jsval) (n : jsval) (kt : string * string) : jsval :=
  set_if (negb (not_type (js_get encoding kt.1) kt.2)) n kt.1 (js_get encoding kt.1).

(** The fields of an encoding that are passed on, with their types. *)
Definition encoding_fields : list (string * string) :=
  [("dtx", "boolean"); ("scalabilityMode", "string"); ("scaleResolutionDownBy", "number"); ("maxBitrate", "number");
   ("maxFramerate", "number"); ("adaptivePtime", "boolean"); ("priority", "string"); ("networkPriority", "string")].

Definition normalizeEncoding (encoding : jsval) : outcome jsval :=
  active ← get_prop encoding "active";
  let n := set_if (is_false active) (JObj [("active", JBool true)]) "active" (JBool false) in
  Ok (foldl (copy_typed encoding) n encoding_fields).

Definition normalizeEncodings (encodings : jsval) : outcome jsval :=
  if truthy encodings then
    match encodings with
    | JArr [] => Ok JUndef
    | JArr l => l' ← traverse normalizeEncoding l; Ok (JArr l')
    | _ => Throw "encodings must be an array"
    end
  else Ok JUndef.

(** ** The other methods' checks *)

Record ConsumeOptions := {
  cs_id : jsval;
  cs_producerId : jsval;
  cs_kind : jsval;
  cs_rtpParameters : jsval;
  cs_streamId : jsval;
  cs_appData : jsval;
}.

Definition consume_check (t : Transport) (ln : Listeners) (o : ConsumeOptions) : option error :=
  first_error [
    (tr_closed t, InvalidStateError "closed");
    (negb (String.eqb (tr_direction t) "recv"), UnsupportedError "not a receiving Transport");
    (not_type (cs_id o) "string", TypeError "missing id");
    (not_type (cs_producerId o) "string", TypeError "missing producerId");
    (negb (is_str (cs_kind o) "audio") && negb (is_str (cs_kind o) "video"), TypeError "invalid kind");
    (unconnectable t ln, TypeError (no_listener "connect"));
    (bad_appData (cs_appData o), TypeError "if given, appData must be an object")].

(** The string a checked argument holds. *)
Definition js_string (v : jsval) : string := match v with JStr s => s | _ => "" end.

(** The whole of [consume] up to storing the task: [promise] numbers the promise
    it returns.  The parameters are validated on a clone, which gets the defaults. *)
Definition consume_task (t : Transport) (ln : Listeners) (o : ConsumeOptions) (promise : nat) :
    ConsumerCreationTask + error :=
  match consume_check t ln o with
  | Some e => inr e
  | None =>
      match canReceive (cs_rtpParameters o) (tr_extendedRtpCapabilities t) with
      | Throw m => inr (OtherError m)
      | Ok (false, _) => inr (UnsupportedError "cannot consume this Producer")
      | Ok (true, params) =>
          inl {| ct_promise := promise; ct_id := js_string (cs_id o); ct_producerId := js_string (cs_producerId o);
                 ct_kind := js_string (cs_kind o); ct_rtpParameters := params; ct_streamId := cs_streamId o;
                 ct_appData := cs_appData o |}
      end
  end.

Record ProduceDataOptions := {
  pdo_ordered : bool;
  pdo_maxPacketLifeTime : jsval;
  pdo_maxRetransmits : jsval;
  pdo_label : string;
  pdo_protocol : string;
  pdo_appData : jsval;
}.

Definition produceData_check (t : Transport) (ln : Listeners) (o : ProduceDataOptions) : option error :=
  first_error [
    (tr_closed t, InvalidStateError "closed");
    (negb (String.eqb (tr_direction t) "send"), UnsupportedError "not a sending Transport");
    (negb (truthy (tr_maxSctpMessageSize t)), UnsupportedError "SCTP not enabled by remote Transport");
    (unconnectable t ln, TypeError (no_listener "connect"));
    ((ln_producedata ln =? 0)%nat, TypeError (no_listener "producedata"));
    (bad_appData (pdo_appData o), TypeError "if given, appData must be an object")].

(** Partial reliability makes the channel unordered. *)
Definition effective_ordered (o : ProduceDataOptions) : bool :=
  if truthy (pdo_maxPacketLifeTime o) || truthy (pdo_maxRetransmits o) then false else pdo_ordered o.

Record ConsumeDataOptions := {
  cdo_id : jsval;
  cdo_dataProducerId : jsval;
  cdo_sctpStreamParameters : jsval;
  cdo_label : string;
  cdo_protocol : string;
  cdo_appData : jsval;
}.

(** The validated clone of the stream parameters, or the error. *)
Definition consumeData_check (t : Transport) (ln : Listeners) (o : ConsumeDataOptions) : jsval + error :=
  match first_error [
    (tr_closed t, InvalidStateError "closed");
    (negb (String.eqb (tr_direction t) "recv"), UnsupportedError "not a receiving Transport");
    (negb (truthy (tr_maxSctpMessageSize t)), UnsupportedError "SCTP not enabled by remote Transport");
    (not_type (cdo_id o) "string", TypeError "missing id");
    (not_type (cdo_dataProducerId o) "string", TypeError "missing dataProducerId");
    (unconnectable t ln, TypeError (no_listener "connect"));
    (bad_appData (cdo_appData o), TypeError "if given, appData must be an object")] with
  | Some e => inr e
  | None =>
      match validateSctpStreamParameters (cdo_sctpStreamParameters o) with
      | Throw m => inr (OtherError m)
      | Ok params => inl params
      end
  end.

Definition getStats_check (t : Transport) : option error :=
  first_error [(tr_closed t, InvalidStateError "closed")].

Definition restartIce_check (t : Transport) (iceParameters : jsval) : option error :=
  first_error [(tr_closed t, InvalidStateError "closed"); (negb (truthy iceParameters), TypeError "missing iceParameters")].

Definition updateIceServers_check (t : Transport) (iceServers : jsval) : option error :=
  first_error [(tr_closed t, InvalidStateError "closed"); (negb (is_array iceServers), TypeError "missing iceServers")].

(** ** The handler's events *)

Inductive connect_reply := ConnectRefused (e : error) | ConnectForwarded (dtlsParameters : jsval).

Definition on_connect (t : Transport) (dtlsParameters : jsval) : connect_reply :=
  if tr_closed t then ConnectRefused (InvalidStateError "closed") else ConnectForwarded dtlsParameters.

Definition on_icegatheringstatechange (t : Transport) (state : string) : Transport * list emitted :=
  if String.eqb state (tr_iceGatheringState t) then (t, [])
  else (set_tr_iceGatheringState state t, if tr_closed t then [] else [Event "icegatheringstatechange"]).

Definition on_connectionstatechange (t : Transport) (state : string) : Transport * list emitted :=
  if String.eqb state (tr_connectionState t) then (t, [])
  else (set_tr_connectionState state t, if tr_closed t then [] else [Event "connectionstatechange"]).

(** ** Properties *)

Lemma first_error_none checks : first_error checks = None ↔ Forall (λ c, c.1 = false) checks.
Proof.
  induction checks as [|[b e] checks IH]; cbn; [naive_solver constructor|].
  rewrite Forall_cons, <-IH. destruct b; naive_solver.
Qed.




Lemma map_get_app {V} (o o' : list (string * V)) k : k ∉ map_keys o → map_get (o ++ o') k = map_get o' k.
Proof.
  unfold map_keys. induction o as [|[k0 v0] o IH]; csimpl; [done|]. intros Hk.
  rewrite decide_False by set_solver. apply IH. set_solver.
Qed.



