(* ===== verification/TransportRun.v ===== *)
(** * Transport: the commands that go through the await queue
    (src/client/lib/Transport.js)

    A transport with its producers, consumers and data channels, its await queue
    and the microtasks it has scheduled.  The body of a queued task is cut at its
    awaits: starting it and each answer it waits for are separate events, so runs
    cover every interleaving of the application's calls, the handler's answers and
    the microtasks.  The await queue starts a task as soon as it is first, and
    microtasks run soon after they are scheduled; here both may also happen later
    and microtasks in any order, so the runs include the real ones.  When the
    queue is stopped, the body that is running goes on, detached from the queue.
    Callbacks the application passes for the native sender and receiver are not
    part of the model, and its event listeners are assumed not to call back into
    the transport while it is closing. *)

From stdpp Require Import gmap.
From S2P Require Import Prelude JsNum JsVal OrtcValidate Ortc ClientBase Producer Consumer DataChannels Transport.
Local Open Scope string_scope.
Local Open Scope list_scope.

(** ** Tasks *)

Record ReceiveOptions := {
  ro_trackId : string;
  ro_kind : string;
  ro_rtpParameters : jsval;
  ro_streamId : jsval;
}.

(** Calls of the handler. *)
Inductive hcall :=
| HSend (track : nat) (encodings codecOptions codec : jsval)
| HStopSending (localId : string)
| HProducer (localId : string) (r : request)
| HReceive (optionsList : list ReceiveOptions)
| HBatch (k : batch) (localIds : list string)
| HSendDataChannel (ordered : bool) (maxPacketLifeTime maxRetransmits : jsval) (label protocol : string)
| HReceiveDataChannel (sctpStreamParameters : jsval) (label protocol : string)
| HRestartIce (iceParameters : jsval)
| HUpdateIceServers (iceServers : jsval)
| HClose.

(** What the transport pushes into its await queue. *)
Inductive job :=
| JProduce (track : nat) (o : ProduceOptions)
| JProducer (a : nat) (localId : string) (r : request)
| JStopSending (localId : string)
| JCreateConsumers
| JBatch (k : batch)
| JProduceData (o : ProduceDataOptions)
| JConsumeData (id dataProducerId : string) (sctpStreamParameters : jsval) (o : ConsumeDataOptions)
| JRestartIce (iceParameters : jsval)
| JUpdateIceServers (iceServers : jsval).

(** Where the body of a task waits. *)
Inductive body :=
| BdSend (track : nat) (o : ProduceOptions)
| BdProduce (track : nat) (o : ProduceOptions) (localId : string) (rtpParameters rtpSender : jsval)
| BdReceive (tasks : list ConsumerCreationTask)
| BdProbator
| BdSendData (o : ProduceDataOptions)
| BdProduceData (o : ProduceDataOptions) (sctpStreamParameters : jsval)
| BdReceiveData (id dataProducerId : string) (sctpStreamParameters : jsval) (o : ConsumeDataOptions)
| BdHandler (swallow : bool) (** one handler call; whether its rejection is caught *).

(** Answers: of the handler, and of the application to [produce] and
    [producedata].  A received track is a new object. *)
Inductive reply :=
| RpDone
| RpSent (localId : string) (rtpParameters rtpSender : jsval)
| RpId (id : string)
| RpReceived (results : list (string * jsval * MediaStreamTrack))
| RpChannel (sctpStreamParameters : jsval)
| RpError (e : error).

(** How a task ends; the address of the object it created, if any. *)
Inductive finish := FinOk (a : option nat) | FinError (e : error).

Inductive microtask :=
| MCreate                                   (** scheduled by [consume] *)
| MBatch (k : batch)                        (** scheduled by a consumer's [@pause] or [@resume] *)
| MThenCreate | MThenBatch (k : batch)      (** the [then] of a completed batch *)
| MAnswer (a : nat) (r : request) (ok : bool) (** the callbacks of a producer's request *)
| MProduceFailed (track : nat) (o : ProduceOptions) (e : error) (** the [catch] of [produce] *).

Inductive promise := PrPending | PrResolved (a : nat) | PrRejected (e : error).

Inductive out :=
| OHandler (c : hcall)
| OProduce (kind : string) (rtpParameters appData : jsval)
| OProduceData (sctpStreamParameters : jsval) (label protocol : string) (appData : jsval)
| OTransport (e : emitted)
| OObject (a : nat) (e : emitted)
| OData (a : nat) (e : dout)
| OResult (r : finish) (** a queued call of the application settles *).

Section Run.
Context `{TrackPlatform} {Q : Type} `{AwaitQueue job Q}.

(** ** State *)

Record World := {
  (** The tracks of the application and of the handler. *)
  w_tracks : tracks;
  (** The next unused address of a track or an object. *)
  w_next : nat;
  (** The objects created so far, by address; the transport's maps refer to them. *)
  w_producers : gmap nat Producer;
  w_consumers : gmap nat Consumer;
  w_dataProducers : gmap nat DataProducer.t;
  w_dataConsumers : gmap nat DataConsumer.t;
  w_transport : Transport;
  w_queue : Q;
  (** The body of the first task of the queue, once it has started. *)
  w_running : option body;
  (** Bodies that were running when the queue was stopped. *)
  w_detached : list body;
  (** Scheduled microtasks. *)
  w_micro : list microtask;
  (** The promises returned by [consume], by number. *)
  w_promises : list promise;
  (** Everything emitted or asked of the handler, oldest first. *)
  w_out : list out;
}.

Definition set_w_tracks (v : tracks) (r : World) : World :=
  {| w_tracks := v; w_next := w_next r; w_producers := w_producers r; w_consumers := w_consumers r;
     w_dataProducers := w_dataProducers r; w_dataConsumers := w_dataConsumers r; w_transport := w_transport r;
     w_queue := w_queue r; w_running := w_running r; w_detached := w_detached r; w_micro := w_micro r;
     w_promises := w_promises r; w_out := w_out r |}.
Definition set_w_next (v : nat) (r : World) : World :=
  {| w_tracks := w_tracks r; w_next := v; w_producers := w_producers r; w_consumers := w_consumers r;
     w_dataProducers := w_dataProducers r; w_dataConsumers := w_dataConsumers r; w_transport := w_transport r;
     w_queue := w_queue r; w_running := w_running r; w_detached := w_detached r; w_micro := w_micro r;
     w_promises := w_promises r; w_out := w_out r |}.
Definition set_w_producers (v : gmap nat Producer) (r : World) : World :=
  {| w_tracks := w_tracks r; w_next := w_next r; w_producers := v; w_consumers := w_consumers r;
     w_dataProducers := w_dataProducers r; w_dataConsumers := w_dataConsumers r; w_transport := w_transport r;
     w_queue := w_queue r; w_running := w_running r; w_detached := w_detached r; w_micro := w_micro r;
     w_promises := w_promises r; w_out := w_out r |}.
Definition set_w_consumers (v : gmap nat Consumer) (r : World) : World :=
  {| w_tracks := w_tracks r; w_next := w_next r; w_producers := w_producers r; w_consumers := v;
     w_dataProducers := w_dataProducers r; w_dataConsumers := w_dataConsumers r; w_transport := w_transport r;
     w_queue := w_queue r; w_running := w_running r; w_detached := w_detached r; w_micro := w_micro r;
     w_promises := w_promises r; w_out := w_out r |}.
Definition set_w_dataProducers (v : gmap nat DataProducer.t) (r : World) : World :=
  {| w_tracks := w_tracks r; w_next := w_next r; w_producers := w_producers r; w_consumers := w_consumers r;
     w_dataProducers := v; w_dataConsumers := w_dataConsumers r; w_transport := w_transport r;
     w_queue := w_queue r; w_running := w_running r; w_detached := w_detached r; w_micro := w_micro r;
     w_promises := w_promises r; w_out := w_out r |}.
Definition set_w_dataConsumers (v : gmap nat DataConsumer.t) (r : World) : World :=
  {| w_tracks := w_tracks r; w_next := w_next r; w_producers := w_producers r; w_consumers := w_consumers r;
     w_dataProducers := w_dataProducers r; w_dataConsumers := v; w_transport := w_transport r;
     w_queue := w_queue r; w_running := w_running r; w_detached := w_detached r; w_micro := w_micro r;
     w_promises := w_promises r; w_out := w_out r |}.
Definition set_w_transport (v : Transport) (r : World) : World :=
  {| w_tracks := w_tracks r; w_next := w_next r; w_producers := w_producers r; w_consumers := w_consumers r;
     w_dataProducers := w_dataProducers r; w_dataConsumers := w_dataConsumers r; w_transport := v;
     w_queue := w_queue r; w_running := w_running r; w_detached := w_detached r; w_micro := w_micro r;
     w_promises := w_promises r; w_out := w_out r |}.
Definition set_w_queue (v : Q) (r : World) : World :=
  {| w_tracks := w_tracks r; w_next := w_next r; w_producers := w_producers r; w_consumers := w_consumers r;
     w_dataProducers := w_dataProducers r; w_dataConsumers := w_dataConsumers r; w_transport := w_transport r;
     w_queue := v; w_running := w_running r; w_detached := w_detached r; w_micro := w_micro r;
     w_promises := w_promises r; w_out := w_out r |}.
Definition set_w_running (v : option body) (r : World) : World :=
  {| w_tracks := w_tracks r; w_next := w_next r; w_producers := w_producers r; w_consumers := w_consumers r;
     w_dataProducers := w_dataProducers r; w_dataConsumers := w_dataConsumers r; w_transport := w_transport r;
     w_queue := w_queue r; w_running := v; w_detached := w_detached r; w_micro := w_micro r;
     w_promises := w_promises r; w_out := w_out r |}.
Definition set_w_detached (v : list body) (r : World) : World :=
  {| w_tracks := w_tracks r; w_next := w_next r; w_producers := w_producers r; w_consumers := w_consumers r;
     w_dataProducers := w_dataProducers r; w_dataConsumers := w_dataConsumers r; w_transport := w_transport r;
     w_queue := w_queue r; w_running := w_running r; w_detached := v; w_micro := w_micro r;
     w_promises := w_promises r; w_out := w_out r |}.
Definition set_w_micro (v : list microtask) (r : World) : World :=
  {| w_tracks := w_tracks r; w_next := w_next r; w_producers := w_producers r; w_consumers := w_consumers r;
     w_dataProducers := w_dataProducers r; w_dataConsumers := w_dataConsumers r; w_transport := w_transport r;
     w_queue := w_queue r; w_running := w_running r; w_detached := w_detached r; w_micro := v;
     w_promises := w_promises r; w_out := w_out r |}.
Definition set_w_promises (v : list promise) (r : World) : World :=
  {| w_tracks := w_tracks r; w_next := w_next r; w_producers := w_producers r; w_consumers := w_consumers r;
     w_dataProducers := w_dataProducers r; w_dataConsumers := w_dataConsumers r; w_transport := w_transport r;
     w_queue := w_queue r; w_running := w_running r; w_detached := w_detached r; w_micro := w_micro r;
     w_promises := v; w_out := w_out r |}.
Definition set_w_out (v : list out) (r : World) : World :=
  {| w_tracks := w_tracks r; w_next := w_next r; w_producers := w_producers r; w_consumers := w_consumers r;
     w_dataProducers := w_dataProducers r; w_dataConsumers := w_dataConsumers r; w_transport := w_transport r;
     w_queue := w_queue r; w_running := w_running r; w_detached := w_detached r; w_micro := w_micro r;
     w_promises := w_promises r; w_out := v |}.

Definition new_World (h : tracks) (next : nat) (o : TransportOptions) : World :=
  {| w_tracks := h; w_next := next; w_producers := ∅; w_consumers := ∅; w_dataProducers := ∅; w_dataConsumers := ∅;
     w_transport := new_Transport o; w_queue := aq_new; w_running := None; w_detached := []; w_micro := [];
     w_promises := []; w_out := [] |}.

Definition emit (o : list out) (w : World) : World := set_w_out (w_out w ++ o) w.
Definition schedule (m : microtask) (w : World) : World := set_w_micro (w_micro w ++ [m]) w.
Definition push (j : job) (w : World) : World := set_w_queue (aq_push (w_queue w) j) w.
Definition on_transport (f : Transport → Transport) (w : World) : World := set_w_transport (f (w_transport w)) w.

(** ** Batches of consumers *)

Definition createPendingConsumers (w : World) : World :=
  push JCreateConsumers (on_transport (set_tr_consumerCreationInProgress true) w).

Definition batchPendingConsumers (k : batch) (w : World) : World :=
  push (JBatch k) (on_transport (set_inProgress k true) w).

Definition pausePendingConsumers : World → World := batchPendingConsumers BPause.
Definition resumePendingConsumers : World → World := batchPendingConsumers BResume.
Definition closePendingConsumers : World → World := batchPendingConsumers BClose.

(** ** What the transport does when its objects emit *)

Definition delete_pending (k : batch) (id : string) (t : Transport) : Transport :=
  set_pending_consumers k (map_delete (pd_consumers (get_pending k t)) id) t.
Definition add_pending (k : batch) (id : string) (a : nat) (t : Transport) : Transport :=
  set_pending_consumers k (map_set (pd_consumers (get_pending k t)) id a) t.

Definition consumer_on_close (a : nat) (c : Consumer) (w : World) : World :=
  let w := on_transport (λ t, delete_pending BResume (c_id c) (delete_pending BPause (c_id c)
             (set_tr_consumers (map_delete (tr_consumers t) (c_id c)) t))) w in
  if tr_closed (w_transport w) then w
  else
    let w := on_transport (add_pending BClose (c_id c) a) w in
    if pd_inProgress (get_pending BClose (w_transport w)) then w else closePendingConsumers w.

Definition consumer_on_pause (a : nat) (c : Consumer) (w : World) : World :=
  schedule (MBatch BPause) (on_transport (λ t, add_pending BPause (c_id c) a (delete_pending BResume (c_id c) t)) w).

Definition consumer_on_resume (a : nat) (c : Consumer) (w : World) : World :=
  schedule (MBatch BResume) (on_transport (λ t, add_pending BResume (c_id c) a (delete_pending BPause (c_id c) t)) w).

(** The listeners of [handleConsumer]; other events go to the application. *)
Definition handleConsumer (a : nat) (c : Consumer) (w : World) (e : emitted) : World :=
  match e with
  | Event "@close" => consumer_on_close a c w
  | Event "@pause" => consumer_on_pause a c w
  | Event "@resume" => consumer_on_resume a c w
  | _ => emit [OObject a e] w
  end.

Definition producer_on_close (p : Producer) (w : World) : World :=
  let w := on_transport (λ t, set_tr_producers (map_delete (tr_producers t) (p_id p)) t) w in
  if tr_closed (w_transport w) then w else push (JStopSending (p_localId p)) w.

(** The listeners of [handleProducer]: requests are queued. *)
Definition handleProducer (a : nat) (p : Producer) (w : World) (e : emitted) : World :=
  match e with
  | Event "@close" => producer_on_close p w
  | Ask RGetStats => w
  | Ask r => push (JProducer a (p_localId p) r) w
  | _ => emit [OObject a e] w
  end.

Definition handleDataProducer (a : nat) (d : DataProducer.t) (w : World) (e : dout) : World :=
  match e with
  | DEvent "@close" _ => on_transport (λ t, set_tr_dataProducers (map_delete (tr_dataProducers t) (DataProducer.id d)) t) w
  | _ => emit [OData a e] w
  end.

Definition handleDataConsumer (a : nat) (d : DataConsumer.t) (w : World) (e : dout) : World :=
  match e with
  | DEvent "@close" _ => on_transport (λ t, set_tr_dataConsumers (map_delete (tr_dataConsumers t) (DataConsumer.id d)) t) w
  | _ => emit [OData a e] w
  end.

(** ** Calls on the objects *)

Inductive pcall :=
| PcPause | PcResume | PcClose
| PcReplaceTrack (track : option nat)
| PcSetMaxSpatialLayer (v : jsval)
| PcSetRtpEncodingParameters (v : jsval).

Definition producer_call (h : tracks) (p : Producer) (c : pcall) : tracks * Producer * list emitted :=
  match c with
  | PcPause => p_pause h p
  | PcResume => p_resume h p
  | PcClose => p_close h p
  | PcReplaceTrack track => let '(h, _, out) := p_replaceTrack h p track in (h, p, out)
  | PcSetMaxSpatialLayer v => (h, p, (p_setMaxSpatialLayer p v).2)
  | PcSetRtpEncodingParameters v => (h, p, (p_setRtpEncodingParameters p v).2)
  end.

Definition on_producer (a : nat) (call : pcall) (w : World) : World :=
  match w_producers w !! a with
  | None => w
  | Some p =>
      let '(h, p, es) := producer_call (w_tracks w) p call in
      foldl (handleProducer a p) (set_w_tracks h (set_w_producers (<[a := p]> (w_producers w)) w)) es
  end.

Definition on_consumer (a : nat) (call : cop) (w : World) : World :=
  match w_consumers w !! a with
  | None => w
  | Some c =>
      let '(h, c, es) := cstep (w_tracks w, c) call in
      foldl (handleConsumer a c) (set_w_tracks h (set_w_consumers (<[a := c]> (w_consumers w)) w)) es
  end.

Definition on_dataProducer (a : nat) (e : devent) (w : World) : World :=
  match w_dataProducers w !! a with
  | None => w
  | Some d =>
      match DataProducer.handleDataChannel d e with
      | Throw _ => w
      | Ok (d, es) => foldl (handleDataProducer a d) (set_w_dataProducers (<[a := d]> (w_dataProducers w)) w) es
      end
  end.

Definition on_dataConsumer (a : nat) (e : devent) (w : World) : World :=
  match w_dataConsumers w !! a with
  | None => w
  | Some d =>
      match DataConsumer.handleDataChannel d e with
      | Throw _ => w
      | Ok (d, es) => foldl (handleDataConsumer a d) (set_w_dataConsumers (<[a := d]> (w_dataConsumers w)) w) es
      end
  end.

(** ** The application's calls *)

(** A check that fails rejects the call. *)
Definition guarded (e : option error) (k : World → World) (w : World) : World :=
  match e with Some e => emit [OResult (FinError e)] w | None => k w end.

Definition produce (ln : Listeners) (o : ProduceOptions) (w : World) : World :=
  guarded (produce_check (w_transport w) ln (w_tracks w) o)
    (match pr_track o with Some track => push (JProduce track o) | None => id end) w.

Definition consume (ln : Listeners) (o : ConsumeOptions) (w : World) : World :=
  let n := length (w_promises w) in
  match consume_task (w_transport w) ln o n with
  | inr e => set_w_promises (w_promises w ++ [PrRejected e]) w
  | inl task =>
      schedule MCreate (on_transport (λ t, set_tr_pendingConsumerTasks (tr_pendingConsumerTasks t ++ [task]) t)
        (set_w_promises (w_promises w ++ [PrPending]) w))
  end.

Definition produceData (ln : Listeners) (o : ProduceDataOptions) (w : World) : World :=
  guarded (produceData_check (w_transport w) ln o) (push (JProduceData o)) w.

Definition consumeData (ln : Listeners) (o : ConsumeDataOptions) (w : World) : World :=
  match consumeData_check (w_transport w) ln o with
  | inr e => emit [OResult (FinError e)] w
  | inl params => push (JConsumeData (js_string (cdo_id o)) (js_string (cdo_dataProducerId o)) params o) w
  end.

Definition restartIce (v : jsval) (w : World) : World :=
  guarded (restartIce_check (w_transport w) v) (push (JRestartIce v)) w.

Definition updateIceServers (v : jsval) (w : World) : World :=
  guarded (updateIceServers_check (w_transport w) v) (push (JUpdateIceServers v)) w.

(** ** Running a task *)

Definition ask (c : hcall) (w : World) : World := emit [OHandler c] w.

Definition local_ids (w : World) (m : list (string * nat)) : list string :=
  omap (λ e, c_localId <$> w_consumers w !! e.2) m.

Definition receive_options (task : ConsumerCreationTask) : ReceiveOptions :=
  {| ro_trackId := ct_id task; ro_kind := ct_kind task; ro_rtpParameters := ct_rtpParameters task;
     ro_streamId := ct_streamId task |}.

(** From the start of a body to its first await, or to its end. *)
Definition start_job (j : job) (w : World) : World * (body + finish) :=
  match j with
  | JProduce track o =>
      match normalizeEncodings (pr_encodings o) with
      | Throw m => (w, inr (FinError (OtherError m)))
      | Ok encodings => (ask (HSend track encodings (pr_codecOptions o) (pr_codec o)) w, inl (BdSend track o))
      end
  | JProducer _ localId r => (ask (HProducer localId r) w, inl (BdHandler false))
  | JStopSending localId => (ask (HStopSending localId) w, inl (BdHandler false))
  | JCreateConsumers =>
      match tr_pendingConsumerTasks (w_transport w) with
      | [] => (w, inr (FinOk None))
      | tasks => (ask (HReceive (map receive_options tasks)) (on_transport (set_tr_pendingConsumerTasks []) w),
                  inl (BdReceive tasks))
      end
  | JBatch k =>
      match pd_consumers (get_pending k (w_transport w)) with
      | [] => (w, inr (FinOk None))
      | m => (ask (HBatch k (local_ids w m)) (on_transport (set_pending_consumers k []) w), inl (BdHandler true))
      end
  | JProduceData o =>
      (ask (HSendDataChannel (effective_ordered o) (pdo_maxPacketLifeTime o) (pdo_maxRetransmits o) (pdo_label o)
              (pdo_protocol o)) w, inl (BdSendData o))
  | JConsumeData id dataProducerId params o =>
      (ask (HReceiveDataChannel params (cdo_label o) (cdo_protocol o)) w, inl (BdReceiveData id dataProducerId params o))
  | JRestartIce v => (ask (HRestartIce v) w, inl (BdHandler false))
  | JUpdateIceServers v => (ask (HUpdateIceServers v) w, inl (BdHandler false))
  end.

(** The [catch] of [produce]'s body. *)
Definition produce_abandoned (localId : string) (e : error) (w : World) : World * (body + finish) :=
  (ask (HStopSending localId) w, inr (FinError e)).

(** The end of [produce]'s body. *)
Definition produce_created (track : nat) (o : ProduceOptions) (localId : string) (rtpParameters rtpSender : jsval)
    (id : string) (w : World) : World * (body + finish) :=
  match w_tracks w !! track with
  | None => produce_abandoned localId (OtherError "no track") w
  | Some x =>
      let a := w_next w in
      let '(h, p) := new_Producer a
        {| po_id := id; po_localId := localId; po_rtpSender := rtpSender; po_track := track;
           po_rtpParameters := rtpParameters; po_stopTracks := pr_stopTracks o;
           po_disableTrackOnPause := pr_disableTrackOnPause o; po_zeroRtpOnPause := pr_zeroRtpOnPause o;
           po_appData := pr_appData o |} (w_tracks w) x in
      let w := set_w_tracks h (set_w_next (S a) (set_w_producers (<[a := p]> (w_producers w)) w)) in
      let w := on_transport (λ t, set_tr_producers (map_set (tr_producers t) (p_id p) a) t) w in
      (emit [OTransport (Observed "newproducer")] w, inr (FinOk (Some a)))
  end.

Definition settle_promise (n : nat) (s : promise) (w : World) : World :=
  match w_promises w !! n with
  | Some PrPending => set_w_promises (<[n := s]> (w_promises w)) w
  | _ => w
  end.

(** One consumer of a batch; its track is new. *)
Definition consumer_created (task : ConsumerCreationTask) (result : string * jsval * MediaStreamTrack) (w : World) : World * Consumer :=
  let '(localId, rtpReceiver, x) := result in
  let track := w_next w in
  let a := S track in
  let '(h, c) := new_Consumer a
    {| co_id := ct_id task; co_localId := localId; co_producerId := ct_producerId task; co_rtpReceiver := rtpReceiver;
       co_track := track; co_rtpParameters := ct_rtpParameters task; co_appData := ct_appData task |}
    (<[track := x]> (w_tracks w)) x in
  let w := set_w_tracks h (set_w_next (S a) (set_w_consumers (<[a := c]> (w_consumers w)) w)) in
  let w := on_transport (λ t, set_tr_consumers (map_set (tr_consumers t) (c_id c) a) t) w in
  (settle_promise (ct_promise task) (PrResolved a) (emit [OTransport (Observed "newconsumer")] w), c).

Definition reject_tasks (tasks : list ConsumerCreationTask) (e : error) (w : World) : World :=
  foldl (λ w task, settle_promise (ct_promise task) (PrRejected e) w) w tasks.

(** The loop over the results, with the video consumer chosen for the probator;
    more results than tasks make it throw, which rejects what is unresolved. *)
Fixpoint consumers_created (all tasks : list ConsumerCreationTask) (results : list (string * jsval * MediaStreamTrack))
    (probator : option Consumer) (w : World) {struct results} : World * option Consumer :=
  match results with
  | [] => (w, probator)
  | result :: results =>
      match tasks with
      | [] => (reject_tasks all (OtherError "Cannot read properties of undefined (reading 'consumerOptions')") w, probator)
      | task :: tasks =>
          let '(w', c) := consumer_created task result w in
          let probator :=
            if negb (tr_probatorConsumerCreated (w_transport w)) && negb (bool_decide (is_Some probator)) &&
               String.eqb (ct_kind task) "video"
            then Some c else probator in
          consumers_created all tasks results probator w'
      end
  end.

(** RTP probation, after the batch. *)
Definition create_probator (probator : option Consumer) (w : World) : World * (body + finish) :=
  match probator with
  | None => (w, inr (FinOk None))
  | Some c =>
      match generateProbatorRtpParameters (c_rtpParameters c) with
      | Throw _ => (w, inr (FinOk None))
      | Ok params =>
          (ask (HReceive [{| ro_trackId := "probator"; ro_kind := "video"; ro_rtpParameters := params;
                             ro_streamId := JUndef |}]) w, inl BdProbator)
      end
  end.

Definition dataProducer_created (o : ProduceDataOptions) (params : jsval) (id : string) (w : World) : World * (body + finish) :=
  let a := w_next w in
  let d := DataProducer.new id params (pdo_appData o) in
  let w := set_w_next (S a) (set_w_dataProducers (<[a := d]> (w_dataProducers w)) w) in
  let w := on_transport (λ t, set_tr_dataProducers (map_set (tr_dataProducers t) id a) t) w in
  (emit [OTransport (Observed "newdataproducer")] w, inr (FinOk (Some a))).

Definition dataConsumer_created (id dataProducerId : string) (params : jsval) (o : ConsumeDataOptions) (w : World) :
    World * (body + finish) :=
  let a := w_next w in
  let d := DataConsumer.new id dataProducerId params (cdo_appData o) in
  let w := set_w_next (S a) (set_w_dataConsumers (<[a := d]> (w_dataConsumers w)) w) in
  let w := on_transport (λ t, set_tr_dataConsumers (map_set (tr_dataConsumers t) id a) t) w in
  (emit [OTransport (Observed "newdataconsumer")] w, inr (FinOk (Some a))).

Definition track_kind (w : World) (track : nat) : string :=
  match w_tracks w !! track with Some x => t_kind x | None => "" end.

(** From an answer to the next await, or to the end; an answer of another kind
    than the one awaited is not one ([None]). *)
Definition resume_body (b : body) (r : reply) (w : World) : option (World * (body + finish)) :=
  match b, r with
  | BdSend track o, RpSent localId rtpParameters rtpSender =>
      match validateRtpParameters rtpParameters with
      | Throw m => Some (produce_abandoned localId (OtherError m) w)
      | Ok params => Some (emit [OProduce (track_kind w track) params (pr_appData o)] w,
                           inl (BdProduce track o localId params rtpSender))
      end
  | BdSend _ _, RpError e => Some (w, inr (FinError e))
  | BdProduce track o localId params rtpSender, RpId id => Some (produce_created track o localId params rtpSender id w)
  | BdProduce _ _ localId _ _, RpError e => Some (produce_abandoned localId e w)
  | BdReceive tasks, RpReceived results =>
      let '(w, probator) := consumers_created tasks tasks results None w in Some (create_probator probator w)
  | BdReceive tasks, RpError e => Some (reject_tasks tasks e w, inr (FinOk None))
  | BdProbator, RpReceived _ => Some (on_transport (set_tr_probatorConsumerCreated true) w, inr (FinOk None))
  | BdProbator, RpError _ => Some (w, inr (FinOk None))
  | BdSendData o, RpChannel params =>
      match validateSctpStreamParameters params with
      | Throw m => Some (w, inr (FinError (OtherError m)))
      | Ok params => Some (emit [OProduceData params (pdo_label o) (pdo_protocol o) (pdo_appData o)] w,
                           inl (BdProduceData o params))
      end
  | BdSendData _, RpError e => Some (w, inr (FinError e))
  | BdProduceData o params, RpId id => Some (dataProducer_created o params id w)
  | BdProduceData _ _, RpError e => Some (w, inr (FinError e))
  | BdReceiveData id pid params o, RpChannel _ => Some (dataConsumer_created id pid params o w)
  | BdReceiveData _ _ _ _, RpError e => Some (w, inr (FinError e))
  | BdHandler _, RpDone => Some (w, inr (FinOk None))
  | BdHandler swallow, RpError e => Some (w, inr (if swallow then FinOk None else FinError e))
  | _, _ => None
  end.

Definition is_FinOk (f : finish) : bool := match f with FinOk _ => true | FinError _ => false end.

(** What is attached to the promise of a pushed task. *)
Definition settle_job (w : World) (jf : job * finish) : World :=
  let '(j, f) := jf in
  match j with
  | JProduce track o =>
      match f with FinOk _ => emit [OResult f] w | FinError e => schedule (MProduceFailed track o e) w end
  | JProducer a _ r => schedule (MAnswer a r (is_FinOk f)) w
  | JStopSending _ => w
  | JCreateConsumers => if is_FinOk f then schedule MThenCreate w else w
  | JBatch k => if is_FinOk f then schedule (MThenBatch k) w else w
  | JProduceData _ | JConsumeData _ _ _ _ | JRestartIce _ | JUpdateIceServers _ => emit [OResult f] w
  end.

(** The running task waits on, or completes and leaves the queue. *)
Definition advance (j : job) (r : World * (body + finish)) : World :=
  let '(w, next) := r in
  match next with
  | inl b => set_w_running (Some b) w
  | inr f => settle_job (set_w_running None (set_w_queue (aq_complete (w_queue w)) w)) (j, f)
  end.

(** A detached body has no queue to report to. *)
Definition advance_detached (i : nat) (r : World * (body + finish)) : World :=
  let '(w, next) := r in
  match next with
  | inl b => set_w_detached (<[i := b]> (w_detached w)) w
  | inr _ => set_w_detached (delete i (w_detached w)) w
  end.

(** ** Microtasks *)

Definition run_microtask (m : microtask) (w : World) : World :=
  match m with
  | MCreate =>
      if tr_closed (w_transport w) then w
      else if tr_consumerCreationInProgress (w_transport w) then w else createPendingConsumers w
  | MBatch k =>
      if tr_closed (w_transport w) then w
      else if pd_inProgress (get_pending k (w_transport w)) then w else batchPendingConsumers k w
  | MThenCreate =>
      let w := on_transport (set_tr_consumerCreationInProgress false) w in
      match tr_pendingConsumerTasks (w_transport w) with [] => w | _ => createPendingConsumers w end
  | MThenBatch k =>
      let w := on_transport (set_inProgress k false) w in
      match pd_consumers (get_pending k (w_transport w)) with [] => w | _ => batchPendingConsumers k w end
  | MAnswer a r ok =>
      match w_producers w !! a with
      | None => w
      | Some p =>
          let '(h, p) := p_answered (w_tracks w) p r ok in
          set_w_tracks h (set_w_producers (<[a := p]> (w_producers w)) w)
      end
  | MProduceFailed track o e =>
      emit [OResult (FinError e)] (if pr_stopTracks o then set_w_tracks (try_stop track (w_tracks w)) w else w)
  end.

(** ** Closing the transport *)

(** [transportClosed] on an object of a map. *)
Definition close_producer (w : World) (a : nat) : World :=
  match w_producers w !! a with
  | None => w
  | Some p =>
      let '(h, p, es) := p_transportClosed (w_tracks w) p in
      emit (map (OObject a) es) (set_w_tracks h (set_w_producers (<[a := p]> (w_producers w)) w))
  end.
Definition close_consumer (w : World) (a : nat) : World :=
  match w_consumers w !! a with
  | None => w
  | Some c =>
      let '(h, c, es) := c_transportClosed (w_tracks w) c in
      emit (map (OObject a) es) (set_w_tracks h (set_w_consumers (<[a := c]> (w_consumers w)) w))
  end.
Definition close_dataProducer (w : World) (a : nat) : World :=
  match w_dataProducers w !! a with
  | None => w
  | Some d =>
      let '(d, es) := DataProducer.transportClosed d in
      emit (map (OData a) es) (set_w_dataProducers (<[a := d]> (w_dataProducers w)) w)
  end.
Definition close_dataConsumer (w : World) (a : nat) : World :=
  match w_dataConsumers w !! a with
  | None => w
  | Some d =>
      let '(d, es) := DataConsumer.transportClosed d in
      emit (map (OData a) es) (set_w_dataConsumers (<[a := d]> (w_dataConsumers w)) w)
  end.

(** [this._awaitQueue.stop()]: every pending task is rejected. *)
Definition stop_queue (w : World) : World :=
  let tasks := aq_tasks (w_queue w) in
  let w := set_w_queue (aq_stop (w_queue w)) w in
  let w := set_w_detached (w_detached w ++ match w_running w with Some b => [b] | None => [] end) (set_w_running None w) in
  foldl settle_job w (map (λ j, (j, FinError (OtherError "AwaitQueueStoppedError"))) tasks).

(** The loops over the four maps, each cleared after its loop. *)
Definition close_producers (w : World) : World :=
  on_transport (set_tr_producers []) (foldl close_producer w (tr_producers (w_transport w)).*2).
Definition close_consumers (w : World) : World :=
  on_transport (set_tr_consumers []) (foldl close_consumer w (tr_consumers (w_transport w)).*2).
Definition close_dataProducers (w : World) : World :=
  on_transport (set_tr_dataProducers []) (foldl close_dataProducer w (tr_dataProducers (w_transport w)).*2).
Definition close_dataConsumers (w : World) : World :=
  on_transport (set_tr_dataConsumers []) (foldl close_dataConsumer w (tr_dataConsumers (w_transport w)).*2).

Definition close (w : World) : World :=
  if tr_closed (w_transport w) then w
  else
    let w := stop_queue (on_transport (set_tr_closed true) w) in
    let w := on_transport (set_tr_connectionState "closed") (ask HClose w) in
    emit [OTransport (Observed "close")] (close_dataConsumers (close_dataProducers (close_consumers (close_producers w)))).

(** ** Runs *)

Inductive event :=
| EvProduce (ln : Listeners) (o : ProduceOptions)
| EvConsume (ln : Listeners) (o : ConsumeOptions)
| EvProduceData (ln : Listeners) (o : ProduceDataOptions)
| EvConsumeData (ln : Listeners) (o : ConsumeDataOptions)
| EvRestartIce (v : jsval)
| EvUpdateIceServers (v : jsval)
| EvClose
| EvProducer (a : nat) (call : pcall)
| EvConsumer (a : nat) (call : cop)
| EvDataProducer (a : nat) (e : devent)
| EvDataConsumer (a : nat) (e : devent)
| EvIceGatheringState (state : string)
| EvConnectionState (state : string)
| EvStart                              (** the queue starts its first task *)
| EvReply (r : reply)                  (** the running task gets the answer it awaits *)
| EvReplyDetached (i : nat) (r : reply) (** so does a detached body *)
| EvMicro (i : nat)                    (** a scheduled microtask runs *)
| EvTrack (t : nat) (f : bool)         (** the application enables or disables a track *).

Definition step (w : World) (e : event) : World :=
  match e with
  | EvProduce ln o => produce ln o w
  | EvConsume ln o => consume ln o w
  | EvProduceData ln o => produceData ln o w
  | EvConsumeData ln o => consumeData ln o w
  | EvRestartIce v => restartIce v w
  | EvUpdateIceServers v => updateIceServers v w
  | EvClose => close w
  | EvProducer a call => on_producer a call w
  | EvConsumer a call => on_consumer a call w
  | EvDataProducer a e => on_dataProducer a e w
  | EvDataConsumer a e => on_dataConsumer a e w
  | EvIceGatheringState s =>
      let '(t, es) := on_icegatheringstatechange (w_transport w) s in emit (map OTransport es) (set_w_transport t w)
  | EvConnectionState s =>
      let '(t, es) := on_connectionstatechange (w_transport w) s in emit (map OTransport es) (set_w_transport t w)
  | EvStart =>
      match w_running w, aq_tasks (w_queue w) with
      | None, j :: _ => advance j (start_job j w)
      | _, _ => w
      end
  | EvReply r =>
      match w_running w, aq_tasks (w_queue w) with
      | Some b, j :: _ => match resume_body b r w with Some res => advance j res | None => w end
      | _, _ => w
      end
  | EvReplyDetached i r =>
      match w_detached w !! i with
      | Some b => match resume_body b r w with Some res => advance_detached i res | None => w end
      | None => w
      end
  | EvMicro i =>
      match w_micro w !! i with
      | Some m => run_microtask m (set_w_micro (delete i (w_micro w)) w)
      | None => w
      end
  | EvTrack t b => set_w_tracks (alter (with_enabled b) t (w_tracks w)) w
  end.

Definition run (w : World) (es : list event) : World := foldl step w es.
End Run.
