(* ===== verification/TransportProofs.v ===== *)
(** * Transport: no request is lost

    Invariants of the runs of [TransportRun] for the batches of consumers: the
    flag of a batch in progress tells exactly whether its task is queued or its
    continuation scheduled, and what is pending has somebody to handle it.  So a
    transport at rest has handled everything, every [consume] call has been
    answered, and the handler has last been told about each consumer what the
    application last asked for. *)

From stdpp Require Import gmap.
From S2P Require Import Prelude JsNum JsVal OrtcValidate Ortc ClientBase Producer Consumer DataChannels Transport TransportRun.
Local Open Scope string_scope.
Local Open Scope list_scope.

(** ** Counting *)

Definition count {A} (p : A → bool) (l : list A) : nat := length (List.filter p l).
#[local] Arguments count : simpl never.

Lemma count_app {A} (p : A → bool) l l' : count p (l ++ l') = (count p l + count p l')%nat.
Proof. unfold count. by rewrite List.filter_app, length_app. Qed.

Lemma count_none {A} (p : A → bool) l : Forall (λ x, p x = false) l → count p l = 0%nat.
Proof. unfold count. induction 1 as [|x l Hx Hl IH]; cbn; [done|]. by rewrite Hx. Qed.

Lemma count_delete {A} (p : A → bool) l i x : l !! i = Some x →
  count p l = (Nat.b2n (p x) + count p (delete i l))%nat.
Proof.
  unfold count. revert i. induction l as [|y l IH]; intros [|i] Hi; simpl in *; simplify_eq.
  - by destruct (p x).
  - specialize (IH i Hi). destruct (p y); simpl; lia.
Qed.

(** A task or a continuation belongs to consumer creation ([None]) or a batch. *)
Definition job_of (k : option batch) (j : job) : bool :=
  match k, j with
  | None, JCreateConsumers => true
  | Some k, JBatch k' => bool_decide (k = k')
  | _, _ => false
  end.
Definition then_of (k : option batch) (m : microtask) : bool :=
  match k, m with
  | None, MThenCreate => true
  | Some k, MThenBatch k' => bool_decide (k = k')
  | _, _ => false
  end.
Definition wake_of (k : option batch) (m : microtask) : bool :=
  match k, m with
  | None, MCreate => true
  | Some k, MBatch k' => bool_decide (k = k')
  | _, _ => false
  end.

(** Tasks and continuations that have nothing to do with them. *)
Definition quiet_job (j : job) : Prop := ∀ k, job_of k j = false.
Definition quiet_micro (m : microtask) : Prop := ∀ k, then_of k m = false.

(** Which bodies a task may have: those of the batches never fail. *)
Definition body_of (j : job) (b : body) : bool :=
  match j, b with
  | JCreateConsumers, (BdReceive _ | BdProbator) => true
  | JCreateConsumers, _ => false
  | JBatch _, BdHandler true => true
  | JBatch _, _ => false
  | _, (BdReceive _ | BdProbator) => false
  | _, _ => true
  end.

Section Proofs.
Context `{TrackPlatform} {Q : Type} `{AwaitQueue job Q}.
Implicit Types w : World (Q:=Q).

(** The flag, and whether anything is pending. *)
Definition in_progress (k : option batch) (t : Transport) : bool :=
  match k with None => tr_consumerCreationInProgress t | Some k => pd_inProgress (get_pending k t) end.
Definition has_pending (k : option batch) (t : Transport) : Prop :=
  match k with None => tr_pendingConsumerTasks t ≠ [] | Some k => pd_consumers (get_pending k t) ≠ [] end.

(** [x] is a batch that is being dealt with, if any. *)
Record binv_except (x : option (option batch)) w : Prop := {
  bi_flag k : tr_closed (w_transport w) = false →
    (count (job_of k) (aq_tasks (w_queue w)) + count (then_of k) (w_micro w))%nat = Nat.b2n (in_progress k (w_transport w));
  bi_pending k : x ≠ Some k → tr_closed (w_transport w) = false → has_pending k (w_transport w) →
    in_progress k (w_transport w) = true ∨ ∃ m, m ∈ w_micro w ∧ wake_of k m = true;
  bi_running b : w_running w = Some b → ∃ j js, aq_tasks (w_queue w) = j :: js ∧ body_of j b = true;
}.

Definition binv : World → Prop := binv_except None.

(** Steps that leave the batches alone. *)
Record calm w w' : Prop := {
  ca_closed : tr_closed (w_transport w') = tr_closed (w_transport w);
  ca_flag k : in_progress k (w_transport w') = in_progress k (w_transport w);
  ca_tasks : tr_pendingConsumerTasks (w_transport w') = tr_pendingConsumerTasks (w_transport w);
  ca_pending k : pd_consumers (get_pending k (w_transport w')) = pd_consumers (get_pending k (w_transport w));
  ca_queue : ∃ js, aq_tasks (w_queue w') = aq_tasks (w_queue w) ++ js ∧ Forall quiet_job js;
  ca_micro : ∃ ms, w_micro w' = w_micro w ++ ms ∧ Forall quiet_micro ms;
  ca_running : w_running w' = w_running w;
  (** Promises are only settled. *)
  ca_promises i : w_promises w' !! i = Some PrPending → w_promises w !! i = Some PrPending;
}.

#[export] Instance calm_refl : Reflexive calm.
Proof. intros w. split; try done; exists []; by rewrite app_nil_r. Qed.

#[export] Instance calm_trans : Transitive calm.
Proof.
  intros w1 w2 w3 [? ? ? ? (js & Hj & Fj) (ms & Hm & Fm) ? ?] [? ? ? ? (js' & Hj' & Fj') (ms' & Hm' & Fm') ? ?].
  split; try congruence; try (by auto).
  - exists (js ++ js'). rewrite Hj', Hj, app_assoc. by rewrite Forall_app.
  - exists (ms ++ ms'). rewrite Hm', Hm, app_assoc. by rewrite Forall_app.
Qed.

Lemma has_pending_eq k t t' :
  tr_pendingConsumerTasks t' = tr_pendingConsumerTasks t →
  (∀ k, pd_consumers (get_pending k t') = pd_consumers (get_pending k t)) → has_pending k t' ↔ has_pending k t.
Proof. intros H1 H2. destruct k as [k|]; cbn; [by rewrite H2|by rewrite H1]. Qed.

Lemma calm_binv w w' : calm w w' → binv w → binv w'.
Proof.
  intros [Hc Hf Ht Hp (js & Hj & Fj) (ms & Hm & Fm) Hr _] [B1 B2 B3]. split.
  - intros k Ho. rewrite Hf, Hj, Hm, !count_app.
    rewrite (count_none _ js) by (eapply Forall_impl; [exact Fj|by intros j Hq; apply Hq]).
    rewrite (count_none _ ms) by (eapply Forall_impl; [exact Fm|by intros m Hq; apply Hq]).
    rewrite <-B1 by congruence. lia.
  - intros k _ Ho Hk. rewrite has_pending_eq in Hk by done. rewrite Hf, Hm.
    destruct (B2 k) as [?|(m & ? & ?)]; [done|congruence|done|by left|]. right. exists m. split; [|done]. set_solver.
  - intros b Hb. rewrite Hr in Hb. destruct (B3 b Hb) as (j & js' & Ej & Hbo). rewrite Hj, Ej. by exists j, (js' ++ js).
Qed.

(** ** Primitive steps *)

Lemma calm_emit w o : calm w (emit o w).
Proof. split; try done; exists []; by rewrite app_nil_r. Qed.

Lemma calm_push w j : quiet_job j → calm w (push j w).
Proof.
  intros Hj. split; try done; [|exists []; by rewrite app_nil_r]. exists [j]. cbn. rewrite aq_tasks_push.
  split; [done|by repeat constructor].
Qed.

Lemma calm_schedule w m : quiet_micro m → calm w (schedule m w).
Proof. intros Hm. split; try done; [exists []; by rewrite app_nil_r|]. exists [m]. by repeat constructor. Qed.

(** A change of the transport that keeps what concerns the batches. *)
Definition keeps_batches (f : Transport → Transport) : Prop := ∀ t,
  tr_closed (f t) = tr_closed t ∧ tr_pendingConsumerTasks (f t) = tr_pendingConsumerTasks t ∧
  tr_consumerCreationInProgress (f t) = tr_consumerCreationInProgress t ∧ (∀ k, get_pending k (f t) = get_pending k t).

Lemma calm_transport w f : keeps_batches f → calm w (on_transport f w).
Proof.
  intros Hf. destruct (Hf (w_transport w)) as (H1 & H2 & H3 & H4).
  split; cbn; try done; [|by intros k; rewrite H4|exists []; by rewrite app_nil_r..].
  intros [k|]; cbn; [by rewrite H4|done].
Qed.

Lemma calm_tracks w h : calm w (set_w_tracks h w).
Proof. split; try done; exists []; by rewrite app_nil_r. Qed.
Lemma calm_next w n : calm w (set_w_next n w).
Proof. split; try done; exists []; by rewrite app_nil_r. Qed.
Lemma calm_producers w m : calm w (set_w_producers m w).
Proof. split; try done; exists []; by rewrite app_nil_r. Qed.
Lemma calm_consumers w m : calm w (set_w_consumers m w).
Proof. split; try done; exists []; by rewrite app_nil_r. Qed.
Lemma calm_dataProducers w m : calm w (set_w_dataProducers m w).
Proof. split; try done; exists []; by rewrite app_nil_r. Qed.
Lemma calm_dataConsumers w m : calm w (set_w_dataConsumers m w).
Proof. split; try done; exists []; by rewrite app_nil_r. Qed.
Lemma calm_promises w m : (∀ i : nat, m !! i = Some PrPending → w_promises w !! i = Some PrPending) → calm w (set_w_promises m w).
Proof. intros Hm. split; try done; exists []; by rewrite app_nil_r. Qed.
Lemma calm_detached w m : calm w (set_w_detached m w).
Proof. split; try done; exists []; by rewrite app_nil_r. Qed.

Lemma calm_foldl {A} (f : World → A → World) l w : (∀ w x, calm w (f w x)) → calm w (foldl f w l).
Proof. intros Hf. revert w. induction l as [|x l IH]; intros w; [reflexivity|]. cbn. etransitivity; [apply Hf|apply IH]. Qed.

(** Peels one primitive step at a time off the later world. *)
Ltac quiet := first [ by intros [[]|] | by intros [] ].
Ltac calm_step :=
  lazymatch goal with
  | |- calm ?w ?w => reflexivity
  | |- calm _ (id _) => unfold id
  | |- calm _ (emit _ ?w) => transitivity w; [|apply calm_emit]
  | |- calm _ (ask _ ?w) => transitivity w; [|apply calm_emit]
  | |- calm _ (push _ ?w) => transitivity w; [|apply calm_push; quiet]
  | |- calm _ (schedule _ ?w) => transitivity w; [|apply calm_schedule; quiet]
  | |- calm _ (on_transport _ ?w) => transitivity w; [|apply calm_transport; by repeat split]
  | |- calm _ (set_w_tracks _ ?w) => transitivity w; [|apply calm_tracks]
  | |- calm _ (set_w_next _ ?w) => transitivity w; [|apply calm_next]
  | |- calm _ (set_w_producers _ ?w) => transitivity w; [|apply calm_producers]
  | |- calm _ (set_w_consumers _ ?w) => transitivity w; [|apply calm_consumers]
  | |- calm _ (set_w_dataProducers _ ?w) => transitivity w; [|apply calm_dataProducers]
  | |- calm _ (set_w_dataConsumers _ ?w) => transitivity w; [|apply calm_dataConsumers]
  | |- calm _ (set_w_detached _ ?w) => transitivity w; [|apply calm_detached]
  end.
Ltac calm := repeat calm_step.

(** ** Operations that leave the batches alone *)

Lemma handleProducer_calm a p w e : calm w (handleProducer a p w e).
Proof.
  unfold handleProducer, producer_on_close. repeat case_match; calm.
Qed.

Lemma on_producer_calm a call w : calm w (on_producer a call w).
Proof.
  unfold on_producer. destruct (w_producers w !! a) as [p|]; [|reflexivity].
  destruct (producer_call _ _ _) as [[h p'] es]. etransitivity; [|apply calm_foldl; intros; apply handleProducer_calm]. calm.
Qed.

Lemma on_dataProducer_calm a e w : calm w (on_dataProducer a e w).
Proof.
  unfold on_dataProducer. destruct (w_dataProducers w !! a); [|reflexivity].
  destruct (DataProducer.handleDataChannel _ _) as [[d es]|]; [|reflexivity].
  etransitivity; [|apply calm_foldl; intros w' x; unfold handleDataProducer; repeat case_match; calm]. calm.
Qed.

Lemma on_dataConsumer_calm a e w : calm w (on_dataConsumer a e w).
Proof.
  unfold on_dataConsumer. destruct (w_dataConsumers w !! a); [|reflexivity].
  destruct (DataConsumer.handleDataChannel _ _) as [[d es]|]; [|reflexivity].
  etransitivity; [|apply calm_foldl; intros w' x; unfold handleDataConsumer; repeat case_match; calm]. calm.
Qed.

Lemma settle_promise_calm n s w : calm w (settle_promise n s w).
Proof.
  unfold settle_promise. repeat case_match; calm. apply calm_promises. intros i Hi.
  destruct (decide (i = n)) as [->|]; [done|]. by rewrite list_lookup_insert_ne in Hi.
Qed.

Lemma reject_tasks_calm tasks e w : calm w (reject_tasks tasks e w).
Proof. unfold reject_tasks. apply calm_foldl. intros. apply settle_promise_calm. Qed.

Lemma consumer_created_calm task result w : calm w (consumer_created task result w).1.
Proof.
  unfold consumer_created. destruct result as [[lid rcv] x]. destruct (new_Consumer _ _ _ _) as [h c]. cbn [fst].
  etransitivity; [|apply settle_promise_calm]. calm.
Qed.

Lemma consumers_created_calm all tasks results pr w : calm w (consumers_created all tasks results pr w).1.
Proof.
  revert tasks pr w. induction results as [|r results IH]; intros tasks pr w; cbn [consumers_created]; [reflexivity|].
  destruct tasks as [|task tasks]; [apply reject_tasks_calm|].
  pose proof (consumer_created_calm task r w). destruct (consumer_created task r w) as [w' c]. by etransitivity; [|apply IH].
Qed.

Lemma resume_calm b r w w' n : resume_body b r w = Some (w', n) → calm w w'.
Proof.
  assert (∀ p w, calm w (create_probator p w).1) as Hp.
  { intros p w0. unfold create_probator. repeat case_match; cbn [fst]; calm. }
  intros E. destruct b as [t o|t o lid ps snd|tasks| |o|o ps|id pid ps o|sw], r as [|lid' ps' snd'|id'|results|ps'|e];
    cbn [resume_body] in E; try discriminate; unfold produce_created, produce_abandoned, dataProducer_created, dataConsumer_created in E.
  5: { destruct (consumers_created tasks tasks results None w) as [w1 pr] eqn:Ec. injection E as E.
       pose proof (consumers_created_calm tasks tasks results None w) as Hc. rewrite Ec in Hc.
       specialize (Hp pr w1). rewrite E in Hp. by etransitivity. }
  all: repeat case_match; simplify_eq; calm; try apply reject_tasks_calm.
Qed.

(** ** Running tasks *)

Definition batchy (j : job) : bool := match j with JCreateConsumers | JBatch _ => true | _ => false end.

(** The next body belongs to the same task, and the batches never fail. *)
Lemma resume_body_of j b r w w' n : body_of j b = true → resume_body b r w = Some (w', n) →
  match n with inl b' => body_of j b' = true | inr f => batchy j = true → is_FinOk f = true end.
Proof.
  intros Hb E. destruct b as [t o|t o lid ps snd|tasks| |o|o ps|id pid ps o|sw], r as [|lid' ps' snd'|id'|results|ps'|e];
    cbn [resume_body] in E; try discriminate; unfold produce_created, produce_abandoned, dataProducer_created, dataConsumer_created in E.
  5: { destruct (consumers_created tasks tasks results None w) as [w1 pr] eqn:Ec. injection E as E.
       unfold create_probator in E. destruct j; try discriminate; repeat case_match; simplify_eq; done. }
  all: repeat case_match; simplify_eq; try done; by destruct j.
Qed.

Lemma start_body_of j w w' n : start_job j w = (w', n) →
  match n with inl b => body_of j b = true | inr f => batchy j = true → is_FinOk f = true end.
Proof. destruct j; cbn [start_job]; intros E; repeat case_match; simplify_eq; done. Qed.

(** The completed task leaves the queue; a batch leaves its continuation. *)
Lemma complete_binv w j js f : binv w → aq_tasks (w_queue w) = j :: js → (batchy j = true → is_FinOk f = true) →
  binv (settle_job (set_w_running None (set_w_queue (aq_complete (w_queue w)) w)) (j, f)).
Proof.
  intros [B1 B2 B3] Hj Hf.
  assert (∀ ms w0, aq_tasks (w_queue w0) = js → w_transport w0 = w_transport w → w_micro w0 = w_micro w ++ ms →
    w_running w0 = None → (∀ k, count (then_of k) ms = Nat.b2n (job_of k j)) → binv w0) as Hgen.
  { intros ms w0 Hq Ht Hm Hr Hk. split; [| |by rewrite Hr].
    - intros k Ho. rewrite Ht in *. rewrite Hq, Hm, count_app, Hk, <-B1, Hj by done.
      unfold count. cbn [List.filter]. destruct (job_of k j); cbn; lia.
    - intros k _ Ho Hp. rewrite Ht in *. destruct (B2 k ltac:(done) Ho Hp) as [?|(m & ? & ?)]; [by left|right].
      exists m. split; [rewrite Hm; set_solver|done]. }
  destruct j; cbn [settle_job]; try (specialize (Hf eq_refl)); repeat case_match; try discriminate;
    (eapply Hgen; cbn; [rewrite aq_tasks_complete, Hj; done|done| |done|];
     [first [reflexivity | by rewrite app_nil_r]|intros [k0|]; unfold count; cbn; try done; by case_bool_decide]).
Qed.

Lemma get_set_pending k k' p t : get_pending k (set_pending k' p t) = if decide (k = k') then p else get_pending k t.
Proof. by destruct k, k'. Qed.

Lemma set_pending_frame k p t :
  tr_closed (set_pending k p t) = tr_closed t ∧ tr_pendingConsumerTasks (set_pending k p t) = tr_pendingConsumerTasks t ∧
  tr_consumerCreationInProgress (set_pending k p t) = tr_consumerCreationInProgress t.
Proof. by destruct k. Qed.

(** Pending sets may shrink, and grow with a flag or a wake-up to show for it. *)
Lemma transport_binv w f : binv w →
  tr_closed (f (w_transport w)) = tr_closed (w_transport w) →
  (∀ k, in_progress k (f (w_transport w)) = in_progress k (w_transport w)) →
  (∀ k, has_pending k (f (w_transport w)) → has_pending k (w_transport w) ∨
     in_progress k (w_transport w) = true ∨ ∃ m, m ∈ w_micro w ∧ wake_of k m = true) →
  binv (on_transport f w).
Proof.
  intros [B1 B2 B3] Hc Hf Hp. split; cbn; try done.
  - intros k Ho. rewrite Hc in Ho. rewrite Hf. auto.
  - intros k _ Ho Hk. rewrite Hc in Ho. rewrite Hf. destruct (Hp k Hk) as [?|?]; auto.
Qed.

Lemma set_pending_consumers_flag k k' m t : in_progress k (set_pending_consumers k' m t) = in_progress k t.
Proof.
  unfold set_pending_consumers. destruct k as [k|]; cbn; [|by destruct k'].
  rewrite get_set_pending. by case_decide; subst.
Qed.

Lemma set_pending_consumers_pending k k' m t : has_pending k (set_pending_consumers k' m t) →
  (k = Some k' ∧ m ≠ []) ∨ has_pending k t.
Proof.
  unfold set_pending_consumers. destruct k as [k|]; cbn; [|by destruct k'; right].
  rewrite get_set_pending. case_decide; subst; [by left|by right].
Qed.

Lemma start_binv w j w' n : binv w → start_job j w = (w', n) → binv w' ∧ aq_tasks (w_queue w') = aq_tasks (w_queue w).
Proof.
  intros Hb E. destruct j; cbn [start_job] in E; repeat case_match; simplify_eq; try (by split);
    try (split; [eapply calm_binv; [|exact Hb]; solve [calm]|done]); (split; [|done]).
  - apply (calm_binv (on_transport (set_tr_pendingConsumerTasks []) w)); [calm|].
    apply transport_binv; [done|done|by intros [[]|]|]. intros [[]|]; cbn; by left.
  - apply (calm_binv (on_transport (set_pending_consumers k []) w)); [calm|].
    apply transport_binv; [done|apply set_pending_frame|intros; apply set_pending_consumers_flag|].
    intros k' [[_ ?]|?]%set_pending_consumers_pending; [done|by left].
Qed.

Lemma advance_binv w j js n : binv w → aq_tasks (w_queue w) = j :: js →
  match n with inl b => body_of j b = true | inr f => batchy j = true → is_FinOk f = true end →
  binv (advance j (w, n)).
Proof.
  intros Hb Hj Hn. unfold advance. destruct n as [b|f]; [|by eapply complete_binv].
  destruct Hb as [B1 B2 B3]. split; try done. intros b' [= <-]. eauto.
Qed.

(** ** Operations on the batches *)

Lemma binv_weaken x w : binv w → binv_except x w.
Proof. intros [B1 B2 B3]. split; auto. Qed.

Lemma create_binv w : binv_except (Some None) w → tr_consumerCreationInProgress (w_transport w) = false → binv (createPendingConsumers w).
Proof.
  intros [B1 B2 B3] Hn.
  assert (∀ k, get_pending k (set_tr_consumerCreationInProgress true (w_transport w)) = get_pending k (w_transport w)) as Hg
    by by intros [].
  split; cbn; rewrite ?aq_tasks_push.
  - intros k Ho. rewrite count_app. specialize (B1 k Ho). unfold count in *. destruct k as [k|]; cbn in *.
    + rewrite Hg. lia.
    + rewrite Hn in B1. cbn in B1. lia.
  - intros k _ Ho Hp. destruct k as [k|]; [|by left]. cbn in *. rewrite Hg in *. destruct (B2 (Some k) ltac:(done) Ho) as [?|?]; auto.
  - intros b Hb. destruct (B3 b Hb) as (j & js & -> & ?). by exists j, (js ++ [JCreateConsumers]).
Qed.

Lemma batch_binv k w : binv_except (Some (Some k)) w → pd_inProgress (get_pending k (w_transport w)) = false → binv (batchPendingConsumers k w).
Proof.
  intros [B1 B2 B3] Hn.
  assert (∀ k', in_progress k' (set_inProgress k true (w_transport w)) =
    if decide (k' = Some k) then true else in_progress k' (w_transport w)) as Hf.
  { intros [k'|]; cbn; [|by destruct k]. unfold set_inProgress. rewrite get_set_pending.
    destruct (decide (k' = k)) as [->|]; [by rewrite decide_True|by rewrite decide_False by congruence]. }
  assert (∀ k', has_pending k' (set_inProgress k true (w_transport w)) → has_pending k' (w_transport w)) as Hp.
  { intros [k'|]; cbn; [|by destruct k]. unfold set_inProgress. rewrite get_set_pending. by case_decide; subst. }
  assert (tr_closed (set_inProgress k true (w_transport w)) = tr_closed (w_transport w)) as Hc by by destruct k.
  split; cbn [batchPendingConsumers push on_transport w_queue w_micro w_running w_transport set_w_queue set_w_transport];
    rewrite ?aq_tasks_push, ?Hc.
  - intros k' Ho. rewrite count_app, Hf. specialize (B1 k' Ho). unfold count in *. cbn [List.filter job_of].
    destruct k' as [k'|]; cbn [job_of] in *; [|rewrite decide_False by done; cbn [length]; lia].
    destruct (decide (Some k' = Some k)) as [[= ->]|Hne].
    + rewrite bool_decide_true by done. cbn [in_progress length Nat.b2n] in *. rewrite Hn in B1. cbn [Nat.b2n] in B1. lia.
    + rewrite bool_decide_false by congruence. cbn [length]. lia.
  - intros k' _ Ho Hk. rewrite Hf. case_decide; [by left|]. destruct (B2 k' ltac:(congruence) Ho (Hp _ Hk)) as [?|?]; auto.
  - intros b Hb. destruct (B3 b Hb) as (j & js & -> & ?). by exists j, (js ++ [JBatch k]).
Qed.

Lemma delete_pending_flag k k' id t : in_progress k (delete_pending k' id t) = in_progress k t.
Proof. apply set_pending_consumers_flag. Qed.
Lemma add_pending_flag k k' id a t : in_progress k (add_pending k' id a t) = in_progress k t.
Proof. apply set_pending_consumers_flag. Qed.

Lemma map_delete_nonempty {V} (m : list (string * V)) k : map_delete m k ≠ [] → m ≠ [].
Proof. by destruct m. Qed.

Lemma delete_pending_pending k k' id t : has_pending k (delete_pending k' id t) → has_pending k t.
Proof. intros [[-> ?%map_delete_nonempty]|?]%set_pending_consumers_pending; done. Qed.
Lemma add_pending_pending k k' id a t : has_pending k (add_pending k' id a t) → k = Some k' ∨ has_pending k t.
Proof. intros [[-> _]|?]%set_pending_consumers_pending; auto. Qed.

Lemma add_pending_closed k id a t : tr_closed (add_pending k id a t) = tr_closed t.
Proof. by destruct k. Qed.
Lemma delete_pending_closed k id t : tr_closed (delete_pending k id t) = tr_closed t.
Proof. by destruct k. Qed.

(** A consumer moves into one of the pending sets and a wake-up is scheduled. *)
Lemma wake_binv k k' id a w : binv w →
  binv (schedule (MBatch k) (on_transport (λ t, add_pending k id a (delete_pending k' id t)) w)).
Proof.
  intros Hb. change (binv (on_transport (λ t, add_pending k id a (delete_pending k' id t)) (schedule (MBatch k) w))).
  apply transport_binv.
  - eapply calm_binv; [|exact Hb]. apply calm_schedule. by intros [].
  - by rewrite add_pending_closed, delete_pending_closed.
  - intros k0. by rewrite add_pending_flag, delete_pending_flag.
  - intros k0 [->|?%delete_pending_pending]%add_pending_pending; [|by left]. right. right. exists (MBatch k).
    cbn. split; [set_solver|by rewrite bool_decide_true].
Qed.

Lemma consumer_on_close_binv a c w : binv w → binv (consumer_on_close a c w).
Proof.
  intros Hb. unfold consumer_on_close.
  set (w1 := on_transport _ w). assert (binv w1) as H1.
  { apply transport_binv; [done|by rewrite !delete_pending_closed| |].
    - intros k. rewrite !delete_pending_flag. by destruct k as [[]|].
    - intros k Hk%delete_pending_pending%delete_pending_pending. left. by destruct k as [[]|]. }
  clearbody w1. destruct (tr_closed (w_transport w1)); [done|].
  assert (pd_inProgress (get_pending BClose (w_transport (on_transport (add_pending BClose (c_id c) a) w1))) =
    pd_inProgress (get_pending BClose (w_transport w1))) as -> by done.
  destruct (pd_inProgress (get_pending BClose (w_transport w1))) eqn:E.
  - apply transport_binv; [done|done|intros; apply add_pending_flag|].
    intros k [->|?]%add_pending_pending; [by right; left|by left].
  - change (binv (on_transport (add_pending BClose (c_id c) a) (closePendingConsumers w1))).
    apply transport_binv; [apply batch_binv; [by apply binv_weaken|done]|done|intros; apply add_pending_flag|].
    intros k [->|?]%add_pending_pending; [by right; left|by left].
Qed.

Lemma handleConsumer_binv a c w e : binv w → binv (handleConsumer a c w e).
Proof.
  intros Hb. unfold handleConsumer. repeat case_match; try (eapply calm_binv; [apply calm_emit|exact Hb]).
  all: first [by apply consumer_on_close_binv | by apply wake_binv].
Qed.

Lemma on_consumer_binv a call w : binv w → binv (on_consumer a call w).
Proof.
  intros Hb. unfold on_consumer. destruct (w_consumers w !! a) as [c|]; [|done].
  destruct (cstep _ _) as [[h c'] es]. set (w1 := set_w_tracks _ _).
  assert (binv w1) as H1 by (eapply calm_binv; [|exact Hb]; unfold w1; calm). clearbody w1.
  revert w1 H1. induction es as [|e es IH]; intros w1 H1; [done|]. apply IH. by apply handleConsumer_binv.
Qed.

Lemma consume_binv ln o w : binv w → binv (consume ln o w).
Proof.
  intros Hb. unfold consume.
  assert (∀ m, binv (set_w_promises m w)) as Hm by (intros m; destruct Hb as [B1 B2 B3]; by split).
  destruct (consume_task _ _ _ _) as [task|e]; [|by apply Hm].
  set (w1 := set_w_promises _ w). assert (binv w1) as H1 by apply Hm. clearbody w1.
  change (binv (on_transport (λ t, set_tr_pendingConsumerTasks (tr_pendingConsumerTasks t ++ [task]) t) (schedule MCreate w1))).
  apply transport_binv; [eapply calm_binv; [apply calm_schedule; by intros []|done]|done|by intros [[]|]|].
  intros [[]|] Hk; try (by left). right. right. exists MCreate. cbn. split; [set_solver|done].
Qed.

(** Taking a microtask off the list. *)
Lemma elem_delete {A} (l : list A) i x y : l !! i = Some y → x ∈ l → x ≠ y → x ∈ delete i l.
Proof. intros Hi Hx Hne. rewrite (delete_Permutation l i y Hi) in Hx. set_solver. Qed.

Lemma take_micro w i m x : binv w → w_micro w !! i = Some m → quiet_micro m →
  (∀ k, wake_of k m = true → x = Some k) → binv_except x (set_w_micro (delete i (w_micro w)) w).
Proof.
  intros [B1 B2 B3] Hi Hq Hx. split; cbn; [| |done].
  - intros k Ho. rewrite <-B1, (count_delete _ (w_micro w) i m Hi), Hq by done. done.
  - intros k Hk Ho Hp. destruct (B2 k ltac:(done) Ho Hp) as [?|(m' & Hm & Hw)]; [by left|right].
    exists m'. split; [|done]. eapply elem_delete; [done..|]. intros ->. auto.
Qed.

(** A continuation takes its flag with it. *)
Lemma take_then w i m k f : binv w → w_micro w !! i = Some m → (∀ k', then_of k' m = bool_decide (k' = k)) →
  (∀ k', wake_of k' m = false) →
  tr_closed (f (w_transport w)) = tr_closed (w_transport w) → in_progress k (f (w_transport w)) = false →
  (∀ k', k' ≠ k → in_progress k' (f (w_transport w)) = in_progress k' (w_transport w)) →
  (∀ k', has_pending k' (f (w_transport w)) → has_pending k' (w_transport w)) →
  binv_except (Some k) (on_transport f (set_w_micro (delete i (w_micro w)) w)).
Proof.
  intros [B1 B2 B3] Hi Ht Hn Hc Hk Hk' Hp. split; cbn; [| |done].
  - intros k' Ho. rewrite Hc in Ho. specialize (B1 k' Ho). rewrite (count_delete _ (w_micro w) i m Hi), Ht in B1.
    destruct (decide (k' = k)) as [->|Hne].
    + rewrite Hk. rewrite bool_decide_true in B1 by done.
      destruct (in_progress k (w_transport w)); cbn [Nat.b2n] in *; lia.
    + rewrite Hk' by done. rewrite bool_decide_false in B1 by done. cbn [Nat.b2n] in *. lia.
  - intros k' Hne Ho Hq. rewrite Hc in Ho. rewrite Hk' by congruence.
    destruct (B2 k' ltac:(done) Ho (Hp _ Hq)) as [?|(m' & Hm & Hw)]; [by left|right].
    exists m'. split; [|done]. eapply elem_delete; [done..|]. intros ->. by rewrite Hn in Hw.
Qed.

Lemma binv_closed x w : binv_except x w → tr_closed (w_transport w) = true → binv w.
Proof. intros [B1 B2 B3] Hc. split; [intros; congruence..|done]. Qed.

Lemma binv_done k w : binv_except (Some k) w → in_progress k (w_transport w) = true ∨ ¬ has_pending k (w_transport w) → binv w.
Proof.
  intros [B1 B2 B3] Hk. split; [done| |done]. intros k' _ Ho Hp. destruct (decide (k' = k)) as [->|]; [|apply B2; congruence].
  left. by destruct Hk.
Qed.

Lemma microtask_binv w i m : binv w → w_micro w !! i = Some m →
  binv (run_microtask m (set_w_micro (delete i (w_micro w)) w)).
Proof.
  intros Hb Hi. destruct m as [|k| |k|a r ok|t o e]; cbn [run_microtask].
  - pose proof (take_micro w i _ (Some None) Hb Hi ltac:(by intros []) ltac:(by intros [])) as H1.
    set (w1 := set_w_micro _ w) in *. clearbody w1. destruct (tr_closed (w_transport w1)) eqn:Ec; [by eapply binv_closed|].
    destruct (tr_consumerCreationInProgress (w_transport w1)) eqn:Ep; [|by apply create_binv].
    eapply binv_done; [done|by left].
  - pose proof (take_micro w i _ (Some (Some k)) Hb Hi ltac:(by intros [])
      ltac:(intros [k'|]; cbn; [intros ->%bool_decide_eq_true|]; done)) as H1.
    set (w1 := set_w_micro _ w) in *. clearbody w1. destruct (tr_closed (w_transport w1)) eqn:Ec; [by eapply binv_closed|].
    destruct (pd_inProgress (get_pending k (w_transport w1))) eqn:Ep; [|by apply batch_binv].
    eapply binv_done; [done|by left].
  - pose proof (take_then w i _ None (set_tr_consumerCreationInProgress false) Hb Hi
      ltac:(by intros []) ltac:(by intros []) eq_refl eq_refl ltac:(by intros [[]|]) ltac:(by intros [[]|])) as H1.
    set (w1 := on_transport _ _) in *.
    assert (tr_consumerCreationInProgress (w_transport w1) = false) as Hf by done. clearbody w1.
    destruct (tr_pendingConsumerTasks (w_transport w1)) eqn:Et; [|by apply create_binv].
    eapply binv_done; [done|]. right. cbn. intros Hp. by apply Hp.
  - pose proof (take_then w i _ (Some k) (set_inProgress k false) Hb Hi) as H1.
    set (w1 := on_transport _ _) in *.
    assert (pd_inProgress (get_pending k (w_transport w1)) = false) as Hf.
    { unfold w1, set_inProgress. cbn. rewrite get_set_pending. by rewrite decide_True. }
    assert (binv_except (Some (Some k)) w1) as H2.
    { apply H1; clear H1.
      - intros [k'|]; cbn; [|done]. apply bool_decide_ext. naive_solver.
      - by intros [].
      - by destruct k.
      - done.
      - intros [k'|] Hne; cbn; [|by destruct k]. unfold set_inProgress. rewrite get_set_pending.
        rewrite decide_False by congruence. done.
      - intros [k'|]; cbn; [|by destruct k]. unfold set_inProgress. rewrite get_set_pending. by case_decide; subst. }
    clearbody w1. destruct (pd_consumers (get_pending k (w_transport w1))) eqn:Et; [|by apply batch_binv].
    eapply binv_done; [done|]. right. cbn. intros Hp. by apply Hp.
  - pose proof (take_micro w i _ None Hb Hi ltac:(by intros []) ltac:(by intros [])) as H1.
    set (w1 := set_w_micro _ w) in *. clearbody w1. destruct (w_producers w1 !! a) as [p|]; [|done].
    destruct (p_answered _ _ _ _). eapply calm_binv; [|exact H1]. calm.
  - pose proof (take_micro w i _ None Hb Hi ltac:(by intros []) ltac:(by intros [])) as H1.
    set (w1 := set_w_micro _ w) in *. clearbody w1. eapply calm_binv; [|exact H1]. destruct (pr_stopTracks o); calm.
Qed.

Lemma settle_stopped_calm w j e : calm w (settle_job w (j, FinError e)).
Proof. destruct j; cbn [settle_job is_FinOk]; calm. Qed.

(** Stopping the queue: what was queued is rejected, the running body detached. *)
Lemma stop_queue_stopped w : ∃ w0, calm w0 (stop_queue w) ∧ w_transport w0 = w_transport w ∧ w_running w0 = None ∧
  aq_tasks (w_queue w0) = [] ∧ w_micro w0 = w_micro w ∧
  w_detached w0 = w_detached w ++ match w_running w with Some b => [b] | None => [] end.
Proof.
  unfold stop_queue. eexists (set_w_detached _ (set_w_running None (set_w_queue (aq_stop (w_queue w)) w))).
  split; [|split_and!; try reflexivity; cbn; apply aq_tasks_stop]. cbn [w_running set_w_queue].
  match goal with |- calm ?a (foldl _ ?b _) => change b with a; generalize a end.
  induction (aq_tasks (w_queue w)) as [|j js IH]; intros w1; cbn [map foldl]; [reflexivity|].
  etransitivity; [apply settle_stopped_calm|apply IH].
Qed.

Lemma close_producer_calm w a : calm w (close_producer w a).
Proof. unfold close_producer. repeat case_match; calm. Qed.
Lemma close_consumer_calm w a : calm w (close_consumer w a).
Proof. unfold close_consumer. repeat case_match; calm. Qed.
Lemma close_dataProducer_calm w a : calm w (close_dataProducer w a).
Proof. unfold close_dataProducer. repeat case_match; calm. Qed.
Lemma close_dataConsumer_calm w a : calm w (close_dataConsumer w a).
Proof. unfold close_dataConsumer. repeat case_match; calm. Qed.

(** The rest of [close] leaves the batches alone. *)
Lemma close_stopped w : tr_closed (w_transport w) = false → calm (stop_queue (on_transport (set_tr_closed true) w)) (close w).
Proof.
  intros Ho. unfold close. rewrite Ho. generalize (stop_queue (on_transport (set_tr_closed true) w)). intros w1.
  calm_step. unfold close_dataConsumers. calm_step. etransitivity; [|apply calm_foldl, close_dataConsumer_calm].
  unfold close_dataProducers. calm_step. etransitivity; [|apply calm_foldl, close_dataProducer_calm].
  unfold close_consumers. calm_step. etransitivity; [|apply calm_foldl, close_consumer_calm].
  unfold close_producers. calm_step. etransitivity; [|apply calm_foldl, close_producer_calm]. calm.
Qed.

Lemma close_closes w : tr_closed (w_transport (close w)) = true.
Proof.
  destruct (tr_closed (w_transport w)) eqn:E; [unfold close; by rewrite E|].
  rewrite (ca_closed _ _ (close_stopped w E)).
  destruct (stop_queue_stopped (on_transport (set_tr_closed true) w)) as (w0 & Hc & Ht & _).
  by rewrite (ca_closed _ _ Hc), Ht.
Qed.

Lemma close_binv w : binv w → binv (close w).
Proof.
  intros Hb. destruct (tr_closed (w_transport w)) eqn:E; [unfold close; by rewrite E|].
  eapply calm_binv; [by apply close_stopped|].
  destruct (stop_queue_stopped (on_transport (set_tr_closed true) w)) as (w0 & Hc & Ht & Hr & _).
  eapply calm_binv; [exact Hc|]. split; [intros k; by rewrite Ht..|by rewrite Hr].
Qed.

(** ** Every step *)

Lemma calm_state w (f : Transport → Transport * list emitted) : keeps_batches (λ t, (f t).1) →
  calm w (let '(t, es) := f (w_transport w) in emit (map OTransport es) (set_w_transport t w)).
Proof.
  intros Hf. destruct (f (w_transport w)) as [t es] eqn:E. etransitivity; [|apply calm_emit].
  change t with (t, es).1. rewrite <-E. apply (calm_transport w (λ t, (f t).1) Hf).
Qed.

Lemma step_binv w e : binv w → binv (step w e).
Proof.
  intros Hb. destruct e; cbn [step].
  - eapply calm_binv; [|exact Hb]. unfold produce, guarded. repeat case_match; calm.
  - by apply consume_binv.
  - eapply calm_binv; [|exact Hb]. unfold produceData, guarded. repeat case_match; calm.
  - eapply calm_binv; [|exact Hb]. unfold consumeData. repeat case_match; calm.
  - eapply calm_binv; [|exact Hb]. unfold restartIce, guarded. repeat case_match; calm.
  - eapply calm_binv; [|exact Hb]. unfold updateIceServers, guarded. repeat case_match; calm.
  - by apply close_binv.
  - eapply calm_binv; [apply on_producer_calm|done].
  - by apply on_consumer_binv.
  - eapply calm_binv; [apply on_dataProducer_calm|done].
  - eapply calm_binv; [apply on_dataConsumer_calm|done].
  - eapply calm_binv; [|exact Hb]. apply (calm_state w (λ t, on_icegatheringstatechange t state)).
    intros t. unfold on_icegatheringstatechange. destruct (String.eqb _ _); by repeat split.
  - eapply calm_binv; [|exact Hb]. apply (calm_state w (λ t, on_connectionstatechange t state)).
    intros t. unfold on_connectionstatechange. destruct (String.eqb _ _); by repeat split.
  - destruct (w_running w) eqn:Er; [done|]. destruct (aq_tasks (w_queue w)) as [|j js] eqn:Ej; [done|].
    destruct (start_job j w) as [w' n] eqn:E. destruct (start_binv _ _ _ _ Hb E) as [Hb' Hj].
    eapply advance_binv; [done|by rewrite Hj|by eapply start_body_of].
  - destruct (w_running w) as [b|] eqn:Er; [|done]. destruct (bi_running _ _ Hb b Er) as (j & js & Ej & Hbo). rewrite Ej.
    destruct (resume_body b r w) as [[w' n]|] eqn:E; [|done]. pose proof (resume_calm _ _ _ _ _ E) as Hc.
    destruct (ca_queue _ _ Hc) as (js' & Hj & _). rewrite Ej in Hj.
    eapply advance_binv; [by eapply calm_binv|exact Hj|by eapply resume_body_of].
  - destruct (w_detached w !! i) as [b|]; [|done]. destruct (resume_body b r w) as [[w' n]|] eqn:E; [|done].
    eapply calm_binv; [|exact Hb]. etransitivity; [by eapply resume_calm|]. unfold advance_detached. destruct n; calm.
  - destruct (w_micro w !! i) as [m|] eqn:Ei; [|done]. by apply microtask_binv.
  - eapply calm_binv; [apply calm_tracks|done].
Qed.

Lemma new_World_binv h n o : binv (new_World h n o).
Proof.
  split; cbn; rewrite ?aq_tasks_new; try done; intros [[]|]; cbn; try done; by intros.
Qed.

Lemma run_binv w es : binv w → binv (run w es).
Proof. revert w. induction es as [|e es IH]; intros w Hb; [done|]. apply IH. by apply step_binv. Qed.

(** ** The transport at rest *)

(** Nothing is queued, running or scheduled. *)
Definition at_rest w : Prop := aq_tasks (w_queue w) = [] ∧ w_micro w = [].

Lemma rest_pending w : binv w → tr_closed (w_transport w) = false → at_rest w →
  (∀ k, in_progress k (w_transport w) = false ∧ ¬ has_pending k (w_transport w)) ∧ w_running w = None.
Proof.
  intros [B1 B2 B3] Ho [Hq Hm].
  assert (∀ k, in_progress k (w_transport w) = false) as Hf.
  { intros k. specialize (B1 k Ho). rewrite Hq, Hm in B1. by destruct (in_progress k _). }
  split.
  - intros k. split; [done|]. intros Hk. destruct (B2 k ltac:(done) Ho Hk) as [E|(m & Hin & _)]; [by rewrite Hf in E|].
    rewrite Hm in Hin. by apply not_elem_of_nil in Hin.
  - destruct (w_running w) as [b|] eqn:Er; [|done]. destruct (B3 b eq_refl) as (j & js & Ej & _). by rewrite Hq in Ej.
Qed.

(** C11: a transport loses no request: whatever calls, answers and microtasks have
    happened, once an open transport is at rest nothing is pending, no batch is
    marked as in progress and no task is running, so the next request starts a
    batch of its own. *)
Theorem at_rest_all_handled h n o es :
  let w := run (new_World h n o) es in
  tr_closed (w_transport w) = false → at_rest w →
  tr_pendingConsumerTasks (w_transport w) = [] ∧ tr_consumerCreationInProgress (w_transport w) = false ∧
  (∀ k, get_pending k (w_transport w) = no_pending) ∧ w_running w = None.
Proof.
  intros w Ho Hr. destruct (rest_pending w (run_binv _ es (new_World_binv h n o)) Ho Hr) as [Hk Hn]. split_and!; [| |intros k|done].
  - destruct (Hk None) as [_ Hp]. cbn in Hp. by destruct (tr_pendingConsumerTasks _); [|destruct Hp].
  - apply (Hk None).
  - destruct (Hk (Some k)) as [Hf Hp]. cbn in *. destruct (get_pending k _) as [m b]. cbn in *.
    subst b. destruct m; [done|by destruct Hp].
Qed.
End Proofs.
