(* ===== verification/TransportAnswers.v ===== *)
(** * Transport: every consume call is answered

    The promises that [consume] returns: while the transport is open a pending
    promise belongs to a task that is waiting or being created, so at rest every
    promise is settled; closing the transport abandons the tasks that have not
    been started, whose promises then stay pending for ever. *)

From stdpp Require Import gmap.
From S2P Require Import Prelude JsNum JsVal OrtcValidate Ortc ClientBase Producer Consumer DataChannels Transport TransportRun TransportProofs.
Local Open Scope string_scope.
Local Open Scope list_scope.

Section Answers.
Context `{TrackPlatform} {Q : Type} `{AwaitQueue job Q}.
Implicit Types w : World (Q:=Q).

(** ** Whose promise is pending *)

Definition awaited (n : nat) (tasks : list ConsumerCreationTask) : Prop := ∃ task, task ∈ tasks ∧ ct_promise task = n.

Definition owned w : Prop := ∀ n, tr_closed (w_transport w) = false → w_promises w !! n = Some PrPending →
  awaited n (tr_pendingConsumerTasks (w_transport w)) ∨ ∃ tasks, w_running w = Some (BdReceive tasks) ∧ awaited n tasks.

(** Steps that at most settle promises. *)
Record still w w' : Prop := {
  st_closed : tr_closed (w_transport w') = tr_closed (w_transport w);
  st_tasks : tr_pendingConsumerTasks (w_transport w') = tr_pendingConsumerTasks (w_transport w);
  st_running : w_running w' = w_running w;
  st_promises i : w_promises w' !! i = Some PrPending → w_promises w !! i = Some PrPending;
}.

#[export] Instance still_refl : Reflexive still.
Proof. by split. Qed.
#[export] Instance still_trans : Transitive still.
Proof. intros w1 w2 w3 [] []. split; [congruence..|auto]. Qed.

Lemma calm_still w w' : calm w w' → still w w'.
Proof. intros []. by split. Qed.

Lemma still_owned w w' : still w w' → owned w → owned w'.
Proof. intros [Hc Ht Hr Hp] Ho n Hn Hi. rewrite Ht, Hr. apply Ho; [congruence|auto]. Qed.

Lemma still_transport w f : (∀ t, tr_closed (f t) = tr_closed t ∧ tr_pendingConsumerTasks (f t) = tr_pendingConsumerTasks t) →
  still w (on_transport f w).
Proof. intros Hf. destruct (Hf (w_transport w)). by split. Qed.

Lemma still_push w j : still w (push j w).
Proof. by split. Qed.
Lemma still_schedule w m : still w (schedule m w).
Proof. by split. Qed.

Lemma batch_still k w : still w (batchPendingConsumers k w).
Proof. etransitivity; [|apply still_push]. apply still_transport. by destruct k. Qed.
Lemma create_still w : still w (createPendingConsumers w).
Proof. etransitivity; [|apply still_push]. by apply still_transport. Qed.

Lemma handleConsumer_still a c w e : still w (handleConsumer a c w e).
Proof.
  assert (∀ w, still w (consumer_on_close a c w)) as Hc.
  { intros w0. unfold consumer_on_close. cbv zeta. set (w1 := on_transport _ w0).
    assert (still w0 w1) as H1 by by apply still_transport. clearbody w1.
    destruct (tr_closed (w_transport w1)); [done|].
    assert (still w0 (on_transport (add_pending BClose (c_id c) a) w1)) as H2
      by (etransitivity; [exact H1|by apply still_transport]).
    destruct (pd_inProgress _); [done|]. etransitivity; [exact H2|apply batch_still]. }
  unfold handleConsumer. repeat case_match; try (apply calm_still, calm_emit); try apply Hc;
    (etransitivity; [|apply still_schedule]; by apply still_transport).
Qed.

Lemma on_consumer_still a call w : still w (on_consumer a call w).
Proof.
  unfold on_consumer. destruct (w_consumers w !! a) as [c|]; [|reflexivity]. destruct (cstep _ _) as [[h c'] es].
  set (w1 := set_w_tracks _ _). assert (still w w1) as H1 by done. clearbody w1.
  revert w1 H1. induction es as [|e es IH]; intros w1 H1; [done|]. cbn [foldl]. apply IH.
  etransitivity; [exact H1|apply handleConsumer_still].
Qed.

Lemma microtask_still m w : still w (run_microtask m w).
Proof.
  destruct m as [|k| |k|a r ok|t o e]; cbn [run_microtask].
  - repeat case_match; [reflexivity..|apply create_still].
  - repeat case_match; [reflexivity..|apply batch_still].
  - assert (still w (on_transport (set_tr_consumerCreationInProgress false) w)) as H1 by by apply still_transport.
    case_match; [done|]. etransitivity; [exact H1|apply create_still].
  - assert (still w (on_transport (set_inProgress k false) w)) as H1 by (apply still_transport; by destruct k).
    case_match; [done|]. etransitivity; [exact H1|apply batch_still].
  - repeat case_match; by split.
  - destruct (pr_stopTracks o); by split.
Qed.

Lemma settle_job_still w jf : still w (settle_job w jf).
Proof. destruct jf as [[] []]; by split. Qed.

(** ** Settling a batch *)

Lemma settle_promise_done n s w : s ≠ PrPending → w_promises (settle_promise n s w) !! n ≠ Some PrPending.
Proof.
  intros Hs. unfold settle_promise. destruct (w_promises w !! n) as [p|] eqn:E; [|by rewrite E].
  destruct p; try (rewrite E; done). cbn. rewrite list_lookup_insert_eq; [congruence|]. by eapply lookup_lt_Some.
Qed.

Lemma reject_tasks_done tasks e w n : awaited n tasks → w_promises (reject_tasks tasks e w) !! n ≠ Some PrPending.
Proof.
  unfold reject_tasks. revert w. induction tasks as [|t tasks IH]; intros w (task & Hin & <-); [by apply not_elem_of_nil in Hin|].
  cbn [foldl]. apply elem_of_cons in Hin as [->|Hin]; [|apply IH; by exists task].
  intros Hp. apply (settle_promise_done (ct_promise t) (PrRejected e) w); [done|].
  revert Hp. apply ca_promises. apply (reject_tasks_calm tasks e).
Qed.

Lemma consumer_created_done task r w : w_promises (consumer_created task r w).1 !! ct_promise task ≠ Some PrPending.
Proof.
  unfold consumer_created. destruct r as [[lid rcv] x]. destruct (new_Consumer _ _ _ _). by apply settle_promise_done.
Qed.

Lemma consumers_created_done all tasks results pr w n : (length tasks <= length results)%nat → awaited n tasks →
  w_promises (consumers_created all tasks results pr w).1 !! n ≠ Some PrPending.
Proof.
  revert results pr w. induction tasks as [|t tasks IH]; intros results pr w Hl (task & Hin & <-); [by apply not_elem_of_nil in Hin|].
  destruct results as [|r results]; cbn in Hl; [lia|]. cbn [consumers_created].
  pose proof (consumer_created_done t r w) as Hd. destruct (consumer_created t r w) as [w1 c]. cbn [fst] in Hd.
  apply elem_of_cons in Hin as [->|Hin]; [|apply IH; [lia|by exists task]].
  intros Hp. apply Hd. revert Hp. apply ca_promises, consumers_created_calm.
Qed.

(** ** Every step *)

(** The handler answers a batch with a result for every consumer of it. *)
Definition full_answer w (e : event) : Prop :=
  match e, w_running w with
  | EvReply (RpReceived results), Some (BdReceive tasks) => (length tasks <= length results)%nat
  | _, _ => True
  end.

(** [always p w es]: [p] holds before every step of the run. *)
Fixpoint always (p : World → event → Prop) w (es : list event) : Prop :=
  match es with [] => True | e :: es => p w e ∧ always p (step w e) es end.

(** Every pending promise belongs to a task that has not been started. *)
Definition queued w : Prop := ∀ n, tr_closed (w_transport w) = false → w_promises w !! n = Some PrPending →
  awaited n (tr_pendingConsumerTasks (w_transport w)).

Definition is_receive (n : body + finish) : bool := match n with inl (BdReceive _) => true | _ => false end.

Lemma advance_owned w j n : queued w → is_receive n = false → owned (advance j (w, n)).
Proof.
  intros Hq Hn. unfold advance. destruct n as [b|f]; [|eapply still_owned; [apply settle_job_still|]];
    intros i Hc Hi; left; by apply Hq.
Qed.

Lemma resume_not_receive b r w w' n : resume_body b r w = Some (w', n) → is_receive n = false.
Proof.
  intros E. destruct b as [t o|t o lid ps snd|tasks| |o|o ps|id pid ps o|sw], r as [|lid' ps' snd'|id'|results|ps'|e];
    cbn [resume_body] in E; try discriminate; unfold produce_created, produce_abandoned, dataProducer_created,
    dataConsumer_created, create_probator in E; repeat case_match; simplify_eq; done.
Qed.

Lemma resume_queued b r w w' n : owned w → w_running w = Some b →
  (∀ tasks results, b = BdReceive tasks → r = RpReceived results → (length tasks <= length results)%nat) →
  resume_body b r w = Some (w', n) → queued w'.
Proof.
  intros Ho Hb Hlen E i Hc Hi. pose proof (resume_calm _ _ _ _ _ E) as Hcalm.
  pose proof (ca_promises _ _ Hcalm i Hi) as Hi0. rewrite (ca_tasks _ _ Hcalm). rewrite (ca_closed _ _ Hcalm) in Hc.
  destruct (Ho i Hc Hi0) as [?|(tasks & Er & Haw)]; [done|]. rewrite Hb in Er. injection Er as ->. exfalso.
  destruct r as [|lid' ps' snd'|id'|results|ps'|e]; cbn [resume_body] in E; try discriminate.
  - specialize (Hlen tasks results eq_refl eq_refl). pose proof (consumers_created_done tasks tasks results None w i Hlen Haw) as Hd.
    destruct (consumers_created tasks tasks results None w) as [w1 pr]. cbn [fst] in Hd.
    unfold create_probator in E. repeat case_match; simplify_eq; done.
  - simplify_eq. by apply (reject_tasks_done tasks e w i Haw).
Qed.

Lemma consume_task_promise t ln o n task : consume_task t ln o n = inl task → ct_promise task = n.
Proof. unfold consume_task. intros E. repeat case_match; simplify_eq; done. Qed.

Lemma consume_owned ln o w : owned w → owned (consume ln o w).
Proof.
  intros Ho. unfold consume. destruct (consume_task _ _ _ _) as [task|e] eqn:E; intros n Hc Hn; cbn in *.
  - apply consume_task_promise in E. destruct (decide (n = length (w_promises w))) as [->|Hne].
    + left. exists task. split; [set_solver|done].
    + rewrite lookup_app_l in Hn.
      * destruct (Ho n Hc Hn) as [(t & ? & ?)|?]; [|by right]. left. exists t. split; [set_solver|done].
      * apply lookup_lt_Some in Hn. rewrite length_app in Hn. cbn in Hn. lia.
  - rewrite lookup_app_Some in Hn. destruct Hn as [Hn|[_ Hn]]; [by apply Ho|].
    by apply list_lookup_singleton_Some in Hn as [_ Hn].
Qed.

Lemma start_owned w j : owned w → w_running w = None → owned (advance j (start_job j w)).
Proof.
  intros Ho Hr.
  assert (queued w) as Hq by (intros n Hc Hn; destruct (Ho n Hc Hn) as [?|(? & E & _)]; [done|congruence]).
  destruct (start_job j w) as [w' n] eqn:E. destruct (is_receive n) eqn:En.
  - destruct j; cbn [start_job] in E; repeat case_match; simplify_eq; try discriminate.
    intros i Hc Hi. right. eexists. split; [done|].
    rewrite <-H1. by apply Hq.
  - apply advance_owned; [|done]. intros i Hc Hi.
    destruct j as [| | | |k| | | |]; cbn [start_job] in E; repeat case_match; simplify_eq; try discriminate; cbn in *;
      try (by apply Hq). all: destruct k; by apply Hq.
Qed.

Lemma step_owned w e : owned w → full_answer w e → owned (step w e).
Proof.
  intros Ho Hf. destruct e; cbn [step].
  - eapply still_owned; [|exact Ho]. unfold produce, guarded. repeat case_match; by split.
  - by apply consume_owned.
  - eapply still_owned; [|exact Ho]. unfold produceData, guarded. repeat case_match; by split.
  - eapply still_owned; [|exact Ho]. unfold consumeData. repeat case_match; by split.
  - eapply still_owned; [|exact Ho]. unfold restartIce, guarded. repeat case_match; by split.
  - eapply still_owned; [|exact Ho]. unfold updateIceServers, guarded. repeat case_match; by split.
  - intros n Hc. by rewrite close_closes in Hc.
  - eapply still_owned; [apply calm_still, on_producer_calm|done].
  - eapply still_owned; [apply on_consumer_still|done].
  - eapply still_owned; [apply calm_still, on_dataProducer_calm|done].
  - eapply still_owned; [apply calm_still, on_dataConsumer_calm|done].
  - eapply still_owned; [|exact Ho]. unfold on_icegatheringstatechange. destruct (String.eqb _ _); by split.
  - eapply still_owned; [|exact Ho]. unfold on_connectionstatechange. destruct (String.eqb _ _); by split.
  - destruct (w_running w) eqn:Er; [done|]. destruct (aq_tasks (w_queue w)) as [|j js]; [done|]. by apply start_owned.
  - destruct (w_running w) as [b|] eqn:Er; [|done]. destruct (aq_tasks (w_queue w)) as [|j js]; [done|].
    destruct (resume_body b r w) as [[w' n]|] eqn:E; [|done].
    apply advance_owned; [|by eapply resume_not_receive]. eapply resume_queued; [done..| |done].
    intros tasks results -> ->. unfold full_answer in Hf. by rewrite Er in Hf.
  - destruct (w_detached w !! i) as [b|]; [|done]. destruct (resume_body b r w) as [[w' n]|] eqn:E; [|done].
    eapply still_owned; [|exact Ho]. etransitivity; [by eapply calm_still, resume_calm|]. unfold advance_detached. by destruct n.
  - destruct (w_micro w !! i) as [m|]; [|done]. eapply still_owned; [apply microtask_still|]. done.
  - done.
Qed.

Lemma run_owned w es : owned w → always full_answer w es → owned (run w es).
Proof.
  revert w. induction es as [|e es IH]; intros w Ho; [done|]. intros [Hf Ha]. apply IH; [by apply step_owned|done].
Qed.

(** C10: every [consume] call is answered: if the handler answers each batch with a
    result for every consumer of it, or an error, then whenever the open transport
    is at rest every promise returned by [consume] is settled. *)
Theorem consume_answered h n o es i :
  let w := run (new_World h n o) es in
  always full_answer (new_World h n o) es →
  tr_closed (w_transport w) = false → at_rest w → w_promises w !! i ≠ Some PrPending.
Proof.
  intros w Ha Hc Hrest Hi. destruct (rest_pending w (run_binv _ es (new_World_binv h n o)) Hc Hrest) as [Hk Hn].
  assert (owned w) as Ho by (apply run_owned; [by intros ??|done]).
  destruct (Ho i Hc Hi) as [(task & Hin & _)|(tasks & Er & _)]; [|congruence].
  destruct (Hk None) as [_ Hp]. apply Hp. cbn. intros E. rewrite E in Hin. by apply not_elem_of_nil in Hin.
Qed.
End Answers.
