(* ===== verification/TransportClose.v ===== *)
(** * Transport: closing

    What [close] does, and what outlives it: every object of the transport is
    closed and its maps are empty, but the body of a task that was running goes on
    and tasks that were not started are forgotten. *)

From stdpp Require Import gmap.
From S2P Require Import Prelude JsNum JsVal OrtcValidate Ortc ClientBase Producer Consumer DataChannels Transport TransportRun TransportProofs TransportAnswers.
Local Open Scope string_scope.
Local Open Scope list_scope.

Section Close.
Context `{TrackPlatform} {Q : Type} `{AwaitQueue job Q}.
Implicit Types w : World (Q:=Q).

(** ** A field that a step leaves alone *)

Section Frame.
Context {F : Type} (f : World (Q:=Q) → F).

Definition keeps (g : World → World) : Prop := ∀ w, f (g w) = f w.

Lemma keeps_foldl {A} (g : World → A → World) l w : (∀ w x, f (g w x) = f w) → f (foldl g w l) = f w.
Proof. intros Hg. revert w. induction l as [|x l IH]; intros w; [done|]. cbn. by rewrite IH, Hg. Qed.
End Frame.

(** ** What closing an object of a map does *)

Lemma foldl_closes {V} (objs : World → gmap nat V) (is_closed : V → bool) (g : World → nat → World) l w a v :
  (∀ w a b v, objs (g w a) !! b = Some v → is_closed v = true ∨ (b ≠ a ∧ objs w !! b = Some v)) →
  objs (foldl g w l) !! a = Some v → is_closed v = true ∨ (a ∉ l ∧ objs w !! a = Some v).
Proof.
  intros Hg. revert w. induction l as [|x l IH]; intros w Hv; cbn in *; [right; split; [set_solver|done]|].
  destruct (IH _ Hv) as [?|[Hn Hx]]; [by left|]. destruct (Hg _ _ _ _ Hx) as [?|[Hne ?]]; [by left|right].
  split; [set_solver|done].
Qed.

Lemma insert_closes {V} (m : gmap nat V) (is_closed : V → bool) a b u v :
  is_closed u = true → <[a := u]> m !! b = Some v → is_closed v = true ∨ (b ≠ a ∧ m !! b = Some v).
Proof.
  intros Hu Hv. destruct (decide (b = a)) as [->|Hne].
  - rewrite lookup_insert_eq in Hv. simplify_eq. by left.
  - rewrite lookup_insert_ne in Hv by done. by right.
Qed.

Lemma close_producer_closes w a b p : w_producers (close_producer w a) !! b = Some p →
  p_closed p = true ∨ (b ≠ a ∧ w_producers w !! b = Some p).
Proof.
  unfold close_producer. destruct (w_producers w !! a) as [p0|] eqn:E.
  - destruct (p_transportClosed _ _) as [[h p1] es] eqn:Ep. cbn. apply insert_closes.
    unfold p_transportClosed in Ep. destruct (p_closed p0) eqn:Ec; by simplify_eq.
  - intros Hb. right. split; [congruence|done].
Qed.

Lemma close_consumer_closes w a b c : w_consumers (close_consumer w a) !! b = Some c →
  c_closed c = true ∨ (b ≠ a ∧ w_consumers w !! b = Some c).
Proof.
  unfold close_consumer. destruct (w_consumers w !! a) as [c0|] eqn:E.
  - destruct (c_transportClosed _ _) as [[h c1] es] eqn:Ep. cbn. apply insert_closes.
    unfold c_transportClosed in Ep. destruct (c_closed c0) eqn:Ec; by simplify_eq.
  - intros Hb. right. split; [congruence|done].
Qed.

Lemma close_dataProducer_closes w a b d : w_dataProducers (close_dataProducer w a) !! b = Some d →
  DataProducer.closed d = true ∨ (b ≠ a ∧ w_dataProducers w !! b = Some d).
Proof.
  unfold close_dataProducer. destruct (w_dataProducers w !! a) as [d0|] eqn:E.
  - destruct (DataProducer.transportClosed _) as [d1 es] eqn:Ep. cbn. apply insert_closes.
    unfold DataProducer.transportClosed in Ep. destruct (DataProducer.closed d0) eqn:Ec; by simplify_eq.
  - intros Hb. right. split; [congruence|done].
Qed.

Lemma close_dataConsumer_closes w a b d : w_dataConsumers (close_dataConsumer w a) !! b = Some d →
  DataConsumer.closed d = true ∨ (b ≠ a ∧ w_dataConsumers w !! b = Some d).
Proof.
  unfold close_dataConsumer. destruct (w_dataConsumers w !! a) as [d0|] eqn:E.
  - destruct (DataConsumer.transportClosed _) as [d1 es] eqn:Ep. cbn. apply insert_closes.
    unfold DataConsumer.transportClosed in Ep. destruct (DataConsumer.closed d0) eqn:Ec; by simplify_eq.
  - intros Hb. right. split; [congruence|done].
Qed.

(** The steps of [close] on one kind of object leave the others alone. *)
Lemma close_producer_frame w a : w_consumers (close_producer w a) = w_consumers w ∧
  w_dataProducers (close_producer w a) = w_dataProducers w ∧ w_dataConsumers (close_producer w a) = w_dataConsumers w ∧
  w_transport (close_producer w a) = w_transport w.
Proof. unfold close_producer. by repeat case_match. Qed.
Lemma close_consumer_frame w a : w_producers (close_consumer w a) = w_producers w ∧
  w_dataProducers (close_consumer w a) = w_dataProducers w ∧ w_dataConsumers (close_consumer w a) = w_dataConsumers w ∧
  w_transport (close_consumer w a) = w_transport w.
Proof. unfold close_consumer. by repeat case_match. Qed.
Lemma close_dataProducer_frame w a : w_producers (close_dataProducer w a) = w_producers w ∧
  w_consumers (close_dataProducer w a) = w_consumers w ∧ w_dataConsumers (close_dataProducer w a) = w_dataConsumers w ∧
  w_transport (close_dataProducer w a) = w_transport w.
Proof. unfold close_dataProducer. by repeat case_match. Qed.
Lemma close_dataConsumer_frame w a : w_producers (close_dataConsumer w a) = w_producers w ∧
  w_consumers (close_dataConsumer w a) = w_consumers w ∧ w_dataProducers (close_dataConsumer w a) = w_dataProducers w ∧
  w_transport (close_dataConsumer w a) = w_transport w.
Proof. unfold close_dataConsumer. by repeat case_match. Qed.

Lemma settle_job_frame w jf : w_producers (settle_job w jf) = w_producers w ∧ w_consumers (settle_job w jf) = w_consumers w ∧
  w_dataProducers (settle_job w jf) = w_dataProducers w ∧ w_dataConsumers (settle_job w jf) = w_dataConsumers w ∧
  w_transport (settle_job w jf) = w_transport w ∧ w_promises (settle_job w jf) = w_promises w ∧
  w_queue (settle_job w jf) = w_queue w ∧ w_detached (settle_job w jf) = w_detached w ∧ w_running (settle_job w jf) = w_running w.
Proof. by destruct jf as [[] []]. Qed.

Lemma stop_queue_frame w : w_producers (stop_queue w) = w_producers w ∧ w_consumers (stop_queue w) = w_consumers w ∧
  w_dataProducers (stop_queue w) = w_dataProducers w ∧ w_dataConsumers (stop_queue w) = w_dataConsumers w ∧
  w_transport (stop_queue w) = w_transport w ∧ w_promises (stop_queue w) = w_promises w ∧
  w_queue (stop_queue w) = aq_stop (w_queue w) ∧ w_running (stop_queue w) = None ∧
  w_detached (stop_queue w) = w_detached w ++ match w_running w with Some b => [b] | None => [] end.
Proof.
  unfold stop_queue. cbv zeta. split_and!; (rewrite keeps_foldl; [done|intros; apply settle_job_frame]).
Qed.

(** ** The phases of [close] *)

Lemma emit_frame o w : w_transport (emit o w) = w_transport w ∧ w_queue (emit o w) = w_queue w ∧
  w_running (emit o w) = w_running w ∧ w_producers (emit o w) = w_producers w ∧ w_consumers (emit o w) = w_consumers w ∧
  w_dataProducers (emit o w) = w_dataProducers w ∧ w_dataConsumers (emit o w) = w_dataConsumers w ∧
  w_promises (emit o w) = w_promises w ∧ w_detached (emit o w) = w_detached w ∧ w_micro (emit o w) = w_micro w.
Proof. done. Qed.
Lemma on_t_transport f w : w_transport (on_transport f w) = f (w_transport w).
Proof. done. Qed.
Lemma on_t_producers f w : w_producers (on_transport f w) = w_producers w.
Proof. done. Qed.
Lemma on_t_consumers f w : w_consumers (on_transport f w) = w_consumers w.
Proof. done. Qed.
Lemma on_t_dataProducers f w : w_dataProducers (on_transport f w) = w_dataProducers w.
Proof. done. Qed.
Lemma on_t_dataConsumers f w : w_dataConsumers (on_transport f w) = w_dataConsumers w.
Proof. done. Qed.

Section Phases.
Variable w : World (Q:=Q).

Definition ph0 : World := on_transport (set_tr_connectionState "closed") (ask HClose (stop_queue (on_transport (set_tr_closed true) w))).
Definition ph1 : World := close_producers ph0.
Definition ph2 : World := close_consumers ph1.
Definition ph3 : World := close_dataProducers ph2.
Definition ph4 : World := close_dataConsumers ph3.

Lemma close_phases : tr_closed (w_transport w) = false → close w = emit [OTransport (Observed "close")] ph4.
Proof. intros Hc. unfold close, ph4, ph3, ph2, ph1, ph0. rewrite Hc. reflexivity. Qed.

Lemma ph0_transport : w_transport ph0 = set_tr_connectionState "closed" (set_tr_closed true (w_transport w)).
Proof. unfold ph0. rewrite on_t_transport. f_equal. unfold ask, emit. change (w_transport (set_w_out ?o ?w)) with (w_transport w). by destruct (stop_queue_frame (on_transport (set_tr_closed true) w)) as (_ & _ & _ & _ & -> & _). Qed.
Lemma ph1_transport : w_transport ph1 = set_tr_producers [] (w_transport ph0).
Proof. unfold ph1, close_producers. rewrite on_t_transport. f_equal. apply (keeps_foldl w_transport). intros; apply close_producer_frame. Qed.
Lemma ph2_transport : w_transport ph2 = set_tr_consumers [] (w_transport ph1).
Proof. unfold ph2, close_consumers. rewrite on_t_transport. f_equal. apply (keeps_foldl w_transport). intros; apply close_consumer_frame. Qed.
Lemma ph3_transport : w_transport ph3 = set_tr_dataProducers [] (w_transport ph2).
Proof. unfold ph3, close_dataProducers. rewrite on_t_transport. f_equal. apply (keeps_foldl w_transport). intros; apply close_dataProducer_frame. Qed.
Lemma ph4_transport : w_transport ph4 = set_tr_dataConsumers [] (w_transport ph3).
Proof. unfold ph4, close_dataConsumers. rewrite on_t_transport. f_equal. apply (keeps_foldl w_transport). intros; apply close_dataConsumer_frame. Qed.

(** The transport after [close], all fields at once. *)
Lemma closed_transport : w_transport ph4 =
  set_tr_dataConsumers [] (set_tr_dataProducers [] (set_tr_consumers [] (set_tr_producers []
    (set_tr_connectionState "closed" (set_tr_closed true (w_transport w)))))).
Proof. by rewrite ph4_transport, ph3_transport, ph2_transport, ph1_transport, ph0_transport. Qed.

Lemma ph4_producers : w_producers ph4 = w_producers (foldl close_producer ph0 (tr_producers (w_transport w)).*2).
Proof.
  unfold ph4, close_dataConsumers. rewrite on_t_producers. rewrite (keeps_foldl w_producers) by (intros; apply close_dataConsumer_frame). unfold ph3, close_dataProducers. rewrite on_t_producers.
  rewrite (keeps_foldl w_producers) by (intros; apply close_dataProducer_frame). unfold ph2, close_consumers. rewrite on_t_producers.
  rewrite (keeps_foldl w_producers) by (intros; apply close_consumer_frame). unfold ph1, close_producers. rewrite on_t_producers. by rewrite ph0_transport.
Qed.
Lemma ph4_consumers : w_consumers ph4 = w_consumers (foldl close_consumer ph1 (tr_consumers (w_transport w)).*2).
Proof.
  unfold ph4, close_dataConsumers. rewrite on_t_consumers. rewrite (keeps_foldl w_consumers) by (intros; apply close_dataConsumer_frame). unfold ph3, close_dataProducers. rewrite on_t_consumers.
  rewrite (keeps_foldl w_consumers) by (intros; apply close_dataProducer_frame). unfold ph2, close_consumers. rewrite on_t_consumers.
  by rewrite ph1_transport, ph0_transport.
Qed.
Lemma ph4_dataProducers : w_dataProducers ph4 = w_dataProducers (foldl close_dataProducer ph2 (tr_dataProducers (w_transport w)).*2).
Proof.
  unfold ph4, close_dataConsumers. rewrite on_t_dataProducers. rewrite (keeps_foldl w_dataProducers) by (intros; apply close_dataConsumer_frame). unfold ph3, close_dataProducers. rewrite on_t_dataProducers.
  by rewrite ph2_transport, ph1_transport, ph0_transport.
Qed.
Lemma ph4_dataConsumers : w_dataConsumers ph4 = w_dataConsumers (foldl close_dataConsumer ph3 (tr_dataConsumers (w_transport w)).*2).
Proof. unfold ph4, close_dataConsumers. rewrite on_t_dataConsumers. by rewrite ph3_transport, ph2_transport, ph1_transport, ph0_transport. Qed.

(** Closing objects neither queues nor starts anything. *)
Lemma close_frame {F} (f : World → F) :
  (∀ w a, f (close_producer w a) = f w) → (∀ w a, f (close_consumer w a) = f w) →
  (∀ w a, f (close_dataProducer w a) = f w) → (∀ w a, f (close_dataConsumer w a) = f w) →
  (∀ w t, f (set_w_transport t w) = f w) → (∀ w o, f (set_w_out o w) = f w) →
  f ph4 = f (stop_queue (on_transport (set_tr_closed true) w)).
Proof.
  intros H1 H2 H3 H4 Ht Ho. unfold ph4, close_dataConsumers, on_transport. rewrite Ht, keeps_foldl by done. unfold ph3, close_dataProducers, on_transport.
  rewrite Ht, keeps_foldl by done. unfold ph2, close_consumers, on_transport. rewrite Ht, keeps_foldl by done.
  unfold ph1, close_producers, on_transport. rewrite Ht, keeps_foldl by done. unfold ph0, on_transport. by rewrite Ht; unfold ask, emit; rewrite Ho.
Qed.
End Phases.

Ltac close_frame_tac := apply close_frame; intros; try done;
  [unfold close_producer|unfold close_consumer|unfold close_dataProducer|unfold close_dataConsumer]; by repeat case_match.

Lemma ph4_queue w : w_queue (ph4 w) = aq_stop (w_queue w).
Proof. transitivity (w_queue (stop_queue (on_transport (set_tr_closed true) w))); [close_frame_tac|]. apply (stop_queue_frame (on_transport (set_tr_closed true) w)). Qed.
Lemma ph4_running w : w_running (ph4 w) = None.
Proof. transitivity (w_running (stop_queue (on_transport (set_tr_closed true) w))); [close_frame_tac|]. apply (stop_queue_frame (on_transport (set_tr_closed true) w)). Qed.
Lemma ph4_promises w : w_promises (ph4 w) = w_promises w.
Proof. transitivity (w_promises (stop_queue (on_transport (set_tr_closed true) w))); [close_frame_tac|]. apply (stop_queue_frame (on_transport (set_tr_closed true) w)). Qed.
Lemma ph4_detached w : w_detached (ph4 w) = w_detached w ++ match w_running w with Some b => [b] | None => [] end.
Proof. transitivity (w_detached (stop_queue (on_transport (set_tr_closed true) w))); [close_frame_tac|]. apply (stop_queue_frame (on_transport (set_tr_closed true) w)). Qed.
Lemma ph4_micro w : w_micro (ph4 w) = w_micro (stop_queue (on_transport (set_tr_closed true) w)).
Proof. close_frame_tac. Qed.

(** C12: closing an open transport closes it completely: the state is [closed], the
    queue is empty and nothing of it is running, every producer, consumer and data
    channel of the transport's maps is closed, and the maps are empty. *)
Theorem close_complete w : tr_closed (w_transport w) = false →
  let w' := close w in
  let t := w_transport w in
  let t' := w_transport w' in
  tr_closed t' = true ∧ tr_connectionState t' = "closed" ∧ aq_tasks (w_queue w') = [] ∧ w_running w' = None ∧
  tr_producers t' = [] ∧ tr_consumers t' = [] ∧ tr_dataProducers t' = [] ∧ tr_dataConsumers t' = [] ∧
  (∀ a p, a ∈ (tr_producers t).*2 → w_producers w' !! a = Some p → p_closed p = true) ∧
  (∀ a c, a ∈ (tr_consumers t).*2 → w_consumers w' !! a = Some c → c_closed c = true) ∧
  (∀ a d, a ∈ (tr_dataProducers t).*2 → w_dataProducers w' !! a = Some d → DataProducer.closed d = true) ∧
  (∀ a d, a ∈ (tr_dataConsumers t).*2 → w_dataConsumers w' !! a = Some d → DataConsumer.closed d = true).
Proof.
  intros Hc. cbv zeta. rewrite close_phases by done.
  destruct (emit_frame [OTransport (Observed "close")] (ph4 w)) as (-> & -> & -> & -> & -> & -> & -> & _).
  rewrite closed_transport, ph4_queue, aq_tasks_stop, ph4_running, ph4_producers, ph4_consumers, ph4_dataProducers, ph4_dataConsumers.
  split_and!; try done; intros a v Ha Hv.
  - destruct (foldl_closes w_producers p_closed close_producer _ _ _ _ close_producer_closes Hv) as [?|[? _]]; done.
  - destruct (foldl_closes w_consumers c_closed close_consumer _ _ _ _ close_consumer_closes Hv) as [?|[? _]]; done.
  - destruct (foldl_closes w_dataProducers DataProducer.closed close_dataProducer _ _ _ _ close_dataProducer_closes Hv) as [?|[? _]]; done.
  - destruct (foldl_closes w_dataConsumers DataConsumer.closed close_dataConsumer _ _ _ _ close_dataConsumer_closes Hv) as [?|[? _]]; done.
Qed.

(** ** What outlives [close] *)

(** A [produce] that waits for the application's answer when the transport is
    closed still goes on: the answer creates an open producer in the map of the
    closed transport, although the call itself has been rejected. *)
Theorem produce_outlives_close w track o localId params rtpSender id x :
  tr_closed (w_transport w) = false → w_detached w = [] →
  w_running w = Some (BdProduce track o localId params rtpSender) → w_tracks (close w) !! track = Some x →
  let w' := step (close w) (EvReplyDetached 0 (RpId id)) in
  tr_closed (w_transport w') = true ∧
  ∃ p, w_producers w' !! w_next (close w) = Some p ∧ p_closed p = false ∧ p_id p = id ∧
    tr_producers (w_transport w') = [(id, w_next (close w))].
Proof.
  intros Hc Hd Hr Hx. cbv zeta.
  assert (w_detached (close w) = [BdProduce track o localId params rtpSender]) as Hdet.
  { rewrite close_phases by done. destruct (emit_frame [OTransport (Observed "close")] (ph4 w)) as (_ & _ & _ & _ & _ & _ & _ & _ & -> & _).
    by rewrite ph4_detached, Hd, Hr. }
  pose proof (close_closes w) as Hcl.
  assert (tr_producers (w_transport (close w)) = []) as Hp.
  { rewrite close_phases by done. destruct (emit_frame [OTransport (Observed "close")] (ph4 w)) as (-> & _).
    by rewrite closed_transport. }
  generalize dependent (close w). intros w1 Hx Hdet Hcl Hp.
  cbn [step]. rewrite Hdet. cbn [lookup list_lookup resume_body]. unfold produce_created. rewrite Hx.
  cbn. rewrite Hp. split; [done|]. eexists. split; [by rewrite lookup_insert_eq|done].
Qed.

(** ** Promises that are never settled *)

(** A closed transport that has forgotten the task of promise [n]. *)
Record forsaken (n : nat) w : Prop := {
  fs_closed : tr_closed (w_transport w) = true;
  fs_pending : w_promises w !! n = Some PrPending;
  fs_queue : Forall (λ j, job_of None j = false) (aq_tasks (w_queue w));
  fs_micro : Forall (λ m, then_of None m = false) (w_micro w);
  fs_running tasks : w_running w = Some (BdReceive tasks) → ¬ awaited n tasks;
  fs_detached : Forall (λ b, ∀ tasks, b = BdReceive tasks → ¬ awaited n tasks) (w_detached w);
}.

(** Steps that keep it so: nothing creates consumers. *)
Record aside n w w' : Prop := {
  as_closed : tr_closed (w_transport w') = tr_closed (w_transport w);
  as_promise : w_promises w' !! n = w_promises w !! n;
  as_queue : ∃ js, aq_tasks (w_queue w') = aq_tasks (w_queue w) ++ js ∧ Forall (λ j, job_of None j = false) js;
  as_micro : ∃ ms, w_micro w' = w_micro w ++ ms ∧ Forall (λ m, then_of None m = false) ms;
  as_running : w_running w' = w_running w;
  as_detached : w_detached w' = w_detached w;
}.

Lemma aside_forsaken n w w' : aside n w w' → forsaken n w → forsaken n w'.
Proof.
  intros [H1 H2 (js & H3 & Fj) (ms & H4 & Fm) H5 H6] []. split; [congruence..| | | |by rewrite H6].
  - rewrite H3. by apply Forall_app.
  - rewrite H4. by apply Forall_app.
  - by rewrite H5.
Qed.

Lemma calm_aside n w w' : calm w w' → w_promises w' !! n = w_promises w !! n → w_detached w' = w_detached w → aside n w w'.
Proof.
  intros [Hc _ _ _ (js & Hj & Fj) (ms & Hm & Fm) Hr _] Hp Hd. split; try done.
  - exists js. split; [done|]. eapply Forall_impl; [exact Fj|]. intros j Hq. apply (Hq None).
  - exists ms. split; [done|]. eapply Forall_impl; [exact Fm|]. intros m Hq. apply (Hq None).
Qed.

(** ** Steps that settle nothing *)

Definition unsettled w : list promise * list body := (w_promises w, w_detached w).

Lemma unsettled_aside n w w' : calm w w' → unsettled w' = unsettled w → aside n w w'.
Proof. intros Hc [= Hp Hd]. apply calm_aside; congruence. Qed.

Lemma on_producer_aside n a call w : aside n w (on_producer a call w).
Proof.
  apply unsettled_aside; [apply on_producer_calm|]. unfold on_producer. destruct (w_producers w !! a) as [p0|]; [|done].
  destruct (producer_call _ _ _) as [[h p] es]. rewrite (keeps_foldl unsettled); [done|].
  intros w1 e. unfold handleProducer, producer_on_close. by repeat case_match.
Qed.

Lemma on_dataProducer_aside n a e w : aside n w (on_dataProducer a e w).
Proof.
  apply unsettled_aside; [apply on_dataProducer_calm|]. unfold on_dataProducer. destruct (w_dataProducers w !! a) as [d0|]; [|done].
  destruct (DataProducer.handleDataChannel _ _) as [[d es]|]; [|done]. rewrite (keeps_foldl unsettled); [done|].
  intros w1 x. unfold handleDataProducer. by repeat case_match.
Qed.

Lemma on_dataConsumer_aside n a e w : aside n w (on_dataConsumer a e w).
Proof.
  apply unsettled_aside; [apply on_dataConsumer_calm|]. unfold on_dataConsumer. destruct (w_dataConsumers w !! a) as [d0|]; [|done].
  destruct (DataConsumer.handleDataChannel _ _) as [[d es]|]; [|done]. rewrite (keeps_foldl unsettled); [done|].
  intros w1 x. unfold handleDataConsumer. by repeat case_match.
Qed.

Lemma aside_refl n w : aside n w w.
Proof. split; try done; exists []; by rewrite app_nil_r. Qed.
Lemma aside_trans n w1 w2 w3 : aside n w1 w2 → aside n w2 w3 → aside n w1 w3.
Proof.
  intros [? ? (js & Hj & Fj) (ms & Hm & Fm) ? ?] [? ? (js' & Hj' & Fj') (ms' & Hm' & Fm') ? ?]. split; try congruence.
  - exists (js ++ js'). rewrite Hj', Hj, app_assoc. by rewrite Forall_app.
  - exists (ms ++ ms'). rewrite Hm', Hm, app_assoc. by rewrite Forall_app.
Qed.

(** A step that pushes [js] and schedules [ms]. *)
Lemma aside_intro n w w' js ms : tr_closed (w_transport w') = tr_closed (w_transport w) → unsettled w' = unsettled w →
  w_running w' = w_running w → aq_tasks (w_queue w') = aq_tasks (w_queue w) ++ js → w_micro w' = w_micro w ++ ms →
  Forall (λ j, job_of None j = false) js → Forall (λ m, then_of None m = false) ms → aside n w w'.
Proof. intros ? [= Hp Hd] ???. split; try done; [by rewrite Hp|by exists js|by exists ms]. Qed.

Lemma batch_aside n k w : aside n w (batchPendingConsumers k w).
Proof. apply (aside_intro n _ _ [JBatch k] []); try done; [by destruct k|cbn; apply aq_tasks_push|cbn; by rewrite app_nil_r|by repeat constructor]. Qed.

Lemma transport_aside n f w : (∀ t, tr_closed (f t) = tr_closed t) → aside n w (on_transport f w).
Proof. intros Hf. apply (aside_intro n _ _ [] []); try done; cbn; by rewrite ?app_nil_r. Qed.

Lemma schedule_aside n m w : then_of None m = false → aside n w (schedule m w).
Proof. intros Hm. apply (aside_intro n _ _ [] [m]); try done; [by rewrite app_nil_r|by repeat constructor]. Qed.

Lemma emit_aside n o w : aside n w (emit o w).
Proof. apply (aside_intro n _ _ [] []); try done; cbn; by rewrite ?app_nil_r. Qed.

Lemma handleConsumer_aside n a c w e : aside n w (handleConsumer a c w e).
Proof.
  assert (∀ w, aside n w (consumer_on_close a c w)) as Hc.
  { intros w0. unfold consumer_on_close. cbv zeta. set (w1 := on_transport _ w0).
    assert (aside n w0 w1) as H1 by by apply transport_aside. clearbody w1.
    destruct (tr_closed (w_transport w1)); [done|]. eapply aside_trans; [exact H1|].
    destruct (pd_inProgress _); [by apply transport_aside|].
    eapply aside_trans; [|apply batch_aside]. by apply transport_aside. }
  unfold handleConsumer. repeat case_match; try apply emit_aside; try apply Hc;
    (eapply aside_trans; [|by apply schedule_aside]; by apply transport_aside).
Qed.

Lemma on_consumer_aside n a call w : aside n w (on_consumer a call w).
Proof.
  unfold on_consumer. destruct (w_consumers w !! a) as [c|]; [|apply aside_refl]. destruct (cstep _ _) as [[h c'] es].
  set (w1 := set_w_tracks _ _).
  assert (aside n w w1) as H1 by (apply (aside_intro n _ _ [] []); try done; unfold w1; cbn; by rewrite ?app_nil_r).
  clearbody w1. revert w1 H1. induction es as [|e es IH]; intros w1 H1; [done|]. cbn [foldl]. apply IH.
  eapply aside_trans; [exact H1|apply handleConsumer_aside].
Qed.

(** On a closed transport only the continuation of a creation creates anything. *)
Lemma microtask_aside n m w : tr_closed (w_transport w) = true → then_of None m = false → aside n w (run_microtask m w).
Proof.
  intros Hc Hm. destruct m as [|k| |k|a r ok|t o e]; cbn [run_microtask]; try discriminate.
  - rewrite Hc. apply aside_refl.
  - rewrite Hc. apply aside_refl.
  - assert (aside n w (on_transport (set_inProgress k false) w)) as H1 by (apply transport_aside; by destruct k).
    cbv zeta. case_match; [done|]. eapply aside_trans; [exact H1|apply batch_aside].
  - destruct (w_producers w !! a); [|apply aside_refl]. destruct (p_answered _ _ _ _).
    apply (aside_intro n _ _ [] []); try done; cbn; by rewrite ?app_nil_r.
  - apply (aside_intro n _ _ [] []); destruct (pr_stopTracks o); try done; cbn; by rewrite ?app_nil_r.
Qed.

(** ** Bodies settle only their own promises *)

Lemma settle_promise_other n m s w : n ≠ m → w_promises (settle_promise m s w) !! n = w_promises w !! n.
Proof. intros Hne. unfold settle_promise. repeat case_match; try done. cbn. by rewrite list_lookup_insert_ne. Qed.

Lemma reject_tasks_other n tasks e w : ¬ awaited n tasks → w_promises (reject_tasks tasks e w) !! n = w_promises w !! n.
Proof.
  unfold reject_tasks. revert w. induction tasks as [|t tasks IH]; intros w Hn; [done|]. cbn [foldl]. rewrite IH.
  - apply settle_promise_other. intros ->. apply Hn. exists t. split; [left|done].
  - intros (task & ? & ?). apply Hn. exists task. split; [by right|done].
Qed.

Lemma consumers_created_other n all tasks results pr w : ¬ awaited n all → ¬ awaited n tasks →
  w_promises (consumers_created all tasks results pr w).1 !! n = w_promises w !! n.
Proof.
  intros Ha. revert tasks pr w. induction results as [|r results IH]; intros tasks pr w Hn; [done|]. cbn [consumers_created].
  destruct tasks as [|t tasks]; [by apply reject_tasks_other|].
  assert (w_promises (consumer_created t r w).1 !! n = w_promises w !! n) as H1.
  { unfold consumer_created. destruct r as [[lid rcv] x]. destruct (new_Consumer _ _ _ _). cbn [fst].
    rewrite settle_promise_other; [done|]. intros ->. apply Hn. exists t. split; [left|done]. }
  destruct (consumer_created t r w) as [w1 c]. cbn [fst] in H1. rewrite IH; [done|].
  intros (task & ? & ?). apply Hn. exists task. split; [by right|done].
Qed.

Lemma settle_promise_detached m s w : w_detached (settle_promise m s w) = w_detached w.
Proof. unfold settle_promise. by repeat case_match. Qed.

Lemma reject_tasks_detached tasks e w : w_detached (reject_tasks tasks e w) = w_detached w.
Proof. apply (keeps_foldl w_detached). intros. apply settle_promise_detached. Qed.

Lemma consumers_created_detached all tasks results pr w : w_detached (consumers_created all tasks results pr w).1 = w_detached w.
Proof.
  revert tasks pr w. induction results as [|r results IH]; intros tasks pr w; [done|]. cbn [consumers_created].
  destruct tasks as [|t tasks]; [apply reject_tasks_detached|].
  assert (w_detached (consumer_created t r w).1 = w_detached w) as H1.
  { unfold consumer_created. destruct r as [[lid rcv] x]. destruct (new_Consumer _ _ _ _). cbn [fst].
    by rewrite settle_promise_detached. }
  destruct (consumer_created t r w) as [w1 c]. cbn [fst] in H1. by rewrite IH.
Qed.

Lemma resume_aside n b r w w' nx : (∀ tasks, b = BdReceive tasks → ¬ awaited n tasks) →
  resume_body b r w = Some (w', nx) → aside n w w'.
Proof.
  intros Hb E. apply calm_aside; [by eapply resume_calm| |].
  all: destruct b as [t o|t o lid ps snd|tasks| |o|o ps|id pid ps o|sw], r as [|lid' ps' snd'|id'|results|ps'|e];
    cbn [resume_body] in E; try discriminate; unfold produce_created, produce_abandoned, dataProducer_created, dataConsumer_created in E.
  5: { pose proof (consumers_created_other n tasks tasks results None w (Hb _ eq_refl) (Hb _ eq_refl)) as Hc.
       destruct (consumers_created tasks tasks results None w) as [w1 pr]. cbn [fst] in Hc.
       unfold create_probator in E. repeat case_match; simplify_eq; done. }
  all: try (repeat case_match; simplify_eq; first [done | apply reject_tasks_detached | by apply reject_tasks_other, Hb]).
  pose proof (consumers_created_detached tasks tasks results None w) as Hc.
  destruct (consumers_created tasks tasks results None w) as [w1 pr]. cbn [fst] in Hc.
  unfold create_probator in E. repeat case_match; simplify_eq; done.
Qed.

(** ** Every step *)

Lemma advance_forsaken n w j js nx : forsaken n w → aq_tasks (w_queue w) = j :: js → is_receive nx = false →
  forsaken n (advance j (w, nx)).
Proof.
  intros [H1 H2 H3 H4 H5 H6] Hj Hn. rewrite Hj in H3. apply Forall_cons in H3 as [Hj0 H3]. unfold advance. destruct nx as [b|f].
  - split; cbn; try done; [by rewrite Hj; constructor|]. intros tasks [= ->]. done.
  - destruct (settle_job_frame (set_w_running None (set_w_queue (aq_complete (w_queue w)) w)) (j, f))
      as (_ & _ & _ & _ & Et & Ep & Eq & Ed & Er).
    split; rewrite ?Et, ?Ep, ?Eq, ?Ed, ?Er; cbn; try done.
    + by rewrite aq_tasks_complete, Hj.
    + destruct j; cbn [settle_job]; try discriminate; repeat case_match; cbn; try done; apply Forall_app; split; try done;
        by repeat constructor.
Qed.

Lemma start_aside n j w w' nx : job_of None j = false → start_job j w = (w', nx) → aside n w w' ∧ is_receive nx = false.
Proof.
  intros Hj E. destruct j; cbn [start_job] in E; try discriminate; repeat case_match; simplify_eq; split; try done;
    try apply aside_refl; try apply emit_aside. eapply aside_trans; [|apply emit_aside]. apply transport_aside. by destruct k.
Qed.

Lemma step_forsaken n w e : forsaken n w → forsaken n (step w e).
Proof.
  intros Hf. pose proof Hf as [H1 H2 H3 H4 H5 H6]. destruct e; cbn [step].
  - unfold produce, guarded. repeat case_match; try done; (eapply aside_forsaken; [apply emit_aside|done]) || idtac.
    + unfold produce_check in *. exfalso. clear -H1 H7. repeat case_match; cbn in H7; rewrite H1 in H7; discriminate.
  - unfold consume. unfold consume_task, consume_check. cbn [first_error]. rewrite H1. split; cbn; try done.
    by apply lookup_app_l_Some.
  - unfold produceData, guarded, produceData_check. cbn [first_error]. rewrite H1. eapply aside_forsaken; [apply emit_aside|done].
  - unfold consumeData, consumeData_check. cbn [first_error]. rewrite H1. eapply aside_forsaken; [apply emit_aside|done].
  - unfold restartIce, guarded, restartIce_check. cbn [first_error]. rewrite H1. eapply aside_forsaken; [apply emit_aside|done].
  - unfold updateIceServers, guarded, updateIceServers_check. cbn [first_error]. rewrite H1.
    eapply aside_forsaken; [apply emit_aside|done].
  - unfold close. by rewrite H1.
  - eapply aside_forsaken; [apply on_producer_aside|done].
  - eapply aside_forsaken; [apply on_consumer_aside|done].
  - eapply aside_forsaken; [apply on_dataProducer_aside|done].
  - eapply aside_forsaken; [apply on_dataConsumer_aside|done].
  - unfold on_icegatheringstatechange. destruct (String.eqb _ _); (eapply aside_forsaken; [apply emit_aside|]); by split.
  - unfold on_connectionstatechange. destruct (String.eqb _ _); (eapply aside_forsaken; [apply emit_aside|]); by split.
  - destruct (w_running w) eqn:Er; [done|]. destruct (aq_tasks (w_queue w)) as [|j js] eqn:Ej; [done|].
    apply Forall_cons in H3 as [Hj _]. destruct (start_job j w) as [w' nx] eqn:E.
    destruct (start_aside n j w w' nx Hj E) as [Ha Hn]. destruct (as_queue _ _ _ Ha) as (js' & Hq & _). rewrite Ej in Hq.
    eapply advance_forsaken; [by eapply aside_forsaken|exact Hq|done].
  - destruct (w_running w) as [b|] eqn:Er; [|done]. destruct (aq_tasks (w_queue w)) as [|j js] eqn:Ej; [done|].
    destruct (resume_body b r w) as [[w' nx]|] eqn:E; [|done].
    assert (aside n w w') as Ha by (eapply resume_aside; [|exact E]; intros tasks ->; by apply H5).
    destruct (as_queue _ _ _ Ha) as (js' & Hq & _). rewrite Ej in Hq.
    eapply advance_forsaken; [by eapply aside_forsaken|exact Hq|by eapply resume_not_receive].
  - destruct (w_detached w !! i) as [b|] eqn:Ei; [|done]. destruct (resume_body b r w) as [[w' nx]|] eqn:E; [|done].
    assert (aside n w w') as Ha by (eapply resume_aside; [|exact E]; by apply (Forall_lookup_1 _ _ _ _ H6 Ei)).
    pose proof (resume_not_receive _ _ _ _ _ E) as Hn. destruct (aside_forsaken _ _ _ Ha Hf) as [F1 F2 F3 F4 F5 F6].
    unfold advance_detached. destruct nx as [b'|f]; split; cbn; try done.
    + apply Forall_insert; [done|]. intros tasks ->. done.
    + by apply Forall_delete.
  - destruct (w_micro w !! i) as [m|] eqn:Ei; [|done].
    pose proof (Forall_lookup_1 _ _ _ _ H4 Ei) as Hm.
    eapply aside_forsaken; [by apply microtask_aside|]. split; cbn; try done. by apply Forall_delete.
  - by split.
Qed.

(** A [consume] call whose task has not been started when the transport is
    closed is never answered: its promise is neither resolved nor rejected,
    whatever happens afterwards. *)
Theorem close_abandons_consume w n es :
  tr_closed (w_transport w) = false → w_promises w !! n = Some PrPending →
  w_running w = None → w_detached w = [] → Forall (λ m, then_of None m = false) (w_micro w) →
  w_promises (run (close w) es) !! n = Some PrPending.
Proof.
  intros Hc Hp Hr Hd Hm. enough (forsaken n (run (close w) es)) as [] by done.
  assert (forsaken n (close w)) as Hf.
  { destruct (stop_queue_stopped (on_transport (set_tr_closed true) w)) as (w0 & Hcalm & _ & _ & _ & Hm0 & _).
    pose proof (close_closes w) as Hcl.
    rewrite close_phases in * by done.
    destruct (emit_frame [OTransport (Observed "close")] (ph4 w)) as (E1 & E2 & E3 & _ & _ & _ & _ & E8 & E9 & E10).
    split; rewrite ?E2, ?E3, ?E8, ?E9, ?E10; try done.
    - by rewrite ph4_promises.
    - by rewrite ph4_queue, aq_tasks_stop.
    - rewrite ph4_micro. destruct (ca_micro _ _ Hcalm) as (ms & -> & Fm). rewrite Hm0. apply Forall_app. split; [done|].
      eapply Forall_impl; [exact Fm|]. intros m Hq. apply (Hq None).
    - by rewrite ph4_running.
    - by rewrite ph4_detached, Hd, Hr. }
  revert Hf. generalize (close w). induction es as [|e es IH]; intros w1 Hf; [done|]. apply IH. by apply step_forsaken.
Qed.
End Close.
