(* ===== verification/TransportSync.v ===== *)
(** * Transport: the handler follows the consumers

    [pause] and [resume] of a consumer reach the handler in batches, some time
    later and possibly merged.  Here it is shown that nothing gets lost or out of
    order: for every consumer that waits in no batch, the last thing the handler
    was told is what the application last asked for. *)

From stdpp Require Import gmap.
From S2P Require Import Prelude JsNum JsVal OrtcValidate Ortc ClientBase Producer Consumer DataChannels Transport TransportRun TransportProofs TransportAnswers.
Local Open Scope string_scope.
Local Open Scope list_scope.

(** ** What the handler was last told *)

Definition tell (lid : string) (acc : option bool) (o : out) : option bool :=
  match o with
  | OHandler (HBatch BPause ids) => if bool_decide (lid ∈ ids) then Some true else acc
  | OHandler (HBatch BResume ids) => if bool_decide (lid ∈ ids) then Some false else acc
  | _ => acc
  end.
Definition told (outs : list out) (lid : string) : option bool := foldl (tell lid) None outs.

Lemma told_app outs o lid : told (outs ++ o) lid = foldl (tell lid) (told outs lid) o.
Proof. unfold told. by rewrite foldl_app. Qed.

Definition silent (o : out) : Prop := ∀ lid acc, tell lid acc o = acc.

Lemma told_silent outs o lid : Forall silent o → told (outs ++ o) lid = told outs lid.
Proof. intros Ho. rewrite told_app. generalize (told outs lid). induction Ho as [|x o Hx Ho IH]; intros acc; [done|]. cbn. by rewrite Hx. Qed.

Lemma silent_map {A} (f : A → out) l : (∀ x, silent (f x)) → Forall silent (map f l).
Proof. intros Hf. induction l; by constructor. Qed.

Section Sync.
Context `{TrackPlatform} {Q : Type} `{AwaitQueue job Q}.
Implicit Types w : World (Q:=Q).

(** The two batches that switch consumers. *)
Definition waiting (k : batch) w : list (string * nat) := pd_consumers (get_pending k (w_transport w)).

(** Consumer ids and the handler's local ids are unique. *)
Definition unique w : Prop := ∀ a b c d, w_consumers w !! a = Some c → w_consumers w !! b = Some d → a ≠ b →
  c_id c ≠ c_id d ∧ c_localId c ≠ c_localId d.

Definition paused_by (k : batch) : bool := match k with BPause => true | _ => false end.

Record sinv w : Prop := {
  si_addr a c : w_consumers w !! a = Some c → (a < w_next w)%nat;
  si_told lid : told (w_out w) lid ≠ None → ∃ a c, w_consumers w !! a = Some c ∧ c_localId c = lid;
  si_keys k : k ≠ BClose → NoDup (map_keys (waiting k w));
  si_entries k id a : k ≠ BClose → (id, a) ∈ waiting k w → ∃ c, w_consumers w !! a = Some c ∧ c_id c = id;
  si_waiting k a c : k ≠ BClose → w_consumers w !! a = Some c → c_closed c = false → a ∈ (waiting k w).*2 →
    c_paused c = paused_by k;
  si_sync a c : w_consumers w !! a = Some c → c_closed c = false → a ∉ (waiting BPause w).*2 → a ∉ (waiting BResume w).*2 →
    default false (told (w_out w) (c_localId c)) = c_paused c;
}.

(** ** Steps that tell the handler nothing and wake no consumer *)

(** A consumer may only be closed. *)
Definition only_closed (c c' : Consumer) : Prop :=
  c_id c' = c_id c ∧ c_localId c' = c_localId c ∧ (c_closed c' = true ∨ (c_closed c' = c_closed c ∧ c_paused c' = c_paused c)).

Record neutral w w' : Prop := {
  ne_next : (w_next w <= w_next w')%nat;
  ne_told lid : told (w_out w') lid = told (w_out w) lid;
  ne_waiting k : k ≠ BClose → waiting k w' = waiting k w;
  ne_back a c' : w_consumers w' !! a = Some c' → ∃ c, w_consumers w !! a = Some c ∧ only_closed c c';
  ne_forth a c : w_consumers w !! a = Some c → ∃ c', w_consumers w' !! a = Some c' ∧ only_closed c c';
}.

Lemma only_closed_refl c : only_closed c c.
Proof. by split_and!; auto. Qed.
Lemma only_closed_trans c1 c2 c3 : only_closed c1 c2 → only_closed c2 c3 → only_closed c1 c3.
Proof.
  intros (? & ? & Ha) (? & ? & Hb). split_and!; [congruence..|]. destruct Hb as [?|[E1 E2]]; [by left|].
  destruct Ha as [?|[? ?]]; [left|right]; [congruence|split; congruence].
Qed.

#[export] Instance neutral_refl : Reflexive neutral.
Proof. intros w. split; try done; eauto using only_closed_refl. Qed.
#[export] Instance neutral_trans : Transitive neutral.
Proof.
  intros w1 w2 w3 [A1 A2 A3 A4 A5] [B1 B2 B3 B4 B5]. split.
  - lia.
  - intros lid. by rewrite B2.
  - intros k Hk. by rewrite B3, A3.
  - intros a c' Hc. destruct (B4 a c' Hc) as (c2 & H2 & O2). destruct (A4 a c2 H2) as (c1 & H1' & O1).
    eauto using only_closed_trans.
  - intros a c Hc. destruct (A5 a c Hc) as (c2 & H2 & O2). destruct (B5 a c2 H2) as (c3 & H3 & O3).
    eauto using only_closed_trans.
Qed.

Lemma neutral_intro w w' o : (w_next w <= w_next w')%nat → w_out w' = w_out w ++ o → Forall silent o →
  (∀ k, k ≠ BClose → waiting k w' = waiting k w) → w_consumers w' = w_consumers w → neutral w w'.
Proof.
  intros Hn Ho Hs Hw Hc. split; try done.
  - intros lid. rewrite Ho. by apply told_silent.
  - rewrite Hc. eauto using only_closed_refl.
  - rewrite Hc. eauto using only_closed_refl.
Qed.

Lemma neutral_unique w w' : neutral w w' → unique w → unique w'.
Proof.
  intros Hn Hu a b c d Hc Hd Hne. destruct (ne_back _ _ Hn _ _ Hc) as (c0 & Hc0 & E1 & E2 & _).
  destruct (ne_back _ _ Hn _ _ Hd) as (d0 & Hd0 & E3 & E4 & _). rewrite E1, E2, E3, E4. by apply (Hu a b).
Qed.

Lemma neutral_back_unique w w' : neutral w w' → unique w' → unique w.
Proof.
  intros Hn Hu a b c d Hca Hdb Hne. destruct (ne_forth _ _ Hn a c Hca) as (c' & Hc' & E1 & E2 & _).
  destruct (ne_forth _ _ Hn b d Hdb) as (d' & Hd' & E3 & E4 & _). rewrite <-E1, <-E2, <-E3, <-E4. by apply (Hu a b).
Qed.

Lemma neutral_sinv w w' : neutral w w' → sinv w → sinv w'.
Proof.
  intros Hn [S1 S2 S3 S4 S5 S6]. pose proof Hn as [Hnx Ht Hw Hb Hf]. split.
  - intros a c' Hc. destruct (Hb a c' Hc) as (c & Hc0 & _). specialize (S1 a c Hc0). lia.
  - intros lid. rewrite Ht. intros (a & c & Hc & <-)%S2. destruct (Hf a c Hc) as (c' & Hc' & _ & El & _). eauto.
  - intros k Hk. rewrite Hw by done. auto.
  - intros k id a Hk. rewrite Hw by done. intros (c & Hc & <-)%S4; [|done].
    destruct (Hf a c Hc) as (c' & Hc' & Ei & _). eauto.
  - intros k a c' Hk Hc Hcl. rewrite Hw by done. intros Ha. destruct (Hb a c' Hc) as (c & Hc0 & _ & _ & [?|[E1 E2]]); [congruence|].
    rewrite E2. eapply S5; eauto; congruence.
  - intros a c' Hc Hcl. rewrite !Hw by done. intros Ha1 Ha2. destruct (Hb a c' Hc) as (c & Hc0 & _ & El & [?|[E1 E2]]); [congruence|].
    rewrite Ht, El, E2. apply (S6 a c); [done|congruence|done..].
Qed.

Lemma neutral_foldl {A} (f : World → A → World) l w : (∀ w x, neutral w (f w x)) → neutral w (foldl f w l).
Proof. intros Hf. revert w. induction l as [|x l IH]; intros w; [reflexivity|]. cbn. etransitivity; [apply Hf|apply IH]. Qed.

Lemma emit_neutral w o : Forall silent o → neutral w (emit o w).
Proof. intros Ho. by apply (neutral_intro _ _ o). Qed.
Lemma push_neutral w j : neutral w (push j w).
Proof. apply (neutral_intro _ _ []); try done. cbn. by rewrite app_nil_r. Qed.
Lemma schedule_neutral w m : neutral w (schedule m w).
Proof. apply (neutral_intro _ _ []); try done. cbn. by rewrite app_nil_r. Qed.
Lemma transport_neutral w f : (∀ t k, k ≠ BClose → pd_consumers (get_pending k (f t)) = pd_consumers (get_pending k t)) →
  neutral w (on_transport f w).
Proof. intros Hf. apply (neutral_intro _ _ []); try done; [cbn; by rewrite app_nil_r|]. intros k Hk. unfold waiting. cbn. by apply Hf. Qed.

(** Changes of the other fields. *)
Ltac neutral_field := apply (neutral_intro _ _ []); try done; cbn; by rewrite ?app_nil_r.

(** Peels one primitive step at a time off the later world. *)
Ltac neutral_step :=
  lazymatch goal with
  | |- neutral ?w ?w => reflexivity
  | |- neutral _ (id _) => unfold id
  | |- neutral _ (emit _ ?w) => transitivity w; [|apply emit_neutral; first [apply silent_map; done | repeat constructor; done]]
  | |- neutral _ (ask _ ?w) => transitivity w; [|apply emit_neutral; repeat constructor; done]
  | |- neutral _ (push _ ?w) => transitivity w; [|apply push_neutral]
  | |- neutral _ (schedule _ ?w) => transitivity w; [|apply schedule_neutral]
  | |- neutral _ (on_transport _ ?w) => transitivity w; [|apply transport_neutral; by intros ? []]
  | |- neutral _ (set_w_tracks _ ?w) => transitivity w; [|neutral_field]
  | |- neutral _ (set_w_producers _ ?w) => transitivity w; [|neutral_field]
  | |- neutral _ (set_w_dataProducers _ ?w) => transitivity w; [|neutral_field]
  | |- neutral _ (set_w_dataConsumers _ ?w) => transitivity w; [|neutral_field]
  | |- neutral _ (set_w_promises _ ?w) => transitivity w; [|neutral_field]
  | |- neutral _ (set_w_detached _ ?w) => transitivity w; [|neutral_field]
  | |- neutral _ (set_w_running _ ?w) => transitivity w; [|neutral_field]
  | |- neutral _ (set_w_queue _ ?w) => transitivity w; [|neutral_field]
  | |- neutral _ (set_w_micro _ ?w) => transitivity w; [|neutral_field]
  end.
Ltac neutral := repeat neutral_step.

Lemma on_producer_neutral a call w : neutral w (on_producer a call w).
Proof.
  unfold on_producer. destruct (w_producers w !! a) as [p0|]; [|reflexivity]. destruct (producer_call _ _ _) as [[h p] es].
  etransitivity; [|apply neutral_foldl]; [neutral|]. intros w1 e. unfold handleProducer, producer_on_close.
  repeat case_match; neutral.
Qed.

Lemma on_dataProducer_neutral a e w : neutral w (on_dataProducer a e w).
Proof.
  unfold on_dataProducer. destruct (w_dataProducers w !! a) as [d0|]; [|reflexivity].
  destruct (DataProducer.handleDataChannel _ _) as [[d es]|]; [|reflexivity].
  etransitivity; [|apply neutral_foldl]; [neutral|]. intros w1 x. unfold handleDataProducer. repeat case_match; neutral.
Qed.

Lemma on_dataConsumer_neutral a e w : neutral w (on_dataConsumer a e w).
Proof.
  unfold on_dataConsumer. destruct (w_dataConsumers w !! a) as [d0|]; [|reflexivity].
  destruct (DataConsumer.handleDataChannel _ _) as [[d es]|]; [|reflexivity].
  etransitivity; [|apply neutral_foldl]; [neutral|]. intros w1 x. unfold handleDataConsumer. repeat case_match; neutral.
Qed.

Lemma batch_neutral k w : neutral w (batchPendingConsumers k w).
Proof. unfold batchPendingConsumers. neutral. apply transport_neutral. intros t k' Hk. by destruct k, k'. Qed.
Lemma create_neutral w : neutral w (createPendingConsumers w).
Proof. unfold createPendingConsumers. neutral. Qed.

Lemma microtask_neutral m w : neutral w (run_microtask m w).
Proof.
  destruct m as [|k| |k|a r ok|t o e]; cbn [run_microtask].
  - repeat case_match; [reflexivity..|apply create_neutral].
  - repeat case_match; [reflexivity..|apply batch_neutral].
  - assert (neutral w (on_transport (set_tr_consumerCreationInProgress false) w)) as Hn by neutral.
    cbv zeta. case_match; [done|]. etransitivity; [exact Hn|apply create_neutral].
  - assert (neutral w (on_transport (set_inProgress k false) w)) as Hn
      by (apply transport_neutral; intros t k' Hk; by destruct k, k').
    cbv zeta. case_match; [done|]. etransitivity; [exact Hn|apply batch_neutral].
  - repeat case_match; neutral.
  - destruct (pr_stopTracks o); neutral.
Qed.

Lemma settle_job_neutral w jf : neutral w (settle_job w jf).
Proof. destruct jf as [[] []]; cbn [settle_job is_FinOk]; neutral. Qed.

Lemma close_consumer_neutral w a : neutral w (close_consumer w a).
Proof.
  unfold close_consumer. destruct (w_consumers w !! a) as [c|] eqn:Ec; [|reflexivity].
  destruct (c_transportClosed _ _) as [[h c'] es] eqn:E.
  assert (only_closed c c') as Ho.
  { unfold c_transportClosed in E. destruct (c_closed c); simplify_eq; [apply only_closed_refl|]. split_and!; [done..|by left]. }
  transitivity (set_w_tracks h (set_w_consumers (<[a:=c']> (w_consumers w)) w)); [|apply emit_neutral, silent_map; done].
  split; cbn; try done.
  - intros b d. destruct (decide (b = a)) as [->|]; [rewrite lookup_insert_eq; intros [= <-]; eauto|].
    rewrite lookup_insert_ne by done. eauto using only_closed_refl.
  - intros b d Hd. destruct (decide (b = a)) as [->|]; [rewrite lookup_insert_eq; exists c'; by simplify_eq|].
    rewrite lookup_insert_ne by done. eauto using only_closed_refl.
Qed.

Lemma close_neutral w : neutral w (close w).
Proof.
  unfold close. destruct (tr_closed (w_transport w)); [reflexivity|]. neutral_step.
  unfold close_dataConsumers. neutral_step. etransitivity; [|apply neutral_foldl; intros w1 a; unfold close_dataConsumer; repeat case_match; neutral].
  unfold close_dataProducers. neutral_step. etransitivity; [|apply neutral_foldl; intros w1 a; unfold close_dataProducer; repeat case_match; neutral].
  unfold close_consumers. neutral_step. etransitivity; [|apply neutral_foldl, close_consumer_neutral].
  unfold close_producers. neutral_step. etransitivity; [|apply neutral_foldl; intros w1 a; unfold close_producer; repeat case_match; neutral].
  do 2 neutral_step. unfold stop_queue. etransitivity; [|apply neutral_foldl, settle_job_neutral]. neutral.
Qed.

(** ** A consumer changes, and its own entries with it *)

Lemma moved w w' a c c' : sinv w → w_consumers w !! a = Some c → w_consumers w' = <[a := c']> (w_consumers w) →
  c_id c' = c_id c → c_localId c' = c_localId c → w_next w' = w_next w → (∀ lid, told (w_out w') lid = told (w_out w) lid) →
  (∀ k, k ≠ BClose → NoDup (map_keys (waiting k w'))) →
  (∀ k id b, k ≠ BClose → (id, b) ∈ waiting k w' → (id, b) ∈ waiting k w ∨ (id = c_id c ∧ b = a)) →
  (∀ k id b, k ≠ BClose → b ≠ a → (id, b) ∈ waiting k w → (id, b) ∈ waiting k w') →
  c_closed c' = true ∨
    ((∀ k, k ≠ BClose → a ∈ (waiting k w').*2 → c_paused c' = paused_by k) ∧
     (a ∈ (waiting BPause w').*2 ∨ a ∈ (waiting BResume w').*2)) →
  sinv w'.
Proof.
  intros [S1 S2 S3 S4 S5 S6] Hc Hcs Ei El Hn Ht Hk Hback Hforth Ha.
  assert (∀ b d, w_consumers w' !! b = Some d → (b = a ∧ d = c') ∨ (b ≠ a ∧ w_consumers w !! b = Some d)) as Hsp.
  { intros b d. rewrite Hcs. destruct (decide (b = a)) as [->|]; [rewrite lookup_insert_eq|rewrite lookup_insert_ne by done];
      [intros [= <-]; by left|by right]. }
  assert (∀ k b, k ≠ BClose → b ≠ a → b ∈ (waiting k w').*2 ↔ b ∈ (waiting k w).*2) as Hmem.
  { intros k b Hkc Hne. rewrite !list_elem_of_fmap. split; intros ([id b'] & -> & Hin); exists (id, b'); cbn in *; (split; [done|]).
    - destruct (Hback k id b' Hkc Hin) as [?|[_ ?]]; done.
    - by apply Hforth. }
  split.
  - intros b d Hd. rewrite Hn. destruct (Hsp b d Hd) as [[-> _]|[_ Hd']]; eauto.
  - intros lid. rewrite Ht. intros (b & d & Hd & <-)%S2. destruct (decide (b = a)) as [->|Hne].
    + exists a, c'. rewrite Hcs, lookup_insert_eq. split; [done|]. congruence.
    + exists b, d. by rewrite Hcs, lookup_insert_ne.
  - done.
  - intros k id b Hkc Hin. destruct (decide (b = a)) as [->|Hne].
    + exists c'. rewrite Hcs, lookup_insert_eq. split; [done|].
      destruct (Hback k id a Hkc Hin) as [Hin'|[-> _]]; [|done]. destruct (S4 k id a Hkc Hin') as (c0 & Hc0 & <-). congruence.
    + destruct (Hback k id b Hkc Hin) as [Hin'|[_ ?]]; [|done]. destruct (S4 k id b Hkc Hin') as (d & Hd & <-).
      exists d. by rewrite Hcs, lookup_insert_ne.
  - intros k b d Hkc Hd Hcl Hin. destruct (Hsp b d Hd) as [[-> ->]|[Hne Hd']].
    + destruct Ha as [?|[Hp _]]; [congruence|auto].
    + rewrite Hmem in Hin by done. eauto.
  - intros b d Hd Hcl. destruct (Hsp b d Hd) as [[-> ->]|[Hne Hd']].
    + destruct Ha as [?|[_ [?|?]]]; [congruence|done..].
    + rewrite !Hmem, Ht by done. eauto.
Qed.

(** Entries under one id. *)
Lemma delete_entries {V} (m : list (string * V)) id k v : (k, v) ∈ map_delete m id ↔ k ≠ id ∧ (k, v) ∈ m.
Proof. unfold map_delete. rewrite list_elem_of_filter. done. Qed.

(** In a sound state the entries of a consumer are the ones under its id. *)
Lemma own_entry w k id b a c : sinv w → unique w → k ≠ BClose → w_consumers w !! a = Some c → (id, b) ∈ waiting k w →
  id = c_id c ↔ b = a.
Proof.
  intros Hs Hu Hk Hc Hin. destruct (si_entries _ Hs k id b Hk Hin) as (d & Hd & <-). split; [|intros ->; congruence].
  intros E. destruct (decide (b = a)) as [?|Hne]; [done|]. by destruct (Hu b a d c Hd Hc Hne).
Qed.

Lemma snd_elem {A B} (l : list (A * B)) x y : (x, y) ∈ l → y ∈ l.*2.
Proof. intros Hin. apply list_elem_of_fmap. by exists (x, y). Qed.

(** The three transitions of a consumer the transport reacts to. *)
Lemma switched w w' a c k k' : sinv w → unique w → w_consumers w !! a = Some c → k ≠ BClose → k' ≠ BClose → k ≠ k' →
  w_consumers w' = <[a := c_set_paused (paused_by k) c]> (w_consumers w) → w_next w' = w_next w →
  (∀ lid, told (w_out w') lid = told (w_out w) lid) →
  waiting k w' = map_set (waiting k w) (c_id c) a → waiting k' w' = map_delete (waiting k' w) (c_id c) → sinv w'.
Proof.
  intros Hs Hu Hc Hk Hk' Hne Hcs Hn Ht Hw Hw'.
  assert (∀ q, q ≠ BClose → q = k ∨ q = k') as Hq by (intros q; destruct q, k, k'; intros; try done; auto).
  assert (a ∉ (waiting k' w').*2) as Hout.
  { rewrite Hw', list_elem_of_fmap. intros ([id b] & Eb & Hin). apply delete_entries in Hin as [Hid Hin]. cbn in Eb. subst b.
    by rewrite (own_entry w k' id a a c) in Hid. }
  assert ((c_id c, a) ∈ waiting k w') as Hin.
  { rewrite Hw, map_set_elem by by apply (si_keys _ Hs). by left. }
  eapply (moved w w' a c (c_set_paused (paused_by k) c)); try done.
  - intros q Hqc. destruct (Hq q Hqc) as [-> | ->]; [rewrite Hw|rewrite Hw']; [apply map_set_NoDup|apply map_delete_NoDup];
      by apply (si_keys _ Hs).
  - intros q id b Hqc. destruct (Hq q Hqc) as [-> | ->].
    + rewrite Hw, map_set_elem by by apply (si_keys _ Hs). intros [?|[_ ?]]; auto.
    + rewrite Hw', delete_entries. intros [_ ?]. by left.
  - intros q id b Hqc Hba Hin'. pose proof (own_entry w q id b a c Hs Hu Hqc Hc Hin') as Ho. destruct (Hq q Hqc) as [-> | ->].
    + rewrite Hw, map_set_elem by by apply (si_keys _ Hs). right. split; [by rewrite Ho|done].
    + rewrite Hw', delete_entries. by rewrite Ho.
  - right. split.
    + intros q Hqc Haq. destruct (Hq q Hqc) as [-> | ->]; [done|]. by destruct Hout.
    + apply snd_elem in Hin. destruct k; [by left|by right|done].
Qed.

Lemma withdrawn w w' a c : sinv w → unique w → w_consumers w !! a = Some c →
  w_consumers w' = <[a := c_set_closed c]> (w_consumers w) → w_next w' = w_next w →
  (∀ lid, told (w_out w') lid = told (w_out w) lid) →
  (∀ k, k ≠ BClose → waiting k w' = map_delete (waiting k w) (c_id c)) → sinv w'.
Proof.
  intros Hs Hu Hc Hcs Hn Ht Hw. eapply (moved w w' a c (c_set_closed c)); try done; [| | |by left].
  - intros k Hk. rewrite Hw by done. apply map_delete_NoDup. by apply (si_keys _ Hs).
  - intros k id b Hk. rewrite Hw by done. rewrite delete_entries. intros [_ ?]. by left.
  - intros k id b Hk Hne Hin. rewrite Hw, delete_entries by done. by rewrite (own_entry w k id b a c).
Qed.

Lemma set_consumer_unique w a c c' : w_consumers w !! a = Some c → c_id c' = c_id c → c_localId c' = c_localId c →
  unique w → ∀ m : gmap nat Consumer, m = <[a := c']> (w_consumers w) → ∀ w', w_consumers w' = m → unique w'.
Proof.
  intros Hc Ei El Hu m -> w' Hw'. intros x y d e. rewrite Hw'.
  destruct (decide (x = a)) as [->|Hx], (decide (y = a)) as [->|Hy]; rewrite ?lookup_insert_eq, ?lookup_insert_ne by done;
    intros Hd He Hne; simplify_eq; [rewrite Ei, El|rewrite Ei, El|]; by eapply Hu.
Qed.

(** [close] of a consumer: its entries go, then only the batch of closings moves. *)
Lemma consumer_on_close_neutral a c w :
  neutral (on_transport (λ t, delete_pending BResume (c_id c) (delete_pending BPause (c_id c)
             (set_tr_consumers (map_delete (tr_consumers t) (c_id c)) t))) w) (consumer_on_close a c w).
Proof.
  unfold consumer_on_close. cbv zeta. set (w1 := on_transport _ w). clearbody w1.
  destruct (tr_closed (w_transport w1)); [reflexivity|]. destruct (pd_inProgress _).
  - apply transport_neutral. by intros t [].
  - etransitivity; [|apply batch_neutral]. apply transport_neutral. by intros t [].
Qed.

Lemma on_consumer_sinv a call w : sinv w → unique w → sinv (on_consumer a call w).
Proof.
  intros Hs Hu. unfold on_consumer. destruct (w_consumers w !! a) as [c|] eqn:Hc; [|done].
  assert (∀ h, neutral w (set_w_tracks h (set_w_consumers (<[a := c]> (w_consumers w)) w))) as Hsame.
  { intros h. apply (neutral_intro _ _ []); try done; cbn; [by rewrite app_nil_r|by apply insert_id]. }
  destruct call; cbn [cstep]; unfold c_pause, c_resume, c_close, c_transportClosed.
  - destruct (c_closed c); [eapply neutral_sinv; [apply Hsame|done]|]. destruct (c_paused c) eqn:Ep; [eapply neutral_sinv; [apply Hsame|done]|].
    cbn [foldl]. unfold handleConsumer at 1. eapply neutral_sinv; [apply emit_neutral; by repeat constructor|].
    cbn [handleConsumer]. by eapply (switched w _ a c BPause BResume).
  - destruct (c_closed c); [eapply neutral_sinv; [apply Hsame|done]|]. destruct (c_paused c) eqn:Ep; [|eapply neutral_sinv; [apply Hsame|done]]. cbn [negb].
    cbn [foldl]. unfold handleConsumer at 1. eapply neutral_sinv; [apply emit_neutral; by repeat constructor|].
    cbn [handleConsumer]. by eapply (switched w _ a c BResume BPause).
  - destruct (c_closed c); [eapply neutral_sinv; [apply Hsame|done]|].
    cbn [foldl]. unfold handleConsumer at 1. eapply neutral_sinv; [apply emit_neutral; by repeat constructor|].
    cbn [handleConsumer]. eapply neutral_sinv; [apply consumer_on_close_neutral|].
    eapply (withdrawn w _ a c); try done. by intros [].
  - destruct (c_closed c) eqn:Ec; [eapply neutral_sinv; [apply Hsame|done]|]. cbn [foldl]. unfold handleConsumer.
    eapply neutral_sinv; [|exact Hs]. etransitivity; [|apply emit_neutral; by repeat constructor].
    etransitivity; [|apply emit_neutral; by repeat constructor]. split; cbn; try done.
    + intros b d. destruct (decide (b = a)) as [->|]; [rewrite lookup_insert_eq; intros [= <-]|rewrite lookup_insert_ne by done].
      * exists c. split; [done|]. by split_and!; auto.
      * eauto using only_closed_refl.
    + intros b d Hd. destruct (decide (b = a)) as [->|]; [rewrite lookup_insert_eq|rewrite lookup_insert_ne by done].
      * eexists. split; [done|]. simplify_eq. by split_and!; auto.
      * eauto using only_closed_refl.
  - destruct (w_tracks w !! c_track c) as [x|]; [|eapply neutral_sinv; [apply Hsame|done]].
    set (b := bool_decide _ && _). clearbody b. assert (∀ w1, neutral w1 (foldl (handleConsumer a c) w1 (if b then c_onTrackEnded else []))) as He.
    { intros w1. destruct b; [|reflexivity]. cbn [foldl c_onTrackEnded]. unfold handleConsumer.
      etransitivity; apply emit_neutral; by repeat constructor. }
    eapply neutral_sinv; [|exact Hs]. etransitivity; [apply Hsame|apply He].
Qed.

(** ** A batch is sent *)

Lemma local_ids_elem w m lid : lid ∈ local_ids w m ↔ ∃ a c, a ∈ m.*2 ∧ w_consumers w !! a = Some c ∧ c_localId c = lid.
Proof.
  unfold local_ids. rewrite list_elem_of_omap. split.
  - intros ([id a] & Hin & Hf). cbn in Hf. destruct (w_consumers w !! a) as [c|] eqn:E; cbn in Hf; simplify_eq.
    exists a, c. split_and!; try done. by eapply snd_elem.
  - intros (a & c & Ha & Hc & <-). apply list_elem_of_fmap in Ha as ([id b] & -> & Hin). exists (id, b). split; [done|].
    cbn in *. by rewrite Hc.
Qed.

Lemma batch_sent w w' k : sinv w → unique w → k ≠ BClose →
  w_consumers w' = w_consumers w → w_next w' = w_next w → w_out w' = w_out w ++ [OHandler (HBatch k (local_ids w (waiting k w)))] →
  waiting k w' = [] → (∀ k', k' ≠ BClose → k' ≠ k → waiting k' w' = waiting k' w) → sinv w'.
Proof.
  intros [S1 S2 S3 S4 S5 S6] Hu Hk Hc Hn Ho Hw Hw'.
  assert (∀ lid, told (w_out w') lid =
    if bool_decide (lid ∈ local_ids w (waiting k w)) then Some (paused_by k) else told (w_out w) lid) as Ht.
  { intros lid. rewrite Ho, told_app. cbn. by destruct k. }
  assert (∀ k' x, k' ≠ BClose → x ∈ waiting k' w' → x ∈ waiting k' w) as Hsub.
  { intros k' x Hk'. destruct (decide (k' = k)) as [->|]; [rewrite Hw; by intros ?%not_elem_of_nil|by rewrite Hw']. }
  split; rewrite ?Hc, ?Hn; try done.
  - intros lid. rewrite Ht. case_bool_decide as Hl; [|auto]. intros _. apply local_ids_elem in Hl as (a & c & _ & ? & ?). eauto.
  - intros k' Hk'. destruct (decide (k' = k)) as [->|]; [rewrite Hw; apply NoDup_nil_2|rewrite Hw' by done; auto].
  - intros k' id a Hk' Hin. apply Hsub in Hin; [|done]. by apply (S4 k').
  - intros k' a c Hk' Hac Hcl Hin. apply (S5 k' a c); try done. apply list_elem_of_fmap in Hin as (e & -> & Hin).
    apply list_elem_of_fmap. exists e. auto.
  - intros a c Hac Hcl Hp Hr. rewrite Ht. destruct (decide (a ∈ (waiting k w).*2)) as [Ha|Ha].
    + rewrite bool_decide_true; [by rewrite (S5 k a c)|]. apply local_ids_elem. eauto.
    + rewrite bool_decide_false.
      * apply (S6 a c); [done..| |]; destruct k; try done; by rewrite <-Hw'.
      * intros (b & d & Hb & Hd & El)%local_ids_elem. destruct (decide (a = b)) as [->|Hne]; [done|].
        by destruct (Hu a b c d Hac Hd Hne).
Qed.

(** ** A consumer is created *)

Lemma consumer_created_sinv task result w : sinv w → t_enabled result.2 = true →
  unique (consumer_created task result w).1 → sinv (consumer_created task result w).1.
Proof.
  intros [S1 S2 S3 S4 S5 S6] He Hu. unfold consumer_created in *. destruct result as [[lid rcv] x]. cbn in He.
  unfold new_Consumer in *. set (c := Build_Consumer _ _ _ _ _ _ _ _ _ _) in *. cbn [fst] in *.
  set (w1 := emit _ _) in *.
  assert (∀ n s w, w_consumers (settle_promise n s w) = w_consumers w ∧ w_next (settle_promise n s w) = w_next w ∧
    w_out (settle_promise n s w) = w_out w ∧ w_transport (settle_promise n s w) = w_transport w) as Hsp
    by (intros; unfold settle_promise; by repeat case_match).
  assert (w_consumers w1 = <[S (w_next w) := c]> (w_consumers w)) as Hcs by done.
  assert (∀ k, waiting k w1 = waiting k w) as Hw by by intros [].
  assert (∀ l, told (w_out w1) l = told (w_out w) l) as Ht by (intros l; apply told_silent; by repeat constructor).
  assert (∀ b d, w_consumers w !! b = Some d → b ≠ S (w_next w)) as Hold by (intros b d Hd; specialize (S1 b d Hd); lia).
  assert (w_next w1 = S (S (w_next w))) as Hnx by done.
  assert (unique w1) as Hu1.
  { intros a b d e. specialize (Hu a b d e).
    destruct (Hsp (ct_promise task) (PrResolved (S (w_next w))) w1) as (E & _). rewrite E in Hu. done. }
  assert (sinv w1) as H1.
  { clearbody w1. split.
    - intros a d. rewrite Hcs, Hnx. destruct (decide (a = S (w_next w))) as [->|]; [lia|]. rewrite lookup_insert_ne by done.
      intros Hd. specialize (S1 a d Hd). lia.
    - intros l. rewrite Ht. intros (a & d & Hd & <-)%S2. exists a, d. rewrite Hcs, lookup_insert_ne; [done|].
      intros E. by apply (Hold a d).
    - intros k Hk. rewrite Hw. auto.
    - intros k id a Hk. rewrite Hw. intros (d & Hd & <-)%S4; [|done]. exists d. rewrite Hcs, lookup_insert_ne; [done|].
      intros E. by apply (Hold a d).
    - intros k a d Hk. rewrite Hw, Hcs. destruct (decide (a = S (w_next w))) as [->|]; [|rewrite lookup_insert_ne by done; eauto].
      intros _ _ Hin. apply list_elem_of_fmap in Hin as ([id b] & Eb & Hin). cbn in Eb. subst b.
      destruct (S4 k id _ Hk Hin) as (d0 & Hd0 & _). by destruct (Hold _ _ Hd0).
    - intros a d. rewrite !Hw, Hcs, Ht. destruct (decide (a = S (w_next w))) as [->|]; [|rewrite lookup_insert_ne by done; eauto].
      rewrite lookup_insert_eq. intros [= <-] _ _ _. destruct (told (w_out w) (c_localId c)) as [b|] eqn:E; [|cbn; by rewrite He].
      exfalso. destruct (S2 (c_localId c)) as (a & d & Hd & El); [by rewrite E|].
      destruct (Hu1 a (S (w_next w)) d c) as [_ Hn]; [rewrite Hcs, lookup_insert_ne; [done|by apply not_eq_sym, (Hold a d)]
        |by rewrite Hcs, lookup_insert_eq|by apply (Hold a d)|done]. }
  destruct (Hsp (ct_promise task) (PrResolved (S (w_next w))) w1) as (E1 & E2 & E3 & E4).
  eapply neutral_sinv; [|exact H1]. apply (neutral_intro _ _ []); try done; [by rewrite E2|by rewrite E3, app_nil_r|].
  intros k _. unfold waiting. by rewrite E4.
Qed.

(** ** A batch is created *)

Definition addr_ok w : Prop := ∀ a c, w_consumers w !! a = Some c → (a < w_next w)%nat.

Lemma settle_promise_frame n s w : w_consumers (settle_promise n s w) = w_consumers w ∧ w_next (settle_promise n s w) = w_next w.
Proof. unfold settle_promise. by repeat case_match. Qed.

(** Consumers are only added, at fresh addresses. *)
Lemma consumer_created_extends task result w : addr_ok w →
  w_consumers w ⊆ w_consumers (consumer_created task result w).1 ∧ addr_ok (consumer_created task result w).1.
Proof.
  intros Hs. unfold consumer_created. destruct result as [[lid rcv] x]. destruct (new_Consumer _ _ _ _) as [h c]. cbn [fst].
  set (w1 := emit _ _). destruct (settle_promise_frame (ct_promise task) (PrResolved (S (w_next w))) w1) as [E1 E2].
  unfold addr_ok. rewrite E1, E2. unfold w1. cbn. split.
  - apply insert_subseteq. apply eq_None_not_Some. intros [d Hd]. apply Hs in Hd. lia.
  - intros a d. destruct (decide (a = S (w_next w))) as [->|]; [lia|]. rewrite lookup_insert_ne by done. intros Hd%Hs. lia.
Qed.

Lemma unique_subseteq w w' : w_consumers w ⊆ w_consumers w' → unique w' → unique w.
Proof. intros Hsub Hu a b c d Hc Hd. apply Hu; by eapply lookup_weaken. Qed.

Lemma reject_tasks_neutral tasks e w : neutral w (reject_tasks tasks e w).
Proof. apply neutral_foldl. intros w1 t. unfold settle_promise. repeat case_match; neutral. Qed.

Lemma reject_tasks_consumers tasks e w : w_consumers (reject_tasks tasks e w) = w_consumers w.
Proof.
  unfold reject_tasks. revert w. induction tasks as [|t tasks IH]; intros w; [done|]. cbn. rewrite IH. apply settle_promise_frame.
Qed.

Lemma consumers_created_extends all tasks results pr w : addr_ok w →
  w_consumers w ⊆ w_consumers (consumers_created all tasks results pr w).1.
Proof.
  revert tasks pr w. induction results as [|r results IH]; intros tasks pr w Hs; [done|]. cbn [consumers_created].
  destruct tasks as [|t tasks]; [cbn [fst]; by rewrite reject_tasks_consumers|].
  destruct (consumer_created_extends t r w Hs) as [Hx Ha]. destruct (consumer_created t r w) as [w1 c]. cbn [fst] in *.
  etransitivity; [exact Hx|]. by apply IH.
Qed.

Lemma consumers_created_sinv all tasks results pr w : sinv w → Forall (λ r, t_enabled r.2 = true) results →
  unique (consumers_created all tasks results pr w).1 → sinv (consumers_created all tasks results pr w).1.
Proof.
  intros Hs He. revert tasks pr w Hs. induction He as [|r results Hr He IH]; intros tasks pr w Hs Hu; [done|].
  cbn [consumers_created] in *. destruct tasks as [|t tasks]; [eapply neutral_sinv; [apply reject_tasks_neutral|done]|].
  destruct (consumer_created_extends t r w (si_addr _ Hs)) as [_ Ha]. pose proof (consumer_created_sinv t r w Hs Hr) as Hi.
  destruct (consumer_created t r w) as [w1 c]. cbn [fst] in *. apply IH; [|exact Hu]. apply Hi.
  eapply unique_subseteq; [|exact Hu]. by apply consumers_created_extends.
Qed.

Lemma next_neutral w n : (w_next w <= n)%nat → neutral w (set_w_next n w).
Proof. intros Hn. apply (neutral_intro _ _ []); try done. cbn. by rewrite app_nil_r. Qed.

Lemma create_probator_neutral pr w : neutral w (create_probator pr w).1.
Proof. unfold create_probator. repeat case_match; cbn [fst]; neutral. Qed.

Lemma produce_created_neutral t o lid ps sd id w : neutral w (produce_created t o lid ps sd id w).1.
Proof.
  unfold produce_created, produce_abandoned. destruct (w_tracks w !! t) as [x|]; cbn [fst]; [|neutral].
  destruct (new_Producer _ _ _ _) as [h p]. cbn [fst]. neutral. etransitivity; [|apply next_neutral; cbn; lia]. neutral.
Qed.

Lemma resume_sinv b r w w' n : sinv w → unique w' →
  (∀ results, r = RpReceived results → Forall (λ r, t_enabled r.2 = true) results) →
  resume_body b r w = Some (w', n) → sinv w'.
Proof.
  intros Hs Hu He E.
  destruct b as [t o|t o lid ps sd|tasks| |o|o ps|id pid ps o|sw], r as [|lid' ps' sd'|id'|results|ps'|e];
    cbn [resume_body] in E; try discriminate.
  3: { pose proof (produce_created_neutral t o lid ps sd id' w) as Hn. injection E as E. rewrite E in Hn. by eapply neutral_sinv. }
  4: { pose proof (consumers_created_sinv tasks tasks results None w Hs (He _ eq_refl)) as Hc.
       destruct (consumers_created tasks tasks results None w) as [w1 pr]. cbn [fst] in Hc.
       pose proof (create_probator_neutral pr w1) as Hn. injection E as E. rewrite E in Hn. cbn [fst] in Hn.
       eapply neutral_sinv; [exact Hn|]. apply Hc. by eapply neutral_back_unique. }
  all: unfold produce_abandoned, dataProducer_created, dataConsumer_created in E; repeat case_match; simplify_eq;
    (eapply neutral_sinv; [|exact Hs]); neutral; try apply reject_tasks_neutral;
    (etransitivity; [|apply next_neutral; cbn; lia]; neutral).
Qed.

(** ** Every step *)

(** Ids stay unique, and received tracks are enabled, as the platform creates them. *)
Definition fair w (e : event) : Prop :=
  unique (step w e) ∧
  match e with
  | EvReply (RpReceived results) | EvReplyDetached _ (RpReceived results) => Forall (λ r, t_enabled r.2 = true) results
  | _ => True
  end.

Lemma advance_neutral j w n : neutral w (advance j (w, n)).
Proof. unfold advance. destruct n; [neutral|]. etransitivity; [|apply settle_job_neutral]. neutral. Qed.

Lemma start_sinv j w : sinv w → unique w → sinv (advance j (start_job j w)).
Proof.
  intros Hs Hu. destruct (start_job j w) as [w' n] eqn:E. eapply neutral_sinv; [apply advance_neutral|].
  destruct j as [| | | |k| | | |]; cbn [start_job] in E; repeat case_match; simplify_eq; try done;
    try (eapply neutral_sinv; [|exact Hs]; solve [neutral]).
  destruct (decide (k = BClose)) as [->|Hk].
  - eapply neutral_sinv; [|exact Hs]. etransitivity; [|apply emit_neutral; by repeat constructor]. apply transport_neutral. by intros t [].
  - apply (batch_sent w _ k); try done.
    + cbn. unfold waiting. by rewrite H1.
    + by destruct k.
    + intros k' Hk' Hne. by destruct k, k'.
Qed.

Lemma neutral_state w (f : Transport → Transport * list emitted) :
  (∀ t k, k ≠ BClose → pd_consumers (get_pending k (f t).1) = pd_consumers (get_pending k t)) →
  neutral w (let '(t, es) := f (w_transport w) in emit (map OTransport es) (set_w_transport t w)).
Proof.
  intros Hf. destruct (f (w_transport w)) as [t es] eqn:E. etransitivity; [|apply emit_neutral, silent_map; done].
  change t with (t, es).1. rewrite <-E. apply (transport_neutral w (λ t, (f t).1) Hf).
Qed.

Lemma step_sinv w e : sinv w → unique w → fair w e → sinv (step w e).
Proof.
  intros Hs Hu [Hu' He]. destruct e; cbn [step] in *; try done.
  - eapply neutral_sinv; [|exact Hs]. unfold produce, guarded. repeat case_match; neutral.
  - eapply neutral_sinv; [|exact Hs]. unfold consume. repeat case_match; neutral.
  - eapply neutral_sinv; [|exact Hs]. unfold produceData, guarded. repeat case_match; neutral.
  - eapply neutral_sinv; [|exact Hs]. unfold consumeData. repeat case_match; neutral.
  - eapply neutral_sinv; [|exact Hs]. unfold restartIce, guarded. repeat case_match; neutral.
  - eapply neutral_sinv; [|exact Hs]. unfold updateIceServers, guarded. repeat case_match; neutral.
  - eapply neutral_sinv; [apply close_neutral|done].
  - eapply neutral_sinv; [apply on_producer_neutral|done].
  - by apply on_consumer_sinv.
  - eapply neutral_sinv; [apply on_dataProducer_neutral|done].
  - eapply neutral_sinv; [apply on_dataConsumer_neutral|done].
  - eapply neutral_sinv; [|exact Hs]. apply (neutral_state w (λ t, on_icegatheringstatechange t state)).
    intros t k _. unfold on_icegatheringstatechange. by destruct (String.eqb _ _), k.
  - eapply neutral_sinv; [|exact Hs]. apply (neutral_state w (λ t, on_connectionstatechange t state)).
    intros t k _. unfold on_connectionstatechange. by destruct (String.eqb _ _), k.
  - destruct (w_running w); [done|]. destruct (aq_tasks (w_queue w)) as [|j js]; [done|]. by apply start_sinv.
  - destruct (w_running w) as [b|]; [|done]. destruct (aq_tasks (w_queue w)) as [|j js]; [done|].
    destruct (resume_body b r w) as [[w' n]|] eqn:E; [|done]. eapply neutral_sinv; [apply advance_neutral|].
    apply (resume_sinv b r w w' n); [done| |by intros results ->|done]. by apply (neutral_back_unique w' _ (advance_neutral j w' n)).
  - destruct (w_detached w !! i) as [b|]; [|done]. destruct (resume_body b r w) as [[w' n]|] eqn:E; [|done].
    assert (neutral w' (advance_detached i (w', n))) as Hn by (unfold advance_detached; destruct n; neutral).
    eapply neutral_sinv; [exact Hn|]. apply (resume_sinv b r w w' n); [done| |by intros results ->|done].
    by apply (neutral_back_unique w' _ Hn).
  - destruct (w_micro w !! i) as [m|]; [|done]. eapply neutral_sinv; [|exact Hs]. etransitivity; [|apply microtask_neutral]. neutral.
  - eapply neutral_sinv; [|exact Hs]. neutral.
Qed.

Lemma run_sinv w es : sinv w → unique w → always fair w es → sinv (run w es).
Proof.
  revert w. induction es as [|e es IH]; intros w Hs Hu; [done|]. intros [Hf Ha]. apply IH; [by apply step_sinv|apply Hf|done].
Qed.

Lemma new_World_sinv h n o : sinv (new_World h n o) ∧ unique (new_World h n o).
Proof.
  split; [|intros a b c d Hc; cbn in Hc; by rewrite lookup_empty in Hc].
  split; cbn; try done; try (intros; by rewrite lookup_empty in *).
  - intros [] _; apply NoDup_nil_2.
  - intros [] id a _ Hin; by apply not_elem_of_nil in Hin.
Qed.

(** C9: the handler follows the consumers: if ids are unique and the tracks the
    handler receives are enabled, as the platform makes them, then whenever an open
    transport is at rest, what the handler was last told about an open consumer
    (nothing counts as receiving) is what the application last asked for, whatever
    pauses and resumes were called and however they were merged into batches. *)
Theorem handler_follows_consumers h n o es a c :
  let w := run (new_World h n o) es in
  always fair (new_World h n o) es →
  tr_closed (w_transport w) = false → at_rest w →
  w_consumers w !! a = Some c → c_closed c = false →
  default false (told (w_out w) (c_localId c)) = c_paused c.
Proof.
  intros w Ha Ho Hr Hc Hcl. destruct (rest_pending w (run_binv _ es (new_World_binv h n o)) Ho Hr) as [Hk _].
  destruct (new_World_sinv h n o) as [Hs Hu]. assert (sinv w) as Hsw by by apply run_sinv.
  assert (∀ k, waiting k w = []) as Hw.
  { intros k. destruct (Hk (Some k)) as [_ Hp]. unfold waiting. cbn in Hp. by destruct (pd_consumers _); [|destruct Hp]. }
  apply (si_sync _ Hsw a c); [done..| |]; rewrite Hw; by apply not_elem_of_nil.
Qed.
End Sync.
