(* ===== verification/TransportWitnesses.v ===== *)
(** * Transport: concrete runs

    A receiving transport on which a video consumer is created, paused, resumed
    and paused again before the handler hears of it, and a sending one that is
    closed at a bad moment. *)

From Stdlib Require Import QArith.
From stdpp Require Import gmap.
From S2P Require Import Prelude JsNum JsVal OrtcValidate Ortc ClientBase Producer Consumer DataChannels Transport TransportRun TransportProofs TransportAnswers TransportClose TransportSync.
Local Open Scope string_scope.
Local Open Scope list_scope.

(** ** A receiving transport *)

Definition demo_extended : ExtendedRtpCapabilities :=
  {| ex_codecs := [JObj [("remotePayloadType", js_int 96)]]; ex_headerExtensions := [] |}.

Definition demo_transport (direction : string) : TransportOptions :=
  {| to_direction := direction; to_id := "t1"; to_sctpParameters := JUndef; to_additionalSettings := JUndef;
     to_appData := JUndef; to_extendedRtpCapabilities := demo_extended;
     to_canProduceByKind := JObj [("audio", JBool true); ("video", JBool true)] |}.

Definition demo_listeners : Listeners := {| ln_connect := 1; ln_produce := 1; ln_producedata := 1 |}.

Definition demo_consume (id : string) : ConsumeOptions :=
  {| cs_id := JStr id; cs_producerId := JStr "p1"; cs_kind := JStr "video"; cs_rtpParameters := demo_parameters;
     cs_streamId := JUndef; cs_appData := JUndef |}.

Definition demo_remote_track : MediaStreamTrack :=
  {| t_kind := "video"; t_enabled := true; t_ended := false; t_listeners := [] |}.

Definition demo_start : World (Q:=list job) := new_World ∅ 1 (demo_transport "recv").

(** Create a consumer (the probator with it). *)
Definition demo_created : list event :=
  [EvConsume demo_listeners (demo_consume "c1"); EvMicro 0; EvStart;
   EvReply (RpReceived [("0", JUndef, demo_remote_track)]); EvReply (RpReceived []); EvMicro 0].

(** Pause, resume and pause it, then let everything run. *)
Definition demo_switched : list event :=
  [EvConsumer 2 CoPause; EvConsumer 2 CoResume; EvConsumer 2 CoPause; EvMicro 0; EvMicro 0; EvMicro 0;
   EvStart; EvReply RpDone; EvStart; EvMicro 0; EvMicro 0].

Definition demo_events : list event := demo_created ++ demo_switched.

(** Unique ids, checked on the objects of a world. *)
Definition unique_check {Q} (w : World (Q:=Q)) : bool :=
  bool_decide (NoDup ((λ e, c_id e.2) <$> map_to_list (w_consumers w))) &&
  bool_decide (NoDup ((λ e, c_localId e.2) <$> map_to_list (w_consumers w))).

Lemma NoDup_fmap_ne {A B} (f : A → B) l x y : NoDup (f <$> l) → x ∈ l → y ∈ l → x ≠ y → f x ≠ f y.
Proof.
  intros Hn [i Hi]%list_elem_of_lookup [j Hj]%list_elem_of_lookup Hne E.
  assert (i = j) as ->; [|congruence]. eapply NoDup_lookup; [exact Hn| |]; rewrite list_lookup_fmap.
  - by rewrite Hi.
  - rewrite Hj. cbn. by rewrite E.
Qed.

Lemma unique_checked {Q} (w : World (Q:=Q)) : unique_check w = true → unique w.
Proof.
  unfold unique_check. intros [H1%bool_decide_eq_true H2%bool_decide_eq_true]%andb_true_iff a b c d Hc Hd Hne.
  apply elem_of_map_to_list in Hc, Hd. split;
    [apply (NoDup_fmap_ne (λ e : nat * Consumer, c_id e.2) _ (a, c) (b, d) H1)|
     apply (NoDup_fmap_ne (λ e : nat * Consumer, c_localId e.2) _ (a, c) (b, d) H2)]; congruence.
Qed.

Lemma demo_fair : always fair demo_start demo_events.
Proof.
  unfold demo_events, demo_created, demo_switched. cbn [app always].
  repeat (split; [split; [apply unique_checked; vm_compute; reflexivity|cbn; repeat constructor]|]). done.
Qed.

Lemma at_rest_all_handled_witness :
  get_pending BPause (w_transport (run demo_start demo_events)) = no_pending.
Proof.
  apply (at_rest_all_handled (Q:=list job) ∅ 1 (demo_transport "recv") demo_events);
    [vm_compute; reflexivity|split; vm_compute; reflexivity].
Defined.

Lemma consume_answered_witness : w_promises (run demo_start demo_events) !! 0%nat ≠ Some PrPending.
Proof.
  apply (consume_answered (Q:=list job) ∅ 1 (demo_transport "recv") demo_events 0);
    [|vm_compute; reflexivity|split; vm_compute; reflexivity].
  unfold demo_events, demo_created, demo_switched. cbn [app always].
  repeat (split; [vm_compute; first [exact I | lia]|]). exact I.
Defined.

(** The handler hears of one pause only. *)
Lemma handler_follows_consumers_witness : ∃ c,
  w_consumers (run demo_start demo_events) !! 2%nat = Some c ∧ c_paused c = true ∧
  default false (told (w_out (run demo_start demo_events)) (c_localId c)) = c_paused c.
Proof.
  eexists. split; [vm_compute; reflexivity|]. split; [reflexivity|].
  eapply (handler_follows_consumers (Q:=list job) ∅ 1 (demo_transport "recv") demo_events 2);
    [exact demo_fair|vm_compute; reflexivity|split; vm_compute; reflexivity|vm_compute; reflexivity|reflexivity].
Defined.

(** ** Closing *)

Lemma close_complete_witness : ∃ c,
  w_consumers (close (run demo_start demo_created)) !! 2%nat = Some c ∧ c_closed c = true.
Proof.
  eexists. split; [vm_compute; reflexivity|].
  destruct (close_complete (run demo_start demo_created)) as (_ & _ & _ & _ & _ & _ & _ & _ & _ & Hc & _); [vm_compute; reflexivity|].
  apply (Hc 2%nat); [|vm_compute; reflexivity]. apply (bool_decide_unpack _). vm_compute. exact I.
Defined.

Lemma close_abandons_consume_witness :
  w_promises (run (close (run demo_start [EvConsume demo_listeners (demo_consume "c1")])) [EvMicro 0; EvStart]) !! 0%nat =
  Some PrPending.
Proof.
  apply (close_abandons_consume (run demo_start [EvConsume demo_listeners (demo_consume "c1")]) 0 [EvMicro 0; EvStart]);
    try (vm_compute; reflexivity). vm_compute. repeat constructor.
Defined.

(** ** A sending transport closed while [produce] waits for the application *)

Definition demo_produce : ProduceOptions :=
  {| pr_track := Some 0%nat; pr_encodings := JArr [JObj [("maxBitrate", js_int 500000); ("active", JStr "no")]];
     pr_codecOptions := JUndef; pr_codec := JUndef; pr_stopTracks := true; pr_disableTrackOnPause := true;
     pr_zeroRtpOnPause := false; pr_appData := JUndef |}.

Definition demo_sending : World (Q:=list job) :=
  run (new_World {[ 0%nat := demo_remote_track ]} 1 (demo_transport "send"))
    [EvProduce demo_listeners demo_produce; EvStart; EvReply (RpSent "0" demo_parameters JUndef)].

Lemma produce_outlives_close_witness :
  let w := step (close demo_sending) (EvReplyDetached 0 (RpId "p1")) in
  tr_closed (w_transport w) = true ∧ tr_producers (w_transport w) = [("p1", 1%nat)].
Proof.
  cbv zeta.
  assert (∃ t o lid ps sd, w_running demo_sending = Some (BdProduce t o lid ps sd) ∧ t = 0%nat) as (t & o & lid & ps & sd & Hr & ->)
    by (do 5 eexists; split; vm_compute; reflexivity).
  destruct (produce_outlives_close demo_sending 0 o lid ps sd "p1" demo_remote_track) as (H1 & p & _ & _ & _ & H2);
    [vm_compute; reflexivity|vm_compute; reflexivity|exact Hr|vm_compute; reflexivity|].
  split; [exact H1|]. rewrite H2. vm_compute. reflexivity.
Defined.

(** ** A produce that fails while another producer is closed *)

(** What the handler was asked. *)
Definition handler_calls (l : list out) : list hcall := omap (λ o, match o with OHandler c => Some c | _ => None end) l.

(** The first producer is closed while the application decides about the second
    one, and refuses it: the handler is asked to stop the second sender, and, with
    no answer from it, to stop the first one.  The queue waits for the latter only. *)
Lemma failed_produce_overlaps :
  let w := run demo_sending [EvReply (RpId "p1"); EvProduce demo_listeners demo_produce; EvStart;
             EvReply (RpSent "1" demo_parameters JUndef); EvProducer 1 PcClose] in
  let w' := run w [EvReply (RpError (OtherError "refused")); EvStart] in
  (∃ t o ps sd, w_running w = Some (BdProduce t o "1" ps sd)) ∧
  w_out w' = w_out w ++ [OHandler (HStopSending "1"); OHandler (HStopSending "0")] ∧
  w_running w' = Some (BdHandler false).
Proof. vm_compute. split; [do 4 eexists; reflexivity|]. by split. Qed.

