(* ===== verification/Device.v ===== *)
(** * Device (src/client/lib/Device.js)

    Choosing a handler for the browser, and the device: the negotiation of its
    capabilities with the router in [load], and the transports it creates.  The
    user agent parser and the H.264 package are outside: what they return is a
    parameter.  [load] awaits the handler twice and is cut there. *)

From Stdlib Require Import QArith.
From S2P Require Import Prelude JsNum JsVal JsConv OrtcValidate Ortc OrtcProofs ClientBase Transport.
From Stdlib Require Import Ascii.
Local Open Scope string_scope.
Local Open Scope list_scope.
Local Open Scope Z_scope.

(** ** Numbers in strings *)

(** [parseInt(s)]: an integer at the start of the string. *)
Definition parseInt (s : string) : num :=
  let '(neg, l) := sign (drop_spaces (String.list_ascii_of_string s)) in
  let '(v, n, _) :=
    match l with
    | ("0" :: "x" :: l | "0" :: "X" :: l)%char => digits 16 0 0 l
    | l => digits 10 0 0 l
    end in
  match n with O => NaN | _ => rnd (inject_Z (if neg then - v else v)) end.

(** The exponent at the start, if it is complete. *)
Definition exponent_prefix (l : list ascii) : Z :=
  match l with
  | c :: l =>
      if Ascii.eqb c "e" || Ascii.eqb c "E" then
        let '(neg, l) := sign l in
        match digits 10 0 0 l with (_, O, _) => 0 | (e, _, _) => if neg then - e else e end
      else 0
  | [] => 0
  end.

(** [parseFloat(s)]: a decimal literal at the start of the string. *)
Definition parseFloat (s : string) : num :=
  let '(neg, l) := sign (drop_spaces (String.list_ascii_of_string s)) in
  if decide (take 8 l = String.list_ascii_of_string "Infinity") then if neg then NInf else PInf
  else
    let '(m, n, l) := digits 10 0 0 l in
    let '(m, n, frac, l) :=
      match l with
      | "."%char :: l' => let '(m', n', l'') := digits 10 m 0 l' in (m', (n + n')%nat, Z.of_nat n', l'')
      | _ => (m, n, 0, l)
      end in
    match n with
    | O => NaN
    | _ => let q := (inject_Z m * Qpower 10 (exponent_prefix l - frac))%Q in rnd (if neg then Qopp q else q)
    end.

(** ** Choosing a handler *)

Inductive BuiltinHandlerName :=
| Chrome111 | Chrome74 | Chrome70 | Chrome67 | Chrome55
| Firefox120 | Firefox60 | Safari12 | Safari11 | Edge11
| ReactNativeUnifiedPlan | ReactNative.

#[export] Instance handler_eq : EqDecision BuiltinHandlerName.
Proof. solve_decision. Defined.

(** What the user agent parser reports; missing fields are [None]. *)
Record UserAgent := {
  ua_browserName : option string;
  ua_browserMajor : option string;
  ua_engineName : option string;
  ua_osName : option string;
  ua_osVersion : option string;
  ua_deviceModel : option string;
}.

(** The globals [detectDevice] looks at. *)
Record Globals := {
  (** [navigator.product] and [navigator.userAgent], if [navigator] is an object;
      a user agent that is not a string is [None]. *)
  g_navigator : option (string * option string);
  g_RTCPeerConnection : bool;
  g_RTCRtpTransceiver : bool;
  (** [RTCRtpTransceiver.prototype.hasOwnProperty('currentDirection')]. *)
  g_currentDirection : bool;
}.

Definition is_word (c : ascii) : bool :=
  let n := code c in
  ((48 <=? n) && (n <=? 57)) || ((65 <=? n) && (n <=? 90)) || ((97 <=? n) && (n <=? 122)) || (n =? 95).

Fixpoint take_word (l : list ascii) : list ascii :=
  match l with
  | c :: l => if is_word c then c :: take_word l else []
  | [] => []
  end.

(** A literal at the start of the text, whatever the case. *)
Definition strip_prefix (p : string) (l : list ascii) : option (list ascii) :=
  let p := String.list_ascii_of_string p in
  if decide (map lower_ascii (take (length p) l) = p) then Some (drop (length p) l) else None.

(** [(?:(?:Chrome|Chromium))[ /](\w+)] at the start of the text: the group. *)
Definition chrome_here (l : list ascii) : option (list ascii) :=
  match (match strip_prefix "chrome" l with Some r => Some r | None => strip_prefix "chromium" l end) with
  | Some ((" " | "/")%char :: r) => match take_word r with [] => None | v => Some v end
  | _ => None
  end.

(** The first match in the text. *)
Fixpoint chrome_match (l : list ascii) : option (list ascii) :=
  match chrome_here l with
  | Some v => Some v
  | None => match l with [] => None | _ :: l => chrome_match l end
  end.

Definition name_in (name : option string) (names : list string) : bool :=
  match name with
  | Some n => negb (String.eqb n "") && existsb (String.eqb n) names
  | None => false
  end.

(** [version >= n]. *)
Definition at_least (v : num) (n : Z) : bool := num_leb (num_of_Z n) v.

Section Detect.
Context (parser : string → UserAgent).

Definition detect_browser (g : Globals) (userAgent : string) : option BuiltinHandlerName :=
  let ua := parser userAgent in
  let browserName := toLowerCase <$> ua_browserName ua in
  let browserVersion := parseInt (default "0" (ua_browserMajor ua)) in
  let engineName := toLowerCase <$> ua_engineName ua in
  let osName := toLowerCase <$> ua_osName ua in
  let osVersion := parseFloat (default "0" (ua_osVersion ua)) in
  let deviceModel := toLowerCase <$> ua_deviceModel ua in
  let isIOS := bool_decide (osName = Some "ios") || bool_decide (deviceModel = Some "ipad") in
  let isChrome := name_in browserName ["chrome"; "chromium"; "mobile chrome"; "chrome webview"; "chrome headless"] in
  let isFirefox := name_in browserName ["firefox"; "mobile firefox"; "mobile focus"] in
  let isSafari := name_in browserName ["safari"; "mobile safari"] in
  let isEdge := name_in browserName ["edge"] in
  let unified := g_RTCRtpTransceiver g && g_currentDirection g in
  if (isChrome || isEdge) && negb isIOS && at_least browserVersion 111 then Some Chrome111
  else if (isChrome && negb isIOS && at_least browserVersion 74) || (isEdge && negb isIOS && at_least browserVersion 88)
  then Some Chrome74
  else if isChrome && negb isIOS && at_least browserVersion 70 then Some Chrome70
  else if isChrome && negb isIOS && at_least browserVersion 67 then Some Chrome67
  else if isChrome && negb isIOS && at_least browserVersion 55 then Some Chrome55
  else if isFirefox && negb isIOS && at_least browserVersion 120 then Some Firefox120
  else if isFirefox && negb isIOS && at_least browserVersion 60 then Some Firefox60
  else if isFirefox && isIOS && num_leb (lit (143 # 10)) osVersion then Some Safari12
  else if isSafari && at_least browserVersion 12 && unified then Some Safari12
  else if isSafari && at_least browserVersion 11 then Some Safari11
  else if isEdge && negb isIOS && at_least browserVersion 11 && num_leb browserVersion (num_of_Z 18) then Some Edge11
  else if bool_decide (engineName = Some "webkit") && isIOS && unified then Some Safari12
  else if bool_decide (engineName = Some "blink") then
    match chrome_match (String.list_ascii_of_string userAgent) with
    | None => Some Chrome111
    | Some v =>
        let version := string_to_number (String.string_of_list_ascii v) in
        if at_least version 111 then Some Chrome111
        else if at_least version 74 then Some Chrome74
        else if at_least version 70 then Some Chrome70
        else if at_least version 67 then Some Chrome67
        else Some Chrome55
    end
  else None.

(** [detectDevice(userAgent)]; an empty string counts as no argument, and then as
    no user agent of its own. *)
Definition detectDevice (g : Globals) (userAgent : option string) : option BuiltinHandlerName :=
  let given := match userAgent with Some s => negb (String.eqb s "") | None => false end in
  if negb given && match g_navigator g with Some (product, _) => String.eqb product "ReactNative" | None => false end then
    if negb (g_RTCPeerConnection g) then None
    else if g_RTCRtpTransceiver g then Some ReactNativeUnifiedPlan else Some ReactNative
  else
    match userAgent, g_navigator g with
    | Some s, nav =>
        if given then detect_browser g s
        else match nav with Some (_, Some _) => detect_browser g s | _ => None end
    | None, Some (_, Some s) => detect_browser g s
    | None, _ => None
    end.
End Detect.

(** The names of the built-in handlers, as the constructor's [switch] lists them. *)
Definition handler_names : list (string * BuiltinHandlerName) :=
  [("Chrome111", Chrome111); ("Chrome74", Chrome74); ("Chrome70", Chrome70); ("Chrome67", Chrome67); ("Chrome55", Chrome55);
   ("Firefox120", Firefox120); ("Firefox60", Firefox60); ("Safari12", Safari12); ("Safari11", Safari11); ("Edge11", Edge11);
   ("ReactNativeUnifiedPlan", ReactNativeUnifiedPlan); ("ReactNative", ReactNative)].

(** ** The device *)

Record Device := {
  d_handlerName : string;
  d_loaded : bool;
  d_extendedRtpCapabilities : option ExtendedRtpCapabilities;
  d_recvRtpCapabilities : jsval;
  (** [_canProduceByKind]. *)
  d_canProduceAudio : bool;
  d_canProduceVideo : bool;
  d_sctpCapabilities : jsval;
}.

(** A handler the application gives is known by its name. *)
Definition handler_of_name (name : string) : option BuiltinHandlerName := map_get handler_names name.

Definition name_of_handler (h : BuiltinHandlerName) : string :=
  match array_find (λ e, bool_decide (e.2 = h)) handler_names with Some e => e.1 | None => "" end.

Definition fresh_device (handlerName : string) : Device :=
  {| d_handlerName := handlerName; d_loaded := false; d_extendedRtpCapabilities := None; d_recvRtpCapabilities := JUndef;
     d_canProduceAudio := false; d_canProduceVideo := false; d_sctpCapabilities := JUndef |}.

(** The constructor; [handlerFactory] is the name of the handlers it makes. *)
Definition new_Device (parser : string → UserAgent) (g : Globals) (handlerName : option string) (handlerFactory : option string) :
    Device + error :=
  let given := match handlerName with Some s => negb (String.eqb s "") | None => false end in
  match handlerFactory with
  | Some name =>
      if given then inr (TypeError "just one of handlerName or handlerInterface can be given") else inl (fresh_device name)
  | None =>
      if given then
        match handler_of_name (default "" handlerName) with
        | Some h => inl (fresh_device (name_of_handler h))
        | None => inr (TypeError "unknown handlerName")
        end
      else
        match detectDevice parser g None with
        | Some h => inl (fresh_device (name_of_handler h))
        | None => inr (UnsupportedError "device not supported")
        end
  end.

Definition get_rtpCapabilities (d : Device) : jsval + error :=
  if d_loaded d then inl (d_recvRtpCapabilities d) else inr (InvalidStateError "not loaded").
Definition get_sctpCapabilities (d : Device) : jsval + error :=
  if d_loaded d then inl (d_sctpCapabilities d) else inr (InvalidStateError "not loaded").

Definition canProduce (d : Device) (kind : jsval) : bool + error :=
  if negb (d_loaded d) then inr (InvalidStateError "not loaded")
  else if is_str kind "audio" then inl (d_canProduceAudio d)
  else if is_str kind "video" then inl (d_canProduceVideo d)
  else inr (TypeError "invalid kind").

(** ** [load] *)

(** Where a call of [load] waits; its temporary handler is open meanwhile. *)
Inductive loading :=
| AwaitRtp (router : jsval)
| AwaitSctp.

Section Load.
Context (isSameProfile : jsval → jsval → bool).
Context (generateAnswer : jsval → jsval → outcome jsval).

(** Up to the native RTP capabilities. *)
Definition load_start (d : Device) (routerRtpCapabilities : jsval) : loading + error :=
  if d_loaded d then inr (InvalidStateError "already loaded")
  else match validateRtpCapabilities routerRtpCapabilities with
       | Throw m => inr (OtherError m)
       | Ok router => inl (AwaitRtp router)
       end.

Definition with_negotiated (d : Device) (ext : ExtendedRtpCapabilities) (recv : jsval) : Device :=
  {| d_handlerName := d_handlerName d; d_loaded := d_loaded d; d_extendedRtpCapabilities := Some ext;
     d_recvRtpCapabilities := recv; d_canProduceAudio := canSend "audio" ext; d_canProduceVideo := canSend "video" ext;
     d_sctpCapabilities := d_sctpCapabilities d |}.

(** From the native RTP capabilities to the native SCTP capabilities.  The fields
    are assigned before the receiving capabilities are validated. *)
Definition load_rtp (d : Device) (router native : jsval) : Device * option error :=
  match validateRtpCapabilities native with
  | Throw m => (d, Some (OtherError m))
  | Ok native =>
      match getExtendedRtpCapabilities isSameProfile generateAnswer native router with
      | Throw m => (d, Some (OtherError m))
      | Ok ext =>
          match validateRtpCapabilities (getRecvRtpCapabilities ext) with
          | Throw m => (with_negotiated d ext (getRecvRtpCapabilities ext), Some (OtherError m))
          | Ok recv => (with_negotiated d ext recv, None)
          end
      end
  end.

Definition with_sctp (d : Device) (sctp : jsval) (loaded : bool) : Device :=
  {| d_handlerName := d_handlerName d; d_loaded := loaded; d_extendedRtpCapabilities := d_extendedRtpCapabilities d;
     d_recvRtpCapabilities := d_recvRtpCapabilities d; d_canProduceAudio := d_canProduceAudio d;
     d_canProduceVideo := d_canProduceVideo d; d_sctpCapabilities := sctp |}.

(** From the native SCTP capabilities to the end. *)
Definition load_sctp (d : Device) (sctp : jsval) : Device * option error :=
  match validateSctpCapabilities sctp with
  | Throw m => (with_sctp d sctp (d_loaded d), Some (OtherError m))
  | Ok sctp => (with_sctp d sctp true, None)
  end.

(** ** Transports *)

Record CreateTransportOptions := {
  ctt_id : jsval;
  ctt_iceParameters : jsval;
  ctt_iceCandidates : jsval;
  ctt_dtlsParameters : jsval;
  ctt_sctpParameters : jsval;
  ctt_additionalSettings : jsval;
  ctt_appData : jsval;
}.

Definition can_produce_by_kind (d : Device) : jsval :=
  JObj [("audio", JBool (d_canProduceAudio d)); ("video", JBool (d_canProduceVideo d))].

Definition createTransport (d : Device) (direction : string) (o : CreateTransportOptions) : Transport + error :=
  match first_error [
    (negb (d_loaded d), InvalidStateError "not loaded");
    (not_type (ctt_id o) "string", TypeError "missing id");
    (not_type (ctt_iceParameters o) "object", TypeError "missing iceParameters");
    (negb (is_array (ctt_iceCandidates o)), TypeError "missing iceCandidates");
    (not_type (ctt_dtlsParameters o) "object", TypeError "missing dtlsParameters");
    (truthy (ctt_sctpParameters o) && not_type (ctt_sctpParameters o) "object", TypeError "wrong sctpParameters");
    (bad_appData (ctt_appData o), TypeError "if given, appData must be an object")] with
  | Some e => inr e
  | None =>
      inl (new_Transport
        {| to_direction := direction; to_id := js_string (ctt_id o); to_sctpParameters := ctt_sctpParameters o;
           to_additionalSettings := ctt_additionalSettings o; to_appData := ctt_appData o;
           to_extendedRtpCapabilities :=
             default {| ex_codecs := []; ex_headerExtensions := [] |} (d_extendedRtpCapabilities d);
           to_canProduceByKind := can_produce_by_kind d |})
  end.

Definition createSendTransport (d : Device) (o : CreateTransportOptions) : Transport + error := createTransport d "send" o.
Definition createRecvTransport (d : Device) (o : CreateTransportOptions) : Transport + error := createTransport d "recv" o.

(** ** Runs *)

Record dstate := {
  ds_device : Device;
  (** Calls of [load] in flight. *)
  ds_loading : list loading;
  (** Temporary handlers created and closed, and the results of finished calls. *)
  ds_created : nat;
  ds_closed : nat;
  ds_results : list (option error);
}.

Inductive dev_event :=
| DvLoad (routerRtpCapabilities : jsval)
| DvRtp (i : nat) (native : jsval)
| DvSctp (i : nat) (sctp : jsval)
| DvReject (i : nat) (e : error) (** the handler rejects what a call awaits *).

(** A call ends: its handler is closed. *)
Definition load_ends (s : dstate) (i : nat) (d : Device) (r : option error) : dstate :=
  {| ds_device := d; ds_loading := delete i (ds_loading s); ds_created := ds_created s; ds_closed := S (ds_closed s);
     ds_results := ds_results s ++ [r] |}.

Definition dev_step (s : dstate) (e : dev_event) : dstate :=
  match e with
  | DvLoad router =>
      match load_start (ds_device s) router with
      | inr err => {| ds_device := ds_device s; ds_loading := ds_loading s; ds_created := ds_created s;
                      ds_closed := ds_closed s; ds_results := ds_results s ++ [Some err] |}
      | inl l => {| ds_device := ds_device s; ds_loading := ds_loading s ++ [l]; ds_created := S (ds_created s);
                    ds_closed := ds_closed s; ds_results := ds_results s |}
      end
  | DvRtp i native =>
      match ds_loading s !! i with
      | Some (AwaitRtp router) =>
          match load_rtp (ds_device s) router native with
          | (d, Some e) => load_ends s i d (Some e)
          | (d, None) => {| ds_device := d; ds_loading := <[i := AwaitSctp]> (ds_loading s); ds_created := ds_created s;
                            ds_closed := ds_closed s; ds_results := ds_results s |}
          end
      | _ => s
      end
  | DvSctp i sctp =>
      match ds_loading s !! i with
      | Some AwaitSctp => let '(d, r) := load_sctp (ds_device s) sctp in load_ends s i d r
      | _ => s
      end
  | DvReject i e => match ds_loading s !! i with Some _ => load_ends s i (ds_device s) (Some e) | None => s end
  end.

(** The constructor has opened and closed one handler for its name. *)
Definition dev_start (handlerName : string) : dstate :=
  {| ds_device := fresh_device handlerName; ds_loading := []; ds_created := 1; ds_closed := 1; ds_results := [] |}.

Definition dev_run (name : string) (es : list dev_event) : dstate := foldl dev_step (dev_start name) es.

(** ** Properties of [load] *)

Lemma dev_step_handlers s e : ds_created s = (ds_closed s + length (ds_loading s))%nat →
  ds_created (dev_step s e) = (ds_closed (dev_step s e) + length (ds_loading (dev_step s e)))%nat.
Proof.
  intros Hs.
  assert (∀ i x d r, ds_loading s !! i = Some x →
    ds_created (load_ends s i d r) = (ds_closed (load_ends s i d r) + length (ds_loading (load_ends s i d r)))%nat) as He.
  { intros i x d r Hi. cbn. rewrite Hs. apply lookup_lt_Some in Hi as Hl. rewrite length_delete by by eexists. lia. }
  destruct e as [router|i native|i sctp|i e]; cbn [dev_step].
  - destruct (load_start _ _); cbn; [rewrite length_app; cbn; lia|done].
  - destruct (ds_loading s !! i) as [[router|]|] eqn:Ei; [|done..]. destruct (load_rtp _ _ _) as [d [e|]]; [by eapply He|].
    cbn. by rewrite length_insert.
  - destruct (ds_loading s !! i) as [[router|]|] eqn:Ei; [done| |done]. destruct (load_sctp _ _). by eapply He.
  - destruct (ds_loading s !! i) eqn:Ei; [by eapply He|done].
Qed.

(** [load] never leaks a handler: in every run, with any number of overlapping
    calls and whatever throws or is rejected, each temporary handler is closed
    exactly once, so the handlers open are those of the calls in flight. *)
Theorem load_closes_handlers name es :
  let s := dev_run name es in ds_created s = (ds_closed s + length (ds_loading s))%nat.
Proof.
  cbv zeta. unfold dev_run. assert (ds_created (dev_start name) = (ds_closed (dev_start name) + length (ds_loading (dev_start name)))%nat)
    as Hs by done. revert Hs. generalize (dev_start name). induction es as [|e es IH]; intros s Hs; [done|].
  cbn. apply IH. by apply dev_step_handlers.
Qed.

(** The capabilities come from one negotiation. *)
Definition negotiated_by (d : Device) (ext : ExtendedRtpCapabilities) : Prop :=
  (∃ native router native' router', validateRtpCapabilities native = Ok native' ∧ validateRtpCapabilities router = Ok router' ∧
     getExtendedRtpCapabilities isSameProfile generateAnswer native' router' = Ok ext) ∧
  d_extendedRtpCapabilities d = Some ext ∧
  d_canProduceAudio d = canSend "audio" ext ∧ d_canProduceVideo d = canSend "video" ext ∧
  validateRtpCapabilities (getRecvRtpCapabilities ext) = Ok (d_recvRtpCapabilities d).

(** One call at a time. *)
Fixpoint one_load (s : dstate) (es : list dev_event) : Prop :=
  match es with
  | [] => True
  | e :: es => match e with DvLoad _ => ds_loading s = [] | _ => True end ∧ one_load (dev_step s e) es
  end.

Record linv (s : dstate) : Prop := {
  li_one : ds_loading s = [] ∨ (d_loaded (ds_device s) = false ∧ ∃ l, ds_loading s = [l]);
  li_router router : ds_loading s = [AwaitRtp router] → ∃ v, validateRtpCapabilities v = Ok router;
  li_sctp : ds_loading s = [AwaitSctp] → ∃ ext, negotiated_by (ds_device s) ext;
  li_loaded : d_loaded (ds_device s) = true → ∃ ext, negotiated_by (ds_device s) ext ∧
    validateSctpCapabilities (d_sctpCapabilities (ds_device s)) = Ok (d_sctpCapabilities (ds_device s));
}.

Lemma sctp_caps_same v v' : validateSctpCapabilities v = Ok v' → v' = v.
Proof. unfold validateSctpCapabilities. intros E. bind_inv. done. Qed.

Lemma load_rtp_ok d router native d' r : load_rtp d router native = (d', r) →
  d_loaded d' = d_loaded d ∧ (r = None → (∃ v, validateRtpCapabilities v = Ok router) → ∃ ext, negotiated_by d' ext).
Proof.
  unfold load_rtp. intros E. destruct (validateRtpCapabilities native) as [n|] eqn:En; [|by simplify_eq].
  destruct (getExtendedRtpCapabilities _ _ n router) as [ext|] eqn:Ex; [|by simplify_eq].
  destruct (validateRtpCapabilities (getRecvRtpCapabilities ext)) as [recv|] eqn:Er; simplify_eq; [|done].
  split; [done|]. intros _ [v Hv]. exists ext. split_and!; try done. by exists native, v, n, router.
Qed.

Lemma dev_step_linv s e : linv s → match e with DvLoad _ => ds_loading s = [] | _ => True end → linv (dev_step s e).
Proof.
  intros Hi He. pose proof Hi as [H1 H2 H3 H4]. destruct e as [router|i native|i sctp|i e]; cbn [dev_step].
  - unfold load_start. destruct (d_loaded (ds_device s)) eqn:El; [split; cbn; try done; by rewrite El in *|].
    destruct (validateRtpCapabilities router) as [r|] eqn:Er; split; cbn; rewrite ?He, ?El in *; try done.
    + right. eauto.
    + intros r' [= <-]. eauto.
  - destruct H1 as [Hl|[El [l Hl]]]; rewrite Hl in *; [done|]. destruct i as [|i]; [|done]. cbn [lookup list_lookup].
    destruct l as [router|]; [|done]. destruct (load_rtp _ _ _) as [d r] eqn:E. destruct (load_rtp_ok _ _ _ _ _ E) as [Ed Hok].
    destruct r as [err|]; split; cbn; rewrite ?Hl, ?Ed, ?El; cbn; try done; try (by left).
    + right. eauto.
    + intros _. by apply Hok, H2.
  - destruct H1 as [Hl|[El [l Hl]]]; rewrite Hl in *; [done|]. destruct i as [|i]; [|done]. cbn [lookup list_lookup].
    destruct l as [router|]; [done|]. destruct (H3 eq_refl) as [ext Hext].
    unfold load_sctp. destruct (validateSctpCapabilities sctp) as [v|] eqn:Ev; cbn; split; cbn; rewrite ?Hl, ?El; try done; try (by left).
    intros _. exists ext. split; [exact Hext|]. apply sctp_caps_same in Ev as E. by subst v.
  - destruct H1 as [Hl|[El [l Hl]]]; rewrite Hl in *; [done|]. destruct i as [|i]; [|done]. cbn.
    split; cbn; rewrite ?Hl, ?El; try done. by left.
Qed.

Lemma dev_run_linv name es : one_load (dev_start name) es → linv (dev_run name es).
Proof.
  unfold dev_run. assert (linv (dev_start name)) as Hs by (split; cbn; try done; by left). revert Hs.
  generalize (dev_start name). induction es as [|e es IH]; intros s Hs; [done|]. cbn. intros [He Ho]. apply IH; [by apply dev_step_linv|done].
Qed.

(** What a transport is handed when the negotiation gave [ext]. *)
Definition handed (ext : ExtendedRtpCapabilities) (direction : string) (t : Transport) : Prop :=
  tr_direction t = direction ∧ tr_extendedRtpCapabilities t = ext ∧
  tr_canProduceByKind t = JObj [("audio", JBool (canSend "audio" ext)); ("video", JBool (canSend "video" ext))].

Lemma createTransport_handed d direction o t ext : negotiated_by d ext → createTransport d direction o = inl t → handed ext direction t.
Proof.
  intros (_ & Hx & Ha & Hv & _) E. unfold createTransport in E. destruct (first_error _); [done|]. injection E as <-.
  unfold handed, can_produce_by_kind. cbn. unfold can_produce_by_kind. by rewrite Hx, Ha, Hv.
Qed.

(** C36: a device loaded by calls that do not overlap is consistent: its answers
    about producing, its receiving capabilities and the capabilities it hands to
    its transports, sending and receiving ones, all come from one negotiation
    between the validated native and router capabilities, and the capabilities it
    reports are valid. *)
Theorem loaded_device_consistent name es :
  let d := ds_device (dev_run name es) in
  one_load (dev_start name) es → d_loaded d = true →
  ∃ ext, negotiated_by d ext ∧
    canProduce d (JStr "audio") = inl (canSend "audio" ext) ∧ canProduce d (JStr "video") = inl (canSend "video" ext) ∧
    get_rtpCapabilities d = inl (d_recvRtpCapabilities d) ∧
    (∀ o t, createSendTransport d o = inl t → handed ext "send" t) ∧
    (∀ o t, createRecvTransport d o = inl t → handed ext "recv" t) ∧
    validateSctpCapabilities (d_sctpCapabilities d) = Ok (d_sctpCapabilities d).
Proof.
  intros d Ho Hl. destruct (dev_run_linv name es Ho) as [_ _ _ H4]. fold d in H4. destruct (H4 Hl) as (ext & Hn & Hs).
  exists ext. pose proof Hn as (_ & _ & Ha & Hv & _). split; [done|]. unfold canProduce, get_rtpCapabilities.
  rewrite Hl, Ha, Hv. split_and!; try done; intros o t; by apply createTransport_handed.
Qed.

(** The check for a loaded device comes before the awaits, so two overlapping
    calls both go through: if the second one fails at its last check, it is rejected
    but the device stays loaded with the capabilities that were found invalid. *)
Theorem overlapping_loads_spoil s good bad m :
  ds_loading s = [AwaitSctp; AwaitSctp] → validateSctpCapabilities good = Ok good → validateSctpCapabilities bad = Throw m →
  let s' := foldl dev_step s [DvSctp 0 good; DvSctp 0 bad] in
  d_loaded (ds_device s') = true ∧ get_sctpCapabilities (ds_device s') = inl bad ∧
  ds_results s' = ds_results s ++ [None; Some (OtherError m)].
Proof.
  intros Hl Hg Hb. cbv zeta. destruct s as [d ls n k rs]. cbn in Hl. subst ls.
  assert (load_sctp d good = (with_sctp d good true, None)) as E1 by (unfold load_sctp; by rewrite Hg).
  assert (∀ d, load_sctp d bad = (with_sctp d bad (d_loaded d), Some (OtherError m))) as E2 by (intros; unfold load_sctp; by rewrite Hb).
  cbn. rewrite E1. cbn. rewrite E2. cbn. by rewrite <-app_assoc.
Qed.
End Load.

(** ** Properties of the detection *)

Lemma name_of_handler_ok h : handler_of_name (name_of_handler h) = Some h ∧ name_of_handler h ≠ "".
Proof. by destruct h. Qed.

(** The constructor without arguments never fails on a name of its own making:
    it throws exactly when no handler is detected, and then says the device is not
    supported; a device made by detection is the one made by giving its name. *)
Theorem detection_sound parser g :
  match detectDevice parser g None with
  | Some h => new_Device parser g None None = inl (fresh_device (name_of_handler h)) ∧
              new_Device parser g (Some (name_of_handler h)) None = inl (fresh_device (name_of_handler h))
  | None => new_Device parser g None None = inr (UnsupportedError "device not supported")
  end.
Proof.
  unfold new_Device. destruct (detectDevice parser g None) as [h|] eqn:E; [|done]. split; [done|].
  destruct (name_of_handler_ok h) as [Hn Hne]. apply String.eqb_neq in Hne. rewrite Hne. cbn [negb].
  by assert (handler_of_name (default "" (Some (name_of_handler h))) = Some h) as -> by exact Hn.
Qed.

(** Newer handlers first. *)
Definition chrome_rank (h : BuiltinHandlerName) : Z :=
  match h with Chrome111 => 5 | Chrome74 => 4 | Chrome70 => 3 | Chrome67 => 2 | Chrome55 => 1 | _ => 0 end.

Definition chrome_on_desktop (ua : UserAgent) : Prop :=
  name_in (toLowerCase <$> ua_browserName ua) ["chrome"; "chromium"; "mobile chrome"; "chrome webview"; "chrome headless"] = true ∧
  toLowerCase <$> ua_osName ua ≠ Some "ios" ∧ toLowerCase <$> ua_deviceModel ua ≠ Some "ipad".

Lemma num_leb_trans x y z : num_leb x y = true → num_leb y z = true → num_leb x z = true.
Proof.
  destruct x, y, z; cbn; try done. rewrite !Qle_bool_iff. apply Qle_trans.
Qed.

Lemma at_least_mono v w n : num_leb v w = true → at_least v n = true → at_least w n = true.
Proof. unfold at_least. intros Hvw Hv. by eapply num_leb_trans. Qed.

Lemma chrome_not_edge ua : chrome_on_desktop ua → name_in (toLowerCase <$> ua_browserName ua) ["edge"] = false.
Proof.
  intros [Hc _]. unfold name_in in *. destruct (toLowerCase <$> ua_browserName ua) as [n|]; [|done].
  apply andb_prop in Hc as [-> Hc]. apply existsb_exists in Hc as (x & Hx & ->%String.eqb_eq).
  repeat (destruct Hx as [<- | Hx]; [done|]). done.
Qed.

Lemma chrome_handler parser g userAgent : let ua := parser userAgent in chrome_on_desktop ua →
  let v := parseInt (default "0" (ua_browserMajor ua)) in at_least v 55 = true →
  detect_browser parser g userAgent =
    Some (if at_least v 111 then Chrome111 else if at_least v 74 then Chrome74 else if at_least v 70 then Chrome70
          else if at_least v 67 then Chrome67 else Chrome55).
Proof.
  intros ua Hu v Hv. pose proof (chrome_not_edge _ Hu) as He. destruct Hu as (Hc & Hos & Hm).
  unfold detect_browser. fold ua v. rewrite Hc, He.
  rewrite (bool_decide_eq_false_2 _ Hos), (bool_decide_eq_false_2 _ Hm). cbn [orb negb andb]. rewrite Hv.
  by destruct (at_least v 111), (at_least v 74), (at_least v 70), (at_least v 67).
Qed.

(** Among desktop and Android Chrome browsers at version 55 or later, a newer
    version never gets an older handler, and all of them get one. *)
Theorem chrome_handler_monotone parser g ua1 ua2 :
  let version u := parseInt (default "0" (ua_browserMajor (parser u))) in
  chrome_on_desktop (parser ua1) → chrome_on_desktop (parser ua2) →
  at_least (version ua1) 55 = true → num_leb (version ua1) (version ua2) = true →
  ∃ h1 h2, detect_browser parser g ua1 = Some h1 ∧ detect_browser parser g ua2 = Some h2 ∧
    1 ≤ chrome_rank h1 ∧ chrome_rank h1 ≤ chrome_rank h2.
Proof.
  intros version H1 H2 Hv Hle.
  pose proof (at_least_mono _ _ 55 Hle Hv) as Hv2.
  do 2 eexists. rewrite (chrome_handler parser g ua1 H1 Hv), (chrome_handler parser g ua2 H2 Hv2). fold (version ua1) (version ua2).
  split_and!; [done|done|by repeat case_match|].
  pose proof (at_least_mono _ _ 111 Hle) as M1. pose proof (at_least_mono _ _ 74 Hle) as M2.
  pose proof (at_least_mono _ _ 70 Hle) as M3. pose proof (at_least_mono _ _ 67 Hle) as M4.
  destruct (at_least (version ua1) 111); [by rewrite M1|]. destruct (at_least (version ua1) 74); [by rewrite M2; [case_match|]|].
  destruct (at_least (version ua1) 70); [by rewrite M3; [repeat case_match|]|].
  destruct (at_least (version ua1) 67); [by rewrite M4; [repeat case_match|]|]. by repeat case_match.
Qed.

(** ** Concrete runs *)

(** A parser that knows two browsers. *)
Definition demo_parser (userAgent : string) : UserAgent :=
  {| ua_browserName := Some "Chrome"; ua_browserMajor := Some userAgent; ua_engineName := Some "Blink";
     ua_osName := Some "Linux"; ua_osVersion := None; ua_deviceModel := None |}.

Definition demo_globals : Globals :=
  {| g_navigator := Some ("Gecko", Some "120"); g_RTCPeerConnection := true; g_RTCRtpTransceiver := true;
     g_currentDirection := true |}.

Lemma chrome_handler_monotone_witness :
  ∃ h1 h2, detect_browser demo_parser demo_globals "70" = Some h1 ∧ detect_browser demo_parser demo_globals "120" = Some h2 ∧
    1 ≤ chrome_rank h1 ∧ chrome_rank h1 ≤ chrome_rank h2.
Proof. apply (chrome_handler_monotone demo_parser demo_globals "70" "120"); by vm_compute. Defined.

Definition demo_sctp (os : Z) : jsval :=
  JObj [("numStreams", JObj [("OS", js_int os); ("MIS", js_int 1024)])].

Definition demo_bad_sctp : jsval := JObj [("numStreams", JObj [("OS", JStr "x"); ("MIS", js_int 1024)])].

Definition demo_loads : list dev_event := [DvLoad demo_remote; DvRtp 0 demo_local; DvSctp 0 (demo_sctp 1024)].

Lemma loaded_device_consistent_witness :
  let d := ds_device (dev_run demo_same_profile demo_answer "Chrome111" demo_loads) in
  d_loaded d = true ∧ d_canProduceAudio d = true ∧ ∃ ext, negotiated_by demo_same_profile demo_answer d ext.
Proof.
  cbv zeta. split_and!; [by vm_compute..|].
  destruct (loaded_device_consistent demo_same_profile demo_answer "Chrome111" demo_loads) as (ext & H & _);
    [split_and!; by vm_compute | by vm_compute | by exists ext].
Defined.

Lemma overlapping_loads_spoil_witness :
  let s := dev_run demo_same_profile demo_answer "Chrome111"
    [DvLoad demo_remote; DvLoad demo_remote; DvRtp 0 demo_local; DvRtp 1 demo_local] in
  let s' := foldl (dev_step demo_same_profile demo_answer) s [DvSctp 0 (demo_sctp 1024); DvSctp 0 demo_bad_sctp] in
  d_loaded (ds_device s') = true ∧ get_sctpCapabilities (ds_device s') = inl demo_bad_sctp.
Proof.
  cbv zeta. edestruct (overlapping_loads_spoil demo_same_profile demo_answer
    (dev_run demo_same_profile demo_answer "Chrome111"
      [DvLoad demo_remote; DvLoad demo_remote; DvRtp 0 demo_local; DvRtp 1 demo_local])
    (demo_sctp 1024) demo_bad_sctp) as (H1 & H2 & _); [by vm_compute | by vm_compute | by vm_compute | by split].
Defined.
