(* ===== verification/JsString.v ===== *)
(** * Strings from values, and back

    [String(v)] and template literals, [join], [split], [trim], [includes] and
    [replace], on ASCII strings.  A number prints as JavaScript prints it: the
    shortest decimal that reads back as the same double, with the exponent
    notation outside [1e-7 .. 1e21]; a safe integer is simply its decimal. *)

From Stdlib Require Import QArith Qabs Qround.
From S2P Require Import Prelude JsNum JsVal JsConv.
From Stdlib Require Import Ascii.
Local Open Scope string_scope.
Local Open Scope list_scope.
Local Open Scope Z_scope.

Notation chars := String.list_ascii_of_string.
Notation text := String.string_of_list_ascii.

(** ** Numbers *)

Definition digit_char (d : Z) : ascii := ascii_of_nat (Z.to_nat (48 + d)).

(** The decimal digits of [z], before [acc]; [fuel] bounds their number. *)
Fixpoint print_digits (fuel : nat) (z : Z) (acc : list ascii) : list ascii :=
  match fuel with
  | O => acc
  | S fuel =>
      let acc := digit_char (z mod 10) :: acc in
      if z <? 10 then acc else print_digits fuel (z / 10) acc
  end.

(** A natural number has at most as many decimal digits as binary ones. *)
Definition print_Z (z : Z) : list ascii := print_digits (S (Z.to_nat (Z.log2 z))) z [].

(** The [n] with [10^(n-1) <= q < 10^n], from the binary logarithm; 30103/100000 is
    close enough to log10(2) over the exponents of doubles to be off by at most one. *)
Definition decimal_exponent (q : Q) : Z :=
  let n := (qlog2 q * 30103) / 100000 in
  if Qle_bool (Qpower 10 (n + 1)) q then n + 2 else if Qle_bool (Qpower 10 n) q then n + 1 else n.

(** The nearest decimal with [k] digits. *)
Definition nearest_decimal (q : Q) (n k : Z) : Z := rne (q * Qpower 10 (k - n)).

(** The least [k] up to 17 whose nearest decimal reads back as [q]: the digits, their
    number and the exponent, which a carry into a new digit increases. *)
Fixpoint shortest (q : Q) (n : Z) (k : Z) (fuel : nat) : Z * Z * Z :=
  let s := nearest_decimal q n k in
  let found := if s =? 10 ^ k then (1, 1, n + 1) else (s, k, n) in
  match fuel with
  | O => found
  | S fuel => if num_eqb (rnd (inject_Z s * Qpower 10 (n - k))) (Fin q) then found else shortest q n (k + 1) fuel
  end.

Definition zeros (n : Z) : list ascii := repeat "0"%char (Z.to_nat n).

(** [k] digits with the decimal point after the first [n] (Number::toString). *)
Definition layout (s k n : Z) : list ascii :=
  let ds := print_Z s in
  if (k <=? n) && (n <=? 21) then ds ++ zeros (n - k)
  else if (0 <? n) && (n <=? 21) then take (Z.to_nat n) ds ++ "."%char :: drop (Z.to_nat n) ds
  else if (-6 <? n) && (n <=? 0) then "0"%char :: "."%char :: zeros (- n) ++ ds
  else
    let e := n - 1 in
    let tail := "e"%char :: (if e <? 0 then "-"%char else "+"%char) :: print_Z (Z.abs e) in
    match ds with
    | [d] => d :: tail
    | ds => take 1 ds ++ "."%char :: drop 1 ds ++ tail
    end.

Definition print_pos (q : Q) : list ascii :=
  if is_integer (Fin q) && (Qfloor q <=? 2 ^ 53) then print_Z (Qfloor q)
  else let '(s, k, n) := shortest q (decimal_exponent q) 1 16 in layout s k n.

Definition num_to_string (x : num) : string :=
  match x with
  | NaN => "NaN"
  | PInf => "Infinity"
  | NInf => "-Infinity"
  | Fin q =>
      if Qle_bool 0 q then text (if Qle_bool q 0 then ["0"%char] else print_pos q)
      else text ("-"%char :: print_pos (- q))
  end.

Example numbers_print :
  map num_to_string [num_of_Z 0; num_of_Z (-120); num_of_Z 4294967295; lit (1 # 2); lit (-1 # 3); lit (1 # 1000);
    lit (1 # 10000000); lit (Qpower 10 21); lit (Qpower 2 60); lit (Qpower 10 22 * 15); lit (1234567 # 100)] =
  ["0"; "-120"; "4294967295"; "0.5"; "-0.3333333333333333"; "0.001"; "1e-7"; "1e+21"; "1152921504606847000"; "1.5e+23";
   "12345.67"].
Proof. vm_compute. reflexivity. Qed.

(** ** Values *)

(** [String(v)] and [`${v}`]; an array joins its elements with commas. *)
Fixpoint js_to_string (v : jsval) : string :=
  match v with
  | JUndef => "undefined"
  | JNull => "null"
  | JBool b => if b then "true" else "false"
  | JNum n => num_to_string n
  | JStr s => s
  | JArr l => String.concat "," (map (λ x, if is_nullish x then "" else js_to_string x) l)
  | JObj _ => "[object Object]"
  end.

(** [l.join(sep)]. *)
Definition join (sep : string) (l : list jsval) : string :=
  String.concat sep (map (λ x, if is_nullish x then "" else js_to_string x) l).

(** ** Taking strings apart *)

(** [s.split(' ')]: a cut at every space. *)
Fixpoint split_at_space (cur l : list ascii) : list (list ascii) :=
  match l with
  | [] => [rev cur]
  | c :: l => if Ascii.eqb c " " then rev cur :: split_at_space [] l else split_at_space (c :: cur) l
  end.

(** [s.split(/\s+/)]: a cut at every run of white space. *)
Fixpoint split_at_runs (gap : bool) (cur l : list ascii) : list (list ascii) :=
  match l with
  | [] => [rev cur]
  | c :: l =>
      if is_space c then if gap then split_at_runs true [] l else rev cur :: split_at_runs true [] l
      else split_at_runs false (c :: cur) l
  end.

Definition split_space (s : string) : list string := map text (split_at_space [] (chars s)).
Definition split_ws (s : string) : list string := map text (split_at_runs false [] (chars s)).

(** [parts[i]], [undefined] when there is none. *)
Definition part (parts : list string) (i : nat) : jsval := match parts !! i with Some s => JStr s | None => JUndef end.

(** [s.trim()]. *)
Definition js_trim (s : string) : string := text (trim (chars s)).

Fixpoint starts_with (p l : list ascii) : bool :=
  match p, l with
  | [], _ => true
  | c :: p, d :: l => Ascii.eqb c d && starts_with p l
  | _, [] => false
  end.

(** [s.includes(t)]. *)
Fixpoint includes_at (p l : list ascii) : bool :=
  starts_with p l || match l with [] => false | _ :: l => includes_at p l end.
Definition includes (s t : string) : bool := includes_at (chars t) (chars s).

(** [s.replace(/old/g, new)]; [skip] characters of a match are left to pass over. *)
Fixpoint replace_from (old new : list ascii) (skip : nat) (l : list ascii) : list ascii :=
  match l with
  | [] => []
  | c :: l' =>
      match skip with
      | S skip => replace_from old new skip l'
      | O => if starts_with old l then new ++ replace_from old new (pred (length old)) l' else c :: replace_from old new O l'
      end
  end.
Definition replace_all (s old new : string) : string := text (replace_from (chars old) (chars new) O (chars s)).

Example strings_apart :
  split_space "a  b" = ["a"; ""; "b"] ∧ split_ws " 12   34" = [""; "12"; "34"] ∧ js_trim "  x y " = "x y" ∧
  includes "100 101" "10" = true ∧ replace_all "send 1;send" "send" "recv" = "recv 1;recv".
Proof. vm_compute. split_and!; reflexivity. Qed.

(** ** Safe integers read back *)

Lemma code_digit_char d : 0 ≤ d < 10 → code (digit_char d) = 48 + d.
Proof. intros Hd. unfold code, digit_char. rewrite nat_ascii_embedding by lia. lia. Qed.

Lemma digit_digit_char d : 0 ≤ d < 10 → digit 10 (digit_char d) = Some d.
Proof.
  intros Hd. unfold digit. rewrite code_digit_char by done.
  assert ((48 <=? 48 + d) && (48 + d <=? 57) = true) as -> by (apply andb_true_intro; split; apply Z.leb_le; lia).
  assert (48 + d - 48 = d) as -> by lia. assert ((d <? 10) = true) as -> by (apply Z.ltb_lt; lia). done.
Qed.

Lemma print_digits_read fuel z acc : (0 < fuel)%nat → 0 ≤ z < 2 ^ Z.of_nat fuel →
  ∃ k, (0 < k)%nat ∧ ∀ a n, digits 10 a n (print_digits fuel z acc) = digits 10 (a * 10 ^ Z.of_nat k + z) (n + k) acc.
Proof.
  revert z acc. induction fuel as [|fuel IH]; intros z acc Hf Hz; [lia|].
  pose proof (Z.mod_pos_bound z 10 ltac:(lia)) as Hm. pose proof (Z.div_mod z 10 ltac:(lia)) as Hdm.
  cbn [print_digits]. destruct (z <? 10) eqn:Ez.
  - apply Z.ltb_lt in Ez. exists 1%nat. split; [lia|]. intros a n. cbn [digits]. rewrite digit_digit_char by lia.
    rewrite Z.mod_small by lia. rewrite Nat.add_1_r. done.
  - apply Z.ltb_ge in Ez. rewrite Nat2Z.inj_succ, Z.pow_succ_r in Hz by lia.
    destruct (IH (z / 10) (digit_char (z mod 10) :: acc)) as (k & Hk & E).
    { destruct fuel; [cbn in Hz|]; lia. }
    { split; [apply Z.div_pos; lia|]. apply Z.div_lt_upper_bound; lia. }
    exists (S k). split; [lia|]. intros a n. rewrite E. cbn [digits]. rewrite digit_digit_char by done.
    rewrite Nat2Z.inj_succ, Z.pow_succ_r by lia. f_equal; lia.
Qed.

Lemma print_Z_read z : 0 ≤ z → ∃ k, (0 < k)%nat ∧ digits 10 0 0 (print_Z z) = (z, k, []).
Proof.
  intros Hz. unfold print_Z. destruct (print_digits_read (S (Z.to_nat (Z.log2 z))) z []) as (k & Hk & E); [lia| |].
  { pose proof (Z.log2_nonneg z). split; [done|]. rewrite Nat2Z.inj_succ, Z2Nat.id by done.
    destruct (decide (z = 0)) as [-> | Hne]; [done|]. apply Z.log2_spec. lia. }
  exists k. split; [done|]. rewrite E. done.
Qed.

Lemma print_digits_digits fuel z acc : 0 ≤ z → ∃ ds, print_digits fuel z acc = ds ++ acc ∧
  Forall (λ c, ∃ d, 0 ≤ d < 10 ∧ c = digit_char d) ds.
Proof.
  revert z acc. induction fuel as [|fuel IH]; intros z acc Hz; [by exists []|].
  pose proof (Z.mod_pos_bound z 10 ltac:(lia)) as Hm. cbn [print_digits].
  assert (∃ d, 0 ≤ d < 10 ∧ digit_char (z mod 10) = digit_char d) as Hd by eauto.
  destruct (z <? 10); [exists [digit_char (z mod 10)]; by repeat constructor|].
  destruct (IH (z / 10) (digit_char (z mod 10) :: acc)) as (ds & E & Hds); [apply Z.div_pos; lia|].
  exists (ds ++ [digit_char (z mod 10)]). rewrite E, <-app_assoc. split; [done|]. apply Forall_app. by repeat constructor.
Qed.

Definition is_digit (c : ascii) : Prop := ∃ d, 0 ≤ d < 10 ∧ c = digit_char d.

Lemma print_Z_digits z : 0 ≤ z → Forall is_digit (print_Z z).
Proof. intros Hz. unfold print_Z. destruct (print_digits_digits (S (Z.to_nat (Z.log2 z))) z [] Hz) as (ds & -> & H). by rewrite app_nil_r. Qed.

Lemma digit_code c : is_digit c → 48 ≤ code c ≤ 57.
Proof. intros (d & Hd & ->). rewrite code_digit_char; lia. Qed.

Lemma code_lt c : 0 ≤ code c < 256.
Proof. unfold code. pose proof (nat_ascii_bounded c). lia. Qed.

Lemma digit_not_space c : is_digit c → is_space c = false.
Proof.
  intros H%digit_code. unfold is_space. apply orb_false_iff. split; [|apply Z.eqb_neq; lia].
  apply andb_false_iff. right. apply Z.leb_gt. lia.
Qed.

Lemma trim_id l : Forall (λ c, is_space c = false) l → trim l = l.
Proof.
  intros H. assert (∀ l, Forall (λ c, is_space c = false) l → drop_spaces l = l) as Hd.
  { intros [|c l'] Hl; [done|]. cbn. inversion_clear Hl as [|?? Hc]. by rewrite Hc. }
  unfold trim. rewrite (Hd l) by done. rewrite (Hd (rev l)) by by apply Forall_rev. apply rev_involutive.
Qed.

Lemma is_digit_elem c : is_digit c → c ∈ chars "0123456789".
Proof.
  intros (d & Hd & ->).
  assert (d = 0 ∨ d = 1 ∨ d = 2 ∨ d = 3 ∨ d = 4 ∨ d = 5 ∨ d = 6 ∨ d = 7 ∨ d = 8 ∨ d = 9) as H by lia.
  repeat (destruct H as [-> | H]; [by apply (bool_decide_unpack _)|]). subst. by apply (bool_decide_unpack _).
Qed.

Ltac digit_cases H :=
  repeat (apply elem_of_cons in H as [-> | H]); [.. | by apply elem_of_nil in H].

(** A literal of digits only is decimal. *)
Lemma digits_literal l : Forall is_digit l → l ≠ [] → string_to_number (text l) = match decimal l with Some q => rnd q | None => NaN end.
Proof.
  intros Hl Hne. unfold string_to_number. rewrite String.list_ascii_of_string_of_list_ascii.
  rewrite trim_id by (eapply Forall_impl; [exact Hl|]; apply digit_not_space).
  destruct l as [|c l]; [done|]. inversion_clear Hl as [|?? Hc Hl'].
  assert (c :: l ≠ chars "Infinity") as Hi.
  { intros [= -> ->]. apply digit_code in Hc. cbv in Hc. by destruct Hc. }
  apply is_digit_elem in Hc. cbn in Hc.
  assert (∀ c' l', l = c' :: l' → c' ∈ chars "0123456789") as H2 by (intros c' l' ->; inversion_clear Hl'; by apply is_digit_elem).
  digit_cases Hc; cbn -[decide decimal rnd chars] in *; try (by rewrite decide_False).
  destruct l as [|c' l']; cbn -[decide decimal rnd chars] in *; [by rewrite decide_False|].
  specialize (H2 _ _ eq_refl). cbn in H2. digit_cases H2; cbn -[decide decimal rnd chars] in *; by rewrite decide_False.
Qed.

(** What the decimal of a natural number reads as. *)
Lemma print_Z_to_number z : 0 ≤ z ≤ 2 ^ 53 → string_to_number (text (print_Z z)) = num_of_Z z.
Proof.
  intros Hz. destruct (print_Z_read z) as (k & Hk & E); [lia|].
  rewrite digits_literal; [|apply print_Z_digits; lia|intros H; rewrite H in E; cbn in E; simplify_eq; lia].
  unfold decimal. rewrite E. destruct k as [|k]; [lia|]. cbn -[rnd Qpower].
  rewrite <-rnd_Z by lia. apply rnd_proper. change (0 - 0) with 0. change (10 ^ 0)%Q with 1%Q. ring.
Qed.

Lemma print_safe z : 0 ≤ z ≤ 2 ^ 53 → num_to_string (num_of_Z z) = text (print_Z z).
Proof.
  intros Hz. unfold num_to_string, num_of_Z.
  assert (Qle_bool 0 (inject_Z z) = true) as -> by (apply Qle_bool_iff; unfold Qle; cbn; lia).
  destruct (Qle_bool (inject_Z z) 0) eqn:E.
  - apply Qle_bool_iff in E. unfold Qle in E. cbn in E. by assert (z = 0) as -> by lia.
  - unfold print_pos. fold (num_of_Z z). rewrite num_of_Z_integer, Qfloor_Z. by assert ((z <=? 2 ^ 53) = true) as -> by (apply Z.leb_le; lia).
Qed.

(** Printing a safe integer and reading it back. *)
Lemma safe_integer_roundtrip z : 0 ≤ z ≤ 2 ^ 53 → string_to_number (num_to_string (num_of_Z z)) = num_of_Z z.
Proof. intros Hz. rewrite print_safe by done. by apply print_Z_to_number. Qed.

(** ** Two words *)

Lemma text_app a b : text (a ++ b) = text a +:+ text b.
Proof. induction a as [|c a IH]; [done|]. cbn. by rewrite IH. Qed.

Lemma chars_app a b : chars (a +:+ b) = chars a ++ chars b.
Proof. induction a as [|c a IH]; [done|]. change (String c a +:+ b) with (String c (a +:+ b)). cbn. by rewrite IH. Qed.

Lemma split_runs_word cur w rest : Forall (λ c, is_space c = false) w →
  split_at_runs false cur (w ++ rest) = split_at_runs false (rev w ++ cur) rest.
Proof.
  revert cur. induction w as [|c w IH]; intros cur Hw; [done|]. inversion_clear Hw as [|?? Hc Hw']. cbn.
  rewrite Hc, IH by done. by rewrite <-app_assoc.
Qed.

(** [`${a} ${b}`.split(/\s+/)], for words without white space. *)
Lemma split_ws_pair a b : Forall (λ c, is_space c = false) (chars a) → Forall (λ c, is_space c = false) (chars b) →
  chars b ≠ [] → split_ws (a +:+ " " +:+ b) = [a; b].
Proof.
  intros Ha Hb Hne. unfold split_ws. rewrite !chars_app, split_runs_word by done. cbn.
  destruct (chars b) as [|c w] eqn:Eb; [done|]. inversion_clear Hb as [|?? Hc Hw]. cbn. rewrite Hc.
  rewrite <-(app_nil_r w), split_runs_word by done. cbn.
  rewrite !app_nil_r, rev_app_distr, !rev_involutive.
  change (is_space " ") with true. cbn [rev app map]. rewrite <-Eb. by rewrite !String.string_of_list_ascii_of_string.
Qed.

Lemma print_safe_word z : 0 ≤ z ≤ 2 ^ 53 → Forall (λ c, is_space c = false) (chars (num_to_string (num_of_Z z))) ∧
  chars (num_to_string (num_of_Z z)) ≠ [].
Proof.
  intros Hz. rewrite print_safe, String.list_ascii_of_string_of_list_ascii by done. split.
  - eapply Forall_impl; [apply print_Z_digits; lia|]. apply digit_not_space.
  - destruct (print_Z_read z) as (k & Hk & E); [lia|]. intros H. rewrite H in E. cbn in E. simplify_eq.
Qed.

Lemma split_space_word cur w rest : Forall (λ c, is_space c = false) w →
  split_at_space cur (w ++ rest) = split_at_space (rev w ++ cur) rest.
Proof.
  revert cur. induction w as [|c w IH]; intros cur Hw; [done|]. inversion_clear Hw as [|?? Hc Hw']. cbn.
  destruct (Ascii.eqb_spec c " ") as [->|_]; [done|]. rewrite IH by done. by rewrite <-app_assoc.
Qed.

(** [words.join(' ').split(' ')], for words without white space. *)
Lemma split_space_words ws : ws ≠ [] → Forall (λ w, Forall (λ c, is_space c = false) (chars w)) ws →
  split_space (String.concat " " ws) = ws.
Proof.
  induction ws as [|w ws IH]; intros Hne Hw; [done|]. inversion_clear Hw as [|?? Hc Hws]. unfold split_space in *.
  destruct ws as [|w' ws].
  - cbn [String.concat]. rewrite <-(app_nil_r (chars w)), split_space_word by done. cbn.
    by rewrite app_nil_r, rev_involutive, String.string_of_list_ascii_of_string.
  - change (String.concat " " (w :: w' :: ws)) with (w +:+ " " +:+ String.concat " " (w' :: ws)).
    rewrite !chars_app, split_space_word by done. cbn [chars String.list_ascii_of_string app split_at_space].
    rewrite Ascii.eqb_refl. cbn [map]. rewrite IH by done.
    by rewrite app_nil_r, rev_involutive, String.string_of_list_ascii_of_string.
Qed.

(** The two numbers of an SSRC group read back. *)
Lemma safe_pair_roundtrip y z : 0 ≤ y ≤ 2 ^ 53 → 0 ≤ z ≤ 2 ^ 53 →
  map string_to_number (split_ws (num_to_string (num_of_Z y) +:+ " " +:+ num_to_string (num_of_Z z))) =
  [num_of_Z y; num_of_Z z].
Proof.
  intros Hy Hz. destruct (print_safe_word y Hy) as [Hy1 _], (print_safe_word z Hz) as [Hz1 Hz2].
  rewrite split_ws_pair by done. cbn [map]. by rewrite !safe_integer_roundtrip.
Qed.
