(* ===== verification/SdpUtils.v ===== *)
(** * Reading session descriptions (src/client/lib/handlers/sdp/*Utils.js,
    src/client/lib/handlers/ortc/utils.js)

    What the handlers take from a parsed local description: RTP capabilities, DTLS
    parameters, the encodings of a media section, and the legacy simulcast lines
    they add to it.  Parsed descriptions are dynamic values.  The sdp-transform
    package is outside: its parameter parser is a parameter.  In-place changes of
    an object are functions that return the changed object. *)

From S2P Require Import Prelude JsNum JsVal JsConv JsString OrtcValidate Ortc.
Local Open Scope string_scope.
Local Open Scope list_scope.
Local Open Scope Z_scope.

(** ** Language helpers *)

(** Equality of keys of a [Map] and members of a [Set]. *)
Definition same_value (a b : jsval) : bool :=
  match a, b with
  | JNum NaN, JNum NaN => true
  | _, _ => strict_eq a b
  end.

(** A [Map] with dynamic keys. *)
Definition kmap := list (jsval * jsval).

Fixpoint kget (m : kmap) (k : jsval) : option jsval :=
  match m with
  | [] => None
  | (k', v) :: m => if same_value k' k then Some v else kget m k
  end.

Fixpoint kset (m : kmap) (k v : jsval) : kmap :=
  match m with
  | [] => [(k, v)]
  | (k', v') :: m => if same_value k' k then (k', v) :: m else (k', v') :: kset m k v
  end.

(** A [Set] with dynamic members. *)
Definition has (s : list jsval) (x : jsval) : bool := existsb (same_value x) s.
Definition kadd (s : list jsval) (x : jsval) : list jsval := if has s x then s else s ++ [x].
Definition kremove (s : list jsval) (x : jsval) : list jsval := List.filter (λ y, negb (same_value x y)) s.

(** A loop whose body may throw. *)
Fixpoint fold_ok {A B} (f : A → B → outcome A) (a : A) (l : list B) : outcome A :=
  match l with
  | [] => Ok a
  | x :: l => a ← f a x; fold_ok f a l
  end.

(** [v || []] as an array. *)
Definition list_or_empty (v : jsval) : outcome (list jsval) := if truthy v then iterate v else Ok [].

Definition elements (v : jsval) : list jsval := match v with JArr l => l | _ => [] end.
Definition entries_of (v : jsval) : list (string * jsval) := match v with JObj o => o | _ => [] end.

(** [v.key.push(x)]. *)
Definition push_to (v : jsval) (key : string) (x : jsval) : jsval := js_set v key (JArr (elements (js_get v key) ++ [x])).

(** [s.split(sep)] on a value. *)
Definition split_value (split : string → list string) (v : jsval) : outcome (list string) :=
  match v with JStr s => Ok (split s) | _ => Throw "split is not a function" end.

(** The [key=value] list of a format parameters line: the loop that appends to
    [fmtp.config]. *)
Definition append_parameter (config : string) (e : string * jsval) : string :=
  (if String.eqb config "" then "" else config +:+ ";") +:+ e.1 +:+ "=" +:+ js_to_string e.2.
Definition fmtp_config (parameters : jsval) : string := foldl append_parameter "" (entries_of parameters).

(** ** commonUtils.js *)

Section Common.
Context (parseParams : jsval → outcome jsval).

Definition rtp_codec (kind : string) (rtp : jsval) : jsval :=
  JObj [("kind", JStr kind); ("mimeType", JStr (kind +:+ "/" +:+ js_to_string (js_get rtp "codec")));
        ("preferredPayloadType", js_get rtp "payload"); ("clockRate", js_get rtp "rate");
        ("channels", js_get rtp "encoding"); ("parameters", JObj []); ("rtcpFeedback", JArr [])].

Definition add_rtp (kind : string) (codecs : kmap) (rtp : jsval) : outcome kmap :=
  payload ← get_prop rtp "payload"; Ok (kset codecs payload (rtp_codec kind rtp)).

(** [profile-level-id] as a string. *)
Definition fix_profile (parameters : jsval) : jsval :=
  if js_has parameters "profile-level-id"
  then js_set parameters "profile-level-id" (JStr (js_to_string (js_get parameters "profile-level-id")))
  else parameters.

Definition add_fmtp (codecs : kmap) (fmtp : jsval) : outcome kmap :=
  config ← get_prop fmtp "config";
  parameters ← parseParams config;
  let payload := js_get fmtp "payload" in
  match kget codecs payload with
  | None => Ok codecs
  | Some codec => Ok (kset codecs payload (js_set codec "parameters" (fix_profile parameters)))
  end.

Definition feedback_of (fb : jsval) : jsval :=
  JObj (("type", js_get fb "type") ::
        if truthy (js_get fb "subtype") then [("parameter", js_get fb "subtype")] else []).

Definition add_feedback (kind : string) (codecs : kmap) (fb : jsval) : outcome kmap :=
  payload ← get_prop fb "payload";
  if is_str payload "*" then
    Ok (map (λ e, if is_str (js_get e.2 "kind") kind && negb (isRtxCodec e.2)
                  then (e.1, push_to e.2 "rtcpFeedback" (feedback_of fb)) else e) codecs)
  else
    match kget codecs payload with
    | None => Ok codecs
    | Some codec => Ok (kset codecs payload (push_to codec "rtcpFeedback" (feedback_of fb)))
    end.

Definition add_extension (kind : string) (exts : list jsval) (ext : jsval) : outcome (list jsval) :=
  encrypted ← get_prop ext "encrypt-uri";
  Ok (if truthy encrypted then exts
      else exts ++ [JObj [("kind", JStr kind); ("uri", js_get ext "uri"); ("preferredId", js_get ext "value")]]).

(** The state of the loop over the media sections. *)
Record extraction := {
  xt_codecs : kmap;
  xt_extensions : list jsval;
  xt_audio : bool;
  xt_video : bool;
}.

(** The body for the first section of a kind. *)
Definition read_section (kind : string) (x : extraction) (m : jsval) : outcome extraction :=
  rtps ← iterate (js_get m "rtp");
  codecs ← fold_ok (add_rtp kind) (xt_codecs x) rtps;
  fmtps ← list_or_empty (js_get m "fmtp");
  codecs ← fold_ok add_fmtp codecs fmtps;
  fbs ← list_or_empty (js_get m "rtcpFb");
  codecs ← fold_ok (add_feedback kind) codecs fbs;
  es ← list_or_empty (js_get m "ext");
  exts ← fold_ok (add_extension kind) (xt_extensions x) es;
  Ok {| xt_codecs := codecs; xt_extensions := exts; xt_audio := xt_audio x || String.eqb kind "audio";
        xt_video := xt_video x || String.eqb kind "video" |}.

Definition add_section (x : extraction) (m : jsval) : outcome extraction :=
  kind ← get_prop m "type";
  if is_str kind "audio" then if xt_audio x then Ok x else read_section "audio" x m
  else if is_str kind "video" then if xt_video x then Ok x else read_section "video" x m
  else Ok x.

Definition extractRtpCapabilities (sdpObject : jsval) : outcome jsval :=
  media ← iterate (js_get sdpObject "media");
  x ← fold_ok add_section {| xt_codecs := []; xt_extensions := []; xt_audio := false; xt_video := false |} media;
  Ok (JObj [("codecs", JArr (xt_codecs x).*2); ("headerExtensions", JArr (xt_extensions x))]).

Definition setup_role (setup : jsval) : jsval :=
  if is_str setup "active" then JStr "client" else if is_str setup "passive" then JStr "server"
  else if is_str setup "actpass" then JStr "auto" else JUndef.

Definition extractDtlsParameters (sdpObject : jsval) : outcome jsval :=
  let setup := js_get sdpObject "setup" in
  let fingerprint := js_get sdpObject "fingerprint" in
  found ← (if negb (truthy setup) || negb (truthy fingerprint) then
             media ← list_or_empty (js_get sdpObject "media");
             find_ok (λ m, port ← get_prop m "port"; Ok (negb (strict_eq port (js_int 0)))) media
           else Ok None);
  let '(setup, fingerprint) :=
    match found with
    | Some m => (js_coalesce setup (js_get m "setup"), js_coalesce fingerprint (js_get m "fingerprint"))
    | None => (setup, fingerprint)
    end in
  _ ← throw_if (negb (truthy setup)) "no a=setup found at SDP session or media level";
  _ ← throw_if (negb (truthy fingerprint)) "no a=fingerprint found at SDP session or media level";
  Ok (JObj [("role", setup_role setup);
            ("fingerprints", JArr [JObj [("algorithm", js_get fingerprint "type"); ("value", js_get fingerprint "hash")]])]).

Definition has_attribute (name : string) (line : jsval) : outcome bool :=
  a ← get_prop line "attribute"; Ok (is_str a name).

Definition getCname (offerMediaObject : jsval) : outcome jsval :=
  lines ← list_or_empty (js_get offerMediaObject "ssrcs");
  line ← find_ok (has_attribute "cname") lines;
  Ok match line with Some line => js_get line "value" | None => JStr "" end.

(** The first element with this payload type, changed in place. *)
Fixpoint update_payload (payload : jsval) (f : jsval → jsval) (l : list jsval) : list jsval :=
  match l with
  | [] => []
  | x :: l => if strict_eq (js_get x "payload") payload then f x :: l else x :: update_payload payload f l
  end.

Definition payload_is (payload x : jsval) : outcome bool := p ← get_prop x "payload"; Ok (strict_eq p payload).

(** One codec of the offer. *)
Definition apply_codec (answer codec : jsval) : outcome jsval :=
  mime ← lower_mime codec;
  if negb (String.eqb mime "audio/opus") then Ok answer
  else
    let payload := js_get codec "payloadType" in
    lines ← get_prop answer "rtp";
    rtps ← list_or_empty lines;
    rtp ← find_ok (payload_is payload) rtps;
    match rtp with
    | None => Ok answer
    | Some _ =>
        fmtps ← list_or_empty (js_get answer "fmtp");
        found ← find_ok (payload_is payload) fmtps;
        let '(fmtp, fmtps) :=
          match found with
          | Some fmtp => (fmtp, fmtps)
          | None => let fmtp := JObj [("payload", payload); ("config", JStr "")] in (fmtp, fmtps ++ [fmtp])
          end in
        parameters ← parseParams (js_get fmtp "config");
        spropStereo ← get_prop (js_get codec "parameters") "sprop-stereo";
        let parameters :=
          if is_undefined spropStereo then parameters
          else js_set parameters "stereo" (js_int (if truthy spropStereo then 1 else 0)) in
        Ok (js_set answer "fmtp"
              (JArr (update_payload payload (λ f, js_set f "config" (JStr (fmtp_config parameters))) fmtps)))
    end.

Definition applyCodecParameters (offerRtpParameters answerMediaObject : jsval) : outcome jsval :=
  codecs ← iterate (js_get offerRtpParameters "codecs"); fold_ok apply_codec answerMediaObject codecs.
End Common.

(** ** Encodings of a media section *)

(** The FID groups, then the SSRCs no group has used: the [Map] from media to RTX
    SSRC.  Shared by the unified plan and plan B. *)
Definition add_group (st : list jsval * kmap) (line : jsval) : outcome (list jsval * kmap) :=
  semantics ← get_prop line "semantics";
  if negb (is_str semantics "FID") then Ok st
  else
    parts ← split_value split_ws (js_get line "ssrcs");
    let ssrc := JNum (js_number (part parts 0)) in
    let rtxSsrc := JNum (js_number (part parts 1)) in
    let '(ssrcs, rtx) := st in
    Ok (if has ssrcs ssrc then (kremove (kremove ssrcs ssrc) rtxSsrc, kset rtx ssrc rtxSsrc) else st).

Definition encoding_of (e : jsval * jsval) : jsval :=
  JObj (("ssrc", e.1) :: if truthy e.2 then [("rtx", JObj [("ssrc", e.2)])] else []).

Definition pair_ssrcs (ssrcs : list jsval) (offerMediaObject : jsval) : outcome (list jsval) :=
  groups ← list_or_empty (js_get offerMediaObject "ssrcGroups");
  '(ssrcs, rtx) ← fold_ok add_group (ssrcs, []) groups;
  Ok (map encoding_of (foldl (λ m ssrc, kset m ssrc JNull) rtx ssrcs)).

Module UnifiedPlan.
(** unifiedPlanUtils.js *)
Definition collect_ssrc (ssrcs : list jsval) (line : jsval) : outcome (list jsval) :=
  ssrc ← get_prop line "id"; Ok (kadd ssrcs ssrc).

Definition getRtpEncodings (offerMediaObject : jsval) : outcome (list jsval) :=
  lines ← list_or_empty (js_get offerMediaObject "ssrcs");
  ssrcs ← fold_ok collect_ssrc [] lines;
  _ ← throw_if (match ssrcs with [] => true | _ => false end) "no a=ssrc lines found";
  pair_ssrcs ssrcs offerMediaObject.
End UnifiedPlan.

Module PlanB.
(** planBUtils.js *)
Definition msid_track (line : jsval) : outcome jsval :=
  parts ← split_value split_space (js_get line "value"); Ok (part parts 1).

(** An [msid] line of this track. *)
Definition is_track_line (trackId : string) (line : jsval) : outcome bool :=
  msid ← has_attribute "msid" line;
  if (msid : bool) then t ← msid_track line; Ok (is_str t trackId) else Ok false.

Definition collect_ssrc (trackId : string) (ssrcs : list jsval) (line : jsval) : outcome (list jsval) :=
  b ← is_track_line trackId line; Ok (if (b : bool) then kadd ssrcs (js_get line "id") else ssrcs).

Definition getRtpEncodings (offerMediaObject : jsval) (trackId : string) : outcome (list jsval) :=
  lines ← list_or_empty (js_get offerMediaObject "ssrcs");
  ssrcs ← fold_ok (collect_ssrc trackId) [] lines;
  _ ← throw_if (match ssrcs with [] => true | _ => false end) "a=ssrc line with msid information not found";
  pair_ssrcs ssrcs offerMediaObject.
End PlanB.

(** ** Legacy simulcast *)

(** The RTX SSRC of the first FID group of an SSRC. *)
Definition group_of (ssrc : jsval) (line : jsval) : outcome bool :=
  semantics ← get_prop line "semantics";
  if negb (is_str semantics "FID") then Ok false
  else parts ← split_value split_ws (js_get line "ssrcs"); Ok (strict_eq (JNum (js_number (part parts 0))) ssrc).

Definition rtx_of (ssrc : jsval) (groups : list jsval) : outcome jsval :=
  line ← find_ok (group_of ssrc) groups;
  match line with
  | None => Ok JUndef
  | Some line => parts ← split_value split_ws (js_get line "ssrcs"); Ok (JNum (js_number (part parts 1)))
  end.

(** [v + i] on an SSRC. *)
Definition ssrc_plus (v : jsval) (i : nat) : jsval :=
  match v with
  | JStr s => JStr (s +:+ num_to_string (num_of_Z (Z.of_nat i)))
  | v => JNum (js_number v + num_of_Z (Z.of_nat i))%num
  end.

Definition stream_ssrcs (firstSsrc : jsval) (numStreams : nat) : list jsval := map (ssrc_plus firstSsrc) (seq 0 numStreams).
Definition stream_rtxSsrcs (firstRtxSsrc : jsval) (numStreams : nat) : list jsval :=
  if truthy firstRtxSsrc then stream_ssrcs firstRtxSsrc numStreams else [].

Definition ssrc_line (id : jsval) (attribute : string) (value : jsval) : jsval :=
  JObj [("id", id); ("attribute", JStr attribute); ("value", value)].
Definition ssrc_group (semantics ssrcs : string) : jsval := JObj [("semantics", JStr semantics); ("ssrcs", JStr ssrcs)].

(** The [cname] and [msid] lines of the streams. *)
Definition stream_lines (cname : jsval) (msid : string) (ids : list jsval) : list jsval :=
  flat_map (λ id, [ssrc_line id "cname" cname; ssrc_line id "msid" (JStr msid)]) ids.

Definition fid_group (ssrc rtxSsrc : jsval) : jsval := ssrc_group "FID" (js_to_string ssrc +:+ " " +:+ js_to_string rtxSsrc).
Definition stream_groups (ssrcs rtxSsrcs : list jsval) : list jsval :=
  ssrc_group "SIM" (join " " ssrcs) :: zip_with fid_group ssrcs rtxSsrcs.

(** What the new lines are made from: the first SSRC, its RTX SSRC, the [cname] and
    the [msid]. *)
Record stream_source := {
  sc_ssrc : jsval;
  sc_rtxSsrc : jsval;
  sc_cname : jsval;
  sc_msid : string;
}.

Definition unified_source (lines groups : list jsval) : outcome stream_source :=
  msid ← find_ok (has_attribute "msid") lines;
  match msid with
  | None => Throw "a=ssrc line with msid information not found"
  | Some msidLine =>
      ids ← split_value split_space (js_get msidLine "value");
      let firstSsrc := JNum (js_number (js_get msidLine "id")) in
      firstRtxSsrc ← rtx_of firstSsrc groups;
      cname ← find_ok (has_attribute "cname") lines;
      match cname with
      | None => Throw "a=ssrc line with cname information not found"
      | Some cnameLine =>
          Ok {| sc_ssrc := firstSsrc; sc_rtxSsrc := firstRtxSsrc; sc_cname := js_get cnameLine "value";
                sc_msid := js_to_string (part ids 0) +:+ " " +:+ js_to_string (part ids 1) |}
      end
  end.

Definition plan_b_source (trackId : string) (lines groups : list jsval) : outcome stream_source :=
  msid ← find_ok (PlanB.is_track_line trackId) lines;
  match msid with
  | None => Throw "a=ssrc line with msid information not found"
  | Some msidLine =>
      ids ← split_value split_space (js_get msidLine "value");
      let firstSsrc := js_get msidLine "id" in
      firstRtxSsrc ← rtx_of firstSsrc groups;
      cname ← find_ok (λ line, b ← has_attribute "cname" line; Ok (b && strict_eq (js_get line "id") firstSsrc)) lines;
      match cname with
      | None => Throw "a=ssrc line with cname information not found"
      | Some cnameLine =>
          Ok {| sc_ssrc := firstSsrc; sc_rtxSsrc := firstRtxSsrc; sc_cname := js_get cnameLine "value";
                sc_msid := js_to_string (part ids 0) +:+ " " +:+ trackId |}
      end
  end.

(** The lines and groups put behind [lines] and [groups]. *)
Definition with_streams (offer : jsval) (lines groups : list jsval) (src : stream_source) (numStreams : nat) : jsval :=
  let ssrcs := stream_ssrcs (sc_ssrc src) numStreams in
  let rtxSsrcs := stream_rtxSsrcs (sc_rtxSsrc src) numStreams in
  js_set (js_set offer "ssrcGroups" (JArr (groups ++ stream_groups ssrcs rtxSsrcs)))
    "ssrcs" (JArr (lines ++ stream_lines (sc_cname src) (sc_msid src) ssrcs ++
                   stream_lines (sc_cname src) (sc_msid src) rtxSsrcs)).

(** The unified plan replaces the lines and groups of the section. *)
Definition UnifiedPlan_addLegacySimulcast (offerMediaObject : jsval) (numStreams : nat) : outcome jsval :=
  _ ← throw_if (numStreams <=? 1)%nat "numStreams must be greater than 1";
  lines ← list_or_empty (js_get offerMediaObject "ssrcs");
  groups ← list_or_empty (js_get offerMediaObject "ssrcGroups");
  src ← unified_source lines groups;
  Ok (with_streams offerMediaObject [] [] src numStreams).

(** Plan B adds to them, as the section has lines of other tracks. *)
Definition PlanB_addLegacySimulcast (offerMediaObject : jsval) (trackId : string) (numStreams : nat) : outcome jsval :=
  _ ← throw_if (numStreams <=? 1)%nat "numStreams must be greater than 1";
  lines ← list_or_empty (js_get offerMediaObject "ssrcs");
  groups ← list_or_empty (js_get offerMediaObject "ssrcGroups");
  src ← plan_b_source trackId lines groups;
  Ok (with_streams offerMediaObject lines groups src numStreams).

(** ** plainRtpUtils.js *)

Definition section_of_kind (sdpObject : jsval) (kind : string) : outcome jsval :=
  media ← list_or_empty (js_get sdpObject "media");
  m ← find_ok (λ m, t ← get_prop m "type"; Ok (is_str t kind)) media;
  match m with Some m => Ok m | None => Throw "m= section not found" end.

Definition extractPlainRtpParameters (sdpObject : jsval) (kind : string) : outcome jsval :=
  m ← section_of_kind sdpObject kind;
  let connection := js_or (js_get m "connection") (js_get sdpObject "connection") in
  ip ← get_prop connection "ip";
  Ok (JObj [("ip", ip); ("ipVersion", js_get connection "version"); ("port", js_get m "port")]).

Definition plain_getRtpEncodings (sdpObject : jsval) (kind : string) : outcome (list jsval) :=
  m ← section_of_kind sdpObject kind;
  lines ← list_or_empty (js_get m "ssrcs");
  let ssrc := match lines with line :: _ => js_get line "id" | [] => JNull end in
  Ok (if truthy ssrc then [JObj [("ssrc", ssrc)]] else []).

(** ** ortc/utils.js *)

Definition is_nack (fb : jsval) : outcome bool := t ← get_prop fb "type"; Ok (is_str t "nack" && negb (truthy (js_get fb "parameter"))).

Definition add_nack (codec : jsval) : outcome jsval :=
  mime ← lower_mime codec;
  if negb (String.eqb mime "audio/opus" || String.eqb mime "audio/multiopus") then Ok codec
  else
    fbs ← iterate_or_empty (js_get codec "rtcpFeedback");
    nack ← find_ok is_nack fbs;
    Ok match nack with
       | Some _ => codec
       | None => js_set codec "rtcpFeedback" (JArr (fbs ++ [JObj [("type", JStr "nack")]]))
       end.

Definition addNackSuppportForOpus (rtpCapabilities : jsval) : outcome jsval :=
  codecs ← iterate_or_empty (js_get rtpCapabilities "codecs");
  codecs' ← traverse add_nack codecs;
  Ok (if is_nullish (js_get rtpCapabilities "codecs") then rtpCapabilities else js_set rtpCapabilities "codecs" (JArr codecs')).
