(* ===== verification/SdpProofs.v ===== *)
(** * Properties of the session description utilities *)

From Stdlib Require Import QArith.
From S2P Require Import Prelude JsNum JsVal JsConv JsString OrtcValidate Ortc SdpUtils.
Local Open Scope string_scope.
Local Open Scope list_scope.
Local Open Scope Z_scope.

(** ** Sets of integers *)

Definition ints (zs : list Z) : list jsval := map js_int zs.

Lemma same_value_int a b : same_value (js_int a) (js_int b) = bool_decide (a = b).
Proof.
  change (Qeq_bool (inject_Z a) (inject_Z b) = bool_decide (a = b)). case_bool_decide as H.
  - subst. apply Qeq_bool_refl.
  - destruct (Qeq_bool _ _) eqn:E; [|done]. apply Qeq_bool_eq in E. unfold Qeq in E. cbn in E. lia.
Qed.

Lemma truthy_int z : z ≠ 0 → truthy (js_int z) = true.
Proof.
  intros Hz. cbn. destruct (Qeq_bool _ _) eqn:E; [|done]. apply Qeq_bool_eq in E. unfold Qeq in E. cbn in E. lia.
Qed.

Lemma has_ints l z : has (ints l) (js_int z) = bool_decide (z ∈ l).
Proof.
  unfold has, ints. induction l as [|x l IH]; [done|]. cbn [map existsb]. rewrite same_value_int, IH.
  repeat case_bool_decide; set_solver.
Qed.

Lemma kadd_ints l z : kadd (ints l) (js_int z) = ints (if decide (z ∈ l) then l else l ++ [z]).
Proof. unfold kadd. rewrite has_ints. case_bool_decide; case_decide; try done. unfold ints. by rewrite map_app. Qed.

Lemma kremove_ints l z : kremove (ints l) (js_int z) = ints (filter (λ y, y ≠ z) l).
Proof.
  unfold kremove, ints. induction l as [|x l IH]; [done|]. cbn [map List.filter]. rewrite IH, same_value_int, filter_cons.
  case_bool_decide; case_decide; try done; congruence.
Qed.

Lemma filter_out (l : list Z) z : z ∉ l → filter (λ y, y ≠ z) l = l.
Proof.
  induction l as [|x l IH]; [done|]. intros Hz. rewrite filter_cons, decide_True by set_solver. f_equal. apply IH. set_solver.
Qed.

Lemma kset_fresh m z v : (∀ k, k ∈ m.*1 → ∃ x, k = js_int x ∧ x ≠ z) → kset m (js_int z) v = m ++ [(js_int z, v)].
Proof.
  induction m as [|[k w] m IH]; intros Hm; [done|]. cbn [kset]. destruct (Hm k) as (x & -> & Hx); [set_solver|].
  rewrite same_value_int, bool_decide_eq_false_2 by done. cbn. rewrite IH; [done|]. intros k' Hk'. apply Hm. set_solver.
Qed.

(** ** Legacy simulcast *)

Lemma stream_ssrcs_int s n : 0 ≤ s → s + Z.of_nat n ≤ 2 ^ 53 →
  stream_ssrcs (js_int s) n = ints (map (λ i, s + Z.of_nat i) (seq 0 n)).
Proof.
  intros Hs Hn. unfold stream_ssrcs, ints. rewrite List.map_map. apply List.map_ext_in. intros i Hi%in_seq.
  cbn [ssrc_plus js_int js_number]. unfold js_int. rewrite num_add_Z; [done|]. lia.
Qed.

Lemma fold_ok_cons {A B} (f : A → B → outcome A) a x l a' : f a x = Ok a' → fold_ok f a (x :: l) = fold_ok f a' l.
Proof. cbn. by intros ->. Qed.

Lemma fold_ok_app {A B} (f : A → B → outcome A) a l l' a' : fold_ok f a l = Ok a' → fold_ok f a (l ++ l') = fold_ok f a' l'.
Proof.
  revert a. induction l as [|x l IH]; intros a; cbn; [by intros [= ->]|]. destruct (f a x) as [b|]; cbn; [apply IH|done].
Qed.

(** Each identifier has two lines and counts once. *)
Lemma collect_stream_lines cname msid acc ids : NoDup (acc ++ ids) →
  fold_ok UnifiedPlan.collect_ssrc (ints acc) (stream_lines cname msid (ints ids)) = Ok (ints (acc ++ ids)).
Proof.
  revert acc. induction ids as [|z ids IH]; intros acc Hnd; [by rewrite app_nil_r|].
  assert (z ∉ acc) as Hz by (apply NoDup_app in Hnd as (_ & H & _); intros Ha; apply (H z Ha); set_solver).
  assert (∀ l a v, UnifiedPlan.collect_ssrc (ints l) (ssrc_line (js_int z) a v) = Ok (kadd (ints l) (js_int z))) as Hc by done.
  change (stream_lines cname msid (ints (z :: ids))) with
    (ssrc_line (js_int z) "cname" cname :: ssrc_line (js_int z) "msid" (JStr msid) :: stream_lines cname msid (ints ids)).
  erewrite fold_ok_cons by apply Hc. rewrite kadd_ints, decide_False by done.
  erewrite fold_ok_cons by apply Hc. rewrite kadd_ints, decide_True by set_solver.
  rewrite IH; rewrite <-app_assoc; done.
Qed.

(** A FID group of two safe integers. *)
Lemma add_group_pair ssrcs m x y : 0 ≤ x ≤ 2 ^ 53 → 0 ≤ y ≤ 2 ^ 53 →
  add_group (ssrcs, m) (fid_group (js_int x) (js_int y)) =
  Ok (if has ssrcs (js_int x) then (kremove (kremove ssrcs (js_int x)) (js_int y), kset m (js_int x) (js_int y)) else (ssrcs, m)).
Proof.
  intros Hx Hy. pose proof (safe_pair_roundtrip x y Hx Hy) as E.
  unfold fid_group. cbn [js_to_string js_int].
  assert (∀ str, add_group (ssrcs, m) (ssrc_group "FID" str) =
    let ssrc := JNum (js_number (part (split_ws str) 0)) in let rtx := JNum (js_number (part (split_ws str) 1)) in
    Ok (if has ssrcs ssrc then (kremove (kremove ssrcs ssrc) rtx, kset m ssrc rtx) else (ssrcs, m))) as -> by done.
  destruct (split_ws _) as [|a [|b [|]]]; try done. cbn [map] in E. injection E as Ea Eb. cbn [part lookup list_lookup js_number].
  rewrite Ea, Eb. done.
Qed.

Lemma NoDup_head_notin {A} (x : A) xs ys : NoDup ((x :: xs) ++ ys) → x ∉ xs ∧ x ∉ ys ∧ NoDup (xs ++ ys).
Proof. cbn. rewrite NoDup_cons. set_solver. Qed.

(** The FID groups of distinct streams pair them off. *)
Lemma add_groups xs ys m : length xs = length ys → NoDup (xs ++ ys) →
  Forall (λ z, 0 ≤ z ≤ 2 ^ 53) (xs ++ ys) → (∀ k, k ∈ m.*1 → ∃ z, k = js_int z ∧ z ∉ xs) →
  fold_ok add_group (ints (xs ++ ys), m) (zip_with fid_group (ints xs) (ints ys)) = Ok ([], m ++ zip (ints xs) (ints ys)).
Proof.
  revert ys m. induction xs as [|x xs IH]; intros [|y ys] m Hl Hnd Hb Hm; try done; [cbn; by rewrite app_nil_r|].
  apply NoDup_head_notin in Hnd as (Hx1 & Hx2 & Hnd).
  assert (y ∉ xs ∧ NoDup (xs ++ ys)) as [Hy Hnd'].
  { apply NoDup_app in Hnd as (H1 & H2 & H3). apply NoDup_cons in H3 as [H3 H4]. split; [set_solver|].
    apply NoDup_app. split_and!; [done| |done]. set_solver. }
  apply Forall_app in Hb as [[Hbx Hbxs]%Forall_cons [Hby Hbys]%Forall_cons].
  change (zip_with fid_group (ints (x :: xs)) (ints (y :: ys))) with
    (fid_group (js_int x) (js_int y) :: zip_with fid_group (ints xs) (ints ys)).
  erewrite fold_ok_cons by by apply add_group_pair. rewrite has_ints, bool_decide_eq_true_2 by set_solver.
  rewrite !kremove_ints, kset_fresh by (intros k Hk; destruct (Hm k Hk) as (z & -> & Hz); exists z; set_solver).
  assert (filter (λ z, z ≠ y) (filter (λ z, z ≠ x) ((x :: xs) ++ y :: ys)) = xs ++ ys) as ->.
  { change ((x :: xs) ++ y :: ys) with (x :: (xs ++ y :: ys)). rewrite filter_cons, decide_False by (intros H; by apply H).
    rewrite (filter_out (xs ++ y :: ys) x) by (rewrite elem_of_app; tauto).
    rewrite filter_app, filter_cons, (decide_False (P := y ≠ y)) by (intros H; by apply H).
    apply NoDup_app in Hnd as (_ & _ & [H _]%NoDup_cons). by rewrite !filter_out. }
  rewrite IH; [| |done|by apply Forall_app|].
  - by rewrite <-app_assoc.
  - cbn in Hl. lia.
  - intros k. rewrite fmap_app, elem_of_app. intros [Hk|Hk]; [destruct (Hm k Hk) as (z & -> & Hz); exists z; set_solver|].
    cbn in Hk. exists x. set_solver.
Qed.

Lemma kset_nulls zs m : NoDup zs → (∀ k, k ∈ m.*1 → ∃ z, k = js_int z ∧ z ∉ zs) →
  foldl (λ m ssrc, kset m ssrc JNull) m (ints zs) = m ++ map (λ z, (js_int z, JNull)) zs.
Proof.
  revert m. induction zs as [|z zs IH]; intros m Hnd Hm; [by rewrite app_nil_r|]. apply NoDup_cons in Hnd as [Hz Hnd].
  change (ints (z :: zs)) with (js_int z :: ints zs). cbn [foldl]. rewrite kset_fresh.
  2: { intros k Hk. destruct (Hm k Hk) as (x & -> & Hx). exists x. set_solver. }
  rewrite IH; [by rewrite <-app_assoc|done|]. intros k. rewrite fmap_app, elem_of_app.
  intros [Hk|Hk]; [destruct (Hm k Hk) as (x & -> & Hx); exists x; set_solver|]. cbn in Hk. exists z. set_solver.
Qed.

Definition stream_range (z : Z) (n : nat) : list Z := map (λ i, z + Z.of_nat i) (seq 0 n).

Lemma stream_range_elem z n x : x ∈ stream_range z n ↔ z ≤ x < z + Z.of_nat n.
Proof.
  unfold stream_range. rewrite list_elem_of_In, in_map_iff. setoid_rewrite in_seq. split.
  - intros (i & <- & Hi). lia.
  - intros Hx. exists (Z.to_nat (x - z)). lia.
Qed.

Lemma stream_range_NoDup z n : NoDup (stream_range z n).
Proof. unfold stream_range. rewrite map_fmap. apply NoDup_fmap_2; [intros ???; lia|apply NoDup_seq]. Qed.

(** The encoding of the [i]-th stream. *)
Definition stream_encoding (s : Z) (r : option Z) (i : nat) : jsval :=
  JObj (("ssrc", js_int (s + Z.of_nat i)) ::
        match r with Some r => [("rtx", JObj [("ssrc", js_int (r + Z.of_nat i))])] | None => [] end).

Lemma stream_pairs s r n : 0 < r →
  map encoding_of (zip (ints (stream_range s n)) (ints (stream_range r n))) = map (stream_encoding s (Some r)) (seq 0 n).
Proof.
  intros Hr. unfold ints, stream_range. generalize 0%nat. induction n as [|n IH]; intros k; [done|].
  cbn [seq map zip_with]. rewrite IH. f_equal. unfold encoding_of, stream_encoding. cbn [fst snd].
  by rewrite truthy_int by lia.
Qed.

Lemma pair_streams o s r n : 0 ≤ s → s + Z.of_nat n ≤ 2 ^ 53 →
  js_get (JObj o) "ssrcGroups" = JArr (stream_groups (ints (stream_range s n)) (ints (match r with Some r => stream_range r n | None => [] end))) →
  match r with Some r => 0 < r ∧ r + Z.of_nat n ≤ 2 ^ 53 ∧ (s + Z.of_nat n ≤ r ∨ r + Z.of_nat n ≤ s) | None => True end →
  pair_ssrcs (ints (stream_range s n ++ match r with Some r => stream_range r n | None => [] end)) (JObj o) =
  Ok (map (stream_encoding s r) (seq 0 n)).
Proof.
  intros Hs Hn Hg Hr. unfold pair_ssrcs. rewrite Hg. unfold list_or_empty. cbn [truthy iterate mbind outcome_bind].
  unfold stream_groups. erewrite fold_ok_cons by done. destruct r as [r|].
  - destruct Hr as (Hr0 & Hr1 & Hr2). rewrite add_groups.
    + cbn [mbind outcome_bind foldl app]. f_equal. by apply stream_pairs.
    + unfold stream_range. by rewrite !length_map.
    + apply NoDup_app. split_and!; [apply stream_range_NoDup| |apply stream_range_NoDup].
      intros x. rewrite !stream_range_elem. lia.
    + apply Forall_forall. intros x. rewrite elem_of_app, !stream_range_elem. lia.
    + intros k Hk. by apply elem_of_nil in Hk.
  - rewrite app_nil_r. cbn [ints map zip_with]. rewrite zip_with_nil_r.
    cbn [fold_ok mbind outcome_bind]. fold (ints (stream_range s n)). rewrite kset_nulls;
      [|apply stream_range_NoDup|intros k Hk; by apply elem_of_nil in Hk].
    cbn [app]. unfold stream_range. rewrite !List.map_map. done.
Qed.

(** C17: adding legacy simulcast to an offer and reading its encodings gives the
    streams asked for: [n] encodings with consecutive SSRCs from the one of the
    offer, each with its own RTX SSRC if the offer had RTX, and nothing else,
    provided the two ranges do not overlap and stay within safe integers. *)
Theorem legacy_simulcast_roundtrip o n lines groups src s r :
  (1 < n)%nat → 0 ≤ s → s + Z.of_nat n ≤ 2 ^ 53 →
  match r with Some r => 0 < r ∧ r + Z.of_nat n ≤ 2 ^ 53 ∧ (s + Z.of_nat n ≤ r ∨ r + Z.of_nat n ≤ s) | None => True end →
  list_or_empty (js_get (JObj o) "ssrcs") = Ok lines → list_or_empty (js_get (JObj o) "ssrcGroups") = Ok groups →
  unified_source lines groups = Ok src →
  sc_ssrc src = js_int s → sc_rtxSsrc src = match r with Some r => js_int r | None => JUndef end →
  ∃ offer', UnifiedPlan_addLegacySimulcast (JObj o) n = Ok offer' ∧
    UnifiedPlan.getRtpEncodings offer' = Ok (map (stream_encoding s r) (seq 0 n)).
Proof.
  intros Hn1 Hs Hn Hr Hl Hg Hsrc Es Er. eexists. split.
  { unfold UnifiedPlan_addLegacySimulcast. rewrite (proj2 (Nat.leb_gt _ _) Hn1). cbn [throw_if mbind outcome_bind].
    rewrite Hl. cbn [mbind outcome_bind]. rewrite Hg. cbn [mbind outcome_bind]. rewrite Hsrc. reflexivity. }
  unfold with_streams. rewrite Es, Er, stream_ssrcs_int by done. fold (stream_range s n).
  set (rs := match r with Some r => stream_range r n | None => [] end).
  assert (stream_rtxSsrcs match r with Some r => js_int r | None => JUndef end n = ints rs) as ->.
  { subst rs. destruct r as [r|]; [|done]. unfold stream_rtxSsrcs.
    rewrite truthy_int, stream_ssrcs_int by lia. done. }
  cbn [app js_set]. unfold UnifiedPlan.getRtpEncodings.
  match goal with |- context [JObj (map_set (map_set o "ssrcGroups" ?g) "ssrcs" ?l)] => set (o' := map_set (map_set o "ssrcGroups" g) "ssrcs" l) end.
  assert (js_get (JObj o') "ssrcs" = JArr (stream_lines (sc_cname src) (sc_msid src) (ints (stream_range s n)) ++
    stream_lines (sc_cname src) (sc_msid src) (ints rs))) as -> by (cbn; unfold o'; by rewrite map_get_set_eq).
  assert (js_get (JObj o') "ssrcGroups" = JArr (stream_groups (ints (stream_range s n)) (ints rs))) as Hgs
    by (cbn; unfold o'; by rewrite map_get_set_ne, map_get_set_eq).
  cbn [list_or_empty truthy iterate mbind outcome_bind].
  assert (NoDup (stream_range s n ++ rs)) as Hnd.
  { subst rs. destruct r as [r|]; [|rewrite app_nil_r; apply stream_range_NoDup].
    apply NoDup_app. split_and!; [apply stream_range_NoDup| |apply stream_range_NoDup].
    intros x. rewrite !stream_range_elem. lia. }
  erewrite fold_ok_app by (apply (collect_stream_lines _ _ []); apply stream_range_NoDup).
  rewrite collect_stream_lines by done. cbn [app mbind outcome_bind].
  assert (ints (stream_range s n ++ rs) ≠ []) as Hne by (destruct n; [lia|done]).
  assert (match ints (stream_range s n ++ rs) with [] => true | _ => false end = false) as -> by (by destruct (ints (stream_range s n ++ rs))).
  cbn [throw_if mbind outcome_bind].
  by apply pair_streams.
Qed.

(** ** Extracted capabilities *)

Lemma same_value_sym a b : same_value a b = same_value b a.
Proof.
  destruct a as [| |[]|[]| | |], b as [| |[]|[]| | |]; try done; cbn.
  - apply Qeq_bool_comm.
  - apply String.eqb_sym.
Qed.

Lemma same_value_trans a b c : same_value a b = true → same_value b c = true → same_value a c = true.
Proof.
  destruct a as [| |[]|[]| | |], b as [| |[]|[]| | |]; try done; destruct c as [| |[]|[]| | |]; try done; cbn.
  - apply Qeq_bool_trans.
  - rewrite !String.eqb_eq. congruence.
Qed.

(** Keys are distinct. *)
Definition distinct (m : kmap) : Prop := ForallOrdPairs (λ a b, same_value a.1 b.1 = false) m.

Lemma kset_elem m k v e : e ∈ kset m k v → e ∈ m ∨ (e.2 = v ∧ (e.1 = k ∨ same_value e.1 k = true ∧ e.1 ∈ m.*1)).
Proof.
  induction m as [|[k' v'] m IH]; cbn; [set_solver|]. destruct (same_value k' k) eqn:E; rewrite !elem_of_cons.
  - intros [-> | He]; [right; cbn; split; [done|right]; set_solver|set_solver].
  - intros [-> | He]; [set_solver|]. destruct (IH He) as [H|(H1 & [H2|[H2 H3]])]; [set_solver| |]; right; split; try done; [by left|].
    right. split; [done|]. set_solver.
Qed.

Lemma kset_distinct m k v : distinct m → distinct (kset m k v).
Proof.
  unfold distinct. induction m as [|[k' v'] m IH]; intros H; cbn; [by repeat constructor|].
  inversion_clear H as [|?? Hh Ht]. destruct (same_value k' k) eqn:E; constructor; try done; [|by apply IH].
  apply Forall_forall. intros e He. rewrite Forall_forall in Hh. apply kset_elem in He as [He|(_ & [-> |[He1 He2]])]; [by apply Hh|done|].
  cbn. apply list_elem_of_fmap in He2 as ([k1 v1] & -> & Hin). by apply (Hh _ Hin).
Qed.

Definition wf_name (v : jsval) : bool := match v with JStr (String c _) => not_newline c | _ => false end.

(** What the description of a media section must satisfy: the lines are objects
    with a codec name, numeric payload types, rates and identifiers, and format
    parameters that parse into numbers and strings, [apt] into a number. *)
Section Wf.
Context (parseParams : jsval → outcome jsval).

Definition wf_rtp (r : jsval) : bool :=
  is_obj r && wf_name (js_get r "codec") && is_type (js_get r "payload") "number" && is_type (js_get r "rate") "number".
Definition wf_fmtp (f : jsval) : bool :=
  is_obj f && match parseParams (js_get f "config") with Ok p => is_obj p && wf_parameters true p | Throw _ => false end.
Definition wf_fb (f : jsval) : bool := is_obj f && nonempty_string (js_get f "type").
Definition wf_ext (e : jsval) : bool :=
  is_obj e && (truthy (js_get e "encrypt-uri") || nonempty_string (js_get e "uri") && is_type (js_get e "value") "number").
Definition opt_array (p : jsval → bool) (v : jsval) : bool := negb (truthy v) || array_all p v.
Definition wf_section (m : jsval) : bool :=
  is_obj m && (negb (is_str (js_get m "type") "audio" || is_str (js_get m "type") "video") ||
    array_all wf_rtp (js_get m "rtp") && opt_array wf_fmtp (js_get m "fmtp") && opt_array wf_fb (js_get m "rtcpFb") &&
    opt_array wf_ext (js_get m "ext")).
Definition wf_description (sdp : jsval) : bool := is_obj sdp && array_all wf_section (js_get sdp "media").

(** The codecs the extraction builds, under their keys. *)
Record codec_shape (e : jsval * jsval) : Prop := {
  cs_fields : ∃ kind name pt rate ch p fbs, e.2 = JObj [("kind", JStr kind); ("mimeType", JStr (kind +:+ "/" +:+ name));
    ("preferredPayloadType", pt); ("clockRate", rate); ("channels", ch); ("parameters", p); ("rtcpFeedback", JArr fbs)] ∧
    (kind = "audio" ∨ kind = "video") ∧ wf_name (JStr name) = true ∧ is_type pt "number" = true ∧ same_value e.1 pt = true ∧
    is_type rate "number" = true ∧ is_obj p && wf_parameters true p = true ∧
    Forall (λ fb, is_ok (validateRtcpFeedback fb) = true) fbs;
}.

Lemma shape_mime kind name : (kind = "audio" ∨ kind = "video") → wf_name (JStr name) = true → mime_kind (kind +:+ "/" +:+ name) = Some kind.
Proof.
  intros Hk Hn. destruct name as [|c s]; [done|]. cbn in Hn. destruct Hk as [-> | ->];
    change (mime_kind (?k +:+ "/" +:+ String c s)) with (if not_newline c then Some k else None); by rewrite Hn.
Qed.

Lemma js_set_obj c k x : is_obj c = true → is_obj (js_set c k x) = true.
Proof. by destruct c. Qed.

Lemma filled_codec_ok kind c p fbs : is_obj c = true → js_get c "parameters" = p → is_obj p && wf_parameters true p = true →
  js_get c "rtcpFeedback" = JArr fbs → Forall (λ fb, is_ok (validateRtcpFeedback fb) = true) fbs →
  is_ok (fill_codec kind c) = true.
Proof.
  intros Hc Hp Hw Hf Hfb. unfold fill_codec.
  set (c1 := if String.eqb kind "audio" then _ else _).
  assert (is_obj c1 = true ∧ js_get c1 "parameters" = p ∧ js_get c1 "rtcpFeedback" = JArr fbs) as (Hc1 & Hp1 & Hf1).
  { unfold c1, set_if. destruct c as [| | | | | |o]; try done. repeat case_match; split_and!; try done;
      by rewrite ?js_get_set_ne, ?js_get_delete_ne. }
  rewrite (fill_parameters_id true _ c1) by (rewrite Hp1; by apply andb_prop in Hw as [_ Hw]). cbn [mbind outcome_bind]. rewrite Hf1. cbn [truthy is_array negb orb set_if].
  unfold for_each. rewrite Hf1.
  assert (is_ok (traverse validateRtcpFeedback fbs) = true) as E.
  { rewrite traverse_is_ok. apply forallb_forall. intros x Hx. rewrite Forall_forall in Hfb. apply Hfb. by apply list_elem_of_In. }
  by destruct (traverse _ fbs).
Qed.

(** A codec of this shape passes the validator. *)
Lemma shape_valid e : codec_shape e → is_ok (validateRtpCodecCapability e.2) = true.
Proof.
  intros [(kind & name & pt & rate & ch & p & fbs & -> & Hk & Hn & Hpt & _ & Hr & Hp & Hfb)].
  set (c := JObj _). unfold validateRtpCodecCapability.
  assert (need_object c "codec is not an object" = Ok tt) as -> by done.
  assert (codec_kind c = Ok kind) as ->.
  { unfold codec_kind. assert (mandatory_type c "mimeType" "string" "missing codec.mimeType" = Ok tt) as -> by (by destruct Hk as [-> | ->]).
    change (js_get c "mimeType") with (JStr (kind +:+ "/" +:+ name)). cbn [mbind outcome_bind]. by rewrite shape_mime. }
  cbn [mbind outcome_bind]. assert (js_set c "kind" (JStr kind) = c) as -> by done.
  assert (∀ v, is_type v "number" = true → not_type v "number" = false) as Hnt by (intros v Hv; unfold not_type; by apply negb_false_iff).
  assert (optional_type c "preferredPayloadType" "number" "invalid codec.preferredPayloadType" = Ok tt) as ->.
  { unfold optional_type. change (js_get c "preferredPayloadType") with pt. rewrite (Hnt _ Hpt). by rewrite andb_false_r. }
  assert (need_type c "clockRate" "number" "missing codec.clockRate" = Ok tt) as ->.
  { unfold need_type. change (js_get c "clockRate") with rate. by rewrite (Hnt _ Hr). }
  cbn [mbind outcome_bind]. by apply (filled_codec_ok kind c p fbs).
Qed.

(** A loop whose body keeps an invariant runs to its end. *)
Lemma fold_ok_inv {A B} (P : A → Prop) (Q : B → Prop) (f : A → B → outcome A) a l :
  (∀ a x, P a → Q x → ∃ a', f a x = Ok a' ∧ P a') → P a → Forall Q l → ∃ a', fold_ok f a l = Ok a' ∧ P a'.
Proof.
  intros Hf Ha Hl. revert a Ha. induction Hl as [|x l Hx _ IH]; intros a Ha; [by exists a|].
  destruct (Hf a x Ha Hx) as (a' & E & Ha'). cbn. rewrite E. by apply IH.
Qed.

Definition wf_map (m : kmap) : Prop := Forall codec_shape m ∧ distinct m.

Lemma shape_key k k' c : same_value k' k = true → codec_shape (k, c) → codec_shape (k', c).
Proof.
  intros Hk [(kind & name & pt & rate & ch & p & fbs & E & H1 & H2 & H3 & H4 & H5 & H6 & H7)]. split.
  exists kind, name, pt, rate, ch, p, fbs. split_and!; try done. by eapply same_value_trans.
Qed.

Lemma kget_elem m k c : kget m k = Some c → ∃ k', (k', c) ∈ m ∧ same_value k' k = true.
Proof.
  induction m as [|[k0 c0] m IH]; [done|]. cbn. destruct (same_value k0 k) eqn:E.
  - intros [= ->]. exists k0. split; [left|done].
  - intros H. destruct (IH H) as (k' & Hin & Hk). exists k'. split; [by right|done].
Qed.

(** Changing a codec in place. *)
Lemma update_ok m k c c' : wf_map m → kget m k = Some c → (∀ key, codec_shape (key, c) → codec_shape (key, c')) →
  wf_map (kset m k c').
Proof.
  intros [Hs Hd] Hg Hc. split; [|by apply kset_distinct]. apply kget_elem in Hg as (k' & Hin & Hk').
  rewrite Forall_forall in *. intros [e1 e2] He. apply kset_elem in He as [He|(E & He)]; [by apply Hs|]. cbn in E, He. subst e2.
  apply Hc. apply shape_key with k'; [|by apply (Hs _ Hin)]. rewrite same_value_sym in Hk'.
  destruct He as [-> |[He _]]; [done|]. by eapply same_value_trans.
Qed.

Lemma same_value_number v : is_type v "number" = true → same_value v v = true.
Proof. destruct v as [| | |[]| | |]; try done. intros _. cbn. apply Qeq_bool_refl. Qed.

Lemma add_rtp_ok kind m r : (kind = "audio" ∨ kind = "video") → wf_map m → wf_rtp r = true →
  ∃ m', add_rtp kind m r = Ok m' ∧ wf_map m'.
Proof.
  intros Hk [Hs Hd] Hr. unfold wf_rtp in Hr. apply andb_prop in Hr as [[[Hr Hn]%andb_prop Hp]%andb_prop Ht].
  destruct r as [| | | | | |o]; try done. eexists. split; [done|]. split; [|by apply kset_distinct].
  rewrite Forall_forall in *. intros [e1 e2] He. apply kset_elem in He as [He|(E & He)]; [by apply Hs|]. cbn in E, He. subst e2.
  destruct (js_get (JObj o) "codec") as [| | | |name| |] eqn:En; try done. split.
  exists kind, name, (js_get (JObj o) "payload"), (js_get (JObj o) "rate"), (js_get (JObj o) "encoding"), (JObj []), [].
  unfold rtp_codec. rewrite En. split_and!; try done. cbn [fst]. destruct He as [-> |[He _]]; [by apply same_value_number|done].
Qed.

Lemma map_set_in (o : list (string * jsval)) k x e : e ∈ map_set o k x → e = (k, x) ∨ e ∈ o.
Proof.
  induction o as [|[k0 x0] o IH]; cbn; [set_solver|]. case_decide; rewrite !elem_of_cons; [|naive_solver].
  intros [-> | H']; subst; [by left|by right; right].
Qed.

Lemma fix_profile_ok p : is_obj p && wf_parameters true p = true → is_obj (fix_profile p) && wf_parameters true (fix_profile p) = true.
Proof.
  intros [Ho Hw]%andb_prop. destruct p as [| | | | | |o]; try done. unfold fix_profile. case_match; [|by rewrite Hw].
  cbn [js_set is_obj andb wf_parameters] in *. rewrite forallb_forall in *. intros [k v] Hin%list_elem_of_In.
  apply map_set_in in Hin as [[= -> ->]|Hin]; [done|]. by apply Hw, list_elem_of_In.
Qed.

Lemma add_fmtp_ok m f : wf_map m → wf_fmtp f = true → ∃ m', add_fmtp parseParams m f = Ok m' ∧ wf_map m'.
Proof.
  intros Hm Hf. unfold wf_fmtp in Hf. apply andb_prop in Hf as [Hf Hp]. unfold add_fmtp.
  destruct f as [| | | | | |o]; try done. cbn [get_prop is_nullish mbind outcome_bind].
  destruct (parseParams _) as [p|]; [|done]. cbn [mbind outcome_bind].
  destruct (kget m _) as [c|] eqn:E; [|by eexists]. eexists. split; [done|]. eapply update_ok; [done|done|].
  intros key [(kind & name & pt & rate & ch & p0 & fbs & Ec & H1 & H2 & H3 & H4 & H5 & H6 & H7)]. cbn in Ec. subst c. split.
  exists kind, name, pt, rate, ch, (fix_profile p), fbs. split_and!; try done. by apply fix_profile_ok.
Qed.

Lemma feedback_valid fb : wf_fb fb = true → is_ok (validateRtcpFeedback (feedback_of fb)) = true.
Proof.
  intros [Hf Ht]%andb_prop. unfold nonempty_string in Ht. apply andb_prop in Ht as [Ht1 Ht2].
  unfold validateRtcpFeedback, mandatory_type. assert (need_object (feedback_of fb) "fb is not an object" = Ok tt) as -> by done.
  change (js_get (feedback_of fb) "type") with (js_get fb "type"). unfold not_type. unfold is_type in Ht2. by rewrite Ht1, Ht2.
Qed.

Lemma push_feedback_ok key c fb : wf_fb fb = true → codec_shape (key, c) → codec_shape (key, push_to c "rtcpFeedback" (feedback_of fb)).
Proof.
  intros Hfb [(kind & name & pt & rate & ch & p & fbs & Ec & H1 & H2 & H3 & H4 & H5 & H6 & H7)]. cbn in Ec. subst c. split.
  exists kind, name, pt, rate, ch, p, (fbs ++ [feedback_of fb]). split_and!; try done. apply Forall_app. split; [done|].
  constructor; [by apply feedback_valid|done].
Qed.

Lemma map_values_distinct (f : jsval * jsval → jsval * jsval) m : (∀ e, (f e).1 = e.1) → distinct m → distinct (map f m).
Proof.
  intros Hf. unfold distinct. induction 1 as [|e m He Hm IH]; cbn; constructor; [|done].
  rewrite Forall_forall in *. intros e' He'. rewrite map_fmap in He'. apply list_elem_of_fmap in He' as (e0 & -> & Hin). rewrite !Hf. by apply He.
Qed.

Lemma add_feedback_ok kind m fb : wf_map m → wf_fb fb = true → ∃ m', add_feedback kind m fb = Ok m' ∧ wf_map m'.
Proof.
  intros Hm Hfb. pose proof Hm as [Hs Hd]. unfold add_feedback.
  assert (get_prop fb "payload" = Ok (js_get fb "payload")) as -> by (unfold wf_fb in Hfb; by destruct fb).
  cbn [mbind outcome_bind]. case_match.
  - eexists. split; [done|]. split; [|apply map_values_distinct; [intros e; by case_match|done]].
    rewrite Forall_forall in *. intros e He. rewrite map_fmap in He. apply list_elem_of_fmap in He as ([k c] & -> & Hin).
    case_match; [|by apply Hs]. apply push_feedback_ok; [done|by apply (Hs _ Hin)].
  - destruct (kget m _) as [c|] eqn:E; [|by eexists]. eexists. split; [done|]. eapply update_ok; [done|done|].
    intros key Hk. by apply push_feedback_ok.
Qed.

Definition wf_extensions (exts : list jsval) : Prop := Forall (λ x, is_ok (validateRtpHeaderExtension x) = true) exts.

Lemma add_extension_ok kind exts ext : (kind = "audio" ∨ kind = "video") → wf_extensions exts → wf_ext ext = true →
  ∃ exts', add_extension kind exts ext = Ok exts' ∧ wf_extensions exts'.
Proof.
  intros Hk Hexts Hext. unfold wf_ext in Hext. apply andb_prop in Hext as [Ho Hext]. unfold add_extension.
  assert (get_prop ext "encrypt-uri" = Ok (js_get ext "encrypt-uri")) as -> by (by destruct ext).
  cbn [mbind outcome_bind]. eexists. split; [done|]. destruct (truthy _) eqn:Et; [done|]. cbn in Hext.
  apply andb_prop in Hext as [Hu Hv]. unfold nonempty_string, is_type in *. apply andb_prop in Hu as [Hu1 Hu2].
  apply Forall_app. split; [done|]. constructor; [|done]. set (x := JObj _). unfold validateRtpHeaderExtension.
  assert (need_object x "ext is not an object" = Ok tt) as -> by done.
  assert (throw_if (negb (is_str (js_get x "kind") "audio") && negb (is_str (js_get x "kind") "video")) "invalid ext.kind" = Ok tt) as ->
    by (by destruct Hk as [-> | ->]).
  unfold mandatory_type, need_type. change (js_get x "uri") with (js_get ext "uri"). change (js_get x "preferredId") with (js_get ext "value").
  unfold not_type. rewrite Hu1, Hu2, Hv. done.
Qed.

Definition wf_extraction (x : extraction) : Prop := wf_map (xt_codecs x) ∧ wf_extensions (xt_extensions x).

Lemma array_all_ok q v : array_all q v = true → ∃ l, iterate v = Ok l ∧ Forall (λ x, q x = true) l.
Proof.
  destruct v as [| | | | |l|]; try done. cbn. intros H. exists l. split; [done|]. apply Forall_forall. intros x Hx.
  rewrite forallb_forall in H. by apply H, list_elem_of_In.
Qed.

Lemma opt_array_ok q v : opt_array q v = true → ∃ l, list_or_empty v = Ok l ∧ Forall (λ x, q x = true) l.
Proof.
  unfold opt_array, list_or_empty. destruct (truthy v); cbn; [apply array_all_ok|]. intros _. exists []. by split.
Qed.

Lemma read_section_ok kind x m : (kind = "audio" ∨ kind = "video") → wf_extraction x →
  array_all wf_rtp (js_get m "rtp") && opt_array wf_fmtp (js_get m "fmtp") && opt_array wf_fb (js_get m "rtcpFb") &&
    opt_array wf_ext (js_get m "ext") = true →
  ∃ x', read_section parseParams kind x m = Ok x' ∧ wf_extraction x'.
Proof.
  intros Hk [Hm Hx] [[[Hr Hf]%andb_prop Hb]%andb_prop He]%andb_prop. unfold read_section.
  destruct (array_all_ok _ _ Hr) as (rs & -> & Hrs). destruct (opt_array_ok _ _ Hf) as (fs & -> & Hfs).
  destruct (opt_array_ok _ _ Hb) as (bs & -> & Hbs). destruct (opt_array_ok _ _ He) as (es & -> & Hes).
  cbn [mbind outcome_bind].
  destruct (fold_ok_inv wf_map _ (add_rtp kind) (xt_codecs x) rs (λ a x, add_rtp_ok kind a x Hk) Hm Hrs) as (m1 & -> & Hm1).
  cbn [mbind outcome_bind].
  destruct (fold_ok_inv wf_map _ (add_fmtp parseParams) m1 fs add_fmtp_ok Hm1 Hfs) as (m2 & -> & Hm2). cbn [mbind outcome_bind].
  destruct (fold_ok_inv wf_map _ (add_feedback kind) m2 bs (add_feedback_ok kind) Hm2 Hbs) as (m3 & -> & Hm3). cbn [mbind outcome_bind].
  destruct (fold_ok_inv wf_extensions _ (add_extension kind) _ es (λ a x, add_extension_ok kind a x Hk) Hx Hes) as (exts & -> & Hexts).
  eexists. split; [done|]. by split.
Qed.

Lemma add_section_ok x m : wf_extraction x → wf_section m = true → ∃ x', add_section parseParams x m = Ok x' ∧ wf_extraction x'.
Proof.
  intros Hx [Ho Hw]%andb_prop. unfold add_section.
  assert (get_prop m "type" = Ok (js_get m "type")) as -> by (by destruct m). cbn [mbind outcome_bind].
  destruct (is_str _ "audio") eqn:Ea; cbn in Hw.
  - destruct (xt_audio x); [by exists x|]. apply read_section_ok; [by left|done|done].
  - destruct (is_str _ "video") eqn:Ev; cbn in Hw; [|by exists x]. destruct (xt_video x); [by exists x|].
    apply read_section_ok; [by right|done|done].
Qed.

Lemma traverse_all_ok (f : jsval → outcome jsval) l : Forall (λ x, is_ok (f x) = true) l → ∃ l', traverse f l = Ok l'.
Proof.
  intros H. destruct (traverse f l) as [l'|] eqn:E; [by exists l'|]. exfalso.
  assert (is_ok (traverse f l) = true) as Ht; [|by rewrite E in Ht].
  rewrite traverse_is_ok. apply forallb_forall. intros x Hx%list_elem_of_In. by apply (proj1 (Forall_forall _ _) H).
Qed.

Lemma caps_valid codecs exts : Forall (λ c, is_ok (validateRtpCodecCapability c) = true) codecs → wf_extensions exts →
  is_ok (validateRtpCapabilities (JObj [("codecs", JArr codecs); ("headerExtensions", JArr exts)])) = true.
Proof.
  intros Hc He. destruct (traverse_all_ok _ _ Hc) as (codecs' & Ec), (traverse_all_ok _ _ He) as (exts' & Ee).
  unfold validateRtpCapabilities. cbn [need_object not_type js_typeof mbind outcome_bind].
  change (need_object (JObj [("codecs", JArr codecs); ("headerExtensions", JArr exts)]) "caps is not an object") with (Ok tt).
  change (optional_array (JObj [("codecs", JArr codecs); ("headerExtensions", JArr exts)]) "codecs" "caps.codecs is not an array")
    with (Ok (JObj [("codecs", JArr codecs); ("headerExtensions", JArr exts)])).
  cbn [mbind outcome_bind].
  change (for_each validateRtpCodecCapability (JObj [("codecs", JArr codecs); ("headerExtensions", JArr exts)]) "codecs")
    with (l' ← traverse validateRtpCodecCapability codecs; Ok (JObj [("codecs", JArr l'); ("headerExtensions", JArr exts)])).
  rewrite Ec. cbn [mbind outcome_bind].
  change (optional_array (JObj [("codecs", JArr codecs'); ("headerExtensions", JArr exts)]) "headerExtensions" "caps.headerExtensions is not an array")
    with (Ok (JObj [("codecs", JArr codecs'); ("headerExtensions", JArr exts)])).
  cbn [mbind outcome_bind].
  change (for_each validateRtpHeaderExtension (JObj [("codecs", JArr codecs'); ("headerExtensions", JArr exts)]) "headerExtensions")
    with (l' ← traverse validateRtpHeaderExtension exts; Ok (JObj [("codecs", JArr codecs'); ("headerExtensions", JArr l')])).
  by rewrite Ee.
Qed.

(** The payload types of the codecs are distinct. *)
Lemma distinct_payloads m : wf_map m →
  ForallOrdPairs (λ a b, same_value (js_get a "preferredPayloadType") (js_get b "preferredPayloadType") = false) m.*2.
Proof.
  intros [Hs Hd]. unfold distinct in Hd. induction Hd as [|e m He Hd IH]; [constructor|]. apply Forall_cons in Hs as [Hse Hs].
  cbn. constructor; [|by apply IH]. rewrite Forall_forall in He. apply Forall_forall. intros c Hc. apply list_elem_of_fmap in Hc as (e' & -> & Hin).
  destruct Hse as [(k1 & n1 & pt1 & r1 & c1 & p1 & f1 & E1 & _ & _ & _ & H1 & _)].
  destruct (proj1 (Forall_forall _ _) Hs _ Hin) as [(k2 & n2 & pt2 & r2 & c2 & p2 & f2 & E2 & _ & _ & _ & H2 & _)].
  rewrite E1, E2. change (same_value pt1 pt2 = false). destruct (same_value pt1 pt2) eqn:E; [|done].
  rewrite <-(He _ Hin). symmetry. eapply same_value_trans; [exact H1|]. eapply same_value_trans; [exact E|]. by rewrite same_value_sym.
Qed.

(** C18: the capabilities extracted from a well-formed local description are ones
    the validator accepts, so that loading a device cannot fail on them, and no two
    of their codecs have the same payload type. *)
Theorem extracted_capabilities_valid sdp : wf_description sdp = true →
  ∃ codecs exts, extractRtpCapabilities parseParams sdp = Ok (JObj [("codecs", JArr codecs); ("headerExtensions", JArr exts)]) ∧
    is_ok (validateRtpCapabilities (JObj [("codecs", JArr codecs); ("headerExtensions", JArr exts)])) = true ∧
    ForallOrdPairs (λ a b, same_value (js_get a "preferredPayloadType") (js_get b "preferredPayloadType") = false) codecs.
Proof.
  intros [Ho Hw]%andb_prop. unfold extractRtpCapabilities. destruct (array_all_ok _ _ Hw) as (ms & -> & Hms). cbn [mbind outcome_bind].
  edestruct (fold_ok_inv wf_extraction (λ m, wf_section m = true) (add_section parseParams)) as (x & -> & Hx); [apply add_section_ok| |exact Hms|].
  { split; [split|]; constructor. }
  eexists _, _. split; [done|]. destruct Hx as [Hm He]. split; [|by apply distinct_payloads].
  apply caps_valid; [|done]. destruct Hm as [Hs _]. apply Forall_forall. intros c Hc.
  apply list_elem_of_fmap in Hc as (e & -> & Hin). apply shape_valid. by apply (proj1 (Forall_forall _ _) Hs).
Qed.
End Wf.

(** ** NACK for Opus *)

Lemma find_ok_app {A} (p : A → outcome bool) l x r : find_ok p l = Ok None → p x = Ok true → find_ok p (l ++ x :: r) = Ok (Some x).
Proof.
  induction l as [|y l IH]; cbn; [by intros _ ->|]. destruct (p y) as [[]|]; cbn; try done; apply IH.
Qed.

Lemma add_nack_idempotent c c' : add_nack c = Ok c' → add_nack c' = Ok c'.
Proof.
  unfold add_nack at 1. destruct (lower_mime c) as [mime|] eqn:Em; [|done]. cbn [mbind outcome_bind].
  destruct (negb _) eqn:Eo; [by intros [= <-]; unfold add_nack; rewrite Em; cbn [mbind outcome_bind]; rewrite Eo|].
  destruct (iterate_or_empty _) as [fbs|] eqn:Ef; [|done]. cbn [mbind outcome_bind].
  destruct (find_ok is_nack fbs) as [[fb|]|] eqn:En; [| |done]; cbn [mbind outcome_bind]; intros [= <-].
  - unfold add_nack. rewrite Em. cbn [mbind outcome_bind]. rewrite Eo, Ef. cbn [mbind outcome_bind]. by rewrite En.
  - destruct c as [| | | | | |o]; try done. unfold add_nack.
    set (c' := js_set _ _ _). assert (js_get c' "rtcpFeedback" = JArr (fbs ++ [JObj [("type", JStr "nack")]])) as Eg by apply js_get_set_eq.
    assert (lower_mime c' = Ok mime) as ->.
    { rewrite <-Em. unfold lower_mime, get_prop. change (is_nullish c') with false. change (is_nullish (JObj o)) with false.
      unfold c'. by rewrite js_get_set_ne. }
    cbn [mbind outcome_bind]. rewrite Eo, Eg. cbn [iterate_or_empty is_nullish iterate mbind outcome_bind].
    by erewrite find_ok_app by done.
Qed.

(** The codec offers NACK without a parameter. *)
Definition offers_nack (c : jsval) : Prop :=
  ∃ fbs fb, js_get c "rtcpFeedback" = JArr fbs ∧ fb ∈ fbs ∧ js_get fb "type" = JStr "nack" ∧ truthy (js_get fb "parameter") = false.

Definition is_opus (c : jsval) : Prop := lower_mime c = Ok "audio/opus" ∨ lower_mime c = Ok "audio/multiopus".

Lemma find_ok_elem {A} (p : A → outcome bool) l x : find_ok p l = Ok (Some x) → x ∈ l ∧ p x = Ok true.
Proof.
  induction l as [|y l IH]; cbn; [done|]. destruct (p y) as [[]|] eqn:E; cbn; try done.
  - intros [= ->]. split; [left|done].
  - intros H. destruct (IH H). split; [by right|done].
Qed.

Lemma add_nack_spec c c' : add_nack c = Ok c' → (is_opus c' → offers_nack c') ∧ (c' = c ∨ is_opus c').
Proof.
  unfold add_nack. destruct (lower_mime c) as [mime|] eqn:Em; [|done]. cbn [mbind outcome_bind].
  destruct (negb _) eqn:Eo.
  { intros [= <-]. split; [|by left]. intros [H|H]; rewrite Em in H; simplify_eq; done. }
  destruct (iterate_or_empty _) as [fbs|] eqn:Ef; [|done]. cbn [mbind outcome_bind].
  destruct (find_ok is_nack fbs) as [[fb|]|] eqn:En; [| |done]; cbn [mbind outcome_bind]; intros [= <-].
  - split; [|by left]. intros _. apply find_ok_elem in En as [Hin Hn]. exists fbs, fb.
    unfold iterate_or_empty in Ef. destruct (js_get c "rtcpFeedback"); cbn in Ef; simplify_eq; try (by apply elem_of_nil in Hin).
    split_and!; try done; unfold is_nack, get_prop in Hn; destruct (is_nullish fb); try done; cbn in Hn; injection Hn as Hn;
      apply andb_prop in Hn as [H1 H2]; [|by apply negb_true_iff].
    unfold is_str in H1. destruct (js_get fb "type"); try done. apply String.eqb_eq in H1. by subst.
  - destruct c as [| | | | | |o]; try done. set (c' := js_set _ _ _).
    assert (lower_mime c' = Ok mime) as Em'.
    { rewrite <-Em. unfold lower_mime, get_prop. change (is_nullish c') with false. change (is_nullish (JObj o)) with false.
      unfold c'. by rewrite js_get_set_ne. }
    split.
    + intros _. exists (fbs ++ [JObj [("type", JStr "nack")]]), (JObj [("type", JStr "nack")]).
      split_and!; [apply js_get_set_eq|set_solver|done|done].
    + right. unfold is_opus. rewrite Em'. apply negb_false_iff, orb_prop in Eo as [H|H]; apply String.eqb_eq in H; subst; [by left|by right].
Qed.

(** After adding NACK support every Opus codec of the capabilities offers NACK, the
    other codecs are untouched, and adding it again changes nothing. *)
Theorem opus_nack_added o o' codecs : js_get (JObj o) "codecs" = JArr codecs → addNackSuppportForOpus (JObj o) = Ok o' →
  ∃ codecs', js_get o' "codecs" = JArr codecs' ∧
    Forall2 (λ c c', (is_opus c' → offers_nack c') ∧ (c' = c ∨ is_opus c')) codecs codecs' ∧
    addNackSuppportForOpus o' = Ok o'.
Proof.
  intros Hc. unfold addNackSuppportForOpus at 1. rewrite Hc. cbn [iterate_or_empty is_nullish iterate mbind outcome_bind].
  destruct (traverse add_nack codecs) as [codecs'|] eqn:E; [|done]. cbn [mbind outcome_bind]. intros Ho'.
  exists codecs'. assert (js_get o' "codecs" = JArr codecs') as Hc' by (injection Ho' as <-; apply (js_get_set_eq o)). clear Ho'.
  split; [done|]. apply traverse_ok in E. split.
  - eapply Forall2_impl; [exact E|]. intros c c' H. by apply add_nack_spec.
  - unfold addNackSuppportForOpus. rewrite Hc'. cbn [iterate_or_empty is_nullish iterate mbind outcome_bind].
    assert (traverse add_nack codecs' = Ok codecs') as ->.
    { apply traverse_id. intros c' Hin. apply list_elem_of_lookup in Hin as (i & Hi).
      destruct (Forall2_lookup_r _ _ _ _ _ E Hi) as (c & _ & H). by eapply add_nack_idempotent. }
    cbn [mbind outcome_bind]. by rewrite js_set_id.
Qed.
