(* ===== verification/MediaSection.v ===== *)
(** * Media sections (src/client/lib/handlers/sdp/MediaSection.js)

    The [m=] sections of the remote description the client writes for the server:
    answers to what it sends and offers of what it receives.  A section is an
    object for the sdp-transform package; each method is the function from the
    object to the changed object.  What a method that throws has changed before is
    not kept.  The package's parser of simulcast lists is a parameter. *)

From S2P Require Import Prelude JsNum JsVal JsConv JsString OrtcValidate Ortc SdpUtils.
Local Open Scope string_scope.
Local Open Scope list_scope.
Local Open Scope Z_scope.

(** The two subclasses. *)
Inductive section_class := AnswerSection | OfferSection.

#[export] Instance section_class_eq : EqDecision section_class.
Proof. solve_decision. Defined.

(** ** The base class *)

Definition setIceParameters (iceParameters m : jsval) : jsval :=
  js_set (js_set m "iceUfrag" (js_get iceParameters "usernameFragment")) "icePwd" (js_get iceParameters "password").

Definition setDtlsRole (c : section_class) (role m : jsval) : jsval :=
  match c with
  | AnswerSection =>
      if is_str role "client" then js_set m "setup" (JStr "active")
      else if is_str role "server" then js_set m "setup" (JStr "passive")
      else if is_str role "auto" then js_set m "setup" (JStr "actpass") else m
  | OfferSection => js_set m "setup" (JStr "actpass")
  end.

Definition candidate_object (candidate : jsval) : outcome jsval :=
  foundation ← get_prop candidate "foundation";
  Ok (JObj ([("component", js_int 1); ("foundation", foundation);
             ("ip", js_coalesce (js_get candidate "address") (js_get candidate "ip")); ("port", js_get candidate "port");
             ("priority", js_get candidate "priority"); ("transport", js_get candidate "protocol");
             ("type", js_get candidate "type")] ++
            if truthy (js_get candidate "tcpType") then [("tcptype", js_get candidate "tcpType")] else [])).

(** What every section is given. *)
Record SectionOptions := {
  so_iceParameters : jsval;
  so_iceCandidates : jsval;
  so_dtlsParameters : jsval;
  so_plainRtpParameters : jsval;
  so_planB : bool;
}.

(** The constructor of the base class. *)
Definition base_section (c : section_class) (o : SectionOptions) : outcome jsval :=
  let m := if truthy (so_iceParameters o) then setIceParameters (so_iceParameters o) (JObj []) else JObj [] in
  m ← (if truthy (so_iceCandidates o) then
         l ← iterate (so_iceCandidates o);
         candidates ← traverse candidate_object l;
         Ok (js_set (js_set (js_set m "candidates" (JArr candidates)) "endOfCandidates" (JStr "end-of-candidates"))
               "iceOptions" (JStr "renomination"))
       else Ok m);
  Ok (if truthy (so_dtlsParameters o) then setDtlsRole c (js_get (so_dtlsParameters o) "role") m else m).

Definition section_mid (m : jsval) : string := js_to_string (js_get m "mid").
Definition section_closed (m : jsval) : bool := strict_eq (js_get m "port") (js_int 0).

Definition section_pause (m : jsval) : jsval := js_set m "direction" (JStr "inactive").
Definition section_resume (c : section_class) (m : jsval) : jsval :=
  js_set m "direction" (JStr match c with AnswerSection => "recvonly" | OfferSection => "sendonly" end).

Definition disabled_fields : list string :=
  ["ext"; "ssrcs"; "ssrcGroups"; "simulcast"; "simulcast_03"; "rids"; "extmapAllowMixed"].
Definition section_disable (m : jsval) : jsval := foldl js_delete (section_pause m) disabled_fields.
Definition section_close (m : jsval) : jsval := js_set (section_disable m) "port" (js_int 0).

(** The connection and port lines; [protocol] for plain RTP is set by offers only. *)
Definition set_connection (o : SectionOptions) (m : jsval) : jsval :=
  let plain := so_plainRtpParameters o in
  if negb (truthy plain) then
    js_set (js_set m "connection" (JObj [("ip", JStr "127.0.0.1"); ("version", js_int 4)])) "port" (js_int 7)
  else
    js_set (js_set m "connection" (JObj [("ip", js_get plain "ip"); ("version", js_get plain "ipVersion")]))
      "port" (js_get plain "port").

(** ** Codec lines *)

Fixpoint until_newline (l : list Ascii.ascii) : list Ascii.ascii :=
  match l with
  | c :: l => if not_newline c then c :: until_newline l else []
  | [] => []
  end.

(** The second group of [^(audio|video)/(.+)]. *)
Definition getCodecName (codec : jsval) : outcome string :=
  let s := js_to_string (js_get codec "mimeType") in
  match mime_kind s with
  | Some _ => Ok (text (until_newline (drop 6 (chars s))))
  | None => Throw "invalid codec.mimeType"
  end.

Definition rtp_line (codec : jsval) : outcome jsval :=
  payload ← get_prop codec "payloadType";
  name ← getCodecName codec;
  Ok (JObj ([("payload", payload); ("codec", JStr name); ("rate", js_get codec "clockRate")] ++
            if num_ltb num1 (js_number (js_get codec "channels")) then [("encoding", js_get codec "channels")] else [])).

(** A line unless there are no parameters. *)
Definition fmtp_lines (codec parameters : jsval) : list jsval :=
  let config := fmtp_config parameters in
  if String.eqb config "" then [] else [JObj [("payload", js_get codec "payloadType"); ("config", JStr config)]].

Definition fb_line (codec fb : jsval) : outcome jsval :=
  t ← get_prop fb "type";
  Ok (JObj [("payload", js_get codec "payloadType"); ("type", t); ("subtype", js_get fb "parameter")]).

(** What a codec adds to [rtp], [fmtp] and [rtcpFb]. *)
Record codec_lines := { cl_rtp : list jsval; cl_fmtp : list jsval; cl_fb : list jsval }.

Definition lines_of (codec parameters : jsval) (feedback : list jsval) : outcome codec_lines :=
  rtp ← rtp_line codec;
  fbs ← traverse (fb_line codec) feedback;
  Ok {| cl_rtp := [rtp]; cl_fmtp := fmtp_lines codec parameters; cl_fb := fbs |}.

Definition add_lines (m : jsval) (ls : codec_lines) : jsval :=
  js_set (js_set (js_set m "rtp" (JArr (elements (js_get m "rtp") ++ cl_rtp ls)))
    "fmtp" (JArr (elements (js_get m "fmtp") ++ cl_fmtp ls)))
    "rtcpFb" (JArr (elements (js_get m "rtcpFb") ++ cl_fb ls)).

Definition codec_payloads (codecs : list jsval) : string := join " " (map (λ c, js_get c "payloadType") codecs).

Definition extension_line (ext : jsval) : outcome jsval :=
  uri ← get_prop ext "uri"; Ok (JObj [("uri", uri); ("value", js_get ext "id")]).

(** ** Codec options *)

Definition flag (v : jsval) : jsval := js_int (if truthy v then 1 else 0).

(** [if (options.name !== undefined) f(options.name)]. *)
Definition when_set (options : jsval) (name : string) (f : jsval → jsval → outcome jsval) (x : jsval) : outcome jsval :=
  let v := js_get options name in if is_undefined v then Ok x else f v x.

(** [codec.parameters[key] = x]. *)
Definition set_parameter (key : string) (x codec : jsval) : outcome jsval :=
  parameters ← get_prop codec "parameters";
  _ ← get_prop parameters key;
  Ok (js_set codec "parameters" (js_set parameters key x)).

Definition keep_nack (fb : jsval) : outcome bool :=
  t ← get_prop fb "type"; Ok (negb (is_str t "nack") || truthy (js_get fb "parameter")).

Fixpoint filter_ok (p : jsval → outcome bool) (l : list jsval) : outcome (list jsval) :=
  match l with
  | [] => Ok []
  | x :: l => b ← p x; l' ← filter_ok p l; Ok (if (b : bool) then x :: l' else l')
  end.

(** What the options for Opus change in the offer's codec. *)
Definition opus_offer (options codec : jsval) : outcome jsval :=
  c ← when_set options "opusStereo" (λ v, set_parameter "sprop-stereo" (flag v)) codec;
  c ← when_set options "opusFec" (λ v, set_parameter "useinbandfec" (flag v)) c;
  c ← when_set options "opusDtx" (λ v, set_parameter "usedtx" (flag v)) c;
  c ← when_set options "opusPtime" (λ v, set_parameter "ptime" v) c;
  if truthy (js_get options "opusNack") then Ok c
  else
    feedback ← get_prop c "rtcpFeedback";
    l ← iterate feedback;
    l' ← filter_ok keep_nack l;
    Ok (js_set c "rtcpFeedback" (JArr l')).

(** And in the answer's parameters. *)
Definition opus_answer (options parameters : jsval) : outcome jsval :=
  let set key := λ v p, Ok (js_set p key v) in
  p ← when_set options "opusStereo" (λ v, set "stereo" (flag v)) parameters;
  p ← when_set options "opusFec" (λ v, set "useinbandfec" (flag v)) p;
  p ← when_set options "opusDtx" (λ v, set "usedtx" (flag v)) p;
  p ← when_set options "opusMaxPlaybackRate" (set "maxplaybackrate") p;
  p ← when_set options "opusMaxAverageBitrate" (set "maxaveragebitrate") p;
  when_set options "opusPtime" (set "ptime") p.

Definition video_answer (options parameters : jsval) : outcome jsval :=
  let set key := λ v p, Ok (js_set p key v) in
  p ← when_set options "videoGoogleStartBitrate" (set "x-google-start-bitrate") parameters;
  p ← when_set options "videoGoogleMaxBitrate" (set "x-google-max-bitrate") p;
  when_set options "videoGoogleMinBitrate" (set "x-google-min-bitrate") p.

(** The first codec of the offer with this payload type, changed; the change is
    applied to [undefined] if there is none, which throws unless it does nothing. *)
Fixpoint update_offer (payload : jsval) (f : jsval → outcome jsval) (l : list jsval) : outcome (list jsval) :=
  match l with
  | [] => _ ← f JUndef; Ok []
  | c :: l =>
      if strict_eq (js_get c "payloadType") payload then c' ← f c; Ok (c' :: l)
      else l' ← update_offer payload f l; Ok (c :: l')
  end.

Definition opus_mimes : list string := ["audio/opus"; "audio/multiopus"].
Definition video_mimes : list string := ["video/vp8"; "video/vp9"; "video/h264"; "video/h265"].

(** One codec of an answer: its lines, and the codecs of the offer. *)
Definition answer_codec (options : jsval) (offer : list jsval) (codec : jsval) : outcome (list jsval * codec_lines) :=
  let parameters := js_coalesce (js_get codec "parameters") (JObj []) in
  feedback ← iterate (js_coalesce (js_get codec "rtcpFeedback") (JArr []));
  if negb (truthy options) then ls ← lines_of codec parameters feedback; Ok (offer, ls)
  else
    mime ← lower_mime codec;
    if existsb (String.eqb mime) opus_mimes then
      offer ← update_offer (js_get codec "payloadType") (opus_offer options) offer;
      parameters ← opus_answer options parameters;
      feedback ← (if truthy (js_get options "opusNack") then Ok feedback else filter_ok keep_nack feedback);
      ls ← lines_of codec parameters feedback;
      Ok (offer, ls)
    else if existsb (String.eqb mime) video_mimes then
      parameters ← video_answer options parameters;
      ls ← lines_of codec parameters feedback;
      Ok (offer, ls)
    else ls ← lines_of codec parameters feedback; Ok (offer, ls).

Definition add_answer_codec (options : jsval) (st : list jsval * jsval) (codec : jsval) : outcome (list jsval * jsval) :=
  '(offer, ls) ← answer_codec options st.1 codec; Ok (offer, add_lines st.2 ls).

(** ** Answers *)

(** [rids] of the offer in the other direction. *)
Definition answer_rids (offerMediaObject : jsval) : outcome (list jsval) :=
  rids ← iterate_or_empty (js_get offerMediaObject "rids");
  sent ← filter_ok (λ rid, d ← get_prop rid "direction"; Ok (is_str d "send")) rids;
  Ok (map (λ rid, JObj [("id", js_get rid "id"); ("direction", JStr "recv")]) sent).

Definition answer_simulcast (offerMediaObject m : jsval) : outcome jsval :=
  let simulcast := js_get offerMediaObject "simulcast" in
  let simulcast_03 := js_get offerMediaObject "simulcast_03" in
  if truthy simulcast then
    rids ← answer_rids offerMediaObject;
    Ok (js_set (js_set m "simulcast" (JObj [("dir1", JStr "recv"); ("list1", js_get simulcast "list1")])) "rids" (JArr rids))
  else if truthy simulcast_03 then
    value ← (match js_get simulcast_03 "value" with JStr s => Ok s | _ => Throw "replace is not a function" end);
    rids ← answer_rids offerMediaObject;
    Ok (js_set (js_set m "simulcast_03" (JObj [("value", JStr (replace_all value "send" "recv"))])) "rids" (JArr rids))
  else Ok m.

(** Header extensions the offer also has. *)
Definition answer_extensions (offerMediaObject : jsval) (exts : list jsval) : outcome (list jsval) :=
  local ← iterate_or_empty (js_get offerMediaObject "ext");
  found ← filter_ok (λ ext, l ← find_ok (λ x, u ← get_prop x "uri"; Ok (strict_eq u (js_get ext "uri"))) local;
                           Ok (bool_decide (is_Some l))) exts;
  traverse extension_line found.

(** The part of an answer for audio and video, and the changed codecs of the offer. *)
Definition answer_media (o : SectionOptions) (offerMediaObject offerRtpParameters answerRtpParameters codecOptions : jsval)
    (extmapAllowMixed : bool) (m : jsval) : outcome (list jsval * jsval) :=
  let m := js_set m "direction" (JStr "recvonly") in
  let m := js_set (js_set (js_set m "rtp" (JArr [])) "rtcpFb" (JArr [])) "fmtp" (JArr []) in
  codecs ← iterate (js_get answerRtpParameters "codecs");
  '(offer, m) ← fold_ok (add_answer_codec codecOptions) (elements (js_get offerRtpParameters "codecs"), m) codecs;
  let m := js_set m "payloads" (JStr (codec_payloads codecs)) in
  exts ← iterate (js_get answerRtpParameters "headerExtensions");
  lines ← answer_extensions offerMediaObject exts;
  let m := js_set m "ext" (JArr lines) in
  let m := if extmapAllowMixed && is_str (js_get offerMediaObject "extmapAllowMixed") "extmap-allow-mixed"
           then js_set m "extmapAllowMixed" (JStr "extmap-allow-mixed") else m in
  m ← answer_simulcast offerMediaObject m;
  let m := js_set (js_set m "rtcpMux" (JStr "rtcp-mux")) "rtcpRsize" (JStr "rtcp-rsize") in
  Ok (offer, if so_planB o && is_str (js_get m "type") "video" then js_set m "xGoogleFlag" (JStr "conference") else m).

(** The lines of a data section, in the new and the old form. *)
Definition sctp_lines (sctpParameters m : jsval) : outcome jsval :=
  port ← get_prop sctpParameters "port";
  Ok (js_set (js_set (js_set m "payloads" (JStr "webrtc-datachannel")) "sctpPort" port)
        "maxMessageSize" (js_get sctpParameters "maxMessageSize")).
Definition old_sctp_lines (sctpParameters m : jsval) : outcome jsval :=
  port ← get_prop sctpParameters "port";
  Ok (js_set (js_set m "payloads" port)
        "sctpmap" (JObj [("app", JStr "webrtc-datachannel"); ("sctpmapNumber", port);
                         ("maxMessageSize", js_get sctpParameters "maxMessageSize")])).

(** The constructor of answers: the section, and the RTP parameters of the offer,
    which the codec options change. *)
Definition new_AnswerMediaSection (o : SectionOptions)
    (sctpParameters offerMediaObject offerRtpParameters answerRtpParameters codecOptions : jsval) (extmapAllowMixed : bool) :
    outcome (jsval * jsval) :=
  m ← base_section AnswerSection o;
  mid ← get_prop offerMediaObject "mid";
  let type := js_get offerMediaObject "type" in
  let m := js_set m "mid" (JStr (js_to_string mid)) in
  let m := js_set (js_set m "type" type) "protocol" (js_get offerMediaObject "protocol") in
  let m := set_connection o m in
  if is_str type "audio" || is_str type "video" then
    '(offer, m) ← answer_media o offerMediaObject offerRtpParameters answerRtpParameters codecOptions extmapAllowMixed m;
    Ok (m, if truthy codecOptions then js_set offerRtpParameters "codecs" (JArr offer) else offerRtpParameters)
  else if is_str type "application" then
    m ← (if String.eqb (js_typeof (js_get offerMediaObject "sctpPort")) "number" then sctp_lines sctpParameters m
         else if truthy (js_get offerMediaObject "sctpmap") then old_sctp_lines sctpParameters m
         else Ok m);
    Ok (m, offerRtpParameters)
  else Ok (m, offerRtpParameters).

(** ** Offers *)

(** [`${streamId ?? '-'} ${trackId}`]. *)
Definition msid_of (streamId trackId : jsval) : string :=
  js_to_string (js_coalesce streamId (JStr "-")) +:+ " " +:+ js_to_string trackId.

(** The lines of one SSRC; the [msid] line only in plan B. *)
Definition offer_ssrc_lines (cname : jsval) (msid : option string) (id : jsval) : list jsval :=
  (if truthy cname then [ssrc_line id "cname" cname] else []) ++
  match msid with Some s => [ssrc_line id "msid" (JStr s)] | None => [] end.

(** The SSRC lines and groups of the first encoding. *)
Record ssrc_lines := { sl_lines : list jsval; sl_groups : list jsval }.

Definition encoding_lines (offerRtpParameters : jsval) (msid : option string) : outcome ssrc_lines :=
  encodings ← iterate (js_get offerRtpParameters "encodings");
  ssrc ← get_prop (at_index encodings 0) "ssrc";
  let rtxSsrc := js_get (js_get (at_index encodings 0) "rtx") "ssrc" in
  cname ← get_prop (js_get offerRtpParameters "rtcp") "cname";
  Ok {| sl_lines := offer_ssrc_lines cname msid ssrc ++ (if truthy rtxSsrc then offer_ssrc_lines cname msid rtxSsrc else []);
        sl_groups := if truthy rtxSsrc then [fid_group ssrc rtxSsrc] else [] |}.

Definition add_offer_codec (m codec : jsval) : outcome jsval :=
  parameters ← get_prop codec "parameters";
  _ ← throw_if (is_nullish parameters) "Cannot convert undefined or null to object";
  feedback ← iterate (js_get codec "rtcpFeedback");
  ls ← lines_of codec parameters feedback;
  Ok (add_lines m ls).

Definition offer_media (o : SectionOptions) (offerRtpParameters streamId trackId m : jsval) : outcome jsval :=
  let m := js_set m "direction" (JStr "sendonly") in
  let m := js_set (js_set (js_set m "rtp" (JArr [])) "rtcpFb" (JArr [])) "fmtp" (JArr []) in
  let m := if so_planB o then m else js_set m "msid" (JStr (msid_of streamId trackId)) in
  codecs ← iterate (js_get offerRtpParameters "codecs");
  m ← fold_ok add_offer_codec m codecs;
  let m := js_set m "payloads" (JStr (codec_payloads codecs)) in
  exts ← iterate (js_get offerRtpParameters "headerExtensions");
  lines ← traverse extension_line exts;
  let m := js_set m "ext" (JArr lines) in
  let m := js_set (js_set m "rtcpMux" (JStr "rtcp-mux")) "rtcpRsize" (JStr "rtcp-rsize") in
  ls ← encoding_lines offerRtpParameters (if so_planB o then Some (msid_of streamId trackId) else None);
  Ok (js_set (js_set m "ssrcs" (JArr (sl_lines ls))) "ssrcGroups" (JArr (sl_groups ls))).

Definition new_OfferMediaSection (o : SectionOptions)
    (sctpParameters mid kind offerRtpParameters streamId trackId : jsval) (oldDataChannelSpec : bool) : outcome jsval :=
  m ← base_section OfferSection o;
  let m := js_set (js_set m "mid" (JStr (js_to_string mid))) "type" kind in
  let protocol := if truthy (so_plainRtpParameters o) then "RTP/AVP"
                  else if truthy sctpParameters then "UDP/DTLS/SCTP" else "UDP/TLS/RTP/SAVPF" in
  let m := set_connection o (js_set m "protocol" (JStr protocol)) in
  if is_str kind "audio" || is_str kind "video" then offer_media o offerRtpParameters streamId trackId m
  else if is_str kind "application" then
    if oldDataChannelSpec then old_sctp_lines sctpParameters m else sctp_lines sctpParameters m
  else Ok m.

(** ** Plan B *)

(** A codec the section does not list yet. *)
Definition plan_b_codec (payloads : list string) (m codec : jsval) : outcome jsval :=
  payload ← get_prop codec "payloadType";
  if existsb (String.eqb (js_to_string payload)) payloads then Ok m else add_offer_codec m codec.

Definition text_of (v : jsval) : outcome string := match v with JStr s => Ok s | _ => Throw "split is not a function" end.

(** The payloads line with those of the new codecs, told apart by [includes] on the
    text of the line. *)
Definition plan_b_payloads (payloads : string) (codecs : list jsval) : string :=
  js_trim (payloads +:+ " " +:+
    codec_payloads (List.filter (λ c, negb (includes payloads (js_to_string (js_get c "payloadType")))) codecs)).

Definition planBReceive (offerRtpParameters streamId trackId m : jsval) : outcome jsval :=
  ls ← encoding_lines offerRtpParameters (Some (msid_of streamId trackId));
  payloads ← text_of (js_get m "payloads");
  codecs ← iterate (js_get offerRtpParameters "codecs");
  m ← fold_ok (plan_b_codec (split_space payloads)) m codecs;
  let m := js_set m "payloads" (JStr (plan_b_payloads payloads codecs)) in
  Ok (js_set (js_set m "ssrcs" (JArr (elements (js_get m "ssrcs") ++ sl_lines ls)))
        "ssrcGroups" (JArr (elements (js_get m "ssrcGroups") ++ sl_groups ls))).

Definition planBStopReceiving (offerRtpParameters m : jsval) : outcome jsval :=
  encodings ← iterate (js_get offerRtpParameters "encodings");
  ssrc ← get_prop (at_index encodings 0) "ssrc";
  let rtxSsrc := js_get (js_get (at_index encodings 0) "rtx") "ssrc" in
  lines ← iterate (js_get m "ssrcs");
  let m := js_set m "ssrcs"
    (JArr (List.filter (λ s, negb (strict_eq (js_get s "id") ssrc) && negb (strict_eq (js_get s "id") rtxSsrc)) lines)) in
  if truthy rtxSsrc then
    groups ← iterate (js_get m "ssrcGroups");
    Ok (js_set m "ssrcGroups"
      (JArr (List.filter (λ g, negb (is_str (js_get g "ssrcs") (js_to_string ssrc +:+ " " +:+ js_to_string rtxSsrc))) groups)))
  else Ok m.

(** ** Simulcast layers of an answer *)

Section Mux.
Context (parseSimulcastStreamList : jsval → outcome (list (list jsval))).

(** [layers], by [rid]. *)
Definition add_layer (layers : list (string * jsval)) (encoding : jsval) : outcome (list (string * jsval)) :=
  rid ← get_prop encoding "rid";
  Ok (if truthy rid then map_set layers (js_to_string rid) encoding else layers).

Definition format_text (layers : list (string * jsval)) (f : jsval) : string :=
  let scid := js_get f "scid" in
  let paused := negb (truthy (js_get (default JUndef (map_get layers (js_to_string scid))) "active")) in
  (if paused then "~" else "") +:+ js_to_string scid.

Definition muxSimulcastStreams (encodings m : jsval) : outcome jsval :=
  let simulcast := js_get m "simulcast" in
  let raw := js_get simulcast "list1" in
  if negb (truthy raw) then Ok m
  else
    l ← iterate encodings;
    layers ← fold_ok add_layer [] l;
    streams ← parseSimulcastStreamList raw;
    Ok (js_set m "simulcast" (js_set simulcast "list1"
          (JStr (String.concat ";" (map (λ formats, String.concat "," (map (format_text layers) formats)) streams))))).
End Mux.
