(* ===== verification/MediaSectionProofs.v ===== *)
(** * Properties of media sections *)

From Stdlib Require Import QArith.
From S2P Require Import Prelude JsNum JsVal JsConv JsString OrtcValidate Ortc SdpUtils SdpProofs MediaSection.
Local Open Scope string_scope.
Local Open Scope list_scope.
Local Open Scope Z_scope.

(** ** Codec lines *)

Definition payload_of (l : jsval) : jsval := js_get l "payload".
Definition type_of (c : jsval) : jsval := js_get c "payloadType".

Lemma lines_payloads c p fbs ls : lines_of c p fbs = Ok ls →
  map payload_of (cl_rtp ls) = [type_of c] ∧ Forall (λ l, payload_of l = type_of c) (cl_fmtp ls ++ cl_fb ls).
Proof.
  unfold lines_of. intros H. bind_inv. subst ls. cbn [cl_rtp cl_fmtp cl_fb]. unfold rtp_line in Hm. bind_inv. subst a.
  unfold get_prop in Hm1. destruct (is_nullish c); [done|]. injection Hm1 as <-. split; [done|]. apply Forall_app. split.
  - unfold fmtp_lines. case_match; by repeat constructor.
  - eapply traverse_Forall; [|exact Hm0]. intros fb l Hl. unfold fb_line in Hl. bind_inv. by subst.
Qed.

(** The lists of codec lines of a section. *)
Definition rtp_lines (m : jsval) : list jsval := elements (js_get m "rtp").
Definition other_lines (m : jsval) : list jsval := elements (js_get m "fmtp") ++ elements (js_get m "rtcpFb").

Lemma add_lines_gets m ls : is_obj m = true →
  js_get (add_lines m ls) "rtp" = JArr (elements (js_get m "rtp") ++ cl_rtp ls) ∧
  js_get (add_lines m ls) "fmtp" = JArr (elements (js_get m "fmtp") ++ cl_fmtp ls) ∧
  js_get (add_lines m ls) "rtcpFb" = JArr (elements (js_get m "rtcpFb") ++ cl_fb ls) ∧ is_obj (add_lines m ls) = true.
Proof.
  intros Hm. destruct m as [| | | | | |o]; try done. unfold add_lines. cbn [js_set].
  split_and!; [| | |done]; cbn; rewrite ?map_get_set_ne, ?map_get_set_eq by done; cbn; rewrite ?map_get_set_ne by done; done.
Qed.

Lemma add_lines_other m ls k : k ∉ ["rtp"; "fmtp"; "rtcpFb"] → js_get (add_lines m ls) k = js_get m k.
Proof. intros Hk. unfold add_lines. rewrite !js_get_set_ne by set_solver. done. Qed.

(** A section lists these payload types. *)
Definition lists (m : jsval) (pts : list jsval) : Prop :=
  is_obj m = true ∧ map payload_of (rtp_lines m) = pts ∧ Forall (λ l, payload_of l ∈ pts) (other_lines m).

Lemma add_offer_codec_lists m c m' pts : lists m pts → add_offer_codec m c = Ok m' → lists m' (pts ++ [type_of c]).
Proof.
  intros (Ho & Hr & Hf) H. unfold add_offer_codec in H. bind_inv. subst m'. apply lines_payloads in Hm2 as [H1 H2].
  destruct (add_lines_gets m a2 Ho) as (E1 & E2 & E3 & E4). unfold lists, rtp_lines, other_lines in *. rewrite E1, E2, E3. cbn [elements].
  split_and!; [done|by rewrite map_app, Hr, H1|]. apply Forall_app in Hf as [Hf1 Hf2]. apply Forall_app in H2 as [H2 H3].
  assert (∀ l, Forall (λ x, payload_of x ∈ pts) l → Forall (λ x, payload_of x ∈ pts ++ [type_of c]) l) as Hw.
  { intros l Hl. eapply Forall_impl; [exact Hl|]. intros x Hx. apply elem_of_app. by left. }
  assert (∀ l, Forall (λ x, payload_of x = type_of c) l → Forall (λ x, payload_of x ∈ pts ++ [type_of c]) l) as Hn.
  { intros l Hl. eapply Forall_impl; [exact Hl|]. intros x ->. apply elem_of_app. right. by left. }
  rewrite !Forall_app. auto.
Qed.

Lemma add_offer_codecs_lists codecs m m' pts : lists m pts → fold_ok add_offer_codec m codecs = Ok m' → lists m' (pts ++ map type_of codecs).
Proof.
  revert m pts. induction codecs as [|c codecs IH]; intros m pts Hl H; cbn in H; [injection H as <-; by rewrite app_nil_r|].
  apply bind_ok_inv in H as (m1 & H1 & H). cbn. replace (pts ++ type_of c :: map type_of codecs) with ((pts ++ [type_of c]) ++ map type_of codecs)
    by by rewrite <-app_assoc. apply (IH m1); [by eapply add_offer_codec_lists|done].
Qed.

Lemma lists_set m pts k x : lists m pts → k ∉ ["rtp"; "fmtp"; "rtcpFb"] → lists (js_set m k x) pts.
Proof.
  intros (Ho & Hr & Hf) Hk. unfold lists, rtp_lines, other_lines in *. rewrite !js_get_set_ne by set_solver. split_and!; [by destruct m|done|done].
Qed.

Lemma start_lists o st tr m : is_obj m = true →
  lists (let m := js_set m "direction" (JStr "sendonly") in
         let m := js_set (js_set (js_set m "rtp" (JArr [])) "rtcpFb" (JArr [])) "fmtp" (JArr []) in
         if so_planB o then m else js_set m "msid" (JStr (msid_of st tr))) [].
Proof.
  intros Ho. destruct m as [| | | | | |l]; try done. cbv zeta.
  set (m1 := js_set (js_set (js_set _ "rtp" _) "rtcpFb" _) "fmtp" _).
  assert (lists m1 []) as H1; [|case_match; [done|by apply lists_set; [|set_solver]]].
  unfold lists, rtp_lines, other_lines, m1. cbn [js_set].
  assert (∀ o', js_get (JObj (map_set (map_set (map_set o' "rtp" (JArr [])) "rtcpFb" (JArr [])) "fmtp" (JArr []))) "rtp" = JArr [] ∧
    js_get (JObj (map_set (map_set (map_set o' "rtp" (JArr [])) "rtcpFb" (JArr [])) "fmtp" (JArr []))) "fmtp" = JArr [] ∧
    js_get (JObj (map_set (map_set (map_set o' "rtp" (JArr [])) "rtcpFb" (JArr [])) "fmtp" (JArr []))) "rtcpFb" = JArr []) as Hg.
  { intros o'. cbn. by rewrite !map_get_set_eq, !(map_get_set_ne _ "fmtp"), !map_get_set_eq, !(map_get_set_ne _ "rtcpFb"), !map_get_set_eq by done. }
  destruct (Hg (map_set l "direction" (JStr "sendonly"))) as (-> & -> & ->). by split_and!.
Qed.

Lemma codec_payloads_join codecs : codec_payloads codecs = join " " (map type_of codecs).
Proof. done. Qed.

(** A line of payload types read by cutting it at its spaces. *)
Lemma join_words zs : zs ≠ [] → Forall (λ z, 0 ≤ z ≤ 2 ^ 53) zs →
  map string_to_number (split_space (join " " (map js_int zs))) = map num_of_Z zs.
Proof.
  intros Hne Hz. unfold join. rewrite map_map. cbn. rewrite split_space_words.
  - rewrite map_map. apply map_ext_Forall. eapply Forall_impl; [exact Hz|]. intros z. apply safe_integer_roundtrip.
  - by destruct zs.
  - apply Forall_fmap. eapply Forall_impl; [exact Hz|]. intros z Hz'. by apply print_safe_word.
Qed.

(** C19: the offer written for a consumer lists its codecs: one [rtpmap] line per codec in
    order; the payloads line is their payload types in the same order, separated by
    spaces, so that, cut at its spaces and read as numbers, it gives those types back
    whenever they are natural numbers up to 2^53 and there is at least one; and every
    format and feedback line belongs to one of them. *)
Theorem offer_lists_codecs o sctp mid kind p st tr old m codecs : is_str kind "audio" || is_str kind "video" = true →
  js_get p "codecs" = JArr codecs → new_OfferMediaSection o sctp mid kind p st tr old = Ok m →
  map payload_of (elements (js_get m "rtp")) = map type_of codecs ∧
  (∃ line, js_get m "payloads" = JStr line ∧ line = join " " (map type_of codecs) ∧
    ∀ zs, map type_of codecs = map js_int zs → zs ≠ [] → Forall (λ z, 0 ≤ z ≤ 2 ^ 53) zs →
      map string_to_number (split_space line) = map num_of_Z zs) ∧
  Forall (λ l, payload_of l ∈ map type_of codecs) (elements (js_get m "fmtp") ++ elements (js_get m "rtcpFb")).
Proof.
  intros Hk Hc H. unfold new_OfferMediaSection in H. apply bind_ok_inv in H as (m0 & H0 & H). rewrite Hk in H.
  assert (is_obj m0 = true) as Ho.
  { unfold base_section in H0. apply bind_ok_inv in H0 as (m1 & H1 & [= <-]).
    assert (is_obj m1 = true); [|by destruct (truthy (so_dtlsParameters o)), m1].
    destruct (truthy (so_iceCandidates o)); bind_inv; subst; by destruct (truthy (so_iceParameters o)). }
  set (m1 := set_connection o _) in H. assert (is_obj m1 = true) as Ho1.
  { unfold m1, set_connection. destruct m0; try done. by destruct (truthy (so_plainRtpParameters o)). }
  unfold offer_media in H. rewrite Hc in H. cbn [iterate mbind outcome_bind] in H. apply bind_ok_inv in H as (m2 & H2 & H).
  eapply add_offer_codecs_lists in H2; [|by apply start_lists]. cbn [app] in H2. bind_inv. subst m.
  set (m3 := js_set m2 "payloads" _). assert (lists m3 (map type_of codecs)) as H3 by (apply lists_set; [done|set_solver]).
  assert (js_get m3 "payloads" = JStr (codec_payloads codecs)) as Hp by (destruct H2 as [H2 _]; destruct m2; try done; apply js_get_set_eq).
  destruct (lists_set (js_set (js_set (js_set (js_set m3 "ext" (JArr a0)) "rtcpMux" (JStr "rtcp-mux")) "rtcpRsize" (JStr "rtcp-rsize"))
    "ssrcs" (JArr (sl_lines a1))) (map type_of codecs) "ssrcGroups" (JArr (sl_groups a1))) as (_ & Hr & Hf); [|set_solver|].
  { repeat (apply lists_set; [|set_solver]). done. }
  split_and!; [done| |done]. exists (codec_payloads codecs). rewrite codec_payloads_join.
  split_and!; [by rewrite !js_get_set_ne by done|done|]. intros zs ->. apply join_words.
Qed.

(** ** Plan B *)

Lemma plan_b_codec_keeps ps m c m' k : k ∉ ["rtp"; "fmtp"; "rtcpFb"] → is_obj m = true → plan_b_codec ps m c = Ok m' →
  js_get m' k = js_get m k ∧ is_obj m' = true.
Proof.
  intros Hk Ho H. unfold plan_b_codec in H. bind_inv. destruct (existsb _ ps); [by bind_inv; subst|].
  unfold add_offer_codec in H. bind_inv. subst. split; [by apply add_lines_other|]. by destruct (add_lines_gets m a3 Ho) as (_ & _ & _ & ?).
Qed.

Lemma plan_b_codecs_keep ps codecs m m' k : k ∉ ["rtp"; "fmtp"; "rtcpFb"] → is_obj m = true → fold_ok (plan_b_codec ps) m codecs = Ok m' →
  js_get m' k = js_get m k ∧ is_obj m' = true.
Proof.
  intros Hk. revert m. induction codecs as [|c codecs IH]; intros m Ho H; cbn in H; [by injection H as <-|].
  apply bind_ok_inv in H as (m1 & H1 & H). destruct (plan_b_codec_keeps _ _ _ _ _ Hk Ho H1) as [<- Ho1]. by apply IH.
Qed.

Lemma filter_app_none (p : jsval → bool) l l' : (∀ x, x ∈ l → p x = true) → (∀ x, x ∈ l' → p x = false) → List.filter p (l ++ l') = l.
Proof.
  intros Hl Hl'. rewrite List.filter_app, filter_all by done.
  assert (List.filter p l' = []) as ->; [|by rewrite app_nil_r]. induction l' as [|x l' IH]; [done|]. cbn. rewrite (Hl' x) by left.
  apply IH. intros y Hy. apply Hl'. by right.
Qed.

Lemma get_prop_ok v k : is_nullish v = false → get_prop v k = Ok (js_get v k).
Proof. unfold get_prop. by intros ->. Qed.

(** The SSRC and the RTX SSRC of a consumer's first encoding. *)
Definition encoding_ssrcs (p ssrc rtxSsrc : jsval) : Prop :=
  ∃ enc encs, js_get p "encodings" = JArr (enc :: encs) ∧ is_nullish enc = false ∧ js_get enc "ssrc" = ssrc ∧
    js_get (js_get enc "rtx") "ssrc" = rtxSsrc.

Lemma offer_ssrc_lines_ids cname msid id l : l ∈ offer_ssrc_lines cname msid id → js_get l "id" = id.
Proof.
  unfold offer_ssrc_lines. intros [H|H]%elem_of_app.
  - destruct (truthy cname); [|by apply elem_of_nil in H]. apply list_elem_of_singleton in H. by subst.
  - destruct msid; [|by apply elem_of_nil in H]. apply list_elem_of_singleton in H. by subst.
Qed.

(** C39: in plan B, ceasing to receive a consumer takes out of the section exactly the SSRC
    lines and groups that receiving it has put in. *)
Theorem plan_b_stop_undoes_receive o p st tr m' s rtxSsrc lines groups :
  js_get (JObj o) "ssrcs" = JArr lines → js_get (JObj o) "ssrcGroups" = JArr groups →
  encoding_ssrcs p (js_int s) rtxSsrc → rtxSsrc = JUndef ∨ (∃ r, rtxSsrc = js_int r ∧ r ≠ 0) →
  (∀ l, l ∈ lines → strict_eq (js_get l "id") (js_int s) = false ∧ strict_eq (js_get l "id") rtxSsrc = false) →
  (∀ g, g ∈ groups → is_str (js_get g "ssrcs") (js_to_string (js_int s) +:+ " " +:+ js_to_string rtxSsrc) = false) →
  planBReceive p st tr (JObj o) = Ok m' →
  ∃ m'', planBStopReceiving p m' = Ok m'' ∧ js_get m'' "ssrcs" = JArr lines ∧ js_get m'' "ssrcGroups" = JArr groups.
Proof.
  intros Hl Hg (enc & encs & He & Hn & Hs & Hr) Hrtx Hlines Hgroups H. unfold planBReceive in H.
  apply bind_ok_inv in H as (ls & Hls & H). apply bind_ok_inv in H as (payloads & _ & H). apply bind_ok_inv in H as (codecs & _ & H).
  apply bind_ok_inv in H as (m1 & H1 & H). injection H as <-.
  destruct (plan_b_codecs_keep _ _ (JObj o) _ "ssrcs" ltac:(set_solver) eq_refl H1) as [E1 Ho1].
  destruct (plan_b_codecs_keep _ _ (JObj o) _ "ssrcGroups" ltac:(set_solver) eq_refl H1) as [E2 _].
  destruct m1 as [| | | | | |o1]; try done.
  unfold encoding_lines in Hls. rewrite He in Hls. cbn [iterate mbind outcome_bind] in Hls.
  change (at_index (enc :: encs) 0) with enc in Hls. rewrite (get_prop_ok enc) in Hls by done. cbn [mbind outcome_bind] in Hls.
  apply bind_ok_inv in Hls as (cname & _ & Hls). injection Hls as <-. rewrite Hs, Hr. cbn [sl_lines sl_groups].
  unfold planBStopReceiving. rewrite He. cbn [iterate mbind outcome_bind]. change (at_index (enc :: encs) 0) with enc.
  rewrite (get_prop_ok enc) by done. cbn [mbind outcome_bind]. rewrite Hs, Hr.
  rewrite !(js_get_set_ne (JObj o1) "payloads") by done. rewrite E1, E2, Hl, Hg. cbn [elements].
  match goal with |- context [js_set (js_set (js_set (JObj o1) "payloads" ?x) "ssrcs" (JArr ?l)) "ssrcGroups" (JArr ?g)] =>
    set (L := l); set (G := g); set (m2 := js_set (js_set (js_set (JObj o1) "payloads" x) "ssrcs" (JArr L)) "ssrcGroups" (JArr G)) end.
  assert (js_get m2 "ssrcs" = JArr L) as -> by (unfold m2; rewrite js_get_set_ne by done; apply js_get_set_eq).
  assert (js_get m2 "ssrcGroups" = JArr G) as EG by apply js_get_set_eq.
  assert (is_obj m2 = true) as Hm2 by done. clearbody m2. cbn [iterate mbind outcome_bind].
  assert (strict_eq (js_int s) (js_int s) = true) as Hss by (apply Qeq_bool_refl).
  match goal with |- context [List.filter ?f L] => assert (List.filter f L = lines) as -> end.
  { apply filter_app_none.
    - intros l Hin. destruct (Hlines l Hin) as [-> ->]. done.
    - intros l [Hin|Hin]%elem_of_app; [apply offer_ssrc_lines_ids in Hin as ->; by rewrite Hss|].
      destruct (truthy rtxSsrc) eqn:Et; [|by apply elem_of_nil in Hin]. apply offer_ssrc_lines_ids in Hin as ->.
      destruct Hrtx as [-> |(r & -> & Hr0)]; [done|]. apply andb_false_iff. right. apply negb_false_iff, Qeq_bool_refl. }
  destruct m2 as [| | | | | |o2]; try done. destruct Hrtx as [-> |(r & -> & Hr0)].
  - cbn [truthy]. eexists. split; [done|]. split; [apply js_get_set_eq|]. rewrite js_get_set_ne, EG by done. unfold G. by rewrite app_nil_r.
  - rewrite truthy_int by done. rewrite js_get_set_ne, EG by done. cbn [iterate mbind outcome_bind]. eexists. split; [done|]. split.
    + rewrite js_get_set_ne by done. apply js_get_set_eq.
    + match goal with |- context [js_set (js_set (JObj o2) "ssrcs" ?x) "ssrcGroups" ?y] =>
        change (js_set (JObj o2) "ssrcs" x) with (JObj (map_set o2 "ssrcs" x)) end.
      rewrite js_get_set_eq. f_equal. apply filter_app_none.
      * intros g Hin. by rewrite (Hgroups g Hin).
      * intros g Hin. rewrite truthy_int in Hin by done. apply list_elem_of_singleton in Hin. subst g. apply negb_false_iff.
        change (String.eqb (js_to_string (js_int s) +:+ " " +:+ js_to_string (js_int r)) (js_to_string (js_int s) +:+ " " +:+ js_to_string (js_int r)) = true).
        apply String.eqb_refl.
Qed.
