(* ===== verification/RemoteSdp.v ===== *)
(** * The remote description (src/client/lib/handlers/sdp/RemoteSdp.js)

    The description of the server that the client composes by itself: its media
    sections in order, the index of their identifiers, the BUNDLE group and the
    session version.  The object of a section is shared between the section and the
    description's [media] array, so objects live in a store and both hold their
    addresses. *)

From stdpp Require Import gmap.
From S2P Require Import Prelude JsNum JsVal JsConv JsString OrtcValidate Ortc SdpUtils MediaSection.
Local Open Scope string_scope.
Local Open Scope list_scope.

Record MediaSection := {
  ms_class : section_class;
  ms_object : nat;
}.

Record RemoteSdp := {
  (** The objects of sections, and the next unused address. *)
  rs_objects : gmap nat jsval;
  rs_next : nat;
  rs_mediaSections : list MediaSection;
  rs_midToIndex : list (string * nat);
  (** Empty until the first section is added. *)
  rs_firstMid : string;
  rs_options : SectionOptions;
  rs_sctpParameters : jsval;
  (** Of [_sdpObject]: its media array, the BUNDLE mids, [icelite], the fingerprint and
      the version. *)
  rs_media : list nat;
  rs_bundle : string;
  rs_icelite : jsval;
  rs_fingerprint : jsval;
  rs_sessionVersion : Z;
}.

(** The constructor; of several fingerprints it takes the last. *)
Definition new_RemoteSdp (o : SectionOptions) (sctpParameters : jsval) : outcome RemoteSdp :=
  fingerprint ← (if truthy (so_dtlsParameters o) then
                   fingerprints ← iterate (js_get (so_dtlsParameters o) "fingerprints");
                   let f := default JUndef (last fingerprints) in
                   algorithm ← get_prop f "algorithm";
                   Ok (JObj [("type", algorithm); ("hash", js_get f "value")])
                 else Ok JUndef);
  Ok {| rs_objects := ∅; rs_next := 0; rs_mediaSections := []; rs_midToIndex := []; rs_firstMid := ""; rs_options := o;
        rs_sctpParameters := sctpParameters; rs_media := []; rs_bundle := "";
        rs_icelite := if truthy (js_get (so_iceParameters o) "iceLite") then JStr "ice-lite" else JUndef;
        rs_fingerprint := fingerprint; rs_sessionVersion := 0 |}.

(** ** Sections *)

Definition object_of (rs : RemoteSdp) (s : MediaSection) : jsval := default JUndef (rs_objects rs !! ms_object s).
Definition mid_of (rs : RemoteSdp) (s : MediaSection) : string := section_mid (object_of rs s).
Definition closed_of (rs : RemoteSdp) (s : MediaSection) : bool := section_closed (object_of rs s).

Definition with_objects (objects : gmap nat jsval) (next : nat) (rs : RemoteSdp) : RemoteSdp :=
  {| rs_objects := objects; rs_next := next; rs_mediaSections := rs_mediaSections rs; rs_midToIndex := rs_midToIndex rs;
     rs_firstMid := rs_firstMid rs; rs_options := rs_options rs; rs_sctpParameters := rs_sctpParameters rs;
     rs_media := rs_media rs; rs_bundle := rs_bundle rs; rs_icelite := rs_icelite rs; rs_fingerprint := rs_fingerprint rs;
     rs_sessionVersion := rs_sessionVersion rs |}.
Definition with_sections (sections : list MediaSection) (index : list (string * nat)) (first : string) (media : list nat)
    (rs : RemoteSdp) : RemoteSdp :=
  {| rs_objects := rs_objects rs; rs_next := rs_next rs; rs_mediaSections := sections; rs_midToIndex := index;
     rs_firstMid := first; rs_options := rs_options rs; rs_sctpParameters := rs_sctpParameters rs; rs_media := media;
     rs_bundle := rs_bundle rs; rs_icelite := rs_icelite rs; rs_fingerprint := rs_fingerprint rs; rs_sessionVersion := rs_sessionVersion rs |}.
Definition with_bundle (bundle : string) (rs : RemoteSdp) : RemoteSdp :=
  {| rs_objects := rs_objects rs; rs_next := rs_next rs; rs_mediaSections := rs_mediaSections rs;
     rs_midToIndex := rs_midToIndex rs; rs_firstMid := rs_firstMid rs; rs_options := rs_options rs;
     rs_sctpParameters := rs_sctpParameters rs; rs_media := rs_media rs; rs_bundle := bundle; rs_icelite := rs_icelite rs; rs_fingerprint := rs_fingerprint rs;
     rs_sessionVersion := rs_sessionVersion rs |}.
Definition with_session (o : SectionOptions) (icelite : jsval) (version : Z) (rs : RemoteSdp) : RemoteSdp :=
  {| rs_objects := rs_objects rs; rs_next := rs_next rs; rs_mediaSections := rs_mediaSections rs;
     rs_midToIndex := rs_midToIndex rs; rs_firstMid := rs_firstMid rs; rs_options := o;
     rs_sctpParameters := rs_sctpParameters rs; rs_media := rs_media rs; rs_bundle := rs_bundle rs; rs_icelite := icelite; rs_fingerprint := rs_fingerprint rs;
     rs_sessionVersion := version |}.

(** A new section around a new object. *)
Definition create (c : section_class) (obj : jsval) (rs : RemoteSdp) : RemoteSdp * MediaSection :=
  (with_objects (<[rs_next rs := obj]> (rs_objects rs)) (S (rs_next rs)) rs, {| ms_class := c; ms_object := rs_next rs |}).

(** A method that changes the object of a section. *)
Definition modify (s : MediaSection) (f : jsval → jsval) (rs : RemoteSdp) : RemoteSdp :=
  with_objects (alter f (ms_object s) (rs_objects rs)) (rs_next rs) rs.
Definition modify_ok (s : MediaSection) (f : jsval → outcome jsval) (rs : RemoteSdp) : outcome RemoteSdp :=
  obj ← f (object_of rs s); Ok (with_objects (<[ms_object s := obj]> (rs_objects rs)) (rs_next rs) rs).

(** ** Private methods *)

Definition open_mids (rs : RemoteSdp) : list string :=
  map (mid_of rs) (List.filter (λ s, negb (closed_of rs s)) (rs_mediaSections rs)).

Definition _regenerateBundleMids (rs : RemoteSdp) : RemoteSdp :=
  if truthy (so_dtlsParameters (rs_options rs)) then with_bundle (String.concat " " (open_mids rs)) rs else rs.

Definition _findMediaSection (rs : RemoteSdp) (mid : string) : outcome MediaSection :=
  match map_get (rs_midToIndex rs) mid with
  | None => Throw "no media section found with mid"
  | Some idx => match rs_mediaSections rs !! idx with
                | Some s => Ok s
                | None => Throw "Cannot read properties of undefined"
                end
  end.

Definition _addMediaSection (s : MediaSection) (rs : RemoteSdp) : RemoteSdp :=
  let mid := mid_of rs s in
  let sections := rs_mediaSections rs ++ [s] in
  _regenerateBundleMids (with_sections sections (map_set (rs_midToIndex rs) mid (length sections - 1))
    (if String.eqb (rs_firstMid rs) "" then mid else rs_firstMid rs) (rs_media rs ++ [ms_object s]) rs).

Definition _replaceMediaSection (s : MediaSection) (reuseMid : option string) (rs : RemoteSdp) : outcome RemoteSdp :=
  match reuseMid with
  | Some reuse =>
      match map_get (rs_midToIndex rs) reuse with
      | None => Throw "no media section found for reuseMid"
      | Some idx =>
          match rs_mediaSections rs !! idx with
          | None => Throw "Cannot read properties of undefined"
          | Some old =>
              Ok (_regenerateBundleMids (with_sections (<[idx := s]> (rs_mediaSections rs))
                    (map_set (map_delete (rs_midToIndex rs) (mid_of rs old)) (mid_of rs s) idx) (rs_firstMid rs)
                    (<[idx := ms_object s]> (rs_media rs)) rs))
          end
      end
  | None =>
      match map_get (rs_midToIndex rs) (mid_of rs s) with
      | None => Throw "no media section found with mid"
      | Some idx =>
          Ok (with_sections (<[idx := s]> (rs_mediaSections rs)) (rs_midToIndex rs) (rs_firstMid rs)
                (<[idx := ms_object s]> (rs_media rs)) rs)
      end
  end.

(** ** Public methods *)

Definition updateIceParameters (iceParameters : jsval) (rs : RemoteSdp) : outcome RemoteSdp :=
  iceLite ← get_prop iceParameters "iceLite";
  let o := rs_options rs in
  let o := {| so_iceParameters := iceParameters; so_iceCandidates := so_iceCandidates o;
              so_dtlsParameters := so_dtlsParameters o; so_plainRtpParameters := so_plainRtpParameters o;
              so_planB := so_planB o |} in
  let rs := with_session o (if truthy iceLite then JStr "ice-lite" else JUndef) (rs_sessionVersion rs) rs in
  Ok (foldl (λ rs s, modify s (setIceParameters iceParameters) rs) rs (rs_mediaSections rs)).

Definition updateDtlsRole (role : jsval) (rs : RemoteSdp) : outcome RemoteSdp :=
  let o := rs_options rs in
  _ ← throw_if (is_nullish (so_dtlsParameters o)) "Cannot set properties of undefined";
  let o := {| so_iceParameters := so_iceParameters o; so_iceCandidates := so_iceCandidates o;
              so_dtlsParameters := js_set (so_dtlsParameters o) "role" role;
              so_plainRtpParameters := so_plainRtpParameters o; so_planB := so_planB o |} in
  let rs := with_session o (rs_icelite rs) (rs_sessionVersion rs) rs in
  Ok (foldl (λ rs s, modify s (setDtlsRole (ms_class s) role) rs) rs (rs_mediaSections rs)).

(** The first closed section. *)
Fixpoint find_closed (rs : RemoteSdp) (i : nat) (l : list MediaSection) : option (nat * string) :=
  match l with
  | [] => None
  | s :: l => if closed_of rs s then Some (i, mid_of rs s) else find_closed rs (S i) l
  end.

Definition getNextMediaSectionIdx (rs : RemoteSdp) : nat * option string :=
  match find_closed rs 0 (rs_mediaSections rs) with
  | Some (idx, mid) => (idx, Some mid)
  | None => (length (rs_mediaSections rs), None)
  end.

(** [send]: the description and the RTP parameters of the offer. *)
Definition send (offerMediaObject : jsval) (reuseMid : option string)
    (offerRtpParameters answerRtpParameters codecOptions : jsval) (extmapAllowMixed : bool) (rs : RemoteSdp) :
    outcome (RemoteSdp * jsval) :=
  '(obj, offer) ← new_AnswerMediaSection (rs_options rs) JUndef offerMediaObject offerRtpParameters answerRtpParameters
                    codecOptions extmapAllowMixed;
  let '(rs, s) := create AnswerSection obj rs in
  rs ← (if match reuseMid with Some r => negb (String.eqb r "") | None => false end then _replaceMediaSection s reuseMid rs
        else match map_get (rs_midToIndex rs) (mid_of rs s) with
             | None => Ok (_addMediaSection s rs)
             | Some _ => _replaceMediaSection s None rs
             end);
  Ok (rs, offer).

Definition receive (mid : string) (kind offerRtpParameters streamId trackId : jsval) (rs : RemoteSdp) : outcome RemoteSdp :=
  match map_get (rs_midToIndex rs) mid ≫= λ idx, rs_mediaSections rs !! idx with
  | None =>
      obj ← new_OfferMediaSection (rs_options rs) JUndef (JStr mid) kind offerRtpParameters streamId trackId false;
      let '(rs', s) := create OfferSection obj rs in
      match array_find (closed_of rs) (rs_mediaSections rs) with
      | Some old => _replaceMediaSection s (Some (mid_of rs old)) rs'
      | None => Ok (_addMediaSection s rs')
      end
  | Some s =>
      match ms_class s with
      | OfferSection =>
          rs ← modify_ok s (planBReceive offerRtpParameters streamId trackId) rs;
          _replaceMediaSection s None rs
      | AnswerSection => Throw "planBReceive is not a function"
      end
  end.

Definition pauseMediaSection (mid : string) (rs : RemoteSdp) : outcome RemoteSdp :=
  s ← _findMediaSection rs mid; Ok (modify s section_pause rs).
Definition resumeSendingMediaSection (mid : string) (rs : RemoteSdp) : outcome RemoteSdp :=
  s ← _findMediaSection rs mid; Ok (modify s (section_resume (ms_class s)) rs).
Definition resumeReceivingMediaSection (mid : string) (rs : RemoteSdp) : outcome RemoteSdp :=
  s ← _findMediaSection rs mid; Ok (modify s (section_resume (ms_class s)) rs).
Definition disableMediaSection (mid : string) (rs : RemoteSdp) : outcome RemoteSdp :=
  s ← _findMediaSection rs mid; Ok (modify s section_disable rs).

Definition closeMediaSection (mid : string) (rs : RemoteSdp) : outcome (RemoteSdp * bool) :=
  s ← _findMediaSection rs mid;
  if String.eqb mid (rs_firstMid rs) then rs ← disableMediaSection mid rs; Ok (rs, false)
  else Ok (_regenerateBundleMids (modify s section_close rs), true).

Section Mux.
Context (parseSimulcastStreamList : jsval → outcome (list (list jsval))).

Definition muxMediaSectionSimulcast (mid : string) (encodings : jsval) (rs : RemoteSdp) : outcome RemoteSdp :=
  s ← _findMediaSection rs mid;
  match ms_class s with
  | AnswerSection =>
      rs ← modify_ok s (muxSimulcastStreams parseSimulcastStreamList encodings) rs; _replaceMediaSection s None rs
  | OfferSection => Throw "muxSimulcastStreams is not a function"
  end.

Definition planBStopReceiving (mid : string) (offerRtpParameters : jsval) (rs : RemoteSdp) : outcome RemoteSdp :=
  s ← _findMediaSection rs mid;
  match ms_class s with
  | OfferSection => rs ← modify_ok s (MediaSection.planBStopReceiving offerRtpParameters) rs; _replaceMediaSection s None rs
  | AnswerSection => Throw "planBStopReceiving is not a function"
  end.

Definition sendSctpAssociation (offerMediaObject : jsval) (rs : RemoteSdp) : outcome RemoteSdp :=
  '(obj, _) ← new_AnswerMediaSection
     {| so_iceParameters := so_iceParameters (rs_options rs); so_iceCandidates := so_iceCandidates (rs_options rs);
        so_dtlsParameters := so_dtlsParameters (rs_options rs);
        so_plainRtpParameters := so_plainRtpParameters (rs_options rs); so_planB := false |}
     (rs_sctpParameters rs) offerMediaObject JUndef JUndef JUndef false;
  let '(rs, s) := create AnswerSection obj rs in Ok (_addMediaSection s rs).

Definition receiveSctpAssociation (oldDataChannelSpec : bool) (rs : RemoteSdp) : outcome RemoteSdp :=
  obj ← new_OfferMediaSection
     {| so_iceParameters := so_iceParameters (rs_options rs); so_iceCandidates := so_iceCandidates (rs_options rs);
        so_dtlsParameters := so_dtlsParameters (rs_options rs);
        so_plainRtpParameters := so_plainRtpParameters (rs_options rs); so_planB := false |}
     (rs_sctpParameters rs) (JStr "datachannel") (JStr "application") JUndef JUndef JUndef oldDataChannelSpec;
  let '(rs, s) := create OfferSection obj rs in Ok (_addMediaSection s rs).

(** ** The description written *)

(** [_sdpObject]. *)
Definition sdp_object (rs : RemoteSdp) : jsval :=
  let o := rs_options rs in
  let plain := so_plainRtpParameters o in
  let origin := JObj [("address", if truthy plain then js_get plain "ip" else JStr "0.0.0.0");
                      ("ipVer", if truthy plain then js_get plain "ipVersion" else js_int 4); ("netType", JStr "IN");
                      ("sessionId", js_int 10000); ("sessionVersion", js_int (rs_sessionVersion rs));
                      ("username", JStr "mediasoup-client")] in
  JObj ([("version", js_int 0); ("origin", origin); ("name", JStr "-");
         ("timing", JObj [("start", js_int 0); ("stop", js_int 0)]);
         ("media", JArr (map (λ a, default JUndef (rs_objects rs !! a)) (rs_media rs)));
         ("icelite", rs_icelite rs)] ++
        if truthy (so_dtlsParameters o) then
          [("msidSemantic", JObj [("semantic", JStr "WMS"); ("token", JStr "*")]); ("fingerprint", rs_fingerprint rs);
           ("groups", JArr [JObj [("type", JStr "BUNDLE"); ("mids", JStr (rs_bundle rs))]])]
        else []).

(** [getSdp]: one version later; what is written is the object. *)
Definition getSdp (rs : RemoteSdp) : RemoteSdp * jsval :=
  let rs := with_session (rs_options rs) (rs_icelite rs) (rs_sessionVersion rs + 1) rs in (rs, sdp_object rs).

(** ** Runs *)

Inductive sdp_op :=
| OpSend (offerMediaObject : jsval) (reuseMid : option string)
    (offerRtpParameters answerRtpParameters codecOptions : jsval) (extmapAllowMixed : bool)
| OpReceive (mid : string) (kind offerRtpParameters streamId trackId : jsval)
| OpPause (mid : string)
| OpResumeSending (mid : string)
| OpResumeReceiving (mid : string)
| OpDisable (mid : string)
| OpClose (mid : string)
| OpMux (mid : string) (encodings : jsval)
| OpPlanBStop (mid : string) (offerRtpParameters : jsval)
| OpSendSctp (offerMediaObject : jsval)
| OpReceiveSctp (old : bool)
| OpIce (iceParameters : jsval)
| OpRole (role : jsval)
| OpGetSdp.

Definition sdp_step (rs : RemoteSdp) (op : sdp_op) : outcome RemoteSdp :=
  match op with
  | OpSend offer reuse offerRtp answerRtp options mixed => r ← send offer reuse offerRtp answerRtp options mixed rs; Ok r.1
  | OpReceive mid kind params streamId trackId => receive mid kind params streamId trackId rs
  | OpPause mid => pauseMediaSection mid rs
  | OpResumeSending mid => resumeSendingMediaSection mid rs
  | OpResumeReceiving mid => resumeReceivingMediaSection mid rs
  | OpDisable mid => disableMediaSection mid rs
  | OpClose mid => r ← closeMediaSection mid rs; Ok r.1
  | OpMux mid encodings => muxMediaSectionSimulcast mid encodings rs
  | OpPlanBStop mid params => planBStopReceiving mid params rs
  | OpSendSctp offer => sendSctpAssociation offer rs
  | OpReceiveSctp old => receiveSctpAssociation old rs
  | OpIce ice => updateIceParameters ice rs
  | OpRole role => updateDtlsRole role rs
  | OpGetSdp => Ok (getSdp rs).1
  end.
End Mux.
