(* ===== verification/RemoteSdpProofs.v ===== *)
(** * Properties of the remote description

    The abstract view of a remote description is the list of its sections, each an
    identifier and whether it is closed.  [spec_step] says what each call does to
    that list; the concrete description with its store, index and BUNDLE group
    implements it. *)

From stdpp Require Import gmap.
From S2P Require Import Prelude JsNum JsVal JsConv JsString OrtcValidate Ortc SdpUtils MediaSection RemoteSdp.
Local Open Scope string_scope.
Local Open Scope list_scope.

(** ** What identifies a section *)

Definition same_ids (m m' : jsval) : Prop :=
  is_obj m' = is_obj m ∧ js_get m' "mid" = js_get m "mid" ∧ js_get m' "port" = js_get m "port".

Lemma ids_refl m : same_ids m m.
Proof. done. Qed.
Lemma ids_trans m m' m'' : same_ids m m' → same_ids m' m'' → same_ids m m''.
Proof. intros (H1 & H2 & H3) (H4 & H5 & H6). split_and!; congruence. Qed.
Lemma ids_set m m' k x : same_ids m m' → k ≠ "mid" → k ≠ "port" → same_ids m (js_set m' k x).
Proof. intros (H0 & H1 & H2) Hm Hp. split_and!; [by destruct m'|by rewrite js_get_set_ne..]. Qed.
Lemma ids_delete m m' k : same_ids m m' → k ≠ "mid" → k ≠ "port" → same_ids m (js_delete m' k).
Proof. intros (H0 & H1 & H2) Hm Hp. split_and!; [by destruct m'|by rewrite js_get_delete_ne..]. Qed.

Ltac ids := repeat first [apply ids_set; [|done|done] | apply ids_delete; [|done|done]]; try apply ids_refl; try done.

Lemma ids_ice ice m : same_ids m (setIceParameters ice m).
Proof. unfold setIceParameters. ids. Qed.
Lemma ids_role c role m : same_ids m (setDtlsRole c role m).
Proof. unfold setDtlsRole. destruct c; repeat case_match; ids. Qed.
Lemma ids_pause m : same_ids m (section_pause m).
Proof. unfold section_pause. ids. Qed.
Lemma ids_resume c m : same_ids m (section_resume c m).
Proof. unfold section_resume. ids. Qed.
Lemma ids_disable m : same_ids m (section_disable m).
Proof. unfold section_disable, disabled_fields, section_pause. cbn [foldl]. ids. Qed.

Lemma ids_lines m ls : same_ids m (add_lines m ls).
Proof. unfold add_lines. ids. Qed.

Lemma ids_offer_codec m c m' : add_offer_codec m c = Ok m' → same_ids m m'.
Proof. unfold add_offer_codec. intros H. bind_inv. subst. apply ids_lines. Qed.

Lemma fold_ok_ids {B} (f : jsval → B → outcome jsval) m l m' :
  (∀ m x m', f m x = Ok m' → same_ids m m') → fold_ok f m l = Ok m' → same_ids m m'.
Proof.
  intros Hf. revert m. induction l as [|x l IH]; intros m H; cbn in H; [by injection H as <-|].
  apply bind_ok_inv in H as (m1 & H1 & H). eapply ids_trans; [by eapply Hf|by apply IH].
Qed.

Lemma ids_plan_b p st tr m m' : planBReceive p st tr m = Ok m' → same_ids m m'.
Proof.
  unfold planBReceive. intros H. bind_inv. subst. ids. eapply fold_ok_ids; [|eassumption].
  intros m1 c m2 Hc. unfold plan_b_codec in Hc. bind_inv. case_match; [by bind_inv; subst|]. by eapply ids_offer_codec.
Qed.

Lemma ids_plan_b_stop p m m' : MediaSection.planBStopReceiving p m = Ok m' → same_ids m m'.
Proof. unfold MediaSection.planBStopReceiving. intros H. bind_inv. case_match; bind_inv; subst; ids. Qed.

Lemma ids_mux parse es m m' : muxSimulcastStreams parse es m = Ok m' → same_ids m m'.
Proof. unfold muxSimulcastStreams. intros H. case_match; bind_inv; subst; ids. Qed.

(** ** New sections *)

Definition plain_off (o : SectionOptions) : Prop := truthy (so_plainRtpParameters o) = false.

Lemma base_obj c o m : base_section c o = Ok m → is_obj m = true.
Proof.
  unfold base_section. intros H. apply bind_ok_inv in H as (m1 & H1 & [= <-]).
  assert (∀ m, is_obj m = true → is_obj (setDtlsRole c (js_get (so_dtlsParameters o) "role") m) = true) as Hr.
  { intros [| | | | | |]; try done. intros _. unfold setDtlsRole. destruct c; repeat case_match; done. }
  assert (is_obj m1 = true) as Hm1; [|destruct (truthy (so_dtlsParameters o)); [by apply Hr|done]].
  destruct (truthy (so_iceCandidates o)); bind_inv; subst; by destruct (truthy (so_iceParameters o)).
Qed.

(** What stays: an open section of this identifier. *)
Definition opens (mid : string) (m : jsval) : Prop := is_obj m = true ∧ section_mid m = mid ∧ section_closed m = false.

Lemma opens_ids mid m m' : opens mid m → same_ids m m' → opens mid m'.
Proof. unfold opens, section_mid, section_closed. intros (H0 & H1 & H2) (E & -> & ->). by rewrite E. Qed.

Lemma opens_connection o mid m : is_obj m = true → plain_off o → js_get m "mid" = JStr mid → opens mid (set_connection o m).
Proof.
  intros Hm Hp Hmid. destruct m as [| | | | | |l]; try done. unfold set_connection. rewrite Hp. cbn [negb].
  unfold opens, section_mid, section_closed. rewrite !(js_get_set_ne _ _ "mid") by done. rewrite Hmid. split_and!; [done|done|].
  change (js_set (JObj l) "connection" ?x) with (JObj (map_set l "connection" x)). by rewrite js_get_set_eq.
Qed.

Lemma ids_answer_codec options st c st' : add_answer_codec options st c = Ok st' → same_ids st.2 st'.2.
Proof. unfold add_answer_codec. intros H. apply bind_ok_inv in H as ([offer ls] & _ & [= <-]). apply ids_lines. Qed.

Lemma ids_answer_codecs options st l st' : fold_ok (add_answer_codec options) st l = Ok st' → same_ids st.2 st'.2.
Proof.
  revert st. induction l as [|c l IH]; intros st H; cbn in H; [by injection H as <-|].
  apply bind_ok_inv in H as (st1 & H1 & H). eapply ids_trans; [by eapply ids_answer_codec|by apply IH].
Qed.

Lemma ids_simulcast offer m m' : answer_simulcast offer m = Ok m' → same_ids m m'.
Proof. unfold answer_simulcast. intros H. repeat case_match; bind_inv; subst; ids. Qed.

Lemma ids_answer_media o a b c d e m r : answer_media o a b c d e m = Ok r → same_ids m r.2.
Proof.
  unfold answer_media. intros H. bind_inv. destruct a1 as [offer m1]. bind_inv. subst r. cbn [snd].
  apply ids_answer_codecs in Hm0. cbn [snd] in Hm0. apply ids_simulcast in Hm3.
  assert (same_ids m m1) as H1 by (eapply ids_trans; [|exact Hm0]; ids).
  assert (same_ids m a3) as H2 by (eapply ids_trans; [|exact Hm3]; case_match; ids).
  clear Hm3. case_match; ids.
Qed.

Lemma answer_opens o sctp offer p1 p2 opts mixed m r : plain_off o → new_AnswerMediaSection o sctp offer p1 p2 opts mixed = Ok (m, r) →
  opens (js_to_string (js_get offer "mid")) m.
Proof.
  intros Hp H. unfold new_AnswerMediaSection in H. apply bind_ok_inv in H as (m0 & H0 & H). apply base_obj in H0.
  apply bind_ok_inv in H as (mid & Hmid & H). unfold get_prop in Hmid. destruct (is_nullish offer); [done|]. injection Hmid as <-.
  set (m1 := set_connection o _) in H.
  assert (opens (js_to_string (js_get offer "mid")) m1) as H1.
  { apply opens_connection; [by destruct m0|done|]. rewrite !(js_get_set_ne _ _ "mid") by done. destruct m0; try done. apply js_get_set_eq. }
  destruct (_ || _); [|destruct (is_str _ "application")].
  - apply bind_ok_inv in H as ([off m2] & Hm2 & [= <- <-]). apply ids_answer_media in Hm2. by eapply opens_ids.
  - apply bind_ok_inv in H as (m2 & Hm2 & [= <- <-]). unfold sctp_lines, old_sctp_lines in Hm2. eapply opens_ids; [exact H1|].
    repeat case_match; bind_inv; subst; ids.
  - by injection H as <- <-.
Qed.

Lemma ids_offer_media o p st tr m m' : offer_media o p st tr m = Ok m' → same_ids m m'.
Proof.
  unfold offer_media. intros H. bind_inv. subst. ids.
  eapply ids_trans; [|eapply fold_ok_ids; [intros ???; apply ids_offer_codec|eassumption]]. case_match; ids.
Qed.

Lemma offer_opens o sctp mid kind p st tr old m : plain_off o → new_OfferMediaSection o sctp (JStr mid) kind p st tr old = Ok m → opens mid m.
Proof.
  intros Hp H. unfold new_OfferMediaSection in H. apply bind_ok_inv in H as (m0 & H0 & H). apply base_obj in H0.
  set (m1 := set_connection o _) in H.
  assert (opens mid m1) as H1.
  { apply opens_connection; [by destruct m0|done|]. rewrite !(js_get_set_ne _ _ "mid") by done. destruct m0; try done. apply js_get_set_eq. }
  eapply opens_ids; [exact H1|]. unfold sctp_lines, old_sctp_lines in H. repeat case_match; bind_inv; subst; ids.
  by eapply ids_offer_media.
Qed.

(** ** The abstract description *)

Definition view (rs : RemoteSdp) : list (string * bool) := map (λ s, (mid_of rs s, closed_of rs s)) (rs_mediaSections rs).

Definition set_entry (mid : string) (e : string * bool) (v : list (string * bool)) : list (string * bool) :=
  map (λ x, if String.eqb x.1 mid then e else x) v.

(** The first closed section is replaced; if there is none, the new one is appended. *)
Fixpoint recycle (mid : string) (v : list (string * bool)) : list (string * bool) :=
  match v with
  | [] => [(mid, false)]
  | (m, c) :: v => if (c : bool) then (mid, false) :: v else (m, c) :: recycle mid v
  end.

Definition spec_step (v : list (string * bool)) (op : sdp_op) : list (string * bool) :=
  match op with
  | OpSend offer reuse _ _ _ _ =>
      let mid := js_to_string (js_get offer "mid") in
      match reuse with
      | Some r => set_entry r (mid, false) v
      | None => if existsb (String.eqb mid) v.*1 then v else v ++ [(mid, false)]
      end
  | OpReceive mid _ _ _ _ => if existsb (String.eqb mid) v.*1 then v else recycle mid v
  | OpClose mid => match v with e :: v => e :: set_entry mid (mid, true) v | [] => [] end
  | OpSendSctp offer => v ++ [(js_to_string (js_get offer "mid"), false)]
  | OpReceiveSctp _ => v ++ [("datachannel", false)]
  | _ => v
  end.

(** How the handlers call: new sections get new identifiers, a section is reused
    when it is closed, and a section that is sent again in plan B is open. *)
Definition fresh (mid : string) (v : list (string * bool)) : Prop := mid ≠ "" ∧ mid ∉ v.*1.
Definition op_ok (v : list (string * bool)) (op : sdp_op) : Prop :=
  match op with
  | OpSend offer reuse _ _ _ _ =>
      let mid := js_to_string (js_get offer "mid") in
      match reuse with
      | Some r => r ≠ "" ∧ (r, true) ∈ v ∧ (fresh mid v ∨ mid = r)
      | None => fresh mid v ∨ (mid, false) ∈ v
      end
  | OpReceive mid _ _ _ _ => mid ≠ ""
  | OpClose mid => mid ∈ v.*1
  | OpSendSctp offer => fresh (js_to_string (js_get offer "mid")) v
  | OpReceiveSctp _ => fresh "datachannel" v
  | _ => True
  end.

Definition open_of (v : list (string * bool)) : list string := map fst (List.filter (λ e, negb e.2) v).

(** The invariant, but for the BUNDLE group. *)
Record rcore (rs : RemoteSdp) : Prop := {
  ri_plain : plain_off (rs_options rs);
  (** Sections own their objects, and the description holds the same ones. *)
  ri_media : rs_media rs = ms_object <$> rs_mediaSections rs;
  ri_dom s : s ∈ rs_mediaSections rs → is_Some (rs_objects rs !! ms_object s);
  ri_next a : is_Some (rs_objects rs !! a) → (a < rs_next rs)%nat;
  ri_obj s : s ∈ rs_mediaSections rs → is_obj (object_of rs s) = true;
  ri_nodup : NoDup (ms_object <$> rs_mediaSections rs);
  ri_mids : NoDup (view rs).*1;
  ri_index m i : map_get (rs_midToIndex rs) m = Some i ↔ (view rs).*1 !! i = Some m;
  ri_first : match view rs with [] => rs_firstMid rs = "" | (m, c) :: _ => rs_firstMid rs = m ∧ m ≠ "" ∧ c = false end;
}.

(** The group lists the open sections. *)
Definition bundle_ok (rs : RemoteSdp) : Prop :=
  truthy (so_dtlsParameters (rs_options rs)) = true → rs_bundle rs = String.concat " " (open_of (view rs)).

Definition rinv (rs : RemoteSdp) : Prop := rcore rs ∧ bundle_ok rs.

Lemma open_mids_view rs : open_mids rs = open_of (view rs).
Proof.
  unfold open_mids, open_of, view. induction (rs_mediaSections rs) as [|s l IH]; [done|]. cbn.
  destruct (closed_of rs s); cbn; by rewrite IH.
Qed.

Lemma view_sections rs rs' : rs_objects rs' = rs_objects rs → rs_mediaSections rs' = rs_mediaSections rs → view rs' = view rs.
Proof. intros H1 H2. unfold view, mid_of, closed_of, object_of. by rewrite H1, H2. Qed.

Lemma regenerate_ok rs : let rs' := _regenerateBundleMids rs in
  view rs' = view rs ∧ bundle_ok rs' ∧ (rcore rs → rcore rs').
Proof.
  cbv zeta. unfold _regenerateBundleMids, bundle_ok. destruct (truthy _) eqn:E; [|by rewrite E].
  split_and!; [done|intros _; cbn; by rewrite open_mids_view|]. by intros [? ? ? ? ? ? ? ? ?].
Qed.

(** ** Changing one object *)

Lemma object_insert rs a obj n s :
  object_of (with_objects (<[a := obj]> (rs_objects rs)) n rs) s = if decide (ms_object s = a) then obj else object_of rs s.
Proof. unfold object_of. cbn. case_decide as H; [rewrite H; by rewrite lookup_insert_eq|by rewrite lookup_insert_ne]. Qed.

Lemma view_same rs rs' : rs_mediaSections rs' = rs_mediaSections rs →
  (∀ s, s ∈ rs_mediaSections rs → same_ids (object_of rs s) (object_of rs' s)) → view rs' = view rs.
Proof.
  intros H1 H2. unfold view. rewrite H1. apply List.map_ext_in. intros s Hs%list_elem_of_In.
  destruct (H2 s Hs) as (_ & E1 & E2). unfold mid_of, closed_of, section_mid, section_closed. by rewrite E1, E2.
Qed.

(** Everything but the objects is as before. *)
Definition only_objects (rs rs' : RemoteSdp) : Prop :=
  rs_next rs' = rs_next rs ∧ rs_mediaSections rs' = rs_mediaSections rs ∧ rs_midToIndex rs' = rs_midToIndex rs ∧
  rs_firstMid rs' = rs_firstMid rs ∧ so_plainRtpParameters (rs_options rs') = so_plainRtpParameters (rs_options rs) ∧
  truthy (so_dtlsParameters (rs_options rs')) = truthy (so_dtlsParameters (rs_options rs)) ∧
  rs_media rs' = rs_media rs ∧ rs_bundle rs' = rs_bundle rs ∧
  (∀ a, is_Some (rs_objects rs' !! a) ↔ is_Some (rs_objects rs !! a)) ∧
  (∀ s, s ∈ rs_mediaSections rs → same_ids (object_of rs s) (object_of rs' s)).

Lemma rinv_objects rs rs' : rinv rs → only_objects rs rs' → rinv rs' ∧ view rs' = view rs.
Proof.
  intros [[H1 H2 H3 H4 H4' H5 H6 H7 H8] H9] (E1 & E2 & E3 & E4 & E5 & E6 & E7 & E8 & E9 & E10).
  assert (view rs' = view rs) as Ev by by apply view_same. split; [|done].
  split; [split|]; unfold plain_off, bundle_ok; rewrite ?Ev, ?E1, ?E2, ?E3, ?E4, ?E5, ?E6, ?E7, ?E8; try done.
  - intros s Hs. apply E9. by apply H3.
  - intros a Ha. apply H4. by apply E9.
  - intros s Hs. destruct (E10 s Hs) as (-> & _). by apply H4'.
Qed.

Lemma modify_only rs s f : same_ids (object_of rs s) (f (object_of rs s)) → only_objects rs (modify s f rs).
Proof.
  intros Hf. unfold only_objects, modify. cbn. split_and!; try done.
  - intros a. destruct (decide (a = ms_object s)) as [-> |Hne]; [by rewrite lookup_alter_eq, fmap_is_Some|by rewrite lookup_alter_ne].
  - intros s' Hs'. unfold object_of in *. cbn. rewrite lookup_alter. case_decide as Hd; [|apply ids_refl]. rewrite <-Hd.
    destruct (rs_objects rs !! ms_object s); [done|apply ids_refl].
Qed.

Lemma modify_ok_only rs s f rs' : is_Some (rs_objects rs !! ms_object s) → (∀ m m', f m = Ok m' → same_ids m m') →
  modify_ok s f rs = Ok rs' → only_objects rs rs'.
Proof.
  intros Hs Hf H. unfold modify_ok in H. apply bind_ok_inv in H as (obj & Ho & [= <-]). apply Hf in Ho.
  unfold only_objects. split_and!; try done.
  - intros a. cbn. rewrite lookup_insert_is_Some. split; [by intros [<- |[_ H]]|]. intros H. destruct (decide (ms_object s = a)); auto.
  - intros s' Hs'. rewrite object_insert. case_decide as Hd; [|apply ids_refl]. unfold object_of. rewrite Hd. exact Ho.
Qed.

Lemma only_refl rs : only_objects rs rs.
Proof. unfold only_objects. split_and!; try done. Qed.
Lemma only_trans rs rs' rs'' : only_objects rs rs' → only_objects rs' rs'' → only_objects rs rs''.
Proof.
  unfold only_objects. intros (A1 & A2 & A3 & A4 & A5 & A6 & A7 & A8 & A9 & A10) (B1 & B2 & B3 & B4 & B5 & B6 & B7 & B8 & B9 & B10).
  split_and!; try congruence.
  - intros a. rewrite B9. apply A9.
  - intros s Hs. eapply ids_trans; [by apply A10|]. apply B10. by rewrite A2.
Qed.

Lemma modify_all_only (f : MediaSection → jsval → jsval) l rs : (∀ s m, same_ids m (f s m)) →
  only_objects rs (foldl (λ rs s, modify s (f s) rs) rs l).
Proof.
  intros Hf. revert rs. induction l as [|s l IH]; intros rs; [apply only_refl|]. cbn.
  eapply only_trans; [apply modify_only; apply Hf|apply IH].
Qed.

(** ** Lists without duplicates *)

Lemma NoDup_insert_spec {A} `{EqDecision A} (l : list A) i x r : NoDup l → l !! i = Some r → x ∉ l ∨ x = r →
  NoDup (<[i := x]> l) ∧ ∀ j y, <[i := x]> l !! j = Some y ↔ (y = x ∧ j = i) ∨ (y ≠ x ∧ y ≠ r ∧ l !! j = Some y).
Proof.
  intros Hnd Hi Hx.
  assert (∀ j y, <[i := x]> l !! j = Some y ↔ (y = x ∧ j = i) ∨ (y ≠ x ∧ y ≠ r ∧ l !! j = Some y)) as Hl.
  { intros j y. destruct (decide (j = i)) as [-> |Hj].
    - rewrite list_lookup_insert_eq by by eapply lookup_lt_Some. rewrite Hi. naive_solver.
    - rewrite list_lookup_insert_ne by done. split; [|naive_solver]. intros Hy. right. split_and!; [| |done].
      + intros ->. destruct Hx as [Hx | ->]; [by apply Hx, (list_elem_of_lookup_2 _ j)|]. by apply Hj, (NoDup_lookup l j i r).
      + intros ->. by apply Hj, (NoDup_lookup l j i r). }
  split; [|done]. apply NoDup_alt. intros j k y. rewrite !Hl. intros [[-> ->]|(H1 & H2 & H3)] [[H4 ->]|(H4 & H5 & H6)]; try done.
  by eapply NoDup_lookup.
Qed.

Lemma NoDup_snoc {A} (l : list A) x : NoDup l → x ∉ l → NoDup (l ++ [x]).
Proof.
  intros Hl Hx. apply NoDup_app. split_and!; [done| |apply NoDup_singleton]. intros y Hy ->%list_elem_of_singleton. done.
Qed.

Lemma set_entry_cons r e m b v : set_entry r e ((m, b) :: v) = (if String.eqb m r then e else (m, b)) :: set_entry r e v.
Proof. done. Qed.

Lemma set_entry_absent r e v : r ∉ v.*1 → set_entry r e v = v.
Proof.
  induction v as [|[m b] v IH]; [done|]. rewrite set_entry_cons. cbn [fmap list_fmap fst]. rewrite not_elem_of_cons.
  intros [H1 H2]. rewrite IH by done. assert (String.eqb m r = false) as ->; [|done]. apply String.eqb_neq. congruence.
Qed.

Lemma set_entry_insert v i r e c : NoDup v.*1 → v !! i = Some (r, c) → set_entry r e v = <[i := e]> v.
Proof.
  revert i. induction v as [|[m b] v IH]; intros i Hnd Hi; [done|]. rewrite set_entry_cons.
  cbn [fmap list_fmap fst] in Hnd. apply NoDup_cons in Hnd as [Hm Hnd]. destruct i as [|i]; cbn in Hi.
  - injection Hi as -> ->. rewrite String.eqb_refl, set_entry_absent by done. done.
  - assert (String.eqb m r = false) as ->.
    { apply String.eqb_neq. intros ->. apply Hm. apply list_elem_of_fmap. exists (r, c). split; [done|]. by eapply list_elem_of_lookup_2. }
    by rewrite (IH i).
Qed.

Lemma fmap_insert_fst (v : list (string * bool)) i m b : (<[i := (m, b)]> v).*1 = <[i := m]> v.*1.
Proof. by rewrite list_fmap_insert. Qed.

(** ** New sections *)

(** A section that is in no place yet. *)
Definition unplaced (rs : RemoteSdp) (s : MediaSection) : Prop :=
  is_Some (rs_objects rs !! ms_object s) ∧ ms_object s ∉ ms_object <$> rs_mediaSections rs.

Lemma create_inv rs c obj rs1 s : rinv rs → create c obj rs = (rs1, s) →
  rinv rs1 ∧ view rs1 = view rs ∧ object_of rs1 s = obj ∧ unplaced rs1 s ∧ rs_midToIndex rs1 = rs_midToIndex rs ∧
  rs_mediaSections rs1 = rs_mediaSections rs.
Proof.
  intros Hi [= <- <-]. pose proof Hi as [[H1 H2 H3 H4 H4' H5 H6 H7 H8] H9].
  assert (∀ s, s ∈ rs_mediaSections rs → ms_object s ≠ rs_next rs) as Hne.
  { intros s Hs E. specialize (H4 (ms_object s) (H3 s Hs)). lia. }
  set (rs1 := with_objects _ _ rs). assert (view rs1 = view rs) as Ev.
  { apply view_same; [done|]. intros s Hs. unfold rs1. rewrite object_insert, decide_False by auto. apply ids_refl. }
  split_and!; try done.
  - split; [split|unfold bundle_ok]; rewrite ?Ev; try done.
    + intros s Hs. cbn. rewrite lookup_insert_is_Some. right. split; [symmetry; by apply Hne|by apply H3].
    + intros a. cbn. rewrite lookup_insert_is_Some. intros [<- |[_ Ha]]; [lia|]. specialize (H4 a Ha). lia.
    + intros s Hs. unfold rs1. rewrite object_insert, decide_False by auto. by apply H4'.
  - unfold object_of. cbn. by rewrite lookup_insert_eq.
  - split; [cbn; rewrite lookup_insert_eq; eauto|]. cbn. intros (s & E & Hs)%list_elem_of_fmap. by apply (Hne s).
Qed.

Lemma view_with_sections sections index first media rs :
  view (with_sections sections index first media rs) = map (λ s, (mid_of rs s, closed_of rs s)) sections.
Proof. done. Qed.

Lemma fresh_mid_not mid v : fresh mid v → mid ∉ v.*1.
Proof. by intros []. Qed.

Lemma add_inv rs s mid : rinv rs → unplaced rs s → opens mid (object_of rs s) → fresh mid (view rs) →
  rinv (_addMediaSection s rs) ∧ view (_addMediaSection s rs) = view rs ++ [(mid, false)].
Proof.
  intros [[H1 H2 H3 H4 H4' H5 H6 H7 H8] _] [Hs1 Hs2] (Ho0 & Ho1 & Ho2) [Hf1 Hf2]. unfold _addMediaSection.
  assert (mid_of rs s = mid) as Em by done. assert (closed_of rs s = false) as Ec by done. rewrite Em.
  match goal with |- context [_regenerateBundleMids ?r] => set (rs0 := r) end.
  destruct (regenerate_ok rs0) as (E8 & Hb & Hcore).
  assert (view rs0 = view rs ++ [(mid, false)]) as Ev.
  { unfold rs0. rewrite view_with_sections. unfold view. rewrite map_app. cbn. by rewrite Em, Ec. }
  rewrite E8, Ev. split; [|done]. split; [apply Hcore|done]. split; rewrite ?Ev; try done.
  - cbn. rewrite H2, fmap_app. done.
  - intros s' [Hs'|Hs']%elem_of_app; [by apply H3|]. apply list_elem_of_singleton in Hs'. by subst.
  - intros s' [Hs'|Hs']%elem_of_app; [by apply H4'|]. apply list_elem_of_singleton in Hs'. by subst.
  - cbn. rewrite fmap_app. by apply NoDup_snoc.
  - rewrite fmap_app. by apply NoDup_snoc.
  - intros m i. cbn. rewrite length_app, Nat.add_sub. rewrite fmap_app.
    assert (length (rs_mediaSections rs) = length (view rs).*1) as El by (unfold view; by rewrite length_fmap, length_map).
    destruct (decide (m = mid)) as [-> |Hm].
    + rewrite map_get_set_eq, El. rewrite lookup_app_Some. cbn. split.
      * intros [= <-]. right. by rewrite Nat.sub_diag.
      * intros [Hi|[Hi1 Hi2]]; [by apply list_elem_of_lookup_2 in Hi|]. destruct (i - _)%nat eqn:Ei; [|done]. f_equal. lia.
    + rewrite map_get_set_ne, H7, lookup_app_Some by done. split; [by left|]. intros [Hi|[Hi1 Hi2]]; [done|].
      destruct (i - _)%nat; cbn in Hi2; simplify_eq.
  - cbn. destruct (view rs) as [|[m b] v] eqn:Evv; cbn; [by rewrite H8|]. destruct H8 as (-> & Hm & ->).
    apply String.eqb_neq in Hm as Hm'. by rewrite Hm'.
Qed.

(** A new section in the place of another. *)
Lemma place_core rs s mid i index r c : rcore rs → unplaced rs s → opens mid (object_of rs s) →
  view rs !! i = Some (r, c) → mid ∉ (view rs).*1 ∨ mid = r → i ≠ 0%nat ∨ mid = r →
  (∀ m j, map_get index m = Some j ↔ <[i := mid]> (view rs).*1 !! j = Some m) →
  let rs' := with_sections (<[i := s]> (rs_mediaSections rs)) index (rs_firstMid rs) (<[i := ms_object s]> (rs_media rs)) rs in
  view rs' = <[i := (mid, false)]> (view rs) ∧ rcore rs'.
Proof.
  intros [H1 H2 H3 H4 H4' H5 H6 H7 H8] [Hs1 Hs2] (Ho0 & Ho1 & Ho2) Hi Hmid Hfirst Hindex rs'.
  assert (view rs' = <[i := (mid, false)]> (view rs)) as Ev.
  { unfold rs'. rewrite view_with_sections. unfold view. rewrite !map_fmap, list_fmap_insert. unfold mid_of at 1, closed_of at 1. by rewrite Ho1, Ho2. }
  assert (∃ old, rs_mediaSections rs !! i = Some old) as (old & Hold).
  { unfold view in Hi. rewrite map_fmap, list_lookup_fmap in Hi. destruct (rs_mediaSections rs !! i); [by eexists|done]. }
  split; [done|]. split; rewrite ?Ev, ?fmap_insert_fst; try done.
  - cbn. by rewrite H2, list_fmap_insert.
  - intros s' Hs'. cbn in *. apply list_elem_of_lookup in Hs' as (j & Hj). apply list_lookup_insert_Some in Hj as [(_ & <- & _)|[_ Hj]]; [done|].
    apply H3. by eapply list_elem_of_lookup_2.
  - intros s' Hs'. cbn in Hs'. apply list_elem_of_lookup in Hs' as (j & Hj).
    apply list_lookup_insert_Some in Hj as [(_ & <- & _)|[_ Hj]]; [done|]. apply H4'. by eapply list_elem_of_lookup_2.
  - cbn. rewrite list_fmap_insert. eapply NoDup_insert_spec; [done|by rewrite list_lookup_fmap, Hold|by left].
  - eapply NoDup_insert_spec; [done|by rewrite list_lookup_fmap, Hi|done].
  - cbn. destruct (view rs) as [|[m b] v]; [done|]. destruct i as [|i]; cbn in *; [|done].
    destruct Hfirst as [?| ->]; [done|]. injection Hi as -> ->. naive_solver.
Qed.

Lemma index_of_view rs m i c : rcore rs → view rs !! i = Some (m, c) → map_get (rs_midToIndex rs) m = Some i.
Proof. intros Hc Hi. apply Hc. by rewrite list_lookup_fmap, Hi. Qed.

Lemma section_at rs i m c : view rs !! i = Some (m, c) → ∃ s, rs_mediaSections rs !! i = Some s ∧ mid_of rs s = m ∧ closed_of rs s = c.
Proof.
  unfold view. rewrite map_fmap, list_lookup_fmap. destruct (rs_mediaSections rs !! i) as [s|]; [|done]. intros [= <- <-]. by exists s.
Qed.

(** Reusing a closed section. *)
Lemma reuse_inv rs s mid r : rinv rs → unplaced rs s → opens mid (object_of rs s) → (r, true) ∈ view rs →
  mid ∉ (view rs).*1 ∨ mid = r →
  ∃ i rs', view rs !! i = Some (r, true) ∧ _replaceMediaSection s (Some r) rs = Ok rs' ∧ rinv rs' ∧ view rs' = <[i := (mid, false)]> (view rs).
Proof.
  intros [Hc _] Hs Ho Hr Hmid. apply list_elem_of_lookup in Hr as (i & Hi). exists i.
  pose proof (index_of_view _ _ _ _ Hc Hi) as Hix. destruct (section_at _ _ _ _ Hi) as (old & Hold & Hom & _).
  unfold _replaceMediaSection. rewrite Hix, Hold, Hom. assert (mid_of rs s = mid) as -> by apply Ho.
  assert (i ≠ 0%nat) as Hi0.
  { intros ->. pose proof (ri_first _ Hc) as Hf. destruct (view rs) as [|[m b] v]; [done|]. cbn in Hi. injection Hi as -> ->. naive_solver. }
  destruct (place_core rs s mid i (map_set (map_delete (rs_midToIndex rs) r) mid i) r true Hc Hs Ho Hi Hmid (or_introl Hi0)) as [Ev Hcore].
  { intros m j. destruct (NoDup_insert_spec (view rs).*1 i mid r (ri_mids _ Hc)) as [_ ->]; [by rewrite list_lookup_fmap, Hi|done|].
    destruct (decide (m = mid)) as [-> |Hm]; [rewrite map_get_set_eq; naive_solver|]. rewrite map_get_set_ne by done.
    destruct (decide (m = r)) as [-> |Hmr]; [rewrite map_get_delete_eq; naive_solver|]. rewrite map_get_delete_ne, (ri_index _ Hc) by done.
    naive_solver. }
  eexists. split; [done|]. split; [done|]. match goal with |- context [_regenerateBundleMids ?x] => destruct (regenerate_ok x) as (E & Hb & Hg) end.
  rewrite E. split; [|done]. split; [by apply Hg|done].
Qed.

(** Plan B: a new section for an identifier in use. *)
Lemma again_inv rs s mid rs' : rinv rs → unplaced rs s → opens mid (object_of rs s) → (mid, false) ∈ view rs →
  _replaceMediaSection s None rs = Ok rs' → rinv rs' ∧ view rs' = view rs.
Proof.
  intros [Hc Hb] Hs Ho Hm H. apply list_elem_of_lookup in Hm as (i & Hi). pose proof (index_of_view _ _ _ _ Hc Hi) as Hix.
  unfold _replaceMediaSection in H. assert (mid_of rs s = mid) as E by apply Ho. rewrite E, Hix in H. injection H as <-.
  assert (<[i := mid]> (view rs).*1 = (view rs).*1) as Hid by (apply list_insert_id; by rewrite list_lookup_fmap, Hi).
  destruct (place_core rs s mid i (rs_midToIndex rs) mid false Hc Hs Ho Hi (or_intror eq_refl) (or_intror eq_refl)) as [Ev Hcore].
  { intros m j. rewrite Hid. apply Hc. }
  rewrite (list_insert_id _ _ _ Hi) in Ev. split; [|done]. split; [done|]. unfold bundle_ok. by rewrite Ev.
Qed.

(** A section put back where it is. *)
Lemma self_only rs s rs' : rcore rs → s ∈ rs_mediaSections rs → _replaceMediaSection s None rs = Ok rs' → rs' = rs.
Proof.
  intros Hc Hs H. apply list_elem_of_lookup in Hs as (i & Hi).
  assert (view rs !! i = Some (mid_of rs s, closed_of rs s)) as Hv by (unfold view; by rewrite map_fmap, list_lookup_fmap, Hi).
  unfold _replaceMediaSection in H. rewrite (index_of_view _ _ _ _ Hc Hv) in H. injection H as <-.
  rewrite list_insert_id by done. rewrite (ri_media _ Hc). rewrite list_insert_id by by rewrite list_lookup_fmap, Hi.
  rewrite <-(ri_media _ Hc). by destruct rs.
Qed.

(** ** Steps *)

Lemma find_section rs mid s : rcore rs → _findMediaSection rs mid = Ok s →
  ∃ i, rs_mediaSections rs !! i = Some s ∧ mid_of rs s = mid ∧ view rs !! i = Some (mid, closed_of rs s).
Proof.
  intros Hc H. unfold _findMediaSection in H. destruct (map_get _ mid) as [i|] eqn:Ei; [|done].
  destruct (rs_mediaSections rs !! i) as [s'|] eqn:Es; [|done]. injection H as ->. apply (ri_index _ Hc) in Ei.
  assert (view rs !! i = Some (mid_of rs s, closed_of rs s)) as Hv by (unfold view; by rewrite map_fmap, list_lookup_fmap, Es).
  rewrite list_lookup_fmap, Hv in Ei. injection Ei as E. exists i. by rewrite Hv, E.
Qed.

Lemma elem_existsb mid (v : list (string * bool)) : mid ∈ v.*1 → existsb (String.eqb mid) v.*1 = true.
Proof. intros H. apply existsb_elem. exists mid. split; [done|]. apply String.eqb_refl. Qed.
Lemma not_elem_existsb mid (v : list (string * bool)) : mid ∉ v.*1 → existsb (String.eqb mid) v.*1 = false.
Proof. intros H. apply existsb_none. intros x Hx. apply String.eqb_neq. by intros ->. Qed.

Lemma no_index rs mid : rcore rs → map_get (rs_midToIndex rs) mid = None ↔ mid ∉ (view rs).*1.
Proof.
  intros Hc. split.
  - intros H Hin. apply list_elem_of_lookup in Hin as (i & Hi). apply (ri_index _ Hc) in Hi. by rewrite Hi in H.
  - intros H. destruct (map_get _ mid) as [i|] eqn:E; [|done]. apply (ri_index _ Hc) in E. by apply list_elem_of_lookup_2 in E.
Qed.

Lemma modify_inv rs s f : rinv rs → same_ids (object_of rs s) (f (object_of rs s)) → rinv (modify s f rs) ∧ view (modify s f rs) = view rs.
Proof. intros Hi Hf. apply rinv_objects; [done|]. by apply modify_only. Qed.

(** A method on a section that is then put back. *)
Lemma change_inv rs s f rs1 rs' : rinv rs → s ∈ rs_mediaSections rs → (∀ m m', f m = Ok m' → same_ids m m') →
  modify_ok s f rs = Ok rs1 → _replaceMediaSection s None rs1 = Ok rs' → rinv rs' ∧ view rs' = view rs.
Proof.
  intros Hi Hs Hf H1 H2. assert (only_objects rs rs1) as Ho by (eapply modify_ok_only; [by apply Hi|done|done]).
  destruct (rinv_objects _ _ Hi Ho) as [Hi1 Hv]. apply self_only in H2 as ->; [done|apply Hi1|]. destruct Ho as (_ & -> & _). done.
Qed.

Lemma send_inv rs offer reuse p1 p2 opts mixed rs' r : rinv rs → op_ok (view rs) (OpSend offer reuse p1 p2 opts mixed) →
  send offer reuse p1 p2 opts mixed rs = Ok (rs', r) → rinv rs' ∧ view rs' = spec_step (view rs) (OpSend offer reuse p1 p2 opts mixed).
Proof.
  intros Hi Hok H. unfold send in H. apply bind_ok_inv in H as ([obj off] & Hobj & H). apply answer_opens in Hobj; [|apply Hi].
  destruct (create AnswerSection obj rs) as [rs1 s] eqn:Ec. destruct (create_inv _ _ _ _ _ Hi Ec) as (Hi1 & Ev & Eo & Hs & Eix & Esec).
  apply bind_ok_inv in H as (rs2 & H & [= -> ->]). rewrite <-Eo in Hobj. rewrite <-Ev in *. cbn [op_ok spec_step] in *.
  set (mid := js_to_string (js_get offer "mid")) in *. destruct reuse as [r0|].
  - destruct Hok as (Hr & Hin & Hmid). apply String.eqb_neq in Hr. rewrite Hr in H. cbn [negb] in H.
    destruct (reuse_inv rs1 s mid r0 Hi1 Hs Hobj Hin) as (i & rs3 & Hv & E & Hi3 & Ev3); [destruct Hmid as [[_ ?]|?]; auto|].
    rewrite E in H. injection H as ->. split; [done|]. rewrite Ev3. symmetry. eapply set_entry_insert; [apply Hi1|done].
  - assert (mid_of rs1 s = mid) as Em by apply Hobj. rewrite Em in H. destruct Hok as [[Hne Hf]|Hin].
    + rewrite (proj2 (no_index rs1 mid (proj1 Hi1)) Hf) in H. injection H as <-. rewrite not_elem_existsb by done.
      apply add_inv; [done..|by split].
    + assert (mid ∈ (view rs1).*1) as Hm by (apply list_elem_of_fmap; by exists (mid, false)).
      destruct (map_get (rs_midToIndex rs1) mid) eqn:Ei; [|by apply (no_index rs1 mid (proj1 Hi1)) in Ei].
      rewrite elem_existsb by done. by eapply again_inv.
Qed.

Lemma array_find_lookup {A} (p : A → bool) l x : array_find p l = Some x →
  ∃ i, l !! i = Some x ∧ p x = true ∧ ∀ j y, (j < i)%nat → l !! j = Some y → p y = false.
Proof.
  induction l as [|a l IH]; cbn; [done|]. destruct (p a) eqn:Ea.
  - intros [= ->]. exists 0%nat. split_and!; [done|done|lia].
  - intros H. destruct (IH H) as (i & H1 & H2 & H3). exists (S i). split_and!; [done|done|]. intros [|j] y Hj; cbn; [by intros [= <-]|].
    apply H3. lia.
Qed.

Lemma recycle_insert mid v i m : v !! i = Some (m, true) → (∀ j e, (j < i)%nat → v !! j = Some e → e.2 = false) →
  recycle mid v = <[i := (mid, false)]> v.
Proof.
  revert i. induction v as [|[m' c] v IH]; intros i Hi Hj; [done|]. destruct i as [|i]; cbn in *.
  - by injection Hi as -> ->.
  - specialize (Hj 0%nat (m', c) ltac:(lia) eq_refl) as Hc. cbn in Hc. subst c. f_equal. apply IH; [done|].
    intros j e Hlt He. apply (Hj (S j) e); [lia|done].
Qed.

Lemma recycle_append mid v : (∀ e, e ∈ v → e.2 = false) → recycle mid v = v ++ [(mid, false)].
Proof.
  induction v as [|[m c] v IH]; intros H; [done|].
  assert (c = false) as -> by (apply (H (m, c)); left). cbn. f_equal. apply IH. intros e He. apply H. by right.
Qed.

Lemma receive_inv rs mid kind p st tr rs' : rinv rs → mid ≠ "" → receive mid kind p st tr rs = Ok rs' →
  rinv rs' ∧ view rs' = spec_step (view rs) (OpReceive mid kind p st tr).
Proof.
  intros Hi Hne H. unfold receive in H. cbn [spec_step].
  destruct (map_get (rs_midToIndex rs) mid) as [i|] eqn:Ei; cbn [mbind option_bind] in H.
  - apply (ri_index _ (proj1 Hi)) in Ei as Hv. rewrite list_lookup_fmap in Hv. destruct (view rs !! i) as [[m c]|] eqn:Evi; [|done].
    injection Hv as Hm. cbn in Hm. subst m. destruct (section_at _ _ _ _ Evi) as (s & Hs & _). rewrite Hs in H.
    rewrite elem_existsb by (apply list_elem_of_fmap; exists (mid, c); split; [done|by eapply list_elem_of_lookup_2]).
    destruct (ms_class s); [done|]. apply bind_ok_inv in H as (rs1 & H1 & H).
    eapply change_inv; [done|by eapply list_elem_of_lookup_2|intros m m'; apply ids_plan_b|exact H1|exact H].
  - pose proof (proj1 (no_index rs mid (proj1 Hi)) Ei) as Hf. rewrite not_elem_existsb by done.
    apply bind_ok_inv in H as (obj & Hobj & H). apply offer_opens in Hobj; [|apply Hi].
    destruct (create OfferSection obj rs) as [rs1 s] eqn:Ec. destruct (create_inv _ _ _ _ _ Hi Ec) as (Hi1 & Ev & Eo & Hs & Eix & Esec).
    rewrite <-Eo in Hobj. destruct (array_find (closed_of rs) (rs_mediaSections rs)) as [old|] eqn:Ef.
    + apply array_find_lookup in Ef as (i & H1 & H2 & H3).
      assert (∀ j s, rs_mediaSections rs !! j = Some s → view rs !! j = Some (mid_of rs s, closed_of rs s)) as Hview
        by (intros j s' Hj; unfold view; by rewrite map_fmap, list_lookup_fmap, Hj).
      assert (view rs !! i = Some (mid_of rs old, true)) as Hvi by (rewrite (Hview _ _ H1); by rewrite H2).
      destruct (reuse_inv rs1 s mid (mid_of rs old) Hi1 Hs Hobj) as (k & rs3 & Hk & E & Hi3 & Ev3).
      { rewrite Ev. by eapply list_elem_of_lookup_2. }
      { left. by rewrite Ev. }
      rewrite E in H. injection H as ->. split; [done|]. rewrite Ev in *.
      assert (k = i) as -> by (eapply (NoDup_lookup (view rs).*1); [apply Hi|rewrite list_lookup_fmap, Hk; done|rewrite list_lookup_fmap, Hvi; done]).
      rewrite Ev3. symmetry. eapply recycle_insert; [done|]. intros j e Hj He.
      unfold view in He. rewrite map_fmap, list_lookup_fmap in He. destruct (rs_mediaSections rs !! j) as [s'|] eqn:Ej; [|done].
      injection He as <-. cbn. by eapply H3.
    + injection H as <-. rewrite recycle_append.
      * rewrite <-Ev. apply add_inv; [done..|]. split; [done|]. by rewrite Ev.
      * intros e He. unfold view in He. rewrite map_fmap in He. apply list_elem_of_fmap in He as (s' & -> & Hs'). cbn.
        destruct (closed_of rs s') eqn:E; [|done]. by rewrite (proj1 (Forall_forall _ _) (proj1 (array_find_none _ _) Ef) s' Hs') in E.
Qed.

(** Closing. *)
Lemma close_view rs s i m : rcore rs → rs_mediaSections rs !! i = Some s → mid_of rs s = m → i ≠ 0%nat →
  let rs' := modify s section_close rs in view rs' = <[i := (m, true)]> (view rs) ∧ rcore rs'.
Proof.
  intros Hc Hs Hm Hi0 rs'. pose proof Hc as [H1 H2 H3 H4 H4' H5 H6 H7 H8].
  assert (s ∈ rs_mediaSections rs) as Hin by by eapply list_elem_of_lookup_2.
  assert (∀ s', object_of rs' s' = if decide (ms_object s' = ms_object s) then section_close (object_of rs s') else object_of rs s') as Hobj.
  { intros s'. unfold object_of, rs', modify. cbn. case_decide as E; [|by rewrite lookup_alter_ne].
    rewrite E, lookup_alter_eq. destruct (H3 s Hin) as [obj ->]. done. }
  assert (∀ o, is_obj o = true → section_mid (section_close o) = section_mid o ∧ section_closed (section_close o) = true ∧ is_obj (section_close o) = true) as Hcl.
  { intros o Ho. destruct (ids_disable o) as (E1 & E2 & _). unfold section_close, section_mid, section_closed.
    rewrite js_get_set_ne by done. rewrite E2. destruct (section_disable o) as [| | | | | |l]; try (by destruct o).
    split_and!; [done|by rewrite js_get_set_eq|done]. }
  assert (view rs' = <[i := (m, true)]> (view rs)) as Ev.
  { apply list_eq. intros j. unfold view. rewrite !map_fmap. destruct (decide (j = i)) as [-> |Hj].
    - rewrite list_lookup_insert_eq by (rewrite length_fmap; by eapply lookup_lt_Some). rewrite list_lookup_fmap.
      change (rs_mediaSections rs') with (rs_mediaSections rs). rewrite Hs. cbn. unfold mid_of, closed_of. rewrite Hobj, decide_True by done.
      destruct (Hcl _ (H4' s Hin)) as (-> & -> & _). by rewrite <-Hm.
    - rewrite list_lookup_insert_ne by done. rewrite !list_lookup_fmap. change (rs_mediaSections rs') with (rs_mediaSections rs).
      destruct (rs_mediaSections rs !! j) as [s'|] eqn:Ej; [|done]. cbn. unfold mid_of, closed_of. rewrite Hobj, decide_False; [done|].
      intros E. apply Hj. eapply (NoDup_lookup (ms_object <$> rs_mediaSections rs)); [done|rewrite list_lookup_fmap, Ej; done|].
      rewrite list_lookup_fmap, Hs. cbn. by rewrite E. }
  assert (view rs !! i = Some (m, closed_of rs s)) as Hvi by (unfold view; rewrite map_fmap, list_lookup_fmap, Hs; cbn; by rewrite Hm).
  assert ((<[i := (m, true)]> (view rs)).*1 = (view rs).*1) as Emids
    by (rewrite fmap_insert_fst; apply list_insert_id; by rewrite list_lookup_fmap, Hvi).
  split; [done|]. split; rewrite ?Ev, ?Emids; try done.
  - intros s' Hs'. unfold rs', modify. cbn. destruct (decide (ms_object s' = ms_object s)) as [E|E].
    + rewrite E, lookup_alter_eq, fmap_is_Some. rewrite <-E. by apply H3.
    + rewrite lookup_alter_ne by done. by apply H3.
  - intros a. unfold rs', modify. cbn. destruct (decide (a = ms_object s)) as [-> |E]; [|rewrite lookup_alter_ne by done; apply H4].
    rewrite lookup_alter_eq, fmap_is_Some. apply H4.
  - intros s' Hs'. rewrite Hobj. case_decide; [|by apply H4']. by apply Hcl, H4'.
  - cbn. destruct (view rs) as [|[m' b] v]; [done|]. by destruct i.
Qed.

Lemma close_inv rs mid rs' b : rinv rs → mid ∈ (view rs).*1 → closeMediaSection mid rs = Ok (rs', b) →
  rinv rs' ∧ view rs' = spec_step (view rs) (OpClose mid).
Proof.
  intros Hi Hin H. unfold closeMediaSection in H. apply bind_ok_inv in H as (s & Hs & H).
  destruct (find_section _ _ _ (proj1 Hi) Hs) as (i & Hsi & Hm & Hvi). pose proof (ri_first _ (proj1 Hi)) as Hf. pose proof (ri_mids _ (proj1 Hi)) as Hnd.
  cbn [spec_step]. destruct (String.eqb mid (rs_firstMid rs)) eqn:Ef.
  - apply String.eqb_eq in Ef. apply bind_ok_inv in H as (rs1 & H & [= -> _]). unfold disableMediaSection in H. rewrite Hs in H. injection H as <-.
    destruct (modify_inv rs s section_disable Hi (ids_disable _)) as [Hi1 Ev]. split; [done|]. rewrite Ev.
    destruct (view rs) as [|[m c] v]; [done|]. destruct Hf as (Hf & _). cbn in Hnd. apply NoDup_cons in Hnd as [Hnm _].
    rewrite set_entry_absent; [done|]. congruence.
  - injection H as <- _. apply String.eqb_neq in Ef.
    assert (i ≠ 0%nat) as Hi0 by (intros ->; destruct (view rs) as [|[m c] v]; [done|]; cbn in Hvi; injection Hvi as -> _; naive_solver).
    destruct (close_view rs s i mid (proj1 Hi) Hsi Hm Hi0) as [Ev Hc].
    destruct (regenerate_ok (modify s section_close rs)) as (E & Hb & Hg). split; [split; [by apply Hg|done]|]. rewrite E, Ev.
    destruct (view rs) as [|[m c] v]; [done|]. destruct i as [|i]; [done|]. cbn in Hvi, Hnd |- *. apply NoDup_cons in Hnd as [_ Hnd].
    f_equal. symmetry. by eapply set_entry_insert.
Qed.

(** ** Runs *)

Section Runs.
Context (parse : jsval → outcome (list (list jsval))).

Lemma session_inv rs o icelite version : rinv rs → so_plainRtpParameters o = so_plainRtpParameters (rs_options rs) →
  truthy (so_dtlsParameters o) = truthy (so_dtlsParameters (rs_options rs)) →
  let rs' := with_session o icelite version rs in rinv rs' ∧ view rs' = view rs.
Proof. intros Hi Hp Hd rs'. apply rinv_objects; [done|]. unfold only_objects. split_and!; try done. Qed.

Lemma sdp_step_inv rs op rs' : rinv rs → op_ok (view rs) op → sdp_step parse rs op = Ok rs' →
  rinv rs' ∧ view rs' = spec_step (view rs) op.
Proof.
  intros Hi Hok H. destruct op; cbn [sdp_step] in H.
  - apply bind_ok_inv in H as ([rs1 r] & H & [= <-]). by eapply send_inv.
  - by eapply receive_inv.
  - unfold pauseMediaSection in H. bind_inv. subst. apply modify_inv; [done|apply ids_pause].
  - unfold resumeSendingMediaSection in H. bind_inv. subst. apply modify_inv; [done|apply ids_resume].
  - unfold resumeReceivingMediaSection in H. bind_inv. subst. apply modify_inv; [done|apply ids_resume].
  - unfold disableMediaSection in H. bind_inv. subst. apply modify_inv; [done|apply ids_disable].
  - apply bind_ok_inv in H as ([rs1 b] & H & [= <-]). by eapply close_inv.
  - unfold muxMediaSectionSimulcast in H. apply bind_ok_inv in H as (s & Hs & H). destruct (ms_class s); [|done].
    destruct (find_section _ _ _ (proj1 Hi) Hs) as (i & Hsi & _). apply bind_ok_inv in H as (rs1 & H1 & H).
    eapply change_inv; [done|by eapply list_elem_of_lookup_2|intros m m'; apply ids_mux|exact H1|exact H].
  - unfold planBStopReceiving in H. apply bind_ok_inv in H as (s & Hs & H). destruct (ms_class s); [done|].
    destruct (find_section _ _ _ (proj1 Hi) Hs) as (i & Hsi & _). apply bind_ok_inv in H as (rs1 & H1 & H).
    eapply change_inv; [done|by eapply list_elem_of_lookup_2|intros m m'; apply ids_plan_b_stop|exact H1|exact H].
  - unfold sendSctpAssociation in H. apply bind_ok_inv in H as ([obj off] & Hobj & H). apply answer_opens in Hobj; [|apply Hi].
    destruct (create AnswerSection obj rs) as [rs1 s] eqn:Ec. destruct (create_inv _ _ _ _ _ Hi Ec) as (Hi1 & Ev & Eo & Hs & _).
    injection H as <-. rewrite <-Eo in Hobj. cbn [op_ok spec_step] in *. rewrite <-Ev in *. by apply add_inv.
  - unfold receiveSctpAssociation in H. apply bind_ok_inv in H as (obj & Hobj & H). apply offer_opens in Hobj; [|apply Hi].
    destruct (create OfferSection obj rs) as [rs1 s] eqn:Ec. destruct (create_inv _ _ _ _ _ Hi Ec) as (Hi1 & Ev & Eo & Hs & _).
    injection H as <-. rewrite <-Eo in Hobj. cbn [op_ok spec_step] in *. rewrite <-Ev in *. by apply add_inv.
  - unfold updateIceParameters in H. bind_inv. subst. match goal with |- context [foldl _ ?x ?l] => set (rs1 := x) in *; set (l1 := l) in * end.
    destruct (session_inv rs (rs_options rs1) (rs_icelite rs1) (rs_sessionVersion rs1) Hi eq_refl eq_refl) as [Hi1 Ev].
    rewrite <-Ev. apply rinv_objects; [done|]. apply (modify_all_only (λ _, setIceParameters iceParameters)). intros. apply ids_ice.
  - unfold updateDtlsRole in H. bind_inv. subst. match goal with |- context [foldl _ ?x ?l] => set (rs1 := x) in *; set (l1 := l) in * end.
    destruct (session_inv rs (rs_options rs1) (rs_icelite rs1) (rs_sessionVersion rs1) Hi eq_refl) as [Hi1 Ev].
    { cbn. by destruct (so_dtlsParameters (rs_options rs)). }
    rewrite <-Ev. apply rinv_objects; [done|]. apply (modify_all_only (λ s, setDtlsRole (ms_class s) role)). intros. apply ids_role.
  - injection H as <-. by apply session_inv.
Qed.

(** Calls the handlers may make, one after the other. *)
Fixpoint well_called (v : list (string * bool)) (ops : list sdp_op) : Prop :=
  match ops with
  | [] => True
  | op :: ops => op_ok v op ∧ well_called (spec_step v op) ops
  end.

Lemma sdp_run_inv rs ops rs' : rinv rs → well_called (view rs) ops → fold_ok (sdp_step parse) rs ops = Ok rs' →
  rinv rs' ∧ view rs' = foldl spec_step (view rs) ops.
Proof.
  revert rs. induction ops as [|op ops IH]; intros rs Hi Hw H; cbn in H; [by injection H as <-|]. destruct Hw as [Hok Hw].
  apply bind_ok_inv in H as (rs1 & H1 & H). destruct (sdp_step_inv _ _ _ Hi Hok H1) as [Hi1 Ev]. cbn. rewrite <-Ev in *. by apply IH.
Qed.

Lemma new_inv o sctp rs : plain_off o → new_RemoteSdp o sctp = Ok rs → rinv rs ∧ view rs = [].
Proof.
  intros Hp H. unfold new_RemoteSdp in H. apply bind_ok_inv in H as (f & _ & [= <-]). split; [|done]. split; [split|]; cbn; try done.
  - intros s Hs. by apply elem_of_nil in Hs.
  - intros a [? Ha]. by rewrite lookup_empty in Ha.
  - intros s Hs. by apply elem_of_nil in Hs.
  - constructor.
  - constructor.
Qed.

(** C14: the remote description implements the list of sections with identifiers
    that the calls describe: after any calls the handlers may make, the sections
    are exactly those of [spec_step] in the same places, every identifier leads to
    its own section, the description written holds the objects of the sections in
    order, and the BUNDLE group lists the open ones. *)
Theorem remote_sdp_refines o sctp rs0 ops rs : truthy (so_plainRtpParameters o) = false → new_RemoteSdp o sctp = Ok rs0 →
  well_called [] ops → fold_ok (sdp_step parse) rs0 ops = Ok rs →
  view rs = foldl spec_step [] ops ∧
  (∀ mid i, map_get (rs_midToIndex rs) mid = Some i ↔ ∃ s, rs_mediaSections rs !! i = Some s ∧ mid_of rs s = mid) ∧
  js_get (sdp_object rs) "media" = JArr (map (object_of rs) (rs_mediaSections rs)) ∧
  (truthy (so_dtlsParameters (rs_options rs)) = true → rs_bundle rs = String.concat " " (open_of (foldl spec_step [] ops))).
Proof.
  intros Hp H0 Hw H. destruct (new_inv _ _ _ Hp H0) as [Hi0 Ev0]. rewrite <-Ev0 in Hw.
  destruct (sdp_run_inv _ _ _ Hi0 Hw H) as [[Hc Hb] Ev]. rewrite Ev0 in Ev. split_and!; [done| | |].
  - intros mid i. rewrite (ri_index _ Hc). rewrite list_lookup_fmap. unfold view. rewrite map_fmap, list_lookup_fmap.
    destruct (rs_mediaSections rs !! i) as [s|]; cbn; split; [intros [= <-]; by exists s|intros (s' & [= <-] & <-); done|done|by intros (s & ? & _)].
  - change (js_get (sdp_object rs) "media") with (JArr (map (λ a, default JUndef (rs_objects rs !! a)) (rs_media rs))).
    rewrite (ri_media _ Hc), !map_fmap. by rewrite <-list_fmap_compose.
  - intros Hd. rewrite <-Ev. by apply Hb.
Qed.

Lemma spec_step_open v op i m : NoDup v.*1 → v !! i = Some (m, false) → op_ok v op → op ≠ OpClose m →
  match v with (_, c) :: _ => c = false | [] => True end → spec_step v op !! i = Some (m, false).
Proof.
  intros Hnd Hi Hok Hne Hhead.
  assert (∀ r e c, (r, c) ∈ v → r ≠ m → set_entry r e v !! i = Some (m, false)) as Hset.
  { intros r e c Hr Hrm. unfold set_entry. rewrite map_fmap, list_lookup_fmap, Hi. cbn. apply not_eq_sym, String.eqb_neq in Hrm. by rewrite Hrm. }
  destruct op; cbn [spec_step op_ok] in *; try done.
  - destruct reuseMid as [r|].
    + destruct Hok as (_ & Hr & _). apply (Hset _ _ _ Hr). intros ->. apply list_elem_of_lookup in Hr as (j & Hj).
      assert (i = j) as ->; [|congruence]. eapply NoDup_lookup; [done|rewrite list_lookup_fmap, Hi; done|rewrite list_lookup_fmap, Hj; done].
    + destruct (existsb _ _); [done|]. by apply lookup_app_l_Some.
  - destruct (existsb _ _); [done|]. clear -Hi. revert i Hi. induction v as [|[m' c] v IH]; intros i Hi; [done|]. cbn.
    destruct c; destruct i as [|i]; cbn in *; try done. by apply IH.
  - destruct v as [|[m' c] v]; [done|]. destruct i as [|i]; [done|].
    change (set_entry mid (mid, true) v !! i = Some (m, false)). change (v !! i = Some (m, false)) in Hi. unfold set_entry.
    rewrite map_fmap, list_lookup_fmap, Hi. cbn. assert (String.eqb m mid = false) as ->; [|done]. apply String.eqb_neq. congruence.
  - by apply lookup_app_l_Some.
  - by apply lookup_app_l_Some.
Qed.

(** An open section never moves, disappears or closes except by a call that closes
    it, and the first section cannot be closed. *)
Theorem open_sections_stay o sctp rs0 ops rs op rs' i m : truthy (so_plainRtpParameters o) = false → new_RemoteSdp o sctp = Ok rs0 →
  well_called [] (ops ++ [op]) → fold_ok (sdp_step parse) rs0 ops = Ok rs → sdp_step parse rs op = Ok rs' →
  view rs !! i = Some (m, false) → op ≠ OpClose m ∨ i = 0%nat → view rs' !! i = Some (m, false).
Proof.
  intros Hp H0 Hw H H' Hi Hop. destruct (new_inv _ _ _ Hp H0) as [Hi0 Ev0].
  assert (∀ v, well_called v (ops ++ [op]) → well_called v ops ∧ op_ok (foldl spec_step v ops) op) as Hsplit.
  { clear. induction ops as [|op' ops IH]; intros v; cbn; [tauto|]. intros [H1 H2]. destruct (IH _ H2). done. }
  destruct (Hsplit _ Hw) as [Hw1 Hok]. rewrite <-Ev0 in Hw1, Hok. destruct (sdp_run_inv _ _ _ Hi0 Hw1 H) as [Hi1 Ev]. rewrite <-Ev in Hok.
  destruct (sdp_step_inv _ _ _ Hi1 Hok H') as [_ Ev']. rewrite Ev'. pose proof (ri_first _ (proj1 Hi1)) as Hf.
  destruct Hop as [Hop| ->].
  - apply spec_step_open; [apply Hi1|done|done|done|]. destruct (view rs) as [|[m' c] v]; [done|tauto].
  - destruct (view rs) as [|[m' c] v] eqn:Evv; [done|]. cbn in Hi. injection Hi as -> ->.
    destruct op; try (apply spec_step_open; [rewrite <-Evv; apply Hi1|done|done|done|done]). done.
Qed.
End Runs.
