(* ===== verification/SdpWitnesses.v ===== *)
(** * Concrete descriptions

    The theorems on session descriptions applied to small descriptions, and the
    payload type that plan B loses. *)

From Stdlib Require Import QArith.
From S2P Require Import Prelude JsNum JsVal JsConv JsString OrtcValidate Ortc SdpUtils SdpProofs MediaSection MediaSectionProofs.
From S2P Require Import RemoteSdp RemoteSdpProofs.
Local Open Scope string_scope.
Local Open Scope list_scope.
Local Open Scope Z_scope.

(** ** Reading descriptions *)

(** An offer with one stream and its retransmissions. *)
Definition demo_offer : list (string * jsval) := [
  ("mid", JStr "0"); ("type", JStr "video");
  ("ssrcs", JArr [JObj [("id", js_int 1000); ("attribute", JStr "cname"); ("value", JStr "c")];
                  JObj [("id", js_int 1000); ("attribute", JStr "msid"); ("value", JStr "s t")]]);
  ("ssrcGroups", JArr [JObj [("semantics", JStr "FID"); ("ssrcs", JStr "1000 2000")]])].

Lemma legacy_simulcast_roundtrip_witness : ∃ offer', UnifiedPlan_addLegacySimulcast (JObj demo_offer) 3 = Ok offer' ∧
  UnifiedPlan.getRtpEncodings offer' = Ok (map (stream_encoding 1000 (Some 2000)) (seq 0 3)).
Proof. eapply (legacy_simulcast_roundtrip demo_offer 3 _ _ _ 1000 (Some 2000)); try (vm_compute; reflexivity); lia || (split_and!; lia). Defined.

(** Format parameters read as if they were always these. *)
Definition demo_params (config : jsval) : outcome jsval :=
  if is_str config "apt=96" then Ok (JObj [("apt", js_int 96)]) else Ok (JObj []).

Definition demo_sdp : jsval := JObj [("media", JArr [JObj [
  ("type", JStr "video");
  ("rtp", JArr [JObj [("payload", js_int 96); ("codec", JStr "VP8"); ("rate", js_int 90000)];
                JObj [("payload", js_int 97); ("codec", JStr "rtx"); ("rate", js_int 90000)]]);
  ("fmtp", JArr [JObj [("payload", js_int 97); ("config", JStr "apt=96")]]);
  ("rtcpFb", JArr [JObj [("payload", js_int 96); ("type", JStr "nack")]]);
  ("ext", JArr [JObj [("uri", JStr "urn:ietf:params:rtp-hdrext:sdes:mid"); ("value", js_int 1)]])]])].

Lemma extracted_capabilities_valid_witness :
  ∃ codecs exts, extractRtpCapabilities demo_params demo_sdp = Ok (JObj [("codecs", JArr codecs); ("headerExtensions", JArr exts)]) ∧
    is_ok (validateRtpCapabilities (JObj [("codecs", JArr codecs); ("headerExtensions", JArr exts)])) = true ∧
    ForallOrdPairs (λ a b, same_value (js_get a "preferredPayloadType") (js_get b "preferredPayloadType") = false) codecs.
Proof. apply (extracted_capabilities_valid demo_params demo_sdp). vm_compute. reflexivity. Defined.

Definition demo_opus : list (string * jsval) := [("codecs", JArr [
  JObj [("mimeType", JStr "audio/opus"); ("clockRate", js_int 48000)];
  JObj [("mimeType", JStr "audio/PCMU"); ("clockRate", js_int 8000)]])].

Lemma opus_nack_added_witness : ∃ o' codecs', addNackSuppportForOpus (JObj demo_opus) = Ok o' ∧ js_get o' "codecs" = JArr codecs' ∧
  addNackSuppportForOpus o' = Ok o'.
Proof.
  edestruct (opus_nack_added demo_opus) as (codecs' & H1 & _ & H2); [vm_compute; reflexivity..|].
  eexists _, codecs'. split; [vm_compute; reflexivity|]. split; [exact H1|exact H2].
Defined.

(** ** Writing descriptions *)

Definition demo_options (planB : bool) : SectionOptions :=
  {| so_iceParameters := JObj [("usernameFragment", JStr "u"); ("password", JStr "p")]; so_iceCandidates := JArr [];
     so_dtlsParameters := JObj [("role", JStr "auto");
       ("fingerprints", JArr [JObj [("algorithm", JStr "sha-256"); ("value", JStr "AA")]])];
     so_plainRtpParameters := JUndef; so_planB := planB |}.

Definition demo_codec (pt : Z) (name : string) : jsval :=
  JObj [("mimeType", JStr ("video/" +:+ name)); ("payloadType", js_int pt); ("clockRate", js_int 90000);
        ("parameters", JObj [("x", js_int 1)]); ("rtcpFeedback", JArr [JObj [("type", JStr "nack")]])].

Definition demo_received (codecs : list jsval) (ssrc rtx : Z) : jsval :=
  JObj [("codecs", JArr codecs); ("headerExtensions", JArr []);
        ("encodings", JArr [JObj [("ssrc", js_int ssrc); ("rtx", JObj [("ssrc", js_int rtx)])]]);
        ("rtcp", JObj [("cname", JStr "c")])].

Definition demo_codecs : list jsval := [demo_codec 100 "VP8"; demo_codec 101 "VP9"].

Lemma offer_lists_codecs_witness : ∃ m line,
  new_OfferMediaSection (demo_options false) JUndef (JStr "0") (JStr "video") (demo_received demo_codecs 1111 2222)
    (JStr "s") (JStr "t") false = Ok m ∧
  js_get m "payloads" = JStr line ∧ map string_to_number (split_space line) = [num_of_Z 100; num_of_Z 101] ∧
  map payload_of (elements (js_get m "rtp")) = [js_int 100; js_int 101].
Proof.
  eexists. edestruct (offer_lists_codecs (demo_options false) JUndef (JStr "0") (JStr "video") (demo_received demo_codecs 1111 2222)
    (JStr "s") (JStr "t") false) as (H1 & (line & H2 & _ & H3) & _); [reflexivity|reflexivity|vm_compute; reflexivity|].
  exists line. split; [vm_compute; reflexivity|]. split; [exact H2|]. split; [|exact H1].
  apply (H3 [100; 101]); [reflexivity|discriminate|repeat constructor; lia].
Defined.

(** A plan B section with one consumer. *)
Definition plan_b_section : jsval :=
  match new_OfferMediaSection (demo_options true) JUndef (JStr "video") (JStr "video") (demo_received demo_codecs 1111 2222)
          (JStr "s") (JStr "t") false with Ok m => m | Throw _ => JUndef end.
Definition plan_b_fields : list (string * jsval) := match plan_b_section with JObj o => o | _ => [] end.
Definition second_consumer : jsval := demo_received demo_codecs 3333 4444.
Definition plan_b_two : jsval :=
  match planBReceive second_consumer (JStr "s") (JStr "t2") plan_b_section with Ok m => m | Throw _ => JUndef end.

Lemma plan_b_stop_undoes_receive_witness : ∃ m' m'',
  planBReceive second_consumer (JStr "s") (JStr "t2") (JObj plan_b_fields) = Ok m' ∧
  MediaSection.planBStopReceiving second_consumer m' = Ok m'' ∧ js_get m'' "ssrcs" = js_get plan_b_section "ssrcs" ∧
  js_get m'' "ssrcGroups" = js_get plan_b_section "ssrcGroups".
Proof.
  exists plan_b_two.
  edestruct (plan_b_stop_undoes_receive plan_b_fields second_consumer (JStr "s") (JStr "t2") plan_b_two 3333 (js_int 4444))
    as (m'' & H1 & H2 & H3).
  - vm_compute. reflexivity.
  - vm_compute. reflexivity.
  - eexists _, _. split_and!; reflexivity.
  - right. exists 4444. by split.
  - intros l Hl. rewrite !elem_of_cons, elem_of_nil in Hl. destruct Hl as [-> |[-> |[-> |[-> |[]]]]]; split; reflexivity.
  - intros l Hl. rewrite !elem_of_cons, elem_of_nil in Hl. destruct Hl as [-> |[]]; vm_compute; reflexivity.
  - vm_compute. reflexivity.
  - exists m''. split_and!; [vm_compute; reflexivity|exact H1|rewrite H2; vm_compute; reflexivity|rewrite H3; vm_compute; reflexivity].
Defined.

(** A codec whose payload type is part of another one's text gets its lines and is
    missing in the payloads line: the line is searched as text. *)
Lemma plan_b_payload_lost : ∃ m',
  planBReceive (demo_received [demo_codec 10 "H264"] 3333 4444) (JStr "s") (JStr "t2") plan_b_section = Ok m' ∧
  map payload_of (elements (js_get m' "rtp")) = [js_int 100; js_int 101; js_int 10] ∧ js_get m' "payloads" = JStr "100 101".
Proof. eexists. split; [vm_compute; reflexivity|]. split; reflexivity. Qed.

(** ** A description and its sections *)

Definition no_streams (v : jsval) : outcome (list (list jsval)) := Ok [].
Definition demo_consume (mid : string) (ssrc : Z) : sdp_op :=
  OpReceive mid (JStr "video") (demo_received demo_codecs ssrc (ssrc + 1)) (JStr "s") (JStr mid).

(** Two consumers, the second one closed and its section taken by a third. *)
Definition demo_calls : list sdp_op :=
  [demo_consume "0" 1000; demo_consume "1" 2000; OpClose "1"; demo_consume "2" 3000; OpClose "0"; OpGetSdp].
Definition empty_sdp : RemoteSdp :=
  {| rs_objects := ∅; rs_next := 0; rs_mediaSections := []; rs_midToIndex := []; rs_firstMid := ""; rs_options := demo_options false;
     rs_sctpParameters := JUndef; rs_media := []; rs_bundle := ""; rs_icelite := JUndef;
     rs_fingerprint := JObj [("type", JStr "sha-256"); ("hash", JStr "AA")]; rs_sessionVersion := 0 |}.
Definition run_sdp (ops : list sdp_op) : RemoteSdp :=
  match fold_ok (sdp_step no_streams) empty_sdp ops with Ok rs => rs | Throw _ => empty_sdp end.

Lemma demo_calls_well : well_called [] demo_calls.
Proof. vm_compute. set_solver. Qed.

Lemma remote_sdp_refines_witness : view (run_sdp demo_calls) = [("0", false); ("2", false)] ∧ rs_bundle (run_sdp demo_calls) = "0 2".
Proof.
  destruct (remote_sdp_refines no_streams (demo_options false) JUndef empty_sdp demo_calls (run_sdp demo_calls)) as (H1 & _ & _ & H2);
    [reflexivity|reflexivity|exact demo_calls_well|vm_compute; reflexivity|].
  split; [exact H1|apply H2; vm_compute; reflexivity].
Defined.

Lemma open_sections_stay_witness : view (run_sdp (take 4 demo_calls)) !! 0%nat = Some ("0", false).
Proof.
  apply (open_sections_stay no_streams (demo_options false) JUndef empty_sdp (take 3 demo_calls) (run_sdp (take 3 demo_calls))
    (demo_consume "2" 3000) (run_sdp (take 4 demo_calls)) 0%nat "0");
    [reflexivity|reflexivity| |vm_compute; reflexivity|vm_compute; reflexivity|vm_compute; reflexivity|by right].
  pose proof demo_calls_well as H. cbn -[spec_step op_ok] in *. tauto.
Defined.
