(* ===== verification/Browser.v ===== *)
(** * The browser and the actions of the handlers

    The handlers under src/client/lib/handlers drive a [RTCPeerConnection].  The
    browser is outside: it is the interface [Browser], a state with one operation
    per call the handlers make, each of which may throw or reject and may change
    the browser in any way.  Session descriptions go back and forth as text that
    the sdp-transform package parses and writes, so texts are an abstract type with
    the interface [SdpText].

    A method of a handler is an [action]: it passes the state on when it throws,
    since the assignments before the throw stay. *)

From stdpp Require Import gmap.
From S2P Require Import Prelude JsNum JsVal JsConv.
Local Open Scope string_scope.
Local Open Scope list_scope.

(** ** Actions *)

Definition action (S A : Type) : Type := S → outcome A * S.

#[export] Instance action_ret S : MRet (action S) := λ A a s, (Ok a, s).
#[export] Instance action_bind S : MBind (action S) := λ A B f m s,
  match m s with (Ok a, s) => f a s | (Throw e, s) => (Throw e, s) end.

(** A computation that only may throw. *)
Definition lift {S A} (m : outcome A) : action S A := λ s, (m, s).
Definition get {S} : action S S := λ s, (Ok s, s).
Definition update {S} (f : S → S) : action S unit := λ s, (Ok tt, f s).

(** [try { m } catch (error) {}]. *)
Definition attempt {S} (m : action S unit) : action S unit := λ s, (Ok tt, (m s).2).

(** [try { m } catch (error) { handler; throw error; }]. *)
Definition on_error {S A} (m : action S A) (handler : action S unit) : action S A := λ s,
  match m s with
  | (Throw e, s) => match handler s with (Ok _, s) => (Throw e, s) | (Throw e', s) => (Throw e', s) end
  | r => r
  end.

(** [try { m } catch (error) { handler(error) }]. *)
Definition catch {S A} (m : action S A) (handler : string → action S A) : action S A := λ s,
  match m s with (Throw e, s) => handler e s | r => r end.

(** A loop over a list. *)
Fixpoint each {S A} (f : A → action S unit) (l : list A) : action S unit :=
  match l with
  | [] => mret tt
  | x :: l => f x ≫= λ _, each f l
  end.

(** A loop that collects results. *)
Fixpoint collect {S A C} (f : A → action S C) (l : list A) : action S (list C) :=
  match l with
  | [] => mret []
  | x :: l => f x ≫= λ c, collect f l ≫= λ cs, mret (c :: cs)
  end.

(** ** Descriptions *)

Class SdpText (text : Type) := {
  sdp_parse : text → outcome jsval;
  sdp_write : jsval → text;
  sdp_parseParams : jsval → outcome jsval;
  sdp_parseSimulcastStreamList : jsval → outcome (list (list jsval));
}.

Inductive sdp_type := Offer | Answer.

#[export] Instance sdp_type_eq : EqDecision sdp_type.
Proof. solve_decision. Defined.

(** ** The browser

    Peer connections, transceivers (each with its sender and receiver), data
    channels and tracks are named by their address.  A transceiver is added for a
    kind or for a track. *)

Inductive source :=
| OfKind (kind : string)
| OfTrack (track : nat).

Class Browser (B text : Type) := {
  new_RTCPeerConnection : jsval → jsval → B → outcome nat * B;
  pc_close : nat → B → outcome unit * B;
  pc_connectionState : nat → B → jsval;
  pc_getConfiguration : nat → B → outcome jsval * B;
  pc_setConfiguration : nat → jsval → B → outcome unit * B;
  pc_getStats : nat → B → outcome jsval * B;
  (** The direction and [sendEncodings] of the options. *)
  pc_addTransceiver : nat → source → option string → jsval → B → outcome nat * B;
  pc_getTransceivers : nat → B → list nat;
  pc_removeTrack : nat → nat → B → outcome unit * B;
  pc_createDataChannel : nat → jsval → jsval → B → outcome nat * B;
  (** With [iceRestart] or not. *)
  pc_createOffer : nat → bool → B → outcome text * B;
  pc_createAnswer : nat → B → outcome text * B;
  pc_setLocalDescription : nat → sdp_type → text → B → outcome unit * B;
  pc_setRemoteDescription : nat → sdp_type → text → B → outcome unit * B;
  pc_localDescription : nat → B → outcome text;
  transceiver_mid : nat → B → option string;
  transceiver_setDirection : nat → string → B → outcome unit * B;
  transceiver_stop : nat → B → outcome unit * B;
  sender_replaceTrack : nat → option nat → B → outcome unit * B;
  sender_getParameters : nat → B → outcome jsval * B;
  sender_setParameters : nat → jsval → B → outcome unit * B;
  sender_getStats : nat → B → outcome jsval * B;
  receiver_track : nat → B → nat;
  receiver_getStats : nat → B → outcome jsval * B;
  (** What the listener of [@connect] answers, with the DTLS parameters. *)
  emit_connect : jsval → B → outcome unit * B;
  (** [onRtpSender] and [onRtpReceiver] of the application. *)
  call_onRtpSender : nat → B → outcome unit * B;
  call_onRtpReceiver : nat → B → outcome unit * B;
}.

(** React Native: releasing the stream that a handler makes for sending. *)
Class ReactNativeBrowser (B : Type) := { sendStream_release : B → outcome unit * B }.

(** Firefox: a canvas and the video track it captures, to probe the capabilities. *)
Class FirefoxBrowser (B : Type) := {
  new_canvas : B → outcome (nat * nat) * B;
  canvas_remove : nat → B → outcome unit * B;
  track_stop : nat → B → outcome unit * B;
}.

(** Browsers with plan B: streams, senders and receivers of their own, and the calls
    of the older specification.  A text is described by the type of the browser. *)
Class PlanBBrowser (B text : Type) := {
  stream_addTrack : nat → nat → B → outcome unit * B;
  stream_removeTrack : nat → nat → B → outcome unit * B;
  stream_getTracks : nat → B → list nat;
  stream_release : nat → B → outcome unit * B;
  stream_id : nat → B → string;
  stream_getTrackById : nat → string → B → option nat;
  track_id : nat → B → string;
  pc_addTrack : nat → nat → nat → B → outcome unit * B;
  pc_addStream : nat → nat → B → outcome unit * B;
  pc_getSenders : nat → B → list nat;
  pc_getReceivers : nat → B → list nat;
  pc_getRemoteStreams : nat → B → list nat;
  pc_signalingState : nat → B → string;
  (** [createOffer({ offerToReceiveAudio: true, offerToReceiveVideo: true })]. *)
  pc_createReceivingOffer : nat → B → outcome text * B;
  sender_track : nat → B → option nat;
  (** [receiver.track && receiver.track.id]. *)
  receiver_trackId : nat → B → option string;
  (** [Math.random()], as the number it becomes in [generateRandomNumber]. *)
  random_number : B → Z * B;
}.
