(* ===== verification/HandlerBase.v ===== *)
(** * What the handlers share (src/client/lib/handlers/*.js)

    The handlers of the browsers are copies of each other with differences.  This
    file has what they have in common, after Chrome111.js: the state, the
    negotiation through one peer connection, the data channels, and the interface
    of src/client/lib/handlers/HandlerInterface.d.ts they implement.

    A handler owns one peer connection.  To send it lets the browser make the
    offer and answers it with the remote description; to receive it offers the
    remote description and lets the browser answer.  Each method
    is one action, which is how the transport uses the handler, since its queue
    starts a method when the one before it has ended, with one exception: when
    [produce] fails after [send], its [catch] starts [stopSending] and does not wait
    for it (src/client/lib/Transport.js:359), so that the next method of the queue
    starts in the middle of it.  Such runs are not among the runs of these actions;
    [HandlerRuns] shows what goes wrong in them.  When the handler is closed in the
    middle of a method, the method does not notice and the browser rejects the
    calls that are left.  Logging, and the requests for statistics beyond their
    guards, are left to the browser. *)

From Stdlib Require Import QArith.
From stdpp Require Import gmap.
From S2P Require Import Prelude JsNum JsVal JsConv JsString DownlinkProtocol ScalabilityModes OrtcValidate Ortc.
From S2P Require Import SdpUtils MediaSection RemoteSdp Browser.
Local Open Scope string_scope.
Local Open Scope list_scope.
Local Open Scope Z_scope.

(** ** State

    What all handlers keep; [h_own] is what a handler has of its own.  Handlers
    without a closed flag never set [h_closed]. *)

Section State.
Context {X : Type}.

Record Handler := {
  h_closed : bool;
  (** Empty until [run]. *)
  h_direction : string;
  h_remoteSdp : option RemoteSdp;
  h_sendingRtpParametersByKind : list (string * jsval);
  h_sendingRemoteRtpParametersByKind : list (string * jsval);
  h_forcedLocalDtlsRole : option string;
  h_pc : option nat;
  (** The listener is that of [connectionstatechange], not the fallback. *)
  h_connectionListener : bool;
  h_own : X;
  h_hasDataChannelMediaSection : bool;
  h_nextSendSctpStreamId : Z;
  h_transportReady : bool;
}.

Definition new_Handler (own : X) : Handler :=
  {| h_closed := false; h_direction := ""; h_remoteSdp := None; h_sendingRtpParametersByKind := [];
     h_sendingRemoteRtpParametersByKind := []; h_forcedLocalDtlsRole := None; h_pc := None; h_connectionListener := false;
     h_own := own; h_hasDataChannelMediaSection := false; h_nextSendSctpStreamId := 0; h_transportReady := false |}.

Definition with_closed (x : bool) (h : Handler) : Handler :=
  {| h_closed := x; h_direction := h_direction h; h_remoteSdp := h_remoteSdp h;
     h_sendingRtpParametersByKind := h_sendingRtpParametersByKind h;
     h_sendingRemoteRtpParametersByKind := h_sendingRemoteRtpParametersByKind h;
     h_forcedLocalDtlsRole := h_forcedLocalDtlsRole h; h_pc := h_pc h;
     h_connectionListener := h_connectionListener h; h_own := h_own h;
     h_hasDataChannelMediaSection := h_hasDataChannelMediaSection h;
     h_nextSendSctpStreamId := h_nextSendSctpStreamId h; h_transportReady := h_transportReady h |}.
Definition with_direction (x : string) (h : Handler) : Handler :=
  {| h_closed := h_closed h; h_direction := x; h_remoteSdp := h_remoteSdp h;
     h_sendingRtpParametersByKind := h_sendingRtpParametersByKind h;
     h_sendingRemoteRtpParametersByKind := h_sendingRemoteRtpParametersByKind h;
     h_forcedLocalDtlsRole := h_forcedLocalDtlsRole h; h_pc := h_pc h;
     h_connectionListener := h_connectionListener h; h_own := h_own h;
     h_hasDataChannelMediaSection := h_hasDataChannelMediaSection h;
     h_nextSendSctpStreamId := h_nextSendSctpStreamId h; h_transportReady := h_transportReady h |}.
Definition with_remoteSdp (x : option RemoteSdp) (h : Handler) : Handler :=
  {| h_closed := h_closed h; h_direction := h_direction h; h_remoteSdp := x;
     h_sendingRtpParametersByKind := h_sendingRtpParametersByKind h;
     h_sendingRemoteRtpParametersByKind := h_sendingRemoteRtpParametersByKind h;
     h_forcedLocalDtlsRole := h_forcedLocalDtlsRole h; h_pc := h_pc h;
     h_connectionListener := h_connectionListener h; h_own := h_own h;
     h_hasDataChannelMediaSection := h_hasDataChannelMediaSection h;
     h_nextSendSctpStreamId := h_nextSendSctpStreamId h; h_transportReady := h_transportReady h |}.
Definition with_sendingRtpParametersByKind (x : list (string * jsval)) (h : Handler) : Handler :=
  {| h_closed := h_closed h; h_direction := h_direction h; h_remoteSdp := h_remoteSdp h;
     h_sendingRtpParametersByKind := x; h_sendingRemoteRtpParametersByKind := h_sendingRemoteRtpParametersByKind h;
     h_forcedLocalDtlsRole := h_forcedLocalDtlsRole h; h_pc := h_pc h;
     h_connectionListener := h_connectionListener h; h_own := h_own h;
     h_hasDataChannelMediaSection := h_hasDataChannelMediaSection h;
     h_nextSendSctpStreamId := h_nextSendSctpStreamId h; h_transportReady := h_transportReady h |}.
Definition with_sendingRemoteRtpParametersByKind (x : list (string * jsval)) (h : Handler) : Handler :=
  {| h_closed := h_closed h; h_direction := h_direction h; h_remoteSdp := h_remoteSdp h;
     h_sendingRtpParametersByKind := h_sendingRtpParametersByKind h; h_sendingRemoteRtpParametersByKind := x;
     h_forcedLocalDtlsRole := h_forcedLocalDtlsRole h; h_pc := h_pc h;
     h_connectionListener := h_connectionListener h; h_own := h_own h;
     h_hasDataChannelMediaSection := h_hasDataChannelMediaSection h;
     h_nextSendSctpStreamId := h_nextSendSctpStreamId h; h_transportReady := h_transportReady h |}.
Definition with_forcedLocalDtlsRole (x : option string) (h : Handler) : Handler :=
  {| h_closed := h_closed h; h_direction := h_direction h; h_remoteSdp := h_remoteSdp h;
     h_sendingRtpParametersByKind := h_sendingRtpParametersByKind h;
     h_sendingRemoteRtpParametersByKind := h_sendingRemoteRtpParametersByKind h; h_forcedLocalDtlsRole := x;
     h_pc := h_pc h; h_connectionListener := h_connectionListener h; h_own := h_own h;
     h_hasDataChannelMediaSection := h_hasDataChannelMediaSection h;
     h_nextSendSctpStreamId := h_nextSendSctpStreamId h; h_transportReady := h_transportReady h |}.
Definition with_pc (x : option nat) (h : Handler) : Handler :=
  {| h_closed := h_closed h; h_direction := h_direction h; h_remoteSdp := h_remoteSdp h;
     h_sendingRtpParametersByKind := h_sendingRtpParametersByKind h;
     h_sendingRemoteRtpParametersByKind := h_sendingRemoteRtpParametersByKind h;
     h_forcedLocalDtlsRole := h_forcedLocalDtlsRole h; h_pc := x; h_connectionListener := h_connectionListener h;
     h_own := h_own h; h_hasDataChannelMediaSection := h_hasDataChannelMediaSection h;
     h_nextSendSctpStreamId := h_nextSendSctpStreamId h; h_transportReady := h_transportReady h |}.
Definition with_connectionListener (x : bool) (h : Handler) : Handler :=
  {| h_closed := h_closed h; h_direction := h_direction h; h_remoteSdp := h_remoteSdp h;
     h_sendingRtpParametersByKind := h_sendingRtpParametersByKind h;
     h_sendingRemoteRtpParametersByKind := h_sendingRemoteRtpParametersByKind h;
     h_forcedLocalDtlsRole := h_forcedLocalDtlsRole h; h_pc := h_pc h; h_connectionListener := x;
     h_own := h_own h; h_hasDataChannelMediaSection := h_hasDataChannelMediaSection h;
     h_nextSendSctpStreamId := h_nextSendSctpStreamId h; h_transportReady := h_transportReady h |}.
Definition with_own (x : X) (h : Handler) : Handler :=
  {| h_closed := h_closed h; h_direction := h_direction h; h_remoteSdp := h_remoteSdp h;
     h_sendingRtpParametersByKind := h_sendingRtpParametersByKind h;
     h_sendingRemoteRtpParametersByKind := h_sendingRemoteRtpParametersByKind h;
     h_forcedLocalDtlsRole := h_forcedLocalDtlsRole h; h_pc := h_pc h;
     h_connectionListener := h_connectionListener h; h_own := x;
     h_hasDataChannelMediaSection := h_hasDataChannelMediaSection h;
     h_nextSendSctpStreamId := h_nextSendSctpStreamId h; h_transportReady := h_transportReady h |}.
Definition with_hasDataChannelMediaSection (x : bool) (h : Handler) : Handler :=
  {| h_closed := h_closed h; h_direction := h_direction h; h_remoteSdp := h_remoteSdp h;
     h_sendingRtpParametersByKind := h_sendingRtpParametersByKind h;
     h_sendingRemoteRtpParametersByKind := h_sendingRemoteRtpParametersByKind h;
     h_forcedLocalDtlsRole := h_forcedLocalDtlsRole h; h_pc := h_pc h;
     h_connectionListener := h_connectionListener h; h_own := h_own h;
     h_hasDataChannelMediaSection := x; h_nextSendSctpStreamId := h_nextSendSctpStreamId h;
     h_transportReady := h_transportReady h |}.
Definition with_nextSendSctpStreamId (x : Z) (h : Handler) : Handler :=
  {| h_closed := h_closed h; h_direction := h_direction h; h_remoteSdp := h_remoteSdp h;
     h_sendingRtpParametersByKind := h_sendingRtpParametersByKind h;
     h_sendingRemoteRtpParametersByKind := h_sendingRemoteRtpParametersByKind h;
     h_forcedLocalDtlsRole := h_forcedLocalDtlsRole h; h_pc := h_pc h;
     h_connectionListener := h_connectionListener h; h_own := h_own h;
     h_hasDataChannelMediaSection := h_hasDataChannelMediaSection h; h_nextSendSctpStreamId := x;
     h_transportReady := h_transportReady h |}.
Definition with_transportReady (x : bool) (h : Handler) : Handler :=
  {| h_closed := h_closed h; h_direction := h_direction h; h_remoteSdp := h_remoteSdp h;
     h_sendingRtpParametersByKind := h_sendingRtpParametersByKind h;
     h_sendingRemoteRtpParametersByKind := h_sendingRemoteRtpParametersByKind h;
     h_forcedLocalDtlsRole := h_forcedLocalDtlsRole h; h_pc := h_pc h;
     h_connectionListener := h_connectionListener h; h_own := h_own h;
     h_hasDataChannelMediaSection := h_hasDataChannelMediaSection h;
     h_nextSendSctpStreamId := h_nextSendSctpStreamId h; h_transportReady := x |}.
End State.
Arguments Handler : clear implicits.

(** ** Options *)

Record RunOptions := {
  ro_direction : string;
  ro_iceParameters : jsval;
  ro_iceCandidates : jsval;
  ro_dtlsParameters : jsval;
  ro_sctpParameters : jsval;
  ro_iceServers : jsval;
  ro_iceTransportPolicy : jsval;
  ro_additionalSettings : jsval;
  ro_proprietaryConstraints : jsval;
  ro_extendedRtpCapabilities : ExtendedRtpCapabilities;
}.

Record SendOptions := {
  sn_track : nat;
  sn_kind : string;
  sn_encodings : option (list jsval);
  sn_codecOptions : jsval;
  sn_codec : jsval;
  (** Whether there is an [onRtpSender]. *)
  sn_onRtpSender : bool;
}.

Record ReceiveOptions := {
  rv_trackId : string;
  rv_kind : jsval;
  rv_rtpParameters : jsval;
  rv_streamId : jsval;
  rv_onRtpReceiver : bool;
}.

Record DataChannelOptions := {
  dc_ordered : jsval;
  dc_maxPacketLifeTime : jsval;
  dc_maxRetransmits : jsval;
  dc_label : jsval;
  dc_protocol : jsval;
}.

(** [Object.assign(target, source)]. *)
Definition js_assign (target src : jsval) : jsval := foldl (λ v e, js_set v e.1 e.2) target (js_spread src).

(** ** The interface

    The methods of a handler; [name] and the listeners apart. *)

Section Interface.
Context (World : Type).
Abbreviation M := (action World).

Record Methods := {
  m_close : M unit;
  m_getNativeRtpCapabilities : M jsval;
  m_getNativeSctpCapabilities : M jsval;
  m_run : RunOptions → M unit;
  m_updateIceServers : jsval → M unit;
  m_restartIce : jsval → M unit;
  m_getTransportStats : M jsval;
  (** The local id, the RTP parameters and the sender. *)
  m_send : SendOptions → M (option string * jsval * option nat);
  m_stopSending : string → M unit;
  m_pauseSending : string → M unit;
  m_resumeSending : string → M unit;
  m_replaceTrack : string → option nat → M unit;
  m_setMaxSpatialLayer : string → num → M unit;
  m_setRtpEncodingParameters : string → jsval → M unit;
  m_getSenderStats : string → M jsval;
  m_sendDataChannel : DataChannelOptions → M (nat * jsval);
  (** The local id, the track and the receiver of each. *)
  m_receive : list ReceiveOptions → M (list (option string * nat * option nat));
  m_stopReceiving : list string → M unit;
  m_pauseReceiving : list string → M unit;
  m_resumeReceiving : list string → M unit;
  m_getReceiverStats : string → M jsval;
  m_receiveDataChannel : jsval → jsval → jsval → M nat;
}.

Inductive handler_op :=
| HSend (o : SendOptions)
| HStopSending (localId : string)
| HPauseSending (localId : string)
| HResumeSending (localId : string)
| HReplaceTrack (localId : string) (track : option nat)
| HSetMaxSpatialLayer (localId : string) (spatialLayer : num)
| HSetRtpEncodingParameters (localId : string) (params : jsval)
| HSendDataChannel (o : DataChannelOptions)
| HReceive (optionsList : list ReceiveOptions)
| HStopReceiving (localIds : list string)
| HPauseReceiving (localIds : list string)
| HResumeReceiving (localIds : list string)
| HReceiveDataChannel (sctpStreamParameters label protocol : jsval)
| HRestartIce (iceParameters : jsval)
| HUpdateIceServers (iceServers : jsval)
| HTransportStats
| HSenderStats (localId : string)
| HReceiverStats (localId : string)
| HClose.

(** One call of a method, run to its end without another one in the middle of it. *)
Definition do_op (m : Methods) (op : handler_op) : M unit :=
  let ignore {A} (m : M A) : M unit := m ≫= λ _, mret tt in
  match op with
  | HSend o => ignore (m_send m o)
  | HStopSending localId => m_stopSending m localId
  | HPauseSending localId => m_pauseSending m localId
  | HResumeSending localId => m_resumeSending m localId
  | HReplaceTrack localId track => m_replaceTrack m localId track
  | HSetMaxSpatialLayer localId n => m_setMaxSpatialLayer m localId n
  | HSetRtpEncodingParameters localId params => m_setRtpEncodingParameters m localId params
  | HSendDataChannel o => ignore (m_sendDataChannel m o)
  | HReceive l => ignore (m_receive m l)
  | HStopReceiving ids => m_stopReceiving m ids
  | HPauseReceiving ids => m_pauseReceiving m ids
  | HResumeReceiving ids => m_resumeReceiving m ids
  | HReceiveDataChannel s l p => ignore (m_receiveDataChannel m s l p)
  | HRestartIce ice => m_restartIce m ice
  | HUpdateIceServers s => m_updateIceServers m s
  | HTransportStats => ignore (m_getTransportStats m)
  | HSenderStats localId => ignore (m_getSenderStats m localId)
  | HReceiverStats localId => ignore (m_getReceiverStats m localId)
  | HClose => m_close m
  end.

(** A handler that runs, whatever the outcomes of the operations. *)
Definition after_ops (m : Methods) (ops : list handler_op) (w : World) : World := foldl (λ w op, (do_op m op w).2) w ops.
End Interface.
Arguments do_op {World} _ _.
Arguments after_ops {World} _ _ _.

Section Profiles.
(** The h264-profile-level-id package. *)
Context (isSameProfile : jsval → jsval → bool) (generateProfileLevelIdStringForAnswer : jsval → jsval → outcome jsval).

(** The parameters of the kind with the codecs reduced to the one chosen. *)
Definition reduced_parameters (parameters : list (string * jsval)) (kind : string) (codec : jsval) : outcome jsval :=
  let p := default JUndef (map_get parameters kind) in
  codecs ← get_prop p "codecs";
  codecs ← iterate codecs;
  codecs ← reduceCodecs isSameProfile generateProfileLevelIdStringForAnswer codecs codec;
  Ok (js_set p "codecs" (JArr codecs)).

End Profiles.

(** [localSdpObject.media[idx]] as [getCname] reads it. *)
Definition media_at (sdpObject : jsval) (idx : nat) : outcome jsval :=
  media ← iterate (js_get sdpObject "media");
  _ ← throw_if (is_nullish (at_index media idx)) "Cannot read properties of undefined";
  Ok (at_index media idx).

Definition js_mid (mid : option string) : jsval := match mid with Some m => JStr m | None => JNull end.

Definition forced_role (role : jsval) : option string :=
  if truthy role && negb (is_str role "auto") then Some (if is_str role "server" then "client" else "server") else None.

(** ** The world of a handler *)

Section Base.
Context {X B text : Type} `{!SdpText text} `{!Browser B text}.

(** The calls that concern the negotiation, and whether they succeeded. *)
Inductive entry :=
| LocalDescription (type : sdp_type) (sdp : text) (ok : bool)
| RemoteDescription (type : sdp_type) (sdp : text) (ok : bool)
| AnswerCreated (ok : bool)
| Connected (dtlsParameters : jsval) (ok : bool).

Record World := {
  w_handler : Handler X;
  w_browser : B;
  w_log : list entry;
  (** The events emitted. *)
  w_emitted : list (string * jsval);
}.

Abbreviation M := (action World).

Definition handler : M (Handler X) := λ w, (Ok (w_handler w), w).
Definition set_handler (f : Handler X → Handler X) : M unit := update (λ w,
  {| w_handler := f (w_handler w); w_browser := w_browser w; w_log := w_log w; w_emitted := w_emitted w |}).
Definition emit (event : string) (x : jsval) : M unit := update (λ w,
  {| w_handler := w_handler w; w_browser := w_browser w; w_log := w_log w; w_emitted := w_emitted w ++ [(event, x)] |}).
Definition browse {A} (f : B → outcome A * B) : M A := λ w,
  let '(r, b) := f (w_browser w) in
  (r, {| w_handler := w_handler w; w_browser := b; w_log := w_log w; w_emitted := w_emitted w |}).
Definition read {A} (f : B → A) : M A := λ w, (Ok (f (w_browser w)), w).

(** A call of the browser that goes into the log. *)
Definition logged {A} (e : bool → entry) (f : B → outcome A * B) : M A := λ w,
  let '(r, b) := f (w_browser w) in
  (r, {| w_handler := w_handler w; w_browser := b; w_log := w_log w ++ [e (is_ok r)]; w_emitted := w_emitted w |}).

(** A method of [_remoteSdp]. *)
Definition with_sdp {A} (f : RemoteSdp → outcome (RemoteSdp * A)) : M A := λ w,
  match h_remoteSdp (w_handler w) with
  | None => (Throw "Cannot read properties of undefined", w)
  | Some rs =>
      match f rs with
      | Throw e => (Throw e, w)
      | Ok (rs, a) =>
          (Ok a, {| w_handler := with_remoteSdp (Some rs) (w_handler w); w_browser := w_browser w; w_log := w_log w;
                    w_emitted := w_emitted w |})
      end
  end.
Definition on_sdp (f : RemoteSdp → outcome RemoteSdp) : M unit := with_sdp (λ rs, rs ← f rs; Ok (rs, tt)).

(** [this._pc]. *)
Definition pc : M nat :=
  h ← handler; lift match h_pc h with Some p => Ok p | None => Throw "Cannot read properties of undefined" end.

Definition assertNotClosed : M unit := h ← handler; lift (throw_if (h_closed h) "method called in a closed handler").
Definition assertSendDirection : M unit := h ← handler;
  lift (throw_if (negb (String.eqb (h_direction h) "send")) "method can just be called for handlers with send direction").
Definition assertRecvDirection : M unit := h ← handler;
  lift (throw_if (negb (String.eqb (h_direction h) "recv")) "method can just be called for handlers with recv direction").

Definition new_World (own : X) (b : B) : World :=
  {| w_handler := new_Handler own; w_browser := b; w_log := []; w_emitted := [] |}.
Definition own : M X := h ← handler; mret (h_own h).
Definition set_own (f : X → X) : M unit := set_handler (λ h, with_own (f (h_own h)) h).

(** [try { pc.close() } catch (error) {}]. *)
Definition hang_up (p : nat) : M unit := attempt (browse (pc_close p)).

(** [if (this._pc) { try { this._pc.close(); } catch (error) {} }]. *)
Definition close_pc : M unit :=
  h ← handler; match h_pc h with Some p => hang_up p | None => mret tt end.

(** The configuration of a peer connection, with its [sdpSemantics] if any. *)
Definition configuration (iceServers iceTransportPolicy : jsval) (semantics : option string) : jsval :=
  JObj ([("iceServers", iceServers); ("iceTransportPolicy", iceTransportPolicy); ("bundlePolicy", JStr "max-bundle");
         ("rtcpMuxPolicy", JStr "require")] ++ from_option (λ s, [("sdpSemantics", JStr s)]) [] semantics).

(** ** Capabilities *)

(** What the browser can do, from the offer of a peer connection made for that.
    [prepare] makes what the offer needs beside it, which [tidy] cleans up, and
    [amend] is a correction. *)
Definition native_capabilities {C} (semantics : option string) (prepare : M C) (make_offer : C → nat → M text) (tidy : C → M unit)
    (amend : jsval → outcome jsval) : M jsval :=
  p ← browse (new_RTCPeerConnection (configuration (JArr []) (JStr "all") semantics) JUndef);
  c ← prepare;
  on_error
    (offer ← make_offer c p;
     _ ← tidy c;
     _ ← hang_up p;
     sdpObject ← lift (sdp_parse offer);
     nativeRtpCapabilities ← lift (extractRtpCapabilities sdp_parseParams sdpObject);
     lift (amend nativeRtpCapabilities))
    (_ ← tidy c; hang_up p).

Definition offer_audio_video (p : nat) : M text :=
  _ ← browse (pc_addTransceiver p (OfKind "audio") None JUndef);
  _ ← browse (pc_addTransceiver p (OfKind "video") None JUndef);
  browse (pc_createOffer p false).

Definition sctp_capabilities (os mis : Z) : M jsval :=
  mret (JObj [("numStreams", JObj [("OS", js_int os); ("MIS", js_int mis)])]).

(** ** Start *)

Definition remote_options (planB : bool) (o : RunOptions) : SectionOptions :=
  {| so_iceParameters := ro_iceParameters o; so_iceCandidates := ro_iceCandidates o;
     so_dtlsParameters := ro_dtlsParameters o; so_plainRtpParameters := JUndef; so_planB := planB |}.

Definition pc_configuration (semantics : option string) (o : RunOptions) : jsval :=
  js_assign (configuration (js_coalesce (ro_iceServers o) (JArr [])) (js_coalesce (ro_iceTransportPolicy o) (JStr "all")) semantics)
    (ro_additionalSettings o).

(** [if (dtlsParameters.role && dtlsParameters.role !== 'auto')]. *)
Definition force_role (o : RunOptions) : M unit :=
  role ← lift (get_prop (ro_dtlsParameters o) "role");
  if forced_role role then set_handler (with_forcedLocalDtlsRole (forced_role role)) else mret tt.

(** [run], where [force] is [force_role] or nothing.  It has no awaits: the
    constructor of the transport calls it before any other method. *)
Definition run_with (planB : bool) (semantics : option string) (force : M unit) (o : RunOptions) : M unit :=
  _ ← set_handler (with_direction (ro_direction o));
  rs ← lift (new_RemoteSdp (remote_options planB o) (ro_sctpParameters o));
  _ ← set_handler (with_remoteSdp (Some rs));
  let ext := ro_extendedRtpCapabilities o in
  _ ← set_handler (with_sendingRtpParametersByKind
        [("audio", getSendingRtpParameters "audio" ext); ("video", getSendingRtpParameters "video" ext)]);
  audio ← lift (getSendingRemoteRtpParameters "audio" ext);
  video ← lift (getSendingRemoteRtpParameters "video" ext);
  _ ← set_handler (with_sendingRemoteRtpParametersByKind [("audio", audio); ("video", video)]);
  _ ← force;
  p ← browse (new_RTCPeerConnection (pc_configuration semantics o) (ro_proprietaryConstraints o));
  _ ← set_handler (with_pc (Some p));
  state ← read (pc_connectionState p);
  set_handler (with_connectionListener (truthy state)).

(** The listeners of the peer connection. *)
Definition on_icegatheringstatechange (state : jsval) : M unit := emit "@icegatheringstatechange" state.
Definition connection_state (iceConnectionState : string) : option string :=
  if String.eqb iceConnectionState "checking" then Some "connecting"
  else if String.eqb iceConnectionState "connected" || String.eqb iceConnectionState "completed" then Some "connected"
  else if String.eqb iceConnectionState "failed" then Some "failed"
  else if String.eqb iceConnectionState "disconnected" then Some "disconnected"
  else if String.eqb iceConnectionState "closed" then Some "closed" else None.
Definition on_connectionstatechange (state : jsval) : M unit :=
  h ← handler; if h_connectionListener h then emit "@connectionstatechange" state else mret tt.
Definition on_iceconnectionstatechange (state : string) : M unit :=
  h ← handler;
  if h_connectionListener h then mret tt
  else match connection_state state with Some s => emit "@connectionstatechange" (JStr s) | None => mret tt end.

(** ** Negotiation *)

Definition createOffer (iceRestart : bool) : M text := p ← pc; browse (pc_createOffer p iceRestart).
Definition createAnswer : M text := p ← pc; logged AnswerCreated (pc_createAnswer p).
Definition setLocalDescription (type : sdp_type) (sdp : text) : M unit :=
  p ← pc; logged (LocalDescription type sdp) (pc_setLocalDescription p type sdp).
Definition setRemoteDescription (type : sdp_type) (sdp : text) : M unit :=
  p ← pc; logged (RemoteDescription type sdp) (pc_setRemoteDescription p type sdp).

(** [{ type, sdp: this._remoteSdp.getSdp() }] applied as the remote description. *)
Definition apply_remote (type : sdp_type) : M unit :=
  o ← with_sdp (λ rs, Ok (getSdp rs)); setRemoteDescription type (sdp_write o).

(** The browser offers and the remote description answers. *)
Definition offer_and_answer (iceRestart : bool) : M unit :=
  offer ← createOffer iceRestart; _ ← setLocalDescription Offer offer; apply_remote Answer.

(** The remote description offers and the browser answers. *)
Definition offer_remote : M unit :=
  _ ← apply_remote Offer; answer ← createAnswer; setLocalDescription Answer answer.

Definition localDescription : M jsval :=
  p ← pc; sdp ← read (pc_localDescription p); sdp ← lift sdp; lift (sdp_parse sdp).

Definition setupTransport (localDtlsRole : string) (localSdpObject : option jsval) : M unit :=
  localSdpObject ← match localSdpObject with Some o => mret o | None => localDescription end;
  dtlsParameters ← lift (extractDtlsParameters localSdpObject);
  let dtlsParameters := js_set dtlsParameters "role" (JStr localDtlsRole) in
  _ ← on_sdp (updateDtlsRole (JStr (if String.eqb localDtlsRole "client" then "server" else "client")));
  _ ← logged (Connected dtlsParameters) (emit_connect dtlsParameters);
  set_handler (with_transportReady true).

(** The local DTLS role: the one forced, or client. *)
Definition forced_or_client (h : Handler X) : string := default "client" (h_forcedLocalDtlsRole h).
Definition always_client (h : Handler X) : string := "client".

(** The transport is set up with the first description. *)
Definition ensure_transport (localDtlsRole : Handler X → string) (localSdpObject : jsval) : M unit :=
  h ← handler;
  if h_transportReady h then mret tt
  else setupTransport (localDtlsRole h) (Some localSdpObject).

Definition update_ice_servers (iceServers : jsval) : M unit :=
  p ← pc;
  configuration ← browse (pc_getConfiguration p);
  browse (pc_setConfiguration p (js_set configuration "iceServers" iceServers)).

Definition restart_ice (iceParameters : jsval) : M unit :=
  _ ← on_sdp (updateIceParameters iceParameters);
  h ← handler;
  if negb (h_transportReady h) then mret tt
  else if String.eqb (h_direction h) "send" then offer_and_answer true
  else offer_remote.

Definition transport_stats : M jsval := p ← pc; browse (pc_getStats p).

(** ** Data channels *)

(** The options of a data channel; browsers of an older specification also read
    [maxRetransmitTime]. *)
Definition data_channel_options (old : bool) (id : jsval) (ordered maxPacketLifeTime maxRetransmits protocol : jsval) : jsval :=
  JObj ([("negotiated", JBool true); ("id", id); ("ordered", ordered); ("maxPacketLifeTime", maxPacketLifeTime)] ++
        (if old then [("maxRetransmitTime", maxPacketLifeTime)] else []) ++
        [("maxRetransmits", maxRetransmits); ("protocol", protocol)]).

(** [this._nextSendSctpStreamId = ++this._nextSendSctpStreamId % MIS]. *)
Definition next_stream_id (mis : Z) : M unit :=
  set_handler (λ h, with_nextSendSctpStreamId ((h_nextSendSctpStreamId h + 1) `mod` mis) h).

(** The first data channel brings the section for all of them. *)
Definition offer_sctp_section (localDtlsRole : Handler X → string) : M unit :=
  offer ← createOffer false;
  localSdpObject ← lift (sdp_parse offer);
  media ← lift (iterate (js_get localSdpObject "media"));
  offerMediaObject ← lift (find_ok (λ m, t ← get_prop m "type"; Ok (is_str t "application")) media);
  _ ← ensure_transport localDtlsRole localSdpObject;
  _ ← setLocalDescription Offer offer;
  offerMediaObject ← lift match offerMediaObject with Some m => Ok m | None => Throw "Cannot read properties of undefined" end;
  _ ← on_sdp (sendSctpAssociation offerMediaObject);
  _ ← apply_remote Answer;
  set_handler (with_hasDataChannelMediaSection true).

(** The data channel and its stream parameters. *)
Definition send_data_channel (old : bool) (mis : Z) (localDtlsRole : Handler X → string) (o : DataChannelOptions) : M (nat * jsval) :=
  h ← handler;
  let id := h_nextSendSctpStreamId h in
  p ← pc;
  dataChannel ← browse (pc_createDataChannel p (dc_label o)
    (data_channel_options old (js_int id) (dc_ordered o) (dc_maxPacketLifeTime o) (dc_maxRetransmits o) (dc_protocol o)));
  _ ← next_stream_id mis;
  _ ← (if h_hasDataChannelMediaSection h then mret tt else offer_sctp_section localDtlsRole);
  mret (dataChannel, JObj [("streamId", js_int id); ("ordered", dc_ordered o); ("maxPacketLifeTime", dc_maxPacketLifeTime o);
                           ("maxRetransmits", dc_maxRetransmits o)]).

Definition answer_sctp_section (oldDataChannelSpec : bool) (localDtlsRole : Handler X → string) : M unit :=
  _ ← on_sdp (receiveSctpAssociation oldDataChannelSpec);
  _ ← apply_remote Offer;
  answer ← createAnswer;
  h ← handler;
  _ ← (if h_transportReady h then mret tt
       else localSdpObject ← lift (sdp_parse answer); setupTransport (localDtlsRole h) (Some localSdpObject));
  _ ← setLocalDescription Answer answer;
  set_handler (with_hasDataChannelMediaSection true).

Definition receive_data_channel (old oldDataChannelSpec : bool) (localDtlsRole : Handler X → string)
    (sctpStreamParameters label protocol : jsval) : M nat :=
  streamId ← lift (get_prop sctpStreamParameters "streamId");
  let get := js_get sctpStreamParameters in
  p ← pc;
  dataChannel ← browse (pc_createDataChannel p label
    (data_channel_options old streamId (get "ordered") (get "maxPacketLifeTime") (get "maxRetransmits") protocol));
  h ← handler;
  _ ← (if h_hasDataChannelMediaSection h then mret tt else answer_sctp_section oldDataChannelSpec localDtlsRole);
  mret dataChannel.
End Base.
Arguments World : clear implicits.

(** ** Sending with older browsers

    What the [send] methods of Chrome74.js, Chrome70.js, Safari12.js,
    ReactNativeUnifiedPlan.js, Firefox120.js and Firefox60.js have in common:
    simulcast lines added to the offer by hand, and the scalability modes of the
    encodings. *)

(** [encoding.rid = `r${idx}`]. *)
Definition set_rids (encodings : list jsval) : list jsval :=
  imap (λ idx e, js_set e "rid" (JStr ("r" +:+ js_to_string (js_int (Z.of_nat idx))))) encodings.
Definition simulcast_rids (encodings : list jsval) : list jsval :=
  if (1 <? length encodings)%nat then set_rids encodings else encodings.

(** [parse((encodings ?? [{}])[0].scalabilityMode)]. *)
Definition first_layers (encodings : option (list jsval)) : outcome layers :=
  mode ← get_prop (at_index (default [JObj []] encodings) 0) "scalabilityMode";
  Ok (ScalabilityModes.parse (if is_nullish mode then None else Some (js_to_string mode))).

(** [parameters.codecs[0].mimeType.toLowerCase() === mimeType]. *)
Definition first_codec_is (parameters : jsval) (mimeType : string) : outcome bool :=
  codecs ← iterate (js_get parameters "codecs");
  m ← get_prop (at_index codecs 0) "mimeType";
  Ok (String.eqb (toLowerCase (js_to_string m)) mimeType).

(** The condition of the special case for VP9 with SVC. *)
Definition vp9_svc (encodings : option (list jsval)) (l : layers) (parameters : jsval) : outcome bool :=
  match encodings with
  | Some [_] => if 1 <? spatialLayers l then first_codec_is parameters "video/vp9" else Ok false
  | _ => Ok false
  end.

(** The encodings of the parameters, of which VP9 with SVC has one. *)
Definition keep_first (hack : bool) (encodings : list jsval) : list jsval :=
  if hack then [at_index encodings 0] else encodings.

(** The encodings of the offer completed with those given, one by one. *)
Fixpoint complete_encodings (encodings given : list jsval) : list jsval :=
  match encodings, given with
  | e :: encodings, g :: given => (if truthy g then js_assign e g else e) :: complete_encodings encodings given
  | _, _ => encodings
  end.

(** Whether there is effective simulcast with VP8 or H264. *)
Definition effective_simulcast (parameters : jsval) (encodings : list jsval) : outcome bool :=
  if (1 <? length encodings)%nat then
    vp8 ← first_codec_is parameters "video/vp8";
    if (vp8 : bool) then Ok true else first_codec_is parameters "video/h264"
  else Ok false.

Definition with_layers (l : layers) (encoding : jsval) : jsval :=
  js_set encoding "scalabilityMode"
    (JStr (if truthy (js_get encoding "scalabilityMode") then "L1T" +:+ js_to_string (js_int (temporalLayers l)) else "L1T3")).
Definition with_L1T3 (encoding : jsval) : jsval := js_set encoding "scalabilityMode" (JStr "L1T3").

Definition set_modes (mode : jsval → jsval) (parameters : jsval) (encodings : list jsval) : outcome (list jsval) :=
  b ← effective_simulcast parameters encodings;
  Ok (if (b : bool) then map mode encodings else encodings).

(** [sendingRtpParameters.rtcp.cname = getCname({ offerMediaObject })]. *)
Definition set_cname (parameters offerMediaObject : jsval) : outcome jsval :=
  cname ← getCname offerMediaObject;
  Ok (js_set parameters "rtcp" (js_set (js_get parameters "rtcp") "cname" cname)).

Section Legacy.
Context {text : Type} `{!SdpText text}.

(** The offer with [n] streams in its section [idx]. *)
Definition legacy_offer (offer : text) (idx n : nat) : outcome text :=
  localSdpObject ← sdp_parse offer;
  offerMediaObject ← media_at localSdpObject idx;
  offerMediaObject ← UnifiedPlan_addLegacySimulcast offerMediaObject n;
  media ← iterate (js_get localSdpObject "media");
  Ok (sdp_write (js_set localSdpObject "media" (JArr (<[idx := offerMediaObject]> media)))).
End Legacy.
