(* ===== verification/Chrome111.v ===== *)
(** * The handler of current Chrome (src/client/lib/handlers/Chrome111.js)

    The methods of the handler, which [HandlerBase] has the negotiations for.  What
    it keeps of its own is the map from local ids to transceivers.  The other
    handlers for unified plan share most of the methods; where they lack a guard,
    the method without it has a name of its own here. *)

From Stdlib Require Import QArith.
From stdpp Require Import gmap.
From S2P Require Import Prelude JsNum JsVal JsConv JsString DownlinkProtocol ScalabilityModes OrtcValidate Ortc.
From S2P Require Import SdpUtils MediaSection RemoteSdp Browser HandlerBase.
Local Open Scope string_scope.
Local Open Scope list_scope.
Local Open Scope Z_scope.

Definition SCTP_NUM_STREAMS_OS : Z := 1024.
Definition SCTP_NUM_STREAMS_MIS : Z := 1024.

(** Transceivers by local id. *)
Abbreviation Transceivers := (gmap (option string) nat).
Abbreviation h_mapMidTransceiver := (@h_own Transceivers).

(** ** Simulcast encodings *)

Definition temporal_layers (encoding : jsval) : Z :=
  let mode := js_get encoding "scalabilityMode" in
  if truthy mode then temporalLayers (ScalabilityModes.parse (Some (js_to_string mode))) else 3.
Definition maxTemporalLayers (encodings : list jsval) : Z :=
  foldl (λ m e, if m <? temporal_layers e then temporal_layers e else m) 1 encodings.

(** [rid] and a common [scalabilityMode] when there are several encodings. *)
Definition simulcast_encodings (encodings : list jsval) : list jsval :=
  if (1 <? length encodings)%nat then
    let m := maxTemporalLayers encodings in
    imap (λ idx e, js_set (js_set e "rid" (JStr ("r" +:+ js_to_string (js_int (Z.of_nat idx)))))
                     "scalabilityMode" (JStr ("L1T" +:+ js_to_string (js_int m)))) encodings
  else encodings.

(** The encodings of the parameters: those of the offer, completed with a single
    one given, or those given. *)
Definition sending_encodings (encodings : option (list jsval)) (offerMediaObject : jsval) : outcome (list jsval) :=
  match encodings with
  | None => UnifiedPlan.getRtpEncodings offerMediaObject
  | Some [encoding] =>
      newEncodings ← UnifiedPlan.getRtpEncodings offerMediaObject;
      match newEncodings with
      | e :: l => Ok (js_assign e encoding :: l)
      | [] => Throw "Cannot convert undefined or null to object"
      end
  | Some encodings => Ok encodings
  end.

(** ** Methods *)

Section Chrome111.
Context {B text : Type} `{!SdpText text} `{!Browser B text}.
(** The h264-profile-level-id package. *)
Context (isSameProfile : jsval → jsval → bool) (generateProfileLevelIdStringForAnswer : jsval → jsval → outcome jsval).
Abbreviation reduced := (reduced_parameters isSameProfile generateProfileLevelIdStringForAnswer).
Abbreviation M := (action (World Transceivers B text)).

Definition guarded {A} (m : M A) : M A := _ ← assertNotClosed; m.

Definition close : M unit :=
  h ← handler;
  if h_closed h then mret tt
  else
    _ ← set_handler (with_closed true);
    _ ← close_pc;
    emit "@close" JUndef.

Definition getNativeRtpCapabilities : M jsval :=
  native_capabilities (Some "unified-plan") (mret tt) (λ _, offer_audio_video) (λ _, mret tt) addNackSuppportForOpus.

Definition getNativeSctpCapabilities : M jsval := sctp_capabilities SCTP_NUM_STREAMS_OS SCTP_NUM_STREAMS_MIS.

Definition run (o : RunOptions) : M unit := guarded (run_with false (Some "unified-plan") (force_role o) o).

Definition updateIceServers (iceServers : jsval) : M unit := guarded (update_ice_servers iceServers).

Definition restartIce (iceParameters : jsval) : M unit := guarded (restart_ice iceParameters).

Definition getTransportStats : M jsval := guarded transport_stats.

(** ** Sending *)

Definition store (localId : option string) (transceiver : nat) : M unit := set_own <[localId := transceiver]>.
Definition forget (localId : string) : M unit := set_own (delete (Some localId)).

Definition send (o : SendOptions) : M (option string * jsval * option nat) :=
  _ ← assertNotClosed;
  _ ← assertSendDirection;
  let encodings := simulcast_encodings <$> sn_encodings o in
  h ← handler;
  sendingRtpParameters ← lift (reduced (h_sendingRtpParametersByKind h) (sn_kind o) (sn_codec o));
  sendingRemoteRtpParameters ← lift (reduced (h_sendingRemoteRtpParametersByKind h) (sn_kind o) (sn_codec o));
  mediaSectionIdx ← with_sdp (λ rs, Ok (rs, getNextMediaSectionIdx rs));
  p ← pc;
  transceiver ← browse (pc_addTransceiver p (OfTrack (sn_track o)) (Some "sendonly") (from_option JArr JUndef encodings));
  _ ← (if sn_onRtpSender o then browse (call_onRtpSender transceiver) else mret tt);
  offer ← createOffer false;
  localSdpObject ← lift (sdp_parse offer);
  _ ← ensure_transport forced_or_client localSdpObject;
  _ ← setLocalDescription Offer offer;
  localId ← read (transceiver_mid transceiver);
  let sendingRtpParameters := js_set sendingRtpParameters "mid" (js_mid localId) in
  localSdpObject ← localDescription;
  offerMediaObject ← lift (media_at localSdpObject mediaSectionIdx.1);
  cname ← lift (getCname offerMediaObject);
  let sendingRtpParameters := js_set sendingRtpParameters "rtcp" (js_set (js_get sendingRtpParameters "rtcp") "cname" cname) in
  encs ← lift (sending_encodings encodings offerMediaObject);
  let sendingRtpParameters := js_set sendingRtpParameters "encodings" (JArr encs) in
  sendingRtpParameters ← with_sdp (RemoteSdp.send offerMediaObject mediaSectionIdx.2 sendingRtpParameters
                            sendingRemoteRtpParameters (sn_codecOptions o) true);
  _ ← apply_remote Answer;
  _ ← store localId transceiver;
  mret (localId, sendingRtpParameters, Some transceiver).

(** [this._mapMidTransceiver.get(localId)]. *)
Definition transceiver_or (missing : string) (localId : string) : M nat :=
  h ← handler;
  lift match h_mapMidTransceiver h !! Some localId with
       | Some t => Ok t
       | None => Throw missing
       end.
Definition transceiver_of : string → M nat := transceiver_or "associated RTCRtpTransceiver not found".

(** [closeMediaSection(transceiver.mid)]. *)
Definition close_section (mid : option string) : M bool :=
  match mid with
  | Some mid => with_sdp (closeMediaSection mid)
  | None => lift (Throw "no media section found with mid 'null'")
  end.


Definition stop_sending (localId : string) : M unit :=
  transceiver ← transceiver_of localId;
  _ ← attempt (browse (sender_replaceTrack transceiver None));
  p ← pc;
  _ ← browse (pc_removeTrack p transceiver);
  mid ← read (transceiver_mid transceiver);
  mediaSectionClosed ← close_section mid;
  _ ← (if (mediaSectionClosed : bool) then attempt (browse (transceiver_stop transceiver)) else mret tt);
  _ ← offer_and_answer false;
  forget localId.

Definition stopSending (localId : string) : M unit :=
  _ ← assertSendDirection;
  h ← handler;
  if h_closed h then mret tt else stop_sending localId.

Definition pauseSending (localId : string) : M unit :=
  _ ← assertNotClosed;
  _ ← assertSendDirection;
  transceiver ← transceiver_of localId;
  _ ← browse (transceiver_setDirection transceiver "inactive");
  _ ← on_sdp (pauseMediaSection localId);
  offer_and_answer false.

(** The section is resumed before the transceiver is found missing. *)
Definition resumeSending (localId : string) : M unit :=
  _ ← assertNotClosed;
  _ ← assertSendDirection;
  _ ← on_sdp (resumeSendingMediaSection localId);
  transceiver ← transceiver_of localId;
  _ ← browse (transceiver_setDirection transceiver "sendonly");
  offer_and_answer false.

Definition replace_track (localId : string) (track : option nat) : M unit :=
  _ ← assertSendDirection;
  transceiver ← transceiver_of localId;
  browse (sender_replaceTrack transceiver track).

Definition replaceTrack (localId : string) (track : option nat) : M unit := guarded (replace_track localId track).

(** The sender's parameters with its encodings changed, and the simulcast line of
    the section after them. *)
Definition change_encodings (missing localId : string) (f : list jsval → list jsval) : M unit :=
  _ ← assertSendDirection;
  transceiver ← transceiver_or missing localId;
  parameters ← browse (sender_getParameters transceiver);
  encodings ← lift (iterate (js_get parameters "encodings"));
  let encodings := f encodings in
  _ ← browse (sender_setParameters transceiver (js_set parameters "encodings" (JArr encodings)));
  _ ← on_sdp (muxMediaSectionSimulcast sdp_parseSimulcastStreamList localId (JArr encodings));
  offer_and_answer false.

Definition activate (spatialLayer : num) (encodings : list jsval) : list jsval :=
  imap (λ idx encoding, js_set encoding "active" (JBool (num_leb (num_of_Z (Z.of_nat idx)) spatialLayer))) encodings.
Definition override (params : jsval) (encodings : list jsval) : list jsval :=
  map (λ encoding, js_assign (JObj (js_spread encoding)) params) encodings.

Definition setMaxSpatialLayer (localId : string) (spatialLayer : num) : M unit :=
  guarded (change_encodings "associated RTCRtpTransceiver not found" localId (activate spatialLayer)).

Definition setRtpEncodingParameters (localId : string) (params : jsval) : M unit :=
  guarded (change_encodings "associated RTCRtpTransceiver not found" localId (override params)).

Definition sender_stats (localId : string) : M jsval :=
  _ ← assertSendDirection;
  transceiver ← transceiver_of localId;
  browse (sender_getStats transceiver).

Definition getSenderStats (localId : string) : M jsval := guarded (sender_stats localId).

Definition sendDataChannel (o : DataChannelOptions) : M (nat * jsval) :=
  _ ← assertNotClosed;
  _ ← assertSendDirection;
  send_data_channel false SCTP_NUM_STREAMS_MIS forced_or_client o.

(** ** Receiving *)

(** [rtpParameters.mid ?? String(this._mapMidTransceiver.size)]; the mid of
    validated parameters is a string. *)
Definition local_id (rtpParameters : jsval) (h : Handler Transceivers) : string :=
  let mid := js_get rtpParameters "mid" in
  if is_nullish mid then js_to_string (js_int (Z.of_nat (size (h_mapMidTransceiver h)))) else js_to_string mid.

(** One consumer in the remote description, with its local id. *)
Definition offer_consumer (o : ReceiveOptions) : M (string * string) :=
  h ← handler;
  let localId := local_id (rv_rtpParameters o) h in
  streamId ← lift (if is_nullish (rv_streamId o) then get_prop (js_get (rv_rtpParameters o) "rtcp") "cname" else Ok (rv_streamId o));
  _ ← on_sdp (RemoteSdp.receive localId (rv_kind o) (rv_rtpParameters o) streamId (JStr (rv_trackId o)));
  mret (rv_trackId o, localId).

(** [mapLocalId], where a later entry of a track replaces an earlier one. *)
Definition local_id_of (mapLocalId : list (string * string)) (trackId : string) : option string :=
  map_get (foldl (λ m e, map_set m e.1 e.2) [] mapLocalId) trackId.

Definition find_transceiver (localId : option string) : M (option nat) :=
  p ← pc;
  read (λ b, array_find (λ t, bool_decide (transceiver_mid t b = localId)) (pc_getTransceivers p b)).

Definition tell_receiver (mapLocalId : list (string * string)) (o : ReceiveOptions) : M unit :=
  if rv_onRtpReceiver o then
    transceiver ← find_transceiver (local_id_of mapLocalId (rv_trackId o));
    match transceiver with
    | Some t => browse (call_onRtpReceiver t)
    | None => lift (Throw "transceiver not found")
    end
  else mret tt.

(** The codec parameters of one consumer in the section of the answer that has
    its local id. *)
Fixpoint apply_in (rtpParameters : jsval) (localId : string) (media : list jsval) : outcome (list jsval) :=
  match media with
  | [] => _ ← applyCodecParameters sdp_parseParams rtpParameters JUndef; Ok []
  | m :: media =>
      mid ← get_prop m "mid";
      if String.eqb (js_to_string mid) localId then m ← applyCodecParameters sdp_parseParams rtpParameters m; Ok (m :: media)
      else media ← apply_in rtpParameters localId media; Ok (m :: media)
  end.

Definition apply_answer (mapLocalId : list (string * string)) (answer : jsval) (o : ReceiveOptions) : outcome jsval :=
  media ← iterate (js_get answer "media");
  media ← apply_in (rv_rtpParameters o) (default "undefined" (local_id_of mapLocalId (rv_trackId o))) media;
  Ok (js_set answer "media" (JArr media)).

(** The transceiver of a consumer, stored under its local id. *)
Definition store_consumer (mapLocalId : list (string * string)) (o : ReceiveOptions) : M (option string * nat * option nat) :=
  let localId := local_id_of mapLocalId (rv_trackId o) in
  transceiver ← find_transceiver localId;
  match transceiver with
  | None => lift (Throw "new RTCRtpTransceiver not found")
  | Some t =>
      _ ← store localId t;
      track ← read (receiver_track t);
      mret (localId, track, Some t)
  end.

(** [receive] after the guards; [tell] is what happens with the receivers once the
    offer is applied, [write] how the answer is written. *)
Definition receive_batch (localDtlsRole : Handler Transceivers → string) (tell : list (string * string) → M unit)
    (write : text → jsval → text) (optionsList : list ReceiveOptions) : M (list (option string * nat * option nat)) :=
  mapLocalId ← collect offer_consumer optionsList;
  _ ← apply_remote Offer;
  _ ← tell mapLocalId;
  answer ← createAnswer;
  localSdpObject ← lift (sdp_parse answer);
  localSdpObject ← lift (fold_ok (apply_answer mapLocalId) localSdpObject optionsList);
  _ ← ensure_transport localDtlsRole localSdpObject;
  _ ← setLocalDescription Answer (write answer localSdpObject);
  collect (store_consumer mapLocalId) optionsList.

Definition tell_receivers (optionsList : list ReceiveOptions) (mapLocalId : list (string * string)) : M unit :=
  each (tell_receiver mapLocalId) optionsList.

Definition receive (optionsList : list ReceiveOptions) : M (list (option string * nat * option nat)) :=
  _ ← assertNotClosed;
  _ ← assertRecvDirection;
  receive_batch forced_or_client (tell_receivers optionsList) (λ _, sdp_write) optionsList.

Definition stop_one (localId : string) : M unit :=
  transceiver ← transceiver_of localId;
  mid ← read (transceiver_mid transceiver);
  _ ← close_section mid; mret tt.

Definition stop_receiving (localIds : list string) : M unit :=
  _ ← each stop_one localIds;
  _ ← offer_remote;
  each forget localIds.

Definition stopReceiving (localIds : list string) : M unit :=
  _ ← assertRecvDirection;
  h ← handler;
  if h_closed h then mret tt else stop_receiving localIds.

Definition pause_one (localId : string) : M unit :=
  transceiver ← transceiver_of localId;
  _ ← browse (transceiver_setDirection transceiver "inactive");
  on_sdp (pauseMediaSection localId).

Definition pauseReceiving (localIds : list string) : M unit :=
  _ ← assertNotClosed;
  _ ← assertRecvDirection;
  _ ← each pause_one localIds;
  offer_remote.

Definition resume_one (localId : string) : M unit :=
  transceiver ← transceiver_of localId;
  _ ← browse (transceiver_setDirection transceiver "recvonly");
  on_sdp (resumeReceivingMediaSection localId).

Definition resumeReceiving (localIds : list string) : M unit :=
  _ ← assertNotClosed;
  _ ← assertRecvDirection;
  _ ← each resume_one localIds;
  offer_remote.

Definition receiver_stats (localId : string) : M jsval :=
  _ ← assertRecvDirection;
  transceiver ← transceiver_of localId;
  browse (receiver_getStats transceiver).

Definition getReceiverStats (localId : string) : M jsval := guarded (receiver_stats localId).

Definition receiveDataChannel (sctpStreamParameters label protocol : jsval) : M nat :=
  _ ← assertNotClosed;
  _ ← assertRecvDirection;
  receive_data_channel false false forced_or_client sctpStreamParameters label protocol.

(** The factory of the handler. *)
Definition createFactory : Methods (World Transceivers B text) :=
  {| m_close := close; m_getNativeRtpCapabilities := getNativeRtpCapabilities;
     m_getNativeSctpCapabilities := getNativeSctpCapabilities; m_run := run; m_updateIceServers := updateIceServers;
     m_restartIce := restartIce; m_getTransportStats := getTransportStats; m_send := send; m_stopSending := stopSending;
     m_pauseSending := pauseSending; m_resumeSending := resumeSending; m_replaceTrack := replaceTrack;
     m_setMaxSpatialLayer := setMaxSpatialLayer; m_setRtpEncodingParameters := setRtpEncodingParameters;
     m_getSenderStats := getSenderStats; m_sendDataChannel := sendDataChannel; m_receive := receive;
     m_stopReceiving := stopReceiving; m_pauseReceiving := pauseReceiving; m_resumeReceiving := resumeReceiving;
     m_getReceiverStats := getReceiverStats; m_receiveDataChannel := receiveDataChannel |}.
End Chrome111.
