(* ===== verification/HandlerLogic.v ===== *)
(** * A logic for handlers

    The states of a negotiation, a weakest precondition for actions, the invariant
    of a handler that negotiates, and how the steps that the handlers share keep
    it, whatever the browser answers.  [Negotiator] is the interface through which
    the theorems on runs are proved for every handler. *)

From Stdlib Require Import QArith.
From stdpp Require Import gmap.
From S2P Require Import Prelude JsNum JsVal JsConv Ortc SdpUtils RemoteSdp Browser HandlerBase.
Local Open Scope string_scope.
Local Open Scope list_scope.

(** ** Signalling states *)

(** The states of the W3C recommendation, with the transitions a handler may use;
    a call that fails changes nothing. *)
Inductive signalling := Stable | HaveLocalOffer | HaveRemoteOffer.

Create HintDb quiet.

Section Logic.
Context {X B text : Type} `{!SdpText text} `{!Browser B text}.
Abbreviation World := (World X B text).
Abbreviation M := (action World).
Abbreviation entry := (@entry text).

Definition signal (s : signalling) (e : entry) : option signalling :=
  match e, s with
  | LocalDescription Offer _ ok, (Stable | HaveLocalOffer) => Some (if ok then HaveLocalOffer else s)
  | LocalDescription Answer _ ok, HaveRemoteOffer => Some (if ok then Stable else s)
  | RemoteDescription Offer _ ok, (Stable | HaveRemoteOffer) => Some (if ok then HaveRemoteOffer else s)
  | RemoteDescription Answer _ ok, HaveLocalOffer => Some (if ok then Stable else s)
  | AnswerCreated _, HaveRemoteOffer => Some s
  | Connected _ _, _ => Some s
  | _, _ => None
  end.

(** The state after the calls of a log, none of which is illegal. *)
Definition signals (s : signalling) (log : list entry) : option signalling :=
  foldl (λ s e, s ≫= λ s, signal s e) (Some s) log.

Lemma signals_app s l l' : signals s (l ++ l') = signals s l ≫= λ s, signals s l'.
Proof.
  unfold signals. rewrite foldl_app. destruct (foldl _ (Some s) l) as [s'|]; [done|]. cbn.
  induction l' as [|e l' IH]; [done|]. cbn. exact IH.
Qed.

(** ** A logic of actions

    [wp m Q E w]: run in [w], the action returns a result and a world in [Q], or
    throws in a world of [E]. *)
Definition wp {A} (m : M A) (Q : A → World → Prop) (E : World → Prop) (w : World) : Prop :=
  match m w with (Ok a, w') => Q a w' | (Throw _, w') => E w' end.

Lemma wp_bind {A C} (m : M A) (f : A → M C) Q E w : wp m (λ a, wp (f a) Q E) E w → wp (m ≫= f) Q E w.
Proof. unfold wp, mbind, action_bind. by destruct (m w) as [[a|e] w']. Qed.
Lemma wp_ret {A} (a : A) (Q : A → World → Prop) (E : World → Prop) w : Q a w → wp (mret a) Q E w.
Proof. done. Qed.
Lemma wp_mono {A} (m : M A) (Q Q' : A → World → Prop) (E E' : World → Prop) w :
  (∀ a w, Q a w → Q' a w) → (∀ w, E w → E' w) → wp m Q E w → wp m Q' E' w.
Proof. unfold wp. destruct (m w) as [[a|e] w']; auto. Qed.
Lemma wp_lift {A} (m : outcome A) (Q : A → World → Prop) (E : World → Prop) w :
  (∀ a, m = Ok a → Q a w) → E w → wp (lift m) Q E w.
Proof. unfold wp, lift. destruct m; auto. Qed.
Lemma wp_handler (Q : Handler X → World → Prop) (E : World → Prop) w : Q (w_handler w) w → wp handler Q E w.
Proof. done. Qed.
Lemma wp_read {A} (f : B → A) (Q : A → World → Prop) (E : World → Prop) w : Q (f (w_browser w)) w → wp (read f) Q E w.
Proof. done. Qed.
Lemma wp_each {A} (f : A → M unit) (I : World → Prop) (E : World → Prop) l w :
  (∀ x w, x ∈ l → I w → wp (f x) (λ _, I) E w) → I w → wp (each f l) (λ _, I) E w.
Proof.
  revert w. induction l as [|x l IH]; intros w Hf Hi; [done|]. apply wp_bind.
  eapply (wp_mono _ (λ _, I)); [|done|by apply Hf; [left|]].
  intros _ w' Hi'. apply IH; [|done]. intros y w'' Hy. apply Hf. by right.
Qed.
Lemma wp_collect {A C} (f : A → M C) (I : World → Prop) (E : World → Prop) l w :
  (∀ x w, I w → wp (f x) (λ _, I) E w) → I w → wp (collect f l) (λ _, I) E w.
Proof.
  intros Hf. revert w. induction l as [|x l IH]; intros w Hi; [done|]. apply wp_bind.
  eapply (wp_mono _ (λ _, I)); [|done|by apply Hf]. intros c w' Hi'. apply wp_bind.
  by eapply (wp_mono _ (λ _, I)); [|done|by apply IH].
Qed.

(** ** Quiet actions

    They leave alone the log and the fields of the handler that the negotiation
    depends on. *)
Definition core (w : World) := let h := w_handler w in
  (w_log w, h_direction h, h_transportReady h, h_forcedLocalDtlsRole h, h_own h).
Definition quiet {A} (m : M A) : Prop := ∀ w, core (m w).2 = core w.

Lemma quiet_bind {A C} (m : M A) (f : A → M C) : quiet m → (∀ a, quiet (f a)) → quiet (m ≫= f).
Proof.
  intros Hm Hf w. unfold mbind, action_bind. specialize (Hm w). destruct (m w) as [[a|e] w']; [|done].
  rewrite (Hf a w'). exact Hm.
Qed.
Lemma quiet_ret {A} (a : A) : quiet (mret a).
Proof. done. Qed.
Lemma quiet_lift {A} (m : outcome A) : quiet (lift m).
Proof. done. Qed.
Lemma quiet_handler : quiet handler.
Proof. done. Qed.
Lemma quiet_read {A} (f : B → A) : quiet (read f).
Proof. done. Qed.
Lemma quiet_browse {A} (f : B → outcome A * B) : quiet (browse f).
Proof. intros w. unfold browse. by destruct (f _). Qed.
Lemma quiet_with_sdp {A} (f : RemoteSdp → outcome (RemoteSdp * A)) : quiet (with_sdp f).
Proof. intros w. unfold with_sdp. destruct (h_remoteSdp _) as [rs|]; [|done]. by destruct (f rs) as [[]|]. Qed.
Lemma quiet_attempt (m : M unit) : quiet m → quiet (attempt m).
Proof. intros Hm w. apply Hm. Qed.
Lemma quiet_emit e x : quiet (emit e x).
Proof. done. Qed.
Lemma quiet_each {A} (f : A → M unit) l : (∀ x, quiet (f x)) → quiet (each f l).
Proof. intros Hf. induction l as [|x l IH]; [done|]. by apply quiet_bind. Qed.
Lemma quiet_collect {A C} (f : A → M C) l : (∀ x, quiet (f x)) → quiet (collect f l).
Proof. intros Hf. induction l as [|x l IH]; [done|]. apply quiet_bind; [done|]. intros c. by apply quiet_bind. Qed.
Lemma quiet_if {A} (b : bool) (m m' : M A) : quiet m → quiet m' → quiet (if b then m else m').
Proof. by destruct b. Qed.

Lemma quiet_pc : quiet pc.
Proof. apply quiet_bind; [done|]. done. Qed.
Lemma quiet_nextSctpStreamId (f : Handler X → Z) : quiet (set_handler (λ h, with_nextSendSctpStreamId (f h) h)).
Proof. done. Qed.
Lemma quiet_dataSection b : quiet (set_handler (with_hasDataChannelMediaSection b)).
Proof. done. Qed.
Lemma quiet_hang_up p : quiet (hang_up p).
Proof. apply quiet_attempt, quiet_browse. Qed.
Lemma quiet_close_pc : quiet close_pc.
Proof. apply quiet_bind; [done|]. intros h. destruct (h_pc h); [apply quiet_hang_up|done]. Qed.
Lemma quiet_closed b : quiet (set_handler (with_closed b)).
Proof. done. Qed.
Lemma quiet_on_sdp f : quiet (on_sdp f).
Proof. apply quiet_with_sdp. Qed.
End Logic.
#[export] Hint Resolve quiet_ret quiet_lift quiet_handler quiet_read quiet_browse quiet_with_sdp quiet_attempt quiet_emit quiet_each
  quiet_collect quiet_pc quiet_on_sdp quiet_nextSctpStreamId quiet_dataSection quiet_closed quiet_close_pc : quiet.
#[export] Hint Resolve quiet_bind quiet_if : quiet.

(** Shows that an action is quiet by its parts. *)
Ltac quiet := repeat first [match goal with |- ∀ _, _ => intro end|apply quiet_bind|apply quiet_if|progress eauto 2 with quiet|case_match].

(** ** Negotiations *)

Section Negotiation.
Context {X B text : Type} `{!SdpText text} `{!Browser B text}.
Abbreviation World := (World X B text).
Abbreviation M := (action World).
Abbreviation entry := (@entry text).

Lemma quiet_createOffer r : quiet (createOffer r : M text).
Proof. unfold createOffer. quiet. Qed.
Lemma quiet_localDescription : quiet (localDescription : M jsval).
Proof. unfold localDescription. quiet. Qed.

Lemma quiet_assertNotClosed : quiet (assertNotClosed : M unit).
Proof. unfold assertNotClosed. quiet. Qed.
Lemma quiet_assertSend : quiet (assertSendDirection : M unit).
Proof. unfold assertSendDirection. quiet. Qed.
Lemma quiet_assertRecv : quiet (assertRecvDirection : M unit).
Proof. unfold assertRecvDirection. quiet. Qed.
Hint Resolve quiet_createOffer quiet_localDescription quiet_assertNotClosed quiet_assertSend quiet_assertRecv : quiet.

Lemma wp_quiet {A} (m : M A) (Q : A → World → Prop) (E : World → Prop) w : quiet m →
  (∀ a w', core w' = core w → Q a w') → (∀ w', core w' = core w → E w') → wp m Q E w.
Proof. intros Hm HQ HE. specialize (Hm w). unfold wp. destruct (m w) as [[a|e] w']; auto. Qed.

Lemma wp_logged {A} (e : bool → entry) (f : B → outcome A * B) (Q : A → World → Prop) (E : World → Prop) w :
  (∀ a w', w_log w' = w_log w ++ [e true] → w_handler w' = w_handler w → Q a w') →
  (∀ w', w_log w' = w_log w ++ [e false] → w_handler w' = w_handler w → E w') → wp (logged e f) Q E w.
Proof. intros HQ HE. unfold wp, logged. destruct (f _) as [[a|m] b]; auto. Qed.

(** ** The invariant *)

Definition is_local (e : entry) : bool := match e with LocalDescription _ _ _ => true | _ => false end.
Definition is_connected (e : entry) : bool := match e with Connected _ true => true | _ => false end.

(** Local descriptions come after the connection. *)
Definition led (log : list entry) : Prop :=
  ∀ l1 e l2, log = l1 ++ e :: l2 → is_local e = true → existsb is_connected l1 = true.

(** The role announced: the one forced, or client. *)
Definition announces (role : string) (e : entry) : Prop := match e with Connected d _ => js_get d "role" = JStr role | _ => True end.

Definition on_side (d : string) (s : signalling) : Prop := if String.eqb d "send" then s ≠ HaveRemoteOffer else s ≠ HaveLocalOffer.

(** When what a handler keeps of its own tells that it is in use, and the role the
    remote side forces on it. *)
Context (in_use : X → Prop) (forced : option string).

Record negotiating (d : string) (s : signalling) (w : World) : Prop := {
  ng_direction : h_direction (w_handler w) = d;
  ng_signals : signals Stable (w_log w) = Some s;
  ng_side : on_side d s;
  ng_led : led (w_log w);
  ng_count : length (List.filter is_connected (w_log w)) = if h_transportReady (w_handler w) then 1%nat else 0%nat;
  ng_map : in_use (h_own (w_handler w)) → h_transportReady (w_handler w) = true;
  ng_forced : h_forcedLocalDtlsRole (w_handler w) = forced;
  ng_roles : Forall (announces (default "client" forced)) (w_log w);
}.
Definition ready (w : World) : Prop := h_transportReady (w_handler w) = true.
Definition legal (d : string) (w : World) : Prop := ∃ s, negotiating d s w.

Lemma negotiating_core d s w w' : core w' = core w → negotiating d s w → negotiating d s w'.
Proof. unfold core. intros [= H1 H2 H3 H4 H5] []. by split; rewrite ?H1, ?H2, ?H3, ?H4, ?H5. Qed.
Lemma ready_core w w' : core w' = core w → ready w → ready w'.
Proof. unfold core, ready. by intros [= _ _ -> _ _]. Qed.

Lemma led_snoc log e : led log → (is_local e = true → existsb is_connected log = true) → led (log ++ [e]).
Proof.
  intros Hl He l1 e' l2 E Hloc. destruct l2 as [|x l2 _] using rev_ind.
  - apply app_inj_tail in E as [-> ->]. auto.
  - rewrite app_comm_cons, app_assoc in E. apply app_inj_tail in E as [-> _]. by eapply Hl.
Qed.

Lemma connected_exists log n : length (List.filter is_connected log) = S n → existsb is_connected log = true.
Proof.
  intros H. apply existsb_exists. destruct (List.filter is_connected log) as [|e l] eqn:E; [done|].
  exists e. apply filter_In. rewrite E. by left.
Qed.

Lemma ready_connected d s w : negotiating d s w → ready w → existsb is_connected (w_log w) = true.
Proof. intros Hn Hr. pose proof (ng_count _ _ _ Hn) as H. rewrite Hr in H. by eapply connected_exists. Qed.

(** A call in the log that is no connection. *)
Lemma negotiating_step d s s' w w' e : negotiating d s w → w_log w' = w_log w ++ [e] → w_handler w' = w_handler w →
  signal s e = Some s' → on_side d s' → (∀ x b, e ≠ Connected x b) → (is_local e = true → ready w) → negotiating d s' w'.
Proof.
  intros Hn El Eh Es Hs' Hc Hr. destruct Hn as [H1 H2 H3 H4 H5 H6 H7 H8] eqn:E; clear E. split; rewrite ?El, ?Eh; try done.
  - rewrite signals_app, H2. exact Es.
  - apply led_snoc; [done|]. intros He. eapply (ready_connected d s); auto.
  - rewrite List.filter_app, length_app, H5. destruct e as [| | |x b]; [..|by edestruct Hc]; cbn; lia.
  - apply Forall_app. split; [done|]. constructor; [|done]. destruct e as [| | |x b]; [..|by edestruct Hc]; done.
Qed.

(** ** Steps of a negotiation *)

Lemma on_side_stable d : on_side d Stable.
Proof. unfold on_side. by destruct (String.eqb _ _). Qed.

Lemma wp_call {A} (e : bool → entry) (f : nat → B → outcome A * B) d s s' w : negotiating d s w →
  signal s (e true) = Some s' → signal s (e false) = Some s → on_side d s' → (∀ x b c, e c ≠ Connected x b) → (is_local (e true) = true → ready w) →
  is_local (e false) = is_local (e true) →
  wp (pc ≫= λ p, logged e (f p)) (λ _ w', negotiating d s' w' ∧ (ready w → ready w')) (negotiating d s) w.
Proof.
  intros Hn Ht Hf Hs Hc Hr El. apply wp_bind, wp_quiet; [apply quiet_pc| |]; [|intros w1 E1; by eapply negotiating_core].
  intros p w1 E1. pose proof (negotiating_core _ _ _ _ E1 Hn) as Hn1.
  assert (is_local (e true) = true → ready w1) as Hr1 by (intros H; eapply ready_core; [exact E1|auto]).
  apply wp_logged.
  - intros a w2 L2 H2. split; [by eapply (negotiating_step d s s' w1)|]. unfold ready. rewrite H2. by apply ready_core.
  - intros w2 L2 H2. eapply (negotiating_step d s s w1); try done; [apply Hn|]. by rewrite El.
Qed.

(** An offer that fails leaves the state. *)
Lemma wp_local_offer_kept sdp d s w : negotiating d s w → d = "send" → ready w →
  wp (setLocalDescription Offer sdp) (λ _ w', negotiating d HaveLocalOffer w' ∧ ready w') (negotiating d s) w.
Proof.
  intros Hn -> Hr. pose proof (ng_side _ _ _ Hn) as Hs. cbn in Hs.
  eapply (wp_mono _ (λ _ w', negotiating "send" HaveLocalOffer w' ∧ (ready w → ready w'))); [by intros _ w' [? ?]; auto|done|].
  eapply wp_call; try done; by destruct s.
Qed.

Lemma wp_local_offer sdp d s w : negotiating d s w → d = "send" → ready w →
  wp (setLocalDescription Offer sdp) (λ _ w', negotiating d HaveLocalOffer w' ∧ ready w') (legal d) w.
Proof. intros Hn Hd Hr. eapply wp_mono; [| |by eapply wp_local_offer_kept]; [by intros|]. intros w' ?. by exists s. Qed.

(** The description written is the next version of the remote one. *)
Lemma wp_apply_remote type d s s' w : negotiating d s w → on_side d s' →
  (∀ sdp : text, signal s (RemoteDescription type sdp true) = Some s') → (∀ sdp : text, signal s (RemoteDescription type sdp false) = Some s) →
  wp (apply_remote type) (λ _ w', negotiating d s' w' ∧ (ready w → ready w')) (legal d) w.
Proof.
  intros Hn Hs' Ht Hf. apply wp_bind, wp_quiet; [apply quiet_with_sdp| |]; [|intros w1 E1; exists s; by eapply negotiating_core].
  intros o w1 E1. eapply (wp_mono _ (λ _ w', negotiating d s' w' ∧ (ready w1 → ready w')) _ (negotiating d s)); [|by exists s|].
  - intros _ w2 [? H]. split; [done|]. intros Hr. apply H. by eapply ready_core.
  - eapply wp_call; try done; [by eapply negotiating_core].
Qed.

Lemma wp_remote_answer d w : negotiating d HaveLocalOffer w → ready w →
  wp (apply_remote Answer) (λ _ w', negotiating d Stable w' ∧ ready w') (legal d) w.
Proof.
  intros Hn Hr. eapply (wp_mono _ (λ _ w', negotiating d Stable w' ∧ (ready w → ready w'))); [by intros _ w' [? ?]; auto|done|].
  by eapply wp_apply_remote; [|apply on_side_stable|..].
Qed.

Lemma wp_remote_offer d s w : negotiating d s w → d ≠ "send" →
  wp (apply_remote Offer) (λ _ w', negotiating d HaveRemoteOffer w' ∧ (ready w → ready w')) (legal d) w.
Proof.
  intros Hn Hd. apply String.eqb_neq in Hd. pose proof (ng_side _ _ _ Hn) as Hs. unfold on_side in Hs. rewrite Hd in Hs.
  eapply wp_apply_remote; [done|unfold on_side; by rewrite Hd|by destruct s..].
Qed.

Lemma wp_create_answer d w : negotiating d HaveRemoteOffer w →
  wp createAnswer (λ _ w', negotiating d HaveRemoteOffer w' ∧ (ready w → ready w')) (legal d) w.
Proof.
  intros Hn.
  eapply (wp_mono _ (λ _ w', negotiating d HaveRemoteOffer w' ∧ (ready w → ready w')) _ (negotiating d HaveRemoteOffer)); [done|by eexists|].
  eapply wp_call; try done. apply Hn.
Qed.

Lemma wp_local_answer sdp d w : negotiating d HaveRemoteOffer w → ready w →
  wp (setLocalDescription Answer sdp) (λ _ w', negotiating d Stable w' ∧ ready w') (legal d) w.
Proof.
  intros Hn Hr. eapply (wp_mono _ (λ _ w', negotiating d Stable w' ∧ (ready w → ready w')) _ (negotiating d HaveRemoteOffer)); [by intros _ w' [? ?]; auto|by eexists|].
  eapply wp_call; try done. apply on_side_stable.
Qed.

Lemma wp_offer_and_answer r d s w : negotiating d s w → d = "send" → ready w →
  wp (offer_and_answer r) (λ _ w', negotiating d Stable w' ∧ ready w') (legal d) w.
Proof.
  intros Hn Hd Hr. apply wp_bind, wp_quiet; [apply quiet_createOffer| |]; [|intros w1 E1; exists s; by eapply negotiating_core].
  intros o w1 E1. apply wp_bind. eapply wp_mono; [|done|eapply wp_local_offer; [by eapply negotiating_core|done|by eapply ready_core]].
  intros _ w2 [Hn2 Hr2]. by apply wp_remote_answer.
Qed.

Lemma wp_offer_remote d s w : negotiating d s w → d ≠ "send" → ready w →
  wp offer_remote (λ _ w', negotiating d Stable w' ∧ ready w') (legal d) w.
Proof.
  intros Hn Hd Hr. apply wp_bind. eapply wp_mono; [|done|by eapply wp_remote_offer]. intros _ w1 [Hn1 Hr1].
  apply wp_bind. eapply wp_mono; [|done|by eapply wp_create_answer]. intros o w2 [Hn2 Hr2]. apply wp_local_answer; auto.
Qed.

(** A role that is the forced one whenever the handler has it. *)
Definition announced (role : Handler X → string) : Prop :=
  ∀ h, h_forcedLocalDtlsRole h = forced → role h = default "client" forced.
Lemma announced_forced : announced forced_or_client.
Proof. by intros h <-. Qed.

(** Setting up the transport connects it, once. *)
Lemma wp_setup role o d s w : role = default "client" forced → negotiating d s w → h_transportReady (w_handler w) = false →
  wp (setupTransport role (Some o)) (λ _ w', negotiating d s w' ∧ ready w') (legal d) w.
Proof.
  intros Hrole Hn Er.
  apply wp_bind, wp_ret, wp_bind, wp_lift; [|by exists s]. intros dtls Hdtls. set (d' := js_set dtls _ _).
  assert (∃ l, dtls = JObj l) as [l ->] by (unfold extractDtlsParameters in Hdtls; bind_inv; case_match; bind_inv; by eexists).
  apply wp_bind, wp_quiet; [apply quiet_with_sdp| |]; [|intros w1 E1; exists s; by eapply negotiating_core].
  intros [] w1 E1. pose proof (negotiating_core _ _ _ _ E1 Hn) as [H1 H2 H3 H4 H5 H6 H7 H8].
  pose proof E1 as E. unfold core in E. injection E as _ _ E3 E4 _. rewrite Er in E3. rewrite E3 in H5.
  assert (∀ b, announces (default "client" forced) (Connected d' b)) as Ha.
  { intros b. cbn. rewrite <-Hrole. apply js_get_set_eq. }
  apply wp_bind, wp_logged.
  - intros [] w2 L2 W2. cbn. split; [|done].
    split; cbn -[signals]; rewrite ?L2, ?W2; try done.
    + by rewrite signals_app, H2.
    + by apply led_snoc.
    + by rewrite List.filter_app, length_app, H5.
    + apply Forall_app. split; [done|]. by constructor.
  - intros w2 L2 W2. exists s. split; rewrite ?L2, ?W2; try done.
    + by rewrite signals_app, H2.
    + by apply led_snoc.
    + by rewrite E3, List.filter_app, length_app, H5.
    + apply Forall_app. split; [done|]. by constructor.
Qed.

Lemma wp_ensure_transport role o d s w : announced role → negotiating d s w →
  wp (ensure_transport role o) (λ _ w', negotiating d s w' ∧ ready w') (legal d) w.
Proof.
  intros Hrole Hn. apply wp_bind, wp_handler. destruct (h_transportReady _) eqn:Er; [by apply wp_ret|].
  apply wp_setup; [|done|done]. apply Hrole, Hn.
Qed.

(** ** Methods *)

(** When the browser is taken to be stable by a handler that asks it. *)
Context (excuse : World → Prop).

(** What a method does: it keeps the invariant, and if it returns, the state is the
    one before or stable, or the browser has said so. *)
Definition settles {A} (d : string) (m : M A) : Prop := ∀ s w, negotiating d s w →
  wp m (λ _ w', negotiating d s w' ∨ negotiating d Stable w' ∨ legal d w' ∧ excuse w') (legal d) w.

Lemma settles_quiet {A} d (m : M A) : quiet m → settles d m.
Proof.
  intros Hq s w Hn. apply wp_quiet; [done| |]; intros; [left|exists s]; by eapply negotiating_core.
Qed.

(** A quiet prefix. *)
Lemma wp_prefix {A C} (m : M A) (f : A → M C) d s Q w : quiet m → negotiating d s w →
  (∀ a w', (m w).1 = Ok a → core w' = core w → negotiating d s w' → wp (f a) Q (legal d) w') → wp (m ≫= f) Q (legal d) w.
Proof.
  intros Hq Hn Hf. apply wp_bind. pose proof (Hq w) as E. unfold wp. destruct (m w) as [[a|e] w']; cbn in E.
  - apply Hf; [done|done|]. by eapply negotiating_core.
  - exists s. by eapply negotiating_core.
Qed.

Lemma settles_prefix {A C} d (m : M A) (f : A → M C) : quiet m → (∀ a, settles d (f a)) → settles d (m ≫= f).
Proof. intros Hq Hf s w Hn. eapply wp_prefix; [done|done|]. intros a w' _ _ Hn'. by apply Hf. Qed.

Lemma settles_ignore {A} d (m : M A) : settles d m → settles d (m ≫= λ _, mret tt).
Proof. intros Hm s w Hn. apply wp_bind. eapply wp_mono; [|done|by apply Hm]. done. Qed.

Lemma settles_guarded {A} d (m : M A) : settles d m → settles d (assertNotClosed ≫= λ _, m).
Proof. intros Hm. apply settles_prefix; [apply quiet_assertNotClosed|done]. Qed.

Lemma settles_sending {A} d (m : M A) : (d = "send" → settles d m) → settles d (assertSendDirection ≫= λ _, m).
Proof.
  intros Hm s w Hn. eapply wp_prefix; [apply quiet_assertSend|done|]. intros a w' H _ Hn'. apply Hm; [|done].
  rewrite <-(ng_direction _ _ _ Hn). cbn -[String.eqb] in H. apply throw_if_ok in H. by apply negb_false_iff, String.eqb_eq in H.
Qed.
Lemma settles_receiving {A} d (m : M A) : (d = "recv" → settles d m) → settles d (assertRecvDirection ≫= λ _, m).
Proof.
  intros Hm s w Hn. eapply wp_prefix; [apply quiet_assertRecv|done|]. intros a w' H _ Hn'. apply Hm; [|done].
  rewrite <-(ng_direction _ _ _ Hn). cbn -[String.eqb] in H. apply throw_if_ok in H. by apply negb_false_iff, String.eqb_eq in H.
Qed.

Lemma wp_then_stable {A} (m : M A) d s w : wp m (λ _ w', negotiating d Stable w' ∧ ready w') (legal d) w →
  wp m (λ _ w', negotiating d s w' ∨ negotiating d Stable w' ∨ legal d w' ∧ excuse w') (legal d) w.
Proof. apply wp_mono; [|done]. intros _ w' [? _]. by right; left. Qed.

(** A last quiet action. *)
Lemma wp_end {A} (m : M A) d s s' w : quiet m → negotiating d s' w → s' = s ∨ s' = Stable →
  wp m (λ _ w', negotiating d s w' ∨ negotiating d Stable w' ∨ legal d w' ∧ excuse w') (legal d) w.
Proof.
  intros Hq Hn Hs. apply wp_quiet; [done| |]; intros; [|exists s'; by eapply negotiating_core].
  destruct Hs as [-> | ->]; [left|right; left]; by eapply negotiating_core.
Qed.

(** Changes of what the handler keeps of its own. *)
Lemma wp_set_own f d s w (Q : unit → World → Prop) (E : World → Prop) : negotiating d s w → ready w →
  (∀ w', negotiating d s w' → ready w' → Q tt w') → wp (set_own f) Q E w.
Proof. intros [] Hr HQ. apply HQ; [by split|done]. Qed.
Lemma wp_set_own_smaller f d s w (Q : unit → World → Prop) (E : World → Prop) : negotiating d s w →
  (∀ x, in_use (f x) → in_use x) → (∀ w', negotiating d s w' → h_transportReady (w_handler w') = h_transportReady (w_handler w) → Q tt w') →
  wp (set_own f) Q E w.
Proof. intros [] Hf HQ. apply HQ; [split; try done; cbn; auto|done]. Qed.

End Negotiation.
#[export] Hint Resolve quiet_createOffer quiet_localDescription quiet_assertNotClosed quiet_assertSend quiet_assertRecv : quiet.
#[export] Hint Resolve announced_forced : quiet.

Lemma recv_not_send d : d = "recv" → d ≠ "send".
Proof. by intros ->. Qed.
#[export] Hint Resolve recv_not_send : quiet.

(** The readiness of an earlier world with the same core. *)
Ltac still_ready := first [assumption|unfold core, ready in *;
  repeat match goal with H : h_transportReady _ = true → _ |- _ => specialize (H ltac:(congruence)) end; congruence].

(** Carries what is known of the world before a quiet step over to the one after it. *)
Ltac carry := lazymatch goal with
  | Hc : core ?w' = core ?w, Hr : ready ?w |- wp _ _ _ ?w' => pose proof (ready_core _ _ Hc Hr)
  end.

(** One step of an action: a quiet one, of which [learn] tells what its result says
    of the world before it, or one of a negotiation. *)
Ltac quiet_step learn := eapply wp_prefix; [solve [eauto 3 with quiet]|by eassumption|]; intros ? ? ? ? ?; learn (); try carry.
Ltac negotiation_rule m := lazymatch m with
  | offer_and_answer _ => eapply wp_offer_and_answer; [eassumption|done|still_ready]
  | offer_remote => eapply wp_offer_remote; [eassumption|eauto with quiet|still_ready]
  | ensure_transport _ _ => eapply wp_ensure_transport; eauto with quiet
  | setLocalDescription Offer _ => eapply wp_local_offer; [eassumption|done|still_ready]
  | setLocalDescription Answer _ => eapply wp_local_answer; [eassumption|still_ready]
  | apply_remote Answer => eapply wp_remote_answer; [eassumption|still_ready]
  | apply_remote Offer => eapply wp_remote_offer; [eassumption|eauto with quiet]
  | createAnswer => eapply wp_create_answer; eassumption
  end.
Ltac negotiation_step := lazymatch goal with
  | |- wp (?m ≫= _) _ _ _ => apply wp_bind; eapply wp_mono; [|done|by negotiation_rule m]; intros ? ? [? ?]
  | |- wp ?m _ _ _ => apply wp_then_stable; by negotiation_rule m
  end.
Ltac negotiate_with learn := repeat first
  [lazymatch goal with |- wp (_ ≫= _) _ _ _ => apply wp_bind, wp_handler end|negotiation_step|quiet_step learn
  |eapply wp_end; [solve [eauto 3 with quiet]|eassumption|by auto]].
Ltac negotiate := negotiate_with ltac:(fun _ => idtac).

(** ** The methods all handlers share *)

Section Shared.
Context {X B text : Type} `{!SdpText text} `{!Browser B text}.
Abbreviation World := (World X B text).
Abbreviation M := (action World).
Context (in_use : X → Prop) (forced : option string) (excuse : World → Prop).
Abbreviation settles := (settles in_use forced excuse).
Abbreviation announced := (announced forced).

Lemma settles_restart_ice d ice : settles d (restart_ice ice).
Proof.
  intros s w Hn. negotiate. destruct (h_transportReady _) eqn:Er; [|by left].
  cbn [negb]. destruct (String.eqb _ "send") eqn:Ed; rewrite (ng_direction in_use forced d s) in Ed by done.
  - apply String.eqb_eq in Ed. negotiate.
  - apply String.eqb_neq in Ed. negotiate.
Qed.

Lemma quiet_update_ice_servers x : quiet (update_ice_servers x : M unit).
Proof. unfold update_ice_servers. quiet. Qed.
Lemma quiet_transport_stats : quiet (transport_stats : M jsval).
Proof. unfold transport_stats. quiet. Qed.
Lemma quiet_next_stream_id mis : quiet (next_stream_id mis : M unit).
Proof. done. Qed.
Hint Resolve quiet_next_stream_id : quiet.

Lemma settles_offer_sctp role : announced role → settles "send" (offer_sctp_section role).
Proof. intros Hrole s w Hn. negotiate. Qed.

(** The rest of a method after its negotiation. *)
Lemma settles_then {A C} d (m : M A) (f : A → M C) : settles d m → (∀ a, quiet (f a)) → (∀ w a, excuse w → excuse (f a w).2) →
  settles d (m ≫= f).
Proof.
  intros Hm Hf He s w Hn. apply wp_bind. eapply wp_mono; [|done|by apply Hm]. intros a w' H. unfold wp.
  pose proof (Hf a w') as E. pose proof (He w' a) as Hx. destruct (f a w') as [[c|e] w'']; cbn in E, Hx.
  - destruct H as [H|[H|[[s' H] H']]]; [left|right; left|right; right; split; [exists s'|auto]]; by eapply negotiating_core.
  - destruct H as [H|[H|[[s' H] _]]]; eexists; by eapply negotiating_core.
Qed.

Lemma settles_send_data_channel old mis role o : announced role → settles "send" (send_data_channel old mis role o).
Proof.
  intros Hrole s w Hn. apply wp_bind, wp_handler. do 3 (quiet_step ltac:(fun _ => idtac)).
  apply (settles_then "send" _ (λ _, mret _)); [|done|done|done]. intros s' w'' Hn''. case_match; [by left|]. by eapply settles_offer_sctp.
Qed.

Lemma settles_answer_sctp spec role : announced role → settles "recv" (answer_sctp_section spec role).
Proof.
  intros Hrole s w Hn. negotiate. apply wp_bind.
  eapply (wp_mono _ (λ _ w', negotiating in_use forced "recv" HaveRemoteOffer w' ∧ ready w')); [intros ? ? [? ?]; by negotiate|done|].
  destruct (h_transportReady _) eqn:Er; [by apply wp_ret|]. quiet_step ltac:(fun _ => idtac). apply wp_setup; [|done|still_ready].
  apply Hrole. by eapply ng_forced.
Qed.

Lemma settles_receive_data_channel old spec role st l p : announced role → settles "recv" (receive_data_channel old spec role st l p).
Proof.
  intros Hrole s w Hn. do 3 (quiet_step ltac:(fun _ => idtac)). apply wp_bind, wp_handler.
  apply (settles_then "recv" _ (λ _, mret _)); [|done|done|done]. intros s' w'' Hn''. case_match; [by left|]. by eapply settles_answer_sctp.
Qed.
End Shared.
#[export] Hint Resolve quiet_next_stream_id quiet_update_ice_servers quiet_transport_stats : quiet.

(** ** Runs *)

(** A batch of consumers is not empty. *)
Definition batch_ok (op : handler_op) : Prop :=
  match op with HStopReceiving ids | HPauseReceiving ids | HResumeReceiving ids => ids ≠ [] | _ => True end.

(** The role the remote side leaves to the handler. *)
Definition role_of (o : RunOptions) : option string := forced_role (js_get (ro_dtlsParameters o) "role").

Section Start.
Context {X B text : Type} `{!SdpText text} `{!Browser B text}.
Abbreviation World := (World X B text).
Abbreviation M := (action World).

Lemma wp_browse {A} (f : B → outcome A * B) (Q : A → World → Prop) (E : World → Prop) w :
  (∀ a w', w_log w' = w_log w → w_handler w' = w_handler w → Q a w') →
  (∀ w', w_log w' = w_log w → w_handler w' = w_handler w → E w') → wp (browse f) Q E w.
Proof. intros HQ HE. unfold wp, browse. destruct (f _) as [[a|m] b]; auto. Qed.
Lemma wp_set_handler f (Q : unit → World → Prop) (E : World → Prop) w : Q tt (set_handler f w).2 → wp (set_handler f) Q E w.
Proof. done. Qed.

(** What [force] does in [run]. *)
Definition forces (forced : option string) (force : M unit) : Prop := ∀ w, h_forcedLocalDtlsRole (w_handler w) = None →
  wp force (λ _ w', w' = (set_handler (with_forcedLocalDtlsRole forced) w).2) (λ _, True) w.
Lemma forces_role o : forces (role_of o) (force_role o).
Proof.
  intros w Hw. apply wp_bind, wp_lift; [|done]. intros role Hr. assert (forced_role role = role_of o) as ->.
  { unfold get_prop in Hr. destruct (is_nullish _); [done|]. by injection Hr as <-. }
  destruct (role_of o) as [r|] eqn:E; [done|]. apply wp_ret. destruct w as [[] ? ? ?]. cbn in *. by subst.
Qed.
Lemma forces_none : forces None (mret tt).
Proof. intros w Hw. apply wp_ret. destruct w as [[] ? ? ?]. cbn in *. by subst. Qed.

Lemma run_with_starts (in_use : X → Prop) own forced planB semantics force o b : ¬ in_use own → forces forced force →
  wp (run_with planB semantics force o) (λ _ w, negotiating in_use forced (ro_direction o) Stable w) (λ _, True) (new_World own b).
Proof.
  intros Hown Hf.
  apply wp_bind, wp_set_handler, wp_bind, wp_lift; [|done]. intros rs _.
  apply wp_bind, wp_set_handler, wp_bind, wp_set_handler, wp_bind, wp_lift; [|done]. intros audio _.
  apply wp_bind, wp_lift; [|done]. intros video _. apply wp_bind, wp_set_handler, wp_bind.
  eapply wp_mono; [|done|by apply Hf]. intros _ w ->. apply wp_bind, wp_browse; [|done]. intros p w1 L1 H1.
  apply wp_bind, wp_set_handler, wp_bind, wp_read, wp_set_handler.
  cbn in L1, H1; split; cbn; rewrite ?L1, ?H1; try done; try apply on_side_stable; by intros [].
Qed.
End Start.

(** The interface: a handler that starts from [own] keeps the invariant in all its
    methods.  [role] is the role it takes, [excuse] as for [settles]. *)
Class Negotiator {X B text : Type} `{!SdpText text} `{!Browser B text} (m : Methods (World X B text)) (own : X)
    (in_use : X → Prop) (role : RunOptions → option string) (excuse : World X B text → Prop) : Prop := {
  nt_starts o b : wp (m_run _ m o) (λ _ w, negotiating in_use (role o) (ro_direction o) Stable w) (λ _, True) (new_World own b);
  nt_settles o d op : batch_ok op → settles in_use (role o) excuse d (do_op m op);
}.

Section Runs.
Context {X B text : Type} `{!SdpText text} `{!Browser B text} (m : Methods (World X B text)).
Context {own in_use role excuse} `{!Negotiator m own in_use role excuse}.
Abbreviation started o b := (m_run _ m o (new_World own b)).

Lemma after_ops_legal o b ops : (started o b).1 = Ok tt → Forall batch_ok ops →
  legal in_use (role o) (ro_direction o) (after_ops m ops (started o b).2).
Proof.
  intros Hrun. assert (legal in_use (role o) (ro_direction o) (started o b).2) as H0.
  { pose proof (nt_starts o b) as H. unfold wp in H. destruct (started o b) as [[[]|] w]; [|done]. by exists Stable. }
  generalize dependent (started o b).2. clear Hrun.
  induction ops as [|op ops IH]; intros w [s Hs] Hb; [by exists s|]. apply Forall_cons in Hb as [Hb1 Hb]. cbn.
  apply IH; [|done]. pose proof (nt_settles o _ op Hb1 s w Hs) as H.
  unfold wp in H. destruct (do_op m op w) as [[[]|e] w']; [|done]. destruct H as [H|[H|[H _]]]; [by eexists|by eexists|done].
Qed.

Lemma runs_legal o b ops : (started o b).1 = Ok tt → Forall batch_ok ops →
  let w := after_ops m ops (started o b).2 in
  (∃ s, signals Stable (w_log w) = Some s ∧ on_side (ro_direction o) s) ∧
  (∀ op w', batch_ok op → do_op m op w = (Ok tt, w') → signals Stable (w_log w) = Some Stable →
     signals Stable (w_log w') = Some Stable ∨ excuse w').
Proof.
  intros Hrun Hb w. destruct (after_ops_legal o b ops Hrun Hb) as [s Hs]. fold w in Hs. split.
  - exists s. by destruct Hs.
  - intros op w' Hop Hdo Hst. pose proof (nt_settles o _ op Hop s w Hs) as H.
    unfold wp in H. rewrite Hdo in H. rewrite (ng_signals _ _ _ _ _ Hs) in Hst. injection Hst as ->.
    destruct H as [[]|[[]|[_ ?]]]; auto.
Qed.

Lemma runs_connected_once o b ops : (started o b).1 = Ok tt → Forall batch_ok ops →
  let w := after_ops m ops (started o b).2 in
  length (List.filter is_connected (w_log w)) = (if h_transportReady (w_handler w) then 1%nat else 0%nat) ∧
  (∀ l1 e l2, w_log w = l1 ++ e :: l2 → is_local e = true → existsb is_connected l1 = true) ∧
  Forall (announces (default "client" (role o))) (w_log w).
Proof. intros Hrun Hb w. destruct (after_ops_legal o b ops Hrun Hb) as [s []]. by split_and!. Qed.
End Runs.
