(* ===== verification/Chrome74.v ===== *)
(** * The handler of Chrome 74 (src/client/lib/handlers/Chrome74.js)

    As [Chrome111], except that [run] has no guard, the application is not told of
    senders and receivers, and VP9 with SVC is announced as legacy simulcast. *)

From Stdlib Require Import QArith.
From stdpp Require Import gmap.
From S2P Require Import Prelude JsNum JsVal JsConv JsString ScalabilityModes OrtcValidate Ortc SdpUtils RemoteSdp.
From S2P Require Import Browser HandlerBase Chrome111.
Local Open Scope string_scope.
Local Open Scope list_scope.
Local Open Scope Z_scope.

(** The encodings of the parameters: as in [sending_encodings], but only one of them
    in the special case. *)
Definition svc_encodings (hackVp9Svc : bool) (encodings : option (list jsval)) (offerMediaObject : jsval) : outcome (list jsval) :=
  encs ← sending_encodings encodings offerMediaObject;
  Ok (keep_first hackVp9Svc encs).

Section Chrome74.
Context {B text : Type} `{!SdpText text} `{!Browser B text}.
(** The h264-profile-level-id package. *)
Context (isSameProfile : jsval → jsval → bool) (generateProfileLevelIdStringForAnswer : jsval → jsval → outcome jsval).
Abbreviation reduced := (reduced_parameters isSameProfile generateProfileLevelIdStringForAnswer).
Abbreviation M := (action (World Transceivers B text)).

Definition close : M unit := Chrome111.close.

Definition getNativeRtpCapabilities : M jsval := Chrome111.getNativeRtpCapabilities.

Definition getNativeSctpCapabilities : M jsval := Chrome111.getNativeSctpCapabilities.

Definition run (o : RunOptions) : M unit := run_with false (Some "unified-plan") (force_role o) o.

Definition updateIceServers (iceServers : jsval) : M unit := Chrome111.updateIceServers iceServers.

Definition restartIce (iceParameters : jsval) : M unit := Chrome111.restartIce iceParameters.

Definition getTransportStats : M jsval := Chrome111.getTransportStats.

Definition send (o : SendOptions) : M (option string * jsval * option nat) :=
  _ ← assertNotClosed;
  _ ← assertSendDirection;
  let encodings := simulcast_rids <$> sn_encodings o in
  h ← handler;
  sendingRtpParameters ← lift (reduced (h_sendingRtpParametersByKind h) (sn_kind o) (sn_codec o));
  sendingRemoteRtpParameters ← lift (reduced (h_sendingRemoteRtpParametersByKind h) (sn_kind o) (sn_codec o));
  mediaSectionIdx ← with_sdp (λ rs, Ok (rs, getNextMediaSectionIdx rs));
  p ← pc;
  transceiver ← browse (pc_addTransceiver p (OfTrack (sn_track o)) (Some "sendonly") (from_option JArr JUndef encodings));
  offer ← createOffer false;
  localSdpObject ← lift (sdp_parse offer);
  _ ← ensure_transport forced_or_client localSdpObject;
  layers ← lift (first_layers encodings);
  hackVp9Svc ← lift (vp9_svc encodings layers sendingRtpParameters);
  offer ← lift (if (hackVp9Svc : bool) then legacy_offer offer mediaSectionIdx.1 (Z.to_nat (spatialLayers layers)) else Ok offer);
  _ ← setLocalDescription Offer offer;
  localId ← read (transceiver_mid transceiver);
  let sendingRtpParameters := js_set sendingRtpParameters "mid" (js_mid localId) in
  localSdpObject ← localDescription;
  offerMediaObject ← lift (media_at localSdpObject mediaSectionIdx.1);
  sendingRtpParameters ← lift (set_cname sendingRtpParameters offerMediaObject);
  encs ← lift (svc_encodings hackVp9Svc encodings offerMediaObject);
  encs ← lift (set_modes (with_layers layers) sendingRtpParameters encs);
  let sendingRtpParameters := js_set sendingRtpParameters "encodings" (JArr encs) in
  sendingRtpParameters ← with_sdp (RemoteSdp.send offerMediaObject mediaSectionIdx.2 sendingRtpParameters
                            sendingRemoteRtpParameters (sn_codecOptions o) true);
  _ ← apply_remote Answer;
  _ ← store localId transceiver;
  mret (localId, sendingRtpParameters, Some transceiver).

Definition stopSending (localId : string) : M unit := Chrome111.stopSending localId.

Definition pauseSending (localId : string) : M unit := Chrome111.pauseSending localId.

Definition resumeSending (localId : string) : M unit := Chrome111.resumeSending localId.

Definition replaceTrack (localId : string) (track : option nat) : M unit := Chrome111.replaceTrack localId track.

Definition setMaxSpatialLayer (localId : string) (spatialLayer : num) : M unit := Chrome111.setMaxSpatialLayer localId spatialLayer.

Definition setRtpEncodingParameters (localId : string) (params : jsval) : M unit := Chrome111.setRtpEncodingParameters localId params.

Definition getSenderStats (localId : string) : M jsval := Chrome111.getSenderStats localId.

Definition sendDataChannel (o : DataChannelOptions) : M (nat * jsval) := Chrome111.sendDataChannel o.

Definition receive (optionsList : list ReceiveOptions) : M (list (option string * nat * option nat)) :=
  _ ← assertNotClosed;
  _ ← assertRecvDirection;
  receive_batch forced_or_client (λ _, mret tt) (λ _, sdp_write) optionsList.

Definition stopReceiving (localIds : list string) : M unit := Chrome111.stopReceiving localIds.

Definition pauseReceiving (localIds : list string) : M unit := Chrome111.pauseReceiving localIds.

Definition resumeReceiving (localIds : list string) : M unit := Chrome111.resumeReceiving localIds.

Definition getReceiverStats (localId : string) : M jsval := Chrome111.getReceiverStats localId.

Definition receiveDataChannel (sctpStreamParameters label protocol : jsval) : M nat := Chrome111.receiveDataChannel sctpStreamParameters label protocol.

(** The factory of the handler. *)
Definition createFactory : Methods (World Transceivers B text) :=
  {| m_close := close; m_getNativeRtpCapabilities := getNativeRtpCapabilities;
     m_getNativeSctpCapabilities := getNativeSctpCapabilities; m_run := run; m_updateIceServers := updateIceServers;
     m_restartIce := restartIce; m_getTransportStats := getTransportStats; m_send := send; m_stopSending := stopSending;
     m_pauseSending := pauseSending; m_resumeSending := resumeSending; m_replaceTrack := replaceTrack;
     m_setMaxSpatialLayer := setMaxSpatialLayer; m_setRtpEncodingParameters := setRtpEncodingParameters;
     m_getSenderStats := getSenderStats; m_sendDataChannel := sendDataChannel; m_receive := receive;
     m_stopReceiving := stopReceiving; m_pauseReceiving := pauseReceiving; m_resumeReceiving := resumeReceiving;
     m_getReceiverStats := getReceiverStats; m_receiveDataChannel := receiveDataChannel |}.
End Chrome74.
