(* ===== verification/ReactNativeUnifiedPlan.v ===== *)
(** * The handler of React Native with unified plan
    (src/client/lib/handlers/ReactNativeUnifiedPlan.js)

    As [Chrome74] with the callbacks of [Chrome111].  The identifier of a transceiver
    may be missing until the answer is applied, and closing releases the stream the
    handler has made for sending. *)

From Stdlib Require Import QArith.
From stdpp Require Import gmap.
From S2P Require Import Prelude JsNum JsVal JsConv JsString ScalabilityModes OrtcValidate Ortc SdpUtils RemoteSdp.
From S2P Require Import Browser HandlerBase Chrome111 Chrome74.
Local Open Scope string_scope.
Local Open Scope list_scope.
Local Open Scope Z_scope.

Section ReactNativeUnifiedPlan.
Context {B text : Type} `{!SdpText text} `{!Browser B text} `{!ReactNativeBrowser B}.
(** The h264-profile-level-id package. *)
Context (isSameProfile : jsval → jsval → bool) (generateProfileLevelIdStringForAnswer : jsval → jsval → outcome jsval).
Abbreviation reduced := (reduced_parameters isSameProfile generateProfileLevelIdStringForAnswer).
Abbreviation M := (action (World Transceivers B text)).

Definition close : M unit :=
  h ← handler;
  if h_closed h then mret tt
  else
    _ ← set_handler (with_closed true);
    _ ← browse sendStream_release;
    _ ← close_pc;
    emit "@close" JUndef.

Definition getNativeRtpCapabilities : M jsval := Chrome111.getNativeRtpCapabilities.

Definition getNativeSctpCapabilities : M jsval := Chrome111.getNativeSctpCapabilities.

Definition run (o : RunOptions) : M unit := Chrome111.run o.

Definition updateIceServers (iceServers : jsval) : M unit := Chrome111.updateIceServers iceServers.

Definition restartIce (iceParameters : jsval) : M unit := Chrome111.restartIce iceParameters.

Definition getTransportStats : M jsval := Chrome111.getTransportStats.

Definition send (o : SendOptions) : M (option string * jsval * option nat) :=
  _ ← assertNotClosed;
  _ ← assertSendDirection;
  let encodings := simulcast_rids <$> sn_encodings o in
  h ← handler;
  sendingRtpParameters ← lift (reduced (h_sendingRtpParametersByKind h) (sn_kind o) (sn_codec o));
  sendingRemoteRtpParameters ← lift (reduced (h_sendingRemoteRtpParametersByKind h) (sn_kind o) (sn_codec o));
  mediaSectionIdx ← with_sdp (λ rs, Ok (rs, getNextMediaSectionIdx rs));
  p ← pc;
  transceiver ← browse (pc_addTransceiver p (OfTrack (sn_track o)) (Some "sendonly") (from_option JArr JUndef encodings));
  _ ← (if sn_onRtpSender o then browse (call_onRtpSender transceiver) else mret tt);
  offer ← createOffer false;
  localSdpObject ← lift (sdp_parse offer);
  _ ← ensure_transport forced_or_client localSdpObject;
  layers ← lift (first_layers encodings);
  hackVp9Svc ← lift (vp9_svc encodings layers sendingRtpParameters);
  offer ← lift (if (hackVp9Svc : bool) then legacy_offer offer mediaSectionIdx.1 (Z.to_nat (spatialLayers layers)) else Ok offer);
  _ ← setLocalDescription Offer offer;
  localId ← read (transceiver_mid transceiver);
  let sendingRtpParameters := js_set sendingRtpParameters "mid" (from_option JStr JUndef localId) in
  localSdpObject ← localDescription;
  offerMediaObject ← lift (media_at localSdpObject mediaSectionIdx.1);
  sendingRtpParameters ← lift (set_cname sendingRtpParameters offerMediaObject);
  encs ← lift (svc_encodings hackVp9Svc encodings offerMediaObject);
  encs ← lift (set_modes (with_layers layers) sendingRtpParameters encs);
  let sendingRtpParameters := js_set sendingRtpParameters "encodings" (JArr encs) in
  sendingRtpParameters ← with_sdp (RemoteSdp.send offerMediaObject mediaSectionIdx.2 sendingRtpParameters
                            sendingRemoteRtpParameters (sn_codecOptions o) true);
  _ ← apply_remote Answer;
  later ← read (transceiver_mid transceiver);
  let unset := negb (truthy (from_option JStr JUndef localId)) in
  let localId := if unset then later else localId in
  let sendingRtpParameters := if unset then js_set sendingRtpParameters "mid" (js_mid later) else sendingRtpParameters in
  _ ← store localId transceiver;
  mret (localId, sendingRtpParameters, Some transceiver).

Definition stopSending (localId : string) : M unit := Chrome111.stopSending localId.

Definition pauseSending (localId : string) : M unit := Chrome111.pauseSending localId.

Definition resumeSending (localId : string) : M unit := Chrome111.resumeSending localId.

Definition replaceTrack (localId : string) (track : option nat) : M unit := Chrome111.replaceTrack localId track.

Definition setMaxSpatialLayer (localId : string) (spatialLayer : num) : M unit := Chrome111.setMaxSpatialLayer localId spatialLayer.

Definition setRtpEncodingParameters (localId : string) (params : jsval) : M unit := Chrome111.setRtpEncodingParameters localId params.

Definition getSenderStats (localId : string) : M jsval := Chrome111.getSenderStats localId.

Definition sendDataChannel (o : DataChannelOptions) : M (nat * jsval) := Chrome111.sendDataChannel o.

Definition receive (optionsList : list ReceiveOptions) : M (list (option string * nat * option nat)) := Chrome111.receive optionsList.

Definition stopReceiving (localIds : list string) : M unit := Chrome111.stopReceiving localIds.

Definition pauseReceiving (localIds : list string) : M unit := Chrome111.pauseReceiving localIds.

Definition resumeReceiving (localIds : list string) : M unit := Chrome111.resumeReceiving localIds.

Definition getReceiverStats (localId : string) : M jsval := Chrome111.getReceiverStats localId.

Definition receiveDataChannel (sctpStreamParameters label protocol : jsval) : M nat := Chrome111.receiveDataChannel sctpStreamParameters label protocol.

(** The factory of the handler. *)
Definition createFactory : Methods (World Transceivers B text) :=
  {| m_close := close; m_getNativeRtpCapabilities := getNativeRtpCapabilities;
     m_getNativeSctpCapabilities := getNativeSctpCapabilities; m_run := run; m_updateIceServers := updateIceServers;
     m_restartIce := restartIce; m_getTransportStats := getTransportStats; m_send := send; m_stopSending := stopSending;
     m_pauseSending := pauseSending; m_resumeSending := resumeSending; m_replaceTrack := replaceTrack;
     m_setMaxSpatialLayer := setMaxSpatialLayer; m_setRtpEncodingParameters := setRtpEncodingParameters;
     m_getSenderStats := getSenderStats; m_sendDataChannel := sendDataChannel; m_receive := receive;
     m_stopReceiving := stopReceiving; m_pauseReceiving := pauseReceiving; m_resumeReceiving := resumeReceiving;
     m_getReceiverStats := getReceiverStats; m_receiveDataChannel := receiveDataChannel |}.
End ReactNativeUnifiedPlan.
