(* ===== verification/Chrome70.v ===== *)
(** * The handler of Chrome 70 (src/client/lib/handlers/Chrome70.js)

    As [Chrome111] without its closed flag.  Simulcast and VP9 with SVC are announced by
    legacy lines in the offer, the encodings are set on the sender once the offer is
    applied, and pausing is not implemented. *)

From Stdlib Require Import QArith.
From stdpp Require Import gmap.
From S2P Require Import Prelude JsNum JsVal JsConv JsString ScalabilityModes OrtcValidate Ortc SdpUtils RemoteSdp.
From S2P Require Import Browser HandlerBase Chrome111.
Local Open Scope string_scope.
Local Open Scope list_scope.
Local Open Scope Z_scope.

Section Chrome70.
Context {B text : Type} `{!SdpText text} `{!Browser B text}.
(** The h264-profile-level-id package. *)
Context (isSameProfile : jsval → jsval → bool) (generateProfileLevelIdStringForAnswer : jsval → jsval → outcome jsval).
Abbreviation reduced := (reduced_parameters isSameProfile generateProfileLevelIdStringForAnswer).
Abbreviation M := (action (World Transceivers B text)).

(** The encodings of the sender, each with the values given for it. *)
Fixpoint desired_encodings (encodings given : list jsval) : list jsval :=
  match encodings, given with
  | e :: encodings, g :: given => if truthy g then js_assign e g :: desired_encodings encodings given else e :: encodings
  | _, _ => encodings
  end.

Definition apply_encodings (transceiver : nat) (given : list jsval) : M unit :=
  parameters ← browse (sender_getParameters transceiver);
  encodings ← lift (list_or_empty (js_get parameters "encodings"));
  browse (sender_setParameters transceiver
    (if is_nullish (js_get parameters "encodings") then parameters
     else js_set parameters "encodings" (JArr (desired_encodings encodings given)))).

Definition close : M unit := _ ← close_pc; emit "@close" JUndef.

Definition getNativeRtpCapabilities : M jsval :=
  native_capabilities (Some "unified-plan") (mret tt) (λ _, offer_audio_video) (λ _, mret tt) Ok.

Definition getNativeSctpCapabilities : M jsval := Chrome111.getNativeSctpCapabilities.

Definition run (o : RunOptions) : M unit := run_with false (Some "unified-plan") (force_role o) o.

Definition updateIceServers (iceServers : jsval) : M unit := update_ice_servers iceServers.

Definition restartIce (iceParameters : jsval) : M unit := restart_ice iceParameters.

Definition getTransportStats : M jsval := transport_stats.

Definition send (o : SendOptions) : M (option string * jsval * option nat) :=
  _ ← assertSendDirection;
  h ← handler;
  sendingRtpParameters ← lift (reduced (h_sendingRtpParametersByKind h) (sn_kind o) (sn_codec o));
  sendingRemoteRtpParameters ← lift (reduced (h_sendingRemoteRtpParametersByKind h) (sn_kind o) (sn_codec o));
  mediaSectionIdx ← with_sdp (λ rs, Ok (rs, getNextMediaSectionIdx rs));
  p ← pc;
  transceiver ← browse (pc_addTransceiver p (OfTrack (sn_track o)) (Some "sendonly") JUndef);
  offer ← createOffer false;
  localSdpObject ← lift (sdp_parse offer);
  _ ← ensure_transport forced_or_client localSdpObject;
  offer ← lift match sn_encodings o with
               | Some encodings => if (1 <? length encodings)%nat then legacy_offer offer mediaSectionIdx.1 (length encodings) else Ok offer
               | None => Ok offer
               end;
  layers ← lift (first_layers (sn_encodings o));
  hackVp9Svc ← lift (vp9_svc (sn_encodings o) layers sendingRtpParameters);
  offer ← lift (if (hackVp9Svc : bool) then legacy_offer offer mediaSectionIdx.1 (Z.to_nat (spatialLayers layers)) else Ok offer);
  _ ← setLocalDescription Offer offer;
  _ ← match sn_encodings o with Some encodings => apply_encodings transceiver encodings | None => mret tt end;
  localId ← read (transceiver_mid transceiver);
  let sendingRtpParameters := js_set sendingRtpParameters "mid" (js_mid localId) in
  localSdpObject ← localDescription;
  offerMediaObject ← lift (media_at localSdpObject mediaSectionIdx.1);
  sendingRtpParameters ← lift (set_cname sendingRtpParameters offerMediaObject);
  encs ← lift (UnifiedPlan.getRtpEncodings offerMediaObject);
  let encs := from_option (complete_encodings encs) encs (sn_encodings o) in
  let encs := keep_first hackVp9Svc encs in
  encs ← lift (set_modes with_L1T3 sendingRtpParameters encs);
  let sendingRtpParameters := js_set sendingRtpParameters "encodings" (JArr encs) in
  sendingRtpParameters ← with_sdp (RemoteSdp.send offerMediaObject mediaSectionIdx.2 sendingRtpParameters
                            sendingRemoteRtpParameters (sn_codecOptions o) false);
  _ ← apply_remote Answer;
  _ ← store localId transceiver;
  mret (localId, sendingRtpParameters, Some transceiver).

Definition stopSending (localId : string) : M unit :=
  _ ← assertSendDirection;
  stop_sending localId.

Definition pauseSending (localId : string) : M unit := mret tt.

Definition resumeSending (localId : string) : M unit := mret tt.

Definition replaceTrack (localId : string) (track : option nat) : M unit := replace_track localId track.

Definition setMaxSpatialLayer (localId : string) (spatialLayer : num) : M unit :=
  change_encodings "associated RTCRtpTransceiver not found" localId (activate spatialLayer).

Definition setRtpEncodingParameters (localId : string) (params : jsval) : M unit :=
  change_encodings "associated RTCRtpTransceiver not found" localId (override params).

Definition getSenderStats (localId : string) : M jsval := sender_stats localId.

Definition sendDataChannel (o : DataChannelOptions) : M (nat * jsval) :=
  _ ← assertSendDirection;
  send_data_channel true SCTP_NUM_STREAMS_MIS forced_or_client o.

Definition receive (optionsList : list ReceiveOptions) : M (list (option string * nat * option nat)) :=
  _ ← assertRecvDirection;
  receive_batch forced_or_client (λ _, mret tt) (λ _, sdp_write) optionsList.

Definition stopReceiving (localIds : list string) : M unit :=
  _ ← assertRecvDirection;
  stop_receiving localIds.

Definition pauseReceiving (localIds : list string) : M unit := mret tt.

Definition resumeReceiving (localIds : list string) : M unit := mret tt.

Definition getReceiverStats (localId : string) : M jsval := receiver_stats localId.

Definition receiveDataChannel (sctpStreamParameters label protocol : jsval) : M nat :=
  _ ← assertRecvDirection;
  receive_data_channel true false forced_or_client sctpStreamParameters label protocol.

(** The factory of the handler. *)
Definition createFactory : Methods (World Transceivers B text) :=
  {| m_close := close; m_getNativeRtpCapabilities := getNativeRtpCapabilities;
     m_getNativeSctpCapabilities := getNativeSctpCapabilities; m_run := run; m_updateIceServers := updateIceServers;
     m_restartIce := restartIce; m_getTransportStats := getTransportStats; m_send := send; m_stopSending := stopSending;
     m_pauseSending := pauseSending; m_resumeSending := resumeSending; m_replaceTrack := replaceTrack;
     m_setMaxSpatialLayer := setMaxSpatialLayer; m_setRtpEncodingParameters := setRtpEncodingParameters;
     m_getSenderStats := getSenderStats; m_sendDataChannel := sendDataChannel; m_receive := receive;
     m_stopReceiving := stopReceiving; m_pauseReceiving := pauseReceiving; m_resumeReceiving := resumeReceiving;
     m_getReceiverStats := getReceiverStats; m_receiveDataChannel := receiveDataChannel |}.
End Chrome70.
