(* ===== verification/Firefox120.v ===== *)
(** * The handler of Firefox (src/client/lib/handlers/Firefox120.js)

    As [Chrome111] with differences: the local role is always client, sections are
    disabled instead of closed and never used again, so that the section of a new
    transceiver is the last one, and the capabilities are read from an offer with a
    real track, which a canvas provides. *)

From Stdlib Require Import QArith.
From stdpp Require Import gmap.
From S2P Require Import Prelude JsNum JsVal JsConv JsString ScalabilityModes OrtcValidate Ortc SdpUtils RemoteSdp.
From S2P Require Import Browser HandlerBase Chrome111 Safari12.
Local Open Scope string_scope.
Local Open Scope list_scope.
Local Open Scope Z_scope.

Definition SCTP_NUM_STREAMS_OS : Z := 16.
Definition SCTP_NUM_STREAMS_MIS : Z := 2048.

(** [localSdpObject.media[localSdpObject.media.length - 1]] as [getCname] reads it. *)
Definition media_last (sdpObject : jsval) : outcome jsval :=
  media ← iterate (js_get sdpObject "media");
  _ ← throw_if (is_nullish (default JUndef (last media))) "Cannot read properties of undefined";
  Ok (default JUndef (last media)).

Section Firefox120.
Context {B text : Type} `{!SdpText text} `{!Browser B text} `{!FirefoxBrowser B}.
(** The h264-profile-level-id package. *)
Context (isSameProfile : jsval → jsval → bool) (generateProfileLevelIdStringForAnswer : jsval → jsval → outcome jsval).
Abbreviation reduced := (reduced_parameters isSameProfile generateProfileLevelIdStringForAnswer).
Abbreviation M := (action (World Transceivers B text)).

(** What the canvas has been made for. *)
Definition tidy_canvas (c : nat * nat) : M unit :=
  _ ← attempt (browse (canvas_remove c.1));
  attempt (browse (track_stop c.2)).

Definition fake_encodings : list jsval :=
  [JObj [("rid", JStr "r0"); ("maxBitrate", js_int 100000)]; JObj [("rid", JStr "r1"); ("maxBitrate", js_int 500000)]].

(** The section is disabled and not closed, so that it is not used again. *)
Definition disable_section (mid : option string) : M unit :=
  match mid with
  | Some mid => on_sdp (disableMediaSection mid)
  | None => lift (Throw "no media section found with mid 'null'")
  end.

(** The answer is written anew for each consumer. *)
Definition write_answer (optionsList : list ReceiveOptions) (answer : text) (localSdpObject : jsval) : text :=
  match optionsList with [] => answer | _ => sdp_write localSdpObject end.

Definition close : M unit := Chrome111.close.

Definition getNativeRtpCapabilities : M jsval :=
  native_capabilities None (browse new_canvas)
    (λ c p, _ ← browse (pc_addTransceiver p (OfKind "audio") (Some "sendrecv") JUndef);
            _ ← browse (pc_addTransceiver p (OfTrack c.2) (Some "sendrecv") (JArr fake_encodings));
            browse (pc_createOffer p false))
    tidy_canvas Ok.

Definition getNativeSctpCapabilities : M jsval := sctp_capabilities SCTP_NUM_STREAMS_OS SCTP_NUM_STREAMS_MIS.

Definition run (o : RunOptions) : M unit := guarded (run_with false None (mret tt) o).

Definition updateIceServers (iceServers : jsval) : M unit :=
  _ ← assertNotClosed;
  lift (Throw "not supported").

Definition restartIce (iceParameters : jsval) : M unit := Chrome111.restartIce iceParameters.

Definition getTransportStats : M jsval := Chrome111.getTransportStats.

Definition send (o : SendOptions) : M (option string * jsval * option nat) :=
  _ ← assertNotClosed;
  _ ← assertSendDirection;
  let encodings := simulcast_rids <$> sn_encodings o in
  h ← handler;
  sendingRtpParameters ← lift (reduced (h_sendingRtpParametersByKind h) (sn_kind o) (sn_codec o));
  sendingRemoteRtpParameters ← lift (reduced (h_sendingRemoteRtpParametersByKind h) (sn_kind o) (sn_codec o));
  p ← pc;
  transceiver ← browse (pc_addTransceiver p (OfTrack (sn_track o)) (Some "sendonly") (from_option JArr JUndef encodings));
  _ ← (if sn_onRtpSender o then browse (call_onRtpSender transceiver) else mret tt);
  offer ← createOffer false;
  localSdpObject ← lift (sdp_parse offer);
  _ ← ensure_transport always_client localSdpObject;
  layers ← lift (first_layers encodings);
  _ ← setLocalDescription Offer offer;
  localId ← read (transceiver_mid transceiver);
  let sendingRtpParameters := js_set sendingRtpParameters "mid" (js_mid localId) in
  localSdpObject ← localDescription;
  offerMediaObject ← lift (media_last localSdpObject);
  sendingRtpParameters ← lift (set_cname sendingRtpParameters offerMediaObject);
  encs ← lift (sending_encodings encodings offerMediaObject);
  encs ← lift (set_modes (with_layers layers) sendingRtpParameters encs);
  let sendingRtpParameters := js_set sendingRtpParameters "encodings" (JArr encs) in
  sendingRtpParameters ← with_sdp (RemoteSdp.send offerMediaObject None sendingRtpParameters
                            sendingRemoteRtpParameters (sn_codecOptions o) true);
  _ ← apply_remote Answer;
  _ ← store localId transceiver;
  mret (localId, sendingRtpParameters, Some transceiver).

Definition stopSending (localId : string) : M unit :=
  _ ← assertSendDirection;
  h ← handler;
  if h_closed h then mret tt
  else
    transceiver ← transceiver_or "associated transceiver not found" localId;
    _ ← attempt (browse (sender_replaceTrack transceiver None));
    p ← pc;
    _ ← browse (pc_removeTrack p transceiver);
    mid ← read (transceiver_mid transceiver);
    _ ← disable_section mid;
    _ ← offer_and_answer false;
    forget localId.

Definition pauseSending (localId : string) : M unit := Chrome111.pauseSending localId.

Definition resumeSending (localId : string) : M unit := Safari12.resumeSending localId.

Definition replaceTrack (localId : string) (track : option nat) : M unit := Chrome111.replaceTrack localId track.

Definition setMaxSpatialLayer (localId : string) (spatialLayer : num) : M unit :=
  guarded (change_encodings "associated transceiver not found" localId (activate spatialLayer)).

Definition setRtpEncodingParameters (localId : string) (params : jsval) : M unit := Chrome111.setRtpEncodingParameters localId params.

Definition getSenderStats (localId : string) : M jsval := Chrome111.getSenderStats localId.

Definition sendDataChannel (o : DataChannelOptions) : M (nat * jsval) :=
  _ ← assertNotClosed;
  _ ← assertSendDirection;
  send_data_channel false SCTP_NUM_STREAMS_MIS always_client o.

Definition receive (optionsList : list ReceiveOptions) : M (list (option string * nat * option nat)) :=
  _ ← assertNotClosed;
  _ ← assertRecvDirection;
  receive_batch always_client (tell_receivers optionsList) (write_answer optionsList) optionsList.

Definition stopReceiving (localIds : list string) : M unit := Chrome111.stopReceiving localIds.

Definition pauseReceiving (localIds : list string) : M unit := Chrome111.pauseReceiving localIds.

Definition resumeReceiving (localIds : list string) : M unit := Chrome111.resumeReceiving localIds.

Definition getReceiverStats (localId : string) : M jsval := receiver_stats localId.

Definition receiveDataChannel (sctpStreamParameters label protocol : jsval) : M nat :=
  _ ← assertNotClosed;
  _ ← assertRecvDirection;
  receive_data_channel false false always_client sctpStreamParameters label protocol.

(** The factory of the handler. *)
Definition createFactory : Methods (World Transceivers B text) :=
  {| m_close := close; m_getNativeRtpCapabilities := getNativeRtpCapabilities;
     m_getNativeSctpCapabilities := getNativeSctpCapabilities; m_run := run; m_updateIceServers := updateIceServers;
     m_restartIce := restartIce; m_getTransportStats := getTransportStats; m_send := send; m_stopSending := stopSending;
     m_pauseSending := pauseSending; m_resumeSending := resumeSending; m_replaceTrack := replaceTrack;
     m_setMaxSpatialLayer := setMaxSpatialLayer; m_setRtpEncodingParameters := setRtpEncodingParameters;
     m_getSenderStats := getSenderStats; m_sendDataChannel := sendDataChannel; m_receive := receive;
     m_stopReceiving := stopReceiving; m_pauseReceiving := pauseReceiving; m_resumeReceiving := resumeReceiving;
     m_getReceiverStats := getReceiverStats; m_receiveDataChannel := receiveDataChannel |}.
End Firefox120.
