(* ===== verification/Firefox60.v ===== *)
(** * The handler of older Firefox (src/client/lib/handlers/Firefox60.js)

    As [Firefox120], except that the encodings are set on the sender and in reverse
    order, and the application is not told of senders and receivers. *)

From Stdlib Require Import QArith.
From stdpp Require Import gmap.
From S2P Require Import Prelude JsNum JsVal JsConv JsString ScalabilityModes OrtcValidate Ortc SdpUtils RemoteSdp.
From S2P Require Import Browser HandlerBase Chrome111 Safari12 Firefox120.
Local Open Scope string_scope.
Local Open Scope list_scope.
Local Open Scope Z_scope.

(** The encodings of the parameters: as in [sending_encodings], with several reversed
    back. *)
Definition sending_encodings_reversed (encodings : option (list jsval)) (offerMediaObject : jsval) : outcome (list jsval) :=
  match encodings with
  | None | Some [_] => sending_encodings encodings offerMediaObject
  | Some encodings => Ok (reverse encodings)
  end.

(** [spatialLayer = parameters.encodings.length - 1 - spatialLayer]. *)
Definition activate_reversed (spatialLayer : num) (encodings : list jsval) : list jsval :=
  let spatialLayer := num_sub (num_of_Z (Z.of_nat (length encodings) - 1)) spatialLayer in
  imap (λ idx encoding, js_set encoding "active" (JBool (num_leb spatialLayer (num_of_Z (Z.of_nat idx))))) encodings.

Section Firefox60.
Context {B text : Type} `{!SdpText text} `{!Browser B text} `{!FirefoxBrowser B}.
(** The h264-profile-level-id package. *)
Context (isSameProfile : jsval → jsval → bool) (generateProfileLevelIdStringForAnswer : jsval → jsval → outcome jsval).
Abbreviation reduced := (reduced_parameters isSameProfile generateProfileLevelIdStringForAnswer).
Abbreviation M := (action (World Transceivers B text)).

Definition give_encodings (transceiver : nat) (encodings : list jsval) : M unit :=
  parameters ← browse (sender_getParameters transceiver);
  browse (sender_setParameters transceiver (js_set parameters "encodings" (JArr encodings))).

Definition close : M unit := Firefox120.close.

Definition getNativeRtpCapabilities : M jsval :=
  native_capabilities None (browse new_canvas)
    (λ c p, _ ← browse (pc_addTransceiver p (OfKind "audio") (Some "sendrecv") JUndef);
            videoTransceiver ← browse (pc_addTransceiver p (OfTrack c.2) (Some "sendrecv") JUndef);
            parameters ← browse (sender_getParameters videoTransceiver);
            _ ← browse (sender_setParameters videoTransceiver (js_set parameters "encodings" (JArr fake_encodings)));
            browse (pc_createOffer p false))
    tidy_canvas Ok.

Definition getNativeSctpCapabilities : M jsval := Firefox120.getNativeSctpCapabilities.

Definition run (o : RunOptions) : M unit := Firefox120.run o.

Definition updateIceServers (iceServers : jsval) : M unit := Firefox120.updateIceServers iceServers.

Definition restartIce (iceParameters : jsval) : M unit := Firefox120.restartIce iceParameters.

Definition getTransportStats : M jsval := Firefox120.getTransportStats.

Definition send (o : SendOptions) : M (option string * jsval * option nat) :=
  _ ← assertNotClosed;
  _ ← assertSendDirection;
  let encodings := (λ encodings, reverse (set_rids encodings)) <$> sn_encodings o in
  h ← handler;
  sendingRtpParameters ← lift (reduced (h_sendingRtpParametersByKind h) (sn_kind o) (sn_codec o));
  sendingRemoteRtpParameters ← lift (reduced (h_sendingRemoteRtpParametersByKind h) (sn_kind o) (sn_codec o));
  p ← pc;
  transceiver ← browse (pc_addTransceiver p (OfTrack (sn_track o)) (Some "sendonly") JUndef);
  _ ← match encodings with Some encodings => give_encodings transceiver encodings | None => mret tt end;
  offer ← createOffer false;
  localSdpObject ← lift (sdp_parse offer);
  _ ← ensure_transport always_client localSdpObject;
  layers ← lift (first_layers encodings);
  _ ← setLocalDescription Offer offer;
  localId ← read (transceiver_mid transceiver);
  let sendingRtpParameters := js_set sendingRtpParameters "mid" (js_mid localId) in
  localSdpObject ← localDescription;
  offerMediaObject ← lift (media_last localSdpObject);
  sendingRtpParameters ← lift (set_cname sendingRtpParameters offerMediaObject);
  encs ← lift (sending_encodings_reversed encodings offerMediaObject);
  encs ← lift (set_modes (with_layers layers) sendingRtpParameters encs);
  let sendingRtpParameters := js_set sendingRtpParameters "encodings" (JArr encs) in
  sendingRtpParameters ← with_sdp (RemoteSdp.send offerMediaObject None sendingRtpParameters
                            sendingRemoteRtpParameters (sn_codecOptions o) true);
  _ ← apply_remote Answer;
  _ ← store localId transceiver;
  mret (localId, sendingRtpParameters, Some transceiver).

Definition stopSending (localId : string) : M unit := Firefox120.stopSending localId.

Definition pauseSending (localId : string) : M unit := Firefox120.pauseSending localId.

Definition resumeSending (localId : string) : M unit := Firefox120.resumeSending localId.

Definition replaceTrack (localId : string) (track : option nat) : M unit := Firefox120.replaceTrack localId track.

Definition setMaxSpatialLayer (localId : string) (spatialLayer : num) : M unit :=
  guarded (change_encodings "associated transceiver not found" localId (activate_reversed spatialLayer)).

Definition setRtpEncodingParameters (localId : string) (params : jsval) : M unit := Firefox120.setRtpEncodingParameters localId params.

Definition getSenderStats (localId : string) : M jsval := Firefox120.getSenderStats localId.

Definition sendDataChannel (o : DataChannelOptions) : M (nat * jsval) := Firefox120.sendDataChannel o.

Definition receive (optionsList : list ReceiveOptions) : M (list (option string * nat * option nat)) :=
  _ ← assertNotClosed;
  _ ← assertRecvDirection;
  receive_batch always_client (λ _, mret tt) (write_answer optionsList) optionsList.

Definition stopReceiving (localIds : list string) : M unit := Firefox120.stopReceiving localIds.

Definition pauseReceiving (localIds : list string) : M unit := Firefox120.pauseReceiving localIds.

Definition resumeReceiving (localIds : list string) : M unit := Firefox120.resumeReceiving localIds.

Definition getReceiverStats (localId : string) : M jsval := Firefox120.getReceiverStats localId.

Definition receiveDataChannel (sctpStreamParameters label protocol : jsval) : M nat := Firefox120.receiveDataChannel sctpStreamParameters label protocol.

(** The factory of the handler. *)
Definition createFactory : Methods (World Transceivers B text) :=
  {| m_close := close; m_getNativeRtpCapabilities := getNativeRtpCapabilities;
     m_getNativeSctpCapabilities := getNativeSctpCapabilities; m_run := run; m_updateIceServers := updateIceServers;
     m_restartIce := restartIce; m_getTransportStats := getTransportStats; m_send := send; m_stopSending := stopSending;
     m_pauseSending := pauseSending; m_resumeSending := resumeSending; m_replaceTrack := replaceTrack;
     m_setMaxSpatialLayer := setMaxSpatialLayer; m_setRtpEncodingParameters := setRtpEncodingParameters;
     m_getSenderStats := getSenderStats; m_sendDataChannel := sendDataChannel; m_receive := receive;
     m_stopReceiving := stopReceiving; m_pauseReceiving := pauseReceiving; m_resumeReceiving := resumeReceiving;
     m_getReceiverStats := getReceiverStats; m_receiveDataChannel := receiveDataChannel |}.
End Firefox60.
