(* ===== verification/PlanBBase.v ===== *)
(** * What the plan B handlers share (src/client/lib/handlers/Chrome67.js, Chrome55.js,
      Safari11.js, ReactNative.js)

    In plan B a description has one section per kind of media, in which the tracks
    are told apart by their SSRC lines.  These handlers have no closed flag, their
    local ids for sending are numbers of a counter, and those for receiving the
    track ids.  Chrome 67 and Safari 11 keep the sender of a track, the others the
    track. *)

From Stdlib Require Import QArith.
From stdpp Require Import gmap.
From S2P Require Import Prelude JsNum JsVal JsConv JsString DownlinkProtocol OrtcValidate Ortc.
From S2P Require Import SdpUtils MediaSection RemoteSdp Browser HandlerBase Chrome111.
Local Open Scope string_scope.
Local Open Scope list_scope.
Local Open Scope Z_scope.

(** ** State *)

(** What is kept of a consumer. *)
Record RecvInfo := {
  ri_mid : string;
  ri_rtpParameters : jsval;
  ri_rtpReceiver : option nat;
}.

Record PlanBState := {
  pb_sendStream : nat;
  (** The sender or the track by local id; the sender may not have been found. *)
  pb_sending : gmap string (option nat);
  pb_nextSendLocalId : Z;
  pb_receiving : gmap string RecvInfo;
}.

Definition new_PlanBState (stream : nat) : PlanBState :=
  {| pb_sendStream := stream; pb_sending := ∅; pb_nextSendLocalId := 0; pb_receiving := ∅ |}.
Definition with_sending (f : gmap string (option nat) → gmap string (option nat)) (x : PlanBState) : PlanBState :=
  {| pb_sendStream := pb_sendStream x; pb_sending := f (pb_sending x); pb_nextSendLocalId := pb_nextSendLocalId x;
     pb_receiving := pb_receiving x |}.
Definition with_nextSendLocalId (n : Z) (x : PlanBState) : PlanBState :=
  {| pb_sendStream := pb_sendStream x; pb_sending := pb_sending x; pb_nextSendLocalId := n; pb_receiving := pb_receiving x |}.
Definition with_receiving (f : gmap string RecvInfo → gmap string RecvInfo) (x : PlanBState) : PlanBState :=
  {| pb_sendStream := pb_sendStream x; pb_sending := pb_sending x; pb_nextSendLocalId := pb_nextSendLocalId x;
     pb_receiving := f (pb_receiving x) |}.

(** ** Sections by kind *)

Definition of_type (kind : string) (m : jsval) : outcome bool := t ← get_prop m "type"; Ok (is_str t kind).

(** [media.find((m) => m.type === kind)], of which a property is read. *)
Definition section_of (sdpObject : jsval) (kind : string) : outcome jsval :=
  media ← iterate (js_get sdpObject "media");
  m ← find_ok (of_type kind) media;
  match m with Some m => Ok m | None => Throw "Cannot read properties of undefined" end.

(** That section changed in place. *)
Fixpoint change_section (kind : string) (f : jsval → outcome jsval) (media : list jsval) : outcome (list jsval) :=
  match media with
  | [] => Throw "Cannot read properties of undefined"
  | m :: media =>
      b ← of_type kind m;
      if (b : bool) then m ← f m; Ok (m :: media) else media ← change_section kind f media; Ok (m :: media)
  end.

(** The scalability modes where only VP8 has simulcast. *)
Definition set_vp8_modes (parameters : jsval) (encodings : list jsval) : outcome (list jsval) :=
  if (1 <? length encodings)%nat then
    vp8 ← first_codec_is parameters "video/vp8"; Ok (if (vp8 : bool) then map with_L1T3 encodings else encodings)
  else Ok encodings.

Section PlanB.
Context {B text : Type} `{!SdpText text} `{!Browser B text} `{!PlanBBrowser B text}.
(** The h264-profile-level-id package. *)
Context (isSameProfile : jsval → jsval → bool) (generateProfileLevelIdStringForAnswer : jsval → jsval → outcome jsval).
Abbreviation reduced := (reduced_parameters isSameProfile generateProfileLevelIdStringForAnswer).
Abbreviation M := (action (World PlanBState B text)).

Definition close_handler : M unit := _ ← close_pc; emit "@close" JUndef.

Definition plan_b_capabilities : M jsval :=
  native_capabilities (Some "plan-b") (mret tt) (λ _ p, browse (pc_createReceivingOffer p)) (λ _, mret tt) Ok.

(** [this._sendStream]. *)
Definition sendStream : M nat := x ← own; mret (pb_sendStream x).

(** ** Sending *)

(** The offer with the streams of simulcast in its video section. *)
Definition simulcast_offer (offer : text) (trackId : string) (n : nat) : outcome text :=
  localSdpObject ← sdp_parse offer;
  media ← iterate (js_get localSdpObject "media");
  media ← change_section "video" (λ m, PlanB_addLegacySimulcast m trackId n) media;
  Ok (sdp_write (js_set localSdpObject "media" (JArr media))).

(** [String(this._nextSendLocalId)], and the next one. *)
Definition next_local_id : M string :=
  x ← own;
  _ ← set_own (with_nextSendLocalId (pb_nextSendLocalId x + 1));
  mret (js_to_string (js_int (pb_nextSendLocalId x))).

(** [send]: [attach] gives the track to the peer connection, [modes] sets the
    scalability modes, [kept] is what is kept under the local id and the sender
    that is returned. *)
Definition send_track (attach : nat → nat → nat → M unit) (modes : jsval → list jsval → outcome (list jsval))
    (kept : nat → nat → M (option nat * option nat)) (o : SendOptions) : M (option string * jsval * option nat) :=
  _ ← assertSendDirection;
  stream ← sendStream;
  _ ← browse (stream_addTrack stream (sn_track o));
  p ← pc;
  _ ← attach p stream (sn_track o);
  offer ← createOffer false;
  localSdpObject ← lift (sdp_parse offer);
  h ← handler;
  sendingRtpParameters ← lift (reduced (h_sendingRtpParametersByKind h) (sn_kind o) JUndef);
  sendingRemoteRtpParameters ← lift (reduced (h_sendingRemoteRtpParametersByKind h) (sn_kind o) JUndef);
  _ ← ensure_transport forced_or_client localSdpObject;
  trackId ← read (track_id (sn_track o));
  let encodings := default [] (sn_encodings o) in
  offer ← lift (if String.eqb (sn_kind o) "video" && (1 <? length encodings)%nat
                then simulcast_offer offer trackId (length encodings) else Ok offer);
  _ ← setLocalDescription Offer offer;
  localSdpObject ← localDescription;
  offerMediaObject ← lift (section_of localSdpObject (sn_kind o));
  sendingRtpParameters ← lift (set_cname sendingRtpParameters offerMediaObject);
  encs ← lift (PlanB.getRtpEncodings offerMediaObject trackId);
  encs ← lift (modes sendingRtpParameters (complete_encodings encs encodings));
  let sendingRtpParameters := js_set sendingRtpParameters "encodings" (JArr encs) in
  sendingRtpParameters ← with_sdp (RemoteSdp.send offerMediaObject None sendingRtpParameters
                            sendingRemoteRtpParameters (sn_codecOptions o) false);
  _ ← apply_remote Answer;
  localId ← next_local_id;
  e ← kept p (sn_track o);
  _ ← set_own (with_sending <[localId := e.1]>);
  mret (Some localId, sendingRtpParameters, e.2).

(** The sender or the track kept under a local id. *)
Definition sending_of (missing localId : string) : M nat :=
  x ← own;
  lift match pb_sending x !! localId with Some (Some s) => Ok s | _ => Throw missing end.

Definition forget_sending (localId : string) : M unit := set_own (with_sending (delete localId)).

(** The negotiation of [stopSending]: a browser that cannot apply an offer without
    tracks is left alone, and one that is stable already needs no answer. *)
Definition renegotiate : M unit :=
  offer ← createOffer false;
  expected ← catch (_ ← setLocalDescription Offer offer; mret false)
    (λ error, stream ← sendStream; tracks ← read (stream_getTracks stream);
              match tracks with [] => mret true | _ => lift (Throw error) end);
  if (expected : bool) then mret tt
  else
    p ← pc;
    state ← read (pc_signalingState p);
    if String.eqb state "stable" then mret tt else apply_remote Answer.

(** ** Receiving *)

(** One consumer in the remote description; [amend] is what is done to its stream
    id, which is returned by track id. *)
Definition offer_track (amend : jsval → M jsval) (o : ReceiveOptions) : M (string * jsval) :=
  streamId ← lift (if is_nullish (rv_streamId o) then get_prop (js_get (rv_rtpParameters o) "rtcp") "cname" else Ok (rv_streamId o));
  streamId ← amend streamId;
  _ ← on_sdp (RemoteSdp.receive (js_to_string (rv_kind o)) (rv_kind o) (rv_rtpParameters o) streamId (JStr (rv_trackId o)));
  mret (rv_trackId o, streamId).

(** The codec parameters of one consumer in the section of its kind. *)
Definition apply_kind (answer : jsval) (o : ReceiveOptions) : outcome jsval :=
  media ← iterate (js_get answer "media");
  media ← apply_in (rv_rtpParameters o) (js_to_string (rv_kind o)) media;
  Ok (js_set answer "media" (JArr media)).

Definition keep_consumer (o : ReceiveOptions) (receiver : option nat) : M unit :=
  set_own (with_receiving <[rv_trackId o := {| ri_mid := js_to_string (rv_kind o); ri_rtpParameters := rv_rtpParameters o;
                                               ri_rtpReceiver := receiver |}]>).

(** [receive]: [found] is the track of a consumer and its receiver, if any, given
    the stream ids by track id. *)
Definition receive_tracks (amend : jsval → M jsval) (found : list (string * jsval) → ReceiveOptions → M (nat * option nat))
    (optionsList : list ReceiveOptions) : M (list (option string * nat * option nat)) :=
  _ ← assertRecvDirection;
  mapStreamId ← collect (offer_track amend) optionsList;
  _ ← apply_remote Offer;
  answer ← createAnswer;
  localSdpObject ← lift (sdp_parse answer);
  localSdpObject ← lift (fold_ok apply_kind localSdpObject optionsList);
  _ ← ensure_transport forced_or_client localSdpObject;
  _ ← setLocalDescription Answer (sdp_write localSdpObject);
  collect (λ o, t ← found mapStreamId o; _ ← keep_consumer o t.2; mret (Some (rv_trackId o), t.1, t.2)) optionsList.

(** The track of a consumer where streams are asked for it. *)
Definition track_in (streamId : jsval) (trackId : string) : M (nat * option nat) :=
  p ← pc;
  stream ← read (λ b, array_find (λ s, is_str streamId (stream_id s b)) (pc_getRemoteStreams p b));
  match stream with
  | None => lift (Throw "Cannot read properties of undefined")
  | Some s =>
      track ← read (stream_getTrackById s trackId);
      match track with
      | Some t => mret (t, None)
      | None => lift (Throw "remote track not found")
      end
  end.

Definition stop_track (localId : string) : M unit :=
  x ← own;
  _ ← set_own (with_receiving (delete localId));
  match pb_receiving x !! localId with
  | Some i => on_sdp (RemoteSdp.planBStopReceiving (ri_mid i) (ri_rtpParameters i))
  | None => lift (Throw "no media section found with mid 'undefined'")
  end.

(** A method that an old browser cannot offer: an [UnsupportedError]. *)
Definition unsupported {A} (message : string) : M A := lift (Throw message).
End PlanB.
