(* ===== verification/Chrome67.v ===== *)
(** * The handler of Chrome 67 (src/client/lib/handlers/Chrome67.js)

    The first of the plan B handlers with senders and receivers. *)

From Stdlib Require Import QArith.
From stdpp Require Import gmap.
From S2P Require Import Prelude JsNum JsVal JsConv JsString OrtcValidate Ortc SdpUtils RemoteSdp.
From S2P Require Import Browser HandlerBase Chrome111 PlanBBase.
Local Open Scope string_scope.
Local Open Scope list_scope.
Local Open Scope Z_scope.

Section Chrome67.
Context {B text : Type} `{!SdpText text} `{!Browser B text} `{!PlanBBrowser B text}.
(** The h264-profile-level-id package. *)
Context (isSameProfile : jsval → jsval → bool) (generateProfileLevelIdStringForAnswer : jsval → jsval → outcome jsval).
Abbreviation M := (action (World PlanBState B text)).

Definition close : M unit := close_handler.

Definition getNativeRtpCapabilities : M jsval := plan_b_capabilities.

Definition getNativeSctpCapabilities : M jsval := sctp_capabilities SCTP_NUM_STREAMS_OS SCTP_NUM_STREAMS_MIS.

Definition run (o : RunOptions) : M unit := run_with true (Some "plan-b") (force_role o) o.

Definition updateIceServers (iceServers : jsval) : M unit := update_ice_servers iceServers.

Definition restartIce (iceParameters : jsval) : M unit := restart_ice iceParameters.

Definition getTransportStats : M jsval := transport_stats.

Definition attach_track (p stream track : nat) : M unit := browse (pc_addTrack p track stream).

(** The sender of a track, [undefined] if there is none. *)
Definition keep_sender (p track : nat) : M (option nat * option nat) :=
  rtpSender ← read (λ b, array_find (λ s, bool_decide (sender_track s b = Some track)) (pc_getSenders p b));
  mret (rtpSender, rtpSender).

Definition send (o : SendOptions) : M (option string * jsval * option nat) := send_track isSameProfile generateProfileLevelIdStringForAnswer attach_track set_vp8_modes keep_sender o.

(** The track of a sender leaves the stream. *)
Definition detach_sender (rtpSender : nat) : M unit :=
  track ← read (sender_track rtpSender);
  match track with
  | Some t => stream ← sendStream; browse (stream_removeTrack stream t)
  | None => mret tt
  end.

Definition stopSending (localId : string) : M unit :=
  _ ← assertSendDirection;
  rtpSender ← sending_of "associated RTCRtpSender not found" localId;
  p ← pc;
  _ ← browse (pc_removeTrack p rtpSender);
  _ ← detach_sender rtpSender;
  _ ← forget_sending localId;
  renegotiate.

Definition pauseSending (localId : string) : M unit := mret tt.

Definition resumeSending (localId : string) : M unit := mret tt.

Definition replaceTrack (localId : string) (track : option nat) : M unit :=
  _ ← assertSendDirection;
  rtpSender ← sending_of "associated RTCRtpSender not found" localId;
  oldTrack ← read (sender_track rtpSender);
  _ ← browse (sender_replaceTrack rtpSender track);
  stream ← sendStream;
  _ ← match oldTrack with Some t => browse (stream_removeTrack stream t) | None => mret tt end;
  match track with Some t => browse (stream_addTrack stream t) | None => mret tt end.

(** The parameters of a sender with its encodings changed. *)
Definition change_parameters (localId : string) (f : list jsval → list jsval) : M unit :=
  _ ← assertSendDirection;
  rtpSender ← sending_of "associated RTCRtpSender not found" localId;
  parameters ← browse (sender_getParameters rtpSender);
  encodings ← lift (iterate (js_get parameters "encodings"));
  browse (sender_setParameters rtpSender (js_set parameters "encodings" (JArr (f encodings)))).

Definition setMaxSpatialLayer (localId : string) (spatialLayer : num) : M unit := change_parameters localId (activate spatialLayer).

Definition setRtpEncodingParameters (localId : string) (params : jsval) : M unit := change_parameters localId (override params).

Definition getSenderStats (localId : string) : M jsval :=
  _ ← assertSendDirection;
  rtpSender ← sending_of "associated RTCRtpSender not found" localId;
  browse (sender_getStats rtpSender).

Definition sendDataChannel (o : DataChannelOptions) : M (nat * jsval) :=
  _ ← assertSendDirection; send_data_channel true SCTP_NUM_STREAMS_MIS forced_or_client o.

(** The receiver whose track has the id of the consumer's. *)
Definition find_receiver (mapStreamId : list (string * jsval)) (o : ReceiveOptions) : M (nat * option nat) :=
  p ← pc;
  rtpReceiver ← read (λ b, array_find (λ r, bool_decide (receiver_trackId r b = Some (rv_trackId o))) (pc_getReceivers p b));
  match rtpReceiver with
  | Some r => track ← read (receiver_track r); mret (track, Some r)
  | None => lift (Throw "new RTCRtpReceiver not")
  end.

Definition receive (optionsList : list ReceiveOptions) : M (list (option string * nat * option nat)) := receive_tracks mret find_receiver optionsList.

Definition stopReceiving (localIds : list string) : M unit :=
  _ ← assertRecvDirection;
  _ ← each stop_track localIds;
  offer_remote.

Definition pauseReceiving (localIds : list string) : M unit := mret tt.

Definition resumeReceiving (localIds : list string) : M unit := mret tt.

Definition getReceiverStats (localId : string) : M jsval :=
  _ ← assertRecvDirection;
  x ← own;
  match pb_receiving x !! localId ≫= ri_rtpReceiver with
  | Some r => browse (receiver_getStats r)
  | None => lift (Throw "associated RTCRtpReceiver not found")
  end.

Definition receiveDataChannel (sctpStreamParameters label protocol : jsval) : M nat :=
  _ ← assertRecvDirection; receive_data_channel true true forced_or_client sctpStreamParameters label protocol.

(** The factory of the handler. *)
Definition createFactory : Methods (World PlanBState B text) :=
  {| m_close := close; m_getNativeRtpCapabilities := getNativeRtpCapabilities;
     m_getNativeSctpCapabilities := getNativeSctpCapabilities; m_run := run; m_updateIceServers := updateIceServers;
     m_restartIce := restartIce; m_getTransportStats := getTransportStats; m_send := send; m_stopSending := stopSending;
     m_pauseSending := pauseSending; m_resumeSending := resumeSending; m_replaceTrack := replaceTrack;
     m_setMaxSpatialLayer := setMaxSpatialLayer; m_setRtpEncodingParameters := setRtpEncodingParameters;
     m_getSenderStats := getSenderStats; m_sendDataChannel := sendDataChannel; m_receive := receive;
     m_stopReceiving := stopReceiving; m_pauseReceiving := pauseReceiving; m_resumeReceiving := resumeReceiving;
     m_getReceiverStats := getReceiverStats; m_receiveDataChannel := receiveDataChannel |}.
End Chrome67.
