(* ===== verification/Chrome55.v ===== *)
(** * The handler of Chrome 55 (src/client/lib/handlers/Chrome55.js)

    As [Chrome67], with streams in place of senders and receivers: tracks are sent and
    found through them, and what needs a sender is not supported. *)

From Stdlib Require Import QArith.
From stdpp Require Import gmap.
From S2P Require Import Prelude JsNum JsVal JsConv JsString OrtcValidate Ortc SdpUtils RemoteSdp.
From S2P Require Import Browser HandlerBase Chrome111 PlanBBase Chrome67.
Local Open Scope string_scope.
Local Open Scope list_scope.
Local Open Scope Z_scope.

Section Chrome55.
Context {B text : Type} `{!SdpText text} `{!Browser B text} `{!PlanBBrowser B text}.
(** The h264-profile-level-id package. *)
Context (isSameProfile : jsval → jsval → bool) (generateProfileLevelIdStringForAnswer : jsval → jsval → outcome jsval).
Abbreviation M := (action (World PlanBState B text)).

Definition close : M unit := Chrome67.close.

Definition getNativeRtpCapabilities : M jsval := Chrome67.getNativeRtpCapabilities.

Definition getNativeSctpCapabilities : M jsval := Chrome67.getNativeSctpCapabilities.

Definition run (o : RunOptions) : M unit := Chrome67.run o.

Definition updateIceServers (iceServers : jsval) : M unit := Chrome67.updateIceServers iceServers.

Definition restartIce (iceParameters : jsval) : M unit := Chrome67.restartIce iceParameters.

Definition getTransportStats : M jsval := Chrome67.getTransportStats.

Definition attach_stream (p stream track : nat) : M unit := browse (pc_addStream p stream).
Definition keep_track (p track : nat) : M (option nat * option nat) := mret (Some track, None).

Definition send (o : SendOptions) : M (option string * jsval * option nat) := send_track isSameProfile generateProfileLevelIdStringForAnswer attach_stream set_vp8_modes keep_track o.

Definition stopSending (localId : string) : M unit :=
  _ ← assertSendDirection;
  track ← sending_of "track not found" localId;
  _ ← forget_sending localId;
  stream ← sendStream;
  _ ← browse (stream_removeTrack stream track);
  p ← pc;
  _ ← browse (pc_addStream p stream);
  renegotiate.

Definition pauseSending (localId : string) : M unit := Chrome67.pauseSending localId.

Definition resumeSending (localId : string) : M unit := Chrome67.resumeSending localId.

Definition replaceTrack (localId : string) (track : option nat) : M unit := unsupported "not implemented".

Definition setMaxSpatialLayer (localId : string) (spatialLayer : num) : M unit := unsupported " not implemented".

Definition setRtpEncodingParameters (localId : string) (params : jsval) : M unit := unsupported "not supported".

Definition getSenderStats (localId : string) : M jsval := unsupported "not implemented".

Definition sendDataChannel (o : DataChannelOptions) : M (nat * jsval) := Chrome67.sendDataChannel o.

(** The track in the stream of the consumer. *)
Definition find_track (mapStreamId : list (string * jsval)) (o : ReceiveOptions) : M (nat * option nat) :=
  streamId ← lift (if is_nullish (rv_streamId o) then get_prop (js_get (rv_rtpParameters o) "rtcp") "cname" else Ok (rv_streamId o));
  track_in streamId (rv_trackId o).

Definition receive (optionsList : list ReceiveOptions) : M (list (option string * nat * option nat)) := receive_tracks mret find_track optionsList.

Definition stopReceiving (localIds : list string) : M unit := Chrome67.stopReceiving localIds.

Definition pauseReceiving (localIds : list string) : M unit := Chrome67.pauseReceiving localIds.

Definition resumeReceiving (localIds : list string) : M unit := Chrome67.resumeReceiving localIds.

Definition getReceiverStats (localId : string) : M jsval := unsupported "not implemented".

Definition receiveDataChannel (sctpStreamParameters label protocol : jsval) : M nat := Chrome67.receiveDataChannel sctpStreamParameters label protocol.

(** The factory of the handler. *)
Definition createFactory : Methods (World PlanBState B text) :=
  {| m_close := close; m_getNativeRtpCapabilities := getNativeRtpCapabilities;
     m_getNativeSctpCapabilities := getNativeSctpCapabilities; m_run := run; m_updateIceServers := updateIceServers;
     m_restartIce := restartIce; m_getTransportStats := getTransportStats; m_send := send; m_stopSending := stopSending;
     m_pauseSending := pauseSending; m_resumeSending := resumeSending; m_replaceTrack := replaceTrack;
     m_setMaxSpatialLayer := setMaxSpatialLayer; m_setRtpEncodingParameters := setRtpEncodingParameters;
     m_getSenderStats := getSenderStats; m_sendDataChannel := sendDataChannel; m_receive := receive;
     m_stopReceiving := stopReceiving; m_pauseReceiving := pauseReceiving; m_resumeReceiving := resumeReceiving;
     m_getReceiverStats := getReceiverStats; m_receiveDataChannel := receiveDataChannel |}.
End Chrome55.
