(* ===== verification/Safari11.v ===== *)
(** * The handler of Safari 11 (src/client/lib/handlers/Safari11.js)

    As [Chrome67], except that the sender stays in the peer connection when its track
    is taken back, and data channels follow the newer specification. *)

From Stdlib Require Import QArith.
From stdpp Require Import gmap.
From S2P Require Import Prelude JsNum JsVal JsConv JsString OrtcValidate Ortc SdpUtils RemoteSdp.
From S2P Require Import Browser HandlerBase Chrome111 PlanBBase Chrome67.
Local Open Scope string_scope.
Local Open Scope list_scope.
Local Open Scope Z_scope.

Section Safari11.
Context {B text : Type} `{!SdpText text} `{!Browser B text} `{!PlanBBrowser B text}.
(** The h264-profile-level-id package. *)
Context (isSameProfile : jsval → jsval → bool) (generateProfileLevelIdStringForAnswer : jsval → jsval → outcome jsval).
Abbreviation M := (action (World PlanBState B text)).

Definition close : M unit := Chrome67.close.

Definition getNativeRtpCapabilities : M jsval := Chrome67.getNativeRtpCapabilities.

Definition getNativeSctpCapabilities : M jsval := Chrome67.getNativeSctpCapabilities.

Definition run (o : RunOptions) : M unit := run_with true None (force_role o) o.

Definition updateIceServers (iceServers : jsval) : M unit := Chrome67.updateIceServers iceServers.

Definition restartIce (iceParameters : jsval) : M unit := Chrome67.restartIce iceParameters.

Definition getTransportStats : M jsval := Chrome67.getTransportStats.

Definition send (o : SendOptions) : M (option string * jsval * option nat) := Chrome67.send isSameProfile generateProfileLevelIdStringForAnswer o.

Definition stopSending (localId : string) : M unit :=
  _ ← assertSendDirection;
  rtpSender ← sending_of "associated RTCRtpSender not found" localId;
  _ ← detach_sender rtpSender;
  _ ← forget_sending localId;
  renegotiate.

Definition pauseSending (localId : string) : M unit := Chrome67.pauseSending localId.

Definition resumeSending (localId : string) : M unit := Chrome67.resumeSending localId.

Definition replaceTrack (localId : string) (track : option nat) : M unit := Chrome67.replaceTrack localId track.

Definition setMaxSpatialLayer (localId : string) (spatialLayer : num) : M unit := Chrome67.setMaxSpatialLayer localId spatialLayer.

Definition setRtpEncodingParameters (localId : string) (params : jsval) : M unit := Chrome67.setRtpEncodingParameters localId params.

Definition getSenderStats (localId : string) : M jsval := Chrome67.getSenderStats localId.

Definition sendDataChannel (o : DataChannelOptions) : M (nat * jsval) :=
  _ ← assertSendDirection; send_data_channel false SCTP_NUM_STREAMS_MIS forced_or_client o.

Definition receive (optionsList : list ReceiveOptions) : M (list (option string * nat * option nat)) := Chrome67.receive optionsList.

Definition stopReceiving (localIds : list string) : M unit := Chrome67.stopReceiving localIds.

Definition pauseReceiving (localIds : list string) : M unit := Chrome67.pauseReceiving localIds.

Definition resumeReceiving (localIds : list string) : M unit := Chrome67.resumeReceiving localIds.

Definition getReceiverStats (localId : string) : M jsval := Chrome67.getReceiverStats localId.

Definition receiveDataChannel (sctpStreamParameters label protocol : jsval) : M nat :=
  _ ← assertRecvDirection; receive_data_channel false true forced_or_client sctpStreamParameters label protocol.

(** The factory of the handler. *)
Definition createFactory : Methods (World PlanBState B text) :=
  {| m_close := close; m_getNativeRtpCapabilities := getNativeRtpCapabilities;
     m_getNativeSctpCapabilities := getNativeSctpCapabilities; m_run := run; m_updateIceServers := updateIceServers;
     m_restartIce := restartIce; m_getTransportStats := getTransportStats; m_send := send; m_stopSending := stopSending;
     m_pauseSending := pauseSending; m_resumeSending := resumeSending; m_replaceTrack := replaceTrack;
     m_setMaxSpatialLayer := setMaxSpatialLayer; m_setRtpEncodingParameters := setRtpEncodingParameters;
     m_getSenderStats := getSenderStats; m_sendDataChannel := sendDataChannel; m_receive := receive;
     m_stopReceiving := stopReceiving; m_pauseReceiving := pauseReceiving; m_resumeReceiving := resumeReceiving;
     m_getReceiverStats := getReceiverStats; m_receiveDataChannel := receiveDataChannel |}.
End Safari11.
