(* ===== verification/ReactNative.v ===== *)
(** * The handler of React Native (src/client/lib/handlers/ReactNative.js)

    As [Chrome55], except that the handler releases its stream when it is closed, each
    consumer has a stream of its own, and H264 has simulcast too. *)

From Stdlib Require Import QArith.
From stdpp Require Import gmap.
From S2P Require Import Prelude JsNum JsVal JsConv JsString OrtcValidate Ortc SdpUtils RemoteSdp.
From S2P Require Import Browser HandlerBase Chrome111 PlanBBase Chrome67 Chrome55.
Local Open Scope string_scope.
Local Open Scope list_scope.
Local Open Scope Z_scope.

Section ReactNative.
Context {B text : Type} `{!SdpText text} `{!Browser B text} `{!PlanBBrowser B text}.
(** The h264-profile-level-id package. *)
Context (isSameProfile : jsval → jsval → bool) (generateProfileLevelIdStringForAnswer : jsval → jsval → outcome jsval).
Abbreviation M := (action (World PlanBState B text)).

Definition close : M unit :=
  stream ← sendStream; _ ← browse (stream_release stream); close_handler.

Definition getNativeRtpCapabilities : M jsval := Chrome67.getNativeRtpCapabilities.

Definition getNativeSctpCapabilities : M jsval := Chrome67.getNativeSctpCapabilities.

Definition run (o : RunOptions) : M unit := Chrome67.run o.

Definition updateIceServers (iceServers : jsval) : M unit := Chrome67.updateIceServers iceServers.

Definition restartIce (iceParameters : jsval) : M unit := Chrome67.restartIce iceParameters.

Definition getTransportStats : M jsval := Chrome67.getTransportStats.

Definition send (o : SendOptions) : M (option string * jsval * option nat) := send_track isSameProfile generateProfileLevelIdStringForAnswer attach_stream (set_modes with_L1T3) keep_track o.

Definition stopSending (localId : string) : M unit := Chrome55.stopSending localId.

Definition pauseSending (localId : string) : M unit := Chrome67.pauseSending localId.

Definition resumeSending (localId : string) : M unit := Chrome67.resumeSending localId.

Definition replaceTrack (localId : string) (track : option nat) : M unit := unsupported "not implemented".

Definition setMaxSpatialLayer (localId : string) (spatialLayer : num) : M unit := unsupported "not implemented".

Definition setRtpEncodingParameters (localId : string) (params : jsval) : M unit := unsupported "not implemented".

Definition getSenderStats (localId : string) : M jsval := unsupported "not implemented".

Definition sendDataChannel (o : DataChannelOptions) : M (nat * jsval) := Chrome67.sendDataChannel o.

(** [streamId += `-hack-${utils.generateRandomNumber()}`]. *)
Definition hack_stream (streamId : jsval) : M jsval :=
  n ← browse (λ b, let '(n, b) := random_number b in (Ok n, b));
  mret (JStr (js_to_string streamId +:+ "-hack-" +:+ js_to_string (js_int n))).

Definition find_hacked (mapStreamId : list (string * jsval)) (o : ReceiveOptions) : M (nat * option nat) :=
  track_in (default JUndef (map_get (foldl (λ m e, map_set m e.1 e.2) [] mapStreamId) (rv_trackId o))) (rv_trackId o).

Definition receive (optionsList : list ReceiveOptions) : M (list (option string * nat * option nat)) := receive_tracks hack_stream find_hacked optionsList.

Definition stopReceiving (localIds : list string) : M unit := Chrome67.stopReceiving localIds.

Definition pauseReceiving (localIds : list string) : M unit := Chrome67.pauseReceiving localIds.

Definition resumeReceiving (localIds : list string) : M unit := Chrome67.resumeReceiving localIds.

Definition getReceiverStats (localId : string) : M jsval := unsupported "not implemented".

Definition receiveDataChannel (sctpStreamParameters label protocol : jsval) : M nat := Chrome67.receiveDataChannel sctpStreamParameters label protocol.

(** The factory of the handler. *)
Definition createFactory : Methods (World PlanBState B text) :=
  {| m_close := close; m_getNativeRtpCapabilities := getNativeRtpCapabilities;
     m_getNativeSctpCapabilities := getNativeSctpCapabilities; m_run := run; m_updateIceServers := updateIceServers;
     m_restartIce := restartIce; m_getTransportStats := getTransportStats; m_send := send; m_stopSending := stopSending;
     m_pauseSending := pauseSending; m_resumeSending := resumeSending; m_replaceTrack := replaceTrack;
     m_setMaxSpatialLayer := setMaxSpatialLayer; m_setRtpEncodingParameters := setRtpEncodingParameters;
     m_getSenderStats := getSenderStats; m_sendDataChannel := sendDataChannel; m_receive := receive;
     m_stopReceiving := stopReceiving; m_pauseReceiving := pauseReceiving; m_resumeReceiving := resumeReceiving;
     m_getReceiverStats := getReceiverStats; m_receiveDataChannel := receiveDataChannel |}.
End ReactNative.
