(* ===== verification/Handlers.v ===== *)
(** * The handlers by name (src/client/lib/Device.js)

    The factory that the constructor of the device takes for the name of a handler:
    what a new handler keeps of its own, and its methods.  Edge 11 speaks ORTC and has
    no negotiations. *)

From stdpp Require Import gmap.
From S2P Require Import Prelude JsVal Browser HandlerBase Device.
From S2P Require Import ReactNative Safari11 Chrome55 Chrome67 PlanBBase.
From S2P Require Import Firefox60 Firefox120 Chrome70 Safari12 ReactNativeUnifiedPlan Chrome74 Chrome111.

Section Handlers.
Context {B text : Type} `{!SdpText text} `{!Browser B text} `{!ReactNativeBrowser B} `{!FirefoxBrowser B} `{!PlanBBrowser B text}.
Context (isSameProfile : jsval → jsval → bool) (generateProfileLevelIdStringForAnswer : jsval → jsval → outcome jsval).

Definition unified_plan (name : BuiltinHandlerName) : option (Methods (World Transceivers B text)) :=
  match name with
  | Device.Chrome111 => Some (Chrome111.createFactory isSameProfile generateProfileLevelIdStringForAnswer)
  | Device.Chrome74 => Some (Chrome74.createFactory isSameProfile generateProfileLevelIdStringForAnswer)
  | Device.Chrome70 => Some (Chrome70.createFactory isSameProfile generateProfileLevelIdStringForAnswer)
  | Device.Firefox120 => Some (Firefox120.createFactory isSameProfile generateProfileLevelIdStringForAnswer)
  | Device.Firefox60 => Some (Firefox60.createFactory isSameProfile generateProfileLevelIdStringForAnswer)
  | Device.Safari12 => Some (Safari12.createFactory isSameProfile generateProfileLevelIdStringForAnswer)
  | Device.ReactNativeUnifiedPlan => Some (ReactNativeUnifiedPlan.createFactory isSameProfile generateProfileLevelIdStringForAnswer)
  | _ => None
  end.

Definition plan_b (name : BuiltinHandlerName) : option (Methods (World PlanBState B text)) :=
  match name with
  | Device.Chrome67 => Some (Chrome67.createFactory isSameProfile generateProfileLevelIdStringForAnswer)
  | Device.Chrome55 => Some (Chrome55.createFactory isSameProfile generateProfileLevelIdStringForAnswer)
  | Device.Safari11 => Some (Safari11.createFactory isSameProfile generateProfileLevelIdStringForAnswer)
  | Device.ReactNative => Some (ReactNative.createFactory isSameProfile generateProfileLevelIdStringForAnswer)
  | _ => None
  end.

Record Factory := {
  f_State : Type;
  f_own : f_State;
  f_methods : Methods (World f_State B text);
}.

(** [stream] is the stream that a plan B handler makes for sending. *)
Definition factory (stream : nat) (name : BuiltinHandlerName) : option Factory :=
  match unified_plan name, plan_b name with
  | Some m, _ => Some {| f_own := ∅; f_methods := m |}
  | None, Some m => Some {| f_own := new_PlanBState stream; f_methods := m |}
  | None, None => None
  end.
End Handlers.
Arguments Factory : clear implicits.
