(* ===== verification/HandlerProofs.v ===== *)
(** * What the handlers for unified plan do to any browser

    The discipline of the calls a handler makes, whatever the browser answers:
    the states of the negotiation, and the one connection of its transport.  The
    handlers from Chrome 70 on, Safari 12, Firefox and React Native are shown to be
    [Negotiator]s, method by method. *)

From Stdlib Require Import QArith.
From stdpp Require Import gmap.
From S2P Require Import Prelude JsNum JsVal JsConv Ortc SdpUtils RemoteSdp Browser HandlerBase Device Handlers.
From S2P Require Import Firefox60 Firefox120 Chrome70 Safari12 ReactNativeUnifiedPlan Chrome74 Chrome111 HandlerLogic.
Local Open Scope string_scope.
Local Open Scope list_scope.

Section Unified.
Context {B text : Type} `{!SdpText text} `{!Browser B text}.
Context (isSameProfile : jsval → jsval → bool) (generateProfileLevelIdStringForAnswer : jsval → jsval → outcome jsval).
Abbreviation World := (World Transceivers B text).
Abbreviation M := (action World).

Implicit Types (d e id : string) (s : signalling) (t : nat) (w : World).

(** A handler with transceivers is in use. *)
Definition mapped (x : Transceivers) : Prop := x ≠ ∅.
Definition no_excuse (w : World) : Prop := False.
Context (forced : option string).
Abbreviation negotiating := (negotiating mapped forced).
Abbreviation legal := (legal mapped forced).
Abbreviation settles := (settles mapped forced no_excuse).

(** ** Quiet parts *)

Lemma quiet_transceiver_or e id : quiet (transceiver_or e id : M nat).
Proof. unfold transceiver_or. quiet. Qed.
Lemma quiet_transceiver_of id : quiet (transceiver_of id : M nat).
Proof. apply quiet_transceiver_or. Qed.
Lemma quiet_close_section mid : quiet (close_section mid : M bool).
Proof. unfold close_section. quiet. Qed.
Lemma quiet_offer_consumer o : quiet (offer_consumer o : M (string * string)).
Proof. unfold offer_consumer. quiet. Qed.
Lemma quiet_find_transceiver (k : option string) : quiet (find_transceiver k : M (option nat)).
Proof. unfold find_transceiver. quiet. Qed.
Hint Resolve quiet_transceiver_or quiet_transceiver_of quiet_close_section quiet_offer_consumer quiet_find_transceiver : quiet.
Lemma quiet_tell_receivers l m : quiet (tell_receivers l m : M unit).
Proof. unfold tell_receivers. apply quiet_each. intros o. unfold tell_receiver. quiet. Qed.
Lemma quiet_replace_track id (track : option nat) : quiet (replace_track id track : M unit).
Proof. unfold replace_track. quiet. Qed.
Lemma quiet_sender_stats id : quiet (sender_stats id : M jsval).
Proof. unfold sender_stats. quiet. Qed.
Lemma quiet_receiver_stats id : quiet (receiver_stats id : M jsval).
Proof. unfold receiver_stats. quiet. Qed.
Lemma quiet_close : quiet (close : M unit).
Proof. unfold close. quiet. Qed.
Hint Resolve quiet_tell_receivers quiet_replace_track quiet_sender_stats quiet_receiver_stats quiet_close : quiet.

(** ** A transceiver that is found *)

Lemma transceiver_or_ok (e : string) (w : World) id t : (transceiver_or e id w).1 = Ok t → h_mapMidTransceiver (w_handler w) !! Some id = Some t.
Proof. unfold transceiver_or, mbind, action_bind, handler, lift. cbn. by destruct (h_own _ !! _) as [?|]; intros [=]; subst. Qed.
Lemma mapped_ready (e : string) d s (w : World) id t : negotiating d s w → (transceiver_or e id w).1 = Ok t → ready w.
Proof. intros Hn H%transceiver_or_ok. apply (ng_map _ _ _ _ _ Hn). intros E. by rewrite E, lookup_empty in H. Qed.

Ltac found _ := repeat match goal with
  | H : (transceiver_of _ ?w).1 = Ok _, Hn : HandlerLogic.negotiating _ _ _ _ ?w |- _ => apply (mapped_ready _ _ _ _ _ _ Hn) in H
  | H : (transceiver_or _ _ ?w).1 = Ok _, Hn : HandlerLogic.negotiating _ _ _ _ ?w |- _ => apply (mapped_ready _ _ _ _ _ _ Hn) in H
  end.

(** The transceivers are changed once the handler is ready. *)
Lemma wp_store {A} (k : option string) t (f : unit → M A) d s w Q E : negotiating d s w → ready w →
  (∀ w', negotiating d s w' → ready w' → wp (f tt) Q E w') → wp (store k t ≫= f) Q E w.
Proof. intros Hn Hr Hf. apply wp_bind. by eapply wp_set_own. Qed.
Lemma wp_forget_end id d s (w : World) : negotiating d Stable w → ready w →
  wp (forget id : M unit) (λ _ w', negotiating d s w' ∨ negotiating d Stable w' ∨ legal d w' ∧ no_excuse w') (legal d) w.
Proof. intros Hn Hr. eapply wp_set_own; eauto. Qed.
Ltac negotiate := repeat first [progress negotiate_with found|eapply wp_store; [eassumption|still_ready|]; intros ? ? ?
  |apply wp_forget_end; [done|still_ready]].

(** ** Chrome 111 *)

Lemma settles_pauseSending d id : settles d (pauseSending id).
Proof. apply settles_guarded, settles_sending. intros -> s w Hn. negotiate. Qed.
Lemma settles_resumeSending d id : settles d (resumeSending id).
Proof. apply settles_guarded, settles_sending. intros -> s w Hn. negotiate. Qed.
Lemma settles_change_encodings d (e : string) id f : settles d (change_encodings e id f).
Proof. apply settles_sending. intros -> s w Hn. negotiate. Qed.
Lemma settles_stop_sending id : settles "send" (stop_sending id).
Proof. intros s w Hn. negotiate. Qed.
Lemma settles_stopSending d id : settles d (stopSending id).
Proof. apply settles_sending. intros -> s w Hn. apply wp_bind, wp_handler. case_match; [by left|]. by eapply settles_stop_sending. Qed.

Lemma settles_send d o : settles d (send isSameProfile generateProfileLevelIdStringForAnswer o).
Proof. apply settles_guarded, settles_sending. intros -> s w Hn. negotiate. Qed.
Lemma wp_store_consumer m o d s w : negotiating d s w → ready w →
  wp (store_consumer m o) (λ _ w', negotiating d s w' ∧ ready w') (legal d) w.
Proof.
  intros Hn Hr. quiet_step found. case_match; [|by eexists]. eapply wp_store; [done|still_ready|]. by intros w2 ? ?.
Qed.

Lemma settles_receive_batch role tell wr l : announced forced role → (∀ m, quiet (tell m : M unit)) →
  settles "recv" (receive_batch role tell wr l).
Proof.
  intros Hrole Htell s w Hn. negotiate. apply wp_then_stable.
  apply (wp_collect _ (λ w, negotiating "recv" Stable w ∧ ready w)); [|done]. intros o ? [? ?]. by eapply wp_store_consumer.
Qed.

(** The loops over the consumers of a batch: a batch is not empty, and each
    consumer of it has its transceiver. *)
Lemma wp_batch (g : string → nat → M unit) ids d s w : ids ≠ [] → negotiating d s w → (∀ id t, quiet (g id t)) →
  wp (each (λ id, transceiver_of id ≫= g id) ids) (λ _ w', negotiating d s w' ∧ ready w') (legal d) w.
Proof.
  intros Hne Hn Hg. destruct ids as [|id ids]; [done|]. apply wp_bind. quiet_step found.
  assert (ready w') as Hr by still_ready. apply wp_quiet; [done| |]; [|intros w1 E1; eexists; by eapply negotiating_core].
  intros [] w1 E1. assert (negotiating d s w1 ∧ ready w1) as [Hn1 Hr1] by (split; [by eapply negotiating_core|by eapply ready_core]).
  apply wp_quiet; [|intros; split; [by eapply negotiating_core|by eapply ready_core]|].
  - apply quiet_each. intros x. apply quiet_bind; auto with quiet.
  - intros w2 E2. exists s. by eapply negotiating_core.
Qed.

Lemma wp_forget ids d s w : negotiating d s w → ready w →
  wp (each forget ids : M unit) (λ _ w', negotiating d s w' ∧ ready w') (legal d) w.
Proof. intros Hn Hr. apply wp_each; [|done]. intros id w1 _ [Hn1 Hr1]. by eapply wp_set_own. Qed.

Lemma settles_stop_receiving ids : ids ≠ [] → settles "recv" (stop_receiving ids).
Proof.
  intros Hne s w Hn. apply wp_then_stable, wp_bind.
  eapply wp_mono; [|done|apply (wp_batch (λ _ t, read (transceiver_mid t) ≫= λ mid, close_section mid ≫= λ _, mret tt)); [done|done|by quiet]].
  intros ? w1 [Hn1 Hr1]. negotiation_step. by apply wp_forget.
Qed.
Lemma settles_stopReceiving d ids : ids ≠ [] → settles d (stopReceiving ids).
Proof.
  intros Hne. apply settles_receiving. intros -> s w Hn. apply wp_bind, wp_handler. case_match; [by left|]. by eapply settles_stop_receiving.
Qed.

Lemma settles_direction (dir : string) (set : string → RemoteSdp → outcome RemoteSdp) ids d : ids ≠ [] →
  settles d (assertNotClosed ≫= λ _, assertRecvDirection ≫= λ _,
    each (λ id, transceiver_of id ≫= λ t, browse (transceiver_setDirection t dir) ≫= λ _, on_sdp (set id)) ids ≫= λ _, offer_remote).
Proof.
  intros Hne. apply settles_guarded, settles_receiving. intros -> s w Hn. apply wp_bind.
  eapply wp_mono; [|done|apply (wp_batch (λ id t, browse (transceiver_setDirection t dir) ≫= λ _, on_sdp (set id))); [done|done|by quiet]].
  intros ? w3 [Hn3 Hr3]. negotiation_step.
Qed.

(** ** The other handlers *)

Abbreviation for_profile f := (f isSameProfile generateProfileLevelIdStringForAnswer).

Lemma settles_send_Chrome74 d o : settles d (for_profile Chrome74.send o).
Proof. apply settles_guarded, settles_sending. intros -> s w Hn. negotiate. Qed.

Lemma settles_send_Safari12 d o : settles d (for_profile Safari12.send o).
Proof. apply settles_guarded, settles_sending. intros -> s w Hn. negotiate. Qed.
Lemma settles_resumeSending_Safari12 d id : settles d (Safari12.resumeSending id).
Proof. apply settles_guarded, settles_sending. intros -> s w Hn. negotiate. Qed.

Lemma quiet_apply_encodings t l : quiet (Chrome70.apply_encodings t l : M unit).
Proof. unfold apply_encodings. quiet. Qed.
Hint Resolve quiet_apply_encodings : quiet.
Lemma settles_send_Chrome70 d o : settles d (for_profile Chrome70.send o).
Proof. apply settles_sending. intros -> s w Hn. negotiate. eapply wp_prefix; [by quiet|done|]. intros ? ? ? ? ?. negotiate. Qed.

Section ReactNative.
Context `{!ReactNativeBrowser B}.
Lemma settles_send_ReactNativeUnifiedPlan d o : settles d (for_profile ReactNativeUnifiedPlan.send o).
Proof. apply settles_guarded, settles_sending. intros -> s w Hn. negotiate. Qed.
End ReactNative.

(** Firefox never has a forced role. *)
Section Firefox.
Context `{!FirefoxBrowser B}.
Hypothesis Hforced : forced = None.
Lemma announced_client : announced forced (always_client : Handler Transceivers → string).
Proof. intros h _. by rewrite Hforced. Qed.
Hint Resolve announced_client : quiet.

Lemma settles_send_Firefox120 d o : settles d (for_profile Firefox120.send o).
Proof. apply settles_guarded, settles_sending. intros -> s w Hn. negotiate. Qed.
Lemma quiet_give_encodings t l : quiet (Firefox60.give_encodings t l : M unit).
Proof. unfold give_encodings. quiet. Qed.
Hint Resolve quiet_give_encodings : quiet.
Lemma settles_send_Firefox60 d o : settles d (for_profile Firefox60.send o).
Proof. apply settles_guarded, settles_sending. intros -> s w Hn. negotiate. eapply wp_prefix; [by quiet|done|]. intros ? ? ? ? ?. negotiate. Qed.
Lemma quiet_disable_section mid : quiet (Firefox120.disable_section mid : M unit).
Proof. unfold disable_section. quiet. Qed.
Hint Resolve quiet_disable_section : quiet.
Lemma settles_stopSending_Firefox d id : settles d (Firefox120.stopSending id).
Proof. apply settles_sending. intros -> s w Hn. apply wp_bind, wp_handler. case_match; [by left|]. negotiate. Qed.
End Firefox.
End Unified.
#[export] Hint Resolve quiet_tell_receivers quiet_replace_track quiet_sender_stats quiet_receiver_stats quiet_close : quiet.

(** ** The interface *)

(** The method of a handler for an operation. *)
Ltac method := lazy beta iota zeta delta [do_op Chrome111.createFactory Chrome74.createFactory ReactNativeUnifiedPlan.createFactory
    Safari12.createFactory Chrome70.createFactory Firefox120.createFactory Firefox60.createFactory m_close m_updateIceServers m_restartIce
    m_getTransportStats m_send m_stopSending m_pauseSending m_resumeSending m_replaceTrack m_setMaxSpatialLayer m_setRtpEncodingParameters
    m_getSenderStats m_sendDataChannel m_receive m_stopReceiving m_pauseReceiving m_resumeReceiving m_getReceiverStats m_receiveDataChannel].

Section Interface.
Context {B text : Type} `{!SdpText text} `{!Browser B text}.
Context (isSameProfile : jsval → jsval → bool) (generateProfileLevelIdStringForAnswer : jsval → jsval → outcome jsval).
Abbreviation M := (action (World Transceivers B text)).
Abbreviation for_profile f := (f isSameProfile generateProfileLevelIdStringForAnswer).
Abbreviation unified m role := (@Negotiator Transceivers B text _ _ m ∅ mapped role no_excuse).

Lemma not_mapped : ¬ mapped ∅.
Proof. by intros []. Qed.

(** [run] with its guard. *)
Lemma guarded_starts (m : M unit) forced d b : wp m (λ _ w, negotiating mapped forced d Stable w) (λ _, True) (new_World ∅ b) →
  wp (guarded m) (λ _ w, negotiating mapped forced d Stable w) (λ _, True) (new_World ∅ b).
Proof. intros H. by apply wp_bind, wp_bind, wp_handler, wp_lift. Qed.

Lemma unified_starts semantics o b :
  wp (run_with false semantics (force_role o) o) (λ _ w, negotiating mapped (role_of o) (ro_direction o) Stable w) (λ _, True)
    (new_World ∅ b : World Transceivers B text).
Proof. apply run_with_starts; [apply not_mapped|apply forces_role]. Qed.

Ltac calm := apply settles_guarded, settles_quiet; by auto with quiet.
Ltac data := apply settles_guarded, settles_sending; intros ->; apply settles_send_data_channel; by eauto with quiet.
Ltac data_back := apply settles_guarded, settles_receiving; intros ->; apply settles_receive_data_channel; by eauto with quiet.
Ltac batch := apply settles_guarded, settles_receiving; intros ->; apply settles_receive_batch; [by eauto with quiet|intros; by auto with quiet].
Ltac paused := by apply (settles_direction _ "inactive" pauseMediaSection).
Ltac resumed := by apply (settles_direction _ "recvonly" resumeReceivingMediaSection).
Ltac changed := apply settles_guarded, settles_change_encodings.
Ltac restarted := apply settles_guarded, settles_restart_ice.

(** The methods in the order of [handler_op], given those in which the handlers with a
    closed flag differ. *)
Ltac methods send stop resume servers stats close :=
  intros o d op Hb; destruct op; method; try apply settles_ignore;
  [ send | stop | apply settles_pauseSending | resume | calm | changed | changed | data | batch | by apply settles_stopReceiving | paused | resumed
  | data_back | restarted | servers | calm | calm | stats | close ].

#[export] Instance negotiator_Chrome111 : unified (for_profile Chrome111.createFactory) role_of.
Proof.
  split; [intros; apply guarded_starts, unified_starts|].
  methods ltac:(apply settles_send) ltac:(apply settles_stopSending) ltac:(apply settles_resumeSending) ltac:(calm) ltac:(calm)
    ltac:(apply settles_quiet, quiet_close).
Qed.

#[export] Instance negotiator_Chrome74 : unified (for_profile Chrome74.createFactory) role_of.
Proof.
  split; [intros o b; exact (unified_starts (Some "unified-plan") o b)|].
  methods ltac:(apply settles_send_Chrome74) ltac:(apply settles_stopSending) ltac:(apply settles_resumeSending) ltac:(calm) ltac:(calm)
    ltac:(apply settles_quiet, quiet_close).
Qed.

#[export] Instance negotiator_Safari12 : unified (for_profile Safari12.createFactory) role_of.
Proof.
  split; [intros; apply guarded_starts, unified_starts|].
  methods ltac:(apply settles_send_Safari12) ltac:(apply settles_stopSending) ltac:(apply settles_resumeSending_Safari12) ltac:(calm) ltac:(calm)
    ltac:(apply settles_quiet, quiet_close).
Qed.

#[export] Instance negotiator_ReactNativeUnifiedPlan `{!ReactNativeBrowser B} :
  unified (for_profile ReactNativeUnifiedPlan.createFactory) role_of.
Proof.
  split; [intros; apply guarded_starts, unified_starts|].
  methods ltac:(apply settles_send_ReactNativeUnifiedPlan) ltac:(apply settles_stopSending) ltac:(apply settles_resumeSending) ltac:(calm)
    ltac:(calm) ltac:(apply settles_quiet; unfold ReactNativeUnifiedPlan.close; by quiet).
Qed.

(** Chrome 70 has no guards. *)
#[export] Instance negotiator_Chrome70 : unified (for_profile Chrome70.createFactory) role_of.
Proof.
  split; [intros o b; exact (unified_starts (Some "unified-plan") o b)|]. intros o d op Hb; destruct op; method; try apply settles_ignore.
  - apply settles_send_Chrome70.
  - apply settles_sending. intros ->. apply settles_stop_sending.
  - by apply settles_quiet.
  - by apply settles_quiet.
  - apply settles_quiet, quiet_replace_track.
  - apply settles_change_encodings.
  - apply settles_change_encodings.
  - apply settles_sending. intros ->. apply settles_send_data_channel. eauto with quiet.
  - apply settles_receiving. intros ->. apply settles_receive_batch; [eauto with quiet|done].
  - apply settles_receiving. intros ->. by apply settles_stop_receiving.
  - by apply settles_quiet.
  - by apply settles_quiet.
  - apply settles_receiving. intros ->. apply settles_receive_data_channel. eauto with quiet.
  - apply settles_restart_ice.
  - apply settles_quiet, quiet_update_ice_servers.
  - apply settles_quiet, quiet_transport_stats.
  - apply settles_quiet, quiet_sender_stats.
  - apply settles_quiet, quiet_receiver_stats.
  - apply settles_quiet. unfold Chrome70.close. by quiet.
Qed.

Section Firefox.
Context `{!FirefoxBrowser B}.
Definition no_role (o : RunOptions) : option string := None.
Lemma announced_always : announced None (always_client : Handler Transceivers → string).
Proof. by apply announced_client. Qed.
Hint Resolve announced_always : quiet.
Lemma firefox_starts o b : wp (Firefox120.run o) (λ _ w, negotiating mapped None (ro_direction o) Stable w) (λ _, True)
  (new_World ∅ b : World Transceivers B text).
Proof. apply guarded_starts, run_with_starts; [apply not_mapped|apply forces_none]. Qed.

#[export] Instance negotiator_Firefox120 : unified (for_profile Firefox120.createFactory) no_role.
Proof.
  split; [intros; apply firefox_starts|].
  methods ltac:(by apply settles_send_Firefox120) ltac:(by apply settles_stopSending_Firefox) ltac:(apply settles_resumeSending_Safari12)
    ltac:(calm) ltac:(apply settles_quiet, quiet_receiver_stats) ltac:(apply settles_quiet, quiet_close).
Qed.
#[export] Instance negotiator_Firefox60 : unified (for_profile Firefox60.createFactory) no_role.
Proof.
  split; [intros; apply firefox_starts|].
  methods ltac:(by apply settles_send_Firefox60) ltac:(by apply settles_stopSending_Firefox) ltac:(apply settles_resumeSending_Safari12)
    ltac:(calm) ltac:(apply settles_quiet, quiet_receiver_stats) ltac:(apply settles_quiet, quiet_close).
Qed.
End Firefox.
End Interface.

(** The role the remote side forces on a handler. *)
Definition local_role (name : BuiltinHandlerName) (o : RunOptions) : option string :=
  match name with Device.Firefox120 | Device.Firefox60 => None | _ => role_of o end.

Section Unified.
Context {B text : Type} `{!SdpText text} `{!Browser B text} `{!ReactNativeBrowser B} `{!FirefoxBrowser B}.
Context (isSameProfile : jsval → jsval → bool) (generateProfileLevelIdStringForAnswer : jsval → jsval → outcome jsval).
Lemma unified_negotiator (name : BuiltinHandlerName) (m : Methods (World Transceivers B text)) :
  unified_plan isSameProfile generateProfileLevelIdStringForAnswer name = Some m → Negotiator m ∅ mapped (local_role name) no_excuse.
Proof. destruct name; intros [= <-]; apply _. Qed.
End Unified.
