(* ===== verification/PlanBProofs.v ===== *)
(** * What the plan B handlers do to any browser

    The four handlers are shown to be [Negotiator]s, so the runs of plan B handlers
    follow the states of the negotiation.  What differs from unified plan: when a
    track is taken back they ask the browser whether it is stable. *)

From Stdlib Require Import QArith.
From stdpp Require Import gmap.
From S2P Require Import Prelude JsNum JsVal JsConv JsString Ortc SdpUtils RemoteSdp Browser HandlerBase Device Handlers.
From S2P Require Import ReactNative Safari11 Chrome55 Chrome67 PlanBBase HandlerLogic.
Local Open Scope string_scope.
Local Open Scope list_scope.

Section PlanB.
Context {B text : Type} `{!SdpText text} `{!Browser B text} `{!PlanBBrowser B text}.
Context (isSameProfile : jsval → jsval → bool) (generateProfileLevelIdStringForAnswer : jsval → jsval → outcome jsval).
Abbreviation World := (World PlanBState B text).
Abbreviation M := (action World).

Implicit Types (d e id : string) (s : signalling) (w : World).

(** A handler with senders or consumers is in use. *)
Definition busy (x : PlanBState) : Prop := pb_sending x ≠ ∅ ∨ pb_receiving x ≠ ∅.
(** The browser says that it is stable. *)
Definition says_stable (w : World) : Prop :=
  ∃ p, h_pc (w_handler w) = Some p ∧ pc_signalingState p (w_browser w) = "stable".
Context (forced : option string).
Abbreviation negotiating := (negotiating busy forced).
Abbreviation legal := (legal busy forced).
Abbreviation settles := (settles busy forced says_stable).
Abbreviation for_profile f := (f isSameProfile generateProfileLevelIdStringForAnswer).

(** ** Quiet parts *)

Lemma quiet_own : quiet (own : M PlanBState).
Proof. unfold own. quiet. Qed.
Hint Resolve quiet_own : quiet.
Lemma quiet_sendStream : quiet (sendStream : M nat).
Proof. unfold sendStream. quiet. Qed.
Lemma quiet_sending_of e id : quiet (sending_of e id : M nat).
Proof. unfold sending_of. quiet. Qed.
Lemma quiet_track_in v id : quiet (track_in v id : M (nat * option nat)).
Proof. unfold track_in. quiet. Qed.
Lemma quiet_unsupported {A} e : quiet (unsupported e : M A).
Proof. done. Qed.
Lemma quiet_attach_track p n t : quiet (attach_track p n t : M unit).
Proof. unfold attach_track. quiet. Qed.
Lemma quiet_attach_stream p n t : quiet (attach_stream p n t : M unit).
Proof. unfold attach_stream. quiet. Qed.
Lemma quiet_keep_sender p t : quiet (keep_sender p t : M (option nat * option nat)).
Proof. unfold keep_sender. quiet. Qed.
Lemma quiet_keep_track p t : quiet (keep_track p t : M (option nat * option nat)).
Proof. done. Qed.
Lemma quiet_hack_stream v : quiet (hack_stream v : M jsval).
Proof. unfold hack_stream. quiet. Qed.
Hint Resolve quiet_sendStream quiet_sending_of quiet_track_in quiet_unsupported quiet_attach_track quiet_attach_stream
  quiet_keep_sender quiet_keep_track quiet_hack_stream : quiet.
Lemma quiet_detach_sender n : quiet (detach_sender n : M unit).
Proof. unfold detach_sender. quiet. Qed.
Lemma quiet_find_receiver m o : quiet (find_receiver m o : M (nat * option nat)).
Proof. unfold find_receiver. quiet. Qed.
Lemma quiet_find_track m o : quiet (find_track m o : M (nat * option nat)).
Proof. unfold find_track. quiet. Qed.
Lemma quiet_find_hacked m o : quiet (find_hacked m o : M (nat * option nat)).
Proof. unfold find_hacked. quiet. Qed.
Lemma quiet_close_handler : quiet (close_handler : M unit).
Proof. unfold close_handler. quiet. Qed.
Lemma quiet_change_parameters id f : quiet (change_parameters id f : M unit).
Proof. unfold change_parameters. quiet. Qed.
Lemma quiet_offer_track amend o : (∀ v, quiet (amend v : M jsval)) → quiet (offer_track amend o).
Proof. intros H. unfold offer_track. quiet. Qed.
Lemma quiet_replaceTrack id (track : option nat) : quiet (Chrome67.replaceTrack id track : M unit).
Proof. unfold Chrome67.replaceTrack. quiet. Qed.
Lemma quiet_setMaxSpatialLayer id n : quiet (Chrome67.setMaxSpatialLayer id n : M unit).
Proof. apply quiet_change_parameters. Qed.
Lemma quiet_setRtpEncodingParameters id v : quiet (Chrome67.setRtpEncodingParameters id v : M unit).
Proof. apply quiet_change_parameters. Qed.
Lemma quiet_getSenderStats id : quiet (Chrome67.getSenderStats id : M jsval).
Proof. unfold Chrome67.getSenderStats. quiet. Qed.
Lemma quiet_getReceiverStats id : quiet (Chrome67.getReceiverStats id : M jsval).
Proof. unfold Chrome67.getReceiverStats. quiet. Qed.
Hint Resolve quiet_detach_sender quiet_find_receiver quiet_find_track quiet_find_hacked quiet_close_handler quiet_change_parameters
  quiet_offer_track quiet_replaceTrack quiet_getSenderStats quiet_getReceiverStats : quiet.

(** ** Changes of the state *)

Lemma sending_ready e d s w id n : negotiating d s w → (sending_of e id w).1 = Ok n → ready w.
Proof.
  intros Hn H. apply (ng_map _ _ _ _ _ Hn). left. intros E. unfold sending_of, own, mbind, action_bind, handler, mret, action_ret, lift in H.
  cbn in H. by rewrite E, lookup_empty in H.
Qed.

Ltac found _ := repeat match goal with
  | H : (sending_of _ _ ?w).1 = Ok _, Hn : HandlerLogic.negotiating _ _ _ _ ?w |- _ => apply (sending_ready _ _ _ _ _ _ Hn) in H
  end.

Lemma wp_own {A} f (g : unit → M A) d s w Q E : negotiating d s w → ready w →
  (∀ w', negotiating d s w' → ready w' → wp (g tt) Q E w') → wp (set_own f ≫= g) Q E w.
Proof. intros Hn Hr Hf. apply wp_bind. by eapply wp_set_own. Qed.

Lemma wp_next_local_id {A} (g : string → M A) d s w Q E : negotiating d s w → ready w →
  (∀ id w', negotiating d s w' → ready w' → wp (g id) Q E w') → wp (next_local_id ≫= g) Q E w.
Proof. intros Hn Hr Hf. apply wp_bind, wp_bind, wp_bind, wp_handler, wp_ret. eapply wp_own; [done|done|]. intros w' ? ?. apply wp_ret, Hf; done. Qed.

Ltac negotiate := repeat first
  [progress negotiate_with found
  |eapply wp_own; [eassumption|still_ready|]; intros ? ? ?
  |eapply wp_next_local_id; [eassumption|still_ready|]; intros ? ? ? ?].

(** ** Sending *)

Lemma settles_send_track attach modes kept d o : (∀ p n t, quiet (attach p n t : M unit)) → (∀ p t, quiet (kept p t : M (option nat * option nat))) →
  settles d (for_profile send_track attach modes kept o).
Proof. intros Ha Hk. apply settles_sending. intros -> s w Hn. unfold forget_sending. negotiate. Qed.

Lemma wp_catch {A} (m : M A) h (Q : A → World → Prop) (E : World → Prop) w :
  wp m Q (λ w', ∀ e, wp (h e) Q E w') w → wp (catch m h) Q E w.
Proof. unfold wp, catch. destruct (m w) as [[a|e] w']; [done|]. intros H. apply H. Qed.

(** Whether the browser could not apply the offer, or has it. *)
Lemma wp_offer_or_ignore sdp s w : negotiating "send" s w → ready w →
  wp (catch (setLocalDescription Offer sdp ≫= λ _, mret false)
        (λ error, sendStream ≫= λ stream, read (stream_getTracks stream) ≫= λ tracks,
                  match tracks with [] => mret true | _ => lift (Throw error) end) : M bool)
     (λ expected w', if expected then negotiating "send" s w' else negotiating "send" HaveLocalOffer w' ∧ ready w') (legal "send") w.
Proof.
  intros Hn Hr. apply wp_catch, wp_bind.
  eapply (wp_mono _ (λ _ w', negotiating "send" HaveLocalOffer w' ∧ ready w') _ (λ w', negotiating "send" s w')); [| |by apply wp_local_offer_kept].
  - intros _ w' H. by apply wp_ret.
  - intros w' Hn' e. do 2 (quiet_step ltac:(fun _ => idtac)). case_match; [by apply wp_ret|]. by exists s.
Qed.

Lemma settles_renegotiate s w : negotiating "send" s w → ready w →
  wp (renegotiate : M unit) (λ _ w', negotiating "send" s w' ∨ negotiating "send" Stable w' ∨ legal "send" w' ∧ says_stable w') (legal "send") w.
Proof.
  intros Hn Hr. quiet_step found. apply wp_bind. eapply wp_mono; [|done|by apply wp_offer_or_ignore]. intros [] w1 Hw; [by left|].
  destruct Hw as [Hn1 Hr1]. apply wp_bind, wp_bind, wp_handler, wp_lift; [|by eexists]. intros p Hp.
  apply wp_bind, wp_read. destruct (String.eqb _ _) eqn:E; [|by negotiate]. apply wp_ret. right; right. split; [by eexists|].
  exists p. split; [|by apply String.eqb_eq]. by destruct (h_pc _); simplify_eq.
Qed.
Ltac renegotiated := unfold forget_sending; repeat first [apply settles_renegotiate; [done|still_ready]|quiet_step found
  |eapply wp_own; [eassumption|still_ready|]; intros ? ? ?].

Lemma settles_stopSending_Chrome67 d id : settles d (Chrome67.stopSending id).
Proof. apply settles_sending. intros -> s w Hn. renegotiated. Qed.
Lemma settles_stopSending_Safari11 d id : settles d (Safari11.stopSending id).
Proof. apply settles_sending. intros -> s w Hn. renegotiated. Qed.
Lemma settles_stopSending_Chrome55 d id : settles d (Chrome55.stopSending id).
Proof. apply settles_sending. intros -> s w Hn. renegotiated. Qed.

(** ** Receiving *)

Lemma settles_receive_tracks amend found d l : (∀ v, quiet (amend v : M jsval)) → (∀ m o, quiet (found m o : M (nat * option nat))) →
  settles d (receive_tracks amend found l).
Proof.
  intros Ha Hf. apply settles_receiving. intros -> s w Hn. negotiate. apply wp_then_stable.
  apply (wp_collect _ (λ w, negotiating "recv" Stable w ∧ ready w)); [|done]. intros o ? [? ?]. unfold keep_consumer. negotiate.
  by apply wp_ret.
Qed.

(** A consumer is known when it is taken out. *)
Lemma wp_stop_tracks ids d s w : negotiating d s w → ids ≠ [] ∨ ready w →
  wp (each stop_track ids : M unit) (λ _ w', negotiating d s w' ∧ ready w') (legal d) w.
Proof.
  revert w. induction ids as [|id ids IH]; intros w Hn Hr; [by destruct Hr|]. apply wp_bind, wp_bind, wp_bind, wp_handler, wp_ret, wp_bind.
  destruct (pb_receiving _ !! id) as [i|] eqn:Ei.
  - assert (ready w) as Hw. { apply (ng_map _ _ _ _ _ Hn). right. intros E. by rewrite E, lookup_empty in Ei. }
    eapply wp_set_own; [done|done|]. intros w1 Hn1 Hr1. apply wp_quiet; [apply quiet_on_sdp| |]; [|intros ? ?; eexists; by eapply negotiating_core].
    intros _ w2 E2. apply IH; [by eapply negotiating_core|right; by eapply ready_core].
  - eapply (wp_set_own_smaller _ _ _ d s); [done| |intros w1 Hn1 _; by exists s]. intros [] [H|H]; [by left|right]. cbn in *. intros ->.
    by rewrite delete_empty in H.
Qed.
Lemma settles_stopReceiving_Chrome67 d ids : ids ≠ [] → settles d (Chrome67.stopReceiving ids).
Proof.
  intros Hne. apply settles_receiving. intros -> s w Hn. apply wp_bind. eapply wp_mono; [|done|apply wp_stop_tracks; by auto].
  intros _ w1 [Hn1 Hr1]. negotiate.
Qed.

Lemma settles_data d o old : settles d (assertSendDirection ≫= λ _, send_data_channel old Chrome111.SCTP_NUM_STREAMS_MIS forced_or_client o).
Proof. apply settles_sending. intros ->. apply settles_send_data_channel. eauto with quiet. Qed.
Lemma settles_data_back d old st l p :
  settles d (assertRecvDirection ≫= λ _, receive_data_channel old true forced_or_client st l p).
Proof. apply settles_receiving. intros ->. apply settles_receive_data_channel. eauto with quiet. Qed.
End PlanB.
#[export] Hint Resolve quiet_replaceTrack quiet_setMaxSpatialLayer quiet_setRtpEncodingParameters quiet_getSenderStats quiet_getReceiverStats quiet_unsupported
  quiet_close_handler quiet_sendStream quiet_attach_track quiet_attach_stream quiet_keep_sender quiet_keep_track quiet_hack_stream
  quiet_find_receiver quiet_find_track quiet_find_hacked : quiet.

(** ** The interface *)

(** The method of a handler for an operation. *)
Ltac method := lazy beta iota zeta delta [do_op Chrome67.createFactory Chrome55.createFactory Safari11.createFactory
    ReactNative.createFactory m_close m_updateIceServers m_restartIce
    m_getTransportStats m_send m_stopSending m_pauseSending m_resumeSending m_replaceTrack m_setMaxSpatialLayer m_setRtpEncodingParameters
    m_getSenderStats m_sendDataChannel m_receive m_stopReceiving m_pauseReceiving m_resumeReceiving m_getReceiverStats m_receiveDataChannel].

Section Interface.
Context {B text : Type} `{!SdpText text} `{!Browser B text} `{!PlanBBrowser B text}.
Context (isSameProfile : jsval → jsval → bool) (generateProfileLevelIdStringForAnswer : jsval → jsval → outcome jsval).
Abbreviation for_profile f := (f isSameProfile generateProfileLevelIdStringForAnswer).
Abbreviation planB m stream := (@Negotiator PlanBState B text _ _ m (new_PlanBState stream) busy role_of says_stable).

Lemma not_busy stream : ¬ busy (new_PlanBState stream).
Proof. by intros [[]|[]]. Qed.
Lemma planB_starts semantics stream o b :
  wp (run_with true semantics (force_role o) o) (λ _ w, negotiating busy (role_of o) (ro_direction o) Stable w) (λ _, True)
    (new_World (new_PlanBState stream) b : World PlanBState B text).
Proof. apply run_with_starts; [apply not_busy|apply forces_role]. Qed.

Ltac calm := apply settles_quiet; by auto with quiet.
Ltac methods stop := intros o d op Hb; destruct op; method; try apply settles_ignore;
  [ apply settles_send_track; intros; by auto with quiet | stop | calm | calm | calm | calm | calm | apply settles_data
  | apply settles_receive_tracks; intros; by auto with quiet | by apply settles_stopReceiving_Chrome67 | calm | calm | apply settles_data_back
  | apply settles_restart_ice | calm | calm | calm | calm | calm ].

#[export] Instance negotiator_Chrome67 stream : planB (for_profile Chrome67.createFactory) stream.
Proof. split; [intros o b; exact (planB_starts (Some "plan-b") stream o b)|]. methods ltac:(apply settles_stopSending_Chrome67). Qed.
#[export] Instance negotiator_Safari11 stream : planB (for_profile Safari11.createFactory) stream.
Proof. split; [intros o b; exact (planB_starts None stream o b)|]. methods ltac:(apply settles_stopSending_Safari11). Qed.
#[export] Instance negotiator_Chrome55 stream : planB (for_profile Chrome55.createFactory) stream.
Proof. split; [intros o b; exact (planB_starts (Some "plan-b") stream o b)|]. methods ltac:(apply settles_stopSending_Chrome55). Qed.
Lemma quiet_close_ReactNative : quiet (ReactNative.close : action (World PlanBState B text) unit).
Proof. unfold ReactNative.close. quiet. Qed.
Hint Resolve quiet_close_ReactNative : quiet.
#[export] Instance negotiator_ReactNative stream : planB (for_profile ReactNative.createFactory) stream.
Proof. split; [intros o b; exact (planB_starts (Some "plan-b") stream o b)|]. methods ltac:(apply settles_stopSending_Chrome55). Qed.

Lemma plan_b_negotiator stream (name : BuiltinHandlerName) m : for_profile plan_b name = Some m → planB m stream.
Proof. destruct name; intros [= <-]; apply _. Qed.
End Interface.
