(* ===== verification/HandlerRuns.v ===== *)
(** * Runs of handlers

    What holds of every run of a handler whose methods do not overlap, whatever the
    browser answers and the listeners reject: the discipline of its negotiation, and
    the one connection of its transport.  The theorems are about any handler a device
    can create, Edge 11 apart; they follow from the interface [Negotiator].  The
    transport lets two methods overlap after a [produce] that failed
    (Transport.js:359): [overlapping_negotiations_illegal]. *)

From Stdlib Require Import QArith.
From stdpp Require Import gmap.
From S2P Require Import Prelude JsNum JsVal Browser HandlerBase Device Handlers HandlerLogic HandlerProofs PlanBBase PlanBProofs.
Local Open Scope string_scope.
Local Open Scope list_scope.

Section Runs.
Context {B text : Type} `{!SdpText text} `{!Browser B text} `{!ReactNativeBrowser B} `{!FirefoxBrowser B} `{!PlanBBrowser B text}.
Context (isSameProfile : jsval → jsval → bool) (generateProfileLevelIdStringForAnswer : jsval → jsval → outcome jsval).
Abbreviation factory := (factory isSameProfile generateProfileLevelIdStringForAnswer).
Abbreviation Factory := (Factory B text).

Implicit Types (name : BuiltinHandlerName) (f : Factory) (o : RunOptions) (b : B) (ops : list handler_op).

(** A new handler that is run. *)
Definition launch f o b : outcome unit * World (f_State f) B text := m_run _ (f_methods f) o (new_World (f_own f) b).

(** The older handlers ask the browser whether it is stable. *)
Definition asks_browser name : bool :=
  match name with Device.Chrome67 | Device.Chrome55 | Device.Safari11 | Device.ReactNative => true | _ => false end.
Definition stable_by_browser {X} (w : World X B text) : Prop :=
  ∃ p, h_pc (w_handler w) = Some p ∧ pc_signalingState p (w_browser w) = "stable".

(** The two kinds of handlers are negotiators. *)
Lemma factory_negotiator stream name f : factory stream name = Some f →
  ∃ in_use excuse, Negotiator (f_methods f) (f_own f) in_use (local_role name) excuse ∧
    ∀ w, excuse w → asks_browser name = true ∧ stable_by_browser w.
Proof.
  unfold Handlers.factory. destruct (unified_plan _ _ name) as [m|] eqn:Em.
  - intros [= <-]. exists mapped, no_excuse. split; [by eapply unified_negotiator|done].
  - destruct (plan_b _ _ name) as [m|] eqn:Eb; [|done]. intros [= <-]. exists busy, says_stable.
    assert (local_role name = role_of ∧ asks_browser name = true) as [-> ->] by (by destruct name).
    split; [by eapply plan_b_negotiator|done].
Qed.

(** C16: as long as its methods do not overlap, a handler drives its peer connection
    through the states of the negotiation as the recommendation allows, whatever the
    browser answers and the listeners reject: no description is applied or answer
    created in a state that forbids it, a sending handler never has a remote offer
    and a receiving one never a local offer, and a method that returns leaves a
    stable connection stable; the handlers for plan B may also take the browser's
    word for that.  The condition is the transport's duty, and it keeps to it except
    for the [stopSending] of a failed [produce]; the discipline is lost then. *)
Theorem signalling_legal stream name f o b ops : factory stream name = Some f → (launch f o b).1 = Ok tt → Forall batch_ok ops →
  let w := after_ops (f_methods f) ops (launch f o b).2 in
  (∃ s, signals Stable (w_log w) = Some s ∧ on_side (ro_direction o) s) ∧
  (∀ op w', batch_ok op → do_op (f_methods f) op w = (Ok tt, w') → signals Stable (w_log w) = Some Stable →
     signals Stable (w_log w') = Some Stable ∨ asks_browser name = true ∧ stable_by_browser w').
Proof.
  intros (in_use & excuse & Hm & Hx)%factory_negotiator Hrun Hb w. destruct (runs_legal (f_methods f) o b ops Hrun Hb) as [H1 H2].
  split; [done|]. intros op w' Hop Hdo Hs. destruct (H2 op w' Hop Hdo Hs); auto.
Qed.

(** *** Methods that overlap *)

(** The first half of [offer_and_answer], up to the point where the remote
    description is written. *)
Definition make_offer {X} (iceRestart : bool) : action (World X B text) unit :=
  offer ← createOffer iceRestart; setLocalDescription Offer offer.

Lemma offer_and_answer_halves {X} r (w : World X B text) :
  offer_and_answer r w = (_ ← make_offer r; apply_remote Answer) w.
Proof.
  unfold offer_and_answer, make_offer, mbind, action_bind. by destruct (createOffer r w) as [[offer|e] w1].
Qed.

Lemma make_offer_log {X} r (w w' : World X B text) : make_offer r w = (Ok tt, w') →
  ∃ sdp, w_log w' = w_log w ++ [LocalDescription Offer sdp true].
Proof.
  unfold make_offer, createOffer, setLocalDescription, pc, handler, logged, browse, mbind, action_bind, lift, mret, action_ret.
  intros H. repeat case_match; simplify_eq; cbn; eauto.
Qed.

Lemma apply_remote_log {X} type (w w' : World X B text) (r : outcome unit) : apply_remote type w = (r, w') →
  w_log w' = w_log w ∨ ∃ a, w_log w' = w_log w ++ [RemoteDescription type a (is_ok r)].
Proof.
  unfold apply_remote, with_sdp, setRemoteDescription, pc, handler, logged, mbind, action_bind, lift, mret, action_ret.
  intros H. repeat case_match; simplify_eq; cbn; eauto.
Qed.

(** Two negotiations of a stable connection, the second of which starts before the
    first one has applied its answer: when the last answer reaches the browser, it
    does so in a state that forbids it. *)
Theorem overlapping_negotiations_illegal {X} r r' (w w1 w2 w3 w4 : World X B text) (result : outcome unit) :
  signals Stable (w_log w) = Some Stable →
  make_offer r w = (Ok tt, w1) → make_offer r' w1 = (Ok tt, w2) → apply_remote Answer w2 = (Ok tt, w3) →
  apply_remote Answer w3 = (result, w4) → w_log w3 ≠ w_log w2 → w_log w4 ≠ w_log w3 →
  signals Stable (w_log w3) = Some Stable ∧ signals Stable (w_log w4) = None.
Proof.
  intros Hs (o1 & E1)%make_offer_log (o2 & E2)%make_offer_log [?|(a1 & E3)]%apply_remote_log [?|(a2 & E4)]%apply_remote_log H1 H2; try done.
  rewrite E4, E3, E2, E1, !signals_app, Hs. done.
Qed.

End Runs.
