(* ===== verification/Jsep.v ===== *)
(** * What browsers promise about negotiations

    The rules of RFC 8829 (JSEP) for the media sections of the descriptions of a
    peer connection, as an interface: an abstract state of the connection, how the
    calls change it, and which sections offers have.  The theorems about the
    handlers are proved against it. *)

From stdpp Require Import gmap.
From S2P Require Import Prelude JsNum JsVal JsConv JsString OrtcValidate Ortc SdpUtils Browser.
Local Open Scope string_scope.
Local Open Scope list_scope.

(** ** Sections *)

(** A media section: its identifier, its transceiver (none for data channels), and
    whether both sides have rejected it, so that it may be recycled. *)
Record line := { ln_mid : string; ln_transceiver : option nat; ln_zero : bool }.

Definition is_app (l : line) : bool := match ln_transceiver l with None => true | Some _ => false end.

Record JsepState := {
  (** The sections of the last description both sides have applied. *)
  j_lines : list line;
  (** Transceivers without a section, oldest first. *)
  j_new : list nat;
  (** Whether the next offer needs a section for data channels. *)
  j_app : bool;
  j_stopped : gset nat;
  (** The sections of a local offer that waits for its answer. *)
  j_pending : option (list line);
}.

Definition jsep_empty : JsepState := {| j_lines := []; j_new := []; j_app := false; j_stopped := ∅; j_pending := None |}.
Definition add_new (t : nat) (j : JsepState) : JsepState :=
  {| j_lines := j_lines j; j_new := j_new j ++ [t]; j_app := j_app j; j_stopped := j_stopped j; j_pending := j_pending j |}.
Definition want_app (j : JsepState) : JsepState :=
  {| j_lines := j_lines j; j_new := j_new j; j_app := j_app j || negb (existsb is_app (j_lines j)); j_stopped := j_stopped j;
     j_pending := j_pending j |}.
Definition stop (t : nat) (j : JsepState) : JsepState :=
  {| j_lines := j_lines j; j_new := j_new j; j_app := j_app j; j_stopped := {[t]} ∪ j_stopped j; j_pending := j_pending j |}.

(** ** Offers and answers *)

(** A new transceiver takes the first section that may be recycled, or a new one. *)
Fixpoint recycle_line (mid : string) (t : nat) (ls : list line) : list line :=
  match ls with
  | [] => [{| ln_mid := mid; ln_transceiver := Some t; ln_zero := false |}]
  | l :: ls => if ln_zero l then {| ln_mid := mid; ln_transceiver := Some t; ln_zero := false |} :: ls else l :: recycle_line mid t ls
  end.
Definition place (ls : list line) (new : list (string * nat)) : list line := foldl (λ ls e, recycle_line e.1 e.2 ls) ls new.

Definition app_line (mid : string) : line := {| ln_mid := mid; ln_transceiver := None; ln_zero := false |}.

(** Identifiers are tokens. *)
Definition is_token (s : string) : bool :=
  negb (String.eqb s "") && forallb (λ c, let n := Ascii.nat_of_ascii c in (33 <=? n)%nat && (n <=? 126)%nat) (chars s).

(** The sections of an offer in a state: new identifiers are fresh tokens, and the
    section of the data channels comes last. *)
Definition is_offer (j : JsepState) (ls : list line) : Prop :=
  ∃ mids app, length mids = length (j_new j) ∧ NoDup (app :: mids) ∧
    Forall (λ m, is_token m = true ∧ m ∉ map ln_mid (j_lines j)) (app :: mids) ∧
    ls = place (j_lines j) (zip mids (j_new j)) ++ (if j_app j then [app_line app] else []).

Definition offered_state (ls : list line) (j : JsepState) : JsepState :=
  {| j_lines := j_lines j; j_new := []; j_app := false; j_stopped := j_stopped j; j_pending := Some ls |}.

(** A section is rejected when its transceiver is stopped and the answer closes it. *)
Definition answered_line (stopped : gset nat) (l : line) (closed : bool) : line :=
  {| ln_mid := ln_mid l; ln_transceiver := ln_transceiver l;
     ln_zero := closed && match ln_transceiver l with Some t => bool_decide (t ∈ stopped) | None => false end |}.
Definition answered_state (ls : list line) (closed : list bool) (j : JsepState) : JsepState :=
  {| j_lines := zip_with (answered_line (j_stopped j)) ls closed; j_new := j_new j; j_app := j_app j; j_stopped := j_stopped j;
     j_pending := None |}.

(** ** Descriptions *)

(** The identifiers of the sections of a description, and whether they are closed. *)
Definition ids_of (sdp : jsval) : list (string * bool) :=
  map (λ m, (js_to_string (js_get m "mid"), strict_eq (js_get m "port") (js_int 0))) (elements (js_get sdp "media")).

(** A parsed offer has these sections. *)
Definition describes (sdp : jsval) (ls : list line) : Prop :=
  ∃ media, js_get sdp "media" = JArr media ∧
  Forall2 (λ m l, js_to_string (js_get m "mid") = ln_mid l ∧ is_str (js_get m "type") "application" = is_app l ∧ is_nullish m = false) media ls.

(** ** The interface *)

Class JsepBrowser (B text : Type) `{!SdpText text} `{!Browser B text} := {
  jsep : nat → B → JsepState;
  (** The sections of an offer the browser has written. *)
  offered : text → list line;
  (** Writing and parsing keeps the identifiers and the closed sections. *)
  sdp_written o : Forall (λ e, is_token e.1 = true) (ids_of o) → ∃ o', sdp_parse (sdp_write o) = Ok o' ∧ ids_of o' = ids_of o;
  (** The sections do not depend on the SSRC lines of the text, which handlers of
      older browsers rewrite. *)
  offered_rewritten o sdp media i m m' : sdp_parse o = Ok sdp → js_get sdp "media" = JArr media → media !! i = Some m →
    (∀ k, k ≠ "ssrcs" → k ≠ "ssrcGroups" → js_get m' k = js_get m k) →
    offered (sdp_write (js_set sdp "media" (JArr (<[i := m']> media)))) = offered o;
  jsep_new c k b p b' : new_RTCPeerConnection c k b = (Ok p, b') → jsep p b' = jsep_empty;
  jsep_addTransceiver p src dir enc b t b' : pc_addTransceiver p src dir enc b = (Ok t, b') →
    jsep p b' = add_new t (jsep p b) ∧ t ∉ j_new (jsep p b) ∧ t ∉ j_stopped (jsep p b) ∧
    ∀ l, l ∈ j_lines (jsep p b) → ln_transceiver l ≠ Some t;
  jsep_createDataChannel p label options b c b' : pc_createDataChannel p label options b = (Ok c, b') →
    jsep p b' = want_app (jsep p b);
  jsep_createOffer p r b o b' : j_pending (jsep p b) = None → pc_createOffer p r b = (Ok o, b') →
    jsep p b' = jsep p b ∧ is_offer (jsep p b) (offered o) ∧ ∀ sdp, sdp_parse o = Ok sdp → describes sdp (offered o);
  jsep_setLocal p o b b' : j_pending (jsep p b) = None → is_offer (jsep p b) (offered o) →
    pc_setLocalDescription p Offer o b = (Ok tt, b') → jsep p b' = offered_state (offered o) (jsep p b);
  (** While an offer waits for its answer it is the local description. *)
  jsep_local p b ls sdp obj : j_pending (jsep p b) = Some ls → pc_localDescription p b = Ok sdp → sdp_parse sdp = Ok obj → describes obj ls;
  jsep_setRemote p a b b' ls sdp : j_pending (jsep p b) = Some ls → sdp_parse a = Ok sdp →
    (ids_of sdp).*1 = ln_mid <$> ls → pc_setRemoteDescription p Answer a b = (Ok tt, b') →
    jsep p b' = answered_state ls (ids_of sdp).*2 (jsep p b);
  (** [stop] only fails on a closed connection. *)
  jsep_stop p b l t : l ∈ j_lines (jsep p b) → ln_transceiver l = Some t →
    (transceiver_stop t b).1 = Ok tt ∧ jsep p (transceiver_stop t b).2 = stop t (jsep p b);
  (** The section of a running transceiver gives it its identifier. *)
  jsep_mid p b l t : let ls := default (j_lines (jsep p b)) (j_pending (jsep p b)) in
    l ∈ ls → ln_transceiver l = Some t → (∀ l', l' ∈ ls → ln_transceiver l' = Some t → ln_mid l' = ln_mid l) →
    t ∉ j_stopped (jsep p b) → transceiver_mid t b = Some (ln_mid l);
  (** The other calls of a sender, and the listeners, do not change the sections. *)
  calm_removeTrack q p t b : jsep q (pc_removeTrack p t b).2 = jsep q b;
  calm_replaceTrack q t x b : jsep q (sender_replaceTrack t x b).2 = jsep q b;
  calm_setDirection q t d b : jsep q (transceiver_setDirection t d b).2 = jsep q b;
  calm_getParameters q t b : jsep q (sender_getParameters t b).2 = jsep q b;
  calm_setParameters q t x b : jsep q (sender_setParameters t x b).2 = jsep q b;
  calm_getConfiguration q p b : jsep q (pc_getConfiguration p b).2 = jsep q b;
  calm_setConfiguration q p x b : jsep q (pc_setConfiguration p x b).2 = jsep q b;
  calm_getStats q p b : jsep q (pc_getStats p b).2 = jsep q b;
  calm_getSenderStats q t b : jsep q (sender_getStats t b).2 = jsep q b;
  calm_connect q d b : jsep q (emit_connect d b).2 = jsep q b;
  calm_onRtpSender q t b : jsep q (call_onRtpSender t b).2 = jsep q b;
}.

(** ** Sections of offers *)

Definition line_view (l : line) : string * bool := (ln_mid l, ln_zero l).

Lemma is_offer_idle j ls : j_new j = [] → j_app j = false → is_offer j ls → ls = j_lines j.
Proof.
  intros Hn Ha (mids & app & Hlen & _ & _ & ->). rewrite Hn in *. destruct mids; [|done]. rewrite Ha. apply app_nil_r.
Qed.

(** One new transceiver. *)
Lemma is_offer_one j t ls : j_new j = [t] → j_app j = false → is_offer j ls →
  ∃ mid, is_token mid = true ∧ mid ∉ map ln_mid (j_lines j) ∧ ls = recycle_line mid t (j_lines j).
Proof.
  intros Hn Ha (mids & app & Hlen & _ & Hf & ->). rewrite Hn, Ha in *. destruct mids as [|m [|? ?]]; try done.
  apply Forall_cons in Hf as [_ Hf]. apply Forall_cons in Hf as [[H1 H2] _]. exists m. split_and!; [done|done|]. by rewrite app_nil_r.
Qed.

(** A section for data channels. *)
Lemma is_offer_app j ls : j_new j = [] → j_app j = true → is_offer j ls →
  ∃ mid, is_token mid = true ∧ mid ∉ map ln_mid (j_lines j) ∧ ls = j_lines j ++ [app_line mid].
Proof.
  intros Hn Ha (mids & app & Hlen & _ & Hf & ->). rewrite Hn, Ha in *. destruct mids; [|done].
  apply Forall_cons in Hf as [[H1 H2] _]. by exists app.
Qed.

(** Where the new section is. *)
Lemma recycle_line_cases mid t ls :
  (∃ i l, ls !! i = Some l ∧ ln_zero l = true ∧ (∀ k l', (k < i)%nat → ls !! k = Some l' → ln_zero l' = false) ∧
     recycle_line mid t ls = <[i := {| ln_mid := mid; ln_transceiver := Some t; ln_zero := false |}]> ls) ∨
  (∀ l, l ∈ ls → ln_zero l = false) ∧ recycle_line mid t ls = ls ++ [{| ln_mid := mid; ln_transceiver := Some t; ln_zero := false |}].
Proof.
  induction ls as [|l ls IH]; cbn; [right; split; [|done]; intros l Hl; by apply elem_of_nil in Hl|].
  destruct (ln_zero l) eqn:El.
  - left. exists 0%nat, l. split_and!; [done|done|lia|done].
  - destruct IH as [(i & l' & H1 & H2 & H3 & H4)|[H1 H2]].
    + left. exists (S i), l'. split_and!; [done|done| |by rewrite H4]. intros [|k] l'' Hk; cbn; [by intros [= <-]|]. apply H3. lia.
    + right. split; [|by rewrite H2]. intros l' [-> |Hl']%elem_of_cons; auto.
Qed.
