(* ===== verification/JsepProofs.v ===== *)
(** * Negotiations that match

    A handler that sends against a browser that follows the rules of [Jsep]: the
    sections of the remote description stay those of the browser. *)

From Stdlib Require Import QArith.
From stdpp Require Import gmap.
From S2P Require Import Prelude JsNum JsVal JsConv JsString OrtcValidate Ortc SdpUtils MediaSection RemoteSdp RemoteSdpProofs.
From S2P Require Import Browser HandlerBase Chrome111 HandlerLogic HandlerProofs Jsep.
Local Open Scope string_scope.
Local Open Scope list_scope.

(** ** Sections and the view of the remote description *)

(** [sound ls v stopped m a]: the view [v] has the identifiers of the lines [ls], what
    it closes is stopped, transceivers are in one section each, those of the map
    [m] are running and are stored under the identifier of their section, and [a]
    tells whether there is a section for data channels. *)
Record sound (ls : list line) (v : list (string * bool)) (stopped : gset nat) (m : gmap (option string) nat) (a : bool) : Prop := {
  so_mids : v.*1 = ln_mid <$> ls;
  so_closed i l mid : ls !! i = Some l → v !! i = Some (mid, true) → ∃ t, ln_transceiver l = Some t ∧ t ∈ stopped;
  so_once i k l l' t : ls !! i = Some l → ls !! k = Some l' → ln_transceiver l = Some t → ln_transceiver l' = Some t → i = k;
  so_map k t : m !! k = Some t → t ∉ stopped ∧ ∃ i l, ls !! i = Some l ∧ ln_transceiver l = Some t ∧ k = Some (ln_mid l);
  so_app : a = true ↔ ∃ i l, ls !! i = Some l ∧ ln_transceiver l = None;
  so_tokens : Forall (λ s, is_token s = true) v.*1;
}.

Lemma sound_length ls v S m a : sound ls v S m a → length v = length ls.
Proof. intros H. by rewrite <-(length_fmap fst v), (so_mids _ _ _ _ _ H), length_fmap. Qed.

Lemma sound_unique ls v S m a i l t : sound ls v S m a → ls !! i = Some l → ln_transceiver l = Some t →
  ∀ l', l' ∈ ls → ln_transceiver l' = Some t → ln_mid l' = ln_mid l.
Proof.
  intros Hs Hi Hl l' (k & Hk)%list_elem_of_lookup Hl'. assert (k = i) as -> by (by eapply so_once). congruence.
Qed.

(** The lines after the answer. *)
Lemma answered_lookup S ls (v : list (string * bool)) i : length v = length ls →
  zip_with (answered_line S) ls v.*2 !! i = (λ l, answered_line S l (default false (v.*2 !! i))) <$> ls !! i.
Proof.
  intros Hlen. rewrite lookup_zip_with. destruct (ls !! i) as [l|] eqn:El; [|done]. cbn.
  destruct (lookup_lt_is_Some_2 v.*2 i) as [c ->]; [|done]. rewrite length_fmap, Hlen. by eapply lookup_lt_Some.
Qed.

Lemma answered_sound ls v S m a : sound ls v S m a →
  let ls' := zip_with (answered_line S) ls v.*2 in sound ls' v S m a ∧ line_view <$> ls' = v.
Proof.
  intros Hs ls'. pose proof (sound_length _ _ _ _ _ Hs) as Hlen.
  assert (∀ i l', ls' !! i = Some l' → ∃ l c, ls !! i = Some l ∧ v.*2 !! i = Some c ∧ l' = answered_line S l c) as Hback.
  { intros i l' H. unfold ls' in H. rewrite lookup_zip_with in H. destruct (ls !! i) as [l|]; [|done]. cbn in H.
    destruct (v.*2 !! i) as [c|]; [|done]. cbn in H. injection H as <-. by eexists _, _. }
  assert (∀ i l, ls !! i = Some l → ∃ l', ls' !! i = Some l' ∧ ln_mid l' = ln_mid l ∧ ln_transceiver l' = ln_transceiver l) as Hforth.
  { intros i l H. unfold ls'. rewrite answered_lookup by done. rewrite H. by eexists. }
  assert (ln_mid <$> ls' = ln_mid <$> ls) as Em.
  { apply list_eq. intros i. rewrite !list_lookup_fmap. unfold ls'. rewrite answered_lookup by done. by destruct (ls !! i). }
  destruct Hs as [H1 H2 H3 H4 H5 H6]. split; [split|].
  - by rewrite Em.
  - intros i l' mid Hl' Hv. destruct (Hback _ _ Hl') as (l & c & Hl & _ & ->). cbn. by eapply H2.
  - intros i k l1 l2 t Hl1 Hl2 T1 T2. destruct (Hback _ _ Hl1) as (l1' & c1 & Hl1' & _ & ->).
    destruct (Hback _ _ Hl2) as (l2' & c2 & Hl2' & _ & ->). by eapply H3.
  - intros k t Hk. destruct (H4 k t Hk) as (Ht & i & l & Hl & Hlt & ->). destruct (Hforth _ _ Hl) as (l' & Hl' & <- & E).
    split; [done|]. exists i, l'. by rewrite E.
  - rewrite H5. split; intros (i & l & Hl & Hn).
    + destruct (Hforth _ _ Hl) as (l' & Hl' & _ & E). exists i, l'. by rewrite E.
    + destruct (Hback _ _ Hl) as (l' & c & Hl' & _ & ->). by exists i, l'.
  - done.
  - apply list_eq. intros i. rewrite list_lookup_fmap. unfold ls'. rewrite answered_lookup by done. rewrite list_lookup_fmap.
    destruct (ls !! i) as [l|] eqn:El; cbn.
    + assert (v.*1 !! i = Some (ln_mid l)) as Hm by (by rewrite H1, list_lookup_fmap, El). rewrite list_lookup_fmap in Hm.
      destruct (v !! i) as [[mid c]|] eqn:Ev; [|done]. injection Hm as ->. cbn. unfold line_view. cbn. do 2 f_equal.
      destruct c; [|done]. destruct (H2 _ _ _ El Ev) as (t & -> & Ht). by rewrite bool_decide_true.
    + symmetry. apply lookup_ge_None. rewrite Hlen. by apply lookup_ge_None.
Qed.

(** A handler at rest: nothing waits for a negotiation. *)
Definition settled (v : list (string * bool)) (j : JsepState) (m : gmap (option string) nat) (a : bool) : Prop :=
  sound (j_lines j) v (j_stopped j) m a ∧ line_view <$> j_lines j = v ∧ j_new j = [] ∧ j_app j = false ∧ j_pending j = None.

(** ** Changes of the sections *)

Lemma sound_forget ls v S m a k : sound ls v S m a → sound ls v S (delete k m) a.
Proof.
  intros []. split; try done. intros k' t Hk. apply lookup_delete_Some in Hk as [_ Hk]. auto.
Qed.

Lemma sound_store ls v S m a i l t : sound ls v S m a → ls !! i = Some l → ln_transceiver l = Some t → t ∉ S →
  sound ls v S (<[Some (ln_mid l) := t]> m) a.
Proof.
  intros [] Hi Hl Ht. split; try done. intros k' t' Hk. apply lookup_insert_Some in Hk as [[<- <-]|[_ Hk]]; [|auto].
  split; [done|]. by exists i, l.
Qed.

(** A new transceiver in the section of a rejected one. *)
Lemma sound_insert ls v S m a i r mid t : sound ls v S m a → v !! i = Some (r, true) → is_token mid = true → mid ∉ v.*1 →
  (∀ l, l ∈ ls → ln_transceiver l ≠ Some t) → t ∉ S →
  sound (<[i := {| ln_mid := mid; ln_transceiver := Some t; ln_zero := false |}]> ls) (<[i := (mid, false)]> v) S m a.
Proof.
  intros Hs Hi Htok Hmid Ht HtS. pose proof (sound_length _ _ _ _ _ Hs) as Hlen. destruct Hs as [H1 H2 H3 H4 H5 H6].
  assert (i < length ls)%nat as Hlt by (rewrite <-Hlen; by eapply lookup_lt_Some).
  destruct (lookup_lt_is_Some_2 ls i Hlt) as [old Hold]. destruct (H2 _ _ _ Hold Hi) as (t0 & Et0 & HS0).
  set (new := {| ln_mid := mid; ln_transceiver := Some t; ln_zero := false |}).
  assert (∀ k l, <[i := new]> ls !! k = Some l → (k = i ∧ l = new) ∨ (k ≠ i ∧ ls !! k = Some l)) as Hcases.
  { intros k l Hk. apply list_lookup_insert_Some in Hk as [(-> & -> & _)|[? ?]]; auto. }
  split.
  - rewrite list_fmap_insert, H1, list_fmap_insert. done.
  - intros k l mid' Hk Hv. destruct (Hcases _ _ Hk) as [[-> ->]|[Hne Hk']].
    + by rewrite list_lookup_insert_eq in Hv by (by rewrite Hlen).
    + rewrite list_lookup_insert_ne in Hv by done. by eapply H2.
  - intros k k' l l' t' Hk Hk' E E'. destruct (Hcases _ _ Hk) as [[-> ->]|[Hne Hk1]], (Hcases _ _ Hk') as [[-> ->]|[Hne' Hk2]].
    + done.
    + injection E as <-. by destruct (Ht l' (list_elem_of_lookup_2 _ _ _ Hk2)).
    + injection E' as <-. by destruct (Ht l (list_elem_of_lookup_2 _ _ _ Hk1)).
    + by eapply H3.
  - intros k t' Hk. destruct (H4 k t' Hk) as (Ht' & i' & l & Hl & El & ->). split; [done|]. exists i', l.
    split_and!; [|done|done]. rewrite list_lookup_insert_ne; [done|]. intros <-. rewrite Hold in Hl. injection Hl as ->. congruence.
  - rewrite H5. split; intros (k & l & Hl & Hn).
    + exists k, l. split; [|done]. rewrite list_lookup_insert_ne; [done|]. intros <-. congruence.
    + destruct (Hcases _ _ Hl) as [[-> ->]|[_ Hk]]; [done|]. by exists k, l.
  - rewrite list_fmap_insert. apply Forall_insert; done.
Qed.

(** A new section at the end. *)
Lemma sound_snoc ls v S m a l : sound ls v S m a → is_token (ln_mid l) = true → (∀ t l', l' ∈ ls → ln_transceiver l = Some t → ln_transceiver l' ≠ Some t) →
  sound (ls ++ [l]) (v ++ [(ln_mid l, false)]) S m (match ln_transceiver l with None => true | Some _ => a end).
Proof.
  intros Hs Htok Ht. pose proof (sound_length _ _ _ _ _ Hs) as Hlen. destruct Hs as [H1 H2 H3 H4 H5 H6].
  assert (∀ k x, (ls ++ [l]) !! k = Some x → ls !! k = Some x ∨ k = length ls ∧ x = l) as Hcases.
  { intros k x Hk. apply lookup_snoc_Some in Hk as [[_ ?]|[-> <-]]; auto. }
  assert (∀ k x, ls !! k = Some x → (ls ++ [l]) !! k = Some x) as Hold by (intros; by apply lookup_app_l_Some).
  assert ((ls ++ [l]) !! length ls = Some l) as Hnew by (by rewrite list_lookup_middle). split.
  - by rewrite !fmap_app, H1.
  - intros k x mid Hk Hv. apply lookup_snoc_Some in Hv as [[Hlt Hv]|[-> [=]]].
    destruct (Hcases _ _ Hk) as [Hk'|[-> ->]]; [by eapply H2|lia].
  - intros k k' x x' t Hk Hk' E E'. destruct (Hcases _ _ Hk) as [Hk1|[-> ->]], (Hcases _ _ Hk') as [Hk2|[-> ->]]; [by eapply H3|..|done].
    + by destruct (Ht t x (list_elem_of_lookup_2 _ _ _ Hk1) E').
    + by destruct (Ht t x' (list_elem_of_lookup_2 _ _ _ Hk2) E).
  - intros k t Hk. destruct (H4 k t Hk) as (Ht' & i' & x & Hl & El & ->). split; [done|]. exists i', x. auto.
  - destruct (ln_transceiver l) as [t|] eqn:El.
    + rewrite H5. split; intros (k & x & Hk & Hn); [exists k, x; auto|]. destruct (Hcases _ _ Hk) as [?|[-> ->]]; [by exists k, x|congruence].
    + split; [|done]. intros _. by exists (length ls), l.
  - rewrite fmap_app. apply Forall_app. split; [done|]. by constructor.
Qed.

(** A section that is closed and whose transceiver is stopped. *)
Lemma sound_close ls v S m a i l t : sound ls v S m a → ls !! i = Some l → ln_transceiver l = Some t →
  sound ls (<[i := (ln_mid l, true)]> v) ({[t]} ∪ S) (delete (Some (ln_mid l)) m) a.
Proof.
  intros Hs Hi Hl. pose proof (sound_length _ _ _ _ _ Hs) as Hlen. destruct Hs as [H1 H2 H3 H4 H5 H6].
  assert ((<[i := (ln_mid l, true)]> v).*1 = v.*1) as Em.
  { rewrite list_fmap_insert. apply list_insert_id. cbn. by rewrite H1, list_lookup_fmap, Hi. }
  split; rewrite ?Em; try done.
  - intros k x mid Hk Hv. apply list_lookup_insert_Some in Hv as [(-> & _ & _)|[Hne Hv]].
    + rewrite Hi in Hk. injection Hk as <-. exists t. split; [done|]. set_solver.
    + destruct (H2 _ _ _ Hk Hv) as (t' & ? & ?). exists t'. split; [done|]. set_solver.
  - intros k t' Hk. apply lookup_delete_Some in Hk as [Hne Hk]. destruct (H4 k t' Hk) as (Ht' & i' & x & Hx & Ex & ->).
    split; [|by exists i', x]. intros [->%elem_of_singleton|?]%elem_of_union; [|done].
    assert (i' = i) as -> by (by eapply H3). rewrite Hi in Hx. injection Hx as ->. done.
Qed.

(** ** The next section *)

Lemma find_closed_spec rs l k :
  match find_closed rs k l with
  | Some (i, mid) => ∃ n s, i = (k + n)%nat ∧ l !! n = Some s ∧ closed_of rs s = true ∧ mid = mid_of rs s ∧
      ∀ n' s', (n' < n)%nat → l !! n' = Some s' → closed_of rs s' = false
  | None => ∀ s, s ∈ l → closed_of rs s = false
  end.
Proof.
  revert k. induction l as [|s l IH]; intros k; cbn; [intros s Hs; by apply elem_of_nil in Hs|]. destruct (closed_of rs s) eqn:E.
  - exists 0%nat, s. split_and!; [lia|done|done|done|lia].
  - specialize (IH (S k)). destruct (find_closed rs (S k) l) as [[i mid]|].
    + destruct IH as (n & s' & -> & H1 & H2 & H3 & H4). exists (S n), s'. split_and!; [lia|done..|].
      intros [|n'] s'' Hn; cbn; [by intros [= <-]|]. apply H4. lia.
    + intros s' [-> |Hs']%elem_of_cons; auto.
Qed.

Lemma next_section rs idx reuse : getNextMediaSectionIdx rs = (idx, reuse) →
  match reuse with
  | Some r => view rs !! idx = Some (r, true) ∧ ∀ k e, (k < idx)%nat → view rs !! k = Some e → e.2 = false
  | None => idx = length (view rs) ∧ ∀ e, e ∈ view rs → e.2 = false
  end.
Proof.
  unfold getNextMediaSectionIdx. pose proof (find_closed_spec rs (rs_mediaSections rs) 0) as H.
  assert (∀ k, view rs !! k = (λ s, (mid_of rs s, closed_of rs s)) <$> rs_mediaSections rs !! k) as Hv
    by (intros k; unfold view; by rewrite map_fmap, list_lookup_fmap).
  destruct (find_closed _ _ _) as [[i mid]|]; intros [= <- <-].
  - destruct H as (n & s & -> & H1 & H2 & -> & H3). cbn [Nat.add] in *. rewrite Hv, H1. cbn. rewrite H2. split; [done|].
    intros k e Hk. rewrite Hv. destruct (rs_mediaSections rs !! k) as [s'|] eqn:Ek; [|done]. intros [= <-]. cbn. by eapply H3.
  - split; [unfold view; by rewrite map_fmap, length_fmap|]. intros e (k & Hk)%list_elem_of_lookup. rewrite Hv in Hk.
    destruct (rs_mediaSections rs !! k) as [s|] eqn:Ek; [|done]. injection Hk as <-. cbn. apply H. by eapply list_elem_of_lookup_2.
Qed.

(** The browser and the remote description put a new transceiver in the same place. *)
Lemma place_one v j m a idx reuse mid t : settled v j m a → NoDup v.*1 → is_token mid = true → mid ∉ map ln_mid (j_lines j) →
  t ∉ j_stopped j → (∀ l, l ∈ j_lines j → ln_transceiver l ≠ Some t) →
  match reuse with
  | Some r => v !! idx = Some (r, true) ∧ ∀ k e, (k < idx)%nat → v !! k = Some e → e.2 = false
  | None => idx = length v ∧ ∀ e, e ∈ v → e.2 = false
  end →
  let new := {| ln_mid := mid; ln_transceiver := Some t; ln_zero := false |} in
  recycle_line mid t (j_lines j) !! idx = Some new ∧ mid ≠ "" ∧ mid ∉ v.*1 ∧ (∀ r, reuse = Some r → r ≠ "" ∧ (r, true) ∈ v) ∧
  sound (recycle_line mid t (j_lines j))
    match reuse with Some r => set_entry r (mid, false) v | None => v ++ [(mid, false)] end (j_stopped j) m a.
Proof.
  intros (Hs & Hview & _) Hnd Htok Hmid HtS Ht Hnext new. pose proof (sound_length _ _ _ _ _ Hs) as Hlen.
  assert (mid ∉ v.*1) as Hmid' by (rewrite (so_mids _ _ _ _ _ Hs); by rewrite map_fmap in Hmid).
  assert (∀ s, is_token s = true → s ≠ "") as Hne by (by intros s H ->).
  assert (∀ k l, j_lines j !! k = Some l → v !! k = Some (line_view l)) as Hvl by (intros k l Hl; by rewrite <-Hview, list_lookup_fmap, Hl).
  destruct (recycle_line_cases mid t (j_lines j)) as [(i & l & Hi & Hz & Hbefore & E)|[Hall E]]; rewrite E; fold new.
  - pose proof (Hvl _ _ Hi) as Hvi. unfold line_view in Hvi. rewrite Hz in Hvi.
    destruct reuse as [r|]; destruct Hnext as [H1 H2]; [|by specialize (H2 _ (list_elem_of_lookup_2 _ _ _ Hvi))].
    assert (idx = i) as ->.
    { destruct (lt_eq_lt_dec idx i) as [[Hlt|?]|Hlt]; [|done|by specialize (H2 _ _ Hlt Hvi)].
      destruct (lookup_lt_is_Some_2 (j_lines j) idx) as [l' Hl']; [rewrite <-Hlen; by eapply lookup_lt_Some|].
      pose proof (Hbefore _ _ Hlt Hl') as Hz'. pose proof (Hvl _ _ Hl') as Hv'. rewrite H1 in Hv'. unfold line_view in Hv'. congruence. }
    rewrite (set_entry_insert v i r (mid, false) true) by done. split_and!; [|by apply Hne|done| |].
    + apply list_lookup_insert_eq. by eapply lookup_lt_Some.
    + intros r' [= <-]. split; [|by eapply list_elem_of_lookup_2]. apply Hne. pose proof (so_tokens _ _ _ _ _ Hs) as Hf.
      rewrite Forall_forall in Hf. apply Hf, list_elem_of_fmap. exists (r, true). split; [done|]. by eapply list_elem_of_lookup_2.
    + by eapply sound_insert.
  - destruct reuse as [r|]; destruct Hnext as [H1 H2].
    { destruct (lookup_lt_is_Some_2 (j_lines j) idx) as [l' Hl']; [rewrite <-Hlen; by eapply lookup_lt_Some|].
      pose proof (Hall _ (list_elem_of_lookup_2 _ _ _ Hl')) as Hz'. pose proof (Hvl _ _ Hl') as Hv'. rewrite H1 in Hv'. unfold line_view in Hv'. congruence. }
    split_and!; [|by apply Hne|done|done|].
    + rewrite H1, Hlen. by rewrite list_lookup_middle.
    + apply (sound_snoc _ _ _ _ _ new Hs); [done|]. intros t' l' Hl' [= <-]. by apply Ht.
Qed.

(** ** Actions that return *)

Create HintDb still.

(** If the action returns. *)
Abbreviation wpr m Q w := (wp m Q (λ _, True) w).

Section Still.
Context {B text : Type} `{!SdpText text} `{!Browser B text}.
Abbreviation World := (World Transceivers B text).
Abbreviation M := (action World).
Implicit Types (w : World) (e id : string).

(** Actions that change nothing. *)
Definition still {A : Type} (m : M A) : Prop := ∀ w, (m w).2 = w.
Lemma still_bind {A C : Type} (m : M A) (f : A → M C) : still m → (∀ a, still (f a)) → still (m ≫= f).
Proof. intros Hm Hf w. unfold mbind, action_bind. specialize (Hm w). destruct (m w) as [[a|e] w']; cbn in Hm; subst; [apply Hf|done]. Qed.
Lemma wpr_still {A : Type} (m : M A) (Q : A → World → Prop) w : still m → (∀ a, (m w).1 = Ok a → Q a w) → wpr m Q w.
Proof. intros Hm HQ. specialize (Hm w). unfold wp. destruct (m w) as [[a|e] w']; cbn in Hm; subst; auto. Qed.

Lemma still_handler : still (handler : M _).
Proof. done. Qed.
Lemma still_lift {A : Type} (x : outcome A) : still (lift x).
Proof. done. Qed.
Lemma still_read {A : Type} (f : B → A) : still (read f).
Proof. done. Qed.
Lemma still_pc : still (pc : M _).
Proof. by apply still_bind. Qed.
Lemma still_assertNotClosed : still (assertNotClosed : M _).
Proof. by apply still_bind. Qed.
Lemma still_assertSend : still (assertSendDirection : M _).
Proof. by apply still_bind. Qed.
Lemma still_transceiver_or e id : still (transceiver_or e id : M nat).
Proof. by apply still_bind. Qed.
Lemma still_transceiver_of id : still (transceiver_of id : M nat).
Proof. apply still_transceiver_or. Qed.
Lemma still_localDescription : still (localDescription : M _).
Proof. apply still_bind; [apply still_pc|]. intros q. apply still_bind; [done|]. intros sdp. by apply still_bind. Qed.

Lemma wpr_bind_still {A C : Type} (m : M A) (f : A → M C) Q w : still m → (∀ a, (m w).1 = Ok a → wpr (f a) Q w) → wpr (m ≫= f) Q w.
Proof. intros Hm Hf. apply wp_bind, wpr_still; auto. Qed.
End Still.
#[export] Hint Resolve still_handler still_lift still_read still_pc still_assertNotClosed still_assertSend still_transceiver_or
  still_transceiver_of still_localDescription : still.

(** A step that changes nothing. *)
Ltac look := eapply wpr_bind_still; [by eauto with still|].

(** ** Stages of a method *)

Section Stages.
Context {B text : Type} `{!SdpText text} `{!Browser B text} `{!JsepBrowser B text}.
Abbreviation World := (World Transceivers B text).
Abbreviation M := (action World).

(** A log in which every offer of the browser gets an answer with the sections of the
    offer; [last] is the offer that waits. *)
Inductive answers : option text → list (@entry text) → Prop :=
| answers_nil : answers None []
| answers_offer last log o : answers last log → answers (Some o) (log ++ [LocalDescription Offer o true])
| answers_answer log o a sdp : answers (Some o) log → sdp_parse a = Ok sdp → (ids_of sdp).*1 = ln_mid <$> offered o →
    answers None (log ++ [RemoteDescription Answer a true])
| answers_connected last log d ok : answers last log → answers last (log ++ [Connected d ok]).

Record stage (p : nat) (v : list (string * bool)) (j : JsepState) (m : gmap (option string) nat) (a : bool) (last : option text)
    (w : World) : Prop := {
  sg_direction : h_direction (w_handler w) = "send";
  sg_pc : h_pc (w_handler w) = Some p;
  sg_sdp : ∃ rs, h_remoteSdp (w_handler w) = Some rs ∧ rinv rs ∧ view rs = v;
  sg_jsep : jsep p (w_browser w) = j;
  sg_map : h_mapMidTransceiver (w_handler w) = m;
  sg_app : h_hasDataChannelMediaSection (w_handler w) = a;
  sg_log : answers last (w_log w);
}.

Implicit Types (p q t : nat) (v : list (string * bool)) (j : JsepState) (last : option text) (w : World).

Lemma pc_is p v j m a last w q : stage p v j m a last w → (pc w).1 = Ok q → q = p.
Proof. intros Hs. unfold pc, mbind, action_bind, handler, lift. cbn. rewrite (sg_pc _ _ _ _ _ _ _ Hs). by intros [= <-]. Qed.

(** Calls that do not concern the sections. *)
Lemma wpr_calm {A : Type} (f : B → outcome A * B) p v j m a last w : stage p v j m a last w → (∀ b, jsep p (f b).2 = jsep p b) →
  wpr (browse f) (λ _, stage p v j m a last) w.
Proof.
  intros [] Hf. unfold wp, browse. specialize (Hf (w_browser w)). destruct (f _) as [[x|e] b]; [|done]. cbn in Hf. split; cbn; congruence.
Qed.
Lemma wpr_calm_attempt (f : B → outcome unit * B) p v j m a last w : stage p v j m a last w → (∀ b, jsep p (f b).2 = jsep p b) →
  wpr (attempt (browse f)) (λ _, stage p v j m a last) w.
Proof.
  intros [] Hf. unfold wp, attempt, browse. specialize (Hf (w_browser w)). destruct (f _) as [r b]. cbn in *. split; cbn; congruence.
Qed.

(** Methods of the remote description. *)
Lemma wpr_sdp {A : Type} (f : RemoteSdp → outcome (RemoteSdp * A)) op p v j m a last w : stage p v j m a last w → op_ok v op →
  (∀ rs rs' x, f rs = Ok (rs', x) → sdp_step sdp_parseSimulcastStreamList rs op = Ok rs') →
  wpr (with_sdp f) (λ x w', stage p (spec_step v op) j m a last w' ∧ ∃ rs rs', rinv rs ∧ view rs = v ∧ f rs = Ok (rs', x)) w.
Proof.
  intros [H1 H2 (rs & H3 & Hi & Hv) H4 H5 H6 H7] Hok Hf. unfold wp, with_sdp. rewrite H3.
  destruct (f rs) as [[rs' x]|e] eqn:E; [|done]. rewrite <-Hv in Hok.
  destruct (sdp_step_inv _ _ _ _ Hi Hok (Hf _ _ _ E)) as [Hi' Hv']. rewrite Hv in Hv'. split; [|by exists rs, rs'].
  split; cbn; try done. by exists rs'.
Qed.

Lemma wpr_on_sdp (f : RemoteSdp → outcome RemoteSdp) op p v j m a last w : stage p v j m a last w → op_ok v op → spec_step v op = v →
  (∀ rs, f rs = sdp_step sdp_parseSimulcastStreamList rs op) → wpr (on_sdp f) (λ _, stage p v j m a last) w.
Proof.
  intros Hs Hok Hsame Hf. eapply wp_mono; [|done|eapply (wpr_sdp _ op); [exact Hs|done|]].
  - intros x w' [Hs' _]. by rewrite Hsame in Hs'.
  - intros rs rs' x Hx. apply bind_ok_inv in Hx as (rs1 & Hx & [= <- _]). by rewrite <-Hf.
Qed.

(** ** Negotiations *)

Lemma wpr_createOffer r p v j m a last w : stage p v j m a last w → j_pending j = None →
  wpr (createOffer r) (λ o w', stage p v j m a last w' ∧ is_offer j (offered o) ∧ ∀ sdp, sdp_parse o = Ok sdp → describes sdp (offered o)) w.
Proof.
  intros Hs Hp. look. intros q Hq. apply (pc_is _ _ _ _ _ _ _ _ Hs) in Hq as ->. unfold wp, browse.
  destruct (pc_createOffer p r (w_browser w)) as [[o|e] b] eqn:E; [|done]. destruct Hs as [H1 H2 H3 <- H5 H6 H7].
  destruct (jsep_createOffer _ _ _ _ _ Hp E) as (E' & Ho & Hd). split; [|done]. by split.
Qed.

Lemma wpr_setLocal o p v j m a last w : stage p v j m a last w → j_pending j = None → is_offer j (offered o) →
  wpr (setLocalDescription Offer o) (λ _, stage p v (offered_state (offered o) j) m a (Some o)) w.
Proof.
  intros Hs Hp Ho. look. intros q Hq. apply (pc_is _ _ _ _ _ _ _ _ Hs) in Hq as ->. unfold wp, logged.
  destruct (pc_setLocalDescription p Offer o (w_browser w)) as [[[]|e] b] eqn:E; [|done]. destruct Hs as [H1 H2 H3 <- H5 H6 H7].
  pose proof (jsep_setLocal _ _ _ _ Hp Ho E) as E'. split; try done. by econstructor.
Qed.

(** The description written has the sections of the view. *)
Lemma sdp_object_ids rs : rinv rs → ids_of (sdp_object rs) = view rs.
Proof.
  intros [Hc _]. unfold ids_of.
  change (js_get (sdp_object rs) "media") with (JArr (map (λ a, default JUndef (rs_objects rs !! a)) (rs_media rs))).
  cbn [elements]. rewrite (ri_media _ Hc), !map_fmap, <-!list_fmap_compose. reflexivity.
Qed.

(** The answer: afterwards nothing waits. *)
Lemma wpr_answer o p v j m m' a a' w : stage p v j m a (Some o) w → j_pending j = Some (offered o) → j_new j = [] → j_app j = false →
  sound (offered o) v (j_stopped j) m' a' →
  wpr (apply_remote Answer) (λ _ w', ∃ j', stage p v j' m a None w' ∧ settled v j' m' a' ∧ j_stopped j' = j_stopped j ∧
    (∀ i l, offered o !! i = Some l → ∃ l', j_lines j' !! i = Some l' ∧ ln_mid l' = ln_mid l ∧ ln_transceiver l' = ln_transceiver l)) w.
Proof.
  intros Hs Hp Hnew Happ Hso. apply wp_bind.
  eapply wp_mono; [|done|apply (wpr_sdp _ OpGetSdp); [exact Hs|done|by intros rs rs' x [= <- _]]].
  intros obj w1 [Hs1 (rs & rs1 & Hi & Hv & [= Ers <-])]. cbn [spec_step] in Hs1.
  look. intros q Hq. apply (pc_is _ _ _ _ _ _ _ _ Hs1) in Hq as ->. unfold wp, logged.
  assert (ids_of (sdp_object rs1) = v) as Eids.
  { rewrite sdp_object_ids; [|subst rs1; by apply session_inv]. subst rs1. by rewrite (proj2 (session_inv rs _ _ _ Hi eq_refl eq_refl)). }
  rewrite Ers. destruct (sdp_written (sdp_object rs1)) as (o' & Hparse & Eids'); [rewrite Eids; exact (proj1 (Forall_fmap fst (λ s, is_token s = true) v) (so_tokens _ _ _ _ _ Hso))|].
  rewrite Eids in Eids'. destruct (pc_setRemoteDescription _ _ _ _) as [[[]|e] b] eqn:E; [|done].
  destruct Hs1 as [H1 H2 H3 <- H5 H6 H7].
  pose proof (jsep_setRemote _ _ _ _ _ _ Hp Hparse ltac:(rewrite Eids'; apply Hso) E) as E'. rewrite Eids' in E'.
  exists (answered_state (offered o) v.*2 (jsep p (w_browser w1))). split; [split; try done|].
  - cbn. econstructor; [exact H7|exact Hparse|]. rewrite Eids'. apply Hso.
  - destruct (answered_sound _ _ _ _ _ Hso) as [Hso' Hview]. split_and!; try done. intros i l Hl. cbn.
    rewrite answered_lookup by by eapply sound_length. rewrite Hl. by eexists.
Qed.

(** The browser offers its sections again. *)
Lemma wpr_offer_and_answer r p v j m m' a w : stage p v j m a None w → j_new j = [] → j_app j = false → j_pending j = None →
  sound (j_lines j) v (j_stopped j) m' a → wpr (offer_and_answer r) (λ _ w', ∃ j', stage p v j' m a None w' ∧ settled v j' m' a) w.
Proof.
  intros Hs Hnew Happ Hp Hso. apply wp_bind. eapply wp_mono; [|done|by eapply wpr_createOffer].
  intros o w1 (Hs1 & Ho & _). apply wp_bind. eapply wp_mono; [|done|by eapply wpr_setLocal].
  intros ? w2 Hs2. apply is_offer_idle in Ho as Eo; [|done|done].
  eapply wp_mono; [|done|eapply wpr_answer; [exact Hs2|done|done|done|by rewrite Eo]]. intros _ w3 (j' & H1 & H2 & _). by exists j'.
Qed.

Lemma wpr_ensure_transport role obj p v j m a last w : stage p v j m a last w → wpr (ensure_transport role obj) (λ _, stage p v j m a last) w.
Proof.
  intros Hs. look. intros h _. destruct (h_transportReady h); [done|]. apply wp_bind, wp_ret. look. intros dtls _.
  apply wp_bind. eapply wp_mono; [|done|eapply (wpr_on_sdp _ (OpRole _)); [exact Hs|done..]]. intros [] w1 Hs1. apply wp_bind.
  unfold wp at 1, logged. pose proof (calm_connect p (js_set dtls "role" (JStr (role h))) (w_browser w1)) as Hc.
  destruct (emit_connect _ _) as [[[]|e] b]; [|done]. cbn in Hc. destruct Hs1 as [H1 H2 H3 H4 H5 H6 H7].
  split; cbn; try done; [congruence|]. by constructor.
Qed.

Lemma wpr_peek {A : Type} (g : RemoteSdp → A) p v j m a last w : stage p v j m a last w →
  wpr (with_sdp (λ rs, Ok (rs, g rs))) (λ x w', stage p v j m a last w' ∧ ∃ rs, rinv rs ∧ view rs = v ∧ x = g rs) w.
Proof.
  intros [H1 H2 (rs & H3 & Hi & Hv) H4 H5 H6 H7]. unfold wp, with_sdp. rewrite H3. split; [|by exists rs].
  split; cbn; try done. by exists rs.
Qed.

Lemma wpr_add src dir enc p v j m a last w : stage p v j m a last w →
  wpr (browse (pc_addTransceiver p src dir enc)) (λ t w', stage p v (add_new t j) m a last w' ∧
    t ∉ j_stopped j ∧ ∀ l, l ∈ j_lines j → ln_transceiver l ≠ Some t) w.
Proof.
  intros [H1 H2 H3 <- H5 H6 H7]. unfold wp, browse. destruct (pc_addTransceiver _ _ _ _ _) as [[t|e] b] eqn:E; [|done].
  destruct (jsep_addTransceiver _ _ _ _ _ _ _ E) as (E' & _ & HS & Hl). split; [|done]. by split.
Qed.

Lemma wpr_data label options p v j m a last w : stage p v j m a last w →
  wpr (browse (pc_createDataChannel p label options)) (λ _, stage p v (want_app j) m a last) w.
Proof.
  intros [H1 H2 H3 <- H5 H6 H7]. unfold wp, browse. destruct (pc_createDataChannel _ _ _ _) as [[c|e] b] eqn:E; [|done].
  split; try done. by eapply jsep_createDataChannel.
Qed.

(** The section of a described offer at a place. *)
Lemma described_at obj ls i l m : describes obj ls → ls !! i = Some l → media_at obj i = Ok m → js_to_string (js_get m "mid") = ln_mid l.
Proof.
  intros (media & Hm & Hf) Hi H. unfold media_at in H. rewrite Hm in H. cbn [iterate mbind outcome_bind] in H.
  destruct (Forall2_lookup_r _ _ _ _ _ Hf Hi) as (x & Hx & Hmid & _). unfold at_index in H. rewrite Hx in H. cbn in H.
  apply bind_ok_inv in H as (_ & _ & [= <-]). done.
Qed.

(** The only section for data channels is the new one. *)
Lemma described_app obj ls mid media m : describes obj (ls ++ [app_line mid]) → (∀ l, l ∈ ls → is_app l = false) →
  iterate (js_get obj "media") = Ok media →
  find_ok (λ m, t ← get_prop m "type"; Ok (is_str t "application")) media = Ok (Some m) → js_to_string (js_get m "mid") = mid.
Proof.
  intros (media' & Hm & Hf) Hno E. rewrite Hm in E. injection E as ->. clear Hm. revert media Hf.
  induction ls as [|l ls IH]; intros media Hf; cbn in Hf; apply Forall2_cons_inv_r in Hf as (x & media' & (H1 & H2 & H3) & Hf & ->);
    assert (get_prop x "type" = Ok (js_get x "type")) as E by (unfold get_prop; by rewrite H3);
    cbn [find_ok]; rewrite E; cbn [mbind outcome_bind]; rewrite H2.
  - cbn. by intros [= <-].
  - rewrite (Hno l) by left. cbn. apply IH; [|done]. intros l' Hl'. apply Hno. by right.
Qed.

Lemma stage_map f p v j m a last w : stage p v j m a last w →
  stage p v j (f m) a last (set_own f w).2.
Proof. intros []. split; cbn; try done. by f_equal. Qed.

Lemma stage_nodup p v j m a last w : stage p v j m a last w → NoDup v.*1.
Proof. intros []. destruct sg_sdp0 as (rs & _ & [Hc _] & <-). apply Hc. Qed.

Lemma local_description_is p v j m a last w obj : stage p v j m a last w → (localDescription w).1 = Ok obj →
  ∃ sdp, pc_localDescription p (w_browser w) = Ok sdp ∧ sdp_parse sdp = Ok obj.
Proof.
  intros Hs H. unfold localDescription, mbind, action_bind, read, lift in H. destruct (pc w) as [[q|e] w'] eqn:Epc; [|done].
  assert (q = p) as -> by (apply (pc_is _ _ _ _ _ _ _ _ Hs); by rewrite Epc).
  assert (w' = w) as -> by (pose proof (still_pc w) as H'; by rewrite Epc in H').
  destruct (pc_localDescription p _) as [sdp|]; [|done]. by exists sdp.
Qed.

(** The transceiver of a local id and its section. *)
Lemma mapped_section p v j m a w (e id : string) t : stage p v j m a None w → settled v j m a → (transceiver_or e id w).1 = Ok t →
  ∃ i l, j_lines j !! i = Some l ∧ ln_transceiver l = Some t ∧ ln_mid l = id ∧ t ∉ j_stopped j.
Proof.
  intros Hs (Hso & _) Ht. apply transceiver_or_ok in Ht. rewrite (sg_map _ _ _ _ _ _ _ Hs) in Ht.
  destruct (so_map _ _ _ _ _ Hso _ _ Ht) as (HS & i & l & Hi & Hl & [= ->]). by exists i, l.
Qed.

(** Closing a section that is not the first closes it; the first stays. *)
Lemma close_result rs mid rs' b : rinv rs → closeMediaSection mid rs = Ok (rs', b) →
  (b = true → ∀ i c, view rs !! i = Some (mid, c) → spec_step (view rs) (OpClose mid) = <[i := (mid, true)]> (view rs)) ∧
  (b = false → spec_step (view rs) (OpClose mid) = view rs).
Proof.
  intros [Hc _] H. unfold closeMediaSection in H. apply bind_ok_inv in H as (s & Hs & H).
  pose proof (ri_first _ Hc) as Hf. pose proof (ri_mids _ Hc) as Hnd. cbn [spec_step].
  destruct (String.eqb mid (rs_firstMid rs)) eqn:E.
  - apply bind_ok_inv in H as (rs1 & _ & [= _ <-]). split; [done|]. intros _. apply String.eqb_eq in E as ->.
    destruct (view rs) as [|[m c] v]; [done|]. destruct Hf as (-> & _). cbn in Hnd. apply NoDup_cons in Hnd as [Hnm _].
    by rewrite set_entry_absent.
  - injection H as _ <-. split; [|done]. intros _ i c Hi. apply String.eqb_neq in E.
    destruct (view rs) as [|[m c'] v]; [done|]. destruct Hf as (Hf & _). destruct i as [|i]; [cbn in Hi; congruence|].
    cbn in Hi, Hnd |- *. apply NoDup_cons in Hnd as [_ Hnd]. f_equal. by eapply set_entry_insert.
Qed.

Lemma wpr_stop t i l p v j m a w : stage p v j m a None w → j_lines j !! i = Some l → ln_transceiver l = Some t →
  wpr (attempt (browse (transceiver_stop t))) (λ _, stage p v (stop t j) m a None) w.
Proof.
  intros [H1 H2 H3 <- H5 H6 H7] Hi Hl. destruct (jsep_stop p (w_browser w) l t) as [_ E]; [by eapply list_elem_of_lookup_2|done|].
  unfold wp, attempt, browse. destruct (transceiver_stop t _) as [r b]. by split.
Qed.

End Stages.

(** A call that does not concern the sections. *)
Ltac calm H := apply wp_bind; eapply wp_mono; [|done|eapply (wpr_calm _ _ _ _ _ _ _ _ H); intros;
  first [apply calm_removeTrack|apply calm_setDirection|apply calm_getParameters|apply calm_setParameters|apply calm_getConfiguration|
         apply calm_onRtpSender]].
(** A call of the remote description that keeps its sections. *)
Ltac sdp_call H op := apply wp_bind; eapply wp_mono; [|done|eapply (wpr_on_sdp _ op); [exact H|done|done|done]].
