(* ===== verification/JsepHandlers.v ===== *)
(** * Negotiations that match

    The handlers for unified plan that send, against a browser that follows the rules
    of [Jsep]: the sections of the remote description stay those of the browser. *)

From Stdlib Require Import QArith.
From stdpp Require Import gmap.
From S2P Require Import Prelude JsNum JsVal JsConv JsString OrtcValidate Ortc SdpUtils MediaSection RemoteSdp RemoteSdpProofs.
From S2P Require Import Browser HandlerBase Device Handlers.
From S2P Require Import Firefox60 Firefox120 Chrome70 Safari12 ReactNativeUnifiedPlan Chrome74 Chrome111.
From S2P Require Import HandlerLogic HandlerProofs Jsep JsepProofs.
Local Open Scope string_scope.
Local Open Scope list_scope.

Section Keeping.
Context {B text : Type} `{!SdpText text} `{!Browser B text} `{!JsepBrowser B text}.
Abbreviation World := (World Transceivers B text).
Abbreviation M := (action World).
Implicit Types (p q t idx : nat) (v : list (string * bool)) (j : JsepState) (last : option text) (w : World) (id mid : string)
  (R : list (string * bool) → Prop) (reuse : option string) (off : text) (m : Transceivers) (section ps rp co obj : jsval) (mx a : bool).

(** A handler at rest, with what it keeps true of its sections. *)
Definition aligned R w : Prop := ∃ p v j m a, stage p v j m a None w ∧ settled v j m a ∧ R v.
Lemma stage_aligned R p v j m a w : stage p v j m a None w → settled v j m a → R v → aligned R w.
Proof. intros H1 H2 H3. by exists p, v, j, m, a. Qed.
Definition keeps R {A : Type} (f : M A) : Prop := ∀ w, aligned R w → wpr f (λ _, aligned R) w.

Lemma keeps_ignore R {A : Type} (f : M A) : keeps R f → keeps R (f ≫= λ _, mret tt).
Proof. intros Hf w Hw. apply wp_bind. eapply wp_mono; [|done|by apply Hf]. done. Qed.
Lemma keeps_look R {A C : Type} (f : M A) (g : A → M C) : still f → (∀ x, keeps R (g x)) → keeps R (f ≫= g).
Proof. intros Hf Hg w Hw. apply wpr_bind_still; [done|]. intros x _. by apply Hg. Qed.
Lemma keeps_then R {A C : Type} (f : M A) (g : A → M C) : keeps R f → (∀ x, keeps R (g x)) → keeps R (f ≫= g).
Proof. intros Hf Hg w Hw. apply wp_bind. eapply wp_mono; [|done|by apply Hf]. intros x w' Hw'. by apply Hg. Qed.
Lemma keeps_browse R {A : Type} (f : B → outcome A * B) : (∀ q b, jsep q (f b).2 = jsep q b) → keeps R (browse f).
Proof.
  intros Hf w (p & v & j & m & a & Hs & Hset & HR). eapply wp_mono; [|done|by eapply wpr_calm]. intros ? w1 Hs1.
  exact (stage_aligned _ _ _ _ _ _ _ Hs1 Hset HR).
Qed.
Lemma keeps_still R {A : Type} (f : M A) : still f → keeps R f.
Proof. intros Hf w Hw. by apply wpr_still. Qed.
Lemma keeps_guarded R {A : Type} (f : M A) : keeps R f → keeps R (guarded f).
Proof. intros Hf. apply keeps_look; [eauto with still|done]. Qed.
Lemma keeps_sdp R (f : RemoteSdp → outcome RemoteSdp) op : (∀ v, op_ok v op) → (∀ v, spec_step v op = v) →
  (∀ rs, f rs = sdp_step sdp_parseSimulcastStreamList rs op) → keeps R (on_sdp f).
Proof.
  intros Hok Hsame Hf w (p & v & j & m & a & Hs & Hset & HR). eapply wp_mono; [|done|by eapply wpr_on_sdp]. intros ? w1 Hs1.
  exact (stage_aligned _ _ _ _ _ _ _ Hs1 Hset HR).
Qed.

(** The sections are negotiated again. *)
Lemma keeps_again R r : keeps R (offer_and_answer r).
Proof.
  intros w (p & v & j & m & a & Hs & (Hso & _ & Hnew & Happ & Hpend) & HR). eapply wp_mono; [|done|by eapply wpr_offer_and_answer].
  intros ? w1 (j1 & Hs1 & Hset1). by eapply stage_aligned.
Qed.

(** ** Methods that keep the sections *)

(** Steps that look or do not concern the sections. *)
Ltac keep := repeat first
  [ apply keeps_guarded
  | apply keeps_look; [by eauto with still|intros ?]
  | apply keeps_then; [apply keeps_browse; intros; first [apply calm_setDirection|apply calm_getParameters|apply calm_setParameters
                         |apply calm_getConfiguration]|intros ?]
  | apply keeps_browse; intros; first [apply calm_replaceTrack|apply calm_setConfiguration|apply calm_getStats|apply calm_getSenderStats]
  | apply keeps_again ].

Lemma keeps_pauseSending R id : keeps R (pauseSending id).
Proof. keep. apply keeps_then; [by apply (keeps_sdp _ _ (OpPause id))|intros ?]. keep. Qed.
Lemma keeps_resumeSending R id : keeps R (resumeSending id).
Proof. keep. apply keeps_then; [by apply (keeps_sdp _ _ (OpResumeSending id))|intros ?]. keep. Qed.
Lemma keeps_resumeSending_Safari12 R id : keeps R (Safari12.resumeSending id).
Proof. keep. apply keeps_then; [by apply (keeps_sdp _ _ (OpResumeSending id))|intros ?]. keep. Qed.
Lemma keeps_change_encodings R (e : string) id f : keeps R (change_encodings e id f).
Proof. keep. apply keeps_then; [by eapply (keeps_sdp _ _ (OpMux id (JArr (f _))))|intros ?]. keep. Qed.
Lemma keeps_replace_track R id (track : option nat) : keeps R (replace_track id track).
Proof. keep. Qed.
Lemma keeps_sender_stats R id : keeps R (sender_stats id).
Proof. keep. Qed.
Lemma keeps_transport_stats R : keeps R transport_stats.
Proof. keep. Qed.
Lemma keeps_update_ice_servers R x : keeps R (update_ice_servers x).
Proof. keep. Qed.
Lemma keeps_restart_ice R ice : keeps R (restart_ice ice).
Proof.
  apply keeps_then; [by apply (keeps_sdp _ _ (OpIce ice))|intros _]. intros w Hw. look. intros h [= <-].
  destruct (negb _); [done|]. destruct Hw as (p & v & j & m & a & Hs & Hset & HR). rewrite (sg_direction _ _ _ _ _ _ _ Hs).
  apply keeps_again. by eapply stage_aligned.
Qed.

(** ** Data channels *)

(** Which data channel sections a handler may add. *)
Definition grows R : Prop := ∀ v mid, R v → R (v ++ [(mid, false)]).

(** The section of the first data channel. *)
Lemma wpr_offer_sctp R role p v j m w : grows R → R v → settled v j m false → stage p v (want_app j) m false None w →
  wpr (offer_sctp_section role) (λ _, aligned R) w.
Proof.
  intros Hgrows HR (Hso & Hview & Hnew & Happ & Hpend) Hs2.
  assert (∀ x, x ∈ j_lines j → is_app x = false) as Hno.
  { intros x Hx. unfold is_app. destruct (ln_transceiver x) eqn:Ex; [done|]. apply list_elem_of_lookup in Hx as (i & Hx).
    by assert (false = true) by (apply (so_app _ _ _ _ _ Hso); by exists i, x). }
  assert (j_app (want_app j) = true) as Hwant by (cbn; rewrite Happ; cbn; apply negb_true_iff; by apply existsb_none).
  apply wp_bind. eapply wp_mono; [|done|eapply wpr_createOffer; [exact Hs2|done]]. intros off w3 (Hs3 & Hoff & Hdesc).
  look. intros obj Hobj. look. intros media Hmedia. look. intros found Hfound.
  apply wp_bind. eapply wp_mono; [|done|by eapply wpr_ensure_transport]. intros ? w4 Hs4.
  apply wp_bind. eapply wp_mono; [|done|eapply wpr_setLocal; [exact Hs4|exact Hpend|exact Hoff]]. intros ? w5 Hs5.
  destruct (is_offer_app (want_app j) (offered off)) as (mid & Htok & Hfresh & Eoff); [done|done|done|]. cbn [want_app j_lines] in Hfresh, Eoff.
  look. intros section Hsec. destruct found as [section'|]; [|done]. injection Hsec as <-.
  assert (js_to_string (js_get section' "mid") = mid) as Em.
  { eapply (described_app obj (j_lines j)); [|exact Hno|exact Hmedia|exact Hfound]. rewrite <-Eoff. by apply Hdesc. }
  assert (mid ∉ v.*1) as Hmid by (rewrite (so_mids _ _ _ _ _ Hso); by rewrite map_fmap in Hfresh).
  apply wp_bind. eapply wp_mono; [|done|eapply (wpr_sdp _ (OpSendSctp section')); [exact Hs5| |]].
  3: { intros rs rs' x Hx. cbn [sdp_step]. apply bind_ok_inv in Hx as (rs1 & Hx & [= <- _]). exact Hx. }
  2: { cbn [op_ok]. rewrite Em. split; [by intros ->|done]. }
  intros ? w6 [Hs6 _]. cbn [spec_step] in Hs6. rewrite Em in Hs6.
  apply wp_bind. eapply wp_mono; [|done|eapply (wpr_answer off _ _ _ _ m _ true); [exact Hs6|done|done|done|]].
  2: { rewrite Eoff. apply (sound_snoc _ _ _ _ _ (app_line mid) Hso); done. }
  intros ? w7 (j7 & Hs7 & Hset7 & _). apply wp_set_handler. eapply stage_aligned; [|exact Hset7|by apply Hgrows]. by destruct Hs7.
Qed.

Lemma want_app_present v j m : settled v j m true → want_app j = j.
Proof.
  intros (Hso & _ & _ & Happ & _). destruct (proj1 (so_app _ _ _ _ _ Hso) eq_refl) as (i & x & Hx & Hn). unfold want_app.
  assert (existsb is_app (j_lines j) = true) as ->; [|rewrite Happ; cbn; rewrite <-Happ; by destruct j].
  apply existsb_elem. exists x. split; [by eapply list_elem_of_lookup_2|]. unfold is_app. by rewrite Hn.
Qed.

Lemma keeps_send_data_channel R old mis role o : grows R → keeps R (send_data_channel old mis role o).
Proof.
  intros Hgrows w (p & v & j & m & a & Hs & Hset & HR).
  look. intros h Hh. injection Hh as <-. look. intros q' Hq. apply (pc_is _ _ _ _ _ _ _ _ Hs) in Hq as ->.
  apply wp_bind. eapply wp_mono; [|done|by eapply wpr_data]. intros c w1 Hs1. apply wp_bind, wp_set_handler.
  match goal with |- wp _ _ _ (set_handler ?f w1).2 => assert (stage p v (want_app j) m a None (set_handler f w1).2) as Hs2 by (by destruct Hs1) end.
  set (w2 := (set_handler _ w1).2) in *. clearbody w2. apply wp_bind. rewrite (sg_app _ _ _ _ _ _ _ Hs). destruct a.
  - apply wp_ret. rewrite (want_app_present _ _ _ Hset) in Hs2. by eapply stage_aligned.
  - eapply wp_mono; [|done|by eapply wpr_offer_sctp]. done.
Qed.

(** ** Stopping *)

(** The sections are negotiated again, without the transceiver. *)
Lemma wpr_forget_after R id p v j m a w : stage p v j m a None w → j_new j = [] → j_app j = false → j_pending j = None →
  sound (j_lines j) v (j_stopped j) (delete (Some id) m) a → R v → wpr (offer_and_answer false ≫= λ _, forget id) (λ _, aligned R) w.
Proof.
  intros Hs Hnew Happ Hpend Hso HR. apply wp_bind. eapply wp_mono; [|done|by eapply wpr_offer_and_answer].
  intros ? w1 (j1 & Hs1 & Hset1). apply wp_set_handler. eapply stage_aligned; [|exact Hset1|done].
  exact (stage_map (delete (Some id)) _ _ _ _ _ _ _ Hs1).
Qed.

(** What stopping begins with: the transceiver loses its track, and its identifier is
    the local id. *)
Lemma wpr_unsend (e : string) id {A : Type} (f : option string → nat → M A) (Q : A → World → Prop) p v j m a w : stage p v j m a None w →
  settled v j m a →
  (∀ i l t w', stage p v j m a None w' → j_lines j !! i = Some l → ln_transceiver l = Some t → ln_mid l = id → t ∉ j_stopped j →
     wpr (f (Some id) t) Q w') →
  wpr (transceiver_or e id ≫= λ t, attempt (browse (sender_replaceTrack t None)) ≫= λ _, pc ≫= λ p, browse (pc_removeTrack p t) ≫= λ _,
       read (transceiver_mid t) ≫= λ k, f k t) Q w.
Proof.
  intros Hs Hset Hf. look. intros t Ht. destruct (mapped_section _ _ _ _ _ _ _ _ _ Hs Hset Ht) as (i & l & Hi & Hl & Hid & HtS).
  pose proof Hset as (Hso & Hview & Hnew & Happ & Hpend).
  apply wp_bind. eapply wp_mono; [|done|eapply (wpr_calm_attempt _ _ _ _ _ _ _ _ Hs); intros; apply calm_replaceTrack]. intros ? w1 Hs1.
  look. intros q Hq. calm Hs1. intros ? w2 Hs2. look. intros mid Hmid.
  assert (mid = Some id) as ->; [|by eapply Hf].
  injection Hmid as <-. pose proof (sg_jsep _ _ _ _ _ _ _ Hs2) as Ej. rewrite <-Hid. apply (jsep_mid p _ l t); rewrite ?Ej; [|done| |done]; rewrite Hpend.
  - by eapply list_elem_of_lookup_2.
  - exact (sound_unique _ _ _ _ _ _ _ _ Hso Hi Hl).
Qed.

Definition any_view v : Prop := True.

Lemma keeps_stop_sending id : keeps any_view (stop_sending id).
Proof.
  intros w (p & v & j & m & a & Hs & Hset & HR). pose proof Hset as (Hso & Hview & Hnew & Happ & Hpend).
  eapply (wpr_unsend _ _ (λ k t, close_section k ≫= λ c : bool, (if c then attempt (browse (transceiver_stop t)) else mret tt) ≫= λ _,
    offer_and_answer false ≫= λ _, forget id)); [done|done|]. intros i l t w2 Hs2 Hi Hl <- HtS.
  assert (v !! i = Some (ln_mid l, ln_zero l)) as Hvi by (by rewrite <-Hview, list_lookup_fmap, Hi).
  apply wp_bind. eapply wp_mono; [|done|eapply (wpr_sdp _ (OpClose (ln_mid l))); [exact Hs2| |]].
  3: { intros rs rs' x Hx. exact (f_equal (λ r, r ≫= λ r, Ok r.1) Hx). }
  2: { cbn. apply list_elem_of_fmap. exists (ln_mid l, ln_zero l). split; [done|]. by eapply list_elem_of_lookup_2. }
  intros b w3 [Hs3 (rs & rs' & Hrs & Hv & Hclose)]. destruct (close_result _ _ _ _ Hrs Hclose) as [Hyes Hno]. rewrite Hv in Hyes, Hno.
  apply wp_bind. destruct b.
  - rewrite (Hyes eq_refl _ _ Hvi) in Hs3. eapply wp_mono; [|done|by eapply wpr_stop]. intros ? w4 Hs4.
    eapply wpr_forget_after; [exact Hs4|done|done|done| |done]. by apply sound_close.
  - rewrite (Hno eq_refl) in Hs3. apply wp_ret. eapply wpr_forget_after; [exact Hs3|done|done|done| |done]. by apply sound_forget.
Qed.
Lemma keeps_stopSending id : keeps any_view (stopSending id).
Proof.
  apply keeps_look; [eauto with still|intros _]. apply keeps_look; [eauto with still|intros h].
  destruct (h_closed h); [by apply keeps_still|apply keeps_stop_sending].
Qed.

(** Firefox keeps the section. *)
Lemma keeps_stopSending_Firefox R id : keeps R (Firefox120.stopSending id).
Proof.
  apply keeps_look; [eauto with still|intros _]. apply keeps_look; [eauto with still|intros h]. destruct (h_closed h); [by apply keeps_still|].
  intros w (p & v & j & m & a & Hs & Hset & HR). pose proof Hset as (Hso & Hview & Hnew & Happ & Hpend).
  eapply (wpr_unsend _ _ (λ k t, disable_section k ≫= λ _, offer_and_answer false ≫= λ _, forget id)); [done|done|].
  intros i l t w2 Hs2 Hi Hl Hid HtS. sdp_call Hs2 (OpDisable id). intros ? w3 Hs3.
  eapply wpr_forget_after; [exact Hs3|done|done|done|by apply sound_forget|done].
Qed.

(** ** Sending *)

(** Where the remote description puts a section: in place of a closed one, or last. *)
Definition next_place v idx reuse : Prop :=
  match reuse with
  | Some r => v !! idx = Some (r, true) ∧ ∀ k e, (k < idx)%nat → v !! k = Some e → e.2 = false
  | None => idx = length v ∧ ∀ e, e ∈ v → e.2 = false
  end.
Definition placed v reuse mid : list (string * bool) :=
  match reuse with Some r => set_entry r (mid, false) v | None => v ++ [(mid, false)] end.

(** The section of the new transceiver [t] in the offer: it has a new identifier, which
    the transceiver gets, and its place is the one of the remote description. *)
Record new_section t mid idx reuse v j m a (ls : list line) : Prop := {
  ns_at : ls !! idx = Some {| ln_mid := mid; ln_transceiver := Some t; ln_zero := false |};
  ns_name : mid ≠ "" ∧ mid ∉ v.*1;
  ns_reuse : ∀ r, reuse = Some r → r ≠ "" ∧ (r, true) ∈ v;
  ns_length : reuse = None → length ls = S (length v);
  ns_sound : sound ls (placed v reuse mid) (j_stopped j) (<[Some mid := t]> m) a;
}.

Lemma offer_new_section t idx reuse v j m a ls : settled v j m a → NoDup v.*1 → is_offer (add_new t j) ls → t ∉ j_stopped j →
  (∀ l, l ∈ j_lines j → ln_transceiver l ≠ Some t) → next_place v idx reuse → ∃ mid, new_section t mid idx reuse v j m a ls.
Proof.
  intros Hset Hnd Hoff HtS Ht Hnext. pose proof Hset as (Hso & Hview & Hnew & Happ & Hpend).
  destruct (is_offer_one (add_new t j) t ls) as (mid & Htok & Hfresh & Eoff); [cbn; by rewrite Hnew|done|done|].
  cbn [add_new j_lines] in Hfresh, Eoff. exists mid.
  destruct (place_one v j m a idx reuse mid t Hset Hnd Htok Hfresh HtS Ht Hnext) as (Hat & Hne & Hmid & Hreuse & Hso').
  rewrite <-Eoff in *. pose proof (sound_store _ _ _ _ _ _ _ _ Hso' Hat eq_refl HtS) as Hst. split; try done.
  intros ->. apply sound_length in Hst. rewrite <-Hst. cbn. rewrite length_app. cbn. lia.
Qed.

Lemma new_section_mid t mid idx reuse v j m a off p w : stage p v (offered_state (offered off) (add_new t j)) m a (Some off) w → t ∉ j_stopped j →
  new_section t mid idx reuse v j m a (offered off) → transceiver_mid t (w_browser w) = Some mid.
Proof.
  intros Hs HtS [Hat _ _ _ Hso]. pose proof (sg_jsep _ _ _ _ _ _ _ Hs) as Ej.
  apply (jsep_mid p _ {| ln_mid := mid; ln_transceiver := Some t; ln_zero := false |} t); rewrite ?Ej; [|done| |done]; cbn.
  - by eapply list_elem_of_lookup_2.
  - exact (sound_unique _ _ _ _ _ _ _ _ Hso Hat eq_refl).
Qed.

(** The end of [send]: the section of the answer, the answer, and the transceiver in the
    map. *)
Lemma wpr_answer_section R {A : Type} section ps rp co mx t mid idx reuse v j m a off p w (f : jsval → M A) (Q : A → World → Prop) :
  stage p v (offered_state (offered off) (add_new t j)) m a (Some off) w → settled v j m a → new_section t mid idx reuse v j m a (offered off) →
  js_to_string (js_get section "mid") = mid → R (placed v reuse mid) →
  (∀ x w', transceiver_mid t (w_browser w') = Some mid → aligned R (store (Some mid) t w').2 → wpr (f x) Q w') → t ∉ j_stopped j →
  wpr (with_sdp (RemoteSdp.send section reuse ps rp co mx) ≫= λ x, apply_remote Answer ≫= λ _, f x) Q w.
Proof.
  intros Hs Hset Hnew Em HR Hf HtS. destruct Hnew as [Hat [Hne Hmid] Hreuse _ Hso].
  pose proof Hset as (_ & _ & Hn & Happ & Hpend).
  apply wp_bind. eapply wp_mono; [|done|eapply (wpr_sdp _ (OpSend section reuse ps rp co mx)); [exact Hs| |]].
  3: { intros rs0 rs' x Hx. exact (f_equal (λ r, r ≫= λ r, Ok r.1) Hx). }
  2: { cbn [op_ok]. rewrite Em. unfold fresh. destruct reuse as [r|]; [|by left]. destruct (Hreuse r eq_refl). auto. }
  intros x w7 [Hs7 _]. cbn [spec_step] in Hs7. rewrite Em, (not_elem_existsb mid v Hmid) in Hs7.
  apply wp_bind. eapply wp_mono; [|done|eapply (wpr_answer off _ (placed v reuse mid)); [exact Hs7|done|done|done|exact Hso]].
  intros ? w8 (j8 & Hs8 & Hset8 & ES & Hlines). destruct (Hlines idx _ Hat) as (l' & Hl' & El1 & El2). cbn in El1, El2.
  destruct Hset8 as (Hso8 & Hrest). apply Hf.
  - pose proof (sg_jsep _ _ _ _ _ _ _ Hs8) as Ej. rewrite <-El1. apply (jsep_mid p _ l' t); rewrite ?Ej; [|done| |]; rewrite ?(proj2 (proj2 (proj2 Hrest))).
    + by eapply list_elem_of_lookup_2.
    + exact (sound_unique _ _ _ _ _ _ _ _ Hso8 Hl' El2).
    + rewrite ES. exact HtS.
  - eapply stage_aligned; [exact (stage_map (<[Some mid := t]>) _ _ _ _ _ _ _ Hs8)|by split|done].
Qed.

(** The section that the handler reads from the local description. *)
Lemma local_section t mid idx reuse v j m a off obj section : new_section t mid idx reuse v j m a (offered off) → describes obj (offered off) →
  media_at obj idx = Ok section → js_to_string (js_get section "mid") = mid.
Proof. intros [Hat _ _ _ _] Hd H. exact (described_at _ _ _ _ _ Hd Hat H). Qed.
Lemma last_section t mid idx v j m a off obj section : new_section t mid idx None v j m a (offered off) → idx = length v → describes obj (offered off) →
  media_last obj = Ok section → js_to_string (js_get section "mid") = mid.
Proof.
  intros [Hat _ _ Hlen _] -> (media & Em & Hf) H. unfold media_last in H. rewrite Em in H. cbn [iterate mbind outcome_bind] in H.
  destruct (Forall2_lookup_r _ _ _ _ _ Hf Hat) as (x & Hx & Hmid & _).
  assert (last media = Some x) as E. { rewrite last_lookup, (Forall2_length _ _ _ Hf), (Hlen eq_refl). exact Hx. }
  rewrite E in H. cbn in H. apply bind_ok_inv in H as (_ & _ & [= <-]). exact Hmid.
Qed.

(** Rewriting the SSRC lines keeps the sections. *)
Lemma legacy_offer_sections o idx n o' : legacy_offer o idx n = Ok o' → offered o' = offered o.
Proof.
  unfold legacy_offer. intros H. apply bind_ok_inv in H as (sdp & Hp & H). apply bind_ok_inv in H as (sec & Hm & H).
  apply bind_ok_inv in H as (sec' & Ha & H). apply bind_ok_inv in H as (media & Hmedia & [= <-]).
  assert (js_get sdp "media" = JArr media) as E by (destruct (js_get sdp "media"); cbn in Hmedia; by try injection Hmedia as ->).
  eapply (offered_rewritten o sdp media idx sec); [done|done| |].
  - unfold media_at in Hm. rewrite E in Hm. cbn in Hm. unfold at_index in Hm. destruct (media !! idx) as [x|]; cbn in Hm; [|done].
    apply bind_ok_inv in Hm as (_ & _ & [= ->]). done.
  - intros k H1 H2. unfold UnifiedPlan_addLegacySimulcast in Ha. bind_inv. subst. unfold with_streams. by rewrite !js_get_set_ne by done.
Qed.

(** The beginning of [send]: the place of the section is read, and the transceiver
    added. *)
Lemma wpr_begin {A : Type} (src : source) (dir : option string) (enc : jsval) (f : nat * option string → nat → M A) (Q : A → World → Prop)
    p v j m a w : stage p v j m a None w →
  (∀ idx reuse t w', next_place v idx reuse → stage p v (add_new t j) m a None w' → t ∉ j_stopped j →
     (∀ l, l ∈ j_lines j → ln_transceiver l ≠ Some t) → wpr (f (idx, reuse) t) Q w') →
  wpr (with_sdp (λ rs, Ok (rs, getNextMediaSectionIdx rs)) ≫= λ x, pc ≫= λ p, browse (pc_addTransceiver p src dir enc) ≫= λ t, f x t) Q w.
Proof.
  intros Hs Hf. apply wp_bind. eapply wp_mono; [|done|by eapply wpr_peek]. intros [idx reuse] w1 [Hs1 (rs & Hrs & Hv & Hnext)].
  symmetry in Hnext. apply next_section in Hnext. rewrite Hv in Hnext.
  look. intros q Hq. apply (pc_is _ _ _ _ _ _ _ _ Hs1) in Hq as ->.
  apply wp_bind. eapply wp_mono; [|done|by eapply wpr_add]. intros t w2 (Hs2 & HtS & Ht). by eapply Hf.
Qed.

(** The offer. *)
Lemma wpr_offer {A : Type} (role : Handler Transceivers → string) (f : text → jsval → M A) (Q : A → World → Prop) t p v j m a w :
  stage p v (add_new t j) m a None w → settled v j m a →
  (∀ off obj w', stage p v (add_new t j) m a None w' → is_offer (add_new t j) (offered off) → wpr (f off obj) Q w') →
  wpr (createOffer false ≫= λ offer, lift (sdp_parse offer) ≫= λ o, ensure_transport role o ≫= λ _, f offer o) Q w.
Proof.
  intros Hs Hset Hf. pose proof Hset as (_ & _ & _ & _ & Hpend).
  apply wp_bind. eapply wp_mono; [|done|by eapply wpr_createOffer]. intros off w4 (Hs4 & Hoff & _). look. intros obj _.
  apply wp_bind. eapply wp_mono; [|done|by eapply wpr_ensure_transport]. intros ? w5 Hs5. by apply Hf.
Qed.

(** The local description, in which the transceiver has its identifier. *)
Lemma wpr_local {A : Type} t idx reuse off (f : M A) (Q : A → World → Prop) p v j m a w :
  stage p v (add_new t j) m a None w → settled v j m a → t ∉ j_stopped j → (∀ l, l ∈ j_lines j → ln_transceiver l ≠ Some t) →
  next_place v idx reuse → is_offer (add_new t j) (offered off) →
  (∀ mid w', stage p v (offered_state (offered off) (add_new t j)) m a (Some off) w' → new_section t mid idx reuse v j m a (offered off) →
     wpr f Q w') →
  wpr (setLocalDescription Offer off ≫= λ _, f) Q w.
Proof.
  intros Hs Hset HtS Ht Hnext Hoff Hf. pose proof Hset as (_ & _ & _ & _ & Hpend).
  apply wp_bind. eapply wp_mono; [|done|eapply wpr_setLocal; [exact Hs|exact Hpend|exact Hoff]]. intros ? w7 Hs7.
  destruct (offer_new_section t idx reuse v j m a (offered off) Hset (stage_nodup _ _ _ _ _ _ _ Hs) Hoff HtS Ht Hnext) as (mid & Hsec).
  by eapply Hf.
Qed.

(** What the handler reads then: the identifier, and the description. *)
Lemma wpr_read_mid {A : Type} t mid idx reuse off (f : option string → jsval → M A) (Q : A → World → Prop) p v j m a w :
  stage p v (offered_state (offered off) (add_new t j)) m a (Some off) w → t ∉ j_stopped j → new_section t mid idx reuse v j m a (offered off) →
  (∀ obj, describes obj (offered off) → wpr (f (Some mid) obj) Q w) →
  wpr (read (transceiver_mid t) ≫= λ k, localDescription ≫= λ o, f k o) Q w.
Proof.
  intros Hs HtS Hsec Hf. look. intros k [= <-]. rewrite (new_section_mid _ _ _ _ _ _ _ _ _ _ _ Hs HtS Hsec).
  look. intros obj Hobj. apply Hf. apply (local_description_is _ _ _ _ _ _ _ _ Hs) in Hobj as (sdp & H1 & H2).
  eapply jsep_local; [|done|done]. by rewrite (sg_jsep _ _ _ _ _ _ _ Hs).
Qed.

(** The transceiver is put into the map. *)
Lemma wpr_stored R {A : Type} k t (x : A) w : aligned R (store k t w).2 → wpr (store k t ≫= λ _, mret x) (λ _, aligned R) w.
Proof. done. Qed.

Context (isSameProfile : jsval → jsval → bool) (generateProfileLevelIdStringForAnswer : jsval → jsval → outcome jsval).
Abbreviation for_profile f := (f isSameProfile generateProfileLevelIdStringForAnswer).

(** The callback of the application. *)
Lemma wpr_sender_told {A : Type} (b : bool) t (f : M A) (Q : A → World → Prop) p v j m a w : stage p v j m a None w →
  (∀ w', stage p v j m a None w' → wpr f Q w') → wpr ((if b then browse (call_onRtpSender t) else mret tt) ≫= λ _, f) Q w.
Proof.
  intros Hs Hf. apply wp_bind. eapply (wp_mono _ (λ _, stage p v j m a None)); [by intros _ w'; apply Hf|done|].
  destruct b; [|done]. apply (wpr_calm _ _ _ _ _ _ _ _ Hs). intros b. apply calm_onRtpSender.
Qed.

(** The end of [send], where [section_is] tells which section has been read. *)
Ltac answer_section section_is := look; intros section Hsection; repeat (look; intros ? _);
  eapply (wpr_answer_section any_view); [eassumption|eassumption|eassumption|by eapply section_is|done| |done];
  let w' := fresh "w" in intros ? w' ? ?; by apply wpr_stored.

Lemma keeps_send o : keeps any_view (for_profile Chrome111.send o).
Proof.
  intros w (p & v & j & m & a & Hs & Hset & HR). do 5 (look; intros ? _). eapply wpr_begin; [exact Hs|].
  intros idx reuse t w2 Hnext Hs2 HtS Ht. eapply wpr_sender_told; [exact Hs2|]. intros w3 Hs3.
  eapply wpr_offer; [exact Hs3|done|]. intros off obj w4 Hs4 Hoff.
  eapply wpr_local; [exact Hs4|done|done|done|exact Hnext|exact Hoff|]. intros mid w6 Hs6 Hsec.
  eapply wpr_read_mid; [exact Hs6|done|exact Hsec|]. intros obj' Hd. answer_section local_section.
Qed.

(** An offer that may have been rewritten. *)
Lemma maybe_rewritten (b : bool) off off' idx (n : nat) j (w : World) : (lift (if b then legacy_offer off idx n else Ok off) w).1 = Ok off' →
  is_offer j (offered off) → is_offer j (offered off').
Proof. intros H Hoff. cbn in H. destruct b; [by rewrite (legacy_offer_sections _ _ _ _ H)|by injection H as <-]. Qed.
Lemma maybe_simulcast (e : option (list jsval)) off off' idx j (w : World) :
  (lift match e with
        | Some encodings => if (1 <? length encodings)%nat then legacy_offer off idx (length encodings) else Ok off
        | None => Ok off
        end w).1 = Ok off' → is_offer j (offered off) → is_offer j (offered off').
Proof. destruct e as [l|]; [exact (maybe_rewritten (1 <? length l)%nat _ _ _ _ _ _)|]. cbn. by intros [= <-]. Qed.

Lemma keeps_send_Chrome74 o : keeps any_view (for_profile Chrome74.send o).
Proof.
  intros w (p & v & j & m & a & Hs & Hset & HR). do 5 (look; intros ? _). eapply wpr_begin; [exact Hs|].
  intros idx reuse t w2 Hnext Hs2 HtS Ht. eapply wpr_offer; [exact Hs2|done|]. intros off obj w4 Hs4 Hoff.
  look. intros layers _. look. intros hack _. look. intros off' Hoff'.
  eapply wpr_local; [exact Hs4|done|done|done|exact Hnext|exact (maybe_rewritten _ _ _ _ _ _ _ Hoff' Hoff)|]. intros mid w6 Hs6 Hsec.
  eapply wpr_read_mid; [exact Hs6|done|exact Hsec|]. intros obj' Hd. answer_section local_section.
Qed.

Lemma keeps_send_ReactNativeUnifiedPlan `{!ReactNativeBrowser B} o : keeps any_view (for_profile ReactNativeUnifiedPlan.send o).
Proof.
  intros w (p & v & j & m & a & Hs & Hset & HR). do 5 (look; intros ? _). eapply wpr_begin; [exact Hs|].
  intros idx reuse t w2 Hnext Hs2 HtS Ht. eapply wpr_sender_told; [exact Hs2|]. intros w3 Hs3.
  eapply wpr_offer; [exact Hs3|done|]. intros off obj w4 Hs4 Hoff.
  look. intros layers _. look. intros hack _. look. intros off' Hoff'.
  eapply wpr_local; [exact Hs4|done|done|done|exact Hnext|exact (maybe_rewritten _ _ _ _ _ _ _ Hoff' Hoff)|]. intros mid w6 Hs6 Hsec.
  eapply wpr_read_mid; [exact Hs6|done|exact Hsec|]. intros obj' Hd. look. intros section Hsection. do 3 (look; intros ? _).
  eapply (wpr_answer_section any_view); [exact Hs6|done|exact Hsec|by eapply local_section|done| |done]. intros x w7 Hmid Hw.
  look. intros k [= <-]. rewrite Hmid. destruct (ns_name _ _ _ _ _ _ _ _ _ Hsec) as [Hne _].
  assert (truthy (from_option JStr JUndef (Some mid)) = true) as -> by (by destruct mid). by apply wpr_stored.
Qed.

Lemma keeps_send_Safari12 o : keeps any_view (for_profile Safari12.send o).
Proof.
  intros w (p & v & j & m & a & Hs & Hset & HR). do 5 (look; intros ? _). eapply wpr_begin; [exact Hs|].
  intros idx reuse t w2 Hnext Hs2 HtS Ht. eapply wpr_sender_told; [exact Hs2|]. intros w3 Hs3.
  eapply wpr_offer; [exact Hs3|done|]. intros off obj w4 Hs4 Hoff. look. intros layers _. look. intros off' Hoff'.
  eapply wpr_local; [exact Hs4|done|done|done|exact Hnext|exact (maybe_simulcast _ _ _ _ _ _ Hoff' Hoff)|]. intros mid w6 Hs6 Hsec.
  eapply wpr_read_mid; [exact Hs6|done|exact Hsec|]. intros obj' Hd. answer_section local_section.
Qed.

Lemma keeps_send_Chrome70 o : keeps any_view (for_profile Chrome70.send o).
Proof.
  intros w (p & v & j & m & a & Hs & Hset & HR). do 4 (look; intros ? _). eapply wpr_begin; [exact Hs|].
  intros idx reuse t w2 Hnext Hs2 HtS Ht. eapply wpr_offer; [exact Hs2|done|]. intros off obj w4 Hs4 Hoff.
  look. intros off1 Hoff1. apply (maybe_simulcast _ _ _ _ _ _ Hoff1) in Hoff.
  look. intros layers _. look. intros hack _. look. intros off2 Hoff2.
  eapply wpr_local; [exact Hs4|done|done|done|exact Hnext|exact (maybe_rewritten _ _ _ _ _ _ _ Hoff2 Hoff)|]. intros mid w6 Hs6 Hsec.
  apply wp_bind. eapply (wp_mono _ (λ _, stage p v (offered_state (offered off2) (add_new t j)) m a (Some off2))); [|done|].
  - intros _ w7 Hs7. eapply wpr_read_mid; [exact Hs7|done|exact Hsec|]. intros obj' Hd. answer_section local_section.
  - destruct (sn_encodings o) as [encodings|]; [|done]. calm Hs6. intros params w7 Hs7. look. intros encs _.
    apply (wpr_calm _ _ _ _ _ _ _ _ Hs7). intros b. apply calm_setParameters.
Qed.

(** ** Firefox *)

(** No section is ever closed, so that a new one comes last. *)
Definition all_open v : Prop := ∀ e, e ∈ v → e.2 = false.
Lemma all_open_grows : grows all_open.
Proof. intros v mid Hv e [H|H%list_elem_of_singleton]%elem_of_app; [auto|by subst]. Qed.

(** The transceiver is added without asking for its place. *)
Lemma wpr_begin_last {A : Type} (src : source) (dir : option string) (enc : jsval) (f : nat → M A) (Q : A → World → Prop) p v j m a w :
  stage p v j m a None w → all_open v →
  (∀ t w', next_place v (length v) None → stage p v (add_new t j) m a None w' → t ∉ j_stopped j →
     (∀ l, l ∈ j_lines j → ln_transceiver l ≠ Some t) → wpr (f t) Q w') →
  wpr (pc ≫= λ p, browse (pc_addTransceiver p src dir enc) ≫= f) Q w.
Proof.
  intros Hs Hopen Hf. look. intros q Hq. apply (pc_is _ _ _ _ _ _ _ _ Hs) in Hq as ->.
  apply wp_bind. eapply wp_mono; [|done|by eapply wpr_add]. intros t w2 (Hs2 & HtS & Ht). by eapply Hf.
Qed.

Ltac answer_last := look; intros section Hsection; repeat (look; intros ? _);
  eapply (wpr_answer_section all_open); [eassumption|eassumption|eassumption|by eapply last_section|by apply all_open_grows| |done];
  let w' := fresh "w" in intros ? w' ? ?; by apply wpr_stored.

Lemma keeps_send_Firefox120 `{!FirefoxBrowser B} o : keeps all_open (for_profile Firefox120.send o).
Proof.
  intros w (p & v & j & m & a & Hs & Hset & HR). do 5 (look; intros ? _). eapply wpr_begin_last; [exact Hs|exact HR|].
  intros t w2 Hnext Hs2 HtS Ht. eapply wpr_sender_told; [exact Hs2|]. intros w3 Hs3.
  eapply wpr_offer; [exact Hs3|done|]. intros off obj w4 Hs4 Hoff. look. intros layers _.
  eapply wpr_local; [exact Hs4|done|done|done|exact Hnext|exact Hoff|]. intros mid w6 Hs6 Hsec.
  eapply wpr_read_mid; [exact Hs6|done|exact Hsec|]. intros obj' Hd. answer_last.
Qed.

Lemma keeps_send_Firefox60 `{!FirefoxBrowser B} o : keeps all_open (for_profile Firefox60.send o).
Proof.
  intros w (p & v & j & m & a & Hs & Hset & HR). do 5 (look; intros ? _). eapply wpr_begin_last; [exact Hs|exact HR|].
  intros t w2 Hnext Hs2 HtS Ht. apply wp_bind. eapply (wp_mono _ (λ _, stage p v (add_new t j) m a None)); [|done|].
  - intros _ w3 Hs3. eapply wpr_offer; [exact Hs3|done|]. intros off obj w4 Hs4 Hoff. look. intros layers _.
    eapply wpr_local; [exact Hs4|done|done|done|exact Hnext|exact Hoff|]. intros mid w6 Hs6 Hsec.
    eapply wpr_read_mid; [exact Hs6|done|exact Hsec|]. intros obj' Hd. answer_last.
  - destruct (sn_encodings o) as [encodings|]; [|done]. cbn [fmap option_fmap option_map]. calm Hs2. intros params w3 Hs3.
    apply (wpr_calm _ _ _ _ _ _ _ _ Hs3). intros b. apply calm_setParameters.
Qed.

(** ** Runs *)

(** What the transport asks of a sending handler, until it closes it. *)
Definition sending (op : handler_op) : bool :=
  match op with
  | HSend _ | HStopSending _ | HPauseSending _ | HResumeSending _ | HReplaceTrack _ _ | HSetMaxSpatialLayer _ _
  | HSetRtpEncodingParameters _ _ | HSendDataChannel _ | HRestartIce _ | HUpdateIceServers _ | HTransportStats | HSenderStats _ => true
  | _ => false
  end.

(** A start of a sending handler. *)
Lemma run_with_aligned R semantics force o (b : B) forced : R [] → ro_direction o = "send" → forces forced force →
  wpr (run_with false semantics force o) (λ _, aligned R) (new_World ∅ b).
Proof.
  intros HR Hdir Hf. apply wp_bind, wp_set_handler, wp_bind, wp_lift; [|done]. intros rs Hrs. apply new_inv in Hrs as [Hi Hv]; [|done].
  apply wp_bind, wp_set_handler, wp_bind, wp_set_handler, wp_bind, wp_lift; [|done]. intros audio _.
  apply wp_bind, wp_lift; [|done]. intros video _. apply wp_bind, wp_set_handler, wp_bind.
  eapply wp_mono; [|done|by apply Hf]. intros _ w ->. apply wp_bind. unfold wp at 1, browse.
  destruct (new_RTCPeerConnection _ _ _) as [[p|e] b'] eqn:E; [|done]. apply jsep_new in E.
  apply wp_bind, wp_set_handler, wp_bind, wp_read, wp_set_handler. apply (stage_aligned _ p [] jsep_empty ∅ false); [| |done].
  - split; cbn; try done; [by exists rs|]. constructor.
  - split_and!; try done. split; try done. split; [done|]. by intros (i & l & Hl & _).
Qed.
Lemma guarded_aligned R (f : M unit) (b : B) : wpr f (λ _, aligned R) (new_World ∅ b) → wpr (guarded f) (λ _, aligned R) (new_World ∅ b).
Proof. intros H. by apply wp_bind, wp_bind, wp_handler, wp_lift. Qed.

(** The interface: a handler that starts aligned and stays so. *)
Class Aligner (h : Methods World) R : Prop := {
  al_run o b : ro_direction o = "send" → wpr (m_run _ h o) (λ _, aligned R) (new_World ∅ b);
  al_keeps op : sending op = true → keeps R (do_op h op);
}.

Lemma any_grows : grows any_view.
Proof. done. Qed.

(** The methods in the order of [handler_op], given those in which the handlers with a
    closed flag differ. *)
Ltac align send stop resume servers grows :=
  intros op Hop; destruct op; try done; method; try apply keeps_ignore;
  [ send | stop | apply keeps_pauseSending | resume | apply keeps_guarded, keeps_replace_track | apply keeps_guarded, keeps_change_encodings
  | apply keeps_guarded, keeps_change_encodings
  | do 2 (apply keeps_look; [by eauto with still|intros ?]); apply keeps_send_data_channel, grows
  | apply keeps_guarded, keeps_restart_ice | servers | apply keeps_guarded, keeps_transport_stats | apply keeps_guarded, keeps_sender_stats ].
Ltac servers := apply keeps_guarded, keeps_update_ice_servers.

#[export] Instance aligner_Chrome111 : Aligner (for_profile Chrome111.createFactory) any_view.
Proof.
  split; [intros o b Hd; apply guarded_aligned; by eapply run_with_aligned, forces_role|].
  align ltac:(apply keeps_send) ltac:(apply keeps_stopSending) ltac:(apply keeps_resumeSending) servers any_grows.
Qed.
#[export] Instance aligner_Chrome74 : Aligner (for_profile Chrome74.createFactory) any_view.
Proof.
  split; [intros o b Hd; exact (run_with_aligned any_view (Some "unified-plan") _ o b _ I Hd (forces_role o))|].
  align ltac:(apply keeps_send_Chrome74) ltac:(apply keeps_stopSending) ltac:(apply keeps_resumeSending) servers any_grows.
Qed.
#[export] Instance aligner_Safari12 : Aligner (for_profile Safari12.createFactory) any_view.
Proof.
  split; [intros o b Hd; apply guarded_aligned; by eapply run_with_aligned, forces_role|].
  align ltac:(apply keeps_send_Safari12) ltac:(apply keeps_stopSending) ltac:(apply keeps_resumeSending_Safari12) servers any_grows.
Qed.
#[export] Instance aligner_ReactNativeUnifiedPlan `{!ReactNativeBrowser B} : Aligner (for_profile ReactNativeUnifiedPlan.createFactory) any_view.
Proof.
  split; [intros o b Hd; apply guarded_aligned; by eapply run_with_aligned, forces_role|].
  align ltac:(apply keeps_send_ReactNativeUnifiedPlan) ltac:(apply keeps_stopSending) ltac:(apply keeps_resumeSending) servers any_grows.
Qed.
#[export] Instance aligner_Chrome70 : Aligner (for_profile Chrome70.createFactory) any_view.
Proof.
  split; [intros o b Hd; exact (run_with_aligned any_view (Some "unified-plan") _ o b _ I Hd (forces_role o))|].
  intros op Hop; destruct op; try done; method; try apply keeps_ignore.
  - apply keeps_send_Chrome70.
  - apply keeps_look; [by eauto with still|intros _; apply keeps_stop_sending].
  - by apply keeps_still.
  - by apply keeps_still.
  - apply keeps_replace_track.
  - apply keeps_change_encodings.
  - apply keeps_change_encodings.
  - apply keeps_look; [by eauto with still|intros _; by apply keeps_send_data_channel].
  - apply keeps_restart_ice.
  - apply keeps_update_ice_servers.
  - apply keeps_transport_stats.
  - apply keeps_sender_stats.
Qed.
Lemma no_sections_open : all_open [].
Proof. intros e H. by apply elem_of_nil in H. Qed.
Ltac unsupported := apply keeps_guarded; by apply keeps_still.
#[export] Instance aligner_Firefox120 `{!FirefoxBrowser B} : Aligner (for_profile Firefox120.createFactory) all_open.
Proof.
  split; [intros o b Hd; apply guarded_aligned; eapply run_with_aligned; [apply no_sections_open|done|apply forces_none]|].
  align ltac:(apply keeps_send_Firefox120) ltac:(apply keeps_stopSending_Firefox) ltac:(apply keeps_resumeSending_Safari12) unsupported all_open_grows.
Qed.
#[export] Instance aligner_Firefox60 `{!FirefoxBrowser B} : Aligner (for_profile Firefox60.createFactory) all_open.
Proof.
  split; [intros o b Hd; apply guarded_aligned; eapply run_with_aligned; [apply no_sections_open|done|apply forces_none]|].
  align ltac:(apply keeps_send_Firefox60) ltac:(apply keeps_stopSending_Firefox) ltac:(apply keeps_resumeSending_Safari12) unsupported all_open_grows.
Qed.

(** ** The theorem *)

Context `{!ReactNativeBrowser B} `{!FirefoxBrowser B}.
Abbreviation unified_plan := (for_profile unified_plan).

Lemma unified_aligner (name : BuiltinHandlerName) (h : Methods World) : unified_plan name = Some h → ∃ R, Aligner h R.
Proof. destruct name; intros [= <-]; eexists; apply _. Qed.

Lemma aligned_matches R w : aligned R w → answers None (w_log w) ∧ ∃ p rs, h_pc (w_handler w) = Some p ∧ h_remoteSdp (w_handler w) = Some rs ∧
  view rs = line_view <$> j_lines (jsep p (w_browser w)) ∧
  ∀ localId t, h_mapMidTransceiver (w_handler w) !! localId = Some t →
    ∃ mid, localId = Some mid ∧ transceiver_mid t (w_browser w) = Some mid ∧ (mid, false) ∈ view rs.
Proof.
  intros (p & v & j & m & a & [H1 H2 (rs & H3 & Hi & Hv) H4 H5 H6 H7] & (Hso & Hview & _ & _ & Hpend) & _).
  split; [done|]. exists p, rs. split_and!; [done|done|by rewrite Hv, H4|]. intros localId t Ht. rewrite H5 in Ht.
  destruct (so_map _ _ _ _ _ Hso _ _ Ht) as (HS & i & l & Hl & Et & ->). exists (ln_mid l). split_and!; [done| |].
  - apply (jsep_mid p _ l t); rewrite ?H4; [|done| |done]; rewrite Hpend; [by eapply list_elem_of_lookup_2|].
    exact (sound_unique _ _ _ _ _ _ _ _ Hso Hl Et).
  - rewrite Hv, <-Hview. apply list_elem_of_fmap. exists l. split; [|by eapply list_elem_of_lookup_2]. unfold line_view. f_equal.
    destruct (ln_zero l) eqn:Ez; [|done]. destruct (so_closed _ _ _ _ _ Hso i l (ln_mid l) Hl) as (t' & Et' & HS'); [|congruence].
    rewrite <-Hview, list_lookup_fmap, Hl. cbn. unfold line_view. by rewrite Ez.
Qed.

(** C15: the answers a sending handler for unified plan gives match the offers of a browser
    that follows JSEP: in every run whose calls succeed, each offer applied locally,
    also one whose SSRC lines the handler has rewritten, is answered by a description
    with the same sections in the same order, sections of stopped transceivers
    included and recycled in the same place; at the end the remote description has
    the sections of the browser, closed where both have rejected them, and every
    local id is the identifier of its transceiver and of an open section. *)
Theorem answers_match_offers name h o b w0 ops w : unified_plan name = Some h → ro_direction o = "send" →
  m_run _ h o (new_World ∅ b) = (Ok tt, w0) → Forall (λ op, sending op = true) ops → each (do_op h) ops w0 = (Ok tt, w) →
  answers None (w_log w) ∧ ∃ p rs, h_pc (w_handler w) = Some p ∧ h_remoteSdp (w_handler w) = Some rs ∧
    view rs = line_view <$> j_lines (jsep p (w_browser w)) ∧
    ∀ localId t, h_mapMidTransceiver (w_handler w) !! localId = Some t →
      ∃ mid, localId = Some mid ∧ transceiver_mid t (w_browser w) = Some mid ∧ (mid, false) ∈ view rs.
Proof.
  intros (R & Hal)%unified_aligner Hdir Hrun Hops Hdo. pose proof (al_run o b Hdir) as H0. unfold wp in H0. rewrite Hrun in H0.
  assert (wpr (each (do_op h) ops) (λ _, aligned R) w0) as H.
  { apply wp_each; [|done]. intros op w1 Hin Hw1. apply al_keeps; [|done]. rewrite Forall_forall in Hops. by apply Hops. }
  unfold wp in H. rewrite Hdo in H. by eapply aligned_matches.
Qed.
End Keeping.
