(* ===== verification/HandlerWitnesses.v ===== *)
(** * A browser that follows the rules

    The smallest browser that satisfies the interface [JsepBrowser]: it keeps the
    abstract state itself and writes offers from it.  The theorems on handlers are
    applied to runs with it. *)

From Stdlib Require Import QArith Ascii.
From stdpp Require Import gmap.
From S2P Require Import Prelude JsNum JsVal JsConv JsString OrtcValidate Ortc SdpUtils MediaSection RemoteSdp RemoteSdpProofs.
From S2P Require Import Browser HandlerBase Device Handlers HandlerLogic HandlerProofs HandlerRuns Jsep JsepProofs JsepHandlers.
From S2P Require Import PlanBBase Chrome111.
Local Open Scope string_scope.
Local Open Scope list_scope.
Local Open Scope Z_scope.

(** ** Texts

    A text is the object itself.  Its sections also tell their transceivers, and whether
    they have been rejected. *)

#[export] Instance object_text : SdpText jsval := {|
  sdp_parse := Ok;
  sdp_write o := o;
  sdp_parseParams _ := Ok (JObj []);
  sdp_parseSimulcastStreamList _ := Ok [] |}.

Definition section_object (l : line) : jsval :=
  JObj [("mid", JStr (ln_mid l)); ("type", JStr (if is_app l then "application" else "video")); ("port", js_int 7);
        ("transceiver", from_option (λ t, JArr (replicate t JNull)) JNull (ln_transceiver l)); ("rejected", JBool (ln_zero l));
        ("ssrcs", JArr [JObj [("id", js_int 1); ("attribute", JStr "cname"); ("value", JStr "c")];
                        JObj [("id", js_int 1); ("attribute", JStr "msid"); ("value", JStr "s t")]])].
Definition offer_object (ls : list line) : jsval :=
  JObj [("setup", JStr "actpass"); ("fingerprint", JObj [("type", JStr "sha-256"); ("hash", JStr "AA")]);
        ("media", JArr (map section_object ls))].

Definition line_of (m : jsval) : line :=
  {| ln_mid := js_to_string (js_get m "mid");
     ln_transceiver := match js_get m "transceiver" with JArr l => Some (length l) | _ => None end;
     ln_zero := truthy (js_get m "rejected") |}.
Definition lines_of (o : jsval) : list line := map line_of (elements (js_get o "media")).

Lemma line_of_section l : line_of (section_object l) = l.
Proof.
  destruct l as [mid t z]. change (line_of _) with {| ln_mid := mid; ln_transceiver :=
    match from_option (λ t, JArr (replicate t JNull)) JNull t with JArr l => Some (length l) | _ => None end; ln_zero := z |}.
  destruct t; cbn; by rewrite ?length_replicate.
Qed.
Lemma lines_of_offer ls : lines_of (offer_object ls) = ls.
Proof.
  change (lines_of (offer_object ls)) with (map line_of (map section_object ls)). rewrite map_map. rewrite <-(map_id ls) at 2.
  apply map_ext, line_of_section.
Qed.

Lemma lines_of_rewritten o media i m m' : js_get o "media" = JArr media → media !! i = Some m →
  (∀ k, k ≠ "ssrcs" → k ≠ "ssrcGroups" → js_get m' k = js_get m k) →
  lines_of (js_set o "media" (JArr (<[i := m']> media))) = lines_of o.
Proof.
  intros Ho Hi Hm. unfold lines_of. rewrite Ho. destruct o; try done. rewrite js_get_set_eq. cbn [elements].
  rewrite !map_fmap, list_fmap_insert. assert (line_of m' = line_of m) as -> by (unfold line_of; by rewrite !Hm by done).
  apply list_insert_id. by rewrite list_lookup_fmap, Hi.
Qed.

(** ** The browser *)

(** With a listener of [@connect] that may reject once. *)
Record browser_state := { bs_jsep : JsepState; bs_rejects : bool }.

Definition with_jsep (f : JsepState → JsepState) (b : browser_state) : browser_state :=
  {| bs_jsep := f (bs_jsep b); bs_rejects := bs_rejects b |}.

Definition fresh_name (n : nat) : string := text (replicate (S n) "m"%char).
(** Longer than every identifier in use. *)
Definition first_fresh (j : JsepState) : nat := max_list (map (λ l, length (chars (ln_mid l))) (j_lines j)).
Definition written_lines (j : JsepState) : list line :=
  let n := first_fresh j in
  place (j_lines j) (zip (map fresh_name (seq (S n) (length (j_new j)))) (j_new j)) ++ (if j_app j then [app_line (fresh_name n)] else []).
Definition fresh_transceiver (j : JsepState) : nat :=
  S (max_list (omap ln_transceiver (j_lines j) ++ j_new j ++ base.elements (j_stopped j))).

Definition answer {A} (a : A) (b : browser_state) : outcome A * browser_state := (Ok a, b).

#[export] Instance small_phone : ReactNativeBrowser browser_state := {| sendStream_release := answer tt |}.
#[export] Instance small_canvas : FirefoxBrowser browser_state := {|
  new_canvas := answer (0%nat, 0%nat); canvas_remove _ := answer tt; track_stop _ := answer tt |}.
#[export] Instance small_browser : Browser browser_state jsval := {|
  new_RTCPeerConnection _ _ b := (Ok 0%nat, {| bs_jsep := jsep_empty; bs_rejects := bs_rejects b |});
  pc_close _ := answer tt;
  pc_connectionState _ _ := JStr "new";
  pc_getConfiguration _ := answer (JObj []);
  pc_setConfiguration _ _ := answer tt;
  pc_getStats _ := answer (JArr []);
  pc_addTransceiver _ _ _ _ b := (Ok (fresh_transceiver (bs_jsep b)), with_jsep (add_new (fresh_transceiver (bs_jsep b))) b);
  pc_getTransceivers _ b := omap ln_transceiver (j_lines (bs_jsep b));
  pc_removeTrack _ _ := answer tt;
  pc_createDataChannel _ _ _ b := (Ok 0%nat, with_jsep want_app b);
  pc_createOffer _ _ b := (Ok (offer_object (written_lines (bs_jsep b))), b);
  pc_createAnswer _ := answer (offer_object [{| ln_mid := "video"; ln_transceiver := Some 0%nat; ln_zero := false |}]);
  pc_setLocalDescription _ type d b :=
    match type with
    | Offer => (Ok tt, with_jsep (offered_state (lines_of d)) b)
    | Answer => (Ok tt, b)
    end;
  pc_setRemoteDescription _ type d b :=
    match type, j_pending (bs_jsep b) with
    | Answer, Some ls => (Ok tt, with_jsep (answered_state ls (ids_of d).*2) b)
    | Answer, None => (Throw "wrong state", b)
    | Offer, _ => (Ok tt, b)
    end;
  pc_localDescription _ b := Ok (offer_object (default (j_lines (bs_jsep b)) (j_pending (bs_jsep b))));
  transceiver_mid t b :=
    let j := bs_jsep b in
    ln_mid <$> array_find (λ l, bool_decide (ln_transceiver l = Some t)) (default (j_lines j) (j_pending j));
  transceiver_setDirection _ _ := answer tt;
  transceiver_stop t b := (Ok tt, with_jsep (stop t) b);
  sender_replaceTrack _ _ := answer tt;
  sender_getParameters _ := answer (JObj [("encodings", JArr [])]);
  sender_setParameters _ _ := answer tt;
  sender_getStats _ := answer (JArr []);
  receiver_track t _ := t;
  receiver_getStats _ := answer (JArr []);
  emit_connect _ b :=
    if bs_rejects b then (Throw "rejected", {| bs_jsep := bs_jsep b; bs_rejects := false |}) else (Ok tt, b);
  call_onRtpSender _ := answer tt;
  call_onRtpReceiver _ := answer tt |}.

(** With plan B: one section for video, for which track 1 is sent and the tracks [a] and
    [b] are received. *)
Definition video_section (b : browser_state) : browser_state :=
  if (length (j_lines (bs_jsep b)) =? 0)%nat then with_jsep (add_new (fresh_transceiver (bs_jsep b))) b else b.
Definition numbered (names : list string) : list (nat * string) := imap pair names.
#[export] Instance small_plan_b : PlanBBrowser browser_state jsval := {|
  stream_addTrack _ _ := answer tt;
  stream_removeTrack _ _ := answer tt;
  stream_getTracks _ _ := [];
  stream_release _ := answer tt;
  stream_id _ _ := "s";
  stream_getTrackById _ id _ := fst <$> array_find (λ e, String.eqb e.2 id) (numbered ["a"; "b"]);
  track_id _ _ := "t";
  pc_addTrack _ _ _ b := (Ok tt, video_section b);
  pc_addStream _ _ b := (Ok tt, video_section b);
  pc_getSenders _ _ := [1%nat];
  pc_getReceivers _ _ := [0%nat; 1%nat];
  pc_getRemoteStreams _ _ := [0%nat];
  pc_signalingState _ b := if j_pending (bs_jsep b) is Some _ then "have-local-offer" else "stable";
  pc_createReceivingOffer _ b := (Ok (offer_object (written_lines (bs_jsep b))), b);
  sender_track n _ := Some n;
  receiver_trackId n _ := ["a"; "b"] !! n;
  random_number b := (0, b) |}.

(** ** The rules *)

Lemma max_list_elem n l : n ∈ l → (n <= max_list l)%nat.
Proof. intros H. by apply (max_list_elem_of_le n l). Qed.

Lemma fresh_transceiver_fresh j : let t := fresh_transceiver j in
  t ∉ j_new j ∧ t ∉ j_stopped j ∧ ∀ l, l ∈ j_lines j → ln_transceiver l ≠ Some t.
Proof.
  cbv zeta. unfold fresh_transceiver. set (l := omap _ _ ++ _).
  assert (S (max_list l) ∉ l) as H by (intros H%max_list_elem; lia). unfold l at 2 in H. rewrite !not_elem_of_app in H.
  destruct H as (H1 & H2 & H3). split_and!; [done|by rewrite elem_of_elements in H3|]. intros x Hx E. apply H1, list_elem_of_omap. by exists x.
Qed.

Lemma name_length n : length (chars (fresh_name n)) = S n.
Proof. unfold fresh_name. by rewrite String.list_ascii_of_string_of_list_ascii, length_replicate. Qed.
Lemma name_inj n n' : fresh_name n = fresh_name n' → n = n'.
Proof. intros H. pose proof (name_length n) as H1. rewrite H, name_length in H1. lia. Qed.
Lemma name_token n : is_token (fresh_name n) = true.
Proof.
  unfold is_token. apply andb_true_iff. split; [done|]. unfold fresh_name. rewrite String.list_ascii_of_string_of_list_ascii. apply forallb_forall.
  intros c Hc. apply list_elem_of_In, elem_of_replicate in Hc as [-> _]. done.
Qed.
Lemma name_fresh j n : (first_fresh j <= n)%nat → fresh_name n ∉ map ln_mid (j_lines j).
Proof.
  intros Hn. rewrite map_fmap. intros (l & E & Hl)%list_elem_of_fmap.
  assert (length (chars (ln_mid l)) <= first_fresh j)%nat as H.
  { apply max_list_elem. rewrite map_fmap. apply list_elem_of_fmap. by exists l. }
  rewrite <-E, name_length in H. lia.
Qed.

Lemma written_lines_offer j : is_offer j (written_lines j).
Proof.
  exists (map fresh_name (seq (S (first_fresh j)) (length (j_new j)))), (fresh_name (first_fresh j)).
  rewrite length_map, length_seq. split_and!; [done| | |done].
  - change (NoDup (map fresh_name (seq (first_fresh j) (S (length (j_new j)))))). rewrite map_fmap. apply NoDup_fmap_2; [intros ? ?; apply name_inj|].
    apply NoDup_seq.
  - change (Forall (λ m, is_token m = true ∧ m ∉ map ln_mid (j_lines j)) (map fresh_name (seq (first_fresh j) (S (length (j_new j)))))).
    rewrite map_fmap. apply Forall_fmap, Forall_forall. intros n Hn%elem_of_seq. split; [apply name_token|]. apply name_fresh. lia.
Qed.

Lemma offer_object_describes ls : describes (offer_object ls) ls.
Proof.
  eexists. split; [done|]. rewrite map_fmap. apply Forall2_fmap_l, Forall_Forall2_diag, Forall_forall. intros l _.
  unfold section_object. cbn. split_and!; [done|by destruct (is_app l)|done].
Qed.

#[export] Program Instance small_jsep : JsepBrowser browser_state jsval := {|
  jsep _ b := bs_jsep b; offered := lines_of |}.
Next Obligation. intros o _. by exists o. Qed.
Next Obligation. intros o sdp media i m m' [= <-]. apply lines_of_rewritten. Qed.
Next Obligation. by intros c k b p b' [= _ <-]. Qed.
Next Obligation. intros p src dir enc b t b' [= <- <-]. split; [done|]. apply fresh_transceiver_fresh. Qed.
Next Obligation. by intros p label options b c b' [= _ <-]. Qed.
Next Obligation.
  intros p r b o b' _ [= <- <-]. cbn [offered]. rewrite lines_of_offer. split_and!; [done|apply written_lines_offer|].
  intros sdp [= <-]. apply offer_object_describes.
Qed.
Next Obligation. by intros p o b b' _ _ [= <-]. Qed.
Next Obligation. intros p b ls sdp obj Hp [= <-] [= <-]. cbn in Hp. rewrite Hp. apply offer_object_describes. Qed.
Next Obligation. intros p a b b' ls sdp Hp [= <-] _ H. cbn in Hp, H. rewrite Hp in H. by injection H as <-. Qed.
Next Obligation. done. Qed.
Next Obligation.
  intros p b l t ls Hl Ht Hu _. cbn. fold ls. destruct (array_find _ ls) as [l'|] eqn:E; cbn.
  - apply array_find_some in E as (H1 & H2). apply bool_decide_eq_true in H2. by rewrite (Hu l').
  - apply array_find_none in E. rewrite Forall_forall in E. specialize (E l Hl). by rewrite bool_decide_true in E.
Qed.
Solve Obligations with (intros; cbn; by repeat case_match).

(** ** Runs *)

Definition demo_codec : jsval :=
  JObj [("kind", JStr "video"); ("mimeType", JStr "video/VP8"); ("clockRate", js_int 90000); ("localPayloadType", js_int 96);
        ("localRtxPayloadType", js_int 97); ("localParameters", JObj []); ("remoteParameters", JObj []);
        ("rtcpFeedback", JArr [JObj [("type", JStr "nack")]])].

Definition demo_run (direction : string) : RunOptions :=
  {| ro_direction := direction; ro_iceParameters := JObj [("usernameFragment", JStr "u"); ("password", JStr "p")];
     ro_iceCandidates := JArr [];
     ro_dtlsParameters := JObj [("role", JStr "auto"); ("fingerprints", JArr [JObj [("algorithm", JStr "sha-256"); ("value", JStr "AA")]])];
     ro_sctpParameters := JObj [("port", js_int 5000); ("maxMessageSize", js_int 262144)]; ro_iceServers := JUndef;
     ro_iceTransportPolicy := JUndef; ro_additionalSettings := JUndef; ro_proprietaryConstraints := JUndef;
     ro_extendedRtpCapabilities := {| ex_codecs := [demo_codec]; ex_headerExtensions := [] |} |}.

Definition demo_options (encodings : option (list jsval)) : SendOptions :=
  {| sn_track := 1; sn_kind := "video"; sn_encodings := encodings; sn_codecOptions := JUndef; sn_codec := JUndef; sn_onRtpSender := false |}.
Definition demo_send : handler_op := HSend (demo_options None).
Definition demo_simulcast : handler_op := HSend (demo_options (Some [JObj []; JObj []])).
Definition demo_channel : DataChannelOptions :=
  {| dc_ordered := JUndef; dc_maxPacketLifeTime := JUndef; dc_maxRetransmits := JUndef; dc_label := JStr ""; dc_protocol := JStr "" |}.

(** Three producers, of which the second is stopped before the third, which has
    simulcast, and a data channel. *)
Definition demo_ops : list handler_op :=
  [demo_send; demo_send; HPauseSending "mm"; HStopSending "mmmm"; HSendDataChannel demo_channel; demo_simulcast].

Definition same_profile (a b : jsval) : bool := true.
Definition answer_profile (a b : jsval) : outcome jsval := Ok JUndef.

Abbreviation small_world := (World Transceivers browser_state jsval).
Definition idle_browser (rejects : bool) : browser_state := {| bs_jsep := jsep_empty; bs_rejects := rejects |}.

(** The handler of a name; these runs are with one that exists. *)
Definition demo_handler (name : BuiltinHandlerName) : Methods small_world :=
  default (createFactory same_profile answer_profile) (unified_plan same_profile answer_profile name).
Definition started (name : BuiltinHandlerName) (direction : string) (rejects : bool) : small_world :=
  (m_run _ (demo_handler name) (demo_run direction) (new_World ∅ (idle_browser rejects))).2.
Definition finished (name : BuiltinHandlerName) (ops : list handler_op) : small_world :=
  (each (do_op (demo_handler name)) ops (started name "send" false)).2.

(** Chrome 70 recycles the section, and rewrites the last offer; Firefox appends. *)
Lemma answers_match_offers_witness :
  (answers None (w_log (finished Device.Chrome70 demo_ops)) ∧
   line_view <$> j_lines (bs_jsep (w_browser (finished Device.Chrome70 demo_ops))) = [("mm", false); ("mmmmmmm", false); ("mmmmm", false)]) ∧
  (answers None (w_log (finished Device.Firefox60 demo_ops)) ∧
   length (j_lines (bs_jsep (w_browser (finished Device.Firefox60 demo_ops)))) = 4%nat).
Proof.
  split.
  - destruct (answers_match_offers same_profile answer_profile Device.Chrome70 (demo_handler Device.Chrome70) (demo_run "send")
      (idle_browser false) (started Device.Chrome70 "send" false) demo_ops (finished Device.Chrome70 demo_ops)) as [H _];
      [reflexivity|reflexivity|vm_compute; reflexivity|by repeat constructor|vm_compute; reflexivity|].
    split; [exact H|vm_compute; reflexivity].
  - destruct (answers_match_offers same_profile answer_profile Device.Firefox60 (demo_handler Device.Firefox60) (demo_run "send")
      (idle_browser false) (started Device.Firefox60 "send" false) demo_ops (finished Device.Firefox60 demo_ops)) as [H _];
      [reflexivity|reflexivity|vm_compute; reflexivity|by repeat constructor|vm_compute; reflexivity|].
    split; [exact H|vm_compute; reflexivity].
Defined.

(** A run in which the first connection is rejected. *)
Definition demo_failing : list handler_op := [demo_send; HStopSending "mm"; demo_send; HReceive []; HClose; demo_send].

(** A consumer with a video track. *)
Definition demo_consumer (trackId : string) (ssrc : Z) : ReceiveOptions :=
  {| rv_trackId := trackId; rv_kind := JStr "video"; rv_streamId := JStr "s"; rv_onRtpReceiver := false;
     rv_rtpParameters := JObj [
       ("codecs", JArr [JObj [("mimeType", JStr "video/VP8"); ("payloadType", js_int 96); ("clockRate", js_int 90000);
                              ("parameters", JObj []); ("rtcpFeedback", JArr [])]]);
       ("headerExtensions", JArr []); ("encodings", JArr [JObj [("ssrc", js_int ssrc)]]); ("rtcp", JObj [("cname", JStr "c")])] |}.
(** With plan B, where local ids are numbers and track ids. *)
Definition demo_sending : list handler_op := [demo_send; demo_simulcast; HStopSending "0"; demo_send; HStopSending "1"; HStopSending "0"; HClose].

Definition demo_factory (name : BuiltinHandlerName) : Factory browser_state jsval :=
  default {| f_own := ∅ : Transceivers; f_methods := demo_handler name |} (factory same_profile answer_profile 0 name).
Definition launched (name : BuiltinHandlerName) (direction : string) (rejects : bool) : outcome unit * World _ browser_state jsval :=
  launch (demo_factory name) (demo_run direction) (idle_browser rejects).
Definition performed (name : BuiltinHandlerName) (direction : string) (rejects : bool) (ops : list handler_op) : World _ browser_state jsval :=
  after_ops (f_methods (demo_factory name)) ops (launched name direction rejects).2.


Lemma signalling_legal_witness :
  ((∃ s, signals Stable (w_log (performed Device.Safari12 "send" true demo_failing)) = Some s ∧ on_side "send" s) ∧
   (do_op (f_methods (demo_factory Device.Safari12)) demo_send (launched Device.Safari12 "send" true).2).1 = Throw "rejected") ∧
  ((∃ s, signals Stable (w_log (performed Device.Chrome67 "send" false demo_sending)) = Some s ∧ on_side "send" s) ∧
   length (w_log (performed Device.Chrome67 "send" false demo_sending)) = 11%nat).
Proof.
  split.
  - destruct (signalling_legal same_profile answer_profile 0 Device.Safari12 (demo_factory Device.Safari12) (demo_run "send") (idle_browser true)
      demo_failing) as [H _]; [reflexivity|vm_compute; reflexivity|by repeat constructor|]. split; [exact H|vm_compute; reflexivity].
  - destruct (signalling_legal same_profile answer_profile 0 Device.Chrome67 (demo_factory Device.Chrome67) (demo_run "send") (idle_browser false)
      demo_sending) as [H _]; [reflexivity|vm_compute; reflexivity|by repeat constructor|]. split; [exact H|vm_compute; reflexivity].
Defined.


(** ** What goes wrong *)

(** After a rejected connection the transceiver stays in the peer connection, and the
    next offer has a section for it that the answer lacks. *)
Lemma rejected_connect_spoils : ∃ o a log,
  w_log (after_ops (demo_handler Device.Chrome111) [demo_send; demo_send] (started Device.Chrome111 "send" true)) =
    log ++ [LocalDescription Offer o true; RemoteDescription Answer a true] ∧
  length (offered o) = 2%nat ∧ length (ids_of a) = 1%nat.
Proof. eexists _, _, [_; _]. split; [vm_compute; reflexivity|]. split; reflexivity. Qed.

(** Consumers without [mid] in one call get the same local id. *)
Lemma batch_shares_local_id : ∃ w,
  collect offer_consumer [demo_consumer "a" 1; demo_consumer "b" 2] (started Device.Chrome111 "recv" false) = (Ok [("a", "0"); ("b", "0")], w) ∧
  (rs ← h_remoteSdp (w_handler w); Some (view rs)) = Some [("0", false)].
Proof. eexists. split; [vm_compute; reflexivity|]. vm_compute. reflexivity. Qed.

(** Two negotiations at once: the browser rejects the answer that comes last. *)
Definition overlapping (halves : list (action small_world unit)) : outcome unit * small_world :=
  foldl (λ r half, half r.2) (Ok tt, after_ops (demo_handler Device.Chrome111) [demo_send; demo_send] (started Device.Chrome111 "send" false)) halves.

Example overlapping_negotiations_rejected :
  let halves := [make_offer false; make_offer false; apply_remote Answer; apply_remote Answer] in
  map (λ n, (overlapping (take n halves)).1) [1%nat; 2%nat; 3%nat; 4%nat] = [Ok tt; Ok tt; Ok tt; Throw "wrong state"] ∧
  signals Stable (w_log (overlapping halves).2) = None.
Proof. vm_compute. split; reflexivity. Qed.
