(* ===== verification/DemoRequests.v ===== *)
(** * Requests of the demo page (public/qos-demo.js)

    The page sends numbered requests over a WebSocket and waits for the responses;
    a request is given up after ten seconds, and when the connection is lost or the
    server restarts.  The page may have several sockets at once: an old one keeps
    its listeners.

    The promise of a request is settled once, whatever is done to it later; the
    first settlement counts.  Timers are punctual: those that are due fire when
    time passes.  Socket addresses, and what the sockets do, are inputs. *)

From Stdlib Require Import QArith.
From stdpp Require Import gmap.
From S2P Require Import Prelude JsNum JsVal JsString Ortc.
Local Open Scope string_scope.
Local Open Scope list_scope.
Local Open Scope Z_scope.

(** ** State *)

Inductive ReadyState := CONNECTING | OPEN | CLOSING | CLOSED.

Inductive settlement :=
| Resolved (data : jsval)
| Rejected (message : string).

Record Socket := {
  so_readyState : ReadyState;
  (** Whether [onmessage] and [onclose] are set, which [onopen] does. *)
  so_wired : bool;
  (** Whether the promise of [connectWs] is settled, and how. *)
  so_connected : option bool;
  (** The requests sent: their numbers, methods and data. *)
  so_sent : list (Z * string * jsval);
}.

Record Client := {
  cl_ws : option nat;
  cl_sockets : gmap nat Socket;
  cl_reqId : Z;
  (** The keys of [pending], in order. *)
  cl_pending : list Z;
  (** The armed timers: the request, when it is due, and the method it names. *)
  cl_timers : list (Z * (Z * string));
  cl_now : Z;
  (** How requests were settled, in order. *)
  cl_settled : list (Z * settlement);
}.

Definition new_Client : Client :=
  {| cl_ws := None; cl_sockets := ∅; cl_reqId := 0; cl_pending := []; cl_timers := []; cl_now := 0; cl_settled := [] |}.

Definition with_ws (ws : option nat) (c : Client) : Client :=
  {| cl_ws := ws; cl_sockets := cl_sockets c; cl_reqId := cl_reqId c; cl_pending := cl_pending c; cl_timers := cl_timers c;
     cl_now := cl_now c; cl_settled := cl_settled c |}.
Definition with_sockets (f : gmap nat Socket → gmap nat Socket) (c : Client) : Client :=
  {| cl_ws := cl_ws c; cl_sockets := f (cl_sockets c); cl_reqId := cl_reqId c; cl_pending := cl_pending c; cl_timers := cl_timers c;
     cl_now := cl_now c; cl_settled := cl_settled c |}.
Definition with_pending (pending : list Z) (c : Client) : Client :=
  {| cl_ws := cl_ws c; cl_sockets := cl_sockets c; cl_reqId := cl_reqId c; cl_pending := pending; cl_timers := cl_timers c;
     cl_now := cl_now c; cl_settled := cl_settled c |}.
Definition with_now (now : Z) (c : Client) : Client :=
  {| cl_ws := cl_ws c; cl_sockets := cl_sockets c; cl_reqId := cl_reqId c; cl_pending := cl_pending c; cl_timers := cl_timers c;
     cl_now := now; cl_settled := cl_settled c |}.

(** ** Requests *)

Definition REQUEST_TIMEOUT_MS : Z := 10000.

(** [clearTimeout(timer)], then [resolve(value)] or [reject(error)]. *)
Definition settle (id : Z) (r : settlement) (c : Client) : Client :=
  {| cl_ws := cl_ws c; cl_sockets := cl_sockets c; cl_reqId := cl_reqId c; cl_pending := cl_pending c;
     cl_timers := map_delete (cl_timers c) id; cl_now := cl_now c;
     cl_settled := match map_get (cl_settled c) id with Some _ => cl_settled c | None => cl_settled c ++ [(id, r)] end |}.

Definition failPendingRequests (reason : string) (c : Client) : Client :=
  with_pending [] (foldl (λ c id, settle id (Rejected reason) c) c (cl_pending c)).

Definition ready_state (c : Client) (ws : nat) : option ReadyState := so_readyState <$> cl_sockets c !! ws.

(** [ws.send] of a request. *)
Definition transmit (id : Z) (method : string) (data : jsval) (s : Socket) : Socket :=
  {| so_readyState := so_readyState s; so_wired := so_wired s; so_connected := so_connected s;
     so_sent := so_sent s ++ [(id, method, data)] |}.

(** The number of the request, whose promise is returned. *)
Definition wsRequest (method : string) (data : jsval) (c : Client) : outcome Z * Client :=
  match cl_ws c with
  | Some ws =>
      match ready_state c ws with
      | Some OPEN =>
          let id := cl_reqId c + 1 in
          (Ok id,
           {| cl_ws := cl_ws c; cl_sockets := alter (transmit id method data) ws (cl_sockets c); cl_reqId := id;
              cl_pending := set_add (cl_pending c) id;
              cl_timers := cl_timers c ++ [(id, (cl_now c + REQUEST_TIMEOUT_MS, method))]; cl_now := cl_now c; cl_settled := cl_settled c |})
      | _ => (Throw "websocket is not connected", c)
      end
  | None => (Throw "websocket is not connected", c)
  end.

(** [state.pending.delete(id)], and the settlement. *)
Definition retire (id : Z) (r : settlement) (c : Client) : Client := settle id r (with_pending (set_remove (cl_pending c) id) c).

(** The timer of a request. *)
Definition request_timeout (id : Z) (method : string) (c : Client) : Client :=
  retire id (Rejected ("request timeout: " +:+ method)) c.

(** Time passes, and the timers that are due fire. *)
Definition elapse (ms : Z) (c : Client) : Client :=
  let now := cl_now c + ms in
  foldl (λ c e, request_timeout e.1 e.2.2 c) (with_now now c) (List.filter (λ e, e.2.1 <=? now) (cl_timers c)).

(** ** Messages *)

(** [state.pending.get(message.id)]. *)
Definition pending_of (c : Client) (id : jsval) : option Z := array_find (λ k, strict_eq (js_int k) id) (cl_pending c).

Definition handle_response (message : jsval) (c : Client) : Client :=
  match pending_of c (js_get message "id") with
  | None => c
  | Some id =>
      retire id (if truthy (js_get message "ok") then Resolved (js_get message "data")
                 else Rejected (js_to_string (js_or (js_get message "error") (JStr "request failed")))) c
  end.

(** A parsed message: a response, or a notification that is passed on. *)
Definition handleMessage (message : jsval) (c : Client) : outcome (option jsval) * Client :=
  match get_prop message "response" with
  | Throw e => (Throw e, c)
  | Ok response =>
      if is_true response then (Ok None, handle_response message c)
      else if negb (is_true (js_get message "notification")) then (Ok None, c)
      else (Ok (Some message), c)
  end.

(** ** Connections *)

Definition set_readyState (r : ReadyState) (s : Socket) : Socket :=
  {| so_readyState := r; so_wired := so_wired s; so_connected := so_connected s; so_sent := so_sent s |}.

(** [ws.close()], which has no effect on a socket that is closing or closed. *)
Definition close_socket (ws : nat) (c : Client) : Client :=
  with_sockets (alter (λ s, match so_readyState s with CLOSED => s | _ => set_readyState CLOSING s end) ws) c.

(** The current socket, if it is connecting or open, is closed. *)
Definition close_current (c : Client) : Client :=
  match cl_ws c with
  | Some old => match ready_state c old with Some (CONNECTING | OPEN) => close_socket old c | _ => c end
  | None => c
  end.

(** [connectWs], up to its promise; [ws] is the address of the new socket. *)
Definition connectWs (ws : nat) (c : Client) : Client :=
  with_sockets <[ws := {| so_readyState := CONNECTING; so_wired := false; so_connected := None; so_sent := [] |}]> (close_current c).

Definition on_open (ws : nat) (c : Client) : Client :=
  with_ws (Some ws) (with_sockets (alter (λ s,
    {| so_readyState := OPEN; so_wired := true; so_connected := Some true; so_sent := so_sent s |}) ws) c).

(** Nothing happens once the connection has been opened. *)
Definition on_error (ws : nat) (c : Client) : Client :=
  with_sockets (alter (λ s, match so_connected s with
    | Some _ => s
    | None => {| so_readyState := so_readyState s; so_wired := so_wired s; so_connected := Some false; so_sent := so_sent s |}
    end) ws) c.

(** The socket is closed; its listener only acts for the current one.  Whether it did. *)
Definition on_close (ws : nat) (c : Client) : Client * bool :=
  let current := match cl_sockets c !! ws with Some s => so_wired s && bool_decide (cl_ws c = Some ws) | None => false end in
  let c := with_sockets (alter (set_readyState CLOSED) ws) c in
  if (current : bool) then (failPendingRequests "websocket closed" (with_ws None c), true) else (c, false).

(** ** Runs *)

Inductive event :=
| Request (method : string) (data : jsval)
| Message (ws : nat) (message : jsval)
| Connect (ws : nat)
| Opened (ws : nat)
| Failed (ws : nat)
| Closed (ws : nat)
(** [state.ws.close(); state.ws = null] and [failPendingRequests] of the recovery. *)
| Restart (reason : string)
| Elapse (ms : nat).

Definition restart (reason : string) (c : Client) : Client :=
  let c := failPendingRequests reason c in
  with_ws None (match cl_ws c with Some ws => close_socket ws c | None => c end).

Definition step (c : Client) (e : event) : Client :=
  match e with
  | Request method data => (wsRequest method data c).2
  | Message ws message =>
      match cl_sockets c !! ws with
      | Some s => if so_wired s then (handleMessage message c).2 else c
      | None => c
      end
  | Connect ws => connectWs ws c
  | Opened ws => match cl_sockets c !! ws with Some s => match so_readyState s with CONNECTING => on_open ws c | _ => c end | None => c end
  | Failed ws => on_error ws c
  | Closed ws => (on_close ws c).1
  | Restart reason => restart reason c
  | Elapse ms => elapse (Z.of_nat ms) c
  end.
Definition run (es : list event) : Client := foldl step new_Client es.

(** ** The invariant *)

(** What holds between the steps of an event too. *)
Record coherent (c : Client) : Prop := {
  co_timers : map_keys (cl_timers c) = cl_pending c;
  co_pending : NoDup (cl_pending c);
  co_settled : NoDup (map_keys (cl_settled c));
  co_known id : 1 <= id <= cl_reqId c ↔ id ∈ cl_pending c ∨ id ∈ map_keys (cl_settled c);
  co_apart id : id ∈ cl_pending c → id ∉ map_keys (cl_settled c);
}.

Definition sent_on (c : Client) (ws : nat) (id : Z) : Prop := ∃ s, cl_sockets c !! ws = Some s ∧ id ∈ (so_sent s).*1.*1.

Record wf (c : Client) : Prop := {
  wf_coherent : coherent c;
  wf_due id due method : (id, (due, method)) ∈ cl_timers c → cl_now c < due <= cl_now c + REQUEST_TIMEOUT_MS;
  wf_count : 0 <= cl_reqId c;
  wf_sent ws id : sent_on c ws id → 1 <= id <= cl_reqId c;
  wf_once ws ws' id : sent_on c ws id → sent_on c ws' id → ws = ws';
}.

Lemma new_Client_wf : wf new_Client.
Proof.
  split; [split; cbn; try (by constructor)|..]; cbn; try done.
  - intros id. rewrite !elem_of_nil. split; [lia|tauto].
  - by intros id H%elem_of_nil.
  - by intros id due method H%elem_of_nil.
  - intros ws id (s & Hs & _). change (cl_sockets new_Client) with (∅ : gmap nat Socket) in Hs. by rewrite lookup_empty in Hs.
  - intros ws ws' id (s & Hs & _). change (cl_sockets new_Client) with (∅ : gmap nat Socket) in Hs. by rewrite lookup_empty in Hs.
Qed.

Lemma map_keys_delete {V} (m : list (Z * V)) k : map_keys (map_delete m k) = set_remove (map_keys m) k.
Proof.
  unfold map_keys, map_delete, set_remove. induction m as [|[k' v] m IH]; [done|]. rewrite fmap_cons, !filter_cons. cbn [fst].
  destruct (decide (k' ≠ k)); [rewrite fmap_cons|]; by rewrite IH.
Qed.
Lemma NoDup_keys_filter {V} (f : Z * V → bool) m : NoDup (map_keys m) → NoDup (List.filter f m).*1.
Proof.
  unfold map_keys. induction m as [|e m IH]; [done|]. cbn. intros [H1 H2]%NoDup_cons. destruct (f e); [|auto]. cbn. apply NoDup_cons.
  split; [|auto]. intros (e' & E & H)%list_elem_of_fmap. apply H1. rewrite E. apply list_elem_of_fmap. exists e'. split; [done|].
  apply list_elem_of_In, filter_In in H as [H _]. by apply list_elem_of_In.
Qed.

Lemma retire_settled id r c : id ∉ map_keys (cl_settled c) → cl_settled (retire id r c) = cl_settled c ++ [(id, r)].
Proof. intros H. cbn. by apply map_get_none in H as ->. Qed.

Lemma retire_coherent id r c : coherent c → id ∈ cl_pending c → coherent (retire id r c).
Proof.
  intros [H1 H2 H3 H4 H5] Hid. pose proof (H5 id Hid) as Hs. split.
  - change (map_keys (map_delete (cl_timers c) id) = set_remove (cl_pending c) id). by rewrite map_keys_delete, H1.
  - cbn. by apply NoDup_filter.
  - rewrite retire_settled by done. unfold map_keys in *. rewrite fmap_app. apply NoDup_app. split_and!; [done| |apply NoDup_singleton].
    intros x Hx ->%list_elem_of_singleton. done.
  - intros x. rewrite retire_settled by done. unfold map_keys in *. rewrite fmap_app, elem_of_app. cbn. rewrite list_elem_of_singleton, H4.
    rewrite set_remove_elem. destruct (decide (x = id)) as [->|]; naive_solver.
  - intros x. rewrite retire_settled by done. unfold map_keys in *. rewrite fmap_app, elem_of_app. cbn. rewrite list_elem_of_singleton.
    rewrite set_remove_elem. naive_solver.
Qed.

(** The fields that settling leaves alone. *)
Lemma retire_frame id r c : let c' := retire id r c in
  cl_ws c' = cl_ws c ∧ cl_sockets c' = cl_sockets c ∧ cl_reqId c' = cl_reqId c ∧ cl_now c' = cl_now c.
Proof. done. Qed.

(** Requests retired one by one, each with its own settlement. *)
Abbreviation retire_all c l := (foldl (λ k e, retire e.1 e.2 k) c l).

(** All of them in the same way. *)
Definition each_with (r : settlement) (ids : list Z) : list (Z * settlement) := map (λ id, (id, r)) ids.
Lemma each_with_keys r ids : (each_with r ids).*1 = ids.
Proof. unfold each_with. induction ids as [|id ids IH]; cbn; [done|]. by f_equal. Qed.

Lemma retire_all_frame l c : let c' := retire_all c l in
  cl_ws c' = cl_ws c ∧ cl_sockets c' = cl_sockets c ∧ cl_reqId c' = cl_reqId c ∧ cl_now c' = cl_now c.
Proof. revert c. induction l as [|[id r] l IH]; intros c; [done|]. apply (IH (retire id r c)). Qed.

Lemma retire_all_coherent l c : coherent c → NoDup l.*1 → (∀ id, id ∈ l.*1 → id ∈ cl_pending c) → coherent (retire_all c l).
Proof.
  revert c. induction l as [|[id r] l IH]; intros c Hc Hn Hp; [done|]. apply NoDup_cons in Hn as [Hn1 Hn2]. cbn. apply IH; [|done|].
  - apply retire_coherent; [done|]. apply Hp. by left.
  - intros x Hx. cbn. apply set_remove_elem. split; [by intros ->|]. apply Hp. by right.
Qed.

Lemma retire_all_timers l c e : e ∈ cl_timers (retire_all c l) ↔ e ∈ cl_timers c ∧ e.1 ∉ l.*1.
Proof.
  revert c. induction l as [|[id r] l IH]; intros c; cbn [foldl fmap list_fmap].
  - split; [|tauto]. intros H. split; [done|]. by intros ?%elem_of_nil.
  - rewrite IH. cbn. unfold map_delete. rewrite list_elem_of_filter, not_elem_of_cons. tauto.
Qed.

(** Rejecting all and clearing the map is retiring them one by one. *)
Lemma settle_all_pending r ids q c :
  foldl (λ c id, settle id r c) (with_pending q c) ids = with_pending q (foldl (λ c id, settle id r c) c ids).
Proof. revert c. induction ids as [|id ids IH]; intros c; [done|]. apply (IH (settle id r c)). Qed.
Lemma retire_all_settles r ids c :
  retire_all c (each_with r ids) = with_pending (foldl set_remove (cl_pending c) ids) (foldl (λ c id, settle id r c) c ids).
Proof.
  revert c. induction ids as [|id ids IH]; intros c; [by destruct c|]. cbn. fold (each_with r ids). rewrite IH.
  change (retire id r c) with (with_pending (set_remove (cl_pending c) id) (settle id r c)). by rewrite settle_all_pending.
Qed.
Lemma set_remove_all (ids l : list Z) x : x ∈ foldl set_remove l ids → x ∈ l ∧ x ∉ ids.
Proof.
  revert l. induction ids as [|id ids IH]; intros l; cbn [foldl]; [intros; split; [done|by intros ?%elem_of_nil]|].
  intros [H1 H2]%IH. apply set_remove_elem in H1 as [? ?]. by rewrite not_elem_of_cons.
Qed.
Lemma failPendingRequests_retires reason c :
  failPendingRequests reason c = retire_all c (each_with (Rejected reason) (cl_pending c)).
Proof.
  rewrite retire_all_settles. unfold failPendingRequests. f_equal.
  destruct (foldl set_remove _ _) as [|x l] eqn:E; [done|]. exfalso. destruct (set_remove_all (cl_pending c) (cl_pending c) x); [|done].
  rewrite E. by left.
Qed.

(** The timers that are due at [now], as what they do. *)
Definition timed_out (now : Z) (c : Client) : list (Z * settlement) :=
  map (λ e, (e.1, Rejected ("request timeout: " +:+ e.2.2))) (List.filter (λ e, e.2.1 <=? now) (cl_timers c)).
Lemma elapse_retires ms c : elapse ms c = retire_all (with_now (cl_now c + ms) c) (timed_out (cl_now c + ms) c).
Proof.
  unfold elapse, timed_out, request_timeout. generalize (List.filter (λ e : Z * (Z * string), e.2.1 <=? cl_now c + ms) (cl_timers c)).
  generalize (with_now (cl_now c + ms) c). intros c0 l. revert c0. induction l as [|e l IH]; intros c0; [done|]. apply IH.
Qed.
Lemma timed_out_elem now c id r : (id, r) ∈ timed_out now c ↔
  ∃ due method, (id, (due, method)) ∈ cl_timers c ∧ due <= now ∧ r = Rejected ("request timeout: " +:+ method).
Proof.
  unfold timed_out. rewrite list_elem_of_fmap. split.
  - intros ([k [due method]] & [= -> ->] & H). apply list_elem_of_In, filter_In in H as [H1 H2]. exists due, method.
    split_and!; [by apply list_elem_of_In| |done]. apply Z.leb_le. done.
  - intros (due & method & H1 & H2 & ->). exists (id, (due, method)). split; [done|]. apply list_elem_of_In, filter_In.
    split; [by apply list_elem_of_In|]. by apply Z.leb_le.
Qed.
Lemma timed_out_keys now c : coherent c → NoDup (timed_out now c).*1 ∧ ∀ id, id ∈ (timed_out now c).*1 → id ∈ cl_pending c.
Proof.
  intros Hc. split.
  - unfold timed_out. rewrite <-list_fmap_compose. apply (NoDup_keys_filter (λ e : Z * (Z * string), e.2.1 <=? now)). rewrite (co_timers _ Hc). apply Hc.
  - intros id ([k r] & -> & (due & method & H & _)%timed_out_elem)%list_elem_of_fmap. rewrite <-(co_timers _ Hc).
    apply list_elem_of_fmap. by exists (k, (due, method)).
Qed.

(** ** The events keep the invariant *)

(** Retiring requests that are pending. *)
Lemma retire_all_wf l c : wf c → NoDup l.*1 → (∀ id, id ∈ l.*1 → id ∈ cl_pending c) → wf (retire_all c l).
Proof.
  intros [Hc Hd Hn Hs Ho] Hu Hp. destruct (retire_all_frame l c) as (_ & E1 & E2 & E3).
  split; unfold sent_on; rewrite ?E1, ?E2, ?E3; try done.
  - by apply retire_all_coherent.
  - intros id due method [H _]%retire_all_timers. by apply Hd in H.
Qed.
Lemma failPendingRequests_wf reason c : wf c → wf (failPendingRequests reason c).
Proof. intros H. rewrite failPendingRequests_retires. apply retire_all_wf; rewrite ?each_with_keys; [done|apply H|done]. Qed.

(** The same state of the requests and what was sent. *)
Definition same_requests (c c' : Client) : Prop :=
  cl_reqId c' = cl_reqId c ∧ cl_pending c' = cl_pending c ∧ cl_timers c' = cl_timers c ∧ cl_now c' = cl_now c ∧
  cl_settled c' = cl_settled c ∧ ∀ ws id, sent_on c' ws id → sent_on c ws id.
Lemma same_requests_wf c c' : same_requests c c' → wf c → wf c'.
Proof.
  intros (E1 & E2 & E3 & E4 & E5 & E6) [[] Hd Hn Hs Ho].
  split; [by split; rewrite ?E1, ?E2, ?E3, ?E5|rewrite ?E3, ?E4, ?E1; eauto..].
Qed.
Lemma sockets_same (f : Socket → Socket) ws c : (∀ s, so_sent (f s) = so_sent s) → same_requests c (with_sockets (alter f ws) c).
Proof.
  intros Hf. do 5 (split; [done|]). intros ws' id (s & Hs & Hid). cbn in Hs. apply lookup_alter_Some in Hs as [(<- & s0 & E & ->)|[_ E]].
  - exists s0. by rewrite <-Hf.
  - by exists s.
Qed.

Lemma wsRequest_wf method data c : wf c → wf (wsRequest method data c).2.
Proof.
  intros Hw. unfold wsRequest. destruct (cl_ws c) as [ws|]; [|done]. destruct (ready_state c ws) as [[]|]; try done.
  destruct Hw as [[H1 H2 H3 H4 H5] Hd Hn Hs Ho]. cbn [snd].
  assert (cl_reqId c + 1 ∉ cl_pending c) as Hnew. { intros H. assert (1 <= cl_reqId c + 1 <= cl_reqId c) by (apply H4; tauto). lia. }
  assert (cl_reqId c + 1 ∉ map_keys (cl_settled c)) as Hnew'. { intros H. assert (1 <= cl_reqId c + 1 <= cl_reqId c) by (apply H4; tauto). lia. }
  assert (set_add (cl_pending c) (cl_reqId c + 1) = cl_pending c ++ [cl_reqId c + 1]) as E by (unfold set_add; by rewrite decide_False).
  assert (∀ ws' id, sent_on {| cl_ws := cl_ws c; cl_sockets := alter (transmit (cl_reqId c + 1) method data) ws (cl_sockets c);
      cl_reqId := cl_reqId c + 1; cl_pending := set_add (cl_pending c) (cl_reqId c + 1);
      cl_timers := cl_timers c ++ [(cl_reqId c + 1, (cl_now c + REQUEST_TIMEOUT_MS, method))]; cl_now := cl_now c; cl_settled := cl_settled c |} ws' id →
      sent_on c ws' id ∨ (ws' = ws ∧ id = cl_reqId c + 1)) as Hsent.
  { intros ws' id (s & Hsk & Hid). cbn in Hsk. apply lookup_alter_Some in Hsk as [(<- & s0 & E0 & ->)|[_ E0]]; [|left; by exists s].
    cbn in Hid. rewrite !fmap_app, elem_of_app in Hid. cbn in Hid. rewrite list_elem_of_singleton in Hid.
    destruct Hid as [?| ->]; [left; by exists s0|by right]. }
  split; [split|..]; cbn [cl_timers cl_pending cl_settled cl_reqId cl_now]; rewrite ?E.
  - unfold map_keys. rewrite fmap_app. unfold map_keys in H1. by rewrite H1.
  - apply NoDup_app. split_and!; [done| |apply NoDup_singleton]. by intros x Hx ->%list_elem_of_singleton.
  - done.
  - intros id. rewrite elem_of_app, list_elem_of_singleton. specialize (H4 id). destruct (decide (id = cl_reqId c + 1)) as [E'|];
      [|assert (1 <= id <= cl_reqId c + 1 ↔ 1 <= id <= cl_reqId c) as -> by lia; rewrite H4; tauto].
    split; [by left; right|lia].
  - intros id. rewrite elem_of_app, list_elem_of_singleton. intros [?| ->]; auto.
  - intros id due m. rewrite elem_of_app, list_elem_of_singleton. intros [H|[= -> -> ->]]; [by apply Hd in H|]. unfold REQUEST_TIMEOUT_MS. lia.
  - lia.
  - intros ws' id [H|[_ ->]]%Hsent; [apply Hs in H|]; lia.
  - intros ws1 ws2 id [A1|[W1 I1]]%Hsent [A2|[W2 I2]]%Hsent; [by eapply Ho| | |congruence]; exfalso; [apply Hs in A1|apply Hs in A2]; lia.
Qed.

Lemma elapse_wf ms c : 0 <= ms → wf c → wf (elapse ms c).
Proof.
  intros Hms [Hc Hd Hn Hs Ho]. rewrite elapse_retires. set (now := cl_now c + ms). destruct (timed_out_keys now c Hc) as [K1 K2].
  destruct (retire_all_frame (timed_out now c) (with_now now c)) as (_ & E1 & E2 & E3).
  split; unfold sent_on; rewrite ?E1, ?E2, ?E3; try done.
  - apply retire_all_coherent; [by destruct Hc; split|done|done].
  - intros id due method [H1 H2]%retire_all_timers. cbn in H1, H2. pose proof (Hd _ _ _ H1) as H. change (cl_now (with_now _ _)) with now.
    split; [|lia]. destruct (Z.leb_spec due now); [|lia]. destruct H2. apply list_elem_of_fmap.
    exists (id, Rejected ("request timeout: " +:+ method)). split; [done|]. apply timed_out_elem. eauto.
Qed.

Lemma pending_of_elem c v id : pending_of c v = Some id → id ∈ cl_pending c ∧ strict_eq (js_int id) v = true.
Proof. intros H%array_find_some. naive_solver. Qed.

Lemma handleMessage_wf m c : wf c → wf (handleMessage m c).2.
Proof.
  intros Hw. unfold handleMessage. destruct (get_prop m "response") as [r|]; [|done]. destruct (is_true r); [|by case_match]. cbn.
  unfold handle_response. destruct (pending_of c _) as [id|] eqn:E; [|done]. apply pending_of_elem in E as [E _].
  apply (retire_all_wf [(id, _)]); [done|apply NoDup_singleton|]. by intros x ->%list_elem_of_singleton.
Qed.

Lemma close_socket_same ws c : same_requests c (close_socket ws c).
Proof. apply sockets_same. intros s. by destruct (so_readyState s). Qed.
Lemma connectWs_wf ws c : wf c → wf (connectWs ws c).
Proof.
  intros Hw. assert (same_requests c (close_current c)) as (E1 & E2 & E3 & E4 & E5 & E6).
  { unfold close_current. destruct (cl_ws c) as [old|]; [|done]. destruct (ready_state c old) as [[]|]; try done; apply close_socket_same. }
  eapply same_requests_wf; [|exact Hw]. do 5 (split; [done|]).
  intros ws' id (s & Hs & Hid). cbn in Hs. apply lookup_insert_Some in Hs as [[<- <-]|[_ Hs]]; [by apply elem_of_nil in Hid|].
  apply E6. by exists s.
Qed.

Lemma step_wf c e : wf c → wf (step c e).
Proof.
  intros Hw. destruct e as [method data|ws m|ws|ws|ws|ws|reason|ms]; cbn.
  - by apply wsRequest_wf.
  - destruct (cl_sockets c !! ws) as [s|]; [|done]. destruct (so_wired s); [|done]. by apply handleMessage_wf.
  - by apply connectWs_wf.
  - destruct (cl_sockets c !! ws) as [s|]; [|done]. destruct (so_readyState s); try done.
    eapply same_requests_wf; [|exact Hw]. by apply (sockets_same (λ s, {| so_readyState := OPEN; so_wired := true; so_connected := Some true; so_sent := so_sent s |}) ws c).
  - eapply same_requests_wf; [|exact Hw]. apply sockets_same. intros s. by destruct (so_connected s).
  - unfold on_close. set (cur := match cl_sockets c !! ws with Some _ => _ | None => false end).
    assert (wf (with_sockets (alter (set_readyState CLOSED) ws) c)) as H by (eapply same_requests_wf; [|exact Hw]; by apply sockets_same).
    destruct cur; [|done]. apply failPendingRequests_wf. eapply same_requests_wf; [|exact H]. done.
  - unfold restart. pose proof (failPendingRequests_wf reason c Hw) as H. set (c' := failPendingRequests reason c) in *.
    destruct (cl_ws c') as [ws|]; [|by eapply same_requests_wf; [|exact H]].
    eapply same_requests_wf; [|exact H]. apply close_socket_same.
  - apply elapse_wf; [lia|done].
Qed.

Lemma run_wf es : wf (run es).
Proof. unfold run. generalize new_Client_wf. generalize new_Client. induction es as [|e es IH]; intros c Hc; [done|]. by apply IH, step_wf. Qed.

(** ** What the requests promise *)

(** How a request was settled. *)
Definition outcome_of (c : Client) (id : Z) : option settlement := map_get (cl_settled c) id.

Lemma map_get_append {V} (m m' : list (Z * V)) k : map_get (m ++ m') k = match map_get m k with Some v => Some v | None => map_get m' k end.
Proof. induction m as [|[k' v] m IH]; [done|]. cbn. by destruct (decide (k' = k)). Qed.

Lemma settle_outcome id r c k :
  outcome_of (settle id r c) k = match outcome_of c k with Some r' => Some r' | None => if decide (id = k) then Some r else None end.
Proof.
  unfold outcome_of. cbn. destruct (map_get (cl_settled c) id) as [r'|] eqn:E.
  - destruct (map_get (cl_settled c) k) eqn:E'; [done|]. destruct (decide (id = k)) as [->|]; congruence.
  - by rewrite map_get_append.
Qed.
Lemma retire_all_outcome l c k :
  outcome_of (retire_all c l) k = match outcome_of c k with Some r => Some r | None => map_get l k end.
Proof.
  revert c. induction l as [|[id r] l IH]; intros c; cbn [foldl map_get]; [by destruct (outcome_of c k)|]. rewrite IH. cbn [fst snd].
  unfold retire. rewrite settle_outcome. change (outcome_of (with_pending _ c) k) with (outcome_of c k).
  destruct (outcome_of c k); [done|]. by destruct (decide (id = k)).
Qed.
Lemma retire_all_keeps l c k x : outcome_of c k = Some x → outcome_of (retire_all c l) k = Some x.
Proof. intros H. by rewrite retire_all_outcome, H. Qed.

(** A settlement stays. *)
Lemma step_keeps c e k x : outcome_of c k = Some x → outcome_of (step c e) k = Some x.
Proof.
  intros H. destruct e as [method data|ws m|ws|ws|ws|ws|reason|ms]; cbn [step].
  - unfold wsRequest. by repeat case_match.
  - destruct (cl_sockets c !! ws) as [s|]; [|done]. destruct (so_wired s); [|done]. unfold handleMessage.
    destruct (get_prop m "response") as [r|]; [|done]. destruct (is_true r); [|by case_match]. cbn [snd]. unfold handle_response.
    destruct (pending_of c _) as [id|]; [|done]. by apply (retire_all_keeps [(id, _)]).
  - unfold connectWs, close_current. by repeat case_match.
  - by repeat case_match.
  - done.
  - unfold on_close. case_match; [|done]. cbn [fst]. rewrite failPendingRequests_retires. by apply retire_all_keeps.
  - unfold restart. rewrite failPendingRequests_retires. case_match; by apply retire_all_keeps.
  - rewrite elapse_retires. by apply retire_all_keeps.
Qed.
Lemma steps_keep es c k x : outcome_of c k = Some x → outcome_of (foldl step c es) k = Some x.
Proof. revert c. induction es as [|e es IH]; intros c H; [done|]. by apply IH, step_keeps. Qed.

(** ** When requests were sent *)

(** The milliseconds that pass in a run. *)
Fixpoint elapsed (es : list event) : Z :=
  match es with
  | [] => 0
  | Elapse ms :: es => Z.of_nat ms + elapsed es
  | _ :: es => elapsed es
  end.

(** Nothing but time, new requests, and sockets that open or fail to: no message
    arrives, no socket is closed and nothing restarts. *)
Definition quiet (e : event) : Prop :=
  match e with Message _ _ | Closed _ | Restart _ => False | _ => True end.

(** What an event does to the counter, the clock and the timers: the requests it
    does not send keep their timers or lose them. *)
Definition timers_kept (c c' : Client) (ms : Z) : Prop :=
  cl_reqId c <= cl_reqId c' ∧ cl_now c' = cl_now c + ms ∧
  ∀ e, e ∈ cl_timers c' → e.1 <= cl_reqId c → e ∈ cl_timers c.

Lemma timers_kept_refl c : timers_kept c c 0.
Proof. split_and!; [lia|lia|done]. Qed.
Lemma timers_kept_frame c c' : cl_reqId c' = cl_reqId c → cl_now c' = cl_now c → cl_timers c' = cl_timers c → timers_kept c c' 0.
Proof. intros E1 E2 E3. unfold timers_kept. rewrite E1, E2, E3. apply timers_kept_refl. Qed.
Lemma timers_kept_retire l c : timers_kept c (retire_all c l) 0.
Proof.
  destruct (retire_all_frame l c) as (_ & _ & E2 & E3). unfold timers_kept. rewrite E2, E3. split_and!; [lia|lia|].
  intros e [H _]%retire_all_timers. done.
Qed.
Lemma timers_kept_trans c1 c2 c3 m n : timers_kept c1 c2 m → timers_kept c2 c3 n → timers_kept c1 c3 (m + n).
Proof. intros (A1 & A2 & A3) (B1 & B2 & B3). split_and!; [lia|lia|]. intros e He Hid. apply A3; [apply B3; [done|lia]|done]. Qed.

Lemma step_timers c e : timers_kept c (step c e) (elapsed [e]).
Proof.
  destruct e as [method data|ws m|ws|ws|ws|ws|reason|ms]; cbn -[Z.add]; try replace (Z.of_nat ms + 0) with (Z.of_nat ms) by lia.
  - unfold wsRequest. destruct (cl_ws c) as [ws|]; [|apply timers_kept_refl]. destruct (ready_state c ws) as [[]|]; try apply timers_kept_refl.
    split_and!; cbn; [lia|lia|]. intros e He Hid. apply elem_of_app in He as [He|He%list_elem_of_singleton]; [done|]. subst e. cbn in Hid. lia.
  - destruct (cl_sockets c !! ws) as [s|]; [|apply timers_kept_refl]. destruct (so_wired s); [|apply timers_kept_refl]. unfold handleMessage.
    destruct (get_prop m "response") as [x|]; [|apply timers_kept_refl]. destruct (is_true x); [|case_match; apply timers_kept_refl]. cbn.
    unfold handle_response. destruct (pending_of c _) as [id|]; [|apply timers_kept_refl]. apply (timers_kept_retire [(id, _)]).
  - unfold connectWs, close_current. repeat case_match; by apply timers_kept_frame.
  - repeat case_match; by apply timers_kept_frame.
  - by apply timers_kept_frame.
  - unfold on_close. case_match; [|by apply timers_kept_frame]. cbn [fst]. rewrite failPendingRequests_retires.
    apply (timers_kept_retire _ (with_ws None (with_sockets _ c))).
  - unfold restart. rewrite failPendingRequests_retires. case_match; apply (timers_kept_trans _ (retire_all c (each_with (Rejected reason) (cl_pending c))) _ 0 0);
      first [apply timers_kept_retire|by apply timers_kept_frame].
  - rewrite elapse_retires. rewrite <-(Z.add_0_r (Z.of_nat ms)). eapply timers_kept_trans; [|apply timers_kept_retire].
    unfold timers_kept. split_and!; [cbn; lia|cbn; lia|done].
Qed.
Lemma elapsed_cons e es : elapsed (e :: es) = elapsed [e] + elapsed es.
Proof. destruct e; cbn; lia. Qed.
Lemma steps_timers es c : timers_kept c (foldl step c es) (elapsed es).
Proof.
  revert c. induction es as [|e es IH]; intros c; [apply timers_kept_refl|]. rewrite elapsed_cons. cbn [foldl].
  eapply timers_kept_trans; [apply step_timers|apply IH].
Qed.

Lemma elapsed_nonneg es : 0 <= elapsed es.
Proof. induction es as [|[] es IH]; cbn; lia. Qed.

Lemma retire_all_reqId l c : cl_reqId (retire_all c l) = cl_reqId c.
Proof. apply retire_all_frame. Qed.

(** Only a request counts. *)
Lemma step_reqId c e : match e with Request _ _ => False | _ => True end → cl_reqId (step c e) = cl_reqId c.
Proof.
  destruct e as [method data|ws m|ws|ws|ws|ws|reason|ms]; intros Hq; try done; cbn.
  - destruct (cl_sockets c !! ws) as [s|]; [|done]. destruct (so_wired s); [|done]. unfold handleMessage.
    destruct (get_prop m "response") as [x|]; [|done]. destruct (is_true x); [|by case_match]. cbn. unfold handle_response.
    by destruct (pending_of c _).
  - unfold close_current. by repeat case_match.
  - by repeat case_match.
  - unfold on_close. case_match; [|done]. cbn [fst]. rewrite failPendingRequests_retires. by rewrite retire_all_reqId.
  - unfold restart. rewrite failPendingRequests_retires.
    case_match; cbn [cl_reqId with_ws close_socket with_sockets]; by rewrite retire_all_reqId.
  - rewrite elapse_retires. by rewrite retire_all_reqId.
Qed.

Lemma NoDup_keys_inj {V} (m : list (Z * V)) k x y : NoDup (map_keys m) → (k, x) ∈ m → (k, y) ∈ m → x = y.
Proof.
  induction m as [|[k' v] m IH]; [by intros _ ?%elem_of_nil|]. cbn. intros [H1 H2]%NoDup_cons Hx Hy.
  apply elem_of_cons in Hx as [Ex|Hx]; apply elem_of_cons in Hy as [Ey|Hy]; simplify_eq; [done| | |by apply IH];
    destruct H1; apply list_elem_of_fmap; eexists; (split; [|eassumption]); done.
Qed.
Lemma map_get_NoDup {V} (m : list (Z * V)) k x : NoDup (map_keys m) → (k, x) ∈ m → map_get m k = Some x.
Proof.
  intros Hn Hx. destruct (map_get m k) as [y|] eqn:E; [|by apply map_get_none in E; destruct E; apply list_elem_of_fmap; exists (k, x)].
  f_equal. by apply (NoDup_keys_inj m k); [|apply map_get_elem|].
Qed.

(** What sending a request leaves: its timer, due ten seconds later. *)
Lemma wsRequest_sent method data c id c' : wf c → wsRequest method data c = (Ok id, c') →
  id = cl_reqId c + 1 ∧ cl_reqId c' = id ∧ cl_now c' = cl_now c ∧ outcome_of c' id = None ∧
  (id, (cl_now c + REQUEST_TIMEOUT_MS, method)) ∈ cl_timers c'.
Proof.
  intros Hw H. assert (wf c') as Hw' by (replace c' with (wsRequest method data c).2 by (by rewrite H); by apply wsRequest_wf).
  unfold wsRequest in H. destruct (cl_ws c) as [ws|]; [|done]. destruct (ready_state c ws) as [[]|]; try done.
  injection H as <- <-. split_and!; try done; [|cbn; apply elem_of_app; right; by apply list_elem_of_singleton].
  apply map_get_none, (co_apart _ (wf_coherent _ Hw')). cbn. unfold set_add. case_decide; [done|]. apply elem_of_app. right. by apply list_elem_of_singleton.
Qed.

(** A request counted was sent by some event. *)
Lemma sent_by es id : 1 <= id <= cl_reqId (run es) →
  ∃ es1 method data es2, es = es1 ++ Request method data :: es2 ∧ (wsRequest method data (run es1)).1 = Ok id.
Proof.
  induction es as [|e es IH] using rev_ind; [cbn; lia|]. replace (run (es ++ [e])) with (step (run es) e) by (unfold run; by rewrite foldl_app). intros Hid.
  destruct (decide (id <= cl_reqId (run es))) as [Hle|Hgt].
  { destruct IH as (es1 & method & data & es2 & -> & H); [lia|]. exists es1, method, data, (es2 ++ [e]). by rewrite <-app_assoc. }
  destruct e as [method data| | | | | | |]; cycle 1;
    [exfalso; apply Hgt; match goal with H : 1 <= _ <= cl_reqId (step _ ?e) |- _ => pose proof (step_reqId (run es) e ltac:(done)) end; lia..|].
  exists es, method, data, []. split; [done|]. cbn in Hid. unfold wsRequest in *. destruct (cl_ws (run es)) as [ws|]; [|cbn in Hid; lia].
  destruct (ready_state _ ws) as [[]|]; cbn in Hid |- *; try lia. f_equal. lia.
Qed.

(** A run in which a request is sent, seen from there on. *)
Lemma run_from es1 method data es2 id : (wsRequest method data (run es1)).1 = Ok id →
  let c1 := step (run es1) (Request method data) in let c := run (es1 ++ Request method data :: es2) in
  c = foldl step c1 es2 ∧ wf c1 ∧ wf c ∧ timers_kept c1 c (elapsed es2) ∧
  1 <= id <= cl_reqId c1 ∧ outcome_of c1 id = None ∧ (id, (cl_now c1 + REQUEST_TIMEOUT_MS, method)) ∈ cl_timers c1.
Proof.
  intros H c1 c. assert (c = foldl step c1 es2) as E by (unfold c, run; by rewrite foldl_app).
  pose proof (run_wf es1) as Hw. cbn in c1. destruct (wsRequest method data (run es1)) as [o c'] eqn:Er. cbn in H. subst o.
  destruct (wsRequest_sent _ _ _ _ _ Hw Er) as (H1 & H2 & H3 & H4 & H5). assert (c1 = c') as -> by (unfold c1; cbn; by rewrite ?Er).
  pose proof (wf_count _ Hw). split_and!; try done; try lia.
  - replace c' with (wsRequest method data (run es1)).2 by (by rewrite Er). by apply wsRequest_wf.
  - apply run_wf.
  - rewrite E. apply steps_timers.
  - by rewrite H3.
Qed.

(** A request whose timer is armed, while nothing but time passes. *)
Lemma step_quiet c e id due method : wf c → quiet e → (id, (due, method)) ∈ cl_timers c → outcome_of c id = None →
  if due <=? cl_now (step c e) then outcome_of (step c e) id = Some (Rejected ("request timeout: " +:+ method))
  else (id, (due, method)) ∈ cl_timers (step c e) ∧ outcome_of (step c e) id = None.
Proof.
  intros Hw Hq Ht Ho. assert (cl_now c < due) as Hd by (by eapply wf_due).
  assert (∀ c', cl_now c' = cl_now c → (id, (due, method)) ∈ cl_timers c' → cl_settled c' = cl_settled c →
    if due <=? cl_now c' then outcome_of c' id = Some (Rejected ("request timeout: " +:+ method))
    else (id, (due, method)) ∈ cl_timers c' ∧ outcome_of c' id = None) as Hsame.
  { intros c' E1 E2 E3. rewrite E1. destruct (Z.leb_spec due (cl_now c)); [lia|]. unfold outcome_of. by rewrite E3. }
  destruct e as [m data|ws m|ws|ws|ws|ws|reason|ms]; try done; cbn [step].
  - unfold wsRequest. destruct (cl_ws c) as [ws|]; [|by apply Hsame]. destruct (ready_state c ws) as [[]|]; try (by apply Hsame).
    cbn [snd]. apply Hsame; [done| |done]. cbn. apply elem_of_app. by left.
  - apply Hsame; unfold connectWs, close_current; by repeat case_match.
  - destruct (cl_sockets c !! ws) as [s|]; [|by apply Hsame]. destruct (so_readyState s); by apply Hsame.
  - by apply Hsame.
  - rewrite elapse_retires. set (now := cl_now c + Z.of_nat ms). destruct (retire_all_frame (timed_out now c) (with_now now c)) as (_ & _ & _ & E).
    rewrite E, retire_all_outcome. change (cl_now (with_now now c)) with now. change (outcome_of (with_now now c) id) with (outcome_of c id).
    rewrite Ho. destruct (timed_out_keys now c (wf_coherent _ Hw)) as [Hn _]. destruct (Z.leb_spec due now) as [Hle|Hlt].
    + apply map_get_NoDup; [done|]. apply timed_out_elem. eauto.
    + assert (id ∉ (timed_out now c).*1) as Hno.
      { intros ([k x] & -> & (due' & m & H & ? & _)%timed_out_elem)%list_elem_of_fmap. cbn in *.
        assert ((due', m) = (due, method)) as [= -> ->]; [|lia]. eapply (NoDup_keys_inj (cl_timers c)); [|done|done].
        rewrite (co_timers _ (wf_coherent _ Hw)). apply (wf_coherent _ Hw). }
      split; [apply retire_all_timers; by split|]. by apply map_get_none.
Qed.

Lemma steps_quiet es c id due method : wf c → Forall quiet es → (id, (due, method)) ∈ cl_timers c → outcome_of c id = None →
  outcome_of (foldl step c es) id =
    if due <=? cl_now c + elapsed es then Some (Rejected ("request timeout: " +:+ method)) else None.
Proof.
  revert c. induction es as [|e es IH]; intros c Hw Hq Ht Ho.
  { cbn. assert (cl_now c < due) by (by eapply wf_due). destruct (Z.leb_spec due (cl_now c + 0)); [lia|done]. }
  apply Forall_cons in Hq as [Hqe Hqs]. pose proof (step_quiet c e id due method Hw Hqe Ht Ho) as Hstep. cbn [foldl]. rewrite elapsed_cons.
  destruct (step_timers c e) as (_ & E & _). destruct (Z.leb_spec due (cl_now (step c e))) as [Hle|Hlt].
  - rewrite (steps_keep _ _ _ _ Hstep). assert (0 <= elapsed es) by apply elapsed_nonneg. destruct (Z.leb_spec due (cl_now c + (elapsed [e] + elapsed es))); [done|lia].
  - destruct Hstep as [H1 H2]. rewrite IH; [|by apply step_wf|done|done|done]. by rewrite E, Z.add_assoc.
Qed.

(** C26: every request is settled once, and in time.  Each request that has been
    counted was sent by one of the events, on one socket only, and, with the time that
    has passed since then: it is either still waiting, and that is less than ten
    seconds ago, or it is settled, and the settlement stays; while no message comes
    and no connection is lost, it is settled after ten seconds exactly, as rejected
    with a message that names its method. *)
Theorem requests_settle es id : let c := run es in 1 <= id <= cl_reqId c →
  ∃ es1 method data es2, es = es1 ++ Request method data :: es2 ∧ (wsRequest method data (run es1)).1 = Ok id ∧
    ((id ∈ cl_pending c ∧ outcome_of c id = None ∧ elapsed es2 < 10000) ∨
     (id ∉ cl_pending c ∧ ∃ r, outcome_of c id = Some r ∧ ∀ es', outcome_of (run (es ++ es')) id = Some r)) ∧
    (Forall quiet es2 →
      outcome_of c id = if 10000 <=? elapsed es2 then Some (Rejected ("request timeout: " +:+ method)) else None) ∧
    (∀ ws ws', sent_on c ws id → sent_on c ws' id → ws = ws').
Proof.
  intros c Hid. destruct (sent_by es id Hid) as (es1 & method & data & es2 & E & Hsent). exists es1, method, data, es2. do 2 (split; [done|]).
  destruct (run_from es1 method data es2 id Hsent) as (Ec & Hw1 & Hw & (_ & Hnow & Hkept) & Hid1 & Ho & Ht).
  rewrite <-E in *. fold c in Ec, Hw, Hnow, Hkept. set (c1 := step (run es1) (Request method data)) in *.
  destruct Hw as [[H1 H2 H3 H4 H5] Hd Hn Hs Hone]. split_and!; [| |intros ws ws'; apply Hone].
  - unfold outcome_of. destruct (map_get (cl_settled c) id) as [r|] eqn:Er.
    + right. split; [intros Hp%H5; by apply map_get_elem, (list_elem_of_fmap_2 fst) in Er|]. exists r. split; [done|].
      intros es'. unfold run. rewrite foldl_app. by apply steps_keep.
    + left. assert (id ∈ cl_pending c) as Hp. { apply map_get_none in Er. apply H4 in Hid as [?|?]; done. } do 2 (split; [done|]).
      rewrite <-H1 in Hp. apply list_elem_of_fmap in Hp as ([k [due m]] & -> & Hk). cbn [fst] in *. pose proof (Hd _ _ _ Hk).
      apply Hkept in Hk; [|cbn [fst]; lia]. assert ((due, m) = (cl_now c1 + REQUEST_TIMEOUT_MS, method)) as [= -> ->].
      { eapply (NoDup_keys_inj (cl_timers c1)); [|done|done]. rewrite (co_timers _ (wf_coherent _ Hw1)). apply (wf_coherent _ Hw1). }
      unfold REQUEST_TIMEOUT_MS in *. lia.
  - intros Hq. rewrite Ec, (steps_quiet es2 c1 id (cl_now c1 + REQUEST_TIMEOUT_MS) method) by done.
    unfold REQUEST_TIMEOUT_MS. destruct (Z.leb_spec (cl_now c1 + 10000) (cl_now c1 + elapsed es2)), (Z.leb_spec 10000 (elapsed es2)); done || lia.
Qed.

(** One request answered, the other given up: the theorem at a run. *)
Definition demo_run : list event :=
  [Connect 0; Opened 0; Request "join" JUndef; Elapse 4000; Request "produce" JUndef;
   Message 0 (JObj [("response", JBool true); ("id", js_int 1); ("ok", JBool true); ("data", js_int 7)]); Elapse 10000].

Lemma requests_settle_witness :
  outcome_of (run demo_run) 1 = Some (Resolved (js_int 7)) ∧
  ∃ es1 method data es2, demo_run = es1 ++ Request method data :: es2 ∧ (wsRequest method data (run es1)).1 = Ok 2 ∧
    ∀ es', outcome_of (run (demo_run ++ es')) 2 = Some (Rejected "request timeout: produce").
Proof.
  split; [vm_compute; reflexivity|].
  destruct (requests_settle demo_run 2) as (es1 & method & data & es2 & E & Hs & [(Hp & _)|(_ & r & Hr & Hk)] & _).
  - vm_compute. split; discriminate.
  - vm_compute in Hp. by apply not_elem_of_nil in Hp.
  - exists es1, method, data, es2. split; [exact E|]. split; [exact Hs|]. vm_compute in Hr. injection Hr as <-. exact Hk.
Defined.

Lemma js_int_eq a b : strict_eq (js_int a) (js_int b) = true ↔ a = b.
Proof.
  unfold js_int, strict_eq. unfold num_eqb, num_of_Z. split; [|intros ->; apply Qeq_bool_iff; reflexivity].
  intros H%Qeq_bool_iff. unfold Qeq in H. cbn in H. lia.
Qed.

Lemma pending_of_int c id : id ∈ cl_pending c → pending_of c (js_int id) = Some id.
Proof.
  intros H. unfold pending_of. destruct (array_find _ _) as [k|] eqn:E.
  - apply array_find_some in E as (_ & E). apply js_int_eq in E. by subst.
  - apply array_find_none in E. rewrite Forall_forall in E. specialize (E id H). assert (strict_eq (js_int id) (js_int id) = true) by by apply js_int_eq.
    congruence.
Qed.

(** A response settles the request it names and no other, on whichever socket it
    comes. *)
Theorem response_delivered es ws s m id : let c := run es in
  cl_sockets c !! ws = Some s → so_wired s = true → js_get m "response" = JBool true → js_get m "id" = js_int id → id ∈ cl_pending c →
  let c' := step c (Message ws m) in
  cl_pending c' = set_remove (cl_pending c) id ∧
  outcome_of c' id = Some (if truthy (js_get m "ok") then Resolved (js_get m "data")
                           else Rejected (js_to_string (js_or (js_get m "error") (JStr "request failed")))) ∧
  ∀ k, k ≠ id → outcome_of c' k = outcome_of c k.
Proof.
  intros c Hs Hw Hr Hid Hp. cbn [step]. rewrite Hs, Hw. unfold handleMessage, get_prop.
  assert (is_nullish m = false) as -> by (destruct m; done). cbn -[handle_response]. rewrite Hr. cbn -[handle_response]. unfold handle_response.
  rewrite Hid, pending_of_int by done. unfold retire. split; [done|].
  assert (outcome_of c id = None) as Hn.
  { apply map_get_none. by apply (co_apart _ (wf_coherent _ (run_wf es))). }
  split; [|intros k Hk]; rewrite settle_outcome; change (outcome_of (with_pending _ _) ?x) with (outcome_of c x).
  - by rewrite Hn, decide_True.
  - rewrite decide_False by done. by destruct (outcome_of c k).
Qed.
