(* ===== verification/DemoQos.v ===== *)
(** * Quality of service in the demo page (public/qos-demo.js)

    The parts of the page that compute: the mode of the page, the policy and the
    profile it gives the library, the codec it prefers, the hints about its video
    elements, the statistics it gathers, the texts of its panel, and the grouping of
    the remote videos.  Layout and elements are the browser's: a hint is computed from
    what they report. *)

From Stdlib Require Import QArith Qround Ascii.
From S2P Require Import Prelude JsNum JsVal JsConv JsString QosTypes Profiles Signals Protocol OrtcValidate Ortc.
Local Open Scope string_scope.
Local Open Scope list_scope.
Local Open Scope Z_scope.

(** ** The mode *)

Section Mode.
(** The query parameter [qos]. *)
Context (qosMode : option string).

Definition useLegacyQos : bool := bool_decide (qosMode = Some "legacy").
Definition useFullQos : bool := bool_decide (qosMode = Some "full").
Definition shouldUseLocalNoPausePolicy : bool := negb useLegacyQos && negb useFullQos.
Definition shouldEnableActiveQosControls : bool := useLegacyQos || useFullQos.
End Mode.

Definition buildDemoQosPolicy (basePolicy : jsval) : jsval :=
  let policy := js_or basePolicy (JObj []) in
  let profiles := js_or (js_get policy "profiles") (JObj []) in
  JObj [
    ("schema", JStr "mediasoup.qos.policy.v1");
    ("sampleIntervalMs", js_or (js_get policy "sampleIntervalMs") (js_int 1000));
    ("snapshotIntervalMs", js_or (js_get policy "snapshotIntervalMs") (js_int 2000));
    ("allowAudioOnly", JBool false);
    ("allowVideoPause", JBool false);
    ("profiles", JObj [
      ("camera", js_or (js_get profiles "camera") (JStr "default"));
      ("screenShare", js_or (js_get profiles "screenShare") (JStr "clarity-first"));
      ("audio", js_or (js_get profiles "audio") (JStr "speech-first"))])].

(** A message that is an object. *)
Definition normalizeIncomingQosMessage (qosMode : option string) (message : jsval) : jsval :=
  if negb (is_str (js_get message "method") "qosPolicy") || negb (shouldEnableActiveQosControls qosMode) ||
     negb (shouldUseLocalNoPausePolicy qosMode) then message
  else js_set message "data" (buildDemoQosPolicy (js_get message "data")).

(** ** The profile of the fallback stream *)

Definition fallback_thresholds : ThresholdsOverride := {|
  to_warnLossRate := Some (lit (4#100)); to_congestedLossRate := Some (lit (8#100));
  to_warnRttMs := Some (num_of_Z 220); to_congestedRttMs := Some (num_of_Z 320);
  to_warnJitterMs := Some (num_of_Z 30); to_congestedJitterMs := Some (num_of_Z 60);
  to_warnBitrateUtilization := Some (lit (45#100)); to_congestedBitrateUtilization := Some (lit (25#100));
  to_stableLossRate := Some (lit (3#100)); to_stableRttMs := Some (num_of_Z 180);
  to_stableJitterMs := Some (num_of_Z 20); to_stableBitrateUtilization := Some (lit (55#100)) |}.

Definition buildFallbackCameraProfile : ProfileOverride := {|
  po_name := Some "demo-fallback-camera"; po_source := Some Camera; po_levelCount := None; po_sampleInterval := None;
  po_snapshotInterval := None; po_recoveryCooldownMs := None; po_thresholds := Some fallback_thresholds;
  po_ladder := Some [
    with_encoding (video_encoding 450000 15 1) (ladder_step 0 "Fallback canvas baseline.");
    with_encoding (video_encoding 350000 12 1) (ladder_step 1 "Fallback canvas mild downgrade.");
    with_encoding (video_encoding 250000 10 (125#100)) (ladder_step 2 "Fallback canvas moderate downgrade.");
    with_encoding (video_encoding 180000 8 (15#10)) (ladder_step 3 "Fallback canvas aggressive downgrade.");
    {| ls_level := 4; ls_description := "Reserved audio-only fallback step."; ls_encodingParameters := None;
       ls_spatialLayer := None; ls_enterAudioOnly := true; ls_exitAudioOnly := false; ls_pauseUpstream := false;
       ls_resumeUpstream := false |}] |}.

(** ** The codec *)

Definition mime_type (codec : jsval) : string := toLowerCase (js_to_string (js_or (js_get codec "mimeType") (JStr ""))).
Definition packetization_mode (codec : jsval) : num :=
  js_number (js_coalesce (js_get (js_get codec "parameters") "packetization-mode") (js_int 0)).
Definition profile_level_id (codec : jsval) : string :=
  toLowerCase (js_to_string (js_or (js_get (js_get codec "parameters") "profile-level-id") (JStr ""))).

Definition is_mime (mimeType : string) (codec : jsval) : bool := String.eqb (mime_type codec) mimeType.
Definition mode_1 (codec : jsval) : bool := num_eqb (packetization_mode codec) num1.

(** The conditions in the order of preference. *)
Definition codec_preferences : list (jsval → bool) := [
  (λ c, is_mime "video/h264" c && mode_1 c && String.eqb (profile_level_id c) "42e01f");
  (λ c, is_mime "video/h264" c && mode_1 c);
  is_mime "video/h264";
  is_mime "video/vp8";
  is_mime "video/vp9"].

Fixpoint first_preferred (preferences : list (jsval → bool)) (codecs : list jsval) : option jsval :=
  match preferences with
  | [] => None
  | p :: preferences => match array_find p codecs with Some c => Some c | None => first_preferred preferences codecs end
  end.

(** From [state.device?.rtpCapabilities]. *)
Definition selectPreferredVideoCodec (rtpCapabilities : jsval) : option jsval :=
  first_preferred codec_preferences match js_get rtpCapabilities "codecs" with JArr l => l | _ => [] end.

(** ** Hints *)

(** What the elements of a remote video report: the measured rectangle of the hint
    target, if it can be measured, and the sizes of the video element. *)
Record Layout := {
  ly_rect : option (num * num);
  ly_clientSize : num * num;
  ly_videoSize : num * num;
  ly_elementConnected : bool;
  (** The target exists and is connected. *)
  ly_targetConnected : bool;
  ly_display : string;
  ly_visibility : string;
}.

Definition num_or (x y : num) : num := if truthy (JNum x) then x else y.

(** [Math.round(rect || client || video || 0)]. *)
Definition measured (rect client video : num) : num := math_round (num_or rect (num_or client (num_or video num0))).

Definition computeConsumerHint (producerId kind mid : jsval) (l : Layout) : jsval :=
  let rect := default (num0, num0) (ly_rect l) in
  let width := measured rect.1 (ly_clientSize l).1 (ly_videoSize l).1 in
  let height := measured rect.2 (ly_clientSize l).2 (ly_videoSize l).2 in
  let visible := ly_elementConnected l && ly_targetConnected l && num_ltb (num_of_Z 8) width && num_ltb (num_of_Z 8) height &&
                 negb (String.eqb (ly_display l) "none") && negb (String.eqb (ly_visibility l) "hidden") in
  JObj [
    ("producerId", producerId); ("kind", kind); ("mid", mid); ("visible", JBool visible); ("pinned", JBool false);
    ("activeSpeaker", JBool false); ("isScreenShare", JBool false);
    ("targetWidth", JNum (if visible then width else num0)); ("targetHeight", JNum (if visible then height else num0))].

(** ** Statistics *)

Definition asFiniteNumber (value : jsval) : option num :=
  if is_finite (js_number value) then Some (js_number value) else None.
Definition asFiniteOrZero (value : jsval) : num := default num0 (asFiniteNumber value).

Definition non_empty_string (v : jsval) : option string := match v with JStr s => if String.eqb s "" then None else Some s | _ => None end.

Definition makeInboundCounterKey (report : jsval) (fallbackIndex : nat) : string :=
  match non_empty_string (js_get report "id"), non_empty_string (js_get report "mid"), asFiniteNumber (js_get report "ssrc") with
  | Some id, _, _ => id
  | None, Some mid, _ => "mid:" +:+ mid
  | None, None, Some ssrc => "ssrc:" +:+ js_to_string (JNum ssrc)
  | None, None, None => "fallback:" +:+ js_to_string (js_int (Z.of_nat fallbackIndex))
  end.

(** [previous] is [undefined] for a new key. *)
Definition computeCounterDelta (current : num) (previous : option num) : num :=
  match previous with
  | Some p => if is_finite current && is_finite p then (if num_leb p current then num_sub current p else num0) else num0
  | None => num0
  end.

Record Counter := { ct_packetsLost : num; ct_packetsReceived : num }.
Abbreviation Counters := (list (string * Counter)).

(** What the reports of a kind add up to: the greatest values of some fields and the
    sums of others, with the counters seen. *)
Record Inbound := {
  ib_seen : bool;
  ib_jitter : num;
  ib_packetsLost : num;
  ib_packetsReceived : num;
  ib_packetsLostDelta : num;
  (** [framesPerSecond], [frameWidth] and [frameHeight] of video. *)
  ib_maxima : list num;
  (** [freezeCount], [totalFreezesDuration], [framesDropped], [jitterBufferDelay] and
      [jitterBufferEmittedCount] of video; [concealedSamples] and
      [totalSamplesReceived] of audio. *)
  ib_sums : list num;
  ib_counters : Counters;
}.

Definition empty_inbound (maxima sums : list string) : Inbound :=
  {| ib_seen := false; ib_jitter := num0; ib_packetsLost := num0; ib_packetsReceived := num0; ib_packetsLostDelta := num0;
     ib_maxima := map (λ _, num0) maxima; ib_sums := map (λ _, num0) sums; ib_counters := [] |}.

(** One report of the kind. *)
Definition add_inbound (maxima sums : list string) (previous : Counters) (key : string) (report : jsval) (i : Inbound) : Inbound :=
  let currentLost := asFiniteOrZero (js_get report "packetsLost") in
  let currentReceived := asFiniteOrZero (js_get report "packetsReceived") in
  {| ib_seen := true;
     ib_jitter := math_max (ib_jitter i) (asFiniteOrZero (js_get report "jitter"));
     ib_packetsLost := num_add (ib_packetsLost i) currentLost;
     ib_packetsReceived := num_add (ib_packetsReceived i) currentReceived;
     ib_packetsLostDelta := num_add (ib_packetsLostDelta i) (computeCounterDelta currentLost (ct_packetsLost <$> map_get previous key));
     ib_maxima := zip_with (λ field m, math_max m (asFiniteOrZero (js_get report field))) maxima (ib_maxima i);
     ib_sums := zip_with (λ field m, num_add m (asFiniteOrZero (js_get report field))) sums (ib_sums i);
     ib_counters := map_set (ib_counters i) key {| ct_packetsLost := currentLost; ct_packetsReceived := currentReceived |} |}.

Definition video_maxima : list string := ["framesPerSecond"; "frameWidth"; "frameHeight"].
Definition video_sums : list string := ["freezeCount"; "totalFreezesDuration"; "framesDropped"; "jitterBufferDelay"; "jitterBufferEmittedCount"].
Definition audio_sums : list string := ["concealedSamples"; "totalSamplesReceived"].

Record DebugInboundCounters := { di_video : Counters; di_audio : Counters }.

Record Gathering := {
  ga_recv : jsval;
  ga_video : Inbound;
  ga_audio : Inbound;
  ga_index : nat;
}.

Definition is_kind (kind : string) (report : jsval) : bool :=
  is_str (js_get report "type") "inbound-rtp" && is_str (js_get report "kind") kind.
Definition nominated_pair (report : jsval) : bool :=
  is_str (js_get report "type") "candidate-pair" && truthy (js_get report "nominated").
Definition picked (fields : list string) (report : jsval) : jsval := JObj (map (λ k, (k, js_or (js_get report k) (js_int 0))) fields).

Definition gather (previous : DebugInboundCounters) (g : Gathering) (report : jsval) : Gathering :=
  let recv := if nominated_pair report
              then picked ["availableIncomingBitrate"; "currentRoundTripTime"; "bytesReceived"] report else ga_recv g in
  let key := makeInboundCounterKey report (ga_index g) in
  if is_kind "video" report then
    {| ga_recv := recv; ga_video := add_inbound video_maxima video_sums (di_video previous) key report (ga_video g);
       ga_audio := ga_audio g; ga_index := S (ga_index g) |}
  else if is_kind "audio" report then
    {| ga_recv := recv; ga_video := ga_video g;
       ga_audio := add_inbound [] audio_sums (di_audio previous) key report (ga_audio g); ga_index := S (ga_index g) |}
  else {| ga_recv := recv; ga_video := ga_video g; ga_audio := ga_audio g; ga_index := ga_index g |}.

Definition gather_all (previous : DebugInboundCounters) (reports : list jsval) : Gathering :=
  foldl (gather previous)
    {| ga_recv := JUndef; ga_video := empty_inbound video_maxima video_sums; ga_audio := empty_inbound [] audio_sums; ga_index := 0 |} reports.

(** The mean delay of the jitter buffer in milliseconds. *)
Definition jitter_buffer_delay (delay count : num) : option num :=
  if num_ltb num0 count then Some (num_mul (num_div delay count) (num_of_Z 1000))
  else if num_ltb num0 delay then Some (num_mul delay (num_of_Z 1000)) else None.

Record DebugStats := {
  ds_send : jsval;
  ds_recv : jsval;
  ds_inboundVideo : option Inbound;
  (** [freezeCount], [totalFreezesDuration], [framesDropped] and the delay. *)
  ds_videoFreeze : option (list num * option num);
  ds_inboundAudio : option Inbound;
}.

Definition video_freeze (v : Inbound) : option (list num * option num) :=
  match ib_sums v with
  | [freezeCount; totalFreezesDuration; framesDropped; delay; count] =>
      let d := jitter_buffer_delay delay count in
      if num_ltb num0 freezeCount || num_ltb num0 totalFreezesDuration || num_ltb num0 framesDropped || (if d is Some _ then true else false)
      then Some ([freezeCount; totalFreezesDuration; framesDropped], d) else None
  | _ => None
  end.

(** From the reports of the transports, as far as there are transports. *)
Definition collectLocalDebugStats (sendStats recvStats : option (list jsval)) (previous : DebugInboundCounters) :
    DebugStats * DebugInboundCounters :=
  let send := foldl (λ s report, if nominated_pair report
      then picked ["availableOutgoingBitrate"; "currentRoundTripTime"; "totalRoundTripTime"; "bytesSent"] report else s) JUndef (default [] sendStats) in
  match recvStats with
  | None => ({| ds_send := send; ds_recv := JUndef; ds_inboundVideo := None; ds_videoFreeze := None; ds_inboundAudio := None |}, previous)
  | Some reports =>
      let g := gather_all previous reports in
      let kept (i : Inbound) := if ib_seen i then Some i else None in
      ({| ds_send := send; ds_recv := ga_recv g; ds_inboundVideo := kept (ga_video g);
          ds_videoFreeze := kept (ga_video g) ≫= video_freeze; ds_inboundAudio := kept (ga_audio g) |},
       {| di_video := ib_counters (ga_video g); di_audio := ib_counters (ga_audio g) |})
  end.

(** ** The mode *)

(** No mode both enables the controls and keeps them from pausing, so that policies
    reach the session as they come. *)
Lemma normalize_never_applies qosMode message : normalizeIncomingQosMessage qosMode message = message.
Proof.
  unfold normalizeIncomingQosMessage, shouldEnableActiveQosControls, shouldUseLocalNoPausePolicy.
  by destruct (is_str _ _), (useLegacyQos qosMode), (useFullQos qosMode).
Qed.

(** ** Policy and profile *)

Definition or_Z (z default : Z) : Z := if z =? 0 then default else z.

Lemma integer_truthy a : is_finite a = true → is_integer a = true → truthy (JNum a) = negb (floor_Z a =? 0).
Proof.
  destruct a as [| | |q]; try done. intros _ H. cbn in *. apply Z.eqb_eq in H. f_equal. apply eq_true_iff_eq. rewrite Qeq_bool_iff, Z.eqb_eq. split.
  - intros E. by rewrite (Qfloor_comp _ _ E).
  - intros E. destruct q as [n d]. unfold Qfloor in E. unfold Qeq. cbn in *. pose proof (Z.div_mod n (Zpos d) ltac:(lia)). lia.
Qed.
Lemma asNonNegativeInt_int z path : 0 <= z → asNonNegativeInt (js_int z) path = Ok z.
Proof.
  intros Hz. unfold asNonNegativeInt, asInt, Protocol.asFiniteNumber, js_int. change (is_finite (num_of_Z z)) with true. cbn -[is_integer floor_Z num_of_Z].
  rewrite num_of_Z_integer, floor_num_of_Z. cbn. by destruct (Z.ltb_spec z 0); [lia|].
Qed.
Lemma or_nonNegativeInt v path z d : 0 <= d → asNonNegativeInt v path = Ok z → asNonNegativeInt (js_or v (js_int d)) path = Ok (or_Z z d).
Proof.
  intros Hd H. pose proof H as H0. unfold asNonNegativeInt, asInt, Protocol.asFiniteNumber in H0. bind_inv. repeat (case_match; bind_inv; try done).
  simplify_eq. unfold js_or, or_Z. rewrite integer_truthy by (try done; by apply negb_false_iff).
  destruct (floor_Z _ =? 0); cbn [negb]; [by apply asNonNegativeInt_int|done].
Qed.
Lemma or_nonEmptyString v path s d : asNonEmptyString v path = Ok s → asNonEmptyString (js_or v (JStr d)) path = Ok s.
Proof.
  intros H. pose proof H as H0. unfold asNonEmptyString, asString in H0. bind_inv. repeat (case_match; bind_inv; try done). simplify_eq.
  unfold js_or. cbn. by destruct s.
Qed.
Lemma or_object v path o w : asObject v path = Ok o → js_or v w = v ∧ o = v.
Proof. unfold asObject, isObject. destruct v; cbn; intros [=]; by subst. Qed.

(** A policy of the server becomes one that the library accepts, in which video is
    never paused and the intervals are positive. *)
Theorem demo_policy_valid base p : parseQosPolicy base = Ok p →
  parseQosPolicy (buildDemoQosPolicy base) = Ok {|
    po_sampleIntervalMs := or_Z (po_sampleIntervalMs p) 1000; po_snapshotIntervalMs := or_Z (po_snapshotIntervalMs p) 2000;
    po_allowAudioOnly := false; po_allowVideoPause := false; po_profiles_camera := po_profiles_camera p;
    po_profiles_screenShare := po_profiles_screenShare p; po_profiles_audio := po_profiles_audio p |}.
Proof.
  intros H. unfold parseQosPolicy in H. bind_inv.
  destruct (or_object _ _ _ (JObj []) Hm) as [E1 ->]. destruct (or_object _ _ _ (JObj []) Hm6) as [E2 ->].
  unfold buildDemoQosPolicy. rewrite E1, E2. set (profiles := JObj [("camera", _); _; _]). set (o := JObj _).
  unfold parseQosPolicy. change (asObject o "qosPolicy") with (Ok o). cbn [mbind outcome_bind].
  change (js_get o "schema") with (JStr QOS_POLICY_SCHEMA_V1). change (js_get o "profiles") with profiles.
  change (js_get o "sampleIntervalMs") with (js_or (js_get base "sampleIntervalMs") (js_int 1000)).
  change (js_get o "snapshotIntervalMs") with (js_or (js_get base "snapshotIntervalMs") (js_int 2000)).
  change (js_get o "allowAudioOnly") with (JBool false). change (js_get o "allowVideoPause") with (JBool false).
  change (asObject profiles "qosPolicy.profiles") with (Ok profiles). cbn [mbind outcome_bind].
  change (js_get profiles "camera") with (js_or (js_get (js_get base "profiles") "camera") (JStr "default")).
  change (js_get profiles "screenShare") with (js_or (js_get (js_get base "profiles") "screenShare") (JStr "clarity-first")).
  change (js_get profiles "audio") with (js_or (js_get (js_get base "profiles") "audio") (JStr "speech-first")).
  apply (or_nonNegativeInt _ _ _ 1000) in Hm2; [|lia]. apply (or_nonNegativeInt _ _ _ 2000) in Hm3; [|lia].
  apply (or_nonEmptyString _ _ _ "default") in Hm7. apply (or_nonEmptyString _ _ _ "clarity-first") in Hm8.
  apply (or_nonEmptyString _ _ _ "speech-first") in Hm9. cbn [mbind outcome_bind asString asBoolean].
  change (check_schema QOS_POLICY_SCHEMA_V1 QOS_POLICY_SCHEMA_V1 "qosPolicy") with (Ok tt). cbn [mbind outcome_bind].
  rewrite Hm2. cbn [mbind outcome_bind]. rewrite Hm3. cbn [mbind outcome_bind]. rewrite Hm7. cbn [mbind outcome_bind]. rewrite Hm8. cbn [mbind outcome_bind]. rewrite Hm9. by subst p.
Qed.

(** Without a policy of the server there is one with the defaults. *)
Lemma demo_policy_default v : truthy v = false → is_ok (parseQosPolicy (buildDemoQosPolicy v)) = true.
Proof.
  intros Hv. unfold buildDemoQosPolicy. assert (js_or v (JObj []) = JObj []) as -> by (unfold js_or; by rewrite Hv). vm_compute. reflexivity.
Qed.

(** The planner's theorems hold with the profile of the fallback stream. *)
Lemma fallback_profile_wf : wf_profile (resolveProfile Camera (Some buildFallbackCameraProfile)) = true.
Proof. vm_compute. reflexivity. Qed.

(** ** The codec *)

(** The first preference that a codec satisfies. *)
Fixpoint preference (preferences : list (jsval → bool)) (codec : jsval) : nat :=
  match preferences with [] => 0 | p :: preferences => if p codec then 0 else S (preference preferences codec) end.

Lemma first_preferred_spec ps codecs :
  match first_preferred ps codecs with
  | Some c => c ∈ codecs ∧ (preference ps c < length ps)%nat ∧ ∀ c', c' ∈ codecs → (preference ps c <= preference ps c')%nat
  | None => ∀ c', c' ∈ codecs → preference ps c' = length ps
  end.
Proof.
  induction ps as [|p ps IH]; [done|]. cbn. destruct (array_find p codecs) as [c|] eqn:E.
  - apply array_find_some in E as (H1 & H2). rewrite H2. split_and!; [done|lia|lia].
  - apply array_find_none in E. rewrite Forall_forall in E.
    destruct (first_preferred ps codecs) as [c|].
    + destruct IH as (H1 & H2 & H3). rewrite (E c H1). split_and!; [done|lia|]. intros c' Hc'. rewrite (E c' Hc'). specialize (H3 c' Hc'). lia.
    + intros c' Hc'. rewrite (E c' Hc'). by rewrite IH.
Qed.

(** The codec chosen is one of the device's that comes first in the order of
    preference, and there is one if any codec is preferred. *)
Theorem preferred_codec_first codecs caps : js_get caps "codecs" = JArr codecs →
  match selectPreferredVideoCodec caps with
  | Some c => c ∈ codecs ∧ ∀ c', c' ∈ codecs → (preference codec_preferences c <= preference codec_preferences c')%nat
  | None => ∀ c', c' ∈ codecs → Forall (λ p, p c' = false) codec_preferences
  end.
Proof.
  intros E. unfold selectPreferredVideoCodec. rewrite E. pose proof (first_preferred_spec codec_preferences codecs) as H.
  destruct (first_preferred _ _) as [c|]; [by destruct H as (? & _ & ?)|]. intros c' Hc'%H. revert Hc'. generalize codec_preferences.
  intros ps. induction ps as [|p ps IH]; [by constructor|]. cbn. destruct (p c') eqn:Ep; [done|]. intros [= H']. constructor; auto.
Qed.

(** ** Statistics *)

Lemma demo_delta_nonneg c p : nonneg (computeCounterDelta c p).
Proof.
  unfold computeCounterDelta. destruct p as [p|]; [|done]. destruct c as [| | |c], p as [| | |p]; try done. cbn [is_finite andb].
  destruct (num_leb (Fin p) (Fin c)) eqn:E; [|done]. apply num_sub_nonneg. by apply num_le_fin in E.
Qed.

(** The reports of a kind with the keys they are counted under. *)
Fixpoint keyed (kind : string) (n : nat) (reports : list jsval) : list (string * jsval) :=
  match reports with
  | [] => []
  | r :: reports =>
      let inbound := is_kind "video" r || is_kind "audio" r in
      (if is_kind kind r then [(makeInboundCounterKey r n, r)] else []) ++ keyed kind (if inbound then S n else n) reports
  end.

Definition add_keyed (maxima sums : list string) (previous : Counters) (i : Inbound) (e : string * jsval) : Inbound :=
  add_inbound maxima sums previous e.1 e.2 i.

Lemma one_kind r : is_kind "video" r = true → is_kind "audio" r = false.
Proof.
  unfold is_kind. intros [_ H]%andb_true_iff. apply andb_false_iff. right. unfold is_str in *. destruct (js_get r "kind"); try done.
  by apply String.eqb_eq in H as ->.
Qed.

Lemma gather_keyed previous reports g : let g' := foldl (gather previous) g reports in
  ga_video g' = foldl (add_keyed video_maxima video_sums (di_video previous)) (ga_video g) (keyed "video" (ga_index g) reports) ∧
  ga_audio g' = foldl (add_keyed [] audio_sums (di_audio previous)) (ga_audio g) (keyed "audio" (ga_index g) reports).
Proof.
  revert g. induction reports as [|r reports IH]; intros g; [done|]. cbn [foldl keyed]. rewrite !foldl_app.
  specialize (IH (gather previous g r)). destruct IH as [-> ->]. unfold gather.
  destruct (is_kind "video" r) eqn:Ev; [rewrite (one_kind r Ev); done|]. by destruct (is_kind "audio" r) eqn:Ea.
Qed.

Lemma delta_nonneg maxima sums previous l i : nonneg (ib_packetsLostDelta i) →
  nonneg (ib_packetsLostDelta (foldl (add_keyed maxima sums previous) i l)).
Proof.
  revert i. induction l as [|e l IH]; intros i H; [done|]. cbn. apply IH. cbn. apply num_add_nonneg; [done|apply demo_delta_nonneg].
Qed.

(** The counters of the reports. *)
Definition counter_of (r : jsval) : Counter :=
  {| ct_packetsLost := asFiniteOrZero (js_get r "packetsLost"); ct_packetsReceived := asFiniteOrZero (js_get r "packetsReceived") |}.

Lemma asFiniteOrZero_finite v : ∃ q, asFiniteOrZero v = Fin q.
Proof. unfold asFiniteOrZero, asFiniteNumber. destruct (js_number v) as [| | |q]; cbn; by eexists. Qed.

Lemma counters_kept maxima sums previous l i e : NoDup l.*1 → e ∈ l →
  map_get (ib_counters (foldl (add_keyed maxima sums previous) i l)) e.1 = Some (counter_of e.2).
Proof.
  induction l as [|x l IH] using rev_ind; intros Hn He; [by apply elem_of_nil in He|].
  rewrite fmap_app in Hn. apply NoDup_app in Hn as (Hn1 & Hn2 & _). rewrite foldl_app. cbn.
  apply elem_of_app in He as [He|He%list_elem_of_singleton].
  - rewrite map_get_set_ne; [by apply IH|]. intros E. apply (Hn2 e.1); [by apply list_elem_of_fmap_2|]. rewrite <-E. by left.
  - subst e. apply map_get_set_eq.
Qed.

Lemma rnd_zero x : (x == 0)%Q → rnd x = Fin 0.
Proof.
  intros Hx. unfold rnd. assert (rnd_mag (Qabs.Qabs x) == 0)%Q as Hm by (apply rnd_mag_nonpos; rewrite Hx; discriminate).
  assert (Qle_bool (two_pow 1024) (rnd_mag (Qabs.Qabs x)) = false) as ->.
  { apply Qle_bool_false. rewrite Hm. apply two_pow_pos. }
  assert (Qle_bool 0 x = true) as -> by (apply Qle_bool_iff; rewrite Hx; discriminate). by rewrite (Qred_complete _ _ Hm).
Qed.

(** Nothing has been lost since the counters were taken. *)
Lemma same_counters_no_delta maxima sums previous l i : ib_packetsLostDelta i = num0 →
  (∀ e, e ∈ l → map_get previous e.1 = Some (counter_of e.2)) →
  ib_packetsLostDelta (foldl (add_keyed maxima sums previous) i l) = num0.
Proof.
  revert i. induction l as [|e l IH]; intros i Hi Hp; [done|]. cbn. apply IH; [|intros x Hx; apply Hp; by right].
  cbn. rewrite Hi, (Hp e) by by left. cbn. destruct (asFiniteOrZero_finite (js_get e.2 "packetsLost")) as [q ->].
  unfold computeCounterDelta. cbn [is_finite andb]. assert (num_leb (Fin q) (Fin q) = true) as -> by (apply num_le_fin; apply Qle_refl).
  rewrite num_sub_fin, rnd_zero by ring. unfold num0, num_add. by apply rnd_zero.
Qed.

(** The losses the panel shows since the last time are never negative, whatever the
    reports hold; and if the reports have not changed and have keys of their own, they
    are zero. *)
Theorem debug_losses sendStats reports previous :
  let '(d, counters) := collectLocalDebugStats sendStats (Some reports) previous in
  (∀ i, ds_inboundVideo d = Some i ∨ ds_inboundAudio d = Some i → nonneg (ib_packetsLostDelta i)) ∧
  (NoDup (keyed "video" 0 reports).*1 → NoDup (keyed "audio" 0 reports).*1 →
   ∀ i, let d' := (collectLocalDebugStats sendStats (Some reports) counters).1 in
   ds_inboundVideo d' = Some i ∨ ds_inboundAudio d' = Some i → ib_packetsLostDelta i = num0).
Proof.
  cbn -[gather_all]. split.
  - intros i. destruct (gather_keyed previous reports {| ga_recv := JUndef; ga_video := empty_inbound video_maxima video_sums;
      ga_audio := empty_inbound [] audio_sums; ga_index := 0 |}) as [Ev Ea].
    unfold gather_all. rewrite Ev, Ea.
    intros [H|H]; (destruct (ib_seen _); [injection H as <-|done]); by apply delta_nonneg.
  - intros Hv Ha i.
    pose proof (gather_keyed previous reports {| ga_recv := JUndef; ga_video := empty_inbound video_maxima video_sums;
      ga_audio := empty_inbound [] audio_sums; ga_index := 0 |}) as [Ev Ea]. fold (gather_all previous reports) in Ev, Ea.
    set (c := {| di_video := _ |}).
    pose proof (gather_keyed c reports {| ga_recv := JUndef; ga_video := empty_inbound video_maxima video_sums;
      ga_audio := empty_inbound [] audio_sums; ga_index := 0 |}) as [Ev' Ea']. fold (gather_all c reports) in Ev', Ea'. rewrite Ev', Ea'.
    intros [H|H]; (destruct (ib_seen _); [injection H as <-|done]); apply same_counters_no_delta; try done; intros e He; unfold c; cbn;
      rewrite ?Ev, ?Ea; by apply counters_kept.
Qed.

(** ** What the panel shows *)

(** Written by its code, as are the quotes below. *)
Definition double_quote : string := String (ascii_of_nat 34) EmptyString.

Definition escapeHtml (value : jsval) : string :=
  let s := js_to_string (js_coalesce value (JStr "")) in
  let s := replace_all s "&" "&amp;" in
  let s := replace_all s "<" "&lt;" in
  let s := replace_all s ">" "&gt;" in
  let s := replace_all s double_quote "&quot;" in
  replace_all s "'" "&#39;".

Definition fmtValue (fallback value : jsval) : string :=
  if is_nullish value || is_str value "" then js_to_string fallback else js_to_string value.
Definition fmtBool (value : jsval) : string := if is_nullish value then "-" else if truthy value then "yes" else "no".
Definition pillClass (stateName : jsval) : string :=
  if truthy stateName then replace_all (js_to_string stateName) " " "_" else "stable".
Definition shortId (value : jsval) (size : nat) : string :=
  if is_nullish value || is_str value "" then "-"
  else
    let text := js_to_string value in
    if (String.length text <=? size)%nat then text else String.substring 0 size text +:+ "...".

(** An element with two texts; [class] is a constant of the page. *)
Definition item (class : string) (label value : jsval) : string :=
  "<div class=" +:+ double_quote +:+ class +:+ double_quote +:+ ">" +:+
  "<span class=" +:+ double_quote +:+ "label" +:+ double_quote +:+ ">" +:+ escapeHtml label +:+ "</span>" +:+
  "<span class=" +:+ double_quote +:+ "value" +:+ double_quote +:+ ">" +:+ escapeHtml value +:+ "</span>" +:+ "</div>".
Definition qosItem : jsval → jsval → string := item "qos-item".
Definition summaryItem : jsval → jsval → string := item "mini-item".

(** [latestStatsReport?.peers], if it is an array. *)
Definition report_peers (latestStatsReport : jsval) : list jsval := match js_get latestStatsReport "peers" with JArr l => l | _ => [] end.
Definition getCurrentPeerStats (peerId : string) (latestStatsReport : jsval) : outcome (option jsval) :=
  find_ok (λ peer, id ← get_prop peer "peerId"; Ok (is_str id peerId)) (report_peers latestStatsReport).

Definition latestProducerScore (producerStats : jsval) : string :=
  match js_get producerStats "scores" with
  | JArr scores => match last scores with Some x => fmtValue (JStr "-") (js_get x "score") | None => "-" end
  | _ => "-"
  end.

(** ** The videos by peer *)

(** What the order of a remote video depends on; an absent id is empty. *)
Record RemoteEntry := { re_peerId : string; re_localTrackId : string; re_producerId : string; re_consumerId : string }.

Definition group_key (e : RemoteEntry) : string := if String.eqb (re_peerId e) "" then "remote-peer" else re_peerId e.
Definition entry_key (e : RemoteEntry) : string :=
  if negb (String.eqb (re_localTrackId e) "") then re_localTrackId e
  else if negb (String.eqb (re_producerId e) "") then re_producerId e else re_consumerId e.

Section Groups.
Context (localeCompare : string → string → Z).

Definition add_to_group (groups : list (string * list RemoteEntry)) (e : RemoteEntry) : list (string * list RemoteEntry) :=
  map_set groups (group_key e) (default [] (map_get groups (group_key e)) ++ [e]).

(** The groups in their order, each with its entries in theirs; the ordinal of an entry
    is its position counted from one. *)
Definition renderRemoteVideoGroups (entries : list RemoteEntry) : list (string * list RemoteEntry) :=
  map (λ g, (g.1, js_sort (λ a b, localeCompare (entry_key a) (entry_key b)) g.2))
    (js_sort (λ a b, localeCompare a.1 b.1) (foldl add_to_group [] entries)).
End Groups.

(** ** Texts are shown as they are *)

Lemma replace_from_char c new l :
  replace_from [c] new 0 l = flat_map (λ d, if Ascii.eqb c d then new else [d]) l.
Proof.
  induction l as [|d l IH]; [done|]. cbn. rewrite IH. by destruct (Ascii.eqb c d); cbn.
Qed.

(** One character escaped. *)
Definition escape_char (c : ascii) : list ascii :=
  if Ascii.eqb "&" c then chars "&amp;" else if Ascii.eqb "<" c then chars "&lt;" else if Ascii.eqb ">" c then chars "&gt;"
  else if Ascii.eqb (ascii_of_nat 34) c then chars "&quot;" else if Ascii.eqb "'" c then chars "&#39;" else [c].

Lemma escapeHtml_chars value : chars (escapeHtml value) = flat_map escape_char (chars (js_to_string (js_coalesce value (JStr "")))).
Proof.
  unfold escapeHtml, replace_all. cbv zeta. rewrite !String.list_ascii_of_string_of_list_ascii. generalize (chars (js_to_string (js_coalesce value (JStr "")))).
  intros l. cbn [chars double_quote]. rewrite !replace_from_char. induction l as [|c l IH]; [done|]. cbn [flat_map].
  rewrite !flat_map_app, IH. f_equal. by destruct c as [[] [] [] [] [] [] [] []].
Qed.

(** What a browser reads: entities and other characters. *)
Definition entities : list (string * ascii) :=
  [("&amp;", "&"%char); ("&lt;", "<"%char); ("&gt;", ">"%char); ("&quot;", ascii_of_nat 34); ("&#39;", "'"%char)].
Definition entity_at (l : list ascii) : option (string * ascii) := array_find (λ e, starts_with (chars e.1) l) entities.
Fixpoint read_text (skip : nat) (l : list ascii) : list ascii :=
  match l with
  | [] => []
  | c :: l' =>
      match skip with
      | S skip => read_text skip l'
      | O => match entity_at l with Some (e, d) => d :: read_text (pred (String.length e)) l' | None => c :: read_text O l' end
      end
  end.

Lemma read_escaped c l : read_text 0 (escape_char c ++ l) = c :: read_text 0 l.
Proof. by destruct c as [[] [] [] [] [] [] [] []]. Qed.

(** The characters that end a text or an attribute. *)
Definition markup : list ascii := ["<"%char; ">"%char; ascii_of_nat 34; "'"%char].

Lemma escape_char_safe c d : d ∈ escape_char c → d ∉ markup.
Proof. intros H1 H2. destruct c as [[] [] [] [] [] [] [] []]; cbn in H1; repeat (apply elem_of_cons in H1 as [->|H1]); set_solver. Qed.

(** An escaped text has no character that ends a text or an attribute, and is read as
    the text it stands for. *)
Theorem escape_html_exact value :
  Forall (λ c, c ∉ markup) (chars (escapeHtml value)) ∧
  text (read_text 0 (chars (escapeHtml value))) = js_to_string (js_coalesce value (JStr "")).
Proof.
  rewrite escapeHtml_chars. split.
  - apply Forall_forall. intros c (d & _ & H)%list_elem_of_In%in_flat_map. by apply (escape_char_safe d), list_elem_of_In.
  - assert (∀ l, read_text 0 (flat_map escape_char l) = l) as ->; [|apply String.string_of_list_ascii_of_string].
    intros l. induction l as [|c l IH]; [done|]. cbn [flat_map]. by rewrite read_escaped, IH.
Qed.

(** ** Every video is shown once *)

Lemma add_to_group_perm groups e : NoDup (map_keys groups) → concat (map snd (add_to_group groups e)) ≡ₚ concat (map snd groups) ++ [e].
Proof.
  unfold add_to_group. generalize (group_key e). intros k. induction groups as [|[k' l] groups IH]; [done|]. intros [Hk Hn]%NoDup_cons. cbn.
  destruct (decide (k' = k)) as [->|Hne]; cbn.
  - rewrite <- !(assoc_L (++)). apply Permutation_app_head, Permutation_app_comm.
  - rewrite IH by done. by rewrite (assoc_L (++)).
Qed.
Lemma groups_perm entries groups : NoDup (map_keys groups) →
  NoDup (map_keys (foldl add_to_group groups entries)) ∧
  concat (map snd (foldl add_to_group groups entries)) ≡ₚ concat (map snd groups) ++ entries.
Proof.
  revert groups. induction entries as [|e entries IH]; intros groups Hn; [by rewrite app_nil_r|]. cbn.
  destruct (IH (add_to_group groups e)) as [H1 H2]; [by apply map_set_NoDup|]. split; [done|].
  rewrite H2, add_to_group_perm by done. by rewrite <- (assoc_L (++)).
Qed.

(** Each group has the videos of its peer. *)
Definition grouped (groups : list (string * list RemoteEntry)) : Prop := Forall (λ g, Forall (λ e, group_key e = g.1) g.2) groups.
Lemma add_to_group_grouped groups e : grouped groups → grouped (add_to_group groups e).
Proof.
  intros Hg. unfold add_to_group. assert (∀ k, k = group_key e → Forall (λ e, group_key e = k) (default [] (map_get groups k) ++ [e])) as H.
  { intros k ->. apply Forall_app. split; [|by repeat constructor]. destruct (map_get groups (group_key e)) as [l|] eqn:E; [|done]. cbn.
    clear -Hg E. induction Hg as [|[k l'] groups Hl Hg IH]; [done|]. cbn in E. case_decide as Hk; [|auto]. injection E as <-. by rewrite <- Hk. }
  specialize (H _ eq_refl). revert H. generalize (default [] (map_get groups (group_key e)) ++ [e]). intros l H.
  induction Hg as [|[k l'] groups Hl Hg IH]; [by repeat constructor|]. cbn. case_decide as Hk; constructor; try done. cbn. by rewrite Hk.
Qed.
Lemma groups_grouped entries groups : grouped groups → grouped (foldl add_to_group groups entries).
Proof. revert groups. induction entries as [|e entries IH]; intros groups H; [done|]. cbn. by apply IH, add_to_group_grouped. Qed.

Lemma concat_perm {B} (g : list (string * list B)) (s : list B → list B) : (∀ l, s l ≡ₚ l) →
  concat (map snd (map (λ x, (x.1, s x.2)) g)) ≡ₚ concat (map snd g).
Proof. intros Hs. induction g as [|x g IH]; [done|]. cbn. by rewrite Hs, IH. Qed.
Lemma concat_map_perm {B} (g h : list (string * list B)) : g ≡ₚ h → concat (map snd g) ≡ₚ concat (map snd h).
Proof.
  induction 1 as [|x g h _ IH|x y g|g h k _ IH1 _ IH2]; cbn; [done|by rewrite IH| |by rewrite IH1].
  rewrite !(assoc_L (++)). apply Permutation_app_tail, Permutation_app_comm.
Qed.

Lemma consistent_by {A} (f : A → string) cmp : consistent_cmp cmp → consistent_cmp (λ a b, cmp (f a) (f b)).
Proof. intros [Ht Hr]. split; [intros x y; apply Ht|intros x y z; unfold cmp_le; apply Hr]. Qed.
Lemma sorted_map {A} (f : A → A) (R : A → A → Prop) l : StronglySorted R l → (∀ x y, R x y → R (f x) (f y)) → StronglySorted R (map f l).
Proof. intros Hl Hf. induction Hl as [|x l Hl IH Hx]; cbn; constructor; [done|]. apply Forall_fmap. eapply Forall_impl; [exact Hx|]. intros y. apply Hf. Qed.

(** Every remote video is shown once, under the peer it comes from; the peers differ and
    are in order, as are the videos of each. *)
Theorem videos_shown_once localeCompare entries : consistent_cmp localeCompare →
  let groups := renderRemoteVideoGroups localeCompare entries in
  concat (map snd groups) ≡ₚ entries ∧ NoDup (map fst groups) ∧ grouped groups ∧
  StronglySorted (λ a b, localeCompare a.1 b.1 <= 0) groups ∧
  Forall (λ g, StronglySorted (λ a b, localeCompare (entry_key a) (entry_key b) <= 0) g.2) groups.
Proof.
  intros Hc. unfold renderRemoteVideoGroups. cbv zeta. set (g := foldl add_to_group [] entries).
  destruct (groups_perm entries []) as [Hn Hp]; [constructor|]. fold g in Hn, Hp.
  set (gs := js_sort (λ a b : string * list RemoteEntry, localeCompare a.1 b.1) g).
  assert (gs ≡ₚ g) as Hgs by apply js_sort_perm. split_and!.
  - rewrite (concat_perm gs (js_sort (λ a b, localeCompare (entry_key a) (entry_key b)))) by apply js_sort_perm. by rewrite (concat_map_perm _ _ Hgs).
  - rewrite map_map. cbn. change (NoDup (map fst gs)). by rewrite Hgs.
  - apply Forall_fmap. assert (grouped gs) as H by (unfold grouped; rewrite Hgs; apply groups_grouped; constructor). eapply Forall_impl; [exact H|].
    intros x Hx. cbn. by rewrite js_sort_perm.
  - apply sorted_map; [|done]. apply (js_sort_sorted (λ a b : string * list RemoteEntry, localeCompare a.1 b.1)), (consistent_by fst), Hc.
  - apply Forall_fmap, Forall_forall. intros x _. cbn.
    apply (js_sort_sorted (λ a b, localeCompare (entry_key a) (entry_key b))), (consistent_by entry_key), Hc.
Qed.
