(* ===== verification/DemoSession.v ===== *)
(** * Sessions of the demo page (public/qos-demo.js)

    Joining a room, publishing, receiving, and the recovery after a restart of the
    server.  These are asynchronous functions that overlap with each other and with
    notifications; each is cut at its awaits into a task that waits for an answer.
    The answers of the server, the browser and the client library are inputs, an
    answer may be a failure, and tasks are answered in any order or never.  Requests
    and sockets are those of [DemoRequests]; here a request is an await, and the loss
    of the current socket an event.  Rendering, status lines and the timer of the
    statistics are left out, and so are the two requests for a key frame that
    [handleNewConsumer] makes for a video consumer, at once and after a second: the
    page does not wait for them and does nothing with their answers.  The browser is
    one the client library supports, and the page has loaded the bundle with the QoS
    library. *)

From stdpp Require Import gmap.
From S2P Require Import Prelude JsVal DemoQos.
Local Open Scope string_scope.
Local Open Scope list_scope.

(** ** Data *)

(** A captured stream with its audio and video tracks. *)
Record Stream := { st_audio : list nat; st_video : list nat }.

(** The selection of [buildFreshCaptureSelection] or [collectReusableLocalCapture]. *)
Record Capture := { ca_audioTrack : option nat; ca_cameras : list nat; ca_streams : list Stream }.

Record ConsumerData := { cd_id : string; cd_producerId : string; cd_kind : string }.
Record ProducerInfo := { pi_producerId : string; pi_kind : string }.

Record JoinResponse := { jr_qosPolicy : jsval; jr_existingProducers : list ProducerInfo }.

(** ** Tasks *)

(** What a session is established for: a click, or an attempt of the recovery. *)
Inductive purpose :=
| Joining
| Recovering (republish : bool) (attempt : nat).

(** The awaits of [establishJoinedSession]; the loops carry what is awaited and what
    follows it. *)
Inductive establishing :=
| EResolve
| EConnect
| EJoin
| EPolicy (join : JoinResponse)
| ELoad (join : JoinResponse) (device : nat)
| ETransport (join : JoinResponse)
(** The consumers that came with the transport. *)
| EPrecreated (join : JoinResponse) (precreated : list ConsumerData) (d : ConsumerData) (rest : list ConsumerData)
(** Those that were queued. *)
| EQueued (join : JoinResponse) (precreated : list ConsumerData) (d : ConsumerData) (rest : list ConsumerData)
(** The producers: the request for one, or its consumer. *)
| ERequest (i : ProducerInfo) (rest : list ProducerInfo)
| EConsume (d : ConsumerData) (rest : list ProducerInfo).

(** The awaits of [publishCapturedMedia]. *)
Inductive publishing :=
| PTransport
| PAudio
| PVideo (producers : list string) (track : nat) (rest : list nat).

Inductive task :=
| Establish (p : purpose) (roomId peerId : string) (e : establishing)
| Sleeping (roomId peerId : string) (republish : bool) (attempt : nat)
(** [recovery]: whether this is part of the recovery, or of a click. *)
| Capturing (recovery : bool)
| Publishing (recovery : bool) (c : Capture) (p : publishing)
(** [handleNewConsumer] and [consumeProducer] for a notification. *)
| Consuming (d : ConsumerData)
| Requesting (p : ProducerInfo).

Inductive answer :=
| Done
| Joined (join : JoinResponse)
| TransportMade (consumers : list ConsumerData)
| Requested (d : ConsumerData)
(** The cameras, or the stream that stands in for them. *)
| Captured (fallback : bool) (c : Capture)
| Produced (producerId : string)
| Failure.

(** ** State *)

(** The downlink reporter with the transport its sampler reads. *)
Record Bundle := { bu_transport : nat; bu_peerId : string }.

(** A local video with its producer. *)
Record VideoEntry := { ve_track : nat; ve_producer : option string }.

Record Page := {
  pg_roomId : string;
  pg_peerId : string;
  (** [state.device], and the devices whose [load] has succeeded. *)
  pg_device : option nat;
  pg_loaded : gset nat;
  pg_sendTransport : option nat;
  pg_recvTransport : option nat;
  (** The transports that are open, and the next number for a device or transport. *)
  pg_open : gset nat;
  pg_next : nat;
  pg_pendingConsumers : list ConsumerData;
  pg_remoteConsumers : list string;
  pg_captureStreams : list Stream;
  pg_videoEntries : list VideoEntry;
  pg_audioActive : bool;
  (** The tracks that have ended. *)
  pg_ended : gset nat;
  pg_producers : list string;
  (** The QoS session that is running, with the notifications it was handed. *)
  pg_session : option (list jsval);
  pg_legacy : bool;
  pg_bundle : option Bundle;
  (** [latestQosPolicy], [latestQosOverride], [latestConnectionQuality] and
      [latestRoomState], by the method that sets them; absent for [null]. *)
  pg_latest : list (string * jsval);
  pg_usingFallback : bool;
  pg_desiredLocalPublish : bool;
  (** [Boolean(state.recoveryInFlight)]. *)
  pg_recovering : bool;
  pg_recoveryAttempt : nat;
  (** The buttons, as [updateControls] left them. *)
  pg_joinDisabled : bool;
  pg_publishDisabled : bool;
  pg_stopDisabled : bool;
  pg_tasks : list task;
}.

(** After [init]. *)
Definition new_Page : Page :=
  {| pg_roomId := ""; pg_peerId := ""; pg_device := None; pg_loaded := ∅; pg_sendTransport := None;
     pg_recvTransport := None; pg_open := ∅; pg_next := 0; pg_pendingConsumers := []; pg_remoteConsumers := [];
     pg_captureStreams := []; pg_videoEntries := []; pg_audioActive := false; pg_ended := ∅; pg_producers := [];
     pg_session := None; pg_legacy := false; pg_bundle := None; pg_latest := []; pg_usingFallback := false;
     pg_desiredLocalPublish := false; pg_recovering := false; pg_recoveryAttempt := 0; pg_joinDisabled := false;
     pg_publishDisabled := true; pg_stopDisabled := true; pg_tasks := [] |}.

Definition set_roomId (x : string) (s : Page) : Page :=
  {| pg_roomId := x; pg_peerId := pg_peerId s; pg_device := pg_device s; pg_loaded := pg_loaded s;
     pg_sendTransport := pg_sendTransport s; pg_recvTransport := pg_recvTransport s; pg_open := pg_open s;
     pg_next := pg_next s; pg_pendingConsumers := pg_pendingConsumers s; pg_remoteConsumers :=
     pg_remoteConsumers s; pg_captureStreams := pg_captureStreams s; pg_videoEntries := pg_videoEntries s;
     pg_audioActive := pg_audioActive s; pg_ended := pg_ended s; pg_producers := pg_producers s; pg_session :=
     pg_session s; pg_legacy := pg_legacy s; pg_bundle := pg_bundle s; pg_latest := pg_latest s;
     pg_usingFallback := pg_usingFallback s; pg_desiredLocalPublish := pg_desiredLocalPublish s; pg_recovering
     := pg_recovering s; pg_recoveryAttempt := pg_recoveryAttempt s; pg_joinDisabled := pg_joinDisabled s;
     pg_publishDisabled := pg_publishDisabled s; pg_stopDisabled := pg_stopDisabled s; pg_tasks := pg_tasks s |}.
Definition set_peerId (x : string) (s : Page) : Page :=
  {| pg_roomId := pg_roomId s; pg_peerId := x; pg_device := pg_device s; pg_loaded := pg_loaded s;
     pg_sendTransport := pg_sendTransport s; pg_recvTransport := pg_recvTransport s; pg_open := pg_open s;
     pg_next := pg_next s; pg_pendingConsumers := pg_pendingConsumers s; pg_remoteConsumers :=
     pg_remoteConsumers s; pg_captureStreams := pg_captureStreams s; pg_videoEntries := pg_videoEntries s;
     pg_audioActive := pg_audioActive s; pg_ended := pg_ended s; pg_producers := pg_producers s; pg_session :=
     pg_session s; pg_legacy := pg_legacy s; pg_bundle := pg_bundle s; pg_latest := pg_latest s;
     pg_usingFallback := pg_usingFallback s; pg_desiredLocalPublish := pg_desiredLocalPublish s; pg_recovering
     := pg_recovering s; pg_recoveryAttempt := pg_recoveryAttempt s; pg_joinDisabled := pg_joinDisabled s;
     pg_publishDisabled := pg_publishDisabled s; pg_stopDisabled := pg_stopDisabled s; pg_tasks := pg_tasks s |}.
Definition set_device (x : option nat) (s : Page) : Page :=
  {| pg_roomId := pg_roomId s; pg_peerId := pg_peerId s; pg_device := x; pg_loaded := pg_loaded s;
     pg_sendTransport := pg_sendTransport s; pg_recvTransport := pg_recvTransport s; pg_open := pg_open s;
     pg_next := pg_next s; pg_pendingConsumers := pg_pendingConsumers s; pg_remoteConsumers :=
     pg_remoteConsumers s; pg_captureStreams := pg_captureStreams s; pg_videoEntries := pg_videoEntries s;
     pg_audioActive := pg_audioActive s; pg_ended := pg_ended s; pg_producers := pg_producers s; pg_session :=
     pg_session s; pg_legacy := pg_legacy s; pg_bundle := pg_bundle s; pg_latest := pg_latest s;
     pg_usingFallback := pg_usingFallback s; pg_desiredLocalPublish := pg_desiredLocalPublish s; pg_recovering
     := pg_recovering s; pg_recoveryAttempt := pg_recoveryAttempt s; pg_joinDisabled := pg_joinDisabled s;
     pg_publishDisabled := pg_publishDisabled s; pg_stopDisabled := pg_stopDisabled s; pg_tasks := pg_tasks s |}.
Definition set_loaded (x : gset nat) (s : Page) : Page :=
  {| pg_roomId := pg_roomId s; pg_peerId := pg_peerId s; pg_device := pg_device s; pg_loaded := x;
     pg_sendTransport := pg_sendTransport s; pg_recvTransport := pg_recvTransport s; pg_open := pg_open s;
     pg_next := pg_next s; pg_pendingConsumers := pg_pendingConsumers s; pg_remoteConsumers :=
     pg_remoteConsumers s; pg_captureStreams := pg_captureStreams s; pg_videoEntries := pg_videoEntries s;
     pg_audioActive := pg_audioActive s; pg_ended := pg_ended s; pg_producers := pg_producers s; pg_session :=
     pg_session s; pg_legacy := pg_legacy s; pg_bundle := pg_bundle s; pg_latest := pg_latest s;
     pg_usingFallback := pg_usingFallback s; pg_desiredLocalPublish := pg_desiredLocalPublish s; pg_recovering
     := pg_recovering s; pg_recoveryAttempt := pg_recoveryAttempt s; pg_joinDisabled := pg_joinDisabled s;
     pg_publishDisabled := pg_publishDisabled s; pg_stopDisabled := pg_stopDisabled s; pg_tasks := pg_tasks s |}.
Definition set_sendTransport (x : option nat) (s : Page) : Page :=
  {| pg_roomId := pg_roomId s; pg_peerId := pg_peerId s; pg_device := pg_device s; pg_loaded := pg_loaded s;
     pg_sendTransport := x; pg_recvTransport := pg_recvTransport s; pg_open := pg_open s; pg_next := pg_next s;
     pg_pendingConsumers := pg_pendingConsumers s; pg_remoteConsumers := pg_remoteConsumers s; pg_captureStreams
     := pg_captureStreams s; pg_videoEntries := pg_videoEntries s; pg_audioActive := pg_audioActive s; pg_ended
     := pg_ended s; pg_producers := pg_producers s; pg_session := pg_session s; pg_legacy := pg_legacy s;
     pg_bundle := pg_bundle s; pg_latest := pg_latest s; pg_usingFallback := pg_usingFallback s;
     pg_desiredLocalPublish := pg_desiredLocalPublish s; pg_recovering := pg_recovering s; pg_recoveryAttempt :=
     pg_recoveryAttempt s; pg_joinDisabled := pg_joinDisabled s; pg_publishDisabled := pg_publishDisabled s;
     pg_stopDisabled := pg_stopDisabled s; pg_tasks := pg_tasks s |}.
Definition set_recvTransport (x : option nat) (s : Page) : Page :=
  {| pg_roomId := pg_roomId s; pg_peerId := pg_peerId s; pg_device := pg_device s; pg_loaded := pg_loaded s;
     pg_sendTransport := pg_sendTransport s; pg_recvTransport := x; pg_open := pg_open s; pg_next := pg_next s;
     pg_pendingConsumers := pg_pendingConsumers s; pg_remoteConsumers := pg_remoteConsumers s; pg_captureStreams
     := pg_captureStreams s; pg_videoEntries := pg_videoEntries s; pg_audioActive := pg_audioActive s; pg_ended
     := pg_ended s; pg_producers := pg_producers s; pg_session := pg_session s; pg_legacy := pg_legacy s;
     pg_bundle := pg_bundle s; pg_latest := pg_latest s; pg_usingFallback := pg_usingFallback s;
     pg_desiredLocalPublish := pg_desiredLocalPublish s; pg_recovering := pg_recovering s; pg_recoveryAttempt :=
     pg_recoveryAttempt s; pg_joinDisabled := pg_joinDisabled s; pg_publishDisabled := pg_publishDisabled s;
     pg_stopDisabled := pg_stopDisabled s; pg_tasks := pg_tasks s |}.
Definition set_open (x : gset nat) (s : Page) : Page :=
  {| pg_roomId := pg_roomId s; pg_peerId := pg_peerId s; pg_device := pg_device s; pg_loaded := pg_loaded s;
     pg_sendTransport := pg_sendTransport s; pg_recvTransport := pg_recvTransport s; pg_open := x; pg_next :=
     pg_next s; pg_pendingConsumers := pg_pendingConsumers s; pg_remoteConsumers := pg_remoteConsumers s;
     pg_captureStreams := pg_captureStreams s; pg_videoEntries := pg_videoEntries s; pg_audioActive :=
     pg_audioActive s; pg_ended := pg_ended s; pg_producers := pg_producers s; pg_session := pg_session s;
     pg_legacy := pg_legacy s; pg_bundle := pg_bundle s; pg_latest := pg_latest s; pg_usingFallback :=
     pg_usingFallback s; pg_desiredLocalPublish := pg_desiredLocalPublish s; pg_recovering := pg_recovering s;
     pg_recoveryAttempt := pg_recoveryAttempt s; pg_joinDisabled := pg_joinDisabled s; pg_publishDisabled :=
     pg_publishDisabled s; pg_stopDisabled := pg_stopDisabled s; pg_tasks := pg_tasks s |}.
Definition set_next (x : nat) (s : Page) : Page :=
  {| pg_roomId := pg_roomId s; pg_peerId := pg_peerId s; pg_device := pg_device s; pg_loaded := pg_loaded s;
     pg_sendTransport := pg_sendTransport s; pg_recvTransport := pg_recvTransport s; pg_open := pg_open s;
     pg_next := x; pg_pendingConsumers := pg_pendingConsumers s; pg_remoteConsumers := pg_remoteConsumers s;
     pg_captureStreams := pg_captureStreams s; pg_videoEntries := pg_videoEntries s; pg_audioActive :=
     pg_audioActive s; pg_ended := pg_ended s; pg_producers := pg_producers s; pg_session := pg_session s;
     pg_legacy := pg_legacy s; pg_bundle := pg_bundle s; pg_latest := pg_latest s; pg_usingFallback :=
     pg_usingFallback s; pg_desiredLocalPublish := pg_desiredLocalPublish s; pg_recovering := pg_recovering s;
     pg_recoveryAttempt := pg_recoveryAttempt s; pg_joinDisabled := pg_joinDisabled s; pg_publishDisabled :=
     pg_publishDisabled s; pg_stopDisabled := pg_stopDisabled s; pg_tasks := pg_tasks s |}.
Definition set_pendingConsumers (x : list ConsumerData) (s : Page) : Page :=
  {| pg_roomId := pg_roomId s; pg_peerId := pg_peerId s; pg_device := pg_device s; pg_loaded := pg_loaded s;
     pg_sendTransport := pg_sendTransport s; pg_recvTransport := pg_recvTransport s; pg_open := pg_open s;
     pg_next := pg_next s; pg_pendingConsumers := x; pg_remoteConsumers := pg_remoteConsumers s;
     pg_captureStreams := pg_captureStreams s; pg_videoEntries := pg_videoEntries s; pg_audioActive :=
     pg_audioActive s; pg_ended := pg_ended s; pg_producers := pg_producers s; pg_session := pg_session s;
     pg_legacy := pg_legacy s; pg_bundle := pg_bundle s; pg_latest := pg_latest s; pg_usingFallback :=
     pg_usingFallback s; pg_desiredLocalPublish := pg_desiredLocalPublish s; pg_recovering := pg_recovering s;
     pg_recoveryAttempt := pg_recoveryAttempt s; pg_joinDisabled := pg_joinDisabled s; pg_publishDisabled :=
     pg_publishDisabled s; pg_stopDisabled := pg_stopDisabled s; pg_tasks := pg_tasks s |}.
Definition set_remoteConsumers (x : list string) (s : Page) : Page :=
  {| pg_roomId := pg_roomId s; pg_peerId := pg_peerId s; pg_device := pg_device s; pg_loaded := pg_loaded s;
     pg_sendTransport := pg_sendTransport s; pg_recvTransport := pg_recvTransport s; pg_open := pg_open s;
     pg_next := pg_next s; pg_pendingConsumers := pg_pendingConsumers s; pg_remoteConsumers := x;
     pg_captureStreams := pg_captureStreams s; pg_videoEntries := pg_videoEntries s; pg_audioActive :=
     pg_audioActive s; pg_ended := pg_ended s; pg_producers := pg_producers s; pg_session := pg_session s;
     pg_legacy := pg_legacy s; pg_bundle := pg_bundle s; pg_latest := pg_latest s; pg_usingFallback :=
     pg_usingFallback s; pg_desiredLocalPublish := pg_desiredLocalPublish s; pg_recovering := pg_recovering s;
     pg_recoveryAttempt := pg_recoveryAttempt s; pg_joinDisabled := pg_joinDisabled s; pg_publishDisabled :=
     pg_publishDisabled s; pg_stopDisabled := pg_stopDisabled s; pg_tasks := pg_tasks s |}.
Definition set_captureStreams (x : list Stream) (s : Page) : Page :=
  {| pg_roomId := pg_roomId s; pg_peerId := pg_peerId s; pg_device := pg_device s; pg_loaded := pg_loaded s;
     pg_sendTransport := pg_sendTransport s; pg_recvTransport := pg_recvTransport s; pg_open := pg_open s;
     pg_next := pg_next s; pg_pendingConsumers := pg_pendingConsumers s; pg_remoteConsumers :=
     pg_remoteConsumers s; pg_captureStreams := x; pg_videoEntries := pg_videoEntries s; pg_audioActive :=
     pg_audioActive s; pg_ended := pg_ended s; pg_producers := pg_producers s; pg_session := pg_session s;
     pg_legacy := pg_legacy s; pg_bundle := pg_bundle s; pg_latest := pg_latest s; pg_usingFallback :=
     pg_usingFallback s; pg_desiredLocalPublish := pg_desiredLocalPublish s; pg_recovering := pg_recovering s;
     pg_recoveryAttempt := pg_recoveryAttempt s; pg_joinDisabled := pg_joinDisabled s; pg_publishDisabled :=
     pg_publishDisabled s; pg_stopDisabled := pg_stopDisabled s; pg_tasks := pg_tasks s |}.
Definition set_videoEntries (x : list VideoEntry) (s : Page) : Page :=
  {| pg_roomId := pg_roomId s; pg_peerId := pg_peerId s; pg_device := pg_device s; pg_loaded := pg_loaded s;
     pg_sendTransport := pg_sendTransport s; pg_recvTransport := pg_recvTransport s; pg_open := pg_open s;
     pg_next := pg_next s; pg_pendingConsumers := pg_pendingConsumers s; pg_remoteConsumers :=
     pg_remoteConsumers s; pg_captureStreams := pg_captureStreams s; pg_videoEntries := x; pg_audioActive :=
     pg_audioActive s; pg_ended := pg_ended s; pg_producers := pg_producers s; pg_session := pg_session s;
     pg_legacy := pg_legacy s; pg_bundle := pg_bundle s; pg_latest := pg_latest s; pg_usingFallback :=
     pg_usingFallback s; pg_desiredLocalPublish := pg_desiredLocalPublish s; pg_recovering := pg_recovering s;
     pg_recoveryAttempt := pg_recoveryAttempt s; pg_joinDisabled := pg_joinDisabled s; pg_publishDisabled :=
     pg_publishDisabled s; pg_stopDisabled := pg_stopDisabled s; pg_tasks := pg_tasks s |}.
Definition set_audioActive (x : bool) (s : Page) : Page :=
  {| pg_roomId := pg_roomId s; pg_peerId := pg_peerId s; pg_device := pg_device s; pg_loaded := pg_loaded s;
     pg_sendTransport := pg_sendTransport s; pg_recvTransport := pg_recvTransport s; pg_open := pg_open s;
     pg_next := pg_next s; pg_pendingConsumers := pg_pendingConsumers s; pg_remoteConsumers :=
     pg_remoteConsumers s; pg_captureStreams := pg_captureStreams s; pg_videoEntries := pg_videoEntries s;
     pg_audioActive := x; pg_ended := pg_ended s; pg_producers := pg_producers s; pg_session := pg_session s;
     pg_legacy := pg_legacy s; pg_bundle := pg_bundle s; pg_latest := pg_latest s; pg_usingFallback :=
     pg_usingFallback s; pg_desiredLocalPublish := pg_desiredLocalPublish s; pg_recovering := pg_recovering s;
     pg_recoveryAttempt := pg_recoveryAttempt s; pg_joinDisabled := pg_joinDisabled s; pg_publishDisabled :=
     pg_publishDisabled s; pg_stopDisabled := pg_stopDisabled s; pg_tasks := pg_tasks s |}.
Definition set_ended (x : gset nat) (s : Page) : Page :=
  {| pg_roomId := pg_roomId s; pg_peerId := pg_peerId s; pg_device := pg_device s; pg_loaded := pg_loaded s;
     pg_sendTransport := pg_sendTransport s; pg_recvTransport := pg_recvTransport s; pg_open := pg_open s;
     pg_next := pg_next s; pg_pendingConsumers := pg_pendingConsumers s; pg_remoteConsumers :=
     pg_remoteConsumers s; pg_captureStreams := pg_captureStreams s; pg_videoEntries := pg_videoEntries s;
     pg_audioActive := pg_audioActive s; pg_ended := x; pg_producers := pg_producers s; pg_session := pg_session
     s; pg_legacy := pg_legacy s; pg_bundle := pg_bundle s; pg_latest := pg_latest s; pg_usingFallback :=
     pg_usingFallback s; pg_desiredLocalPublish := pg_desiredLocalPublish s; pg_recovering := pg_recovering s;
     pg_recoveryAttempt := pg_recoveryAttempt s; pg_joinDisabled := pg_joinDisabled s; pg_publishDisabled :=
     pg_publishDisabled s; pg_stopDisabled := pg_stopDisabled s; pg_tasks := pg_tasks s |}.
Definition set_producers (x : list string) (s : Page) : Page :=
  {| pg_roomId := pg_roomId s; pg_peerId := pg_peerId s; pg_device := pg_device s; pg_loaded := pg_loaded s;
     pg_sendTransport := pg_sendTransport s; pg_recvTransport := pg_recvTransport s; pg_open := pg_open s;
     pg_next := pg_next s; pg_pendingConsumers := pg_pendingConsumers s; pg_remoteConsumers :=
     pg_remoteConsumers s; pg_captureStreams := pg_captureStreams s; pg_videoEntries := pg_videoEntries s;
     pg_audioActive := pg_audioActive s; pg_ended := pg_ended s; pg_producers := x; pg_session := pg_session s;
     pg_legacy := pg_legacy s; pg_bundle := pg_bundle s; pg_latest := pg_latest s; pg_usingFallback :=
     pg_usingFallback s; pg_desiredLocalPublish := pg_desiredLocalPublish s; pg_recovering := pg_recovering s;
     pg_recoveryAttempt := pg_recoveryAttempt s; pg_joinDisabled := pg_joinDisabled s; pg_publishDisabled :=
     pg_publishDisabled s; pg_stopDisabled := pg_stopDisabled s; pg_tasks := pg_tasks s |}.
Definition set_session (x : option (list jsval)) (s : Page) : Page :=
  {| pg_roomId := pg_roomId s; pg_peerId := pg_peerId s; pg_device := pg_device s; pg_loaded := pg_loaded s;
     pg_sendTransport := pg_sendTransport s; pg_recvTransport := pg_recvTransport s; pg_open := pg_open s;
     pg_next := pg_next s; pg_pendingConsumers := pg_pendingConsumers s; pg_remoteConsumers :=
     pg_remoteConsumers s; pg_captureStreams := pg_captureStreams s; pg_videoEntries := pg_videoEntries s;
     pg_audioActive := pg_audioActive s; pg_ended := pg_ended s; pg_producers := pg_producers s; pg_session :=
     x; pg_legacy := pg_legacy s; pg_bundle := pg_bundle s; pg_latest := pg_latest s; pg_usingFallback :=
     pg_usingFallback s; pg_desiredLocalPublish := pg_desiredLocalPublish s; pg_recovering := pg_recovering s;
     pg_recoveryAttempt := pg_recoveryAttempt s; pg_joinDisabled := pg_joinDisabled s; pg_publishDisabled :=
     pg_publishDisabled s; pg_stopDisabled := pg_stopDisabled s; pg_tasks := pg_tasks s |}.
Definition set_legacy (x : bool) (s : Page) : Page :=
  {| pg_roomId := pg_roomId s; pg_peerId := pg_peerId s; pg_device := pg_device s; pg_loaded := pg_loaded s;
     pg_sendTransport := pg_sendTransport s; pg_recvTransport := pg_recvTransport s; pg_open := pg_open s;
     pg_next := pg_next s; pg_pendingConsumers := pg_pendingConsumers s; pg_remoteConsumers :=
     pg_remoteConsumers s; pg_captureStreams := pg_captureStreams s; pg_videoEntries := pg_videoEntries s;
     pg_audioActive := pg_audioActive s; pg_ended := pg_ended s; pg_producers := pg_producers s; pg_session :=
     pg_session s; pg_legacy := x; pg_bundle := pg_bundle s; pg_latest := pg_latest s; pg_usingFallback :=
     pg_usingFallback s; pg_desiredLocalPublish := pg_desiredLocalPublish s; pg_recovering := pg_recovering s;
     pg_recoveryAttempt := pg_recoveryAttempt s; pg_joinDisabled := pg_joinDisabled s; pg_publishDisabled :=
     pg_publishDisabled s; pg_stopDisabled := pg_stopDisabled s; pg_tasks := pg_tasks s |}.
Definition set_bundle (x : option Bundle) (s : Page) : Page :=
  {| pg_roomId := pg_roomId s; pg_peerId := pg_peerId s; pg_device := pg_device s; pg_loaded := pg_loaded s;
     pg_sendTransport := pg_sendTransport s; pg_recvTransport := pg_recvTransport s; pg_open := pg_open s;
     pg_next := pg_next s; pg_pendingConsumers := pg_pendingConsumers s; pg_remoteConsumers :=
     pg_remoteConsumers s; pg_captureStreams := pg_captureStreams s; pg_videoEntries := pg_videoEntries s;
     pg_audioActive := pg_audioActive s; pg_ended := pg_ended s; pg_producers := pg_producers s; pg_session :=
     pg_session s; pg_legacy := pg_legacy s; pg_bundle := x; pg_latest := pg_latest s; pg_usingFallback :=
     pg_usingFallback s; pg_desiredLocalPublish := pg_desiredLocalPublish s; pg_recovering := pg_recovering s;
     pg_recoveryAttempt := pg_recoveryAttempt s; pg_joinDisabled := pg_joinDisabled s; pg_publishDisabled :=
     pg_publishDisabled s; pg_stopDisabled := pg_stopDisabled s; pg_tasks := pg_tasks s |}.
Definition set_latest (x : list (string * jsval)) (s : Page) : Page :=
  {| pg_roomId := pg_roomId s; pg_peerId := pg_peerId s; pg_device := pg_device s; pg_loaded := pg_loaded s;
     pg_sendTransport := pg_sendTransport s; pg_recvTransport := pg_recvTransport s; pg_open := pg_open s;
     pg_next := pg_next s; pg_pendingConsumers := pg_pendingConsumers s; pg_remoteConsumers :=
     pg_remoteConsumers s; pg_captureStreams := pg_captureStreams s; pg_videoEntries := pg_videoEntries s;
     pg_audioActive := pg_audioActive s; pg_ended := pg_ended s; pg_producers := pg_producers s; pg_session :=
     pg_session s; pg_legacy := pg_legacy s; pg_bundle := pg_bundle s; pg_latest := x; pg_usingFallback :=
     pg_usingFallback s; pg_desiredLocalPublish := pg_desiredLocalPublish s; pg_recovering := pg_recovering s;
     pg_recoveryAttempt := pg_recoveryAttempt s; pg_joinDisabled := pg_joinDisabled s; pg_publishDisabled :=
     pg_publishDisabled s; pg_stopDisabled := pg_stopDisabled s; pg_tasks := pg_tasks s |}.
Definition set_usingFallback (x : bool) (s : Page) : Page :=
  {| pg_roomId := pg_roomId s; pg_peerId := pg_peerId s; pg_device := pg_device s; pg_loaded := pg_loaded s;
     pg_sendTransport := pg_sendTransport s; pg_recvTransport := pg_recvTransport s; pg_open := pg_open s;
     pg_next := pg_next s; pg_pendingConsumers := pg_pendingConsumers s; pg_remoteConsumers :=
     pg_remoteConsumers s; pg_captureStreams := pg_captureStreams s; pg_videoEntries := pg_videoEntries s;
     pg_audioActive := pg_audioActive s; pg_ended := pg_ended s; pg_producers := pg_producers s; pg_session :=
     pg_session s; pg_legacy := pg_legacy s; pg_bundle := pg_bundle s; pg_latest := pg_latest s;
     pg_usingFallback := x; pg_desiredLocalPublish := pg_desiredLocalPublish s; pg_recovering := pg_recovering
     s; pg_recoveryAttempt := pg_recoveryAttempt s; pg_joinDisabled := pg_joinDisabled s; pg_publishDisabled :=
     pg_publishDisabled s; pg_stopDisabled := pg_stopDisabled s; pg_tasks := pg_tasks s |}.
Definition set_desiredLocalPublish (x : bool) (s : Page) : Page :=
  {| pg_roomId := pg_roomId s; pg_peerId := pg_peerId s; pg_device := pg_device s; pg_loaded := pg_loaded s;
     pg_sendTransport := pg_sendTransport s; pg_recvTransport := pg_recvTransport s; pg_open := pg_open s;
     pg_next := pg_next s; pg_pendingConsumers := pg_pendingConsumers s; pg_remoteConsumers :=
     pg_remoteConsumers s; pg_captureStreams := pg_captureStreams s; pg_videoEntries := pg_videoEntries s;
     pg_audioActive := pg_audioActive s; pg_ended := pg_ended s; pg_producers := pg_producers s; pg_session :=
     pg_session s; pg_legacy := pg_legacy s; pg_bundle := pg_bundle s; pg_latest := pg_latest s;
     pg_usingFallback := pg_usingFallback s; pg_desiredLocalPublish := x; pg_recovering := pg_recovering s;
     pg_recoveryAttempt := pg_recoveryAttempt s; pg_joinDisabled := pg_joinDisabled s; pg_publishDisabled :=
     pg_publishDisabled s; pg_stopDisabled := pg_stopDisabled s; pg_tasks := pg_tasks s |}.
Definition set_recovering (x : bool) (s : Page) : Page :=
  {| pg_roomId := pg_roomId s; pg_peerId := pg_peerId s; pg_device := pg_device s; pg_loaded := pg_loaded s;
     pg_sendTransport := pg_sendTransport s; pg_recvTransport := pg_recvTransport s; pg_open := pg_open s;
     pg_next := pg_next s; pg_pendingConsumers := pg_pendingConsumers s; pg_remoteConsumers :=
     pg_remoteConsumers s; pg_captureStreams := pg_captureStreams s; pg_videoEntries := pg_videoEntries s;
     pg_audioActive := pg_audioActive s; pg_ended := pg_ended s; pg_producers := pg_producers s; pg_session :=
     pg_session s; pg_legacy := pg_legacy s; pg_bundle := pg_bundle s; pg_latest := pg_latest s;
     pg_usingFallback := pg_usingFallback s; pg_desiredLocalPublish := pg_desiredLocalPublish s; pg_recovering
     := x; pg_recoveryAttempt := pg_recoveryAttempt s; pg_joinDisabled := pg_joinDisabled s; pg_publishDisabled
     := pg_publishDisabled s; pg_stopDisabled := pg_stopDisabled s; pg_tasks := pg_tasks s |}.
Definition set_recoveryAttempt (x : nat) (s : Page) : Page :=
  {| pg_roomId := pg_roomId s; pg_peerId := pg_peerId s; pg_device := pg_device s; pg_loaded := pg_loaded s;
     pg_sendTransport := pg_sendTransport s; pg_recvTransport := pg_recvTransport s; pg_open := pg_open s;
     pg_next := pg_next s; pg_pendingConsumers := pg_pendingConsumers s; pg_remoteConsumers :=
     pg_remoteConsumers s; pg_captureStreams := pg_captureStreams s; pg_videoEntries := pg_videoEntries s;
     pg_audioActive := pg_audioActive s; pg_ended := pg_ended s; pg_producers := pg_producers s; pg_session :=
     pg_session s; pg_legacy := pg_legacy s; pg_bundle := pg_bundle s; pg_latest := pg_latest s;
     pg_usingFallback := pg_usingFallback s; pg_desiredLocalPublish := pg_desiredLocalPublish s; pg_recovering
     := pg_recovering s; pg_recoveryAttempt := x; pg_joinDisabled := pg_joinDisabled s; pg_publishDisabled :=
     pg_publishDisabled s; pg_stopDisabled := pg_stopDisabled s; pg_tasks := pg_tasks s |}.
Definition set_joinDisabled (x : bool) (s : Page) : Page :=
  {| pg_roomId := pg_roomId s; pg_peerId := pg_peerId s; pg_device := pg_device s; pg_loaded := pg_loaded s;
     pg_sendTransport := pg_sendTransport s; pg_recvTransport := pg_recvTransport s; pg_open := pg_open s;
     pg_next := pg_next s; pg_pendingConsumers := pg_pendingConsumers s; pg_remoteConsumers :=
     pg_remoteConsumers s; pg_captureStreams := pg_captureStreams s; pg_videoEntries := pg_videoEntries s;
     pg_audioActive := pg_audioActive s; pg_ended := pg_ended s; pg_producers := pg_producers s; pg_session :=
     pg_session s; pg_legacy := pg_legacy s; pg_bundle := pg_bundle s; pg_latest := pg_latest s;
     pg_usingFallback := pg_usingFallback s; pg_desiredLocalPublish := pg_desiredLocalPublish s; pg_recovering
     := pg_recovering s; pg_recoveryAttempt := pg_recoveryAttempt s; pg_joinDisabled := x; pg_publishDisabled :=
     pg_publishDisabled s; pg_stopDisabled := pg_stopDisabled s; pg_tasks := pg_tasks s |}.
Definition set_publishDisabled (x : bool) (s : Page) : Page :=
  {| pg_roomId := pg_roomId s; pg_peerId := pg_peerId s; pg_device := pg_device s; pg_loaded := pg_loaded s;
     pg_sendTransport := pg_sendTransport s; pg_recvTransport := pg_recvTransport s; pg_open := pg_open s;
     pg_next := pg_next s; pg_pendingConsumers := pg_pendingConsumers s; pg_remoteConsumers :=
     pg_remoteConsumers s; pg_captureStreams := pg_captureStreams s; pg_videoEntries := pg_videoEntries s;
     pg_audioActive := pg_audioActive s; pg_ended := pg_ended s; pg_producers := pg_producers s; pg_session :=
     pg_session s; pg_legacy := pg_legacy s; pg_bundle := pg_bundle s; pg_latest := pg_latest s;
     pg_usingFallback := pg_usingFallback s; pg_desiredLocalPublish := pg_desiredLocalPublish s; pg_recovering
     := pg_recovering s; pg_recoveryAttempt := pg_recoveryAttempt s; pg_joinDisabled := pg_joinDisabled s;
     pg_publishDisabled := x; pg_stopDisabled := pg_stopDisabled s; pg_tasks := pg_tasks s |}.
Definition set_stopDisabled (x : bool) (s : Page) : Page :=
  {| pg_roomId := pg_roomId s; pg_peerId := pg_peerId s; pg_device := pg_device s; pg_loaded := pg_loaded s;
     pg_sendTransport := pg_sendTransport s; pg_recvTransport := pg_recvTransport s; pg_open := pg_open s;
     pg_next := pg_next s; pg_pendingConsumers := pg_pendingConsumers s; pg_remoteConsumers :=
     pg_remoteConsumers s; pg_captureStreams := pg_captureStreams s; pg_videoEntries := pg_videoEntries s;
     pg_audioActive := pg_audioActive s; pg_ended := pg_ended s; pg_producers := pg_producers s; pg_session :=
     pg_session s; pg_legacy := pg_legacy s; pg_bundle := pg_bundle s; pg_latest := pg_latest s;
     pg_usingFallback := pg_usingFallback s; pg_desiredLocalPublish := pg_desiredLocalPublish s; pg_recovering
     := pg_recovering s; pg_recoveryAttempt := pg_recoveryAttempt s; pg_joinDisabled := pg_joinDisabled s;
     pg_publishDisabled := pg_publishDisabled s; pg_stopDisabled := x; pg_tasks := pg_tasks s |}.
Definition set_tasks (x : list task) (s : Page) : Page :=
  {| pg_roomId := pg_roomId s; pg_peerId := pg_peerId s; pg_device := pg_device s; pg_loaded := pg_loaded s;
     pg_sendTransport := pg_sendTransport s; pg_recvTransport := pg_recvTransport s; pg_open := pg_open s;
     pg_next := pg_next s; pg_pendingConsumers := pg_pendingConsumers s; pg_remoteConsumers :=
     pg_remoteConsumers s; pg_captureStreams := pg_captureStreams s; pg_videoEntries := pg_videoEntries s;
     pg_audioActive := pg_audioActive s; pg_ended := pg_ended s; pg_producers := pg_producers s; pg_session :=
     pg_session s; pg_legacy := pg_legacy s; pg_bundle := pg_bundle s; pg_latest := pg_latest s;
     pg_usingFallback := pg_usingFallback s; pg_desiredLocalPublish := pg_desiredLocalPublish s; pg_recovering
     := pg_recovering s; pg_recoveryAttempt := pg_recoveryAttempt s; pg_joinDisabled := pg_joinDisabled s;
     pg_publishDisabled := pg_publishDisabled s; pg_stopDisabled := pg_stopDisabled s; pg_tasks := x |}.

(** ** Parts *)

Definition spawn (t : task) (s : Page) : Page := set_tasks (pg_tasks s ++ [t]) s.

Definition is_some {A} (o : option A) : bool := match o with Some _ => true | None => false end.
Definition is_empty {A} (l : list A) : bool := match l with [] => true | _ => false end.

Definition hasActiveLocalPublish (s : Page) : bool :=
  is_some (pg_sendTransport s) || negb (is_empty (pg_producers s)) || negb (is_empty (pg_captureStreams s)).

Definition updateControls (s : Page) : Page :=
  let busy := pg_recovering s in
  set_stopDisabled (busy || negb (is_some (pg_session s) || pg_legacy s))
    (set_publishDisabled (busy || negb (is_some (pg_device s)) || hasActiveLocalPublish s) (set_joinDisabled busy s)).

(** The current device can be asked for its capabilities and for transports. *)
Definition device_ready (s : Page) : bool :=
  match pg_device s with Some d => bool_decide (d ∈ pg_loaded s) | None => false end.

(** A transport that the device makes. *)
Definition create_transport (s : Page) : nat * Page :=
  (pg_next s, set_next (S (pg_next s)) (set_open ({[pg_next s]} ∪ pg_open s) s)).
Definition close_transport (t : option nat) (s : Page) : Page :=
  match t with Some t => set_open (pg_open s ∖ {[t]}) s | None => s end.

(** The tracks of the captured streams are stopped. *)
Definition stop_streams (s : Page) : Page :=
  set_ended (pg_ended s ∪ list_to_set (flat_map (λ x, st_audio x ++ st_video x) (pg_captureStreams s))) s.

Definition stopLegacyClientStatsReporting (s : Page) : Page := set_legacy false s.
Definition startLegacyClientStatsReporting (s : Page) : Page := if pg_legacy s then s else updateControls (set_legacy true s).
Definition stopLocalQosSession (s : Page) : Page :=
  match pg_session s with None => s | Some _ => updateControls (set_session None s) end.
Definition stopDownlinkReporting (s : Page) : Page := set_bundle None s.

Definition resetLocalPublishState (stopTracks clearIntent : bool) (s : Page) : Page :=
  let s := stopLocalQosSession (stopLegacyClientStatsReporting s) in
  let s := set_producers [] (set_sendTransport None (close_transport (pg_sendTransport s) s)) in
  let s := if stopTracks then set_audioActive false (set_videoEntries [] (set_captureStreams [] (stop_streams s)))
           else set_videoEntries (map (λ e, {| ve_track := ve_track e; ve_producer := None |}) (pg_videoEntries s)) s in
  updateControls (if clearIntent then set_desiredLocalPublish false s else s).

Definition resetRemoteMediaState (s : Page) : Page :=
  let s := stopDownlinkReporting s in
  set_remoteConsumers [] (set_pendingConsumers [] (set_recvTransport None (close_transport (pg_recvTransport s) s))).

Definition resetQosState (s : Page) : Page := set_latest [] s.

(** Tracks that are live. *)
Definition live (s : Page) (t : nat) : bool := negb (bool_decide (t ∈ pg_ended s)).

Definition collectReusableLocalCapture (s : Page) : option Capture :=
  let cameras := List.filter (live s) (map ve_track (pg_videoEntries s)) in
  if is_empty cameras then None
  else Some {| ca_audioTrack := array_find (live s) (flat_map st_audio (pg_captureStreams s)); ca_cameras := cameras;
               ca_streams := pg_captureStreams s |}.

Section Session.
Context (qosMode : option string).

Definition ensureDownlinkReporting (s : Page) : Page :=
  if negb (shouldEnableActiveQosControls qosMode) then s
  else match pg_bundle s, pg_recvTransport s with
       | None, Some t =>
           if String.eqb (pg_peerId s) "" then s else set_bundle (Some {| bu_transport := t; bu_peerId := pg_peerId s |}) s
       | _, _ => s
       end.

Definition qos_methods : list string := ["qosPolicy"; "qosOverride"; "qosConnectionQuality"; "qosRoomState"].
Definition qos_message (method : string) (data : jsval) : jsval := JObj [("method", JStr method); ("data", data)].

(** The session is handed the notifications that came before it. *)
Definition setupLocalQosSession (videoProducers : list string) (s : Page) : Page :=
  if negb (shouldEnableActiveQosControls qosMode) then updateControls (stopLocalQosSession (stopLegacyClientStatsReporting s))
  else if useLegacyQos qosMode then updateControls (startLegacyClientStatsReporting s)
  else if is_empty videoProducers then updateControls (startLegacyClientStatsReporting s)
  else
    let s := stopLocalQosSession (stopLegacyClientStatsReporting s) in
    let past := omap (λ m, d ← map_get (pg_latest s) m; if truthy d then Some (qos_message m d) else None) qos_methods in
    updateControls (set_session (Some past) s).

(** For the methods of [qos_methods]. *)
Definition dispatchQosNotification (method : string) (data : jsval) (s : Page) : Page :=
  let message := normalizeIncomingQosMessage qosMode (qos_message method data) in
  let s := match pg_session s with Some l => set_session (Some (l ++ [message])) s | None => s end in
  set_latest (map_set (pg_latest s) method (js_get message "data")) s.

(** ** Receiving *)

Definition queue_consumers (l : list ConsumerData) (s : Page) : Page := set_pendingConsumers (pg_pendingConsumers s ++ l) s.

(** The answer to [recvTransport.consume]: a video is registered. *)
Definition consumed (ok : bool) (d : ConsumerData) (s : Page) : Page :=
  if ok && String.eqb (cd_kind d) "video" then set_remoteConsumers (set_add (pg_remoteConsumers s) (cd_id d)) s else s.

(** [handleNewConsumer] up to its await. *)
Definition handleNewConsumer (d : ConsumerData) (s : Page) : Page :=
  match pg_recvTransport s with None => queue_consumers [d] s | Some _ => spawn (Consuming d) s end.

(** Whether [consumeProducer] sends a request; reading the capabilities of a device
    that is not loaded throws, and the error is caught. *)
Definition can_request (s : Page) : bool := is_some (pg_recvTransport s) && device_ready s.

(** [consumeProducer] up to its await. *)
Definition consumeProducer (p : ProducerInfo) (s : Page) : Page := if can_request s then spawn (Requesting p) s else s.

Definition removeRemoteVideoConsumer (id : string) (s : Page) : Page := set_remoteConsumers (set_remove (pg_remoteConsumers s) id) s.

(** ** Publishing *)

(** The end of the recovery. *)
Definition finish_recovery (ok : bool) (s : Page) : Page :=
  updateControls (set_recovering false (if ok then set_recoveryAttempt 0 s else s)).

(** What follows a failure to publish: [publishMedia] cleans up, the recovery ends. *)
Definition publish_failed (recovery : bool) (s : Page) : Page :=
  if recovery then finish_recovery false s else updateControls (resetLocalPublishState true true s).

(** [publishCapturedMedia] up to its first await. *)
Definition publishCapturedMedia (recovery : bool) (c : Capture) (s : Page) : Page :=
  if negb (is_some (pg_device s)) || is_empty (ca_cameras c) then publish_failed recovery s
  else spawn (Publishing recovery c PTransport) (set_captureStreams (ca_streams c) s).

(** [mergePublishedVideoEntries]; what the page displays of an entry is left out. *)
Definition mergePublishedVideoEntries (cameras : list nat) (producers : list string) : list VideoEntry :=
  imap (λ i t, {| ve_track := t; ve_producer := producers !! i |}) cameras.

(** Everything has been produced. *)
Definition published (recovery : bool) (c : Capture) (producers : list string) (s : Page) : Page :=
  let s := set_videoEntries (mergePublishedVideoEntries (ca_cameras c) producers)
             (set_audioActive (is_some (ca_audioTrack c)) (set_desiredLocalPublish true s)) in
  let s := updateControls (setupLocalQosSession producers s) in
  if recovery then finish_recovery true s else s.

(** The next call of [produce], if [sendTransport] is still there. *)
Definition produce (recovery : bool) (c : Capture) (p : publishing) (s : Page) : Page :=
  match pg_sendTransport s with None => publish_failed recovery s | Some _ => spawn (Publishing recovery c p) s end.
Definition produce_videos (recovery : bool) (c : Capture) (producers : list string) (cameras : list nat) (s : Page) : Page :=
  match cameras with
  | [] => published recovery c producers s
  | t :: rest => produce recovery c (PVideo producers t rest) s
  end.

(** [selectPreferredVideoCodec] throws if the device is there and not loaded. *)
Definition produce_cameras (recovery : bool) (c : Capture) (s : Page) : Page :=
  if is_some (pg_device s) && negb (device_ready s) then publish_failed recovery s
  else produce_videos recovery c [] (ca_cameras c) s.

Definition add_producer (id : string) (s : Page) : Page := set_producers (set_add (pg_producers s) id) s.

Definition send_transport (recovery : bool) (c : Capture) (s : Page) : Page :=
  if device_ready s then
    let '(t, s) := create_transport s in
    let s := set_sendTransport (Some t) s in
    if ca_audioTrack c then produce recovery c PAudio s else produce_cameras recovery c s
  else publish_failed recovery s.

(** The awaits of [publishCapturedMedia]; [None] for an answer that cannot come. *)
Definition resume_publish (recovery : bool) (c : Capture) (p : publishing) (a : answer) (s : Page) : option Page :=
  match p, a with
  | PTransport, Done => Some (send_transport recovery c s)
  | PAudio, Produced id => Some (produce_cameras recovery c (add_producer id s))
  | PVideo producers _ rest, Produced id => Some (produce_videos recovery c (producers ++ [id]) rest (add_producer id s))
  | _, Failure => Some (publish_failed recovery s)
  | _, _ => None
  end.

(** The recovery once the room has been joined again. *)
Definition rejoined (republish : bool) (s : Page) : Page :=
  if republish then
    match collectReusableLocalCapture s with
    | Some c => publishCapturedMedia true c s
    | None => spawn (Capturing true) s
    end
  else finish_recovery true s.

(** ** Establishing a session *)

Definition begin_session (p : purpose) (roomId peerId : string) (s : Page) : Page :=
  spawn (Establish p roomId peerId EResolve) (set_peerId peerId (set_roomId roomId s)).

Definition established (p : purpose) (s : Page) : Page :=
  let s := updateControls s in
  match p with Joining => s | Recovering republish _ => rejoined republish s end.

(** The error reaches [joinRoom], or the loop of the recovery, which sleeps. *)
Definition session_failed (p : purpose) (roomId peerId : string) (s : Page) : Page :=
  match p with
  | Joining => updateControls s
  | Recovering republish attempt => spawn (Sleeping roomId peerId republish attempt) s
  end.

Section Establishing.
Context (p : purpose) (roomId peerId : string).

Definition wait (e : establishing) (s : Page) : Page := spawn (Establish p roomId peerId e) s.

Definition consume_producers (l : list ProducerInfo) (s : Page) : Page :=
  match l with
  | [] => established p s
  | i :: rest => if can_request s then wait (ERequest i rest) s else established p s
  end.

(** The producers that no consumer came for. *)
Definition missing_producers (join : JoinResponse) (precreated : list ConsumerData) : list ProducerInfo :=
  List.filter (λ i, negb (bool_decide (pi_producerId i ∈ map cd_producerId precreated))) (jr_existingProducers join).

Definition consume_queued (join : JoinResponse) (precreated queued : list ConsumerData) (s : Page) : Page :=
  match queued, pg_recvTransport s with
  | d :: rest, Some _ => wait (EQueued join precreated d rest) s
  | _, _ => consume_producers (missing_producers join precreated) (queue_consumers queued s)
  end.
Definition take_queued (join : JoinResponse) (precreated : list ConsumerData) (s : Page) : Page :=
  consume_queued join precreated (pg_pendingConsumers s) (set_pendingConsumers [] s).
Definition consume_precreated (join : JoinResponse) (precreated l : list ConsumerData) (s : Page) : Page :=
  match l, pg_recvTransport s with
  | d :: rest, Some _ => wait (EPrecreated join precreated d rest) s
  | _, _ => take_queued join precreated (queue_consumers l s)
  end.

(** [state.device = new Device()] and its [load]. *)
Definition load_device (join : JoinResponse) (s : Page) : Page :=
  wait (ELoad join (pg_next s)) (set_device (Some (pg_next s)) (set_next (S (pg_next s)) s)).

(** The device has been loaded; the current one may be another. *)
Definition request_transport (join : JoinResponse) (s : Page) : Page :=
  if device_ready s then wait (ETransport join) s else session_failed p roomId peerId s.

Definition receive_transport (join : JoinResponse) (consumers : list ConsumerData) (s : Page) : Page :=
  if device_ready s then
    let '(t, s) := create_transport s in
    consume_precreated join consumers consumers (ensureDownlinkReporting (set_recvTransport (Some t) s))
  else session_failed p roomId peerId s.

Definition consume_requested (d : ConsumerData) (rest : list ProducerInfo) (s : Page) : Page :=
  match pg_recvTransport s with
  | None => consume_producers rest (queue_consumers [d] s)
  | Some _ => wait (EConsume d rest) s
  end.

Definition set_policy (policy : jsval) (s : Page) : Page :=
  set_latest (if truthy policy then map_set (pg_latest s) "qosPolicy" policy else map_delete (pg_latest s) "qosPolicy") s.

Definition joined (join : JoinResponse) (s : Page) : Page :=
  let s := set_policy (jr_qosPolicy join) s in if useFullQos qosMode then wait (EPolicy join) s else load_device join s.

(** What follows an await with no value: [true] for success, [false] for an error. *)
Definition settled (a : answer) (k : bool → Page) : option Page :=
  match a with Done => Some (k true) | Failure => Some (k false) | _ => None end.

(** The awaits of [establishJoinedSession]; [None] for an answer that cannot come. *)
Definition resume_session (e : establishing) (a : answer) (s : Page) : option Page :=
  match e with
  | EResolve => match a with Done => Some (wait EConnect s) | _ => None end
  | EConnect => settled a (λ ok, if ok then wait EJoin s else session_failed p roomId peerId s)
  | EJoin => match a with Joined join => Some (joined join s) | Failure => Some (session_failed p roomId peerId s) | _ => None end
  | EPolicy join => settled a (λ _, load_device join (set_policy (buildDemoQosPolicy (jr_qosPolicy join)) s))
  | ELoad join d =>
      settled a (λ ok, if ok then request_transport join (set_loaded ({[d]} ∪ pg_loaded s) s) else session_failed p roomId peerId s)
  | ETransport join =>
      match a with
      | TransportMade consumers => Some (receive_transport join consumers s)
      | Failure => Some (session_failed p roomId peerId s)
      | _ => None
      end
  | EPrecreated join precreated d rest => settled a (λ ok, consume_precreated join precreated rest (consumed ok d s))
  | EQueued join precreated d rest => settled a (λ ok, consume_queued join precreated rest (consumed ok d s))
  | ERequest _ rest =>
      match a with
      | Requested d => Some (consume_requested d rest s)
      | Failure => Some (consume_producers rest s)
      | _ => None
      end
  | EConsume d rest => settled a (λ ok, consume_producers rest (consumed ok d s))
  end.
End Establishing.

(** ** Steps *)

Definition MAX_ATTEMPTS : nat := 20.

Definition recovery_attempt (roomId peerId : string) (republish : bool) (attempt : nat) (s : Page) : Page :=
  if (attempt <=? MAX_ATTEMPTS)%nat
  then begin_session (Recovering republish attempt) roomId peerId (set_recoveryAttempt attempt s)
  else finish_recovery false s.

Definition resume (t : task) (a : answer) (s : Page) : option Page :=
  match t, a with
  | Establish p roomId peerId e, a => resume_session p roomId peerId e a s
  | Sleeping roomId peerId republish attempt, Done => Some (recovery_attempt roomId peerId republish (S attempt) s)
  | Capturing recovery, Captured fallback c => Some (publishCapturedMedia recovery c (set_usingFallback fallback s))
  | Capturing recovery, Failure => Some (publish_failed recovery (set_usingFallback true s))
  | Publishing recovery c p, a => resume_publish recovery c p a s
  | Consuming d, a => settled a (λ ok, consumed ok d s)
  | Requesting p, Requested d => Some (handleNewConsumer d s)
  | Requesting p, Failure => Some s
  | _, _ => None
  end.

Inductive event :=
| ClickJoin (roomId peerId : string)
| ClickPublish
| ClickStop
| NewConsumer (d : ConsumerData)
| NewProducer (p : ProducerInfo)
| ServerRestart
| QosNotification (method : string) (data : jsval)
| SocketLost
| TrackEnded (t : nat)
| ConsumerGone (id : string)
(** The answer to the task at this position. *)
| Answered (i : nat) (a : answer).

Definition joinRoom (roomId peerId : string) (s : Page) : Page :=
  let s := resetQosState (resetRemoteMediaState (resetLocalPublishState true true (set_device None s))) in
  begin_session Joining roomId peerId (set_desiredLocalPublish false s).

Definition publishMedia (s : Page) : Page :=
  if negb (is_some (pg_device s)) || is_some (pg_sendTransport s) || negb (is_empty (pg_producers s)) then s
  else spawn (Capturing false) s.

Definition stopQos (s : Page) : Page := updateControls (stopLegacyClientStatsReporting (stopLocalQosSession s)).

(** [recoveryInFlight] is assigned when the first attempt has reached its first
    await. *)
Definition recoverAfterServerRestart (s : Page) : Page :=
  if pg_recovering s then s
  else if String.eqb (pg_roomId s) "" || String.eqb (pg_peerId s) "" then s
  else
    let s' := resetQosState (resetLocalPublishState false false (resetRemoteMediaState s)) in
    set_recovering true (recovery_attempt (pg_roomId s) (pg_peerId s) (pg_desiredLocalPublish s) 1 s').

Definition step (s : Page) (e : event) : Page :=
  match e with
  | ClickJoin roomId peerId => if pg_joinDisabled s then s else joinRoom roomId peerId s
  | ClickPublish => if pg_publishDisabled s then s else publishMedia s
  | ClickStop => if pg_stopDisabled s then s else stopQos s
  | NewConsumer d => handleNewConsumer d s
  | NewProducer p => consumeProducer p s
  | ServerRestart => recoverAfterServerRestart s
  | QosNotification method data => if bool_decide (method ∈ qos_methods) then dispatchQosNotification method data s else s
  | SocketLost => stopDownlinkReporting s
  | TrackEnded t => set_ended ({[t]} ∪ pg_ended s) s
  | ConsumerGone id => removeRemoteVideoConsumer id s
  | Answered i a =>
      match pg_tasks s !! i with
      | Some t => default s (resume t a (set_tasks (delete i (pg_tasks s)) s))
      | None => s
      end
  end.
Definition run (es : list event) : Page := foldl step new_Page es.
End Session.

(** ** Tasks and the recovery *)

(** Nothing but a recovery disables the button to join. *)
Definition held (s : Page) : Prop := pg_joinDisabled s = true → pg_recovering s = true.

(** The transports of the page are open, and distinct. *)
Definition transports (s : Page) : Prop :=
  (∀ t, t ∈ pg_open s → t < pg_next s)%nat ∧ (∀ t, pg_sendTransport s = Some t → t ∈ pg_open s ∧ pg_recvTransport s ≠ Some t) ∧
  (∀ t, pg_recvTransport s = Some t → t ∈ pg_open s).

Definition fit (s : Page) : Prop := held s ∧ transports s.

(** What most operations leave alone. *)
Definition same (s s' : Page) : Prop := pg_tasks s' = pg_tasks s ∧ pg_recovering s' = pg_recovering s ∧ (fit s → fit s').

#[global] Instance same_preorder : PreOrder same.
Proof. split; [by intros ? | intros ??? (?&?&?) (?&?&?); split; [congruence|split; [congruence|auto]]]. Qed.

Ltac same_tac := first [match goal with H : same ?s ?s' |- same ?s ?s' => exact H end|split; [reflexivity|split; [reflexivity|first [exact (λ h, h)|exact (λ h, conj (λ h, h) (proj2 h))]]]].

Ltac same_by_cases := intros; repeat match goal with |- context [match ?x with _ => _ end] => destruct x end; same_tac.

Lemma same_updateControls s : same s (updateControls s).
Proof. same_tac. Qed.
Lemma same_close_send s : same s (set_sendTransport None (close_transport (pg_sendTransport s) s)).
Proof.
  split; [by destruct (pg_sendTransport s)|split; [by destruct (pg_sendTransport s)|]]. intros [Hh (Hn & Hs & Hr)].
  destruct (pg_sendTransport s) as [t|] eqn:Ht; (split; [exact Hh|]); unfold transports; cbn; [|done].
  destruct (Hs t eq_refl). split_and!; [set_solver|done|]. intros t' Ht'. specialize (Hr _ Ht'). set_solver.
Qed.
Lemma same_close_recv s : same s (set_recvTransport None (close_transport (pg_recvTransport s) s)).
Proof.
  split; [by destruct (pg_recvTransport s)|split; [by destruct (pg_recvTransport s)|]]. intros [Hh (Hn & Hs & Hr)].
  destruct (pg_recvTransport s) as [t|] eqn:Ht; (split; [exact Hh|]); unfold transports; cbn; [|by split_and!; [|naive_solver|]].
  split_and!; [set_solver|intros t' Ht'; specialize (Hs _ Ht'); set_solver|done].
Qed.
Lemma same_next s : same s (set_next (S (pg_next s)) s).
Proof.
  split; [done|split; [done|]]. intros [Hh (Hn & Hs & Hr)]. split; [exact Hh|]. split_and!; [|done..].
  intros t Ht. specialize (Hn t Ht). cbn. lia.
Qed.
Lemma same_create_send s : same s (set_sendTransport (Some (pg_next s)) (create_transport s).2).
Proof.
  split; [done|split; [done|]]. intros [Hh (Hn & Hs & Hr)]. split; [exact Hh|]. unfold transports. cbn. split_and!.
  - intros t [->%elem_of_singleton|Ht%Hn]%elem_of_union; lia.
  - intros t [= <-]. split; [set_solver|]. intros Ht%Hr%Hn. lia.
  - set_solver.
Qed.
Lemma same_create_recv s : same s (set_recvTransport (Some (pg_next s)) (create_transport s).2).
Proof.
  split; [done|split; [done|]]. intros [Hh (Hn & Hs & Hr)]. split; [exact Hh|]. unfold transports. cbn. split_and!.
  - intros t [->%elem_of_singleton|Ht%Hn]%elem_of_union; lia.
  - intros t Ht. destruct (Hs t Ht) as [Ho _]. split; [set_solver|]. intros [= <-]. specialize (Hn _ Ho). lia.
  - intros t [= <-]. set_solver.
Qed.
Lemma same_stopLocalQosSession s : same s (stopLocalQosSession s).
Proof. unfold stopLocalQosSession. same_by_cases. Qed.
Lemma same_startLegacy s : same s (startLegacyClientStatsReporting s).
Proof. unfold startLegacyClientStatsReporting. same_by_cases. Qed.
Lemma same_stopLegacy s : same s (stopLegacyClientStatsReporting s).
Proof. same_tac. Qed.
Lemma same_resetLocalPublishState b1 b2 s : same s (resetLocalPublishState b1 b2 s).
Proof.
  unfold resetLocalPublishState. cbv zeta. etransitivity; [apply same_stopLegacy|]. etransitivity; [apply same_stopLocalQosSession|].
  generalize (stopLocalQosSession (stopLegacyClientStatsReporting s)). intros s1. etransitivity; [apply (same_close_send s1)|].
  generalize (set_sendTransport None (close_transport (pg_sendTransport s1) s1)). intros s2.
  etransitivity; [|apply same_updateControls]. destruct b1, b2; same_tac.
Qed.
Lemma same_resetRemoteMediaState s : same s (resetRemoteMediaState s).
Proof. unfold resetRemoteMediaState. cbv zeta. set (s1 := stopDownlinkReporting s). transitivity s1; [same_tac|].
  etransitivity; [apply (same_close_recv s1)|]. generalize (set_recvTransport None (close_transport (pg_recvTransport s1) s1)). intros. same_tac. Qed.
Lemma same_resetQosState s : same s (resetQosState s).
Proof. same_tac. Qed.
Lemma same_ensureDownlinkReporting qosMode s : same s (ensureDownlinkReporting qosMode s).
Proof. unfold ensureDownlinkReporting. same_by_cases. Qed.
Lemma same_setupLocalQosSession qosMode l s : same s (setupLocalQosSession qosMode l s).
Proof.
  unfold setupLocalQosSession. assert (same s (stopLocalQosSession (stopLegacyClientStatsReporting s))) as H.
  { etransitivity; [apply same_stopLegacy|apply same_stopLocalQosSession]. }
  assert (same s (updateControls (startLegacyClientStatsReporting s))).
  { etransitivity; [apply same_startLegacy|apply same_updateControls]. }
  assert (∀ s', same s s' → same s (updateControls s')) as Hu by (intros s' ->; apply same_updateControls).
  destruct (negb _); [by apply Hu|]. destruct (useLegacyQos _); [done|]. destruct (is_empty l); [done|]. cbv zeta. apply Hu.
  revert H. generalize (stopLocalQosSession (stopLegacyClientStatsReporting s)). intros s' ->. same_tac.
Qed.
Lemma same_dispatch qosMode m d s : same s (dispatchQosNotification qosMode m d s).
Proof. unfold dispatchQosNotification. same_by_cases. Qed.
Lemma same_consumed ok d s : same s (consumed ok d s).
Proof. unfold consumed. same_by_cases. Qed.

(** The task is part of the recovery. *)
Definition recovering_purpose (p : purpose) : bool := match p with Joining => false | Recovering _ _ => true end.
Definition is_recovery (t : task) : bool :=
  match t with
  | Establish p _ _ _ => recovering_purpose p
  | Sleeping _ _ _ _ => true
  | Capturing b | Publishing b _ _ => b
  | Consuming _ | Requesting _ => false
  end.

(** What is left of a task: attempts, stages of the attempt, items of a loop. *)
Definition stage (e : establishing) : nat * nat :=
  match e with
  | EResolve => (13, 0) | EConnect => (12, 0) | EJoin => (11, 0) | EPolicy _ => (10, 0) | ELoad _ _ => (9, 0) | ETransport _ => (8, 0)
  | EPrecreated _ _ _ rest => (7, S (length rest))
  | EQueued _ _ _ rest => (6, S (length rest))
  | ERequest _ rest => (5, 2 * S (length rest))
  | EConsume _ rest => (5, S (2 * length rest))
  end%nat.
Definition attempts (p : purpose) : nat := match p with Joining => 0 | Recovering _ k => S MAX_ATTEMPTS - k end.
Definition rank (t : task) : nat * (nat * nat) :=
  match t with
  | Establish p _ _ e => (attempts p, stage e)
  | Sleeping _ _ _ k => (S MAX_ATTEMPTS - k, (4, 0))
  | Capturing _ => (0, (3, 0))
  | Publishing _ _ PTransport => (0, (2, 0))
  | Publishing _ _ PAudio => (0, (1, 0))
  | Publishing _ _ (PVideo _ _ rest) => (0, (0, S (length rest)))
  | Requesting _ => (0, (1, 0))
  | Consuming _ => (0, (0, 0))
  end%nat.

Definition below (x y : nat * (nat * nat)) : Prop :=
  (x.1 < y.1 ∨ x.1 = y.1 ∧ (x.2.1 < y.2.1 ∨ x.2.1 = y.2.1 ∧ x.2.2 < y.2.2))%nat.

Lemma below_wf : well_founded below.
Proof.
  intros [a [b c]]. revert b c. induction a as [a IHa] using lt_wf_ind. intros b. induction b as [b IHb] using lt_wf_ind.
  intros c. induction c as [c IHc] using lt_wf_ind. constructor. intros [a' [b' c']] H. unfold below in H. cbn in H.
  destruct H as [H|[-> [H|[-> H]]]]; auto.
Qed.

(** A task goes on with another, or ends; the end of the recovery is noted. *)
Inductive outcome (recovery : bool) (bound : nat * (nat * nat)) (s s' : Page) : Prop :=
| outcome_waits t : is_recovery t = recovery → below (rank t) bound → pg_tasks s' = pg_tasks s ++ [t] →
    pg_recovering s' = pg_recovering s → (fit s → fit s') → outcome recovery bound s s'
| outcome_ends : pg_tasks s' = pg_tasks s → pg_recovering s' = (if recovery then false else pg_recovering s) → (fit s → fit s') → outcome recovery bound s s'.

Lemma outcome_from b r s1 s2 s3 : same s1 s2 → outcome b r s2 s3 → outcome b r s1 s3.
Proof. intros (Ht & Hr & Hh) []; [eapply outcome_waits|apply outcome_ends]; rewrite <- ?Ht, <- ?Hr; eauto. Qed.
Lemma outcome_spawn b r s s' t : is_recovery t = b → below (rank t) r → same s s' → outcome b r s (spawn t s').
Proof. intros ?? (Ht & ? & ?). eapply outcome_waits; [done..| |done|done]. cbn. by rewrite Ht. Qed.
Lemma outcome_done r s s' : same s s' → outcome false r s s'.
Proof. intros (?&?&?). by apply outcome_ends. Qed.
Lemma outcome_finish r ok s s' : same s s' → outcome true r s (finish_recovery ok s').
Proof. intros (Ht & Hr & Hf). apply outcome_ends; [by destruct ok|done|]. intros [_ H]%Hf. split; [exact (λ h, h)|by destruct ok]. Qed.

Ltac below_tac := unfold below; cbn; lia.

Lemma outcome_publish_failed b r s : outcome b r s (publish_failed b s).
Proof. unfold publish_failed. destruct b; [apply outcome_finish; same_tac|apply outcome_done]. etransitivity; [apply same_resetLocalPublishState|apply same_updateControls]. Qed.

Lemma outcome_publishCapturedMedia b c r s : below (0, (2, 0))%nat r → outcome b r s (publishCapturedMedia b c s).
Proof. intros. unfold publishCapturedMedia. destruct (_ || _); [apply outcome_publish_failed|by apply outcome_spawn]. Qed.

Section Outcomes.
Context (qosMode : option string).

Lemma outcome_published b c l r s : outcome b r s (published qosMode b c l s).
Proof.
  unfold published. set (s1 := updateControls _). assert (same s s1).
  { subst s1. etransitivity; [|apply same_updateControls]. etransitivity; [|apply same_setupLocalQosSession]. same_tac. }
  destruct b; [apply outcome_finish; same_tac|apply outcome_done; same_tac].
Qed.
Lemma outcome_produce b c p r s : below (rank (Publishing b c p)) r → outcome b r s (produce b c p s).
Proof. intros. unfold produce. destruct (pg_sendTransport s); [by apply outcome_spawn|apply outcome_publish_failed]. Qed.
Lemma outcome_produce_videos b c l cameras r s : below (0, (0, length cameras))%nat r → outcome b r s (produce_videos qosMode b c l cameras s).
Proof. intros H. destruct cameras; [apply outcome_published|by apply outcome_produce]. Qed.
Lemma outcome_produce_cameras b c r s : below (0, (0, length (ca_cameras c)))%nat r → outcome b r s (produce_cameras qosMode b c s).
Proof. intros. unfold produce_cameras. destruct (_ && _); [apply outcome_publish_failed|by apply outcome_produce_videos]. Qed.

Lemma outcome_resume_publish b c p a s s' :
  resume_publish qosMode b c p a s = Some s' → outcome b (rank (Publishing b c p)) s s'.
Proof.
  destruct p, a; intros [= <-]; try apply outcome_publish_failed.
  - unfold send_transport, create_transport. destruct (device_ready s); [|apply outcome_publish_failed]. cbv beta iota zeta.
    apply (outcome_from _ _ _ _ _ (same_create_send s)). destruct (ca_audioTrack c); [apply outcome_produce|apply outcome_produce_cameras]; below_tac.
  - eapply outcome_from; [|apply outcome_produce_cameras; below_tac]. same_tac.
  - eapply outcome_from; [|apply outcome_produce_videos; below_tac]. same_tac.
Qed.

Lemma outcome_rejoined republish r s : below (0, (3, 0))%nat r → outcome true r s (rejoined republish s).
Proof.
  intros H. unfold rejoined. destruct republish; [|apply outcome_finish; same_tac].
  destruct (collectReusableLocalCapture s); [|by apply outcome_spawn]. apply outcome_publishCapturedMedia. revert H. below_tac.
Qed.

Section Establishing.
Context (p : purpose) (roomId peerId : string).
Local Abbreviation goes e s s' := (outcome (recovering_purpose p) (rank (Establish p roomId peerId e)) s s').

Lemma outcome_wait e e' s s' : below (rank (Establish p roomId peerId e')) (rank (Establish p roomId peerId e)) → same s s' →
  goes e s (wait p roomId peerId e' s').
Proof. intros. by apply outcome_spawn. Qed.
Lemma outcome_session_failed e s : (4 < (stage e).1)%nat → goes e s (session_failed p roomId peerId s).
Proof. intros. unfold session_failed. destruct p; cbn; [apply outcome_done; same_tac|by apply outcome_spawn; [|below_tac|]]. Qed.
Lemma outcome_established e s : (4 < (stage e).1)%nat → goes e s (established p s).
Proof.
  intros. unfold established. cbv zeta. destruct p; cbn [recovering_purpose]; [apply outcome_done; same_tac|].
  eapply outcome_from; [apply same_updateControls|]. apply outcome_rejoined. below_tac.
Qed.

Lemma outcome_consume_producers e l s : below (0, (5, 2 * length l))%nat (0%nat, stage e) →
  goes e s (consume_producers p roomId peerId l s).
Proof.
  intros H. unfold consume_producers. assert (4 < (stage e).1)%nat by (revert H; below_tac).
  destruct l; [|destruct (can_request s)]; [by apply outcome_established|apply outcome_wait; [|same_tac]|by apply outcome_established].
  revert H. below_tac.
Qed.
Lemma outcome_consume_queued e join pre l s : below (0, (6, length l))%nat (0%nat, stage e) →
  goes e s (consume_queued p roomId peerId join pre l s).
Proof.
  intros H. unfold consume_queued. assert (goes e s (consume_producers p roomId peerId (missing_producers join pre) (queue_consumers l s))).
  { eapply outcome_from; [|apply outcome_consume_producers; revert H; below_tac]. same_tac. }
  destruct l, (pg_recvTransport s); [done..| |done]. apply outcome_wait; [|same_tac]. revert H. below_tac.
Qed.
Lemma outcome_take_queued e join pre s : (6 < (stage e).1)%nat → goes e s (take_queued p roomId peerId join pre s).
Proof. intros. eapply outcome_from; [|apply outcome_consume_queued; below_tac]. same_tac. Qed.
Lemma outcome_consume_precreated e join pre l s : below (0, (7, length l))%nat (0%nat, stage e) →
  goes e s (consume_precreated p roomId peerId join pre l s).
Proof.
  intros H. unfold consume_precreated. assert (goes e s (take_queued p roomId peerId join pre (queue_consumers l s))).
  { eapply outcome_from; [|apply outcome_take_queued; revert H; below_tac]. same_tac. }
  destruct l, (pg_recvTransport s); [done..| |done]. apply outcome_wait; [|same_tac]. revert H. below_tac.
Qed.
Lemma outcome_load_device e join s : (9 < (stage e).1)%nat → goes e s (load_device p roomId peerId join s).
Proof. intros. apply outcome_wait; [below_tac|]. etransitivity; [apply same_next|same_tac]. Qed.
Lemma outcome_joined join s : goes EJoin s (joined qosMode p roomId peerId join s).
Proof.
  unfold joined. cbv zeta. apply (outcome_from _ _ _ (set_policy (jr_qosPolicy join) s)); [same_tac|].
  destruct (useFullQos qosMode); [apply outcome_wait; [below_tac|same_tac]|apply outcome_load_device; cbn; lia].
Qed.
Lemma outcome_receive_transport join consumers s : goes (ETransport join) s (receive_transport qosMode p roomId peerId join consumers s).
Proof.
  unfold receive_transport, create_transport. destruct (device_ready s); [|apply outcome_session_failed; cbn; lia]. cbv beta iota zeta.
  eapply outcome_from; [|apply outcome_consume_precreated; below_tac].
  etransitivity; [apply same_create_recv|apply same_ensureDownlinkReporting].
Qed.

Lemma outcome_settled e a s s' k : (∀ ok, goes e s (k ok)) → settled a k = Some s' → goes e s s'.
Proof. intros H. destruct a; intros [= <-]; apply H. Qed.

Lemma outcome_resume_session e a s s' : resume_session qosMode p roomId peerId e a s = Some s' → goes e s s'.
Proof.
  destruct e; cbn [resume_session].
  - destruct a; intros [= <-]. apply outcome_wait; [below_tac|same_tac].
  - apply outcome_settled. intros []; [apply outcome_wait; [below_tac|same_tac]|apply outcome_session_failed; cbn; lia].
  - destruct a; intros [= <-]; [apply outcome_joined|apply outcome_session_failed; cbn; lia].
  - apply outcome_settled. intros _. eapply outcome_from; [|apply outcome_load_device; cbn; lia]. same_tac.
  - apply outcome_settled. intros []; [|apply outcome_session_failed; cbn; lia]. unfold request_transport.
    apply (outcome_from _ _ _ (set_loaded ({[device]} ∪ pg_loaded s) s)); [same_tac|]. destruct (device_ready _); [apply outcome_wait; [below_tac|same_tac]|apply outcome_session_failed; cbn; lia].
  - destruct a; intros [= <-]; [apply outcome_receive_transport|apply outcome_session_failed; cbn; lia].
  - apply outcome_settled. intros ok. eapply outcome_from; [apply same_consumed|apply outcome_consume_precreated; below_tac].
  - apply outcome_settled. intros ok. eapply outcome_from; [apply same_consumed|apply outcome_consume_queued; below_tac].
  - destruct a; intros [= <-]; [|apply outcome_consume_producers; below_tac]. unfold consume_requested.
    destruct (pg_recvTransport s); [apply outcome_wait; [below_tac|same_tac]|].
    eapply outcome_from; [|apply outcome_consume_producers; below_tac]. same_tac.
  - apply outcome_settled. intros ok. eapply outcome_from; [apply same_consumed|apply outcome_consume_producers; below_tac].
Qed.
End Establishing.

Lemma outcome_recovery_attempt roomId peerId republish k r s : below (S MAX_ATTEMPTS - k, (13, 0))%nat r ∨ (MAX_ATTEMPTS < k)%nat →
  outcome true r s (recovery_attempt roomId peerId republish k s).
Proof.
  intros H. unfold recovery_attempt. destruct (Nat.leb_spec k MAX_ATTEMPTS); [|apply outcome_finish; same_tac].
  apply outcome_spawn; [done| |same_tac]. destruct H as [H|H]; [exact H|lia].
Qed.

Lemma outcome_resume t a s s' : resume qosMode t a s = Some s' → outcome (is_recovery t) (rank t) s s'.
Proof.
  destruct t as [p roomId peerId e|roomId peerId republish k|b|b c p|d|i]; cbn [resume is_recovery].
  - apply outcome_resume_session.
  - destruct a; intros [= <-]. apply outcome_recovery_attempt.
    destruct (decide (k < MAX_ATTEMPTS)%nat); [left; unfold below; cbn [rank fst snd]; lia|right; lia].
  - destruct a; intros [= <-]; (eapply outcome_from; [|first [apply outcome_publishCapturedMedia; below_tac|apply outcome_publish_failed]]);
      same_tac.
  - apply outcome_resume_publish.
  - destruct a; intros [= <-]; apply outcome_done, same_consumed.
  - destruct a; intros [= <-]; [|apply outcome_done; same_tac]. unfold handleNewConsumer.
    destruct (pg_recvTransport s); [apply outcome_spawn; [done|below_tac|done]|apply outcome_done; same_tac].
Qed.
End Outcomes.

(** ** Invariants *)

Definition recoveries (l : list task) : nat := length (List.filter is_recovery l).
Lemma recoveries_app l k : recoveries (l ++ k) = (recoveries l + recoveries k)%nat.
Proof. unfold recoveries. by rewrite List.filter_app, length_app. Qed.
Lemma recoveries_one t : recoveries [t] = Nat.b2n (is_recovery t).
Proof. unfold recoveries. cbn [List.filter]. by destruct (is_recovery t). Qed.
Lemma recoveries_delete l i t : l !! i = Some t → recoveries l = (Nat.b2n (is_recovery t) + recoveries (delete i l))%nat.
Proof.
  revert i. induction l as [|x l IH]; intros [|i] H; [done..| |].
  - injection H as ->. unfold recoveries. cbn. by destruct (is_recovery t).
  - specialize (IH i H). change (delete (S i) (x :: l)) with ([x] ++ delete i l). change (x :: l) with ([x] ++ l).
    rewrite !recoveries_app. lia.
Qed.

Definition sound (s : Page) : Prop := recoveries (pg_tasks s) = Nat.b2n (pg_recovering s) ∧ fit s.

Lemma same_sound s s' : same s s' → sound s → sound s'.
Proof. intros (Ht & Hr & Hh) [? ?]. split; [by rewrite Ht, Hr|auto]. Qed.
Lemma spawn_sound t s : is_recovery t = false → sound s → sound (spawn t s).
Proof. intros Ht [Hs Hh]. split; [|done]. cbn [spawn set_tasks pg_tasks pg_recovering]. rewrite recoveries_app, recoveries_one, Hs, Ht. cbn. lia. Qed.

Lemma outcome_sound t i r s s' : pg_tasks s !! i = Some t → sound s →
  outcome (is_recovery t) r (set_tasks (delete i (pg_tasks s)) s) s' → sound s'.
Proof.
  intros Hi [Hs Hh] Ho. pose proof (recoveries_delete _ _ _ Hi) as Hd.
  destruct Ho as [t' Ht' _ Ht Hr Hk|Ht Hr Hk]; (split; [|by apply Hk]); cbn [pg_tasks pg_recovering set_tasks] in *; rewrite Ht, Hr.
  - rewrite recoveries_app, recoveries_one, Ht'. destruct (is_recovery t); cbn in *; lia.
  - destruct (is_recovery t), (pg_recovering s); cbn in *; lia.
Qed.

Section Reachable.
Context (qosMode : option string).

Lemma recovery_attempt_sound r p b s : recoveries (pg_tasks s) = 0%nat → transports s → sound (set_recovering true (recovery_attempt r p b 1 s)).
Proof.
  intros H Ht. split; [|exact (conj (λ _, eq_refl) Ht)]. change (recoveries (pg_tasks s ++ [Establish (Recovering b 1) r p EResolve]) = 1%nat).
  by rewrite recoveries_app, recoveries_one, H.
Qed.
Lemma restart_sound s : sound s → sound (recoverAfterServerRestart s).
Proof.
  intros Hs. unfold recoverAfterServerRestart. destruct (pg_recovering s) eqn:Hr; [done|]. destruct (_ || _); [done|]. cbv zeta.
  set (s' := resetQosState _). assert (same s s') as (Ht & Hr' & Hf).
  { subst s'. etransitivity; [apply same_resetRemoteMediaState|]. etransitivity; [apply same_resetLocalPublishState|apply same_resetQosState]. }
  destruct Hs as [Hs Hfit]. apply recovery_attempt_sound; [by rewrite Ht, Hs, Hr|by apply Hf].
Qed.
Lemma join_sound roomId peerId s : sound s → sound (joinRoom roomId peerId s).
Proof.
  intros Hs. unfold joinRoom, begin_session. cbv zeta. apply spawn_sound; [done|]. eapply same_sound; [|exact Hs].
  transitivity (set_device None s); [same_tac|].
  etransitivity; [apply (same_resetLocalPublishState true true)|]. generalize (resetLocalPublishState true true (set_device None s)). intros s1.
  etransitivity; [apply same_resetRemoteMediaState|]. generalize (resetRemoteMediaState s1). intros. same_tac.
Qed.

Lemma step_sound s e : sound s → sound (step qosMode s e).
Proof.
  intros Hs. destruct e as [r p| | |d|i| |m v| |t|id|i a]; cbn [step].
  - destruct (pg_joinDisabled s); [done|by apply join_sound].
  - destruct (pg_publishDisabled s); [done|]. unfold publishMedia. destruct (_ || _); [done|by apply spawn_sound].
  - destruct (pg_stopDisabled s); [done|]. eapply same_sound; [|exact Hs]. unfold stopQos.
    etransitivity; [apply same_stopLocalQosSession|].
    generalize (stopLocalQosSession s). intros. same_tac.
  - unfold handleNewConsumer. destruct (pg_recvTransport s); [by apply spawn_sound|]. apply (same_sound s); [same_tac|done].
  - unfold consumeProducer. destruct (can_request s); [by apply spawn_sound|done].
  - by apply restart_sound.
  - destruct (bool_decide _); [|done]. eapply same_sound; [apply same_dispatch|done].
  - apply (same_sound s); [same_tac|done].
  - apply (same_sound s); [same_tac|done].
  - apply (same_sound s); [same_tac|done].
  - destruct (pg_tasks s !! i) as [t|] eqn:Hi; [|done]. destruct (resume _ _ _ _) as [s'|] eqn:Hr; [|done]. cbn.
    eapply outcome_sound; [exact Hi|exact Hs|]. eapply outcome_resume, Hr.
Qed.
Lemma run_sound es : sound (run qosMode es).
Proof.
  unfold run. assert (sound new_Page) as H by (split; [done|split; [done|split_and!; [set_solver|done|done]]]). revert H. generalize new_Page.
  induction es as [|e es IH]; intros s H; [done|]. cbn. by apply IH, step_sound.
Qed.
End Reachable.

(** ** Tasks that are answered come to an end *)

Section Replacement.
Context {A : Type} (R : A → A → Prop).

(** One element is replaced by at most one that is smaller. *)
Definition replaced (l' l : list A) : Prop :=
  ∃ t k r, l ≡ₚ t :: k ∧ l' ≡ₚ r ++ k ∧ (r = [] ∨ ∃ t', R t' t ∧ r = [t']).

Lemma replaced_perm l1 l2 : l1 ≡ₚ l2 → Acc replaced l1 → Acc replaced l2.
Proof. intros Hp [H]. constructor. intros l' (t & k & r & Ht & Hl & Hr). apply H. exists t, k, r. by rewrite Hp. Qed.

Lemma replaced_nil : Acc replaced [].
Proof. constructor. by intros l' (t & k & r & Ht%Permutation_nil_l & _). Qed.

Lemma replaced_cons t l : Acc R t → Acc replaced l → Acc replaced (t :: l).
Proof.
  intros Ht. revert l. induction Ht as [t _ IHt]. intros l Hl. induction Hl as [l Hl IHl]. assert (Acc replaced l) as Hl' by by constructor.
  constructor. intros l' (u & k & r & Hu & Hp & Hr). apply (replaced_perm _ _ (symmetry Hp)).
  assert (u ∈ t :: l) as [->|Hin]%elem_of_cons by (rewrite Hu; left).
  - apply (inj (cons t)) in Hu. destruct Hr as [->|(t' & Ht' & ->)]; [by apply (replaced_perm l)|].
    apply (IHt t' Ht'). by apply (replaced_perm l).
  - apply elem_of_Permutation in Hin as [k' Hk]. rewrite Hk, Permutation_swap in Hu. apply (inj (cons u)) in Hu.
    apply (replaced_perm (t :: r ++ k')); [by rewrite <- Hu, Permutation_middle|]. apply IHl. by exists u, k', r.
Qed.

Lemma replaced_wf : well_founded R → well_founded replaced.
Proof. intros HR l. induction l as [|t l IH]; [apply replaced_nil|by apply replaced_cons]. Qed.
End Replacement.

Section Settling.
Context (qosMode : option string).

(** A task has been answered. *)
Definition answered (s' s : Page) : Prop :=
  ∃ i a t, pg_tasks s !! i = Some t ∧ resume qosMode t a (set_tasks (delete i (pg_tasks s)) s) = Some s'.

Lemma answered_replaced s' s : answered s' s → replaced (λ t' t, below (rank t') (rank t)) (pg_tasks s') (pg_tasks s).
Proof.
  intros (i & a & t & Hi & Hr). apply outcome_resume in Hr. apply delete_Permutation in Hi.
  destruct Hr as [t' _ Hb Ht _ _|Ht _ _]; cbn in Ht; rewrite Ht.
  - exists t, (delete i (pg_tasks s)), [t']. split; [done|]. split; [apply Permutation_app_comm|]. right. by exists t'.
  - exists t, (delete i (pg_tasks s)), []. split; [done|]. split; [done|by left].
Qed.

(** C27: Whatever the user, the server and the browser do, and in whatever order
    requests are answered or fail: no page takes answers forever, so that joining,
    publishing and the recovery all end once nothing new happens; at most one recovery
    runs, for as long as the page says so; and the button to join is disabled by
    nothing else. *)
Theorem page_settles :
  well_founded answered ∧
  ∀ es, let s := run qosMode es in
    recoveries (pg_tasks s) = Nat.b2n (pg_recovering s) ∧ (pg_joinDisabled s = true → pg_recovering s = true).
Proof.
  split.
  - apply (wf_projected (replaced (λ t' t, below (rank t') (rank t))) pg_tasks); [exact answered_replaced|].
    apply replaced_wf. apply (wf_projected below rank); [done|apply below_wf].
  - intros es. destruct (run_sound qosMode es) as [Hr [Hh _]]. by split.
Qed.

(** The transports the page refers to have not been closed, and it never sends on the
    transport it receives on. *)
Theorem transports_open es t : let s := run qosMode es in
  (pg_sendTransport s = Some t → t ∈ pg_open s ∧ pg_recvTransport s ≠ Some t) ∧ (pg_recvTransport s = Some t → t ∈ pg_open s).
Proof. destruct (run_sound qosMode es) as (_ & _ & _ & Hs & Hr). split; [apply Hs|apply Hr]. Qed.
End Settling.

(** ** Overlapping sessions *)

Definition nobody : JoinResponse := {| jr_qosPolicy := JNull; jr_existingProducers := [] |}.
Definition camera : Capture := {| ca_audioTrack := None; ca_cameras := [0%nat]; ca_streams := [{| st_audio := []; st_video := [0%nat] |}] |}.

(** The answers to the task at position [i] that let it join in the full mode; it moves
    to position [last]. *)
Definition lets_join (i last : nat) : list event :=
  Answered i Done :: map (Answered last) [Done; Joined nobody; Done; Done; TransportMade []].

Definition in_room (es : list event) : Page := run (Some "full") (ClickJoin "a" "p" :: lets_join 0 0 ++ es).

Lemma joined_once : let s := in_room [] in
  pg_tasks s = [] ∧ elements (pg_open s) = [1%nat] ∧ pg_recvTransport s = Some 1%nat ∧
  pg_bundle s = Some {| bu_transport := 1; bu_peerId := "p" |}.
Proof. vm_compute. by split_and!. Qed.

(** Two clicks on the button to join, of which the second comes before the first has
    been answered: a transport stays open that the page no longer refers to, and the
    downlink reporter goes on sampling it. *)
Lemma double_join : let s := run (Some "full") ([ClickJoin "a" "p"; ClickJoin "a" "q"] ++ lets_join 0 1 ++ lets_join 0 0) in
  pg_tasks s = [] ∧ pg_peerId s = "q" ∧ elements (pg_open s) = [3; 1]%nat ∧ pg_recvTransport s = Some 3%nat ∧
  pg_bundle s = Some {| bu_transport := 1; bu_peerId := "q" |}.
Proof. vm_compute. by split_and!. Qed.

(** The button to publish stays enabled while the cameras are opened: a second click
    publishes the camera twice, and the first transport stays open. *)
Lemma double_publish : let s := in_room ([ClickPublish; ClickPublish; Answered 0 (Captured false camera); Answered 0 (Captured false camera)] ++
    [Answered 0 Done; Answered 0 Done; Answered 0 (Produced "x"); Answered 0 (Produced "y")]) in
  pg_tasks s = [] ∧ elements (pg_open s) = [2; 3; 1]%nat ∧ pg_sendTransport s = Some 3%nat ∧ pg_producers s = ["x"; "y"].
Proof. vm_compute. by split_and!. Qed.

(** The buttons are enabled while the recovery makes its first attempt.  A click to join
    another room does not stop the recovery, whose next attempt takes the page back. *)
Lemma recovery_overrides_join :
  pg_joinDisabled (in_room [ServerRestart]) = false ∧
  let s := in_room ([ServerRestart; ClickJoin "b" "q"] ++ lets_join 1 1 ++ [Answered 0 Done; Answered 0 Failure; Answered 0 Done]) in
  pg_roomId s = "a" ∧ pg_peerId s = "p" ∧ pg_recovering s = true.
Proof. vm_compute. by split_and!. Qed.

(** A restart during the recovery is not recovered from: if the page has joined again
    and publishes when the server restarts once more, the recovery ends with the failure
    to publish, and nothing is left to join the new server. *)
Lemma restart_while_republishing :
  let s := in_room ([ClickPublish; Answered 0 (Captured false camera); Answered 0 Done; Answered 0 (Produced "x"); ServerRestart] ++
    lets_join 0 0 ++ [ServerRestart; Answered 0 Failure]) in
  pg_tasks s = [] ∧ pg_recovering s = false ∧ pg_desiredLocalPublish s = true ∧ pg_producers s = [] ∧
  pg_recoveryAttempt s = 1%nat.
Proof. vm_compute. by split_and!. Qed.
