(* ===== verification/DemoCapture.v ===== *)
(** * Opening the cameras (public/qos-demo.js)

    [captureAllLocalMedia] opens the default camera and then each camera the browser
    lists, unless its key has been claimed; [buildFreshCaptureSelection] stands in a
    drawn stream when that fails.  What [getUserMedia] gives for a device and what a
    track tells about itself are parameters. *)

From stdpp Require Import pretty.
From S2P Require Import Prelude DemoSession.
Local Open Scope string_scope.
Local Open Scope list_scope.

(** [track.label] and the members of [track.getSettings()]; an absent member is empty. *)
Record TrackInfo := { ti_label : string; ti_groupId : string; ti_deviceId : string }.
Record MediaDevice := { md_kind : string; md_label : string; md_groupId : string; md_deviceId : string }.

(** [a || b] on strings. *)
Definition str_or (a b : string) : string := if String.eqb a "" then b else a.

Definition camera_key (groupId deviceId label : string) : string :=
  if negb (String.eqb groupId "") && negb (String.eqb label "") then groupId +:+ "::" +:+ label
  else str_or deviceId label.

Definition getDeviceCameraKey (d : MediaDevice) : string := camera_key (md_groupId d) (md_deviceId d) (md_label d).

Section Capturing.
Context (info : nat → TrackInfo).

Definition getTrackCameraKey (t : nat) : string := camera_key (ti_groupId (info t)) (ti_deviceId (info t)) (ti_label (info t)).

Record CameraEntry := { ce_track : nat; ce_label : string }.

(** The variables of the function, with the streams it has opened and stopped. *)
Record Capturing := {
  cp_captureStreams : list Stream;
  cp_cameraEntries : list CameraEntry;
  cp_claimedCameraKeys : list string;
  cp_opened : list Stream;
  cp_stopped : list Stream;
}.

Definition nth_camera (c : Capturing) (prefix : string) : string := prefix +:+ pretty (S (length (cp_cameraEntries c))).

(** The default camera. *)
Definition claim_primary (primaryStream : Stream) : Capturing :=
  let c := {| cp_captureStreams := [primaryStream]; cp_cameraEntries := []; cp_claimedCameraKeys := []; cp_opened := [primaryStream];
              cp_stopped := [] |} in
  match head (st_video primaryStream) with
  | None => c
  | Some t =>
      {| cp_captureStreams := [primaryStream];
         cp_cameraEntries := [{| ce_track := t; ce_label := str_or (ti_label (info t)) "Default camera" |}];
         cp_claimedCameraKeys := [str_or (getTrackCameraKey t) (nth_camera c "camera-")];
         cp_opened := [primaryStream]; cp_stopped := [] |}
  end.

Definition stop_opened (stream : Stream) (c : Capturing) : Capturing :=
  {| cp_captureStreams := cp_captureStreams c; cp_cameraEntries := cp_cameraEntries c; cp_claimedCameraKeys := cp_claimedCameraKeys c;
     cp_opened := cp_opened c ++ [stream]; cp_stopped := cp_stopped c ++ [stream] |}.

(** The stream that a device gave. *)
Definition claim_stream (d : MediaDevice) (stream : Stream) (c : Capturing) : Capturing :=
  match head (st_video stream) with
  | None => stop_opened stream c
  | Some t =>
      let trackKey := str_or (getTrackCameraKey t) (str_or (getDeviceCameraKey d) (nth_camera c "camera-")) in
      if bool_decide (trackKey ∈ cp_claimedCameraKeys c) then stop_opened stream c
      else
        {| cp_captureStreams := cp_captureStreams c ++ [stream];
           cp_cameraEntries := cp_cameraEntries c ++
             [{| ce_track := t; ce_label := str_or (ti_label (info t)) (str_or (md_label d) (nth_camera c "Camera ")) |}];
           cp_claimedCameraKeys := cp_claimedCameraKeys c ++ [trackKey];
           cp_opened := cp_opened c ++ [stream]; cp_stopped := cp_stopped c |}
  end.

(** One turn of the loop; [opened] is what [getUserMedia] gives, [None] if it rejects. *)
Definition claim_device (c : Capturing) (x : MediaDevice * option Stream) : Capturing :=
  let '(d, opened) := x in
  let deviceKey := getDeviceCameraKey d in
  if negb (String.eqb (md_kind d) "videoinput") then c
  else if negb (String.eqb deviceKey "") && bool_decide (deviceKey ∈ cp_claimedCameraKeys c) then c
  else match opened with None => c | Some stream => claim_stream d stream c end.

(** What [enumerateDevices] does. *)
Inductive enumeration :=
| Unavailable
| EnumerationRejected
| Enumerated (devices : list (MediaDevice * option Stream)).

(** The result, if it does not throw, and the variables at that time, if a stream was
    opened. *)
Definition captureAllLocalMedia (publishAllCameras : bool) (primary : option Stream) (e : enumeration) :
    option Capture * option Capturing :=
  match primary with
  | None => (None, None)
  | Some primaryStream =>
      let result c := (Some {| ca_audioTrack := head (st_audio primaryStream); ca_cameras := map ce_track (cp_cameraEntries c);
                               ca_streams := cp_captureStreams c |}, Some c) in
      let c := claim_primary primaryStream in
      if negb publishAllCameras then result c
      else match e with
           | Unavailable => result c
           | EnumerationRejected => (None, Some c)
           | Enumerated devices => result (foldl claim_device c devices)
           end
  end.

(** Whether the drawn stream stands in, and the selection. *)
Definition buildFreshCaptureSelection (publishAllCameras : bool) (primary : option Stream) (e : enumeration) (fallbackStream : Stream) :
    bool * Capture :=
  match (captureAllLocalMedia publishAllCameras primary e).1 with
  | Some c => (false, c)
  | None => (true, {| ca_audioTrack := head (st_audio fallbackStream);
                      ca_cameras := option_list (head (st_video fallbackStream)); ca_streams := [fallbackStream] |})
  end.

(** ** Cameras are claimed once *)

(** Every stream that was opened is captured or stopped, the cameras have keys of their
    own, and their tracks are first video tracks of captured streams. *)
Definition tidy (c : Capturing) : Prop :=
  cp_opened c ≡ₚ cp_captureStreams c ++ cp_stopped c ∧ NoDup (cp_claimedCameraKeys c) ∧
  length (cp_claimedCameraKeys c) = length (cp_cameraEntries c) ∧
  map (Some ∘ ce_track) (cp_cameraEntries c) = List.filter is_some (map (head ∘ st_video) (cp_captureStreams c)).

Lemma claim_primary_tidy p : tidy (claim_primary p).
Proof.
  unfold claim_primary, tidy. destruct (head (st_video p)) as [t|] eqn:Ht; cbn; rewrite Ht; cbn; split_and!; try done; repeat constructor; set_solver.
Qed.
Lemma stop_opened_tidy stream c : tidy c → tidy (stop_opened stream c).
Proof. intros (Ho & ? & ? & ?). split_and!; [|done..]. cbn. by rewrite Ho, (assoc (++)). Qed.
Lemma claim_stream_tidy d stream c : tidy c → tidy (claim_stream d stream c).
Proof.
  intros Hc. unfold claim_stream. destruct (head (st_video stream)) as [t|] eqn:Ht; [|by apply stop_opened_tidy]. cbv zeta.
  case_bool_decide as Hk; [by apply stop_opened_tidy|]. destruct Hc as (Ho & Hn & Hl & He). split_and!; cbn.
  - rewrite Ho. solve_Permutation.
  - apply NoDup_app. split_and!; [done|set_solver|apply NoDup_singleton].
  - rewrite !length_app, Hl. done.
  - rewrite !map_app, List.filter_app, He. cbn. by rewrite Ht.
Qed.
Lemma claim_device_tidy c x : tidy c → tidy (claim_device c x).
Proof.
  destruct x as [d [stream|]]; intros Hc; cbn; [|by repeat case_match].
  destruct (negb _); [done|]. destruct (_ && _); [done|]. by apply claim_stream_tidy.
Qed.
Lemma claim_devices_tidy l c : tidy c → tidy (foldl claim_device c l).
Proof. revert c. induction l as [|x l IH]; intros c H; [done|]. cbn. by apply IH, claim_device_tidy. Qed.

(** Unless an error ends it, the page holds on to exactly those streams it opened and
    did not stop; no key is claimed twice, and there is one camera per stream with
    video. *)
Theorem cameras_claimed_once publishAllCameras primary e c s : captureAllLocalMedia publishAllCameras primary e = (Some c, s) →
  ∃ s', s = Some s' ∧ cp_opened s' ≡ₚ ca_streams c ++ cp_stopped s' ∧ NoDup (cp_claimedCameraKeys s') ∧
    length (ca_cameras c) = length (cp_claimedCameraKeys s') ∧
    map Some (ca_cameras c) = List.filter is_some (map (head ∘ st_video) (ca_streams c)).
Proof.
  assert (∀ p s', tidy s' → (Some {| ca_audioTrack := p; ca_cameras := map ce_track (cp_cameraEntries s'); ca_streams := cp_captureStreams s' |}, Some s')
    = (Some c, s) → ∃ s', s = Some s' ∧ cp_opened s' ≡ₚ ca_streams c ++ cp_stopped s' ∧ NoDup (cp_claimedCameraKeys s') ∧
    length (ca_cameras c) = length (cp_claimedCameraKeys s') ∧
    map Some (ca_cameras c) = List.filter is_some (map (head ∘ st_video) (ca_streams c))) as H.
  { intros p s' (Ho & Hn & Hl & He) [= <- <-]. exists s'. cbn. by rewrite length_map, Hl, map_map. }
  unfold captureAllLocalMedia. destruct primary as [p|]; [|done]. destruct (negb _); [apply H, claim_primary_tidy|].
  destruct e; [apply H, claim_primary_tidy|done|apply H, claim_devices_tidy, claim_primary_tidy].
Qed.

(** If the devices cannot be listed, the drawn stream stands in although the camera has
    been opened, and nothing stops the camera. *)
Lemma enumeration_failure_keeps_camera_open p fallback : let s := claim_primary p in
  captureAllLocalMedia true (Some p) EnumerationRejected = (None, Some s) ∧
  cp_opened s = [p] ∧ cp_stopped s = [] ∧
  ca_streams (buildFreshCaptureSelection true (Some p) EnumerationRejected fallback).2 = [fallback].
Proof. cbn. unfold claim_primary. by destruct (head (st_video p)). Qed.
End Capturing.
