(* ===== verification/Edge11.v ===== *)
(** * The handler of Edge 11 (src/client/lib/handlers/Edge11.js, handlers/ortc/edgeUtils.js)

    Edge 11 speaks ORTC: there is no peer connection and no session description, but
    an ICE gatherer, an ICE transport and a DTLS transport, on which senders and
    receivers are made.  The browser is the interface [EdgeBrowser], whose calls may
    throw and change the browser in any way; the methods are actions as in
    [HandlerBase], one at a time. *)

From Stdlib Require Import Ascii.
From stdpp Require Import gmap.
From S2P Require Import Prelude JsNum JsVal JsConv JsString DownlinkProtocol OrtcValidate Ortc MediaSection Browser HandlerBase.
Local Open Scope string_scope.
Local Open Scope list_scope.
Local Open Scope Z_scope.

(** ** Capabilities and parameters (edgeUtils.js) *)

(** [s.split('/')]. *)
Fixpoint split_at_slash (cur l : list ascii) : list (list ascii) :=
  match l with
  | [] => [rev cur]
  | c :: l => if Ascii.eqb c "/" then rev cur :: split_at_slash [] l else split_at_slash (c :: cur) l
  end.
Definition split_slash (s : string) : list string := map text (split_at_slash [] (chars s)).

(** [if (parameters[key]) parameters[key] = Number(parameters[key])]. *)
Definition fix_number (key : string) (parameters : jsval) : jsval :=
  if truthy (js_get parameters key) then js_set parameters key (JNum (js_number (js_get parameters key))) else parameters.

Definition fix_feedback (feedback : jsval) : outcome jsval :=
  p ← get_prop feedback "parameter"; Ok (if truthy p then feedback else js_set feedback "parameter" (JStr "")).

Definition fix_codec (codec : jsval) : outcome jsval :=
  numChannels ← get_prop codec "numChannels";
  let codec := js_delete (js_set codec "channels" numChannels) "numChannels" in
  let codec := js_set codec "mimeType" (js_coalesce (js_get codec "mimeType")
                 (JStr (js_to_string (js_get codec "kind") ++ "/" ++ js_to_string (js_get codec "name")))) in
  let parameters := js_get codec "parameters" in
  let codec := if truthy parameters then js_set codec "parameters" (fix_number "packetization-mode" (fix_number "apt" parameters)) else codec in
  let rtcpFeedback := js_get codec "rtcpFeedback" in
  if is_nullish rtcpFeedback then Ok codec
  else
    l ← iterate rtcpFeedback;
    l ← mapM fix_feedback l;
    Ok (js_set codec "rtcpFeedback" (JArr l)).

(** What [getCapabilities] makes of the native capabilities. *)
Definition fix_capabilities (caps : jsval) : outcome jsval :=
  codecs ← get_prop caps "codecs";
  if is_nullish codecs then Ok caps
  else
    l ← iterate codecs;
    l ← mapM fix_codec l;
    Ok (js_set caps "codecs" (JArr l)).

Definition mangle_codec (codec : jsval) : outcome jsval :=
  channels ← get_prop codec "channels";
  let codec := if truthy channels then js_delete (js_set codec "numChannels" channels) "channels" else codec in
  codec ← (if truthy (js_get codec "mimeType") && negb (truthy (js_get codec "name")) then
             match js_get codec "mimeType" with
             | JStr s => Ok (js_set codec "name" (part (split_slash s) 1))
             | _ => Throw "codec.mimeType.split is not a function"
             end
           else Ok codec);
  Ok (js_delete codec "mimeType").

Definition mangleRtpParameters (rtpParameters : jsval) : outcome jsval :=
  mid ← get_prop rtpParameters "mid";
  let params := if truthy mid then js_delete (js_set rtpParameters "muxId" mid) "mid" else rtpParameters in
  codecs ← iterate (js_get params "codecs");
  codecs ← mapM mangle_codec codecs;
  Ok (js_set params "codecs" (JArr codecs)).

(** ** The browser *)

Class EdgeBrowser (B : Type) := {
  receiver_getCapabilities : B → outcome jsval * B;
  new_RTCIceGatherer : jsval → B → outcome nat * B;
  iceGatherer_gather : nat → B → outcome unit * B;
  iceGatherer_close : nat → B → outcome unit * B;
  new_RTCIceTransport : nat → B → outcome nat * B;
  (** With the gatherer and the remote parameters, as the controlling side. *)
  iceTransport_start : nat → nat → jsval → B → outcome unit * B;
  iceTransport_addRemoteCandidate : nat → jsval → B → outcome unit * B;
  iceTransport_stop : nat → B → outcome unit * B;
  iceTransport_getStats : nat → B → outcome jsval * B;
  iceTransport_state : nat → B → string;
  new_RTCDtlsTransport : nat → B → outcome nat * B;
  dtlsTransport_getLocalParameters : nat → B → outcome jsval * B;
  dtlsTransport_start : nat → jsval → B → outcome unit * B;
  dtlsTransport_stop : nat → B → outcome unit * B;
  dtlsTransport_state : nat → B → string;
  new_RTCRtpSender : nat → nat → B → outcome nat * B;
  rtpSender_send : nat → jsval → B → outcome unit * B;
  rtpSender_stop : nat → B → outcome unit * B;
  rtpSender_setTrack : nat → option nat → B → outcome unit * B;
  rtpSender_getParameters : nat → B → outcome jsval * B;
  rtpSender_setParameters : nat → jsval → B → outcome unit * B;
  rtpSender_getStats : nat → B → outcome jsval * B;
  new_RTCRtpReceiver : nat → jsval → B → outcome nat * B;
  rtpReceiver_receive : nat → jsval → B → outcome unit * B;
  rtpReceiver_stop : nat → B → outcome unit * B;
  rtpReceiver_track : nat → B → nat;
  rtpReceiver_getStats : nat → B → outcome jsval * B;
  (** What the listener of [@connect] answers. *)
  edge_connect : jsval → B → outcome unit * B;
  (** [generateRandomNumber()]. *)
  edge_random : B → Z * B;
}.

(** ** State *)

(** What [run] sets. *)
Record EdgeRun := {
  er_sendingRtpParametersByKind : list (string * jsval);
  er_remoteIceParameters : jsval;
  er_remoteIceCandidates : jsval;
  er_remoteDtlsParameters : jsval;
  er_cname : string;
}.

Record Edge := {
  e_run : EdgeRun;
  e_iceGatherer : option nat;
  e_iceTransport : option nat;
  e_dtlsTransport : option nat;
  e_rtpSenders : list (string * nat);
  e_rtpReceivers : list (string * nat);
  e_nextSendLocalId : Z;
  e_transportReady : bool;
}.

Definition new_Edge : Edge :=
  {| e_run := {| er_sendingRtpParametersByKind := []; er_remoteIceParameters := JUndef; er_remoteIceCandidates := JUndef;
                 er_remoteDtlsParameters := JUndef; er_cname := "" |};
     e_iceGatherer := None; e_iceTransport := None; e_dtlsTransport := None; e_rtpSenders := []; e_rtpReceivers := [];
     e_nextSendLocalId := 0; e_transportReady := false |}.

Definition with_run (x : EdgeRun) (h : Edge) : Edge :=
  {| e_run := x; e_iceGatherer := e_iceGatherer h; e_iceTransport := e_iceTransport h; e_dtlsTransport := e_dtlsTransport h;
     e_rtpSenders := e_rtpSenders h; e_rtpReceivers := e_rtpReceivers h; e_nextSendLocalId := e_nextSendLocalId h;
     e_transportReady := e_transportReady h |}.
Definition with_remoteIceParameters (x : jsval) (h : Edge) : Edge :=
  with_run {| er_sendingRtpParametersByKind := er_sendingRtpParametersByKind (e_run h); er_remoteIceParameters := x;
              er_remoteIceCandidates := er_remoteIceCandidates (e_run h); er_remoteDtlsParameters := er_remoteDtlsParameters (e_run h);
              er_cname := er_cname (e_run h) |} h.
Definition with_remoteDtlsParameters (x : jsval) (h : Edge) : Edge :=
  with_run {| er_sendingRtpParametersByKind := er_sendingRtpParametersByKind (e_run h);
              er_remoteIceParameters := er_remoteIceParameters (e_run h); er_remoteIceCandidates := er_remoteIceCandidates (e_run h);
              er_remoteDtlsParameters := x; er_cname := er_cname (e_run h) |} h.
Definition with_transports (gatherer ice dtls : option nat) (h : Edge) : Edge :=
  {| e_run := e_run h; e_iceGatherer := gatherer; e_iceTransport := ice; e_dtlsTransport := dtls; e_rtpSenders := e_rtpSenders h;
     e_rtpReceivers := e_rtpReceivers h; e_nextSendLocalId := e_nextSendLocalId h; e_transportReady := e_transportReady h |}.
Definition with_rtpSenders (f : list (string * nat) → list (string * nat)) (h : Edge) : Edge :=
  {| e_run := e_run h; e_iceGatherer := e_iceGatherer h; e_iceTransport := e_iceTransport h; e_dtlsTransport := e_dtlsTransport h;
     e_rtpSenders := f (e_rtpSenders h); e_rtpReceivers := e_rtpReceivers h; e_nextSendLocalId := e_nextSendLocalId h;
     e_transportReady := e_transportReady h |}.
Definition with_rtpReceivers (f : list (string * nat) → list (string * nat)) (h : Edge) : Edge :=
  {| e_run := e_run h; e_iceGatherer := e_iceGatherer h; e_iceTransport := e_iceTransport h; e_dtlsTransport := e_dtlsTransport h;
     e_rtpSenders := e_rtpSenders h; e_rtpReceivers := f (e_rtpReceivers h); e_nextSendLocalId := e_nextSendLocalId h;
     e_transportReady := e_transportReady h |}.
Definition with_nextSendLocalId (n : Z) (h : Edge) : Edge :=
  {| e_run := e_run h; e_iceGatherer := e_iceGatherer h; e_iceTransport := e_iceTransport h; e_dtlsTransport := e_dtlsTransport h;
     e_rtpSenders := e_rtpSenders h; e_rtpReceivers := e_rtpReceivers h; e_nextSendLocalId := n;
     e_transportReady := e_transportReady h |}.
Definition with_ready (b : bool) (h : Edge) : Edge :=
  {| e_run := e_run h; e_iceGatherer := e_iceGatherer h; e_iceTransport := e_iceTransport h; e_dtlsTransport := e_dtlsTransport h;
     e_rtpSenders := e_rtpSenders h; e_rtpReceivers := e_rtpReceivers h; e_nextSendLocalId := e_nextSendLocalId h;
     e_transportReady := b |}.

(** The calls that start the transports, and whether they succeeded. *)
Inductive edge_entry :=
| EdgeConnected (ok : bool)
| IceStarted (ok : bool)
| DtlsStarted (ok : bool).

Section Edge.
Context {B : Type} `{!EdgeBrowser B}.
(** The h264-profile-level-id package. *)
Context (isSameProfile : jsval → jsval → bool) (generateProfileLevelIdStringForAnswer : jsval → jsval → outcome jsval).

Record EdgeWorld := {
  ew_handler : Edge;
  ew_browser : B;
  ew_log : list edge_entry;
  ew_emitted : list (string * jsval);
}.
Abbreviation M := (action EdgeWorld).

Definition ehandler : M Edge := λ w, (Ok (ew_handler w), w).
Definition set_edge (f : Edge → Edge) : M unit := update (λ w,
  {| ew_handler := f (ew_handler w); ew_browser := ew_browser w; ew_log := ew_log w; ew_emitted := ew_emitted w |}).
Definition eemit (event : string) (x : jsval) : M unit := update (λ w,
  {| ew_handler := ew_handler w; ew_browser := ew_browser w; ew_log := ew_log w; ew_emitted := ew_emitted w ++ [(event, x)] |}).
Definition call {A} (f : B → outcome A * B) : M A := λ w,
  let '(r, b) := f (ew_browser w) in (r, {| ew_handler := ew_handler w; ew_browser := b; ew_log := ew_log w; ew_emitted := ew_emitted w |}).
Definition eread {A} (f : B → A) : M A := λ w, (Ok (f (ew_browser w)), w).
Definition ecall {A} (e : bool → edge_entry) (f : B → outcome A * B) : M A := λ w,
  let '(r, b) := f (ew_browser w) in
  (r, {| ew_handler := ew_handler w; ew_browser := b; ew_log := ew_log w ++ [e (is_ok r)]; ew_emitted := ew_emitted w |}).

(** A field that is set by [run]. *)
Definition field (f : Edge → option nat) : M nat :=
  h ← ehandler; lift match f h with Some x => Ok x | None => Throw "Cannot read properties of undefined" end.

Definition random : M Z := call (λ b, let '(n, b) := edge_random b in (Ok n, b)).

(** ** Transports *)

Definition setIceGatherer (o : RunOptions) : M unit :=
  gatherer ← call (new_RTCIceGatherer (JObj [("iceServers", js_coalesce (ro_iceServers o) (JArr []));
                                             ("gatherPolicy", js_coalesce (ro_iceTransportPolicy o) (JStr "all"))]));
  _ ← attempt (call (iceGatherer_gather gatherer));
  set_edge (λ h, with_transports (Some gatherer) (e_iceTransport h) (e_dtlsTransport h) h).

Definition setIceTransport : M unit :=
  gatherer ← field e_iceGatherer;
  ice ← call (new_RTCIceTransport gatherer);
  set_edge (λ h, with_transports (e_iceGatherer h) (Some ice) (e_dtlsTransport h) h).

Definition setDtlsTransport : M unit :=
  ice ← field e_iceTransport;
  dtls ← call (new_RTCDtlsTransport ice);
  set_edge (λ h, with_transports (e_iceGatherer h) (e_iceTransport h) (Some dtls) h).

(** The events [statechange] and [icestatechange] of the ICE transport. *)
Definition ice_connection_state (state : string) : option string :=
  if String.eqb state "checking" then Some "connecting"
  else if String.eqb state "connected" || String.eqb state "completed" then Some "connected"
  else if bool_decide (state ∈ ["failed"; "disconnected"; "closed"]) then Some state
  else None.
Definition on_ice_state (ice : nat) : M unit :=
  state ← eread (iceTransport_state ice);
  match ice_connection_state state with Some s => eemit "@connectionstatechange" (JStr s) | None => mret tt end.

(** The event [dtlsstatechange] of the DTLS transport. *)
Definition on_dtls_state (dtls : nat) : M unit :=
  state ← eread (dtlsTransport_state dtls);
  if String.eqb state "closed" then eemit "@connectionstatechange" (JStr "closed") else mret tt.

(** The remote candidates, and an empty one for their end. *)
Definition add_candidates (ice : nat) : M unit :=
  h ← ehandler;
  candidates ← lift (iterate (er_remoteIceCandidates (e_run h)));
  _ ← each (λ c, call (iceTransport_addRemoteCandidate ice c)) candidates;
  call (iceTransport_addRemoteCandidate ice (JObj [])).

Definition start_ice (iceParameters : jsval) : M unit :=
  ice ← field e_iceTransport;
  gatherer ← field e_iceGatherer;
  _ ← ecall IceStarted (iceTransport_start ice gatherer iceParameters);
  add_candidates ice.

Definition strong_fingerprint (fingerprint : jsval) : outcome bool :=
  algorithm ← get_prop fingerprint "algorithm";
  Ok (existsb (is_str algorithm) ["sha-256"; "sha-384"; "sha-512"]).
Definition keep_strong (dtlsParameters : jsval) : outcome jsval :=
  fingerprints ← get_prop dtlsParameters "fingerprints";
  l ← iterate fingerprints;
  l ← filter_ok strong_fingerprint l;
  Ok (js_set dtlsParameters "fingerprints" (JArr l)).

Definition start_dtls : M unit :=
  h ← ehandler;
  dtlsParameters ← lift (keep_strong (er_remoteDtlsParameters (e_run h)));
  _ ← set_edge (with_remoteDtlsParameters dtlsParameters);
  dtls ← field e_dtlsTransport;
  _ ← ecall DtlsStarted (dtlsTransport_start dtls dtlsParameters);
  set_edge (with_ready true).

Definition setupTransport (localDtlsRole : string) : M unit :=
  dtls ← field e_dtlsTransport;
  dtlsParameters ← call (dtlsTransport_getLocalParameters dtls);
  _ ← lift (throw_if (is_nullish dtlsParameters) "Cannot set properties of undefined (setting 'role')");
  _ ← ecall EdgeConnected (edge_connect (js_set dtlsParameters "role" (JStr localDtlsRole)));
  h ← ehandler;
  _ ← start_ice (er_remoteIceParameters (e_run h));
  start_dtls.

Definition ensure_ready : M unit := h ← ehandler; if e_transportReady h then mret tt else setupTransport "server".

(** ** Methods *)

Definition close : M unit :=
  _ ← attempt (g ← field e_iceGatherer; call (iceGatherer_close g));
  _ ← attempt (t ← field e_iceTransport; call (iceTransport_stop t));
  _ ← attempt (t ← field e_dtlsTransport; call (dtlsTransport_stop t));
  h ← ehandler;
  _ ← each (λ e, attempt (call (rtpSender_stop e.2))) (e_rtpSenders h);
  _ ← each (λ e, attempt (call (rtpReceiver_stop e.2))) (e_rtpReceivers h);
  eemit "@close" JUndef.

Definition getNativeRtpCapabilities : M jsval := caps ← call receiver_getCapabilities; lift (fix_capabilities caps).
Definition getNativeSctpCapabilities : M jsval := mret (JObj [("numStreams", JObj [("OS", js_int 0); ("MIS", js_int 0)])]).

Definition run (o : RunOptions) : M unit :=
  n ← random;
  _ ← set_edge (with_run
    {| er_sendingRtpParametersByKind := [("audio", getSendingRtpParameters "audio" (ro_extendedRtpCapabilities o));
                                         ("video", getSendingRtpParameters "video" (ro_extendedRtpCapabilities o))];
       er_remoteIceParameters := ro_iceParameters o; er_remoteIceCandidates := ro_iceCandidates o;
       er_remoteDtlsParameters := ro_dtlsParameters o; er_cname := "CNAME-" ++ js_to_string (js_int n) |});
  _ ← setIceGatherer o;
  _ ← setIceTransport;
  setDtlsTransport.

Definition updateIceServers (iceServers : jsval) : M unit := lift (Throw "not supported").

Definition restartIce (iceParameters : jsval) : M unit :=
  _ ← set_edge (with_remoteIceParameters iceParameters);
  h ← ehandler;
  if e_transportReady h then start_ice iceParameters else mret tt.

Definition getTransportStats : M jsval := ice ← field e_iceTransport; call (iceTransport_getStats ice).

(** The encodings get SSRCs. *)
Definition with_ssrcs (useRtx : bool) (encoding : jsval) : M jsval :=
  n ← random;
  let encoding := js_set encoding "ssrc" (js_int n) in
  if useRtx then n ← random; mret (js_set encoding "rtx" (JObj [("ssrc", js_int n)])) else mret encoding.

(** [String(this._nextSendLocalId)]. *)
Definition local_id (n : Z) : string := js_to_string (js_int n).
Definition store_sender (rtpSender : nat) (rtpParameters : jsval) : M (option string * jsval * option nat) :=
  h ← ehandler;
  _ ← set_edge (with_nextSendLocalId (e_nextSendLocalId h + 1));
  _ ← set_edge (with_rtpSenders (λ m, map_set m (local_id (e_nextSendLocalId h)) rtpSender));
  mret (Some (local_id (e_nextSendLocalId h)), rtpParameters, Some rtpSender).

Definition send (o : SendOptions) : M (option string * jsval * option nat) :=
  _ ← ensure_ready;
  dtls ← field e_dtlsTransport;
  rtpSender ← call (new_RTCRtpSender (sn_track o) dtls);
  h ← ehandler;
  rtpParameters ← lift (reduced_parameters isSameProfile generateProfileLevelIdStringForAnswer
                          (er_sendingRtpParametersByKind (e_run h)) (sn_kind o) (sn_codec o));
  codecs ← lift (iterate (js_get rtpParameters "codecs"));
  encodings ← collect (with_ssrcs (existsb isRtxCodec codecs)) (default [JObj []] (sn_encodings o));
  let rtpParameters := js_set rtpParameters "encodings" (JArr encodings) in
  let rtpParameters := js_set rtpParameters "rtcp"
    (JObj [("cname", JStr (er_cname (e_run h))); ("reducedSize", JBool true); ("mux", JBool true)]) in
  edgeRtpParameters ← lift (mangleRtpParameters rtpParameters);
  _ ← call (rtpSender_send rtpSender edgeRtpParameters);
  store_sender rtpSender rtpParameters.

Definition sender_of (localId : string) : M nat :=
  h ← ehandler; lift match map_get (e_rtpSenders h) localId with Some s => Ok s | None => Throw "RTCRtpSender not found" end.

Definition stopSending (localId : string) : M unit :=
  rtpSender ← sender_of localId;
  _ ← set_edge (with_rtpSenders (λ m, map_delete m localId));
  call (rtpSender_stop rtpSender).

Definition replaceTrack (localId : string) (track : option nat) : M unit :=
  rtpSender ← sender_of localId; call (rtpSender_setTrack rtpSender track).

(** [encoding.active] by the index. *)
Definition set_active (spatialLayer : num) (idx : nat) (encoding : jsval) : jsval :=
  js_set encoding "active" (JBool (num_leb (num_of_Z (Z.of_nat idx)) spatialLayer)).

Definition with_encodings (f : nat → jsval → jsval) (parameters : jsval) : outcome jsval :=
  encodings ← get_prop parameters "encodings";
  l ← iterate encodings;
  Ok (js_set parameters "encodings" (JArr (imap f l))).

Definition change_encodings (localId : string) (f : nat → jsval → jsval) : M unit :=
  rtpSender ← sender_of localId;
  parameters ← call (rtpSender_getParameters rtpSender);
  parameters ← lift (with_encodings f parameters);
  call (rtpSender_setParameters rtpSender parameters).

Definition setMaxSpatialLayer (localId : string) (spatialLayer : num) : M unit := change_encodings localId (set_active spatialLayer).
(** [{ ...encoding, ...params }]. *)
Definition setRtpEncodingParameters (localId : string) (params : jsval) : M unit :=
  change_encodings localId (λ _ encoding, js_assign (JObj (js_spread encoding)) params).

Definition getSenderStats (localId : string) : M jsval := rtpSender ← sender_of localId; call (rtpSender_getStats rtpSender).

Definition sendDataChannel (o : DataChannelOptions) : M (nat * jsval) := lift (Throw "not implemented").

Definition receive_one (o : ReceiveOptions) : M (option string * nat * option nat) :=
  dtls ← field e_dtlsTransport;
  rtpReceiver ← call (new_RTCRtpReceiver dtls (rv_kind o));
  edgeRtpParameters ← lift (mangleRtpParameters (rv_rtpParameters o));
  _ ← call (rtpReceiver_receive rtpReceiver edgeRtpParameters);
  _ ← set_edge (with_rtpReceivers (λ m, map_set m (rv_trackId o) rtpReceiver));
  track ← eread (rtpReceiver_track rtpReceiver);
  mret (Some (rv_trackId o), track, Some rtpReceiver).

Definition receive (optionsList : list ReceiveOptions) : M (list (option string * nat * option nat)) :=
  _ ← ensure_ready; collect receive_one optionsList.

Definition receiver_of (localId : string) : M nat :=
  h ← ehandler; lift match map_get (e_rtpReceivers h) localId with Some s => Ok s | None => Throw "RTCRtpReceiver not found" end.

Definition stop_receiving_one (localId : string) : M unit :=
  rtpReceiver ← receiver_of localId;
  _ ← set_edge (with_rtpReceivers (λ m, map_delete m localId));
  attempt (call (rtpReceiver_stop rtpReceiver)).
Definition stopReceiving (localIds : list string) : M unit := each stop_receiving_one localIds.

Definition getReceiverStats (localId : string) : M jsval := rtpReceiver ← receiver_of localId; call (rtpReceiver_getStats rtpReceiver).

Definition createFactory : Methods EdgeWorld := {|
  m_close := close;
  m_getNativeRtpCapabilities := getNativeRtpCapabilities;
  m_getNativeSctpCapabilities := getNativeSctpCapabilities;
  m_run := run;
  m_updateIceServers := updateIceServers;
  m_restartIce := restartIce;
  m_getTransportStats := getTransportStats;
  m_send := send;
  m_stopSending := stopSending;
  m_pauseSending := λ _, mret tt;
  m_resumeSending := λ _, mret tt;
  m_replaceTrack := replaceTrack;
  m_setMaxSpatialLayer := setMaxSpatialLayer;
  m_setRtpEncodingParameters := setRtpEncodingParameters;
  m_getSenderStats := getSenderStats;
  m_sendDataChannel := sendDataChannel;
  m_receive := receive;
  m_stopReceiving := stopReceiving;
  m_pauseReceiving := λ _, mret tt;
  m_resumeReceiving := λ _, mret tt;
  m_getReceiverStats := getReceiverStats;
  m_receiveDataChannel := λ _ _ _, lift (Throw "not implemented");
|}.

Definition new_EdgeWorld (b : B) : EdgeWorld := {| ew_handler := new_Edge; ew_browser := b; ew_log := []; ew_emitted := [] |}.
End Edge.
Arguments EdgeWorld : clear implicits.

(** ** Capabilities and parameters *)

Lemma js_get_delete_eq v k : js_get (js_delete v k) k = JUndef.
Proof. destruct v; cbn; [done..|]. by rewrite map_get_delete_eq. Qed.

Lemma mapM_Forall {A C} (f : A → outcome C) (P : C → Prop) l k : (∀ x y, f x = Ok y → P y) → mapM f l = Ok k → Forall P k.
Proof.
  intros Hf. revert k. induction l as [|x l IH]; intros k H; [by injection H as <-|]. cbn in H. bind_inv. injection H as <-. constructor; eauto.
Qed.

(** What Edge does not know of the standard: [channels] and [mimeType]. *)
Definition edge_codec (c : jsval) : Prop := js_get c "mimeType" = JUndef ∧ truthy (js_get c "channels") = false.
(** What the standard does not know of Edge. *)
Definition standard_codec (c : jsval) : Prop :=
  js_get c "numChannels" = JUndef ∧ (is_obj c = true → is_nullish (js_get c "mimeType") = false).

Lemma mangle_codec_edge c c' : mangle_codec c = Ok c' → edge_codec c'.
Proof.
  unfold mangle_codec. intros H. bind_inv. subst c'. split; [apply js_get_delete_eq|]. rewrite js_get_delete_ne by done.
  unfold get_prop in Hm. destruct (is_nullish c); [done|]. injection Hm as <-.
  set (c1 := if truthy _ then _ else _) in *. assert (truthy (js_get c1 "channels") = false) as Hc.
  { subst c1. destruct (truthy (js_get c "channels")) eqn:Ht; [by rewrite js_get_delete_eq|done]. }
  destruct (_ && _); [|by injection Hm0 as <-]. destruct (js_get c1 "mimeType"); try discriminate. injection Hm0 as <-.
  by rewrite js_get_set_ne.
Qed.

Lemma fix_codec_standard c c' : fix_codec c = Ok c' → standard_codec c'.
Proof.
  unfold fix_codec. intros H. bind_inv. set (c1 := js_delete _ _) in *. set (c2 := js_set c1 "mimeType" _) in *.
  assert (standard_codec c2) as [Hn Hm2].
  { subst c2. split; [rewrite js_get_set_ne by done; apply js_get_delete_eq|]. rewrite is_obj_set. intros Ho.
    rewrite get_set_same by done. unfold js_coalesce. by destruct (js_get c1 "mimeType"). }
  assert (∀ k x v, k ≠ "numChannels" → k ≠ "mimeType" → standard_codec v → standard_codec (js_set v k x)) as Hset.
  { intros k x v H1 H2 [Hv1 Hv2]. split; [by rewrite js_get_set_ne|]. rewrite is_obj_set, js_get_set_ne by done. done. }
  assert (standard_codec (if truthy (js_get c2 "parameters") then
    js_set c2 "parameters" (fix_number "packetization-mode" (fix_number "apt" (js_get c2 "parameters"))) else c2)) as H3
    by (destruct (truthy (js_get c2 "parameters")); [by apply Hset|done]).
  destruct (is_nullish _); [by injection H as <-|]. bind_inv. subst c'. by apply Hset.
Qed.

(** The conversions do what they are for: the codecs the device gets are described as
    the standard has it, and the parameters Edge gets as Edge has it. *)
Theorem edge_conversions :
  (∀ caps caps' l, fix_capabilities caps = Ok caps' → js_get caps' "codecs" = JArr l → is_obj caps' = true →
    is_nullish (js_get caps "codecs") = false → Forall standard_codec l) ∧
  (∀ p p' l, mangleRtpParameters p = Ok p' → js_get p' "codecs" = JArr l → is_obj p' = true →
    Forall edge_codec l ∧ truthy (js_get p' "mid") = false ∧
    (truthy (js_get p "mid") = true → js_get p' "muxId" = js_get p "mid")).
Proof.
  split.
  - intros caps caps' l H Hl Ho Hn. unfold fix_capabilities in H. bind_inv. unfold get_prop in Hm. destruct (is_nullish caps); [done|].
    injection Hm as <-. rewrite Hn in H. bind_inv. subst caps'. rewrite is_obj_set in Ho. rewrite get_set_same in Hl by done.
    injection Hl as ->. eapply mapM_Forall; [|eassumption]. apply fix_codec_standard.
  - intros p p' l H Hl Ho. unfold mangleRtpParameters in H. bind_inv. unfold get_prop in Hm. destruct (is_nullish p); [done|].
    injection Hm as <-. set (p1 := if truthy _ then _ else _) in *. subst p'. rewrite is_obj_set in Ho. rewrite get_set_same in Hl by done.
    injection Hl as ->. split; [eapply mapM_Forall; [|eassumption]; apply mangle_codec_edge|]. rewrite !js_get_set_ne by done.
    subst p1. destruct (truthy (js_get p "mid")) eqn:Ht; [|done]. rewrite js_get_delete_eq, js_get_delete_ne by done. split; [done|].
    intros _. apply get_set_same. by destruct p.
Qed.

(** ** The transports are started once *)

(** Nothing, connected, ICE started, DTLS started: a log is in order if each is
    preceded by the one before, and the last happens once. *)
Definition edge_phase (p : nat) (e : edge_entry) : option nat :=
  match e with
  | EdgeConnected ok => if (p <? 3)%nat then Some (if ok then Nat.max p 1 else p) else None
  | IceStarted ok => if (1 <=? p)%nat then Some (if ok then Nat.max p 2 else p) else None
  | DtlsStarted ok => if (p =? 2)%nat then Some (if ok then 3%nat else p) else None
  end.
Definition edge_phases (log : list edge_entry) : option nat := foldl (λ p e, p ≫= λ p, edge_phase p e) (Some 0%nat) log.

Lemma edge_phases_snoc log e p : edge_phases log = Some p → edge_phases (log ++ [e]) = edge_phase p e.
Proof. unfold edge_phases. rewrite foldl_app. by intros ->. Qed.

Lemma local_id_inj m n : 0 ≤ m ≤ 2 ^ 53 → 0 ≤ n ≤ 2 ^ 53 → local_id m = local_id n → m = n.
Proof.
  intros Hm Hn H. assert (num_of_Z m = num_of_Z n) as E.
  { rewrite <- (safe_integer_roundtrip m Hm), <- (safe_integer_roundtrip n Hn). f_equal. exact H. }
  pose proof (num_of_Z_leb m n) as H1. pose proof (num_of_Z_leb n m) as H2. rewrite E, num_of_Z_leb in H1. rewrite <- E, num_of_Z_leb in H2. lia.
Qed.

Section Runs.
Context {B : Type} `{!EdgeBrowser B}.
Context (isSameProfile : jsval → jsval → bool) (generateProfileLevelIdStringForAnswer : jsval → jsval → outcome jsval).
Abbreviation EW := (EdgeWorld B).
Abbreviation M := (action EW).

(** What the invariant is about. *)
Definition core (w : EW) := (ew_log w, e_transportReady (ew_handler w), e_rtpSenders (ew_handler w), e_nextSendLocalId (ew_handler w)).
Definition inert {A} (m : M A) : Prop := ∀ w, core (m w).2 = core w.

Lemma inert_bind {A C} (m : M A) (f : A → M C) : inert m → (∀ a, inert (f a)) → inert (m ≫= f).
Proof.
  intros Hm Hf w. unfold mbind, action_bind. specialize (Hm w). destruct (m w) as [[a|e] w']; [|done]. rewrite (Hf a w'). exact Hm.
Qed.
Lemma inert_call {A} (f : B → outcome A * B) : inert (call f).
Proof. intros w. unfold call. by destruct (f _). Qed.
Lemma inert_attempt (m : M unit) : inert m → inert (attempt m).
Proof. intros Hm w. apply Hm. Qed.
Lemma inert_each {A} (f : A → M unit) l : (∀ x, inert (f x)) → inert (each f l).
Proof. intros Hf. induction l as [|x l IH]; [done|]. by apply inert_bind. Qed.
Lemma inert_collect {A C} (f : A → M C) l : (∀ x, inert (f x)) → inert (collect f l).
Proof. intros Hf. induction l as [|x l IH]; [done|]. apply inert_bind; [done|]. intros c. by apply inert_bind. Qed.
Lemma inert_field f : inert (field f).
Proof. by apply inert_bind. Qed.
Lemma inert_random : inert random.
Proof. apply inert_call. Qed.
Lemma inert_sender_of localId : inert (sender_of localId).
Proof. by apply inert_bind. Qed.
Lemma inert_receiver_of localId : inert (receiver_of localId).
Proof. by apply inert_bind. Qed.

Ltac inert := repeat first
  [ match goal with |- ∀ _, _ => intro | |- inert (attempt _) => apply inert_attempt end | apply inert_bind | apply inert_call
  | apply inert_each | apply inert_collect | apply inert_field | apply inert_random | apply inert_sender_of | apply inert_receiver_of
  | done | case_match ].

Lemma inert_run o : inert (run o).
Proof. unfold run, setIceGatherer, setIceTransport, setDtlsTransport. inert. Qed.
Lemma inert_close : inert close.
Proof. unfold close. inert. Qed.
Lemma inert_add_candidates ice : inert (add_candidates ice).
Proof. unfold add_candidates. inert. Qed.
Lemma inert_change_encodings localId f : inert (change_encodings localId f).
Proof. unfold change_encodings. inert. Qed.
Lemma inert_receive_one o : inert (receive_one o).
Proof. unfold receive_one. inert. Qed.
Lemma inert_stopReceiving l : inert (stopReceiving l).
Proof. unfold stopReceiving, stop_receiving_one. inert. Qed.

(** The log is in order and agrees with the flag; the local ids of the senders are those
    of the counter so far. *)
Definition senders_numbered (m : list (string * nat)) (next : Z) : Prop :=
  0 ≤ next ∧ Forall (λ e, ∃ n, 0 ≤ n < next ∧ e.1 = local_id n) m.
Definition sound (w : EW) : Prop :=
  (∃ p, edge_phases (ew_log w) = Some p ∧ (e_transportReady (ew_handler w) = true ↔ p = 3%nat)) ∧
  senders_numbered (e_rtpSenders (ew_handler w)) (e_nextSendLocalId (ew_handler w)).

Definition phase_at (n : nat) (ready : bool) (w : EW) : Prop :=
  sound w ∧ e_transportReady (ew_handler w) = ready ∧ ∃ p, edge_phases (ew_log w) = Some p ∧ (n ≤ p)%nat.

(** A call that runs from [P] leads to [Q] if it returns, and is sound otherwise. *)
Definition leads {A} (P Q : EW → Prop) (m : M A) : Prop := ∀ w, P w → match m w with (Ok _, w') => Q w' | (Throw _, w') => sound w' end.

Lemma leads_bind {A C} (P Q R : EW → Prop) (m : M A) (f : A → M C) : leads P Q m → (∀ a, leads Q R (f a)) → leads P R (m ≫= f).
Proof. intros Hm Hf w Hw. specialize (Hm w Hw). unfold mbind, action_bind. destruct (m w) as [[a|e] w']; [by apply Hf|done]. Qed.
Lemma leads_inert {A} n r (m : M A) : inert m → leads (phase_at n r) (phase_at n r) m.
Proof.
  intros Hm w (Hs & Hr & Hp). specialize (Hm w). destruct (m w) as [[a|e] w']; unfold core in Hm; cbn in Hm; injection Hm as E1 E2 E3 E4;
    unfold phase_at, sound in *; by rewrite E1, E2, E3, E4.
Qed.
Lemma leads_sound {A} (m : M A) : leads sound sound m ↔ ∀ w, sound w → sound (m w).2.
Proof. split; intros H w Hw; specialize (H w Hw); by destruct (m w) as [[]]. Qed.
Lemma sound_inert {A} (m : M A) : inert m → leads sound sound m.
Proof.
  intros Hm. apply leads_sound. intros w Hs. specialize (Hm w). unfold core in Hm. injection Hm as E1 E2 E3 E4.
  unfold sound in *. by rewrite E1, E2, E3, E4.
Qed.

Lemma leads_logged {A} n n' r (e : bool → edge_entry) (f : B → outcome A * B) :
  (∀ ok p, (n ≤ p)%nat → (r = true ↔ p = 3%nat) → ∃ p', edge_phase p (e ok) = Some p' ∧ (r = true ↔ p' = 3%nat) ∧ (ok = true → (n' ≤ p')%nat)) →
  leads (phase_at n r) (phase_at n' r) (ecall e f).
Proof.
  intros He w (((p & Hp & Hr) & Hn) & Hready & (p0 & Hp0 & Hle)). rewrite Hp in Hp0. injection Hp0 as <-. unfold ecall.
  destruct (f _) as [[a|x] b]; cbn;
    [destruct (He true p Hle) as (p' & E & Hr' & Hok)|destruct (He false p Hle) as (p' & E & Hr' & _)]; try (by rewrite <- Hready);
    rewrite <- (edge_phases_snoc _ _ _ Hp) in E; subst r; [split; [|split; [done|]]|]; try (split; [by exists p'|done]).
  exists p'. auto.
Qed.

Lemma leads_start_ice ice r : leads (phase_at 1 r) (phase_at 2 r) (start_ice ice).
Proof.
  unfold start_ice. eapply leads_bind; [apply leads_inert, inert_field|]. intros t.
  eapply leads_bind; [apply leads_inert, inert_field|]. intros g.
  eapply leads_bind; [|intros; apply leads_inert, inert_add_candidates]. apply leads_logged. intros ok p Hp Hr.
  destruct p as [|[|[|[|p]]]]; [lia|..]; destruct ok; cbn; eexists; (split; [reflexivity|]); (split; [|lia]); rewrite Hr; lia.
Qed.
Lemma edge_phases_le log p : edge_phases log = Some p → (p ≤ 3)%nat.
Proof.
  revert p. induction log as [|e log IH] using rev_ind; intros p H; [injection H as <-; lia|].
  unfold edge_phases in *. rewrite foldl_app in H. cbn in H. destruct (foldl _ _ log) as [q|]; [|done]. specialize (IH q eq_refl).
  destruct e as [[]|[]|[]]; cbn in H; case_match; simplify_eq/=; lia.
Qed.

Lemma leads_start_dtls : leads (phase_at 2 false) (phase_at 3 true) start_dtls.
Proof.
  unfold start_dtls. eapply leads_bind; [by apply (leads_inert 2)|]. intros h.
  eapply leads_bind; [by apply (leads_inert 2)|]. intros d. eapply leads_bind; [by apply (leads_inert 2)|]. intros _.
  eapply leads_bind; [apply (leads_inert 2), inert_field|]. intros t w (((p & Hp & Hr) & Hn) & Hready & (p0 & Hp0 & Hle)).
  rewrite Hp in Hp0. injection Hp0 as <-. rewrite Hready in Hr. pose proof (edge_phases_le _ _ Hp).
  assert (p ≠ 3%nat) by (intros ->; destruct Hr as [_ Hr]; discriminate (Hr eq_refl)). assert (p = 2%nat) as -> by lia.
  unfold ecall, mbind, action_bind. destruct (dtlsTransport_start _ _ _) as [[a|x] b]; cbn; unfold phase_at, sound; cbn;
    rewrite (edge_phases_snoc _ _ _ Hp); cbn.
  - split; [split; [by eexists|done]|]. split; [done|]. eexists. split; [done|lia].
  - split; [|done]. eexists. split; [done|]. by rewrite Hready.
Qed.

Lemma edge_phase_connected p ok : (p < 3)%nat → edge_phase p (EdgeConnected ok) = Some (if ok then Nat.max p 1 else p).
Proof. intros H. unfold edge_phase. by rewrite (proj2 (Nat.ltb_lt p 3)). Qed.
Lemma leads_connected parameters : leads (phase_at 0 false) (phase_at 1 false) (ecall EdgeConnected (edge_connect parameters)).
Proof.
  intros w (((p & Hp & Hr) & Hn) & Hready & _). rewrite Hready in Hr. pose proof (edge_phases_le _ _ Hp).
  assert (p ≠ 3%nat) by (intros ->; destruct Hr as [_ Hr]; discriminate (Hr eq_refl)).
  unfold ecall. destruct (edge_connect _ _) as [[a|x] b]; cbn; unfold phase_at, sound; cbn;
    rewrite (edge_phases_snoc _ _ _ Hp), edge_phase_connected by lia; rewrite Hready.
  - split; [split; [eexists; split; [done|split; [done|lia]]|done]|]. split; [done|]. eexists. split; [done|lia].
  - split; [|done]. eexists. split; [done|split; [done|lia]].
Qed.

Lemma leads_setupTransport role : leads (phase_at 0 false) (phase_at 3 true) (setupTransport role).
Proof.
  unfold setupTransport. eapply leads_bind; [apply (leads_inert 0), inert_field|]. intros dtls.
  eapply leads_bind; [apply (leads_inert 0), inert_call|]. intros parameters.
  eapply leads_bind; [by apply (leads_inert 0)|]. intros _.
  eapply leads_bind; [apply leads_connected|]. intros _.
  eapply leads_bind; [by apply (leads_inert 1)|]. intros h.
  eapply leads_bind; [apply leads_start_ice|]. intros _. apply leads_start_dtls.
Qed.

Lemma phase_sound n r w : phase_at n r w → sound w.
Proof. by intros [? _]. Qed.
Lemma leads_ensure_ready : leads sound (phase_at 3 true) ensure_ready.
Proof.
  intros w Hs. unfold ensure_ready, mbind, action_bind, ehandler. destruct Hs as [(p & Hp & Hr) Hn].
  destruct (e_transportReady (ew_handler w)) eqn:E.
  - split; [split; [exists p; by rewrite E|done]|]. split; [done|]. exists p. destruct Hr as [Hr _]. rewrite (Hr eq_refl) in *. auto.
  - apply leads_setupTransport. split; [split; [exists p; by rewrite E|done]|]. split; [done|]. exists p. split; [done|lia].
Qed.

Lemma leads_weaken {A} (P P' Q Q' : EW → Prop) (m : M A) : (∀ w, P' w → P w) → (∀ w, Q w → Q' w) → leads P Q m → leads P' Q' m.
Proof. intros HP HQ Hm w Hw. specialize (Hm w (HP w Hw)). destruct (m w) as [[]]; auto. Qed.

Lemma senders_numbered_set m n s : senders_numbered m n → senders_numbered (map_set m (local_id n) s) (n + 1).
Proof.
  intros [Hn Hm]. split; [lia|]. induction Hm as [|[k v] m [i [Hi Hk]] Hm IH]; cbn; [repeat constructor; cbn; exists n; split; [lia|done]|].
  case_decide; (constructor; [exists i; split; [lia|done]|]); [|exact IH]. eapply Forall_impl; [exact Hm|]. intros e (j & Hj & E). exists j. split; [lia|done].
Qed.

Lemma sound_store_sender rtpSender parameters : leads sound sound (store_sender rtpSender parameters).
Proof. intros w (Hp & Hn). split; [done|]. cbn. by apply senders_numbered_set. Qed.

(** What [send] does to get there leaves the senders alone. *)
Definition same_senders (w w' : EW) : Prop :=
  e_rtpSenders (ew_handler w') = e_rtpSenders (ew_handler w) ∧ e_nextSendLocalId (ew_handler w') = e_nextSendLocalId (ew_handler w).
Definition leaves_senders {A} (m : M A) : Prop := ∀ w, same_senders w (m w).2.

Lemma leaves_inert {A} (m : M A) : inert m → leaves_senders m.
Proof. intros Hm w. specialize (Hm w). by injection Hm as _ _ ? ?. Qed.
Lemma leaves_bind {A C} (m : M A) (f : A → M C) : leaves_senders m → (∀ a, leaves_senders (f a)) → leaves_senders (m ≫= f).
Proof.
  intros Hm Hf w. unfold mbind, action_bind. specialize (Hm w). destruct (m w) as [[a|e] w']; [|done].
  specialize (Hf a w'). unfold same_senders in *. destruct Hm as [<- <-]. exact Hf.
Qed.
Lemma leaves_ecall {A} e (f : B → outcome A * B) : leaves_senders (ecall e f).
Proof. intros w. unfold ecall. by destruct (f _). Qed.
Ltac leaves := repeat first
  [ match goal with |- ∀ _, _ => intro | |- leaves_senders (ecall _ _) => apply leaves_ecall end
  | apply leaves_inert; first [apply inert_field | apply inert_call | apply inert_add_candidates] | apply leaves_bind | done | case_match ].
Lemma leaves_ensure_ready : leaves_senders ensure_ready.
Proof. unfold ensure_ready, setupTransport, start_ice, start_dtls. leaves. Qed.

Definition from {A} (w0 : EW) (R : A → EW → Prop) (m : M A) : Prop :=
  ∀ w, same_senders w0 w → match m w with (Ok a, w') => R a w' | (Throw _, _) => True end.
Lemma from_bind {A C} w0 R (m : M A) (f : A → M C) : leaves_senders m → (∀ a, from w0 R (f a)) → from w0 R (m ≫= f).
Proof.
  intros Hm Hf w [H1 H2]. unfold mbind, action_bind. specialize (Hm w). destruct (m w) as [[a|e] w']; [|done].
  apply Hf. unfold same_senders in *. cbn in Hm. destruct Hm as [-> ->]. done.
Qed.

Lemma from_store w0 rtpSender parameters : from w0 (λ r w, r = (Some (local_id (e_nextSendLocalId (ew_handler w0))), parameters, Some rtpSender) ∧
  e_rtpSenders (ew_handler w) = map_set (e_rtpSenders (ew_handler w0)) (local_id (e_nextSendLocalId (ew_handler w0))) rtpSender)
  (store_sender rtpSender parameters).
Proof. intros w [E1 E2]. unfold same_senders in *. cbn. by rewrite <- E1, <- E2. Qed.

Abbreviation edge_send := (send isSameProfile generateProfileLevelIdStringForAnswer).
Abbreviation edge_methods := (createFactory isSameProfile generateProfileLevelIdStringForAnswer).

Lemma from_send w0 o : from w0 (λ r w, ∃ parameters rtpSender,
  r = (Some (local_id (e_nextSendLocalId (ew_handler w0))), parameters, Some rtpSender) ∧
  e_rtpSenders (ew_handler w) = map_set (e_rtpSenders (ew_handler w0)) (local_id (e_nextSendLocalId (ew_handler w0))) rtpSender) (edge_send o).
Proof.
  unfold send. apply from_bind; [apply leaves_ensure_ready|]. intros _.
  apply from_bind; [apply leaves_inert, inert_field|]. intros dtls. apply from_bind; [apply leaves_inert, inert_call|]. intros rtpSender.
  do 3 (apply from_bind; [done|]; intros ?).
  apply from_bind; [apply leaves_inert; unfold with_ssrcs; inert|]. intros encodings. cbv zeta.
  apply from_bind; [done|]. intros ?. apply from_bind; [apply leaves_inert, inert_call|]. intros _ w Hw.
  pose proof (from_store _ rtpSender (js_set (js_set a0 "encodings" (JArr encodings)) "rtcp" (JObj [("cname", JStr (er_cname (e_run a))); ("reducedSize", JBool true); ("mux", JBool true)])) w Hw) as H.
  destruct (store_sender _ _ _) as [[r|e] w']; [|done]. destruct H as [-> H]. by eexists _, _.
Qed.

Lemma sound_send o : leads sound sound (edge_send o).
Proof.
  unfold send. eapply leads_bind; [apply (leads_weaken sound sound (phase_at 3 true) sound); [done|apply phase_sound|apply leads_ensure_ready]|]. intros _.
  eapply leads_bind; [apply sound_inert, inert_field|]. intros dtls. eapply leads_bind; [apply sound_inert, inert_call|]. intros rtpSender.
  do 3 (eapply leads_bind; [by apply sound_inert|]; intros ?).
  eapply leads_bind; [apply sound_inert; unfold with_ssrcs; inert|]. intros encodings. cbv zeta.
  eapply leads_bind; [by apply sound_inert|]. intros ?. eapply leads_bind; [apply sound_inert, inert_call|]. intros _. apply sound_store_sender.
Qed.

Lemma sound_delete localId : leads sound sound (set_edge (with_rtpSenders (λ m, map_delete m localId))).
Proof. intros w (Hp & Hn & Hm). split; [done|]. split; [done|]. cbn. by apply map_delete_Forall. Qed.
Lemma sound_restartIce iceParameters : leads sound sound (restartIce iceParameters).
Proof.
  unfold restartIce. eapply leads_bind; [by apply sound_inert|]. intros _ w Hs. unfold mbind, action_bind, ehandler.
  destruct (e_transportReady (ew_handler w)) eqn:E; [|done]. apply (leads_weaken (phase_at 1 true) (phase_at 1 true) (phase_at 2 true) sound _ (λ _ h, h)
    (phase_sound _ _) (leads_start_ice _ _)). split; [done|]. split; [done|]. destruct Hs as [(p & Hp & Hr) _]. rewrite E in Hr.
  exists p. destruct Hr as [Hr _]. rewrite (Hr eq_refl) in *. split; [done|lia].
Qed.

Lemma sound_op op w : sound w → sound (do_op edge_methods op w).2.
Proof.
  assert (∀ A (m : M A), leads sound sound m → leads sound sound (m ≫= λ _, mret tt)) as Hi by (intros A m Hm; apply (leads_bind sound sound sound _ _ Hm); intros _ w1 Hw; exact Hw).
  revert w. apply leads_sound.
  destruct op; cbn [do_op createFactory m_send m_stopSending m_pauseSending m_resumeSending m_replaceTrack m_setMaxSpatialLayer
    m_setRtpEncodingParameters m_sendDataChannel m_receive m_stopReceiving m_pauseReceiving m_resumeReceiving m_receiveDataChannel
    m_restartIce m_updateIceServers m_getTransportStats m_getSenderStats m_getReceiverStats m_close];
    try (apply sound_inert; first [done | apply inert_close | apply inert_stopReceiving | apply inert_change_encodings]).
  - apply Hi, sound_send.
  - unfold stopSending. eapply leads_bind; [apply sound_inert, inert_sender_of|]. intros s.
    eapply leads_bind; [apply sound_delete|]. intros _. apply sound_inert, inert_call.
  - apply sound_inert. unfold replaceTrack. inert.
  - apply Hi. unfold receive. eapply leads_bind; [apply (leads_weaken sound sound (phase_at 3 true) sound); [done|apply phase_sound|apply leads_ensure_ready]|].
    intros _. apply sound_inert, inert_collect. intros x. apply inert_receive_one.
  - apply sound_restartIce.
  - apply Hi, sound_inert. unfold getTransportStats. inert.
  - apply Hi, sound_inert. unfold getSenderStats. inert.
  - apply Hi, sound_inert. unfold getReceiverStats. inert.
Qed.

(** A handler of Edge that was started and then used in any way. *)
Definition used (b : B) (o : RunOptions) (ops : list handler_op) : EW := after_ops edge_methods ops (run o (new_EdgeWorld b)).2.

Lemma used_sound b o ops : sound (used b o ops).
Proof.
  unfold used, after_ops. assert (sound (run o (new_EdgeWorld b)).2) as H.
  { apply (proj1 (leads_sound _) (sound_inert _ (inert_run o))). split; [exists 0%nat; by split|]. by split. }
  revert H. generalize (run o (new_EdgeWorld b)).2. induction ops as [|op ops IH]; intros w H; [done|]. cbn. by apply IH, sound_op.
Qed.

(** Whatever the browser does: the transports of the handler start in order, ICE after
    the server has the local parameters and DTLS after ICE, DTLS at most once, and the
    handler is ready exactly from then on. *)
Theorem edge_transports_start_once b o ops : let w := used b o ops in
  ∃ p, edge_phases (ew_log w) = Some p ∧ (e_transportReady (ew_handler w) = true ↔ p = 3%nat).
Proof. apply used_sound. Qed.

(** The local id of a sender is new, unless there have been more than 2^53 of them: what
    was sent before is still found under its id. *)
Theorem edge_local_ids_new b o ops opts w' localId parameters s : let w := used b o ops in
  e_nextSendLocalId (ew_handler w) ≤ 2 ^ 53 → edge_send opts w = (Ok (localId, parameters, s), w') →
  ∃ id rtpSender, localId = Some id ∧ s = Some rtpSender ∧ map_get (e_rtpSenders (ew_handler w)) id = None ∧
    map_get (e_rtpSenders (ew_handler w')) id = Some rtpSender ∧
    ∀ id', id' ≠ id → map_get (e_rtpSenders (ew_handler w')) id' = map_get (e_rtpSenders (ew_handler w)) id'.
Proof.
  cbv zeta. intros Hmax Hsend. destruct (used_sound b o ops) as [_ [Hn Hm]]. set (w := used b o ops) in *.
  pose proof (from_send w opts w (conj eq_refl eq_refl)) as H. rewrite Hsend in H. destruct H as (ps & x & [= -> -> ->] & E). rewrite E.
  eexists _, _. split; [done|]. split; [done|]. split; [|split; [apply map_get_set_eq|intros; by apply map_get_set_ne]].
  apply map_get_none. unfold map_keys. rewrite list_elem_of_fmap. intros (e & He & Hin). rewrite Forall_forall in Hm.
  destruct (Hm e Hin) as (i & Hi & E'). rewrite E' in He. apply local_id_inj in He; lia.
Qed.
End Runs.
